(* ===== verification/_CoqProject ===== *)
-Q . S2P
Prelude.v
KState.v
Sample.v
StringC.v
Spinlock.v
Sched.v
Sleeplock.v
Quiet.v
Switch.v
Uart.v
Printf.v
Pages.v
Kalloc.v
Vm.v
PageTable.v
UserVm.v
UserSpace.v
Copy.v
ForkVm.v
Bio.v
BufCache.v
BufRefine.v
Log.v
LogDisk.v
BufWp.v
LogRun.v
LogSafe.v
LogOps.v
Transaction.v
FsWp.v
Fs.v
FsBlocks.v
FsInode.v
FsFile.v
FsData.v
FsOps.v
Mkfs.v
FsSample.v
MkfsOk.v
Pipe.v
Console.v
File.v
FileRw.v
FsDir.v
DirLink.v
TreeUpd.v
Mount.v
Paths.v
PipeRing.v
Proc.v
ProcVm.v
AllocProc.v
Fork.v
Reap.v
Exec.v
Virtio.v
VirtioDisk.v
Syscall.v
SysLink.v
Trap.v
UserOS.v
Ulib.v
Grep.v
UserProgs.v
Xargs.v
Find.v
Umalloc.v
Sh.v
Primes.v
