(* ===== verification/Prelude.v ===== *)
(** * A verification development for xv6-riscv and its user programs

    The program is a small Unix: a kernel in C ([src/kernel]), the user programs that
    run on it ([src/user]), among them find, xargs, primes and pingpong, the exercises
    this repository adds, and mkfs ([src/mkfs]), which builds the disk image on the
    host.  Every C function of the kernel, of mkfs and of the user programs named below
    has a Rocq definition of the same name (a prefix where two
    files use one name), written as the source is: the same tests, early returns and
    calls in the same order.

    ** How the code is modelled

    A kernel routine is a computation [KM kstate A] (Prelude): it runs on the global
    variables, memory, disk and device state of the kernel, the record [kstate]
    (KState), and on a schedule, the list of the changes that other threads make each
    time this one is switched out or spins.  It returns ([Ok]), stops in [panic]
    ([Panic]), or is still switched out or spinning when the schedule ends ([Wait]).
    C integers are [Z] with the conversions [u8] ... [i64] where the source can wrap;
    memory is a map of bytes by physical address, and page tables and the free list
    are words in it; pointers into static tables are indices.  Where several harts or
    processes interleave and the claim depends on it (the spin lock, sleep and wakeup,
    the primes network) the code is a step relation on program points.

    A user program is a computation over a world that it reaches only through system
    calls: [UserOS] (UserOS) is the interface of user/user.h, and the classes
    [StreamOS], [ProcOS], [TreeOS] (Find), [SbrkOS] (Umalloc) and [FdOS] (Sh) state
    what the kernel promises of groups of calls.  Each class has an instance, on which
    the theorems are evaluated.

    Code outside the repository is a parameter: the addresses the linker chooses
    (class [Layout]), the virtio device (its register reads [mmio_read] and, in class
    [VirtioDevice], how it serves a posted request), the host's files for mkfs.  The
    disk under the buffer cache is the class [DiskDriver] with the laws [DiskLaws];
    the virtio driver is an instance of it (VirtioDisk).

    ** Files

    - Prelude, KState, Sample: integers, the kernel monad, lists of bytes; constants,
      structures and state; a concrete state for evaluation.
    - StringC (string.c), Spinlock (spinlock.c), Sched (proc.c: sched, yield, sleep,
      wakeup, kill), Sleeplock (sleeplock.c), Quiet (threads that meet no contention),
      Switch (a thread that is switched out and resumed, and the turn of another one),
      Uart (uart.c), Printf (printf.c).
    - Pages, Kalloc (kalloc.c), Vm (vm.c) and its proofs PageTable, UserVm, UserSpace,
      Copy and ForkVm (uvmcopy).
    - Bio (bio.c) with BufCache and BufRefine; Log (log.c) with LogDisk, BufWp,
      LogRun, LogSafe, LogOps and Transaction.
    - Fs (fs.c) with its proofs: FsWp (rules for the routines of the file system inside
      a transaction), FsBlocks (bitmap and block allocation), FsInode (inodes on the
      disk and in the table), FsFile (the block map), FsData (readi and writei), FsOps
      (the invariant of all files), FsDir (entries, directories and paths), DirLink
      (dirlink), TreeUpd (how an update of a directory changes what paths lead to),
      FsSample (a disk for evaluation).
    - Mkfs (mkfs.c) and MkfsOk (its image).
    - Pipe (pipe.c) with PipeRing (the pipe as a queue between two processes), Console
      (console.c), File (file.c) with FileRw (fileread and
      filewrite from user memory to the disk), Mount (fsinit), Paths (namex and namei on
      a mounted disk), Proc (proc.c: the process table) with ProcVm (a process's page
      table), AllocProc (slots of the table), Fork and Reap (fork and wait), Exec (exec.c), Virtio (virtio_disk.c, plic.c) with
      VirtioDisk, Syscall (sysproc.c, sysfile.c, syscall.c) with SysLink (link), Trap
      (trap.c, main.c, start.c).
    - UserOS (user.h), Ulib (ulib.c, printf.c), Grep, UserProgs (cat, echo, wc, ls,
      kill, ln, mkdir, rm, zombie, init, pingpong), Xargs, Find, Umalloc, Sh, Primes.

    ** What the theorems show

    - Crash safety: a commit of the log is atomic under a crash after any number of
      disk writes and any number of interrupted recoveries (LogSafe), and a whole
      transaction puts its updates on the disk (Transaction), over a buffer cache that
      refines a map of live blocks (BufRefine) and a disk that the virtio driver
      implements (VirtioDisk).
    - Files: a write through a descriptor reaches the disk, can be read back, and
      leaves every other file as it was (FileRw); mounting recovers the committed
      files, and what mkfs puts into an image is what the kernel finds in it (Mount).
    - Names: the directories on the disk form a graph of linked inodes, and namex
      follows a path through it to the inode the path leads to, with exactly one
      reference gained; a file of the image is found under its name (Paths).  The
      system call link makes a second path to a file, or fails with no effect on files
      and link counts; no other path changes (SysLink).
    - Memory: the allocator refines a set of free pages that are never handed out
      twice (Kalloc); mappages and walk act on an abstract page table as specified
      (PageTable); growing and freeing an address space neither leaks nor maps twice
      (UserSpace); copies to and from user memory give the bytes back over page
      boundaries and touch nothing else, whatever the address (Copy); uvmcopy copies
      a whole address space or gives back the frames it took (ForkVm).
    - Processes: fork makes a child that is a copy of its parent in memory, registers
      and open files, or has no effect (Fork); wait gives back everything an exited
      child had, or sleeps until there is one (Reap).
    - Concurrency: mutual exclusion of the spin lock and nesting of push_off
      (Spinlock), no lost wakeup (Sched), a pipe that carries every byte in order from a
      writer that sleeps to a reader that wakes it (PipeRing), the primes network in every interleaving
      (Primes).
    - User programs: grep's matcher equals the semantics of its patterns and grep,
      cat, wc, xargs and find do what they promise however their input is cut into
      reads, within the limits of their buffers that the theorems name; the shell's parser reads back what is printed, is total, and pipelines and
      redirections connect the descriptors meant; malloc hands out disjoint blocks and
      free joins them.
    - Formatting and strings: printint against atoi, memmove on overlapping ranges,
      safestrcpy.
    - Where the code does not do what it means to, a theorem about the model says so:
      log_reservation_overflows, printint_overruns, xargs_splits_long_word,
      find_depth_limit, malloc_overflows, mkfs_root_hole.

    ** Bounds and fuel

    Loops whose rounds the state bounds (pages of a range, buffers, bytes of a string)
    recurse on that bound; when it is exceeded the model does not return ([kspin], or
    [USpin] for user programs), so a theorem that a routine returns also shows that
    the bound was enough.  Loops that run as long as their input take the number of
    rounds as an argument, and the theorems say how many are enough.

    ** Not modelled

    The assembly (entry.S, kernelvec.S, swtch.S, trampoline.S, initcode.S): its effect
    is the step between the C routines it connects.  The test programs usertests.c,
    grind.c, forktest.c and stressfs.c, which only exercise system calls.  Time,
    caches and memory ordering of the hardware: a hart's loads and stores take effect
    at once.  malloc failure in the shell's node constructors. *)

From stdpp Require Import base gmap strings list.


(** ** Notations, options and the development's hint databases *)

Declare Scope xv6_scope.
Delimit Scope xv6_scope with xv6.
Open Scope Z_scope.

Create HintDb xv6.
#[export] Hint Constants Opaque : xv6.
Create Rewrite HintDb xv6.

(** ** Machine integers

    A C integer of [w] bits is the [Z] it denotes; every place where the C
    program can wrap goes through one of these conversions. *)

Definition u8 (x : Z) : Z := x mod 2 ^ 8.
Definition u16 (x : Z) : Z := x mod 2 ^ 16.
Definition u32 (x : Z) : Z := x mod 2 ^ 32.
Definition u64 (x : Z) : Z := x mod 2 ^ 64.

(** Two's complement reinterpretation of a [w]-bit value. *)
Definition signed (w : Z) (x : Z) : Z :=
  let y := x mod 2 ^ w in if y <? 2 ^ (w - 1) then y else y - 2 ^ w.
Definition i16 (x : Z) : Z := signed 16 x.
Definition i32 (x : Z) : Z := signed 32 x.
Definition i64 (x : Z) : Z := signed 64 x.

Definition byte_ok (b : Z) : Prop := 0 <= b < 256.

(** ** Kernel computations

    A kernel routine runs on a state of type [S] against a schedule: the list
    of state changes that other threads make while this one is switched out
    or spinning.  [Ok] returns; [Panic] is the kernel's [panic]; [Wait] is a
    thread that has been switched out (or spins) when the schedule ends. *)

Section Monad.
Context {S : Type}.

Definition sched_env : Type := list (S -> S).

Inductive res (A : Type) : Type :=
| Ok (a : A) (s : S) (e : sched_env)
| Panic (msg : string) (s : S)
| Wait (s : S).

Definition KM (A : Type) : Type := S -> sched_env -> res A.

End Monad.

Arguments sched_env S : clear implicits.
Arguments res S A : clear implicits.
Arguments KM S A : clear implicits.
Arguments Ok {S A} a s e.
Arguments Panic {S A} msg s.
Arguments Wait {S A} s.

#[export] Instance KM_ret {S} : MRet (KM S) := fun A a s e => Ok a s e.
#[export] Instance KM_bind {S} : MBind (KM S) := fun A B f m s e =>
  match m s e with
  | Ok a s' e' => f a s' e'
  | Panic msg s' => Panic msg s'
  | Wait s' => Wait s'
  end.

Definition gets {S A} (f : S -> A) : KM S A := fun s e => Ok (f s) s e.
Definition modify {S} (f : S -> S) : KM S unit := fun s e => Ok () (f s) e.
Definition kpanic {S A} (msg : string) : KM S A := fun s _ => Panic msg s.
(** A loop that does not end, or that takes more rounds than the bound given. *)
Definition kspin {S A} : KM S A := fun s _ => Wait s.

(** Give the processor away: the next interference of the schedule happens;
    with no schedule left the thread stays switched out. *)
Definition yield_env {S} : KM S unit := fun s e =>
  match e with
  | [] => Wait s
  | f :: e' => Ok () (f s) e'
  end.

Definition when {S} (b : bool) (m : KM S unit) : KM S unit :=
  if b then m else mret ().

(** Run a computation for each element, in order. *)
Fixpoint for_each {S A} (l : list A) (f : A -> KM S unit) : KM S unit :=
  match l with
  | [] => mret ()
  | x :: l' => f x ;; for_each l' f
  end.

(** [while(cond) body] where every round of [body] gives the processor away:
    one round more than the schedule is long is all that can happen
    ([while_fuel_enough]). *)
Fixpoint while_fuel {S} (n : nat) (cond : KM S bool) (body : KM S unit) : KM S unit :=
  match n with
  | O => fun s _ => Wait s
  | Datatypes.S n' =>
      b ← cond;
      if b : bool then body;; while_fuel n' cond body else mret ()
  end.
Definition while_wait {S} (cond : KM S bool) (body : KM S unit) : KM S unit :=
  fun s e => while_fuel (Datatypes.S (length e)) cond body s e.

(** A computation that does not extend the schedule, or that uses it up. *)
Definition no_grow {S A} (m : KM S A) : Prop :=
  forall s e a s' e', m s e = Ok a s' e' -> (length e' <= length e)%nat.
Definition consumes {S A} (m : KM S A) : Prop :=
  forall s e a s' e', m s e = Ok a s' e' -> (length e' < length e)%nat.

Section MonadLemmas.
Context {S : Type}.
Implicit Types (s : S) (e : sched_env S).

Lemma Ok_eq {A} (a a' : A) s s' e : a = a' -> s = s' -> Ok a s e = Ok a' s' e.
Proof. by intros -> ->. Qed.

Lemma bind_ok {A B} (m : KM S A) (f : A -> KM S B) s e a s' e' :
  m s e = Ok a s' e' -> (m ≫= f) s e = f a s' e'.
Proof. intros H. unfold mbind, KM_bind. by rewrite H. Qed.

Lemma bind_panic {A B} (m : KM S A) (f : A -> KM S B) s e msg s' :
  m s e = Panic msg s' -> (m ≫= f) s e = Panic msg s'.
Proof. intros H. unfold mbind, KM_bind. by rewrite H. Qed.

Lemma bind_wait {A B} (m : KM S A) (f : A -> KM S B) s e s' :
  m s e = Wait s' -> (m ≫= f) s e = Wait s'.
Proof. intros H. unfold mbind, KM_bind. by rewrite H. Qed.

Lemma bind_inv_ok {A B} (m : KM S A) (f : A -> KM S B) s e b s2 e2 :
  (m ≫= f) s e = Ok b s2 e2 ->
  exists a s1 e1, m s e = Ok a s1 e1 /\ f a s1 e1 = Ok b s2 e2.
Proof.
  unfold mbind, KM_bind. destruct (m s e) as [a s1 e1| |] eqn:E; try done. eauto.
Qed.

Lemma bind_gets {A B} (g : S -> A) (f : A -> KM S B) s e :
  (gets g ≫= f) s e = f (g s) s e.
Proof. done. Qed.

Lemma bind_modify {B} (g : S -> S) (f : unit -> KM S B) s e :
  (modify g ≫= f) s e = f () (g s) e.
Proof. done. Qed.

Lemma bind_ret {A B} (a : A) (f : A -> KM S B) s e :
  (mret a ≫= f) s e = f a s e.
Proof. done. Qed.

Lemma bind_assoc {A B C} (m : KM S A) (f : A -> KM S B) (g : B -> KM S C) s e :
  ((m ≫= f) ≫= g) s e = (m ≫= (fun a => f a ≫= g)) s e.
Proof. unfold mbind, KM_bind. by destruct (m s e). Qed.

Lemma for_each_app {A} (l1 l2 : list A) (f : A -> KM S unit) s e :
  for_each (l1 ++ l2) f s e = (for_each l1 f ;; for_each l2 f) s e.
Proof.
  revert s e. induction l1 as [|x l1 IH]; intros s e; [done|].
  cbn [for_each app]. rewrite bind_assoc. unfold mbind, KM_bind.
  destruct (f x s e) as [[] s1 e1| |]; [apply IH|done..].
Qed.

Lemma for_each_run {A} (P : S -> Prop) (f : A -> KM S unit) (g : A -> S -> S) (l : list A) s e :
  (forall x s e, x ∈ l -> P s -> f x s e = Ok () (g x s) e /\ P (g x s)) ->
  P s ->
  for_each l f s e = Ok () (fold_left (fun s x => g x s) l s) e /\
  P (fold_left (fun s x => g x s) l s).
Proof.
  revert s. induction l as [|x l IH]; intros s Hf HP; [done|]. cbn.
  destruct (Hf x s e) as [H1 H2]; [set_solver|done|].
  rewrite (bind_ok _ _ _ _ _ _ _ H1). apply IH; [|done].
  intros y s' e' Hy HP'. apply Hf; [set_solver|done].
Qed.

Lemma while_fuel_enough (cond : KM S bool) (body : KM S unit) n m s e :
  no_grow cond -> consumes body -> (length e < n)%nat -> (length e < m)%nat ->
  while_fuel n cond body s e = while_fuel m cond body s e.
Proof.
  intros Hc Hb. revert m s e. induction n as [|n IH]; intros m s e Hn Hm; [lia|].
  destruct m as [|m]; [lia|]. cbn [while_fuel]. unfold mbind, KM_bind.
  destruct (cond s e) as [[] s1 e1| |] eqn:E1; try done.
  destruct (body s1 e1) as [[] s2 e2| |] eqn:E2; try done.
  apply Hc in E1. apply Hb in E2. apply IH; lia.
Qed.

Lemma while_wait_false (cond : KM S bool) (body : KM S unit) s e s' e' :
  cond s e = Ok false s' e' -> while_wait cond body s e = Ok () s' e'.
Proof. intros H. unfold while_wait. cbn. by rewrite (bind_ok _ _ _ _ _ _ _ H). Qed.

Lemma while_wait_true (cond : KM S bool) (body : KM S unit) s e s' e' s'' e'' :
  no_grow cond -> consumes body ->
  cond s e = Ok true s' e' -> body s' e' = Ok () s'' e'' ->
  while_wait cond body s e = while_wait cond body s'' e''.
Proof.
  intros Hc Hb H1 H2. pose proof (Hc _ _ _ _ _ H1). pose proof (Hb _ _ _ _ _ H2).
  transitivity (while_fuel (length e) cond body s'' e''); [|apply while_fuel_enough; done || lia].
  unfold while_wait. cbn. by rewrite (bind_ok _ _ _ _ _ _ _ H1), (bind_ok _ _ _ _ _ _ _ H2).
Qed.

Lemma no_grow_bind {A B} (m : KM S A) (f : A -> KM S B) :
  no_grow m -> (forall a, no_grow (f a)) -> no_grow (m ≫= f).
Proof.
  intros Hm Hf s e b s' e' H. apply bind_inv_ok in H as (a & s1 & e1 & H1 & H2).
  apply Hm in H1. apply Hf in H2. lia.
Qed.

Lemma consumes_bind_l {A B} (m : KM S A) (f : A -> KM S B) :
  consumes m -> (forall a, no_grow (f a)) -> consumes (m ≫= f).
Proof.
  intros Hm Hf s e b s' e' H. apply bind_inv_ok in H as (a & s1 & e1 & H1 & H2).
  apply Hm in H1. apply Hf in H2. lia.
Qed.

Lemma consumes_bind_r {A B} (m : KM S A) (f : A -> KM S B) :
  no_grow m -> (forall a, consumes (f a)) -> consumes (m ≫= f).
Proof.
  intros Hm Hf s e b s' e' H. apply bind_inv_ok in H as (a & s1 & e1 & H1 & H2).
  apply Hm in H1. apply Hf in H2. lia.
Qed.

Lemma no_grow_gets {A} (f : S -> A) : no_grow (gets f).
Proof. intros s e a s' e' [= <- <- <-]. lia. Qed.
Lemma no_grow_modify (f : S -> S) : no_grow (modify f).
Proof. intros s e a s' e' [= <- <- <-]. lia. Qed.
Lemma no_grow_ret {A} (a : A) : no_grow (mret (M := KM S) a).
Proof. intros s e b s' e' [= <- <- <-]. lia. Qed.
Lemma no_grow_panic {A} msg : no_grow (kpanic (S := S) (A := A) msg).
Proof. intros s e b s' e' [=]. Qed.
Lemma consumes_panic {A} msg : consumes (kpanic (S := S) (A := A) msg).
Proof. intros s e b s' e' [=]. Qed.
Lemma no_grow_when b (m : KM S unit) : no_grow m -> no_grow (when b m).
Proof. intros. destruct b; [done|apply no_grow_ret]. Qed.
Lemma consumes_yield : consumes (yield_env (S := S)).
Proof. intros s [|f e] a s' e' [=]; subst. cbn. lia. Qed.

End MonadLemmas.

#[export] Hint Resolve no_grow_gets no_grow_modify no_grow_ret no_grow_panic no_grow_when
  consumes_panic consumes_yield : xv6.

(** Follow a computation's structure to show that it does not extend the schedule. *)
Ltac no_grow_solve :=
  repeat first
    [ solve [auto with xv6]
    | apply no_grow_bind; [|intros]
    | case_match
    | progress cbn beta zeta ].

(** Symbolic execution: rewrite the first bound computation with a lemma. *)
Ltac kstep_with H := rewrite (bind_ok _ _ _ _ _ _ _ H).
Ltac kstep tac := erewrite bind_ok by tac.
Ltac kpure :=
  repeat first [rewrite bind_gets | rewrite bind_modify | rewrite bind_ret | rewrite bind_assoc].

Ltac consumes_solve :=
  repeat first
    [ solve [auto with xv6]
    | apply consumes_bind_l; [solve [auto with xv6]|intros; solve [no_grow_solve]]
    | apply consumes_bind_r; [solve [no_grow_solve]|intros]
    | case_match
    | progress cbn beta zeta ].

(** ** Little-endian byte sequences *)

Fixpoint le_bytes (n : nat) (z : Z) : list Z :=
  match n with
  | O => []
  | Datatypes.S n' => z mod 256 :: le_bytes n' (z / 256)
  end.

Fixpoint le_val (l : list Z) : Z :=
  match l with
  | [] => 0
  | b :: l' => b + 256 * le_val l'
  end.

Lemma length_le_bytes n z : length (le_bytes n z) = n.
Proof. revert z. induction n; intros; simpl; auto. Qed.

Lemma le_bytes_ok n z : Forall byte_ok (le_bytes n z).
Proof.
  revert z. induction n; intros; simpl; constructor; auto.
  apply Z.mod_pos_bound. lia.
Qed.

Lemma pow256_succ n : 256 ^ Z.of_nat (Datatypes.S n) = 256 * 256 ^ Z.of_nat n.
Proof. rewrite Nat2Z.inj_succ, Z.pow_succ_r; lia. Qed.

Lemma pow256_pos n : 0 < 256 ^ Z.of_nat n.
Proof. apply Z.pow_pos_nonneg; lia. Qed.

Lemma le_val_bytes n z : le_val (le_bytes n z) = z mod 256 ^ Z.of_nat n.
Proof.
  revert z. induction n as [|n IH]; intros z; [simpl; by rewrite Z.mod_1_r|].
  cbn [le_bytes le_val]. rewrite IH, pow256_succ.
  pose proof (pow256_pos n). rewrite Z.rem_mul_r by lia. lia.
Qed.

Lemma le_val_range l : Forall byte_ok l -> 0 <= le_val l < 256 ^ Z.of_nat (length l).
Proof.
  induction 1 as [|b l Hb _ IH]; [simpl; lia|].
  cbn [le_val length]. rewrite pow256_succ. unfold byte_ok in Hb. lia.
Qed.

Lemma le_bytes_val l : Forall byte_ok l -> le_bytes (length l) (le_val l) = l.
Proof.
  induction 1 as [|b l Hb _ IH]; [done|].
  cbn [le_val length le_bytes]. unfold byte_ok in Hb.
  replace ((b + 256 * le_val l) mod 256) with b
    by (rewrite (Z.mul_comm 256), Z_mod_plus_full; symmetry; apply Z.mod_small; lia).
  replace ((b + 256 * le_val l) / 256) with (le_val l)
    by (rewrite (Z.mul_comm 256), Z.div_add by lia; rewrite Z.div_small; lia).
  by rewrite IH.
Qed.

(** ** Fields of a byte block *)

Definition slice {A} (l : list A) (off n : nat) : list A := take n (drop off l).
Definition splice {A} (l : list A) (off : nat) (bs : list A) : list A :=
  take off l ++ bs ++ drop (off + length bs) l.

(** The [n]-byte little-endian field at [off], and its update. *)
Definition get_le (l : list Z) (off n : nat) : Z := le_val (slice l off n).
Definition put_le (l : list Z) (off n : nat) (v : Z) : list Z :=
  splice l off (le_bytes n v).

Section Splice.
Context {A : Type}.
Implicit Types (l bs : list A).

Lemma length_slice l off n : (off + n <= length l)%nat -> length (slice l off n) = n.
Proof. intros. unfold slice. rewrite length_take, length_drop. lia. Qed.

Lemma length_splice l off bs :
  (off + length bs <= length l)%nat -> length (splice l off bs) = length l.
Proof.
  intros. unfold splice. rewrite !length_app, length_take, length_drop. lia.
Qed.

Lemma lookup_splice l off bs i :
  (off + length bs <= length l)%nat ->
  splice l off bs !! i =
    if decide (off <= i < off + length bs)%nat then bs !! (i - off)%nat else l !! i.
Proof.
  intros Hlen. unfold splice. case_decide as Hi.
  - rewrite lookup_app_r by (rewrite length_take; lia).
    rewrite length_take, lookup_app_l by lia. f_equal. lia.
  - destruct (decide (i < off)%nat).
    + rewrite lookup_app_l by (rewrite length_take; lia). by rewrite lookup_take_lt.
    + rewrite lookup_app_r by (rewrite length_take; lia).
      rewrite length_take, lookup_app_r by lia.
      rewrite lookup_drop. f_equal. lia.
Qed.

Lemma lookup_slice l off n i :
  slice l off n !! i = if decide (i < n)%nat then l !! (off + i)%nat else None.
Proof.
  unfold slice. case_decide.
  - by rewrite lookup_take_lt, lookup_drop.
  - by rewrite lookup_take_ge by lia.
Qed.

Lemma slice_splice_same l off bs :
  (off + length bs <= length l)%nat -> slice (splice l off bs) off (length bs) = bs.
Proof.
  intros. apply list_eq. intros i. rewrite lookup_slice, lookup_splice by done.
  repeat case_decide; try lia.
  - f_equal. lia.
  - symmetry. apply lookup_ge_None. lia.
Qed.

Lemma slice_splice_other l off bs off' n :
  (off + length bs <= length l)%nat ->
  (off' + n <= off \/ off + length bs <= off')%nat ->
  slice (splice l off bs) off' n = slice l off' n.
Proof.
  intros. apply list_eq. intros i. rewrite !lookup_slice, lookup_splice by done.
  case_decide; [case_decide; [lia|done]|done].
Qed.

Lemma splice_slice_id l off n :
  (off + n <= length l)%nat -> splice l off (slice l off n) = l.
Proof.
  intros. apply list_eq. intros i. rewrite lookup_splice by (rewrite length_slice; lia).
  rewrite length_slice by lia. rewrite lookup_slice.
  repeat case_decide; try lia; try done. f_equal. lia.
Qed.

End Splice.

Lemma get_put_le l off n v :
  (off + n <= length l)%nat -> get_le (put_le l off n v) off n = v mod 256 ^ Z.of_nat n.
Proof.
  intros. unfold get_le, put_le.
  pose proof (length_le_bytes n v) as Hn.
  rewrite <- Hn at 2. rewrite slice_splice_same by lia. apply le_val_bytes.
Qed.

Lemma get_put_le_other l off n v off' n' :
  (off + n <= length l)%nat -> (off' + n' <= off \/ off + n <= off')%nat ->
  get_le (put_le l off n v) off' n' = get_le l off' n'.
Proof.
  intros. unfold get_le, put_le. rewrite slice_splice_other; [done|..];
    rewrite length_le_bytes; lia.
Qed.

Lemma length_put_le l off n v :
  (off + n <= length l)%nat -> length (put_le l off n v) = length l.
Proof. intros. unfold put_le. rewrite length_splice; [done|]. rewrite length_le_bytes; lia. Qed.

#[export] Hint Rewrite length_le_bytes length_put_le @length_slice @length_splice
  using lia : xv6.

(** ** Table entries *)

Lemma list_alter_known {A} (f : A -> A) (l : list A) i x :
  l !! i = Some x -> alter f i l = <[i := f x]> l.
Proof.
  intros H. rewrite list_insert_alter. apply list_alter_ext; [|done].
  intros y Hy. congruence.
Qed.

Lemma list_alter_insert {A} (f : A -> A) (l : list A) i x :
  (i < length l)%nat -> alter f i (<[i := x]> l) = <[i := f x]> l.
Proof.
  intros H. rewrite (list_alter_known f _ i x) by (by apply list_lookup_insert_eq).
  by rewrite list_insert_insert_eq.
Qed.

Lemma list_insert_same {A} (l : list A) i x : l !! i = Some x -> <[i := x]> l = l.
Proof. apply list_insert_id. Qed.

(** ** Machine integers *)

Lemma i32_id v : - 2 ^ 31 <= v < 2 ^ 31 -> i32 v = v.
Proof.
  intros H. unfold i32, signed. change (2 ^ (32 - 1)) with (2 ^ 31).
  destruct (Z.le_gt_cases 0 v).
  - rewrite Z.mod_small by lia. destruct (Z.ltb_spec v (2 ^ 31)); lia.
  - rewrite <- (Z.mod_add v 1 (2 ^ 32)), Z.mod_small by lia.
    destruct (Z.ltb_spec (v + 1 * 2 ^ 32) (2 ^ 31)); lia.
Qed.

(** ** Bounds automation *)

Ltac byte_solve := unfold byte_ok in *; lia.
Ltac wrap_small := unfold u8, u16, u32, u64 in *; rewrite ?Z.mod_small by lia.
