(* ===== verification/KState.v ===== *)
(** * Kernel constants, C structures and the kernel state

    The constants of [param.h], [memlayout.h], [riscv.h] and [fs.h], one
    record per C structure ([proc.h], [buf.h], [file.h], [fs.h], [log.c],
    [pipe.c], [console.c], [uart.c]), and [kstate], the global variables of
    the kernel together with the memory, disk and device state they act on.
    Pointers into a static table (processes, buffers, inodes, files) are
    indices, with [None] for the null pointer; pointers to allocated pages are
    physical addresses. *)

From stdpp Require Import base gmap strings countable list.
From S2P Require Import Prelude.

(** ** Constants *)

(** [param.h] *)
Definition NPROC : Z := 64.
Definition NCPU : Z := 8.
Definition NOFILE : Z := 16.
Definition NFILE : Z := 100.
Definition NINODE : Z := 50.
Definition NDEV : Z := 10.
Definition ROOTDEV : Z := 1.
Definition MAXARG : Z := 32.
Definition MAXOPBLOCKS : Z := 10.
Definition LOGSIZE : Z := MAXOPBLOCKS * 3.
Definition NBUF : Z := MAXOPBLOCKS * 3.
Definition FSSIZE : Z := 2000.
Definition MAXPATH : Z := 128.
(** [LAB_UTIL] is defined by the Makefile ([LAB=util] in conf/lab.mk). *)
Definition USERSTACK : Z := 2.

(** [fs.h] *)
Definition ROOTINO : Z := 1.
Definition BSIZE : Z := 1024.
Definition FSMAGIC : Z := 0x10203040.
Definition NDIRECT : Z := 12.
Definition NINDIRECT : Z := BSIZE / 4.
Definition MAXFILE : Z := NDIRECT + NINDIRECT.
Definition DINODE_SIZE : Z := 64.
Definition IPB : Z := BSIZE / DINODE_SIZE.
Definition BPB : Z := BSIZE * 8.
Definition DIRSIZ : Z := 14.
Definition DIRENT_SIZE : Z := 16.

(** [stat.h], [fcntl.h] *)
Definition T_DIR : Z := 1.
Definition T_FILE : Z := 2.
Definition T_DEVICE : Z := 3.
Definition O_RDONLY : Z := 0x000.
Definition O_WRONLY : Z := 0x001.
Definition O_RDWR : Z := 0x002.
Definition O_CREATE : Z := 0x200.
Definition O_TRUNC : Z := 0x400.
Definition CONSOLE : Z := 1.

(** [riscv.h] *)
Definition PGSIZE : Z := 4096.
Definition PGROUNDUP (sz : Z) : Z := Z.land (u64 (sz + PGSIZE - 1)) (u64 (Z.lnot (PGSIZE - 1))).
Definition PGROUNDDOWN (a : Z) : Z := Z.land a (u64 (Z.lnot (PGSIZE - 1))).
Definition PTE_V : Z := Z.shiftl 1 0.
Definition PTE_R : Z := Z.shiftl 1 1.
Definition PTE_W : Z := Z.shiftl 1 2.
Definition PTE_X : Z := Z.shiftl 1 3.
Definition PTE_U : Z := Z.shiftl 1 4.
Definition PA2PTE (pa : Z) : Z := u64 (Z.shiftl (Z.shiftr pa 12) 10).
Definition PTE2PA (pte : Z) : Z := u64 (Z.shiftl (Z.shiftr pte 10) 12).
Definition PTE_FLAGS (pte : Z) : Z := Z.land pte 0x3FF.
Definition PXMASK : Z := 0x1FF.
Definition PXSHIFT (level : Z) : Z := 12 + 9 * level.
Definition PX (level va : Z) : Z := Z.land (Z.shiftr va (PXSHIFT level)) PXMASK.
Definition MAXVA : Z := Z.shiftl 1 (9 + 9 + 9 + 12 - 1).
Definition MAKE_SATP (pagetable : Z) : Z := Z.lor (Z.shiftl 8 60) (Z.shiftr pagetable 12).

(** [memlayout.h] *)
Definition UART0 : Z := 0x10000000.
Definition UART0_IRQ : Z := 10.
Definition VIRTIO0 : Z := 0x10001000.
Definition VIRTIO0_IRQ : Z := 1.
Definition PLIC : Z := 0x0c000000.
Definition KERNBASE : Z := 0x80000000.
Definition PHYSTOP : Z := KERNBASE + 128 * 1024 * 1024.
Definition TRAMPOLINE : Z := MAXVA - PGSIZE.
Definition KSTACK (p : Z) : Z := TRAMPOLINE - (p + 1) * 2 * PGSIZE.
Definition TRAPFRAME : Z := TRAMPOLINE - PGSIZE.

(** ** Symbols placed by the linker

    [end], [etext], [trampoline] and the code addresses that the kernel
    stores in registers are chosen by [kernel.ld] and the compiler. *)
Class Layout : Type := {
  kend : Z;
  etext : Z;
  trampoline : Z;
  uservec : Z;
  userret : Z;
  kernelvec : Z;
  usertrap_addr : Z;
  forkret_addr : Z;
  (** the padding bytes of [filestat]'s [struct stat], which nothing initialises *)
  stat_pad : list Z
}.

(** ** Names of locks and of sleep channels

    A lock is designated by the object that contains it, a channel by the
    address that is slept on. *)

Inductive slockid : Type := SLbuf (i : nat) | SLinode (i : nat).

Inductive lockid : Type :=
| Lkmem | Lbcache | Litable | Lftable | Llog | Lpid | Lwait | Ltick
| Lcons | Luart | Lpr | Lvdisk
| Lproc (i : nat) | Lpipe (pa : Z) | Lsleep (l : slockid).

Inductive chan : Type :=
| Ch_sleeplock (l : slockid) | Ch_log | Ch_proc (i : nat)
| Ch_nread (pa : Z) | Ch_nwrite (pa : Z) | Ch_ticks | Ch_cons_r
| Ch_uart_r | Ch_disk_free | Ch_buf (i : nat).

#[export] Instance slockid_eq_dec : EqDecision slockid.
Proof. solve_decision. Defined.
#[export] Instance slockid_countable : Countable slockid.
Proof.
  refine (inj_countable' (fun l => match l with SLbuf i => inl i | SLinode i => inr i end)
    (fun x => match x with inl i => SLbuf i | inr i => SLinode i end) _).
  by intros [].
Defined.

#[export] Instance lockid_eq_dec : EqDecision lockid.
Proof. solve_decision. Defined.
#[export] Instance lockid_countable : Countable lockid.
Proof.
  refine (inj_countable' (fun l => match l with
      | Lkmem => inl (inl 0%nat) | Lbcache => inl (inl 1%nat) | Litable => inl (inl 2%nat)
      | Lftable => inl (inl 3%nat) | Llog => inl (inl 4%nat) | Lpid => inl (inl 5%nat)
      | Lwait => inl (inl 6%nat) | Ltick => inl (inl 7%nat) | Lcons => inl (inl 8%nat)
      | Luart => inl (inl 9%nat) | Lpr => inl (inl 10%nat) | Lvdisk => inl (inl 11%nat)
      | Lproc i => inl (inr i) | Lpipe pa => inr (inl pa) | Lsleep l => inr (inr l) end)
    (fun x => match x with
      | inl (inl n) => match n with
          | 0 => Lkmem | 1 => Lbcache | 2 => Litable | 3 => Lftable | 4 => Llog | 5 => Lpid
          | 6 => Lwait | 7 => Ltick | 8 => Lcons | 9 => Luart | 10 => Lpr | _ => Lvdisk
          end%nat
      | inl (inr i) => Lproc i | inr (inl pa) => Lpipe pa | inr (inr l) => Lsleep l end) _).
  by intros [].
Defined.
#[export] Instance chan_eq_dec : EqDecision chan.
Proof. solve_decision. Defined.

(** The sleep locks and spin locks that exist in static storage. *)
Definition slock_ok (l : slockid) : bool :=
  match l with
  | SLbuf i => (i <? Z.to_nat NBUF)%nat
  | SLinode i => (i <? Z.to_nat NINODE)%nat
  end.

(** Process states ([enum procstate], in its numeric order). *)
Inductive procstate : Type := UNUSED | USED | SLEEPING | RUNNABLE | RUNNING | ZOMBIE.
#[export] Instance procstate_eq_dec : EqDecision procstate.
Proof. solve_decision. Defined.

(** Kinds of open file ([struct file]'s anonymous enum). *)
Inductive ftype : Type := FD_NONE | FD_PIPE | FD_INODE | FD_DEVICE.
#[export] Instance ftype_eq_dec : EqDecision ftype.
Proof. solve_decision. Defined.

(** What a virtio descriptor points to: a request header of [disk.ops], the
    data of a buffer, a status byte of [disk.info]. *)
Inductive daddr : Type := A_null | A_op (i : nat) | A_data (b : nat) | A_status (i : nat).

(** The device whose routines a [devsw] entry holds. *)
Inductive device : Type := DevConsole.

(** ** C structures *)



(** [struct spinlock] *)
Record spinlock : Type := mkspinlock {
  lk_name : string;
  lk_locked : bool;
  lk_cpu : option nat
}.

Definition set_lk_name (v : string) (r : spinlock) : spinlock :=
  mkspinlock v (lk_locked r) (lk_cpu r).
Definition set_lk_locked (v : bool) (r : spinlock) : spinlock :=
  mkspinlock (lk_name r) v (lk_cpu r).
Definition set_lk_cpu (v : option nat) (r : spinlock) : spinlock :=
  mkspinlock (lk_name r) (lk_locked r) v.

(** [struct sleeplock]; its inner spin lock is [Lsleep] *)
Record sleeplock : Type := mksleeplock {
  sl_name : string;
  sl_locked : bool;
  sl_pid : Z
}.

Definition set_sl_name (v : string) (r : sleeplock) : sleeplock :=
  mksleeplock v (sl_locked r) (sl_pid r).
Definition set_sl_locked (v : bool) (r : sleeplock) : sleeplock :=
  mksleeplock (sl_name r) v (sl_pid r).
Definition set_sl_pid (v : Z) (r : sleeplock) : sleeplock :=
  mksleeplock (sl_name r) (sl_locked r) v.

(** [struct context]: [ra], [sp] and [s0..s11] *)
Record context : Type := mkcontext {
  ctx_ra : Z;
  ctx_sp : Z;
  ctx_s : list Z
}.

Definition set_ctx_ra (v : Z) (r : context) : context :=
  mkcontext v (ctx_sp r) (ctx_s r).
Definition set_ctx_sp (v : Z) (r : context) : context :=
  mkcontext (ctx_ra r) v (ctx_s r).
Definition set_ctx_s (v : list Z) (r : context) : context :=
  mkcontext (ctx_ra r) (ctx_sp r) v.

(** [struct cpu]; the scheduler context is the hardware thread itself *)
Record cpu : Type := mkcpu {
  c_proc : option nat;
  c_noff : Z;
  c_intena : bool
}.

Definition set_c_proc (v : option nat) (r : cpu) : cpu :=
  mkcpu v (c_noff r) (c_intena r).
Definition set_c_noff (v : Z) (r : cpu) : cpu :=
  mkcpu (c_proc r) v (c_intena r).
Definition set_c_intena (v : bool) (r : cpu) : cpu :=
  mkcpu (c_proc r) (c_noff r) v.

(** [struct proc] *)
Record proc : Type := mkproc {
  p_state : procstate;
  p_chan : option chan;
  p_killed : bool;
  p_xstate : Z;
  p_pid : Z;
  p_parent : option nat;
  p_kstack : Z;
  p_sz : Z;
  p_pagetable : Z;
  p_trapframe : Z;
  p_context : context;
  p_ofile : list (option nat);
  p_cwd : option nat;
  p_name : list Z
}.

Definition set_p_state (v : procstate) (r : proc) : proc :=
  mkproc v (p_chan r) (p_killed r) (p_xstate r) (p_pid r) (p_parent r) (p_kstack r) (p_sz r) (p_pagetable r) (p_trapframe r) (p_context r) (p_ofile r) (p_cwd r) (p_name r).
Definition set_p_chan (v : option chan) (r : proc) : proc :=
  mkproc (p_state r) v (p_killed r) (p_xstate r) (p_pid r) (p_parent r) (p_kstack r) (p_sz r) (p_pagetable r) (p_trapframe r) (p_context r) (p_ofile r) (p_cwd r) (p_name r).
Definition set_p_killed (v : bool) (r : proc) : proc :=
  mkproc (p_state r) (p_chan r) v (p_xstate r) (p_pid r) (p_parent r) (p_kstack r) (p_sz r) (p_pagetable r) (p_trapframe r) (p_context r) (p_ofile r) (p_cwd r) (p_name r).
Definition set_p_xstate (v : Z) (r : proc) : proc :=
  mkproc (p_state r) (p_chan r) (p_killed r) v (p_pid r) (p_parent r) (p_kstack r) (p_sz r) (p_pagetable r) (p_trapframe r) (p_context r) (p_ofile r) (p_cwd r) (p_name r).
Definition set_p_pid (v : Z) (r : proc) : proc :=
  mkproc (p_state r) (p_chan r) (p_killed r) (p_xstate r) v (p_parent r) (p_kstack r) (p_sz r) (p_pagetable r) (p_trapframe r) (p_context r) (p_ofile r) (p_cwd r) (p_name r).
Definition set_p_parent (v : option nat) (r : proc) : proc :=
  mkproc (p_state r) (p_chan r) (p_killed r) (p_xstate r) (p_pid r) v (p_kstack r) (p_sz r) (p_pagetable r) (p_trapframe r) (p_context r) (p_ofile r) (p_cwd r) (p_name r).
Definition set_p_kstack (v : Z) (r : proc) : proc :=
  mkproc (p_state r) (p_chan r) (p_killed r) (p_xstate r) (p_pid r) (p_parent r) v (p_sz r) (p_pagetable r) (p_trapframe r) (p_context r) (p_ofile r) (p_cwd r) (p_name r).
Definition set_p_sz (v : Z) (r : proc) : proc :=
  mkproc (p_state r) (p_chan r) (p_killed r) (p_xstate r) (p_pid r) (p_parent r) (p_kstack r) v (p_pagetable r) (p_trapframe r) (p_context r) (p_ofile r) (p_cwd r) (p_name r).
Definition set_p_pagetable (v : Z) (r : proc) : proc :=
  mkproc (p_state r) (p_chan r) (p_killed r) (p_xstate r) (p_pid r) (p_parent r) (p_kstack r) (p_sz r) v (p_trapframe r) (p_context r) (p_ofile r) (p_cwd r) (p_name r).
Definition set_p_trapframe (v : Z) (r : proc) : proc :=
  mkproc (p_state r) (p_chan r) (p_killed r) (p_xstate r) (p_pid r) (p_parent r) (p_kstack r) (p_sz r) (p_pagetable r) v (p_context r) (p_ofile r) (p_cwd r) (p_name r).
Definition set_p_context (v : context) (r : proc) : proc :=
  mkproc (p_state r) (p_chan r) (p_killed r) (p_xstate r) (p_pid r) (p_parent r) (p_kstack r) (p_sz r) (p_pagetable r) (p_trapframe r) v (p_ofile r) (p_cwd r) (p_name r).
Definition set_p_ofile (v : list (option nat)) (r : proc) : proc :=
  mkproc (p_state r) (p_chan r) (p_killed r) (p_xstate r) (p_pid r) (p_parent r) (p_kstack r) (p_sz r) (p_pagetable r) (p_trapframe r) (p_context r) v (p_cwd r) (p_name r).
Definition set_p_cwd (v : option nat) (r : proc) : proc :=
  mkproc (p_state r) (p_chan r) (p_killed r) (p_xstate r) (p_pid r) (p_parent r) (p_kstack r) (p_sz r) (p_pagetable r) (p_trapframe r) (p_context r) (p_ofile r) v (p_name r).
Definition set_p_name (v : list Z) (r : proc) : proc :=
  mkproc (p_state r) (p_chan r) (p_killed r) (p_xstate r) (p_pid r) (p_parent r) (p_kstack r) (p_sz r) (p_pagetable r) (p_trapframe r) (p_context r) (p_ofile r) (p_cwd r) v.

(** [struct buf]; its sleep lock is [SLbuf] *)
Record buf : Type := mkbuf {
  b_valid : bool;
  b_disk : bool;
  b_dev : Z;
  b_blockno : Z;
  b_refcnt : Z;
  b_prev : nat;
  b_next : nat;
  b_data : list Z
}.

Definition set_b_valid (v : bool) (r : buf) : buf :=
  mkbuf v (b_disk r) (b_dev r) (b_blockno r) (b_refcnt r) (b_prev r) (b_next r) (b_data r).
Definition set_b_disk (v : bool) (r : buf) : buf :=
  mkbuf (b_valid r) v (b_dev r) (b_blockno r) (b_refcnt r) (b_prev r) (b_next r) (b_data r).
Definition set_b_dev (v : Z) (r : buf) : buf :=
  mkbuf (b_valid r) (b_disk r) v (b_blockno r) (b_refcnt r) (b_prev r) (b_next r) (b_data r).
Definition set_b_blockno (v : Z) (r : buf) : buf :=
  mkbuf (b_valid r) (b_disk r) (b_dev r) v (b_refcnt r) (b_prev r) (b_next r) (b_data r).
Definition set_b_refcnt (v : Z) (r : buf) : buf :=
  mkbuf (b_valid r) (b_disk r) (b_dev r) (b_blockno r) v (b_prev r) (b_next r) (b_data r).
Definition set_b_prev (v : nat) (r : buf) : buf :=
  mkbuf (b_valid r) (b_disk r) (b_dev r) (b_blockno r) (b_refcnt r) v (b_next r) (b_data r).
Definition set_b_next (v : nat) (r : buf) : buf :=
  mkbuf (b_valid r) (b_disk r) (b_dev r) (b_blockno r) (b_refcnt r) (b_prev r) v (b_data r).
Definition set_b_data (v : list Z) (r : buf) : buf :=
  mkbuf (b_valid r) (b_disk r) (b_dev r) (b_blockno r) (b_refcnt r) (b_prev r) (b_next r) v.

(** [struct superblock] *)
Record superblock : Type := mksuperblock {
  sb_magic : Z;
  sb_size : Z;
  sb_nblocks : Z;
  sb_ninodes : Z;
  sb_nlog : Z;
  sb_logstart : Z;
  sb_inodestart : Z;
  sb_bmapstart : Z
}.

Definition set_sb_magic (v : Z) (r : superblock) : superblock :=
  mksuperblock v (sb_size r) (sb_nblocks r) (sb_ninodes r) (sb_nlog r) (sb_logstart r) (sb_inodestart r) (sb_bmapstart r).
Definition set_sb_size (v : Z) (r : superblock) : superblock :=
  mksuperblock (sb_magic r) v (sb_nblocks r) (sb_ninodes r) (sb_nlog r) (sb_logstart r) (sb_inodestart r) (sb_bmapstart r).
Definition set_sb_nblocks (v : Z) (r : superblock) : superblock :=
  mksuperblock (sb_magic r) (sb_size r) v (sb_ninodes r) (sb_nlog r) (sb_logstart r) (sb_inodestart r) (sb_bmapstart r).
Definition set_sb_ninodes (v : Z) (r : superblock) : superblock :=
  mksuperblock (sb_magic r) (sb_size r) (sb_nblocks r) v (sb_nlog r) (sb_logstart r) (sb_inodestart r) (sb_bmapstart r).
Definition set_sb_nlog (v : Z) (r : superblock) : superblock :=
  mksuperblock (sb_magic r) (sb_size r) (sb_nblocks r) (sb_ninodes r) v (sb_logstart r) (sb_inodestart r) (sb_bmapstart r).
Definition set_sb_logstart (v : Z) (r : superblock) : superblock :=
  mksuperblock (sb_magic r) (sb_size r) (sb_nblocks r) (sb_ninodes r) (sb_nlog r) v (sb_inodestart r) (sb_bmapstart r).
Definition set_sb_inodestart (v : Z) (r : superblock) : superblock :=
  mksuperblock (sb_magic r) (sb_size r) (sb_nblocks r) (sb_ninodes r) (sb_nlog r) (sb_logstart r) v (sb_bmapstart r).
Definition set_sb_bmapstart (v : Z) (r : superblock) : superblock :=
  mksuperblock (sb_magic r) (sb_size r) (sb_nblocks r) (sb_ninodes r) (sb_nlog r) (sb_logstart r) (sb_inodestart r) v.

(** [struct log] with its [struct logheader] *)
Record log : Type := mklog {
  l_start : Z;
  l_size : Z;
  l_outstanding : Z;
  l_committing : bool;
  l_dev : Z;
  lh_n : Z;
  lh_block : list Z
}.

Definition set_l_start (v : Z) (r : log) : log :=
  mklog v (l_size r) (l_outstanding r) (l_committing r) (l_dev r) (lh_n r) (lh_block r).
Definition set_l_size (v : Z) (r : log) : log :=
  mklog (l_start r) v (l_outstanding r) (l_committing r) (l_dev r) (lh_n r) (lh_block r).
Definition set_l_outstanding (v : Z) (r : log) : log :=
  mklog (l_start r) (l_size r) v (l_committing r) (l_dev r) (lh_n r) (lh_block r).
Definition set_l_committing (v : bool) (r : log) : log :=
  mklog (l_start r) (l_size r) (l_outstanding r) v (l_dev r) (lh_n r) (lh_block r).
Definition set_l_dev (v : Z) (r : log) : log :=
  mklog (l_start r) (l_size r) (l_outstanding r) (l_committing r) v (lh_n r) (lh_block r).
Definition set_lh_n (v : Z) (r : log) : log :=
  mklog (l_start r) (l_size r) (l_outstanding r) (l_committing r) (l_dev r) v (lh_block r).
Definition set_lh_block (v : list Z) (r : log) : log :=
  mklog (l_start r) (l_size r) (l_outstanding r) (l_committing r) (l_dev r) (lh_n r) v.

(** [struct inode] (in memory); its sleep lock is [SLinode] *)
Record inode : Type := mkinode {
  i_dev : Z;
  i_inum : Z;
  i_ref : Z;
  i_valid : bool;
  i_type : Z;
  i_major : Z;
  i_minor : Z;
  i_nlink : Z;
  i_size : Z;
  i_addrs : list Z
}.

Definition set_i_dev (v : Z) (r : inode) : inode :=
  mkinode v (i_inum r) (i_ref r) (i_valid r) (i_type r) (i_major r) (i_minor r) (i_nlink r) (i_size r) (i_addrs r).
Definition set_i_inum (v : Z) (r : inode) : inode :=
  mkinode (i_dev r) v (i_ref r) (i_valid r) (i_type r) (i_major r) (i_minor r) (i_nlink r) (i_size r) (i_addrs r).
Definition set_i_ref (v : Z) (r : inode) : inode :=
  mkinode (i_dev r) (i_inum r) v (i_valid r) (i_type r) (i_major r) (i_minor r) (i_nlink r) (i_size r) (i_addrs r).
Definition set_i_valid (v : bool) (r : inode) : inode :=
  mkinode (i_dev r) (i_inum r) (i_ref r) v (i_type r) (i_major r) (i_minor r) (i_nlink r) (i_size r) (i_addrs r).
Definition set_i_type (v : Z) (r : inode) : inode :=
  mkinode (i_dev r) (i_inum r) (i_ref r) (i_valid r) v (i_major r) (i_minor r) (i_nlink r) (i_size r) (i_addrs r).
Definition set_i_major (v : Z) (r : inode) : inode :=
  mkinode (i_dev r) (i_inum r) (i_ref r) (i_valid r) (i_type r) v (i_minor r) (i_nlink r) (i_size r) (i_addrs r).
Definition set_i_minor (v : Z) (r : inode) : inode :=
  mkinode (i_dev r) (i_inum r) (i_ref r) (i_valid r) (i_type r) (i_major r) v (i_nlink r) (i_size r) (i_addrs r).
Definition set_i_nlink (v : Z) (r : inode) : inode :=
  mkinode (i_dev r) (i_inum r) (i_ref r) (i_valid r) (i_type r) (i_major r) (i_minor r) v (i_size r) (i_addrs r).
Definition set_i_size (v : Z) (r : inode) : inode :=
  mkinode (i_dev r) (i_inum r) (i_ref r) (i_valid r) (i_type r) (i_major r) (i_minor r) (i_nlink r) v (i_addrs r).
Definition set_i_addrs (v : list Z) (r : inode) : inode :=
  mkinode (i_dev r) (i_inum r) (i_ref r) (i_valid r) (i_type r) (i_major r) (i_minor r) (i_nlink r) (i_size r) v.

(** [struct file] *)
Record file : Type := mkfile {
  f_type : ftype;
  f_ref : Z;
  f_readable : bool;
  f_writable : bool;
  f_pipe : Z;
  f_ip : option nat;
  f_off : Z;
  f_major : Z
}.

Definition set_f_type (v : ftype) (r : file) : file :=
  mkfile v (f_ref r) (f_readable r) (f_writable r) (f_pipe r) (f_ip r) (f_off r) (f_major r).
Definition set_f_ref (v : Z) (r : file) : file :=
  mkfile (f_type r) v (f_readable r) (f_writable r) (f_pipe r) (f_ip r) (f_off r) (f_major r).
Definition set_f_readable (v : bool) (r : file) : file :=
  mkfile (f_type r) (f_ref r) v (f_writable r) (f_pipe r) (f_ip r) (f_off r) (f_major r).
Definition set_f_writable (v : bool) (r : file) : file :=
  mkfile (f_type r) (f_ref r) (f_readable r) v (f_pipe r) (f_ip r) (f_off r) (f_major r).
Definition set_f_pipe (v : Z) (r : file) : file :=
  mkfile (f_type r) (f_ref r) (f_readable r) (f_writable r) v (f_ip r) (f_off r) (f_major r).
Definition set_f_ip (v : option nat) (r : file) : file :=
  mkfile (f_type r) (f_ref r) (f_readable r) (f_writable r) (f_pipe r) v (f_off r) (f_major r).
Definition set_f_off (v : Z) (r : file) : file :=
  mkfile (f_type r) (f_ref r) (f_readable r) (f_writable r) (f_pipe r) (f_ip r) v (f_major r).
Definition set_f_major (v : Z) (r : file) : file :=
  mkfile (f_type r) (f_ref r) (f_readable r) (f_writable r) (f_pipe r) (f_ip r) (f_off r) v.

(** [struct pipe] *)
Record pipe : Type := mkpipe {
  pi_data : list Z;
  pi_nread : Z;
  pi_nwrite : Z;
  pi_readopen : bool;
  pi_writeopen : bool
}.

Definition set_pi_data (v : list Z) (r : pipe) : pipe :=
  mkpipe v (pi_nread r) (pi_nwrite r) (pi_readopen r) (pi_writeopen r).
Definition set_pi_nread (v : Z) (r : pipe) : pipe :=
  mkpipe (pi_data r) v (pi_nwrite r) (pi_readopen r) (pi_writeopen r).
Definition set_pi_nwrite (v : Z) (r : pipe) : pipe :=
  mkpipe (pi_data r) (pi_nread r) v (pi_readopen r) (pi_writeopen r).
Definition set_pi_readopen (v : bool) (r : pipe) : pipe :=
  mkpipe (pi_data r) (pi_nread r) (pi_nwrite r) v (pi_writeopen r).
Definition set_pi_writeopen (v : bool) (r : pipe) : pipe :=
  mkpipe (pi_data r) (pi_nread r) (pi_nwrite r) (pi_readopen r) v.

(** The console's input buffer [cons] *)
Record consbuf : Type := mkcons {
  cons_buf : list Z;
  cons_r : Z;
  cons_w : Z;
  cons_e : Z
}.

Definition set_cons_buf (v : list Z) (r : consbuf) : consbuf :=
  mkcons v (cons_r r) (cons_w r) (cons_e r).
Definition set_cons_r (v : Z) (r : consbuf) : consbuf :=
  mkcons (cons_buf r) v (cons_w r) (cons_e r).
Definition set_cons_w (v : Z) (r : consbuf) : consbuf :=
  mkcons (cons_buf r) (cons_r r) v (cons_e r).
Definition set_cons_e (v : Z) (r : consbuf) : consbuf :=
  mkcons (cons_buf r) (cons_r r) (cons_w r) v.

(** The UART's transmit ring, the bytes written to THR so far, the answers its line status register has yet to give about the transmitter (idle once they are used up), and the received bytes *)
Record uartst : Type := mkuart {
  tx_buf : list Z;
  tx_w : Z;
  tx_r : Z;
  uart_out : list Z;
  u_lsr : list bool;
  uart_rx : list Z
}.

Definition set_tx_buf (v : list Z) (r : uartst) : uartst :=
  mkuart v (tx_w r) (tx_r r) (uart_out r) (u_lsr r) (uart_rx r).
Definition set_tx_w (v : Z) (r : uartst) : uartst :=
  mkuart (tx_buf r) v (tx_r r) (uart_out r) (u_lsr r) (uart_rx r).
Definition set_tx_r (v : Z) (r : uartst) : uartst :=
  mkuart (tx_buf r) (tx_w r) v (uart_out r) (u_lsr r) (uart_rx r).
Definition set_uart_out (v : list Z) (r : uartst) : uartst :=
  mkuart (tx_buf r) (tx_w r) (tx_r r) v (u_lsr r) (uart_rx r).
Definition set_u_lsr (v : list bool) (r : uartst) : uartst :=
  mkuart (tx_buf r) (tx_w r) (tx_r r) (uart_out r) v (uart_rx r).
Definition set_uart_rx (v : list Z) (r : uartst) : uartst :=
  mkuart (tx_buf r) (tx_w r) (tx_r r) (uart_out r) (u_lsr r) v.

(** The disk medium, and the block writes it has performed, oldest first *)
Record diskst : Type := mkdisk {
  d_blocks : gmap Z (list Z);
  d_writes : list (Z * list Z)
}.

Definition set_d_blocks (v : gmap Z (list Z)) (r : diskst) : diskst :=
  mkdisk v (d_writes r).
Definition set_d_writes (v : list (Z * list Z)) (r : diskst) : diskst :=
  mkdisk (d_blocks r) v.

(** [struct virtq_desc] *)
Record vdesc : Type := mkvdesc {
  vd_addr : daddr;
  vd_len : Z;
  vd_flags : Z;
  vd_next : Z
}.

Definition set_vd_addr (v : daddr) (r : vdesc) : vdesc :=
  mkvdesc v (vd_len r) (vd_flags r) (vd_next r).
Definition set_vd_len (v : Z) (r : vdesc) : vdesc :=
  mkvdesc (vd_addr r) v (vd_flags r) (vd_next r).
Definition set_vd_flags (v : Z) (r : vdesc) : vdesc :=
  mkvdesc (vd_addr r) (vd_len r) v (vd_next r).
Definition set_vd_next (v : Z) (r : vdesc) : vdesc :=
  mkvdesc (vd_addr r) (vd_len r) (vd_flags r) v.

(** The driver's [disk.info[]] *)
Record vinfo : Type := mkvinfo {
  info_b : option nat;
  info_status : Z
}.

Definition set_info_b (v : option nat) (r : vinfo) : vinfo :=
  mkvinfo v (info_status r).
Definition set_info_status (v : Z) (r : vinfo) : vinfo :=
  mkvinfo (info_b r) v.

(** [struct virtio_blk_req] *)
Record vreq : Type := mkvreq {
  req_type : Z;
  req_reserved : Z;
  req_sector : Z
}.

Definition set_req_type (v : Z) (r : vreq) : vreq :=
  mkvreq v (req_reserved r) (req_sector r).
Definition set_req_reserved (v : Z) (r : vreq) : vreq :=
  mkvreq (req_type r) v (req_sector r).
Definition set_req_sector (v : Z) (r : vreq) : vreq :=
  mkvreq (req_type r) (req_reserved r) v.

(** [struct disk] of virtio_disk.c with the three queue pages it points to: the descriptors, the available ring and the used ring ([v_used] is [used->idx], which the device advances) *)
Record vdisk : Type := mkvdisk {
  v_pages : Z * Z * Z;
  v_desc : list vdesc;
  v_avail_idx : Z;
  v_avail_ring : list Z;
  v_used : Z;
  v_used_ring : list Z;
  v_free : list bool;
  v_used_idx : Z;
  v_info : list vinfo;
  v_ops : list vreq
}.

Definition set_v_pages (v : Z * Z * Z) (r : vdisk) : vdisk :=
  mkvdisk v (v_desc r) (v_avail_idx r) (v_avail_ring r) (v_used r) (v_used_ring r) (v_free r) (v_used_idx r) (v_info r) (v_ops r).
Definition set_v_desc (v : list vdesc) (r : vdisk) : vdisk :=
  mkvdisk (v_pages r) v (v_avail_idx r) (v_avail_ring r) (v_used r) (v_used_ring r) (v_free r) (v_used_idx r) (v_info r) (v_ops r).
Definition set_v_avail_idx (v : Z) (r : vdisk) : vdisk :=
  mkvdisk (v_pages r) (v_desc r) v (v_avail_ring r) (v_used r) (v_used_ring r) (v_free r) (v_used_idx r) (v_info r) (v_ops r).
Definition set_v_avail_ring (v : list Z) (r : vdisk) : vdisk :=
  mkvdisk (v_pages r) (v_desc r) (v_avail_idx r) v (v_used r) (v_used_ring r) (v_free r) (v_used_idx r) (v_info r) (v_ops r).
Definition set_v_used (v : Z) (r : vdisk) : vdisk :=
  mkvdisk (v_pages r) (v_desc r) (v_avail_idx r) (v_avail_ring r) v (v_used_ring r) (v_free r) (v_used_idx r) (v_info r) (v_ops r).
Definition set_v_used_ring (v : list Z) (r : vdisk) : vdisk :=
  mkvdisk (v_pages r) (v_desc r) (v_avail_idx r) (v_avail_ring r) (v_used r) v (v_free r) (v_used_idx r) (v_info r) (v_ops r).
Definition set_v_free (v : list bool) (r : vdisk) : vdisk :=
  mkvdisk (v_pages r) (v_desc r) (v_avail_idx r) (v_avail_ring r) (v_used r) (v_used_ring r) v (v_used_idx r) (v_info r) (v_ops r).
Definition set_v_used_idx (v : Z) (r : vdisk) : vdisk :=
  mkvdisk (v_pages r) (v_desc r) (v_avail_idx r) (v_avail_ring r) (v_used r) (v_used_ring r) (v_free r) v (v_info r) (v_ops r).
Definition set_v_info (v : list vinfo) (r : vdisk) : vdisk :=
  mkvdisk (v_pages r) (v_desc r) (v_avail_idx r) (v_avail_ring r) (v_used r) (v_used_ring r) (v_free r) (v_used_idx r) v (v_ops r).
Definition set_v_ops (v : list vreq) (r : vdisk) : vdisk :=
  mkvdisk (v_pages r) (v_desc r) (v_avail_idx r) (v_avail_ring r) (v_used r) (v_used_ring r) (v_free r) (v_used_idx r) (v_info r) v.

(** Supervisor control and status registers of the executing hart *)
Record csrs : Type := mkcsrs {
  stvec : Z;
  sepc : Z;
  scause : Z;
  stval : Z;
  sstatus_spp : bool;
  sstatus_spie : bool;
  satp : Z;
  rtime : Z;
  stimecmp : Z
}.

Definition set_stvec (v : Z) (r : csrs) : csrs :=
  mkcsrs v (sepc r) (scause r) (stval r) (sstatus_spp r) (sstatus_spie r) (satp r) (rtime r) (stimecmp r).
Definition set_sepc (v : Z) (r : csrs) : csrs :=
  mkcsrs (stvec r) v (scause r) (stval r) (sstatus_spp r) (sstatus_spie r) (satp r) (rtime r) (stimecmp r).
Definition set_scause (v : Z) (r : csrs) : csrs :=
  mkcsrs (stvec r) (sepc r) v (stval r) (sstatus_spp r) (sstatus_spie r) (satp r) (rtime r) (stimecmp r).
Definition set_stval (v : Z) (r : csrs) : csrs :=
  mkcsrs (stvec r) (sepc r) (scause r) v (sstatus_spp r) (sstatus_spie r) (satp r) (rtime r) (stimecmp r).
Definition set_sstatus_spp (v : bool) (r : csrs) : csrs :=
  mkcsrs (stvec r) (sepc r) (scause r) (stval r) v (sstatus_spie r) (satp r) (rtime r) (stimecmp r).
Definition set_sstatus_spie (v : bool) (r : csrs) : csrs :=
  mkcsrs (stvec r) (sepc r) (scause r) (stval r) (sstatus_spp r) v (satp r) (rtime r) (stimecmp r).
Definition set_satp (v : Z) (r : csrs) : csrs :=
  mkcsrs (stvec r) (sepc r) (scause r) (stval r) (sstatus_spp r) (sstatus_spie r) v (rtime r) (stimecmp r).
Definition set_rtime (v : Z) (r : csrs) : csrs :=
  mkcsrs (stvec r) (sepc r) (scause r) (stval r) (sstatus_spp r) (sstatus_spie r) (satp r) v (stimecmp r).
Definition set_stimecmp (v : Z) (r : csrs) : csrs :=
  mkcsrs (stvec r) (sepc r) (scause r) (stval r) (sstatus_spp r) (sstatus_spie r) (satp r) (rtime r) v.

(** The executing hart ([tp], [sstatus.SIE]), [cpus[]] and the spin locks *)
Record sync : Type := mksync {
  hart : nat;
  intr : bool;
  cpus : list cpu;
  locks : gmap lockid spinlock
}.

Definition set_hart (v : nat) (r : sync) : sync :=
  mksync v (intr r) (cpus r) (locks r).
Definition set_intr (v : bool) (r : sync) : sync :=
  mksync (hart r) v (cpus r) (locks r).
Definition set_cpus (v : list cpu) (r : sync) : sync :=
  mksync (hart r) (intr r) v (locks r).
Definition set_locks (v : gmap lockid spinlock) (r : sync) : sync :=
  mksync (hart r) (intr r) (cpus r) v.

(** The kernel's global variables and the state they act on *)
Record kstate : Type := mkkstate {
  syn : sync;
  slocks : gmap slockid sleeplock;
  mem : gmap Z Z;
  freelist : Z;
  kernel_pagetable : Z;
  procs : list proc;
  initproc : option nat;
  nextpid : Z;
  forkret_first : bool;
  ticks : Z;
  bufs : list buf;
  disk : diskst;
  klog : log;
  sb : superblock;
  itable : list inode;
  ftable : list file;
  pipes : gmap Z pipe;
  cons : consbuf;
  uart : uartst;
  pr_locking : bool;
  panicked : bool;
  csr : csrs;
  vdsk : vdisk;
  devsw : list (option device);
  mmio : list (Z * Z)
}.

Definition set_syn (v : sync) (r : kstate) : kstate :=
  mkkstate v (slocks r) (mem r) (freelist r) (kernel_pagetable r) (procs r) (initproc r) (nextpid r) (forkret_first r) (ticks r) (bufs r) (disk r) (klog r) (sb r) (itable r) (ftable r) (pipes r) (cons r) (uart r) (pr_locking r) (panicked r) (csr r) (vdsk r) (devsw r) (mmio r).
Definition set_slocks (v : gmap slockid sleeplock) (r : kstate) : kstate :=
  mkkstate (syn r) v (mem r) (freelist r) (kernel_pagetable r) (procs r) (initproc r) (nextpid r) (forkret_first r) (ticks r) (bufs r) (disk r) (klog r) (sb r) (itable r) (ftable r) (pipes r) (cons r) (uart r) (pr_locking r) (panicked r) (csr r) (vdsk r) (devsw r) (mmio r).
Definition set_mem (v : gmap Z Z) (r : kstate) : kstate :=
  mkkstate (syn r) (slocks r) v (freelist r) (kernel_pagetable r) (procs r) (initproc r) (nextpid r) (forkret_first r) (ticks r) (bufs r) (disk r) (klog r) (sb r) (itable r) (ftable r) (pipes r) (cons r) (uart r) (pr_locking r) (panicked r) (csr r) (vdsk r) (devsw r) (mmio r).
Definition set_freelist (v : Z) (r : kstate) : kstate :=
  mkkstate (syn r) (slocks r) (mem r) v (kernel_pagetable r) (procs r) (initproc r) (nextpid r) (forkret_first r) (ticks r) (bufs r) (disk r) (klog r) (sb r) (itable r) (ftable r) (pipes r) (cons r) (uart r) (pr_locking r) (panicked r) (csr r) (vdsk r) (devsw r) (mmio r).
Definition set_kernel_pagetable (v : Z) (r : kstate) : kstate :=
  mkkstate (syn r) (slocks r) (mem r) (freelist r) v (procs r) (initproc r) (nextpid r) (forkret_first r) (ticks r) (bufs r) (disk r) (klog r) (sb r) (itable r) (ftable r) (pipes r) (cons r) (uart r) (pr_locking r) (panicked r) (csr r) (vdsk r) (devsw r) (mmio r).
Definition set_procs (v : list proc) (r : kstate) : kstate :=
  mkkstate (syn r) (slocks r) (mem r) (freelist r) (kernel_pagetable r) v (initproc r) (nextpid r) (forkret_first r) (ticks r) (bufs r) (disk r) (klog r) (sb r) (itable r) (ftable r) (pipes r) (cons r) (uart r) (pr_locking r) (panicked r) (csr r) (vdsk r) (devsw r) (mmio r).
Definition set_initproc (v : option nat) (r : kstate) : kstate :=
  mkkstate (syn r) (slocks r) (mem r) (freelist r) (kernel_pagetable r) (procs r) v (nextpid r) (forkret_first r) (ticks r) (bufs r) (disk r) (klog r) (sb r) (itable r) (ftable r) (pipes r) (cons r) (uart r) (pr_locking r) (panicked r) (csr r) (vdsk r) (devsw r) (mmio r).
Definition set_nextpid (v : Z) (r : kstate) : kstate :=
  mkkstate (syn r) (slocks r) (mem r) (freelist r) (kernel_pagetable r) (procs r) (initproc r) v (forkret_first r) (ticks r) (bufs r) (disk r) (klog r) (sb r) (itable r) (ftable r) (pipes r) (cons r) (uart r) (pr_locking r) (panicked r) (csr r) (vdsk r) (devsw r) (mmio r).
Definition set_forkret_first (v : bool) (r : kstate) : kstate :=
  mkkstate (syn r) (slocks r) (mem r) (freelist r) (kernel_pagetable r) (procs r) (initproc r) (nextpid r) v (ticks r) (bufs r) (disk r) (klog r) (sb r) (itable r) (ftable r) (pipes r) (cons r) (uart r) (pr_locking r) (panicked r) (csr r) (vdsk r) (devsw r) (mmio r).
Definition set_ticks (v : Z) (r : kstate) : kstate :=
  mkkstate (syn r) (slocks r) (mem r) (freelist r) (kernel_pagetable r) (procs r) (initproc r) (nextpid r) (forkret_first r) v (bufs r) (disk r) (klog r) (sb r) (itable r) (ftable r) (pipes r) (cons r) (uart r) (pr_locking r) (panicked r) (csr r) (vdsk r) (devsw r) (mmio r).
Definition set_bufs (v : list buf) (r : kstate) : kstate :=
  mkkstate (syn r) (slocks r) (mem r) (freelist r) (kernel_pagetable r) (procs r) (initproc r) (nextpid r) (forkret_first r) (ticks r) v (disk r) (klog r) (sb r) (itable r) (ftable r) (pipes r) (cons r) (uart r) (pr_locking r) (panicked r) (csr r) (vdsk r) (devsw r) (mmio r).
Definition set_disk (v : diskst) (r : kstate) : kstate :=
  mkkstate (syn r) (slocks r) (mem r) (freelist r) (kernel_pagetable r) (procs r) (initproc r) (nextpid r) (forkret_first r) (ticks r) (bufs r) v (klog r) (sb r) (itable r) (ftable r) (pipes r) (cons r) (uart r) (pr_locking r) (panicked r) (csr r) (vdsk r) (devsw r) (mmio r).
Definition set_klog (v : log) (r : kstate) : kstate :=
  mkkstate (syn r) (slocks r) (mem r) (freelist r) (kernel_pagetable r) (procs r) (initproc r) (nextpid r) (forkret_first r) (ticks r) (bufs r) (disk r) v (sb r) (itable r) (ftable r) (pipes r) (cons r) (uart r) (pr_locking r) (panicked r) (csr r) (vdsk r) (devsw r) (mmio r).
Definition set_sb (v : superblock) (r : kstate) : kstate :=
  mkkstate (syn r) (slocks r) (mem r) (freelist r) (kernel_pagetable r) (procs r) (initproc r) (nextpid r) (forkret_first r) (ticks r) (bufs r) (disk r) (klog r) v (itable r) (ftable r) (pipes r) (cons r) (uart r) (pr_locking r) (panicked r) (csr r) (vdsk r) (devsw r) (mmio r).
Definition set_itable (v : list inode) (r : kstate) : kstate :=
  mkkstate (syn r) (slocks r) (mem r) (freelist r) (kernel_pagetable r) (procs r) (initproc r) (nextpid r) (forkret_first r) (ticks r) (bufs r) (disk r) (klog r) (sb r) v (ftable r) (pipes r) (cons r) (uart r) (pr_locking r) (panicked r) (csr r) (vdsk r) (devsw r) (mmio r).
Definition set_ftable (v : list file) (r : kstate) : kstate :=
  mkkstate (syn r) (slocks r) (mem r) (freelist r) (kernel_pagetable r) (procs r) (initproc r) (nextpid r) (forkret_first r) (ticks r) (bufs r) (disk r) (klog r) (sb r) (itable r) v (pipes r) (cons r) (uart r) (pr_locking r) (panicked r) (csr r) (vdsk r) (devsw r) (mmio r).
Definition set_pipes (v : gmap Z pipe) (r : kstate) : kstate :=
  mkkstate (syn r) (slocks r) (mem r) (freelist r) (kernel_pagetable r) (procs r) (initproc r) (nextpid r) (forkret_first r) (ticks r) (bufs r) (disk r) (klog r) (sb r) (itable r) (ftable r) v (cons r) (uart r) (pr_locking r) (panicked r) (csr r) (vdsk r) (devsw r) (mmio r).
Definition set_cons (v : consbuf) (r : kstate) : kstate :=
  mkkstate (syn r) (slocks r) (mem r) (freelist r) (kernel_pagetable r) (procs r) (initproc r) (nextpid r) (forkret_first r) (ticks r) (bufs r) (disk r) (klog r) (sb r) (itable r) (ftable r) (pipes r) v (uart r) (pr_locking r) (panicked r) (csr r) (vdsk r) (devsw r) (mmio r).
Definition set_uart (v : uartst) (r : kstate) : kstate :=
  mkkstate (syn r) (slocks r) (mem r) (freelist r) (kernel_pagetable r) (procs r) (initproc r) (nextpid r) (forkret_first r) (ticks r) (bufs r) (disk r) (klog r) (sb r) (itable r) (ftable r) (pipes r) (cons r) v (pr_locking r) (panicked r) (csr r) (vdsk r) (devsw r) (mmio r).
Definition set_pr_locking (v : bool) (r : kstate) : kstate :=
  mkkstate (syn r) (slocks r) (mem r) (freelist r) (kernel_pagetable r) (procs r) (initproc r) (nextpid r) (forkret_first r) (ticks r) (bufs r) (disk r) (klog r) (sb r) (itable r) (ftable r) (pipes r) (cons r) (uart r) v (panicked r) (csr r) (vdsk r) (devsw r) (mmio r).
Definition set_panicked (v : bool) (r : kstate) : kstate :=
  mkkstate (syn r) (slocks r) (mem r) (freelist r) (kernel_pagetable r) (procs r) (initproc r) (nextpid r) (forkret_first r) (ticks r) (bufs r) (disk r) (klog r) (sb r) (itable r) (ftable r) (pipes r) (cons r) (uart r) (pr_locking r) v (csr r) (vdsk r) (devsw r) (mmio r).
Definition set_csr (v : csrs) (r : kstate) : kstate :=
  mkkstate (syn r) (slocks r) (mem r) (freelist r) (kernel_pagetable r) (procs r) (initproc r) (nextpid r) (forkret_first r) (ticks r) (bufs r) (disk r) (klog r) (sb r) (itable r) (ftable r) (pipes r) (cons r) (uart r) (pr_locking r) (panicked r) v (vdsk r) (devsw r) (mmio r).
Definition set_vdsk (v : vdisk) (r : kstate) : kstate :=
  mkkstate (syn r) (slocks r) (mem r) (freelist r) (kernel_pagetable r) (procs r) (initproc r) (nextpid r) (forkret_first r) (ticks r) (bufs r) (disk r) (klog r) (sb r) (itable r) (ftable r) (pipes r) (cons r) (uart r) (pr_locking r) (panicked r) (csr r) v (devsw r) (mmio r).
Definition set_devsw (v : list (option device)) (r : kstate) : kstate :=
  mkkstate (syn r) (slocks r) (mem r) (freelist r) (kernel_pagetable r) (procs r) (initproc r) (nextpid r) (forkret_first r) (ticks r) (bufs r) (disk r) (klog r) (sb r) (itable r) (ftable r) (pipes r) (cons r) (uart r) (pr_locking r) (panicked r) (csr r) (vdsk r) v (mmio r).
Definition set_mmio (v : list (Z * Z)) (r : kstate) : kstate :=
  mkkstate (syn r) (slocks r) (mem r) (freelist r) (kernel_pagetable r) (procs r) (initproc r) (nextpid r) (forkret_first r) (ticks r) (bufs r) (disk r) (klog r) (sb r) (itable r) (ftable r) (pipes r) (cons r) (uart r) (pr_locking r) (panicked r) (csr r) (vdsk r) (devsw r) v.



(** Kernel routines run on [kstate]. *)
Abbreviation M := (KM kstate).
Abbreviation env := (sched_env kstate).

(** ** Access to the state's parts *)

Definition zero_lock : spinlock := mkspinlock "" false None.
Definition zero_slock : sleeplock := mksleeplock "" false 0.
Definition zero_context : context := mkcontext 0 0 (replicate 12 0).
Definition zero_proc : proc :=
  mkproc UNUSED None false 0 0 None 0 0 0 0 zero_context
    (replicate (Z.to_nat NOFILE) None) None (replicate 16 0).
Definition zero_buf : buf := mkbuf false false 0 0 0 0 0 (replicate (Z.to_nat BSIZE) 0).
Definition zero_inode : inode := mkinode 0 0 0 false 0 0 0 0 0 (replicate 13 0).
Definition zero_file : file := mkfile FD_NONE 0 false false 0 None 0 0.
Definition zero_cpu : cpu := mkcpu None 0 false.
Definition zero_vdesc : vdesc := mkvdesc A_null 0 0 0.
Definition zero_vinfo : vinfo := mkvinfo None 0.
Definition zero_vreq : vreq := mkvreq 0 0 0.
Definition zero_vdisk : vdisk :=
  mkvdisk (0, 0, 0) (replicate 8 zero_vdesc) 0 (replicate 8 0) 0 (replicate 8 0)
    (replicate 8 false) 0 (replicate 8 zero_vinfo) (replicate 8 zero_vreq).

Definition get_lock (y : sync) (l : lockid) : spinlock := default zero_lock (locks y !! l).
Definition get_slock (s : kstate) (l : slockid) : sleeplock := default zero_slock (slocks s !! l).
Definition get_proc (s : kstate) (i : nat) : proc := default zero_proc (procs s !! i).
Definition get_buf (s : kstate) (i : nat) : buf := default zero_buf (bufs s !! i).
Definition get_inode (s : kstate) (i : nat) : inode := default zero_inode (itable s !! i).
Definition get_file (s : kstate) (i : nat) : file := default zero_file (ftable s !! i).

Definition upd_proc (i : nat) (f : proc -> proc) (s : kstate) : kstate :=
  set_procs (alter f i (procs s)) s.
Definition upd_buf (i : nat) (f : buf -> buf) (s : kstate) : kstate :=
  set_bufs (alter f i (bufs s)) s.
Definition upd_inode (i : nat) (f : inode -> inode) (s : kstate) : kstate :=
  set_itable (alter f i (itable s)) s.
Definition upd_file (i : nat) (f : file -> file) (s : kstate) : kstate :=
  set_ftable (alter f i (ftable s)) s.
Definition upd_slock (l : slockid) (v : sleeplock) (s : kstate) : kstate :=
  set_slocks (<[l := v]> (slocks s)) s.
Definition upd_log (f : log -> log) (s : kstate) : kstate := set_klog (f (klog s)) s.

(** Dereferencing a null pointer faults; [kerneltrap] panics. *)
Definition deref {A} (p : option A) : M A :=
  match p with Some a => mret a | None => kpanic "kerneltrap" end.

(** Writing back what is there changes nothing. *)

Lemma set_syn_id (r : kstate) : set_syn (syn r) r = r.
Proof. by destruct r. Qed.
Lemma set_slocks_id (r : kstate) : set_slocks (slocks r) r = r.
Proof. by destruct r. Qed.
Lemma set_mem_id (r : kstate) : set_mem (mem r) r = r.
Proof. by destruct r. Qed.
Lemma set_freelist_id (r : kstate) : set_freelist (freelist r) r = r.
Proof. by destruct r. Qed.
Lemma set_kernel_pagetable_id (r : kstate) : set_kernel_pagetable (kernel_pagetable r) r = r.
Proof. by destruct r. Qed.
Lemma set_procs_id (r : kstate) : set_procs (procs r) r = r.
Proof. by destruct r. Qed.
Lemma set_initproc_id (r : kstate) : set_initproc (initproc r) r = r.
Proof. by destruct r. Qed.
Lemma set_nextpid_id (r : kstate) : set_nextpid (nextpid r) r = r.
Proof. by destruct r. Qed.
Lemma set_forkret_first_id (r : kstate) : set_forkret_first (forkret_first r) r = r.
Proof. by destruct r. Qed.
Lemma set_ticks_id (r : kstate) : set_ticks (ticks r) r = r.
Proof. by destruct r. Qed.
Lemma set_bufs_id (r : kstate) : set_bufs (bufs r) r = r.
Proof. by destruct r. Qed.
Lemma set_disk_id (r : kstate) : set_disk (disk r) r = r.
Proof. by destruct r. Qed.
Lemma set_klog_id (r : kstate) : set_klog (klog r) r = r.
Proof. by destruct r. Qed.
Lemma set_sb_id (r : kstate) : set_sb (sb r) r = r.
Proof. by destruct r. Qed.
Lemma set_itable_id (r : kstate) : set_itable (itable r) r = r.
Proof. by destruct r. Qed.
Lemma set_ftable_id (r : kstate) : set_ftable (ftable r) r = r.
Proof. by destruct r. Qed.
Lemma set_pipes_id (r : kstate) : set_pipes (pipes r) r = r.
Proof. by destruct r. Qed.
Lemma set_cons_id (r : kstate) : set_cons (cons r) r = r.
Proof. by destruct r. Qed.
Lemma set_uart_id (r : kstate) : set_uart (uart r) r = r.
Proof. by destruct r. Qed.
Lemma set_pr_locking_id (r : kstate) : set_pr_locking (pr_locking r) r = r.
Proof. by destruct r. Qed.
Lemma set_panicked_id (r : kstate) : set_panicked (panicked r) r = r.
Proof. by destruct r. Qed.
Lemma set_csr_id (r : kstate) : set_csr (csr r) r = r.
Proof. by destruct r. Qed.
Lemma set_vdsk_id (r : kstate) : set_vdsk (vdsk r) r = r.
Proof. by destruct r. Qed.
Lemma set_devsw_id (r : kstate) : set_devsw (devsw r) r = r.
Proof. by destruct r. Qed.
Lemma set_mmio_id (r : kstate) : set_mmio (mmio r) r = r.
Proof. by destruct r. Qed.

#[export] Hint Rewrite @set_syn_id @set_slocks_id @set_mem_id @set_freelist_id @set_kernel_pagetable_id @set_procs_id @set_initproc_id @set_nextpid_id @set_forkret_first_id @set_ticks_id @set_bufs_id @set_disk_id @set_klog_id @set_sb_id @set_itable_id @set_ftable_id @set_pipes_id @set_cons_id @set_uart_id @set_pr_locking_id @set_panicked_id @set_csr_id @set_vdsk_id @set_devsw_id @set_mmio_id : xv6.

(** States are compared field by field. *)
Lemma kstate_ext (r r' : kstate) :
  syn r = syn r' ->
  slocks r = slocks r' ->
  mem r = mem r' ->
  freelist r = freelist r' ->
  kernel_pagetable r = kernel_pagetable r' ->
  procs r = procs r' ->
  initproc r = initproc r' ->
  nextpid r = nextpid r' ->
  forkret_first r = forkret_first r' ->
  ticks r = ticks r' ->
  bufs r = bufs r' ->
  disk r = disk r' ->
  klog r = klog r' ->
  sb r = sb r' ->
  itable r = itable r' ->
  ftable r = ftable r' ->
  pipes r = pipes r' ->
  cons r = cons r' ->
  uart r = uart r' ->
  pr_locking r = pr_locking r' ->
  panicked r = panicked r' ->
  csr r = csr r' ->
  vdsk r = vdsk r' ->
  devsw r = devsw r' ->
  mmio r = mmio r' ->
  r = r'.
Proof. destruct r, r'. cbn. by intros -> -> -> -> -> -> -> -> -> -> -> -> -> -> -> -> -> -> -> -> -> -> -> -> ->. Qed.

Ltac kext := apply kstate_ext; cbn; try reflexivity.
