(* ===== verification/Sample.v ===== *)
(** * A concrete kernel state

    The tables at their sizes, every static lock initialised and free, and hart 0
    running process 0 with interrupts on.  The theorems with hypotheses are
    evaluated on this state and on variations of it. *)

From stdpp Require Import base gmap strings list.
From S2P Require Import Prelude KState.

(** The last eight pages below [PHYSTOP] are free memory. *)
Definition sample_layout : Layout :=
  {| kend := PHYSTOP - 8 * PGSIZE; etext := KERNBASE + 8 * PGSIZE;
     trampoline := KERNBASE + 7 * PGSIZE; uservec := KERNBASE + 7 * PGSIZE;
     userret := KERNBASE + 7 * PGSIZE + 156; kernelvec := KERNBASE + 6 * PGSIZE;
     usertrap_addr := KERNBASE + 5 * PGSIZE; forkret_addr := KERNBASE + 5 * PGSIZE + 512;
     stat_pad := replicate 4 5 |}.

Definition sample_lockids : list lockid :=
  [Lkmem; Lbcache; Litable; Lftable; Llog; Lpid; Lwait; Ltick; Lcons; Luart; Lpr; Lvdisk]
    ++ (Lproc <$> seq 0 (Z.to_nat NPROC))
    ++ ((fun i => Lsleep (SLbuf i)) <$> seq 0 (Z.to_nat NBUF))
    ++ ((fun i => Lsleep (SLinode i)) <$> seq 0 (Z.to_nat NINODE)).

Definition sample_sync : sync :=
  mksync 0 true (mkcpu (Some 0%nat) 0 false :: replicate 7 zero_cpu)
    (list_to_map ((fun l => (l, zero_lock)) <$> sample_lockids)).

Definition sample_proc : proc := set_p_state RUNNING (set_p_pid 1 zero_proc).

(** The buffers in a ring around the list head. *)
Definition sample_bufs : list buf :=
  (fun i => set_b_prev (if decide (i = Z.to_nat NBUF) then 0 else S i)%nat
     (set_b_next (if decide (i = 0)%nat then Z.to_nat NBUF else Nat.pred i) zero_buf))
    <$> seq 0 (S (Z.to_nat NBUF)).

Definition sample_state : kstate :=
  {| syn := sample_sync; slocks := ∅; mem := ∅; freelist := 0; kernel_pagetable := 0;
     procs := sample_proc :: replicate 63 zero_proc; initproc := Some 0%nat; nextpid := 2;
     forkret_first := false; ticks := 0; bufs := sample_bufs; disk := mkdisk ∅ [];
     klog := mklog 2 30 0 false 1 0 (replicate 30 0);
     sb := mksuperblock FSMAGIC FSSIZE 1954 200 30 2 32 45;
     itable := replicate (Z.to_nat NINODE) zero_inode;
     ftable := replicate (Z.to_nat NFILE) zero_file; pipes := ∅;
     cons := mkcons (replicate 128 0) 0 0 0; uart := mkuart (replicate 32 0) 0 0 [] [] [];
     pr_locking := true; panicked := false;
     csr := mkcsrs 0 0 0 0 false false 0 0 0; vdsk := zero_vdisk;
     devsw := replicate (Z.to_nat NDEV) None; mmio := [] |}.

Lemma sample_lockids_elem l :
  match l with
  | Lproc i => (i < Z.to_nat NPROC)%nat
  | Lsleep l => slock_ok l
  | Lpipe _ => False
  | _ => True
  end -> l ∈ sample_lockids.
Proof.
  intros Hl. unfold sample_lockids. rewrite !elem_of_app.
  destruct l as [| | | | | | | | | | | |i|pa|[i|i]]; try done;
    try (left; apply (bool_decide_unpack _); vm_compute; exact I); right.
  - left. apply list_elem_of_fmap. exists i. split; [done|]. apply elem_of_seq. lia.
  - right. left. apply list_elem_of_fmap. exists i. split; [done|]. apply elem_of_seq.
    apply Is_true_true, Nat.ltb_lt in Hl. lia.
  - right. right. apply list_elem_of_fmap. exists i. split; [done|]. apply elem_of_seq.
    apply Is_true_true, Nat.ltb_lt in Hl. lia.
Qed.
