(* ===== verification/StringC.v ===== *)
(** * kernel/string.c

    Memory is a finite map from byte addresses to bytes.  [memset] and
    [memmove] work on it, by the loops of the source.  The string functions
    work on character arrays given from the pointer on: [*p] is [ch p] and
    [p++] is [tail p]. *)

From stdpp Require Import base gmap list.
From S2P Require Import Prelude.

(** ** Byte and word access *)

Definition ld8 (m : gmap Z Z) (a : Z) : Z := default 0 (m !! a).
Definition st8 (m : gmap Z Z) (a v : Z) : gmap Z Z := <[a := v]> m.

Definition ld_bytes (m : gmap Z Z) (a : Z) (n : nat) : list Z :=
  (fun i => ld8 m (a + Z.of_nat i)) <$> seq 0 n.
Fixpoint st_bytes (m : gmap Z Z) (a : Z) (bs : list Z) : gmap Z Z :=
  match bs with
  | [] => m
  | b :: bs' => st_bytes (st8 m a b) (a + 1) bs'
  end.

Definition ld64 (m : gmap Z Z) (a : Z) : Z := le_val (ld_bytes m a 8).
Definition st64 (m : gmap Z Z) (a v : Z) : gmap Z Z := st_bytes m a (le_bytes 8 v).

(** ** Memory functions *)

(** for(i = 0; i < n; i++) cdst[i] = c; *)
Fixpoint memset_loop (k : nat) (m : gmap Z Z) (cdst c i : Z) : gmap Z Z :=
  match k with
  | O => m
  | Datatypes.S k' => memset_loop k' (st8 m (cdst + i) (u8 c)) cdst c (i + 1)
  end.
Definition memset (m : gmap Z Z) (dst c n : Z) : gmap Z Z :=
  memset_loop (Z.to_nat n) m dst c 0.

Fixpoint memcmp_loop (k : nat) (m : gmap Z Z) (s1 s2 : Z) : Z :=
  match k with
  | O => 0
  | Datatypes.S k' =>
      if ld8 m s1 =? ld8 m s2 then memcmp_loop k' m (s1 + 1) (s2 + 1)
      else ld8 m s1 - ld8 m s2
  end.
Definition memcmp (m : gmap Z Z) (v1 v2 n : Z) : Z := memcmp_loop (Z.to_nat n) m v1 v2.

(** while(n-- > 0) *d++ = *s++; *)
Fixpoint copy_fwd (k : nat) (m : gmap Z Z) (d s : Z) : gmap Z Z :=
  match k with
  | O => m
  | Datatypes.S k' => copy_fwd k' (st8 m d (ld8 m s)) (d + 1) (s + 1)
  end.
(** while(n-- > 0) *--d = *--s; *)
Fixpoint copy_bwd (k : nat) (m : gmap Z Z) (d s : Z) : gmap Z Z :=
  match k with
  | O => m
  | Datatypes.S k' => copy_bwd k' (st8 m (d - 1) (ld8 m (s - 1))) (d - 1) (s - 1)
  end.
Definition memmove (m : gmap Z Z) (dst src n : Z) : gmap Z Z :=
  if n =? 0 then m
  else if (src <? dst) && (dst <? src + n)
  then copy_bwd (Z.to_nat n) m (dst + n) (src + n)
  else copy_fwd (Z.to_nat n) m dst src.
Definition memcpy (m : gmap Z Z) (dst src n : Z) : gmap Z Z := memmove m dst src n.

(** ** Character arrays *)

Definition ch (p : list Z) : Z := match p with [] => 0 | c :: _ => c end.

Fixpoint strncmp_loop (k : nat) (p q : list Z) : Z :=
  match k with
  | O => 0
  | Datatypes.S k' =>
      if negb (ch p =? 0) && (ch p =? ch q) then strncmp_loop k' (tail p) (tail q)
      else u8 (ch p) - u8 (ch q)
  end.
Definition strncmp (p q : list Z) (n : Z) : Z := strncmp_loop (Z.to_nat n) p q.

(** The destination array after the call, from [s] on. *)
Fixpoint strncpy_pad (k : nat) (s : list Z) : list Z :=
  match k with
  | O => s
  | Datatypes.S k' => 0 :: strncpy_pad k' (tail s)
  end.
Fixpoint strncpy_loop (k : nat) (s t : list Z) : list Z :=
  match k with
  | O => s
  | Datatypes.S k' =>
      if ch t =? 0 then 0 :: strncpy_pad k' (tail s)
      else ch t :: strncpy_loop k' (tail s) (tail t)
  end.
Definition strncpy (s t : list Z) (n : Z) : list Z := strncpy_loop (Z.to_nat n) s t.

Fixpoint safestrcpy_loop (k : nat) (s t : list Z) : list Z :=
  match k with
  | O => 0 :: tail s
  | Datatypes.S k' =>
      if ch t =? 0 then 0 :: 0 :: tail (tail s)
      else ch t :: safestrcpy_loop k' (tail s) (tail t)
  end.
Definition safestrcpy (s t : list Z) (n : Z) : list Z :=
  if n <=? 0 then s else safestrcpy_loop (Z.to_nat (n - 1)) s t.

Fixpoint strlen (s : list Z) : Z :=
  match s with
  | [] => 0
  | c :: s' => if c =? 0 then 0 else 1 + strlen s'
  end.

(** The characters of a string: what stands before the first NUL. *)
Fixpoint cstr (p : list Z) : list Z :=
  match p with
  | [] => []
  | c :: p' => if c =? 0 then [] else c :: cstr p'
  end.

Arguments ld8 : simpl never.
Arguments st8 : simpl never.
Arguments ld_bytes : simpl never.
Arguments ld64 : simpl never.
Arguments st64 : simpl never.
Arguments memset : simpl never.
Arguments memmove : simpl never.

(** ** Laws of memory access *)

Lemma ld8_st8 m a v b : ld8 (st8 m a v) b = if decide (a = b) then v else ld8 m b.
Proof. unfold ld8, st8. rewrite lookup_insert. by case_decide. Qed.

Lemma ld8_st_bytes m a bs b :
  ld8 (st_bytes m a bs) b =
    if decide (a <= b < a + Z.of_nat (length bs))
    then default 0 (bs !! Z.to_nat (b - a)) else ld8 m b.
Proof.
  revert m a. induction bs as [|x bs IH]; intros m a; cbn [st_bytes length].
  - case_decide; [lia|done].
  - rewrite IH, ld8_st8. repeat case_decide; subst; try lia; try done.
    + replace (Z.to_nat (b - a)) with (Datatypes.S (Z.to_nat (b - (a + 1)))) by lia. done.
    + by rewrite Z.sub_diag.
Qed.

Lemma length_ld_bytes m a n : length (ld_bytes m a n) = n.
Proof. unfold ld_bytes. by rewrite length_fmap, length_seq. Qed.

Lemma lookup_ld_bytes m a n i :
  (i < n)%nat -> ld_bytes m a n !! i = Some (ld8 m (a + Z.of_nat i)).
Proof. intros. unfold ld_bytes. by rewrite list_lookup_fmap, lookup_seq_lt. Qed.

Lemma ld_bytes_ext m m' a n :
  (forall b, a <= b < a + Z.of_nat n -> ld8 m b = ld8 m' b) -> ld_bytes m a n = ld_bytes m' a n.
Proof.
  intros H. apply list_eq. intros i. destruct (decide (i < n)%nat).
  - rewrite !lookup_ld_bytes by done. f_equal. apply H. lia.
  - rewrite !lookup_ge_None_2; rewrite ?length_ld_bytes; lia || done.
Qed.

Lemma ld_st_bytes m a bs : ld_bytes (st_bytes m a bs) a (length bs) = bs.
Proof.
  apply list_eq. intros i. destruct (decide (i < length bs)%nat) as [Hi|].
  - rewrite lookup_ld_bytes, ld8_st_bytes by done. case_decide; [|lia].
    replace (Z.to_nat (a + Z.of_nat i - a)) with i by lia.
    destruct (lookup_lt_is_Some_2 bs i Hi) as [x ->]. done.
  - rewrite !lookup_ge_None_2; rewrite ?length_ld_bytes; lia || done.
Qed.

Lemma ld_st_bytes_other m a bs b n :
  b + Z.of_nat n <= a \/ a + Z.of_nat (length bs) <= b ->
  ld_bytes (st_bytes m a bs) b n = ld_bytes m b n.
Proof.
  intros. apply ld_bytes_ext. intros c ?. rewrite ld8_st_bytes. case_decide; [lia|done].
Qed.

Lemma ld64_st64 m a v : ld64 (st64 m a v) a = u64 v.
Proof.
  unfold ld64, st64. replace 8%nat with (length (le_bytes 8 v)) at 2 by done.
  rewrite ld_st_bytes, le_val_bytes. done.
Qed.

Lemma ld64_st64_other m a v b :
  b + 8 <= a \/ a + 8 <= b -> ld64 (st64 m a v) b = ld64 m b.
Proof. intros. unfold ld64, st64. rewrite ld_st_bytes_other; [done|]. cbn. lia. Qed.

Lemma ld8_st64_other m a v b : ~ (a <= b < a + 8) -> ld8 (st64 m a v) b = ld8 m b.
Proof. intros. unfold st64. rewrite ld8_st_bytes. case_decide; [cbn in *; lia|done]. Qed.

Lemma ld64_ext m m' a :
  (forall b, a <= b < a + 8 -> ld8 m b = ld8 m' b) -> ld64 m a = ld64 m' a.
Proof. intros. unfold ld64. f_equal. apply ld_bytes_ext. auto. Qed.

(** ** memset, memmove *)

Lemma ld8_memset_loop k m dst c i a :
  ld8 (memset_loop k m dst c i) a =
    if decide (dst + i <= a < dst + i + Z.of_nat k) then u8 c else ld8 m a.
Proof.
  revert m i. induction k as [|k IH]; intros m i; cbn [memset_loop].
  - case_decide; [lia|done].
  - rewrite IH, ld8_st8. repeat case_decide; try lia; done.
Qed.

Lemma ld8_memset m dst c n a :
  ld8 (memset m dst c n) a = if decide (dst <= a < dst + n) then u8 c else ld8 m a.
Proof. unfold memset. rewrite ld8_memset_loop. repeat case_decide; lia || done. Qed.

Lemma ld8_copy_fwd k m d s a :
  d <= s \/ s + Z.of_nat k <= d ->
  ld8 (copy_fwd k m d s) a =
    if decide (d <= a < d + Z.of_nat k) then ld8 m (s + (a - d)) else ld8 m a.
Proof.
  revert m d s. induction k as [|k IH]; intros m d s H; cbn [copy_fwd].
  - case_decide; [lia|done].
  - rewrite IH by lia. rewrite !ld8_st8. repeat case_decide; try lia; try done.
    + f_equal. lia.
    + subst. f_equal. lia.
Qed.

Lemma ld8_copy_bwd k m d s a :
  s <= d \/ d <= s - Z.of_nat k ->
  ld8 (copy_bwd k m d s) a =
    if decide (d - Z.of_nat k <= a < d) then ld8 m (s - (d - a)) else ld8 m a.
Proof.
  revert m d s. induction k as [|k IH]; intros m d s H; cbn [copy_bwd].
  - case_decide; [lia|done].
  - rewrite IH by lia. rewrite !ld8_st8. repeat case_decide; try lia; try done.
    + f_equal. lia.
    + subst. f_equal. lia.
Qed.

Lemma ld8_memmove m dst src n a :
  0 <= n ->
  ld8 (memmove m dst src n) a =
    if decide (dst <= a < dst + n) then ld8 m (src + (a - dst)) else ld8 m a.
Proof.
  intros Hn. unfold memmove. destruct (Z.eqb_spec n 0) as [->|Hn0].
  { case_decide; [lia|done]. }
  destruct ((src <? dst) && (dst <? src + n)) eqn:Hov.
  - apply andb_true_iff in Hov as [? ?]. rewrite ld8_copy_bwd by lia.
    repeat case_decide; try lia; try done. f_equal. lia.
  - apply andb_false_iff in Hov. rewrite ld8_copy_fwd by lia.
    repeat case_decide; try lia; done.
Qed.

Lemma ld_bytes_memset m dst c n b k :
  dst <= b -> b + Z.of_nat k <= dst + n ->
  ld_bytes (memset m dst c n) b k = replicate k (u8 c).
Proof.
  intros. apply list_eq. intros i. destruct (decide (i < k)%nat).
  - rewrite lookup_ld_bytes, ld8_memset, lookup_replicate_2 by done. case_decide; [done|lia].
  - rewrite !lookup_ge_None_2; rewrite ?length_ld_bytes, ?length_replicate; lia || done.
Qed.

Lemma ld64_memset_0 m dst n b :
  dst <= b -> b + 8 <= dst + n -> ld64 (memset m dst 0 n) b = 0.
Proof. intros. unfold ld64. by rewrite ld_bytes_memset by lia. Qed.

Lemma ld64_memset_other m dst c n b :
  b + 8 <= dst \/ dst + n <= b -> ld64 (memset m dst c n) b = ld64 m b.
Proof.
  intros. apply ld64_ext. intros a ?. rewrite ld8_memset. case_decide; [lia|done].
Qed.

(** ** Strings *)

Lemma cstr_cons p : cstr p = if ch p =? 0 then [] else ch p :: cstr (tail p).
Proof. by destruct p. Qed.

Lemma ch_ok p : Forall byte_ok p -> byte_ok (ch p).
Proof. destruct 1; [unfold byte_ok; cbn; lia|done]. Qed.

Lemma Forall_tail {A} (P : A -> Prop) l : Forall P l -> Forall P (tail l).
Proof. destruct 1; [constructor|done]. Qed.

Lemma strlen_cstr p : strlen p = Z.of_nat (length (cstr p)).
Proof.
  induction p as [|c p IH]; [done|]. cbn [strlen cstr]. destruct (c =? 0); [done|].
  cbn [length]. lia.
Qed.

Lemma cstr_nonzero p : Forall (fun c => c <> 0) (cstr p).
Proof.
  induction p as [|c p IH]; [constructor|]. cbn. destruct (Z.eqb_spec c 0); [constructor|].
  by constructor.
Qed.

Lemma cstr_app_zero l r : Forall (fun c => c <> 0) l -> cstr (l ++ 0 :: r) = l.
Proof.
  induction 1 as [|c l Hc _ IH]; [done|]. cbn. destruct (Z.eqb_spec c 0); [done|]. by rewrite IH.
Qed.

Lemma cstr_id l : Forall (fun c => c <> 0) l -> cstr l = l.
Proof.
  induction 1 as [|c l Hc _ IH]; [done|]. cbn. destruct (Z.eqb_spec c 0); [done|]. by rewrite IH.
Qed.

Lemma strncpy_pad_spec k s :
  (k <= length s)%nat -> strncpy_pad k s = replicate k 0 ++ drop k s.
Proof.
  revert s. induction k as [|k IH]; intros [|c s] H; cbn in *; try lia; try done.
  f_equal. apply IH. lia.
Qed.

Lemma strncpy_loop_spec k s t :
  (k <= length s)%nat ->
  strncpy_loop k s t =
    take k (cstr t) ++ replicate (k - length (take k (cstr t))) 0 ++ drop k s.
Proof.
  revert s t. induction k as [|k IH]; intros s t H; [by rewrite drop_0|].
  destruct s as [|c s]; [cbn in H; lia|]. cbn [strncpy_loop tail length] in *.
  rewrite (cstr_cons t). destruct (ch t =? 0).
  - cbn. f_equal. apply strncpy_pad_spec. lia.
  - cbn. f_equal. rewrite IH by lia. done.
Qed.

Lemma strncpy_spec s t n :
  0 <= n <= Z.of_nat (length s) ->
  strncpy s t n =
    take (Z.to_nat n) (cstr t)
      ++ replicate (Z.to_nat n - length (take (Z.to_nat n) (cstr t))) 0
      ++ drop (Z.to_nat n) s.
Proof. intros. apply strncpy_loop_spec. lia. Qed.

Lemma strncmp_loop_zero k p q :
  Forall byte_ok p -> Forall byte_ok q ->
  strncmp_loop k p q = 0 <-> take k (cstr p) = take k (cstr q).
Proof.
  revert p q. induction k as [|k IH]; intros p q Hp Hq; [done|].
  pose proof (ch_ok _ Hp). pose proof (ch_ok _ Hq). unfold byte_ok, u8 in *.
  cbn [strncmp_loop]. rewrite (cstr_cons p), (cstr_cons q).
  destruct (Z.eqb_spec (ch p) 0) as [Hp0|]; cbn [negb andb].
  - unfold u8. rewrite !Z.mod_small by lia.
    destruct (Z.eqb_spec (ch q) 0); cbn; [split; [done|lia]|]. split; [lia|done].
  - destruct (Z.eqb_spec (ch p) (ch q)) as [Heq|Hne].
    + rewrite IH by auto using Forall_tail. rewrite <- Heq.
      destruct (Z.eqb_spec (ch p) 0); [done|]. cbn. split; [by intros ->|congruence].
    + unfold u8. rewrite !Z.mod_small by lia.
      destruct (Z.eqb_spec (ch q) 0); cbn; split; try lia; try done. congruence.
Qed.

Lemma safestrcpy_loop_spec k s t :
  (k < length s)%nat ->
  length (safestrcpy_loop k s t) = length s /\
  exists r, safestrcpy_loop k s t = take k (cstr t) ++ 0 :: r.
Proof.
  revert s t. induction k as [|k IH]; intros s t H; destruct s as [|c s]; cbn in H; try lia.
  - split; [done|]. by exists s.
  - cbn [safestrcpy_loop]. rewrite (cstr_cons t). destruct (ch t =? 0).
    + cbn. split; [destruct s; cbn in *; lia|]. eauto.
    + cbn. destruct (IH s (tail t)) as [Hl [r Hr]]; [lia|]. rewrite Hl, Hr. eauto.
Qed.

(** ** Properties *)

(** [memmove] is right for overlapping ranges too: afterwards the destination
    holds the bytes the source held before the call, and every byte outside
    the destination is unchanged. *)
Theorem memmove_overlap m dst src n :
  0 <= n ->
  ld_bytes (memmove m dst src n) dst (Z.to_nat n) = ld_bytes m src (Z.to_nat n) /\
  forall a, ~ (dst <= a < dst + n) -> ld8 (memmove m dst src n) a = ld8 m a.
Proof.
  intros Hn. split.
  - apply list_eq. intros i. destruct (decide (i < Z.to_nat n)%nat).
    + rewrite !lookup_ld_bytes, ld8_memmove by done. case_decide; [|lia]. do 2 f_equal. lia.
    + rewrite !lookup_ge_None_2; rewrite ?length_ld_bytes; lia || done.
  - intros a Ha. rewrite ld8_memmove by done. case_decide; done.
Qed.

Lemma memmove_overlap_witness :
  let m := st_bytes ∅ 100 [1; 2; 3; 4; 5] in
  ld_bytes (memmove m 102 100 5) 102 5 = [1; 2; 3; 4; 5].
Proof.
  intros m. destruct (memmove_overlap m 102 100 5) as [H _]; [lia|].
  etransitivity; [exact H|vm_compute; reflexivity].
Defined.

(** [safestrcpy] always leaves a terminated string: the destination keeps its
    length and reads back as the source string cut at [n - 1] characters. *)
Theorem safestrcpy_terminated s t n :
  0 < n <= Z.of_nat (length s) ->
  length (safestrcpy s t n) = length s /\
  cstr (safestrcpy s t n) = take (Z.to_nat (n - 1)) (cstr t) /\
  strlen (safestrcpy s t n) < n.
Proof.
  intros Hn. unfold safestrcpy. destruct (Z.leb_spec n 0); [lia|].
  destruct (safestrcpy_loop_spec (Z.to_nat (n - 1)) s t) as [Hl [r Hr]]; [lia|].
  assert (Hc : cstr (safestrcpy_loop (Z.to_nat (n - 1)) s t) = take (Z.to_nat (n - 1)) (cstr t)).
  { rewrite Hr. apply cstr_app_zero, Forall_take, cstr_nonzero. }
  split_and!; [done..|]. rewrite strlen_cstr, Hc, length_take. lia.
Qed.

Lemma safestrcpy_terminated_witness :
  cstr (safestrcpy (replicate 4 7) [104; 101; 108; 108; 111; 0] 4) = [104; 101; 108].
Proof.
  destruct (safestrcpy_terminated (replicate 4 7) [104; 101; 108; 108; 111; 0] 4)
    as (_ & H & _); [cbn; lia|].
  etransitivity; [exact H|reflexivity].
Defined.

#[global] Opaque ld8 st8 ld_bytes st_bytes ld64 st64 memset memmove.
