(* ===== verification/Spinlock.v ===== *)
(** * kernel/spinlock.c, with [cpuid], [mycpu] and [myproc] of kernel/proc.c

    [push_off]/[pop_off], [acquire]/[release] and [holding] on the [sync]
    part of the kernel state, for the executing hart.  The pure functions
    [acq] and [touch] describe what a successful [acquire], and an
    [acquire]/[release] pair, do to that part; every other component's proofs
    go through the lemmas [acquire_free], [release_acq] and [myproc_run]. *)

From stdpp Require Import base gmap strings list.
From S2P Require Import Prelude KState Sample.

#[local] Set Warnings "-clear-no-such-hyp".

(** ** The routines *)

Definition intr_get : M bool := gets (fun s => intr (syn s)).
Definition intr_on : M unit := modify (fun s => set_syn (set_intr true (syn s)) s).
Definition intr_off : M unit := modify (fun s => set_syn (set_intr false (syn s)) s).

Definition cpuid : M nat := gets (fun s => hart (syn s)).

Definition cpu_of (y : sync) : cpu := default zero_cpu (cpus y !! hart y).
Definition upd_cpu (f : cpu -> cpu) (s : kstate) : kstate :=
  set_syn (set_cpus (alter f (hart (syn s)) (cpus (syn s))) (syn s)) s.

Definition mycpu : M cpu := gets (fun s => cpu_of (syn s)).

Definition initlock (l : lockid) (name : string) : M unit :=
  modify (fun s => set_syn (set_locks (<[l := mkspinlock name false None]> (locks (syn s))) (syn s)) s).

Definition push_off : M unit :=
  old ← intr_get;
  intr_off;;
  c ← mycpu;
  when (c_noff c =? 0) (modify (upd_cpu (set_c_intena old)));;
  modify (upd_cpu (fun c => set_c_noff (c_noff c + 1) c)).

Definition pop_off : M unit :=
  on ← intr_get;
  if on : bool then kpanic "pop_off - interruptible" else
  c ← mycpu;
  if c_noff c <? 1 then kpanic "pop_off" else
  modify (upd_cpu (fun c => set_c_noff (c_noff c - 1) c));;
  c ← mycpu;
  when ((c_noff c =? 0) && c_intena c) intr_on.

(** [lk->locked && lk->cpu == mycpu()] *)
Definition holds (y : sync) (l : lockid) : bool :=
  lk_locked (get_lock y l) && bool_decide (lk_cpu (get_lock y l) = Some (hart y)).
Definition holding (l : lockid) : M bool := gets (fun s => holds (syn s) l).

Definition upd_lock (l : lockid) (f : spinlock -> spinlock) (s : kstate) : kstate :=
  set_syn (set_locks (<[l := f (get_lock (syn s) l)]> (locks (syn s))) (syn s)) s.

(** while(__sync_lock_test_and_set(&lk->locked, 1) != 0) ; *)
Fixpoint spin_tas (l : lockid) (s : kstate) (e : env) {struct e} : res kstate unit :=
  if lk_locked (get_lock (syn s) l) then
    match e with
    | [] => Wait s
    | f :: e' => spin_tas l (f s) e'
    end
  else Ok () (upd_lock l (set_lk_locked true) s) e.

Definition acquire (l : lockid) : M unit :=
  push_off;;
  h ← holding l;
  if h : bool then kpanic "acquire" else
  spin_tas l;;
  id ← cpuid;
  modify (upd_lock l (set_lk_cpu (Some id))).

Definition release (l : lockid) : M unit :=
  h ← holding l;
  if negb h then kpanic "release" else
  modify (upd_lock l (set_lk_cpu None));;
  modify (upd_lock l (set_lk_locked false));;
  pop_off.

Definition myproc : M (option nat) :=
  push_off;;
  c ← mycpu;
  let p := c_proc c in
  pop_off;;
  mret p.

(** ** The lock under interleaving

    One lock and any number of harts, at the granularity of the atomic
    accesses of [acquire] and [release]: the unsynchronised [holding] test,
    the atomic swap, the write of [lk->cpu], its clearing, and the atomic
    release.  [LPanic] is the [panic] branch of either routine. *)

Inductive lpc : Type := LOut | LTrying | LWon | LIn | LLeaving | LPanic.

Record lstate : Type := mklstate {
  ls_locked : bool;
  ls_cpu : option nat;
  ls_pc : nat -> lpc
}.

Definition pc_upd (f : nat -> lpc) (h : nat) (p : lpc) : nat -> lpc :=
  fun h' => if decide (h' = h) then p else f h'.

Definition ls_holding (st : lstate) (h : nat) : bool :=
  ls_locked st && bool_decide (ls_cpu st = Some h).

Inductive lock_step : lstate -> lstate -> Prop :=
| step_check (st : lstate) h :
    ls_pc st h = LOut ->
    lock_step st (mklstate (ls_locked st) (ls_cpu st)
      (pc_upd (ls_pc st) h (if ls_holding st h then LPanic else LTrying)))
| step_swap (st : lstate) h :
    ls_pc st h = LTrying ->
    lock_step st (mklstate true (ls_cpu st)
      (pc_upd (ls_pc st) h (if ls_locked st then LTrying else LWon)))
| step_setcpu (st : lstate) h :
    ls_pc st h = LWon ->
    lock_step st (mklstate (ls_locked st) (Some h) (pc_upd (ls_pc st) h LIn))
| step_clear (st : lstate) h :
    ls_pc st h = LIn ->
    lock_step st (if ls_holding st h
      then mklstate (ls_locked st) None (pc_upd (ls_pc st) h LLeaving)
      else mklstate (ls_locked st) (ls_cpu st) (pc_upd (ls_pc st) h LPanic))
| step_unlock (st : lstate) h :
    ls_pc st h = LLeaving ->
    lock_step st (mklstate false (ls_cpu st) (pc_upd (ls_pc st) h LOut)).

Definition lstate0 : lstate := mklstate false None (fun _ => LOut).

(** Words of [push_off] ([true]) and [pop_off] ([false]), and the matched ones. *)
Fixpoint run_word (w : list bool) : M unit :=
  match w with
  | [] => mret ()
  | true :: w' => push_off;; run_word w'
  | false :: w' => pop_off;; run_word w'
  end.

Inductive matched : list bool -> Prop :=
| matched_nil : matched []
| matched_pair w1 w2 : matched w1 -> matched w2 -> matched (true :: w1 ++ false :: w2).

(** ** Effect on the synchronisation state *)

Definition pushed (y : sync) (c : cpu) : cpu :=
  set_c_noff (c_noff c + 1) (if c_noff c =? 0 then set_c_intena (intr y) c else c).

(** [y] after [push_off]. *)
Definition psh (y : sync) : sync :=
  mksync (hart y) false (alter (pushed y) (hart y) (cpus y)) (locks y).

(** [y] after this hart has acquired [l]. *)
Definition acq (y : sync) (l : lockid) : sync :=
  mksync (hart y) false (alter (pushed y) (hart y) (cpus y))
    (<[l := mkspinlock (lk_name (get_lock y l)) true (Some (hart y))]> (locks y)).

(** [y] after a [push_off]/[pop_off] pair: only [intena] may have changed. *)
Definition touch (y : sync) : sync :=
  set_cpus (alter (fun c => if c_noff c =? 0 then set_c_intena (intr y) c else c)
    (hart y) (cpus y)) y.

(** The executing hart's bookkeeping is consistent: its [struct cpu] exists,
    and interrupts are off whenever a [push_off] is outstanding. *)
Definition cpu_wf (y : sync) : Prop :=
  exists c, cpus y !! hart y = Some c /\ 0 <= c_noff c /\ (0 < c_noff c -> intr y = false).

Definition lfree (y : sync) (l : lockid) : Prop :=
  exists nm, locks y !! l = Some (mkspinlock nm false None).

Lemma sync_eq h i c l h' i' c' l' :
  h = h' -> i = i' -> c = c' -> l = l' -> mksync h i c l = mksync h' i' c' l'.
Proof. by intros -> -> -> ->. Qed.

Lemma cpus_lt y c : cpus y !! hart y = Some c -> (hart y < length (cpus y))%nat.
Proof. apply lookup_lt_Some. Qed.

Lemma push_off_run s e :
  cpu_wf (syn s) ->
  push_off s e = Ok () (set_syn (psh (syn s)) s) e.
Proof.
  intros (c & Hc & Hn & Hi). pose proof (cpus_lt _ _ Hc). unfold psh.
  unfold push_off, when, intr_get, intr_off, mycpu. kpure.
  unfold cpu_of. cbn. rewrite Hc. cbn. rewrite (list_alter_known _ _ _ _ Hc).
  unfold pushed. destruct (Z.eqb_spec (c_noff c) 0); kpure; unfold modify, upd_cpu; cbn;
    rewrite (list_alter_known _ _ _ _ Hc), ?list_alter_insert by done; done.
Qed.

(** [pop_off] from a state with an outstanding [push_off]. *)
Lemma pop_off_run s e c :
  cpus (syn s) !! hart (syn s) = Some c -> 1 <= c_noff c -> intr (syn s) = false ->
  pop_off s e = Ok () (set_syn (mksync (hart (syn s)) ((c_noff c =? 1) && c_intena c)
    (<[hart (syn s) := set_c_noff (c_noff c - 1) c]> (cpus (syn s))) (locks (syn s))) s) e.
Proof.
  intros Hc Hn Hi. pose proof (cpus_lt _ _ Hc).
  unfold pop_off, intr_get, mycpu, when. kpure. rewrite Hi. kpure.
  unfold cpu_of. rewrite Hc. cbn. destruct (Z.ltb_spec (c_noff c) 1); [lia|].
  kpure. unfold upd_cpu. cbn. rewrite (list_alter_known _ _ _ _ Hc).
  rewrite list_lookup_insert_eq by done. cbn.
  replace (c_noff c - 1 =? 0) with (c_noff c =? 1) by lia.
  destruct ((c_noff c =? 1) && c_intena c); unfold intr_on, modify, set_syn, set_intr, set_cpus; cbn;
    [done|]. unfold mret, KM_ret. by rewrite Hi.
Qed.

Lemma pop_psh s e y :
  cpu_wf y -> syn s = psh y -> pop_off s e = Ok () (set_syn (touch y) s) e.
Proof.
  intros (c & Hc & Hn & Hi) Hs. pose proof (cpus_lt _ _ Hc).
  assert (Hcs : cpus (psh y) = <[hart y := pushed y c]> (cpus y)).
  { unfold psh. cbn. by rewrite (list_alter_known _ _ _ _ Hc). }
  erewrite (pop_off_run _ _ (pushed y c)); rewrite ?Hs; cycle 1.
  { rewrite Hcs. by apply list_lookup_insert_eq. }
  { unfold pushed. destruct (c_noff c =? 0); cbn; lia. }
  { done. }
  rewrite Hcs. do 2 f_equal. unfold touch, set_cpus. rewrite (list_alter_known _ _ _ _ Hc).
  apply sync_eq; [done| |rewrite list_insert_insert_eq; f_equal; unfold pushed|done].
  - unfold pushed. destruct (Z.eqb_spec (c_noff c) 0) as [H0|H0]; cbn.
    + by rewrite H0.
    + rewrite (proj2 (Z.eqb_neq _ _)) by lia. cbn. by rewrite Hi by lia.
  - destruct (c_noff c =? 0); unfold set_c_noff, set_c_intena; cbn; destruct c; cbn; f_equal; lia.
Qed.

Lemma lfree_get y l : lfree y l ->
  locks y !! l = Some (mkspinlock (lk_name (get_lock y l)) false None).
Proof. intros [nm H]. unfold get_lock. by rewrite H. Qed.

Lemma holds_free y l : lfree y l -> holds y l = false.
Proof. intros [nm H]. unfold holds, get_lock. by rewrite H. Qed.

Lemma holds_acq y l : holds (acq y l) l = true.
Proof. unfold holds, get_lock, acq. cbn. rewrite lookup_insert_eq. cbn. by rewrite bool_decide_true. Qed.

Lemma acquire_free s e l :
  cpu_wf (syn s) -> lfree (syn s) l -> acquire l s e = Ok () (set_syn (acq (syn s) l) s) e.
Proof.
  intros Hwf Hl. unfold acquire. kstep ltac:(by apply push_off_run).
  unfold holding, cpuid. kpure. unfold holds, get_lock. cbn.
  rewrite (lfree_get _ _ Hl). cbn.
  erewrite (bind_ok (spin_tas l)); [|destruct e; cbn; unfold get_lock; cbn;
    rewrite (lfree_get _ _ Hl); cbn; reflexivity].
  kpure. unfold modify, upd_lock, acq, get_lock. cbn.
  rewrite (lfree_get _ _ Hl), lookup_insert_eq. cbn.
  by rewrite insert_insert_eq.
Qed.

Lemma release_acq s e y l :
  cpu_wf y -> lfree y l -> syn s = acq y l ->
  release l s e = Ok () (set_syn (touch y) s) e.
Proof.
  intros Hwf Hl Hs. unfold release, holding. kpure. rewrite Hs, holds_acq. cbn [negb]. kpure.
  erewrite pop_psh; [reflexivity|done|].
  unfold upd_lock, get_lock. cbn. rewrite Hs. unfold acq, psh, set_locks. cbn.
  apply sync_eq; try done. rewrite !lookup_insert_eq. cbn. rewrite !insert_insert_eq.
  apply insert_id, (lfree_get _ _ Hl).
Qed.

Lemma myproc_run s e :
  cpu_wf (syn s) ->
  myproc s e = Ok (c_proc (cpu_of (syn s))) (set_syn (touch (syn s)) s) e.
Proof.
  intros Hwf. unfold myproc. kstep ltac:(by apply push_off_run). unfold mycpu. kpure.
  kstep ltac:(by apply (pop_psh _ _ (syn s))). unfold mret, KM_ret. f_equal.
  destruct Hwf as (c & Hc & _). unfold cpu_of, psh. cbn.
  rewrite list_lookup_alter_eq, Hc. cbn. unfold pushed. by destruct (c_noff c =? 0).
Qed.

(** ** Algebra of [acq] and [touch] *)

Lemma touch_known y c : cpus y !! hart y = Some c ->
  touch y = set_cpus (<[hart y := if c_noff c =? 0 then set_c_intena (intr y) c else c]> (cpus y)) y.
Proof. intros Hc. unfold touch. by rewrite (list_alter_known _ _ _ _ Hc). Qed.

Lemma cpu_wf_touch y : cpu_wf y -> cpu_wf (touch y).
Proof.
  intros (c & Hc & Hn & Hi). rewrite (touch_known _ _ Hc).
  eexists. cbn. rewrite list_lookup_insert_eq by (by eapply cpus_lt).
  split; [done|]. by destruct (c_noff c =? 0).
Qed.

Lemma cpu_wf_psh y : cpu_wf y -> cpu_wf (psh y).
Proof.
  intros (c & Hc & Hn & Hi). unfold psh. eexists. cbn.
  rewrite (list_alter_known _ _ _ _ Hc), list_lookup_insert_eq by (by eapply cpus_lt).
  split; [done|]. unfold pushed. destruct (c_noff c =? 0); cbn; split; lia || done.
Qed.

Lemma cpu_wf_acq y l : cpu_wf y -> cpu_wf (acq y l).
Proof. intros H. exact (cpu_wf_psh _ H). Qed.

Lemma lfree_touch y l : lfree y l -> lfree (touch y) l.
Proof. done. Qed.

Lemma lfree_acq y l l' : l <> l' -> lfree y l' -> lfree (acq y l) l'.
Proof. intros Hne [nm H]. exists nm. unfold acq. cbn. by rewrite lookup_insert_ne. Qed.

Lemma acq_touch y l : cpu_wf y -> acq (touch y) l = acq y l.
Proof.
  intros (c & Hc & Hn & Hi). unfold acq. cbn. apply sync_eq; try done.
  rewrite list_alter_alter_eq. apply list_alter_ext; [|done].
  intros c' _. unfold pushed, compose. cbn.
  destruct (Z.eqb_spec (c_noff c') 0) as [H0|H0]; cbn; [by rewrite H0|].
  by rewrite (proj2 (Z.eqb_neq _ _)).
Qed.

Lemma touch_psh y : cpu_wf y -> touch (psh y) = psh y.
Proof.
  intros (c & Hc & Hn & Hi). unfold touch, set_cpus. cbn. apply sync_eq; try done.
  rewrite list_alter_alter_eq. apply list_alter_ext; [|done].
  intros c' Hc'. rewrite Hc in Hc'. injection Hc' as <-. unfold pushed, compose.
  destruct (Z.eqb_spec (c_noff c) 0) as [H0|H0]; cbn; rewrite (proj2 (Z.eqb_neq _ _)) by lia; done.
Qed.

Lemma touch_acq y l : cpu_wf y -> touch (acq y l) = acq y l.
Proof.
  intros H. pose proof (f_equal cpus (touch_psh _ H)) as Hc.
  unfold touch, set_cpus in *. cbn in *. by apply sync_eq.
Qed.

Lemma noff_touch y : c_noff (cpu_of (touch y)) = c_noff (cpu_of y).
Proof.
  unfold cpu_of, touch. cbn. rewrite list_lookup_alter_eq. destruct (_ !! _) as [c|]; [|done].
  cbn. by destruct (c_noff c =? 0).
Qed.

Lemma touch_touch y : touch (touch y) = touch y.
Proof.
  unfold touch, set_cpus. cbn. apply sync_eq; try done.
  rewrite list_alter_alter_eq. apply list_alter_ext; [|done].
  intros c' _. unfold compose. destruct (Z.eqb_spec (c_noff c') 0) as [H0|H0]; cbn.
  - by rewrite H0.
  - by rewrite (proj2 (Z.eqb_neq _ _)).
Qed.

Lemma cproc_touch y : c_proc (cpu_of (touch y)) = c_proc (cpu_of y).
Proof.
  unfold cpu_of, touch. cbn. rewrite list_lookup_alter_eq. destruct (_ !! _) as [c|]; [|done].
  cbn. by destruct (c_noff c =? 0).
Qed.

Lemma cproc_acq y l : c_proc (cpu_of (acq y l)) = c_proc (cpu_of y).
Proof.
  unfold cpu_of, acq. cbn. rewrite list_lookup_alter_eq. destruct (_ !! _) as [c|]; [|done].
  cbn. unfold pushed. by destruct (c_noff c =? 0).
Qed.

(** Locks need not be released in the reverse order. *)
Lemma release_outer s e y l l' :
  cpu_wf y -> lfree y l -> l <> l' -> syn s = acq (acq y l) l' ->
  release l s e = Ok () (set_syn (acq y l') s) e.
Proof.
  intros Hwf Hl Hne Hs. unfold release, holding. kpure.
  assert (Hh : holds (syn s) l = true).
  { rewrite Hs. unfold holds, get_lock, acq. cbn.
    rewrite lookup_insert_ne, lookup_insert_eq by done. cbn. by rewrite bool_decide_true. }
  rewrite Hh. cbn [negb]. kpure.
  set (y' := set_locks (<[l' := mkspinlock (lk_name (get_lock (acq y l) l')) true (Some (hart y))]> (locks y)) (psh y)).
  erewrite (pop_psh _ _ y').
  - unfold y'. destruct Hwf as (c & Hc & Hn & Hi). f_equal. unfold set_syn, upd_lock. cbn. f_equal.
    assert (Ht : touch y' = y').
    { unfold y', touch, set_locks, set_cpus. cbn. apply sync_eq; try done.
      rewrite list_alter_alter_eq. apply list_alter_ext; [|done].
      intros c' Hc'. rewrite Hc in Hc'. injection Hc' as <-. unfold pushed, compose.
      destruct (Z.eqb_spec (c_noff c) 0) as [H0|H0]; cbn; rewrite (proj2 (Z.eqb_neq _ _)) by lia; done. }
    fold y'. rewrite Ht. unfold y', acq, set_locks, psh, get_lock. cbn. apply sync_eq; try done.
    by rewrite lookup_insert_ne by done.
  - unfold y'. by apply (cpu_wf_psh y).
  - unfold upd_lock, get_lock. cbn. rewrite Hs. unfold psh, acq, y', set_locks, get_lock. cbn.
    apply sync_eq; try done.
    rewrite !(lookup_insert_ne _ l' l), !lookup_insert_eq by done. cbn.
    rewrite !(insert_insert_ne _ l l'), !insert_insert_eq by done.
    f_equal. apply insert_id, (lfree_get _ _ Hl).
Qed.

Lemma no_grow_push_off : no_grow push_off.
Proof. unfold push_off, intr_get, intr_off, mycpu. no_grow_solve. Qed.
Lemma no_grow_pop_off : no_grow pop_off.
Proof. unfold pop_off, intr_get, intr_on, mycpu. no_grow_solve. Qed.
Lemma no_grow_spin l : no_grow (spin_tas l).
Proof.
  intros s e. revert s. induction e as [|f e IH]; intros s a s' e' H; cbn in H;
    destruct (lk_locked _); simplify_eq; try lia. apply IH in H. cbn. lia.
Qed.
#[export] Hint Resolve no_grow_push_off no_grow_pop_off no_grow_spin : xv6.
Lemma no_grow_acquire l : no_grow (acquire l).
Proof. unfold acquire, holding, cpuid. no_grow_solve. Qed.
Lemma no_grow_release l : no_grow (release l).
Proof. unfold release, holding. no_grow_solve. Qed.
Lemma no_grow_myproc : no_grow myproc.
Proof. unfold myproc, mycpu. no_grow_solve. Qed.

#[export] Hint Resolve no_grow_acquire no_grow_release no_grow_myproc : xv6.
#[export] Hint Resolve cpu_wf_touch cpu_wf_acq lfree_touch : xv6.
#[export] Hint Extern 1 (lfree (acq _ _) _) => apply lfree_acq; [first [discriminate|congruence]|] : xv6.
#[export] Hint Rewrite @touch_touch @cproc_touch @cproc_acq : xv6.
#[export] Hint Rewrite @touch_acq @acq_touch using (eauto with xv6) : xv6.

(** Steps of a proof through [acquire], [release] and [myproc]. *)
Ltac ksync := cbn; eauto with xv6.
Ltac kacq := erewrite bind_ok; [|apply acquire_free; ksync].
Ltac kmyproc := erewrite bind_ok; [|apply myproc_run; ksync].

(** The sample state satisfies the conditions. *)

Lemma sample_cpu_wf : cpu_wf (syn sample_state).
Proof. exists (mkcpu (Some 0%nat) 0 false). split; [done|]. cbn. lia. Qed.

Lemma sample_lfree l : l ∈ sample_lockids -> lfree (syn sample_state) l.
Proof.
  intros Hl. exists "". unfold sample_state. cbn [syn sample_sync locks].
  apply elem_of_list_to_map_1'.
  - intros y Hy. apply list_elem_of_fmap in Hy as (? & [= _ ->] & _). done.
  - apply list_elem_of_fmap. exists l. done.
Qed.

(** ** Properties *)

Definition owns (p : lpc) : Prop := p = LWon \/ p = LIn \/ p = LLeaving.

Definition linv (st : lstate) : Prop :=
  (forall h, owns (ls_pc st h) -> ls_locked st = true) /\
  (forall h1 h2, owns (ls_pc st h1) -> owns (ls_pc st h2) -> h1 = h2) /\
  (forall h, ls_cpu st = Some h -> ls_pc st h = LIn) /\
  (forall h, ls_pc st h = LIn -> ls_cpu st = Some h) /\
  (forall h, ls_pc st h <> LPanic).

Lemma pc_upd_eq f h p : pc_upd f h p h = p.
Proof. unfold pc_upd. by rewrite decide_True. Qed.
Lemma pc_upd_ne f h p h' : h' <> h -> pc_upd f h p h' = f h'.
Proof. intros. unfold pc_upd. by rewrite decide_False. Qed.

Ltac pc_cases :=
  repeat match goal with
  | H : context [pc_upd _ ?a _ ?b] |- _ =>
      destruct (decide (b = a)) as [->|]; [rewrite pc_upd_eq in H|rewrite pc_upd_ne in H by done]
  | |- context [pc_upd _ ?a _ ?b] =>
      destruct (decide (b = a)) as [->|]; [rewrite pc_upd_eq|rewrite pc_upd_ne by done]
  end.

Lemma linv_step st st' : linv st -> lock_step st st' -> linv st'.
Proof.
  intros (I1 & I2 & I3 & I3' & I4) Hs. unfold owns in *.
  destruct Hs as [st h Hp|st h Hp|st h Hp|st h Hp|st h Hp]; unfold ls_holding.
  1: rewrite bool_decide_false, andb_false_r by (intros Hh%I3; congruence).
  2: destruct (ls_locked st) eqn:Hl.
  5: rewrite bool_decide_true, (I1 h) by auto; cbn.
  all: unfold linv, owns; cbn; split_and!; intros; pc_cases; try naive_solver congruence.
Qed.

(** C17 Mutual exclusion: in every interleaving of harts running [acquire] and
    [release] on one lock, two harts are never both between winning the atomic
    swap and giving the lock back, [holding] answers true exactly for the hart
    inside its critical section, and neither routine panics. *)
Theorem spinlock_mutual_exclusion st :
  rtc lock_step lstate0 st ->
  (forall h1 h2, owns (ls_pc st h1) -> owns (ls_pc st h2) -> h1 = h2) /\
  (forall h, ls_holding st h = true <-> ls_pc st h = LIn) /\
  (forall h, ls_pc st h <> LPanic).
Proof.
  intros H. assert (Hinv : linv st).
  { assert (H0 : linv lstate0) by (repeat split; cbn; unfold owns; naive_solver).
    clear -H H0. induction H; [done|]. eauto using linv_step. }
  destruct Hinv as (I1 & I2 & I3 & I3' & I4). split_and!; [done| |done].
  intros h. unfold ls_holding. rewrite andb_true_iff, bool_decide_eq_true.
  split; [naive_solver|]. intros Hin. split; [|auto]. apply (I1 h). unfold owns. auto.
Qed.

Lemma run_word_app w1 w2 s e : run_word (w1 ++ w2) s e = (run_word w1;; run_word w2) s e.
Proof.
  revert s e. induction w1 as [|b w1 IH]; intros s e; [done|].
  destruct b; cbn [app run_word]; rewrite bind_assoc; unfold mbind, KM_bind;
    [destruct (push_off s e) as [[] ? ?| |]|destruct (pop_off s e) as [[] ? ?| |]]; done || apply IH.
Qed.

Lemma run_word_touch w s e :
  cpu_wf (syn s) -> matched w ->
  exists y, run_word w s e = Ok () (set_syn y s) e /\ (y = syn s \/ y = touch (syn s)).
Proof.
  intros Hwf Hm. revert s e Hwf.
  induction Hm as [|w1 w2 _ IH1 _ IH2]; intros s e Hwf.
  - exists (syn s). split; [|by left]. by destruct s.
  - assert (H1 : run_word (true :: w1) s e = Ok () (set_syn (psh (syn s)) s) e).
    { cbn [run_word]. kstep ltac:(by apply push_off_run).
      destruct (IH1 (set_syn (psh (syn s)) s) e) as (y & -> & Hy); [by apply cpu_wf_psh|].
      cbn in Hy. rewrite touch_psh in Hy by done. by destruct Hy as [->| ->]. }
    rewrite app_comm_cons, run_word_app. kstep ltac:(exact H1). cbn [run_word].
    kstep ltac:(by apply (pop_psh _ _ (syn s))).
    destruct (IH2 (set_syn (touch (syn s)) s) e) as (y & Hr & Hy); [by apply cpu_wf_touch|].
    cbn in Hy. rewrite touch_touch in Hy. exists y. split; [|naive_solver]. exact Hr.
Qed.

(** [push_off]/[pop_off] nest: a matched sequence of any depth never panics,
    leaves the interrupt enable bit, the nesting depth and every lock as they
    were, and can only have refreshed the saved [intena]. *)
Theorem push_pop_matched w s e :
  cpu_wf (syn s) -> matched w ->
  exists y, run_word w s e = Ok () (set_syn y s) e /\
    intr y = intr (syn s) /\ locks y = locks (syn s) /\
    c_noff (cpu_of y) = c_noff (cpu_of (syn s)).
Proof.
  intros Hwf Hm. destruct (run_word_touch w s e Hwf Hm) as (y & Hr & Hy).
  exists y. split; [done|]. destruct Hy as [->| ->]; [done|]. by rewrite noff_touch.
Qed.

Lemma spinlock_mutual_exclusion_witness :
  let st := mklstate true (Some 1%nat)
    (pc_upd (pc_upd (pc_upd (fun _ => LOut) 1%nat LTrying) 1%nat LWon) 1%nat LIn) in
  rtc lock_step lstate0 st /\ ls_holding st 1%nat = true.
Proof.
  intros st. assert (H : rtc lock_step lstate0 st).
  { eapply rtc_l; [apply (step_check lstate0 1%nat); reflexivity|].
    eapply rtc_l; [apply (step_swap _ 1%nat); reflexivity|].
    eapply rtc_l; [apply (step_setcpu _ 1%nat); reflexivity|]. apply rtc_refl. }
  split; [exact H|].
  apply (spinlock_mutual_exclusion st H). reflexivity.
Defined.

Lemma push_pop_matched_witness :
  exists y, run_word [true; true; false; false; true; false] sample_state [] =
    Ok () (set_syn y sample_state) [] /\ intr y = true.
Proof.
  destruct (push_pop_matched [true; true; false; false; true; false] sample_state [])
    as (y & Hr & Hi & _).
  - apply sample_cpu_wf.
  - apply (matched_pair [true; false] [true; false]);
      apply (matched_pair [] []); constructor.
  - exists y. split; [exact Hr|exact Hi].
Defined.
