(* ===== verification/Sched.v ===== *)
(** * kernel/proc.c: switching, sleep and wakeup, kill

    The part of the process manager that the locks and drivers call.  [swtch]
    into the scheduler is [yield_env]: control comes back, if it does, in the
    state the other threads have made.  Creation and exit of processes are in
    [Proc]. *)

From stdpp Require Import base gmap strings list.
From S2P Require Import Prelude KState Spinlock.

(** ** The routines *)

(** Switch to the scheduler; the caller holds only [p->lock]. *)
Definition sched : M unit :=
  me ← myproc;
  p ← deref me;
  h ← holding (Lproc p);
  if negb h then kpanic "sched p->lock" else
  c ← mycpu;
  if negb (c_noff c =? 1) then kpanic "sched locks" else
  st ← gets (fun s => p_state (get_proc s p));
  if decide (st = RUNNING) then kpanic "sched running" else
  on ← intr_get;
  if on : bool then kpanic "sched interruptible" else
  c ← mycpu;
  let intena := c_intena c in
  yield_env;;
  modify (upd_cpu (set_c_intena intena)).

Definition yield : M unit :=
  me ← myproc;
  p ← deref me;
  acquire (Lproc p);;
  modify (upd_proc p (set_p_state RUNNABLE));;
  sched;;
  release (Lproc p).

(** Atomically release [lk] and sleep on [ch]; reacquires [lk] when awakened. *)
Definition sleep (ch : chan) (lk : lockid) : M unit :=
  me ← myproc;
  p ← deref me;
  acquire (Lproc p);;
  release lk;;
  modify (upd_proc p (set_p_chan (Some ch)));;
  modify (upd_proc p (set_p_state SLEEPING));;
  sched;;
  modify (upd_proc p (set_p_chan None));;
  release (Lproc p);;
  acquire lk.

Definition sleeping_on (ch : chan) (p : proc) : bool :=
  bool_decide (p_state p = SLEEPING) && bool_decide (p_chan p = Some ch).

Definition wakeup_one (ch : chan) (i : nat) : M unit :=
  me ← myproc;
  if decide (me = Some i) then mret () else
  acquire (Lproc i);;
  p ← gets (fun s => get_proc s i);
  when (sleeping_on ch p) (modify (upd_proc i (set_p_state RUNNABLE)));;
  release (Lproc i).

Definition proc_ids : list nat := seq 0 (Z.to_nat NPROC).

Definition wakeup (ch : chan) : M unit := for_each proc_ids (wakeup_one ch).

Fixpoint kill_loop (pid : Z) (ids : list nat) : M Z :=
  match ids with
  | [] => mret (-1)
  | i :: ids' =>
      acquire (Lproc i);;
      p ← gets (fun s => get_proc s i);
      if p_pid p =? pid then
        modify (upd_proc i (set_p_killed true));;
        when (bool_decide (p_state p = SLEEPING)) (modify (upd_proc i (set_p_state RUNNABLE)));;
        release (Lproc i);;
        mret 0
      else
        release (Lproc i);;
        kill_loop pid ids'
  end.
Definition kill (pid : Z) : M Z := kill_loop pid proc_ids.

Definition setkilled (p : nat) : M unit :=
  acquire (Lproc p);;
  modify (upd_proc p (set_p_killed true));;
  release (Lproc p).

Definition killed (p : nat) : M bool :=
  acquire (Lproc p);;
  k ← gets (fun s => p_killed (get_proc s p));
  release (Lproc p);;
  mret k.

(** One iteration of the body of [scheduler]'s inner loop, up to [swtch]:
    whether the process was chosen; it then runs with its lock held. *)
Definition scheduler_try (i : nat) : M bool :=
  acquire (Lproc i);;
  p ← gets (fun s => get_proc s i);
  if decide (p_state p = RUNNABLE) then
    modify (upd_proc i (set_p_state RUNNING));;
    modify (upd_cpu (set_c_proc (Some i)));;
    mret true
  else
    release (Lproc i);;
    mret false.

(** ** Sleep and wakeup under interleaving

    A thread that waits for a condition,
      [acquire(lk); while(!cond) sleep(chan, lk); release(lk)],
    and one that establishes it,
      [acquire(lk); cond = 1; wakeup(chan); release(lk)],
    interleaved at every lock operation and state change that [sleep],
    [wakeup], [sched] and [scheduler] make. *)

Inductive who : Type := Sleeper | Waker.
Inductive spc : Type :=
| SAcq | STest | SPlock | SRel | SMark | SSwitch | SAsleep | STidy | SReacq | SLeave | SEnd.
Inductive wpc : Type := WAcq | WSet | WPlock | WWake | WPunlock | WRel | WEnd.
#[export] Instance who_eq_dec : EqDecision who.
Proof. solve_decision. Defined.
#[export] Instance spc_eq_dec : EqDecision spc.
Proof. solve_decision. Defined.
#[export] Instance wpc_eq_dec : EqDecision wpc.
Proof. solve_decision. Defined.

Record swst : Type := mksw {
  sw_cond : bool;
  sw_lk : option who;
  sw_plk : option who;
  sw_chan : bool;
  sw_state : procstate;
  sw_spc : spc;
  sw_wpc : wpc
}.
#[export] Instance swst_eq_dec : EqDecision swst.
Proof. solve_decision. Defined.

(** The next states by a step of the sleeper, or of the scheduler running it. *)
Definition sleeper_next (t : swst) : list swst :=
  let '(mksw c lk pl ch st sp wp) := t in
  match sp with
  | SAcq => match lk with None => [mksw c (Some Sleeper) pl ch st STest wp] | _ => [] end
  | STest => [mksw c lk pl ch st (if c then SLeave else SPlock) wp]
  | SPlock => match pl with None => [mksw c lk (Some Sleeper) ch st SRel wp] | _ => [] end
  | SRel => [mksw c None pl ch st SMark wp]
  | SMark => [mksw c lk pl true SLEEPING SSwitch wp]
  | SSwitch => [mksw c lk None ch st SAsleep wp]
  | SAsleep => match pl, st with
      | None, RUNNABLE => [mksw c lk (Some Sleeper) ch RUNNING STidy wp]
      | _, _ => [] end
  | STidy => [mksw c lk None false st SReacq wp]
  | SReacq => match lk with None => [mksw c (Some Sleeper) pl ch st STest wp] | _ => [] end
  | SLeave => [mksw c None pl ch st SEnd wp]
  | SEnd => []
  end.

Definition waker_next (t : swst) : list swst :=
  let '(mksw c lk pl ch st sp wp) := t in
  match wp with
  | WAcq => match lk with None => [mksw c (Some Waker) pl ch st sp WSet] | _ => [] end
  | WSet => [mksw true lk pl ch st sp WPlock]
  | WPlock => match pl with None => [mksw c lk (Some Waker) ch st sp WWake] | _ => [] end
  | WWake => [mksw c lk pl ch
      (if bool_decide (st = SLEEPING) && ch then RUNNABLE else st) sp WPunlock]
  | WPunlock => [mksw c lk None ch st sp WRel]
  | WRel => [mksw c None pl ch st sp WEnd]
  | WEnd => []
  end.

Definition sw_next (t : swst) : list swst := sleeper_next t ++ waker_next t.
Definition sw_step (t t' : swst) : Prop := t' ∈ sw_next t.
Definition sw0 : swst := mksw false None None false RUNNING SAcq WAcq.

(** ** Effect of [wakeup] *)

Definition wake (ch : chan) (p : proc) : proc :=
  if sleeping_on ch p then set_p_state RUNNABLE p else p.
Definition wake_procs (ch : chan) (me : option nat) (ps : list proc) : list proc :=
  imap (fun i p => if decide (me = Some i) then p else wake ch p) ps.

(** The executing hart runs process [me] of the table, and the process locks
    of the other entries are free. *)
Definition proc_ok (s : kstate) : Prop :=
  cpu_wf (syn s) /\
  length (procs s) = Z.to_nat NPROC /\
  forall i, (i < Z.to_nat NPROC)%nat -> c_proc (cpu_of (syn s)) <> Some i ->
    lfree (syn s) (Lproc i).

Lemma lookup_wake_procs ch me ps i :
  wake_procs ch me ps !! i =
    (fun p => if decide (me = Some i) then p else wake ch p) <$> ps !! i.
Proof. unfold wake_procs. by rewrite list_lookup_imap. Qed.

Lemma length_wake_procs ch me ps : length (wake_procs ch me ps) = length ps.
Proof. apply length_imap. Qed.

Definition wake_at (ch : chan) (me : option nat) (i : nat) (ps : list proc) : list proc :=
  alter (fun p => if decide (me = Some i) then p else wake ch p) i ps.

Lemma fold_wake_lookup ch me ps n k j :
  fold_left (fun ps i => wake_at ch me i ps) (seq k n) ps !! j =
    (fun p => if decide (k <= j < k + n)%nat then
       (if decide (me = Some j) then p else wake ch p) else p) <$> ps !! j.
Proof.
  revert k ps. induction n as [|n IH]; intros k ps; cbn [seq fold_left].
  - destruct (ps !! j); [|done]. cbn. case_decide; [lia|done].
  - rewrite IH. unfold wake_at. rewrite list_lookup_alter.
    destruct (decide (k = j)) as [<-|Hkj].
    + destruct (ps !! k); [|done]. cbn. f_equal.
      repeat (case_decide; try lia); done.
    + destruct (ps !! j); [|done]. cbn. f_equal. repeat (case_decide; try lia); done.
Qed.

Lemma fold_wake_all ch me ps :
  length ps = Z.to_nat NPROC ->
  fold_left (fun ps i => wake_at ch me i ps) proc_ids ps = wake_procs ch me ps.
Proof.
  intros Hl. apply list_eq. intros j. unfold proc_ids.
  rewrite fold_wake_lookup, lookup_wake_procs.
  destruct (ps !! j) eqn:Hj; [|done]. cbn. apply lookup_lt_Some in Hj.
  repeat (case_decide; try lia); done.
Qed.

Lemma wakeup_one_run ch i s e :
  proc_ok s -> (i < Z.to_nat NPROC)%nat ->
  wakeup_one ch i s e =
    Ok () (set_syn (touch (syn s))
      (set_procs (wake_at ch (c_proc (cpu_of (syn s))) i (procs s)) s)) e.
Proof.
  intros (Hwf & Hl & Hfree) Hi0. pose proof Hi0 as Hi. rewrite <- Hl in Hi.
  destruct (lookup_lt_is_Some_2 _ _ Hi) as [p Hp].
  unfold wakeup_one, wake_at. rewrite (list_alter_known _ _ _ _ Hp).
  kstep ltac:(by apply myproc_run).
  destruct (decide (c_proc (cpu_of (syn s)) = Some i)) as [Hme|Hme].
  { unfold mret, KM_ret. by rewrite list_insert_same, set_procs_id by done. }
  kacq. cbn. rewrite acq_touch by done. kpure.
  unfold get_proc, when, wake. cbn. rewrite Hp. cbn.
  destruct (sleeping_on ch p); kpure;
    (erewrite release_acq; [|exact Hwf|by apply Hfree|done]);
    unfold upd_proc, set_procs, set_syn; cbn.
  - by rewrite (list_alter_known _ _ _ _ Hp).
  - rewrite list_insert_same by done. by destruct s.
Qed.

Lemma fold_wake_state ch me l s :
  c_proc (cpu_of (syn s)) = me ->
  fold_left (fun s i => set_syn (touch (syn s))
      (set_procs (wake_at ch (c_proc (cpu_of (syn s))) i (procs s)) s)) l s =
  match l with
  | [] => s
  | _ => set_syn (touch (syn s)) (set_procs (fold_left (fun ps i => wake_at ch me i ps) l (procs s)) s)
  end.
Proof.
  revert s. induction l as [|i l IH]; intros s Hme; [done|]. cbn [fold_left].
  rewrite IH by (cbn; by rewrite cproc_touch). rewrite Hme. cbn.
  destruct l; [done|]. cbn. by rewrite touch_touch.
Qed.

Lemma proc_ok_touch s ps :
  proc_ok s -> length ps = length (procs s) -> proc_ok (set_syn (touch (syn s)) (set_procs ps s)).
Proof.
  intros (Hwf & Hl & Hfree) Hps. split_and!; cbn; [auto with xv6|congruence|].
  intros i. rewrite cproc_touch. intros. by apply lfree_touch, Hfree.
Qed.

Lemma wakeup_run ch s e :
  proc_ok s ->
  wakeup ch s e =
    Ok () (set_syn (touch (syn s))
      (set_procs (wake_procs ch (c_proc (cpu_of (syn s))) (procs s)) s)) e.
Proof.
  intros Hok. unfold wakeup.
  destruct (for_each_run proc_ok (wakeup_one ch) (fun i s => set_syn (touch (syn s))
      (set_procs (wake_at ch (c_proc (cpu_of (syn s))) i (procs s)) s)) proc_ids s e) as [-> _].
  - intros i s' e' Hi Hok'. apply elem_of_seq in Hi.
    split; [apply wakeup_one_run; [done|lia]|]. apply proc_ok_touch; [done|].
    unfold wake_at. apply length_alter.
  - done.
  - rewrite (fold_wake_state ch (c_proc (cpu_of (syn s)))) by done.
    destruct Hok as (_ & Hl & _). by rewrite fold_wake_all.
Qed.

(** ** Sleeping *)

Lemma no_grow_deref {A} (p : option A) : no_grow (deref p).
Proof. unfold deref. destruct p; auto with xv6. Qed.
#[export] Hint Resolve no_grow_deref : xv6.

Lemma consumes_sched : consumes sched.
Proof.
  unfold sched, holding, mycpu, intr_get. consumes_solve.
Qed.
#[export] Hint Resolve consumes_sched : xv6.

Lemma consumes_sleep ch lk : consumes (sleep ch lk).
Proof.
  unfold sleep. consumes_solve.
Qed.
#[export] Hint Resolve consumes_sleep : xv6.

(** What a sleeping thread does once it is scheduled again. *)
Definition sleep_resume (p : nat) (intena : bool) (lk : lockid) : M unit :=
  modify (upd_cpu (set_c_intena intena));;
  modify (upd_proc p (set_p_chan None));;
  release (Lproc p);;
  acquire lk.

(** The state in which [sleep ch lk] switches away. *)
Definition asleep (p : nat) (ch : chan) (y : sync) (s : kstate) : kstate :=
  set_syn (acq y (Lproc p))
    (upd_proc p (set_p_state SLEEPING) (upd_proc p (set_p_chan (Some ch)) s)).

Lemma sleep_run ch lk p y s e :
  cpu_wf y -> c_noff (cpu_of y) = 0 -> lfree y lk -> lfree y (Lproc p) -> lk <> Lproc p ->
  c_proc (cpu_of y) = Some p -> (p < length (procs s))%nat ->
  syn s = acq y lk ->
  sleep ch lk s e =
    (yield_env;; sleep_resume p (intr y) lk) (asleep p ch y s) e.
Proof.
  intros Hwf Hn Hlk Hp Hne Hme Hlt Hs.
  unfold sleep. kstep ltac:(apply myproc_run; rewrite Hs; eauto with xv6).
  rewrite Hs, cproc_acq, Hme, touch_acq by done. cbn [deref]. kpure.
  kacq. cbn. kstep ltac:(by apply (release_outer _ _ y)). kpure.
  unfold sched, holding, mycpu, intr_get. kpure. kmyproc. cbn. rewrite cproc_acq, Hme.
  cbn [deref]. rewrite touch_acq by done. kpure. cbn. rewrite holds_acq. cbn [negb].
  kpure. cbn.
  assert (Hc : c_noff (cpu_of (acq y (Lproc p))) = 1 /\
               c_intena (cpu_of (acq y (Lproc p))) = intr y).
  { destruct Hwf as (c & Hc & _). unfold cpu_of, acq. cbn. rewrite list_lookup_alter_eq.
    unfold cpu_of in Hn. rewrite Hc in Hn |- *. cbn in Hn |- *. unfold pushed. by rewrite Hn. }
  destruct Hc as [Hc1 Hc2]. rewrite Hc1. cbn [negb Z.eqb Pos.eqb]. kpure. cbn.
  assert (Hst : p_state (get_proc (set_syn (acq y (Lproc p)) (asleep p ch y s)) p) = SLEEPING).
  { unfold get_proc, asleep, upd_proc. cbn. rewrite !list_lookup_alter_eq.
    destruct (lookup_lt_is_Some_2 _ _ Hlt) as [x ->]. done. }
  unfold get_proc, asleep, upd_proc in Hst |- *. cbn in Hst |- *. rewrite Hst.
  rewrite decide_False by done. kpure. cbn. kpure. cbn. rewrite Hc2. done.
Qed.

(** ** Properties *)

(** All states within [n] steps of those in [l], without repetitions. *)
Fixpoint sw_reach (n : nat) (l : list swst) : list swst :=
  match n with
  | O => l
  | S n' => sw_reach n' (remove_dups (l ++ (l ≫= sw_next)))
  end.

Definition sw_states : list swst := Eval vm_compute in sw_reach 25 [sw0].

Lemma sw_states_closed t : rtc sw_step sw0 t -> t ∈ sw_states.
Proof.
  assert (H0 : sw0 ∈ sw_states) by (by apply (bool_decide_unpack _); vm_compute).
  assert (Hc : Forall (fun t => Forall (fun t' => t' ∈ sw_states) (sw_next t)) sw_states)
    by (by apply (bool_decide_unpack _); vm_compute).
  intros H. clear -H H0 Hc. induction H as [|x y z Hxy _ IH]; [done|]. apply IH.
  rewrite list.Forall_forall in Hc. specialize (Hc _ H0). rewrite list.Forall_forall in Hc. auto.
Qed.

(** The longest run from a state, as far as [n] steps. *)
Fixpoint sw_depth (n : nat) (t : swst) : nat :=
  match n with
  | O => 0
  | S n' => match sw_next t with
            | [] => 0
            | l => S (foldr Nat.max 0%nat (sw_depth n' <$> l))
            end
  end.

Lemma sw_depth_run n t k t' :
  nsteps sw_step k t t' -> (k <= n)%nat -> (k <= sw_depth n t)%nat.
Proof.
  revert t k. induction n as [|n IH]; intros t k H Hk; [lia|].
  destruct H as [|k x y z Hxy Hyz]; [lia|].
  assert (Hin : (k <= foldr Nat.max 0%nat (sw_depth n <$> sw_next x))%nat).
  { apply (IH _ _) in Hyz; [|lia]. unfold sw_step in Hxy.
    induction (sw_next x) as [|w l IHl]; [set_solver|]. cbn -[Nat.max sw_depth].
    apply elem_of_cons in Hxy as [->|Hxy]; [lia|]. specialize (IHl Hxy). lia. }
  unfold sw_step in Hxy. cbn -[Nat.max]. destruct (sw_next x); [set_solver|].
  cbn -[Nat.max sw_depth] in Hin |- *. lia.
Qed.

(** C18 No wakeup is lost: however the two threads are interleaved, the run ends
    within 20 steps, and when no step is left both have finished, so the
    sleeper never stays asleep after the condition has been established. *)
Theorem wakeup_not_lost t k :
  nsteps sw_step k sw0 t ->
  (k <= 20)%nat /\ (sw_next t = [] -> sw_spc t = SEnd /\ sw_wpc t = WEnd /\ sw_cond t = true).
Proof.
  intros H. split.
  - destruct (decide (k <= 24)%nat) as [Hk|Hk].
    + pose proof (sw_depth_run 24 _ _ _ H Hk) as Hd. vm_compute in Hd. lia.
    + exfalso. replace k with (25 + (k - 25))%nat in H by lia.
      apply nsteps_add_inv in H as (t1 & H1 & _).
      pose proof (sw_depth_run 25 _ _ _ H1 ltac:(lia)) as Hd. vm_compute in Hd. lia.
  - intros Hn. apply rtc_nsteps_2, sw_states_closed in H.
    assert (Hc : Forall (fun t => sw_next t = [] ->
        sw_spc t = SEnd /\ sw_wpc t = WEnd /\ sw_cond t = true) sw_states)
      by (by apply (bool_decide_unpack _); vm_compute).
    rewrite list.Forall_forall in Hc. auto.
Qed.

Lemma wakeup_not_lost_witness :
  exists t, nsteps sw_step 5 sw0 t /\ (5 <= 20)%nat /\ sw_state t = SLEEPING.
Proof.
  pose (t := mksw false None (Some Sleeper) true SLEEPING SSwitch WAcq).
  assert (H : nsteps sw_step 5 sw0 t).
  { repeat (eapply nsteps_l; [left; reflexivity|cbn]). apply nsteps_O. }
  exists t. split; [exact H|]. split; [|reflexivity]. apply (wakeup_not_lost t 5 H).
Defined.
