(* ===== verification/Sleeplock.v ===== *)
(** * kernel/sleeplock.c

    Sleep locks over the inner spin lock [Lsleep l] and the sleep channel
    [Ch_sleeplock l]. *)

From stdpp Require Import base gmap strings list.
From S2P Require Import Prelude KState Sample Spinlock Sched.

(** ** The routines *)

Definition initsleeplock (l : slockid) (name : string) : M unit :=
  initlock (Lsleep l) "sleep lock";;
  modify (upd_slock l (mksleeplock name false 0)).

Definition acquiresleep (l : slockid) : M unit :=
  acquire (Lsleep l);;
  while_wait (gets (fun s => sl_locked (get_slock s l))) (sleep (Ch_sleeplock l) (Lsleep l));;
  modify (fun s => upd_slock l (set_sl_locked true (get_slock s l)) s);;
  me ← myproc;
  p ← deref me;
  modify (fun s => upd_slock l (set_sl_pid (p_pid (get_proc s p)) (get_slock s l)) s);;
  release (Lsleep l).

Definition releasesleep (l : slockid) : M unit :=
  acquire (Lsleep l);;
  modify (fun s => upd_slock l (set_sl_locked false (get_slock s l)) s);;
  modify (fun s => upd_slock l (set_sl_pid 0 (get_slock s l)) s);;
  wakeup (Ch_sleeplock l);;
  release (Lsleep l).

Definition holdingsleep (l : slockid) : M bool :=
  acquire (Lsleep l);;
  lk ← gets (fun s => get_slock s l);
  me ← myproc;
  p ← deref me;
  pr ← gets (fun s => get_proc s p);
  let r := sl_locked lk && (sl_pid lk =? p_pid pr) in
  release (Lsleep l);;
  mret r.

(** ** Behaviour *)

(** The executing hart runs a process of the table, every process lock but its
    own may be taken, and so may the inner locks of sleep locks. *)
Definition thread_ok (s : kstate) : Prop :=
  proc_ok s /\ (exists p, c_proc (cpu_of (syn s)) = Some p /\ (p < Z.to_nat NPROC)%nat) /\
  (forall l, slock_ok l -> lfree (syn s) (Lsleep l)).

(** The running process and its pid. *)
Definition cur (s : kstate) : nat := default 0%nat (c_proc (cpu_of (syn s))).
Definition cur_pid (s : kstate) : Z := p_pid (get_proc s (cur s)).

Lemma thread_ok_wf s : thread_ok s -> cpu_wf (syn s).
Proof. by intros [[? _] _]. Qed.
Lemma thread_ok_sleep s l : thread_ok s -> slock_ok l -> lfree (syn s) (Lsleep l).
Proof. intros (_ & _ & H). apply H. Qed.
Lemma thread_ok_cur s : thread_ok s -> c_proc (cpu_of (syn s)) = Some (cur s).
Proof. intros (_ & (p & Hp & _) & _). unfold cur. by rewrite Hp. Qed.
Lemma thread_ok_lt s : thread_ok s -> (cur s < Z.to_nat NPROC)%nat.
Proof. intros (_ & (p & Hp & Hlt) & _). unfold cur. by rewrite Hp. Qed.
#[export] Hint Resolve thread_ok_wf thread_ok_sleep : xv6.

(** Only the running hart's [intena] and wakeups separate two states in which
    a thread can go on. *)
Lemma thread_ok_keep s s' :
  thread_ok s -> syn s' = touch (syn s) \/ syn s' = syn s ->
  length (procs s') = length (procs s) -> thread_ok s'.
Proof.
  intros ((Hwf & Hl & Hf) & (p & Hp & Hpn) & Hs) Hy Hlen.
  assert (Hc : c_proc (cpu_of (syn s')) = c_proc (cpu_of (syn s))).
  { destruct Hy as [->| ->]; [apply cproc_touch|done]. }
  split_and!.
  - split_and!.
    + destruct Hy as [->| ->]; auto with xv6.
    + congruence.
    + intros i Hlt Hi. rewrite Hc in Hi. destruct Hy as [->| ->]; [apply lfree_touch|]; auto.
  - exists p. by rewrite Hc.
  - intros l Hsl. destruct Hy as [->| ->]; [apply lfree_touch|]; auto.
Qed.

Lemma get_slock_upd l v s : get_slock (upd_slock l v s) l = v.
Proof. unfold get_slock, upd_slock. cbn. by rewrite lookup_insert_eq. Qed.

Lemma acquiresleep_free l s e :
  thread_ok s -> slock_ok l -> sl_locked (get_slock s l) = false ->
  acquiresleep l s e = Ok () (set_syn (touch (syn s))
    (upd_slock l (mksleeplock (sl_name (get_slock s l)) true (cur_pid s)) s)) e.
Proof.
  intros Hok Hs Hl. unfold acquiresleep. kacq.
  erewrite (bind_ok (while_wait _ _)); [|apply while_wait_false;
    unfold gets, get_slock in *; cbn; by rewrite Hl].
  kpure. kmyproc. cbn. rewrite cproc_acq, (thread_ok_cur _ Hok), touch_acq by auto with xv6.
  cbn [deref]. kpure.
  rewrite (release_acq _ _ (syn s)) by (eauto with xv6; done).
  apply Ok_eq; [done|]. kext. unfold get_slock. cbn. rewrite lookup_insert_eq. cbn.
  by rewrite insert_insert_eq.
Qed.

Lemma holdingsleep_run l s e :
  thread_ok s -> slock_ok l ->
  holdingsleep l s e =
    Ok (sl_locked (get_slock s l) && (sl_pid (get_slock s l) =? cur_pid s))
       (set_syn (touch (syn s)) s) e.
Proof.
  intros Hok Hs. unfold holdingsleep. kacq. kpure. kmyproc.
  cbn. rewrite cproc_acq, (thread_ok_cur _ Hok), touch_acq by auto with xv6.
  cbn [deref]. kpure.
  erewrite bind_ok; [|apply (release_acq _ _ (syn s)); eauto with xv6; done].
  done.
Qed.

Lemma releasesleep_run l s e :
  thread_ok s -> slock_ok l ->
  releasesleep l s e = Ok () (set_syn (touch (syn s))
    (set_procs (wake_procs (Ch_sleeplock l) (Some (cur s)) (procs s))
      (upd_slock l (mksleeplock (sl_name (get_slock s l)) false 0) s))) e.
Proof.
  intros Hok Hsl. unfold releasesleep. kacq. kpure.
  erewrite bind_ok; [|apply wakeup_run].
  2: { destruct Hok as ((Hwf & Hlen & Hf) & _ & Hs). split_and!; cbn; [auto with xv6|done|].
       intros i. rewrite cproc_acq. intros. apply lfree_acq; [done|auto]. }
  cbn. rewrite cproc_acq, (thread_ok_cur _ Hok), touch_acq by auto with xv6.
  rewrite (release_acq _ _ (syn s)) by (eauto with xv6; done).
  apply Ok_eq; [done|]. kext. unfold get_slock. cbn. rewrite lookup_insert_eq. cbn.
  by rewrite insert_insert_eq.
Qed.

Lemma sample_thread_ok : thread_ok sample_state.
Proof.
  split_and!.
  - split_and!; [apply sample_cpu_wf|done|]. intros i Hi _.
    apply sample_lfree, sample_lockids_elem. done.
  - exists 0%nat. split; [done|]. vm_compute. lia.
  - intros l Hl. apply sample_lfree, sample_lockids_elem. done.
Qed.
