(* ===== verification/Quiet.v ===== *)
(** * Threads that run undisturbed

    The conditions under which a kernel thread can take every lock it meets at
    once, and what the file-system layers may change of the kernel state
    besides the data they are about: the executing hart's [intena], the state of
    processes that are woken, and the UART, to which messages are printed. *)

From stdpp Require Import base gmap strings numbers list.
From S2P Require Import Prelude KState Sample Spinlock Sched Sleeplock.

Definition static_locks : list lockid :=
  [Lkmem; Lbcache; Litable; Lftable; Llog; Lpid; Lwait; Ltick; Lcons; Luart; Lpr; Lvdisk].

(** The hart runs a process, holds no lock, and every lock may be taken. *)
Definition quiet (s : kstate) : Prop :=
  thread_ok s /\ c_noff (cpu_of (syn s)) = 0 /\
  lfree (syn s) (Lproc (cur s)) /\ Forall (lfree (syn s)) static_locks.

(** A process without its scheduling state. *)
Definition pcore (p : proc) : proc := set_p_state UNUSED (set_p_chan None p).

(** What the file-system layers leave alone. *)
Definition fixed (s : kstate) :=
  (mem s, freelist s, kernel_pagetable s, initproc s, nextpid s, forkret_first s, ticks s,
   ftable s, pipes s, cons s, pr_locking s, panicked s, csr s, devsw s).

Record kq (s s' : kstate) : Prop := mkkq {
  kq_fixed : fixed s' = fixed s;
  kq_syn : syn s' = syn s \/ syn s' = touch (syn s);
  kq_procs : pcore <$> procs s' = pcore <$> procs s
}.

#[export] Instance kq_refl : Reflexive kq.
Proof. intros s. split; auto. Qed.
#[export] Instance kq_trans : Transitive kq.
Proof.
  intros s1 s2 s3 [F1 Y1 P1] [F2 Y2 P2]. split; [congruence| |congruence].
  destruct Y1 as [Y1|Y1], Y2 as [Y2|Y2]; rewrite Y2, Y1, ?touch_touch; auto.
Qed.

Lemma kq_length s s' : kq s s' -> length (procs s') = length (procs s).
Proof. intros [_ _ H]. apply (f_equal length) in H. by rewrite !length_fmap in H. Qed.

Lemma kq_lfree s s' l : kq s s' -> lfree (syn s) l -> lfree (syn s') l.
Proof. intros [_ [-> | ->] _]; auto with xv6. Qed.

Lemma kq_cproc s s' : kq s s' -> c_proc (cpu_of (syn s')) = c_proc (cpu_of (syn s)).
Proof. intros [_ [-> | ->] _]; [done|apply cproc_touch]. Qed.

Lemma kq_cur s s' : kq s s' -> cur s' = cur s.
Proof. intros H. unfold cur. by rewrite (kq_cproc _ _ H). Qed.

Lemma kq_thread s s' : kq s s' -> thread_ok s -> thread_ok s'.
Proof.
  intros H Hok. apply (thread_ok_keep s); [done| |by apply kq_length].
  destruct H as [_ [?|?] _]; auto.
Qed.

Lemma kq_proc s s' i : kq s s' -> pcore (get_proc s' i) = pcore (get_proc s i).
Proof.
  intros [_ _ H]. apply (f_equal (fun l => l !! i)) in H. rewrite !list_lookup_fmap in H.
  unfold get_proc. destruct (procs s !! i), (procs s' !! i); cbn in *; congruence.
Qed.

Lemma kq_cur_pid s s' : kq s s' -> cur_pid s' = cur_pid s.
Proof.
  intros H. unfold cur_pid. rewrite (kq_cur _ _ H).
  change (p_pid (pcore (get_proc s' (cur s))) = p_pid (pcore (get_proc s (cur s)))).
  by rewrite (kq_proc _ _ _ H).
Qed.

Lemma kq_quiet s s' : kq s s' -> quiet s -> quiet s'.
Proof.
  intros H (Hok & Hn & Hp & Hl). split_and!.
  - by eapply kq_thread.
  - destruct H as [_ [-> | ->] _]; by rewrite ?noff_touch.
  - rewrite (kq_cur _ _ H). by eapply kq_lfree.
  - eapply Forall_impl; [exact Hl|]. intros l. by apply kq_lfree.
Qed.

Lemma quiet_thread s : quiet s -> thread_ok s.
Proof. by intros [? _]. Qed.
Lemma quiet_wf s : quiet s -> cpu_wf (syn s).
Proof. intros [? _]. auto with xv6. Qed.
Lemma quiet_lfree s l : quiet s -> l ∈ static_locks -> lfree (syn s) l.
Proof. intros (_ & _ & _ & H). rewrite Forall_forall in H. apply H. Qed.
#[export] Hint Resolve quiet_thread quiet_wf quiet_lfree : xv6.

(** Every process lock is free, and the table has its size. *)
Lemma quiet_procs s : quiet s -> length (procs s) = Z.to_nat NPROC /\ forall i, (i < Z.to_nat NPROC)%nat -> lfree (syn s) (Lproc i).
Proof.
  intros (((_ & Hlen & Hf) & (q & Hq & _) & _) & _ & Hp & _). split; [done|]. intros i Hi.
  destruct (decide (i = cur s)) as [->|Hne]; [done|]. apply Hf; [done|]. unfold cur in Hne. rewrite Hq in *. cbn in Hne. congruence.
Qed.

Lemma pcore_wake ch p : pcore (wake ch p) = pcore p.
Proof. unfold wake, pcore. by destruct (sleeping_on ch p). Qed.
Lemma pcore_wake_procs ch me ps : pcore <$> wake_procs ch me ps = pcore <$> ps.
Proof.
  apply list_eq. intros i. rewrite !list_lookup_fmap, lookup_wake_procs.
  destruct (ps !! i); [|done]. cbn. f_equal. case_decide; [done|apply pcore_wake].
Qed.

(** ** Taking and releasing locks of a quiet thread *)

Lemma quiet_acquire s e l :
  quiet s -> l ∈ static_locks -> acquire l s e = Ok () (set_syn (acq (syn s) l) s) e.
Proof. intros. apply acquire_free; eauto with xv6. Qed.

(** Back to [s]'s synchronisation state, with other fields changed. *)
Lemma quiet_release s s' e l :
  quiet s -> l ∈ static_locks -> syn s' = acq (syn s) l ->
  release l s' e = Ok () (set_syn (touch (syn s)) s') e.
Proof. intros. apply release_acq; eauto with xv6. Qed.

(** Waking other processes inside a critical section. *)
Lemma held_wakeup s s' e l ch :
  quiet s -> (forall i, l <> Lproc i) -> syn s' = acq (syn s) l -> length (procs s') = length (procs s) ->
  wakeup ch s' e = Ok () (set_syn (acq (syn s) l) (set_procs (wake_procs ch (Some (cur s)) (procs s')) s')) e.
Proof.
  intros Q Hl Hs Hp. pose proof (quiet_wf _ Q) as Hwf. destruct Q as (Hok & _).
  pose proof Hok as ((_ & Hlen & Hf) & _). rewrite wakeup_run.
  - by rewrite Hs, cproc_acq, (thread_ok_cur _ Hok), touch_acq.
  - split_and!; rewrite ?Hs; [auto with xv6|by rewrite Hp|].
    intros i Hi. rewrite cproc_acq. intros Hne. apply lfree_acq; [done|by apply Hf].
Qed.

Lemma static_not_proc l i : l ∈ static_locks -> l <> Lproc i.
Proof. intros Hl ->. revert Hl. unfold static_locks. rewrite !elem_of_cons, elem_of_nil. naive_solver. Qed.

Lemma quiet_wakeup s s' e l ch :
  quiet s -> l ∈ static_locks -> syn s' = acq (syn s) l -> length (procs s') = length (procs s) ->
  wakeup ch s' e = Ok () (set_syn (acq (syn s) l) (set_procs (wake_procs ch (Some (cur s)) (procs s')) s')) e.
Proof. intros Q Hl. apply held_wakeup; [done|]. intros i. by apply static_not_proc. Qed.

Lemma held_killed y s l i e :
  cpu_wf y -> lfree y (Lproc i) -> l <> Lproc i -> syn s = acq y l -> killed i s e = Ok (p_killed (get_proc s i)) s e.
Proof.
  intros Hwf Hl Hne Hs. unfold killed.
  kstep ltac:(apply acquire_free; rewrite Hs; [auto with xv6|by apply lfree_acq]). kpure.
  erewrite bind_ok; [|apply (release_acq _ _ (syn s)); rewrite ?Hs; [auto with xv6|by apply lfree_acq|reflexivity]].
  rewrite Hs, touch_acq by done. rewrite <- Hs. unfold mret, KM_ret. apply Ok_eq; [done|]. by kext.
Qed.

Ltac in_static := unfold static_locks; rewrite ?elem_of_cons; tauto.

Lemma sample_quiet : quiet sample_state.
Proof.
  split_and!; [apply sample_thread_ok|done| |].
  - apply sample_lfree, sample_lockids_elem. vm_compute. lia.
  - apply Forall_forall. intros l Hl. apply sample_lfree.
    unfold sample_lockids. apply elem_of_app. by left.
Qed.
