(* ===== verification/Switch.v ===== *)
(** * Sleeping and being scheduled again

    A process that sleeps gives its hart to [scheduler], which releases the
    process's lock, turns interrupts on and goes round the table; whatever runs in
    between may make the process runnable, and the scheduler then switches back to
    it.  [swtch_away] composes those pieces of kernel/proc.c into the interference
    that [sleep] sees. *)

From stdpp Require Import base gmap strings list.
From S2P Require Import Prelude KState Sample Spinlock Sched Sleeplock Quiet.

(** [scheduler] after [swtch] has returned to it from [p]; in a later round, after
    [between] has run, it tries [p] again. *)
Definition resume (between : M unit) (p : nat) : M bool :=
  modify (upd_cpu (set_c_proc None));;
  release (Lproc p);;
  intr_on;;
  between;;
  scheduler_try p.

(** What the process sees of it: [swtch] returns when it has been chosen. *)
Definition swtch_away (between : M unit) (s : kstate) : kstate :=
  match c_proc (cpu_of (syn s)) with
  | Some p => match resume between p s [] with Ok true s' _ => s' | _ => s end
  | None => s
  end.

(** ** The synchronisation state of the idle hart *)

Definition with_intena (b : bool) (y : sync) : sync := set_cpus (alter (set_c_intena b) (hart y) (cpus y)) y.

(** [y]'s hart in the scheduler with interrupts on. *)
Definition idle (y : sync) : sync :=
  mksync (hart y) true (alter (fun c => set_c_proc None (set_c_intena (intr y) c)) (hart y) (cpus y)) (locks y).

Lemma lfree_idle y l : lfree y l -> lfree (idle y) l.
Proof. done. Qed.
Lemma lfree_intena b y l : lfree y l -> lfree (with_intena b y) l.
Proof. done. Qed.
Lemma cproc_idle y : c_proc (cpu_of (idle y)) = None.
Proof. unfold cpu_of, idle. cbn. rewrite list_lookup_alter_eq. by destruct (_ !! _). Qed.
#[export] Hint Resolve lfree_idle lfree_intena : xv6.

Section Sync.
Context (y : sync) (c : cpu) (Hc : cpus y !! hart y = Some c) (Hn : c_noff c = 0).

Lemma idle_cpu : cpus (idle y) !! hart (idle y) = Some (set_c_proc None (set_c_intena (intr y) c)).
Proof. unfold idle. cbn. by rewrite list_lookup_alter_eq, Hc. Qed.

Lemma idle_wf : cpu_wf (idle y).
Proof. eexists. split; [apply idle_cpu|]. cbn. rewrite Hn. lia. Qed.

Lemma acq_cpu l : cpus (acq y l) !! hart (acq y l) = Some (pushed y c).
Proof. unfold acq. cbn. by rewrite list_lookup_alter_eq, Hc. Qed.

(** Releasing the process's lock after it has been taken off the hart. *)
Lemma release_idle s l e : lfree y l -> syn s = set_cpus (alter (set_c_proc None) (hart y) (cpus (acq y l))) (acq y l) ->
  (release l;; intr_on) s e = Ok () (set_syn (idle y) s) e.
Proof.
  intros Hl Hs. unfold release, holding. kpure. rewrite Hs. change (holds _ l) with (holds (acq y l) l). rewrite holds_acq. cbn [negb]. kpure.
  set (c1 := set_c_proc None (pushed y c)). pose proof (cpus_lt _ _ Hc) as Hlt.
  erewrite (bind_ok pop_off); [|apply (pop_off_run _ _ c1)].
  - unfold intr_on, modify. apply Ok_eq; [done|]. kext. rewrite Hs. cbn. unfold idle. apply sync_eq; [done|done| |].
    + rewrite !list_alter_alter_eq. rewrite !(list_alter_known _ _ _ _ Hc), list_insert_insert_eq. f_equal. unfold c1, pushed. by destruct c; cbn in *; subst.
    + unfold get_lock. cbn. rewrite !lookup_insert_eq. cbn. rewrite !insert_insert_eq. apply insert_id, (lfree_get _ _ Hl).
  - cbn. rewrite Hs. cbn. by rewrite !list_alter_alter_eq, list_lookup_alter_eq, Hc.
  - unfold c1, pushed. rewrite Hn. cbn. lia.
  - cbn. by rewrite Hs.
Qed.

(** Taking the process's lock again and putting it back on the hart. *)
Lemma acquire_resume b l p : c_proc c = Some p ->
  let y1 := acq (with_intena b (idle y)) l in
  set_cpus (alter (set_c_proc (Some p)) (hart y1) (cpus y1)) y1 = with_intena true (acq y l).
Proof.
  intros Hp y1. unfold y1, acq, with_intena, idle, set_cpus. cbn. apply sync_eq; [done|done| |done].
  rewrite !list_alter_alter_eq, !(list_alter_known _ _ _ _ Hc). f_equal. unfold pushed. destruct c; cbn in *. subst. done.
Qed.

Lemma restore_intena b l : with_intena (c_intena (cpu_of (acq y l))) (with_intena b (acq y l)) = acq y l.
Proof.
  unfold cpu_of. rewrite acq_cpu. cbn [default]. unfold with_intena, set_cpus, acq. cbn. apply sync_eq; [done|done| |done].
  rewrite !list_alter_alter_eq, !(list_alter_known _ _ _ _ Hc). by destruct c.
Qed.

(** Releasing the outer of two locks. *)
Lemma release_back s l l' e : lfree y l -> l <> l' -> syn s = acq (acq y l) l' -> release l s e = Ok () (set_syn (acq y l') s) e.
Proof.
  intros Hl Hne Hs. unfold release, holding. kpure.
  assert (Hh : holds (syn s) l = true).
  { rewrite Hs. unfold holds, get_lock, acq. cbn. rewrite lookup_insert_ne, lookup_insert_eq by done. cbn. by rewrite bool_decide_true. }
  rewrite Hh. cbn [negb]. kpure. set (c2 := pushed (acq y l) (pushed y c)).
  erewrite (pop_off_run _ _ c2).
  - apply Ok_eq; [done|]. kext. rewrite Hs. cbn. unfold acq. cbn. apply sync_eq; [done| | |].
    + unfold c2, pushed. by destruct c; cbn in *; subst.
    + rewrite !list_alter_alter_eq, !(list_alter_known _ _ _ _ Hc), list_insert_insert_eq. f_equal. unfold c2, pushed. destruct c; cbn in *. subst. done.
    + apply map_eq. intros k. unfold get_lock. cbn.
      repeat (rewrite lookup_insert_eq || rewrite (lookup_insert_ne _ l' l) by done || rewrite (lookup_insert_ne _ l l') by done; cbn).
      destruct (decide (k = l)) as [->|Hk]; [|destruct (decide (k = l')) as [->|Hk']].
      * rewrite lookup_insert_eq, (lookup_insert_ne _ l' l), (lfree_get _ _ Hl) by done. done.
      * by rewrite !(lookup_insert_ne _ l l'), !lookup_insert_eq by done.
      * by rewrite !lookup_insert_ne by done.
  - cbn. rewrite Hs. unfold acq. cbn. by rewrite !list_alter_alter_eq, list_lookup_alter_eq, Hc.
  - unfold c2, pushed. destruct c; cbn in *; subst. cbn. lia.
  - cbn. by rewrite Hs.
Qed.

End Sync.

(** ** Sleeping *)

Section Sleep.
Context (s0 : kstate) (Q : quiet s0).
Notation y := (syn s0).
Notation p := (cur s0).

Lemma quiet_cpu : exists c, cpus y !! hart y = Some c /\ c_noff c = 0 /\ c_proc c = Some p.
Proof using Q.
  destruct Q as (Hok & Hn & _). pose proof (thread_ok_cur _ Hok) as Hp. destruct (thread_ok_wf _ Hok) as (c & Hc & _).
  exists c. unfold cpu_of in Hn, Hp. rewrite Hc in Hn, Hp. done.
Qed.

Lemma resume_run between s s2 b :
  syn s = acq y (Lproc p) ->
  between (set_syn (idle y) s) [] = Ok () s2 [] -> syn s2 = with_intena b (idle y) -> p_state (get_proc s2 p) = RUNNABLE ->
  resume between p s [] = Ok true (set_syn (with_intena true (acq y (Lproc p))) (upd_proc p (set_p_state RUNNING) s2)) [].
Proof using Q.
  intros Hs Hm Hs2 Hst. destruct quiet_cpu as (c & Hc & Hn & Hp). assert (Hl : lfree y (Lproc p)) by apply Q.
  unfold resume. kpure. rewrite <- bind_assoc.
  erewrite bind_ok; [|apply (release_idle y c Hc Hn); [exact Hl|unfold upd_cpu; cbn; by rewrite Hs]].
  assert (E : set_syn (idle y) (upd_cpu (set_c_proc None) s) = set_syn (idle y) s) by (by kext).
  rewrite E. rewrite (bind_ok _ _ _ _ _ _ _ Hm). unfold scheduler_try.
  erewrite bind_ok; [|apply acquire_free; rewrite Hs2].
  - kpure. change (get_proc (set_syn _ s2) p) with (get_proc s2 p). rewrite Hst, decide_True by done. kpure.
    unfold mret, KM_ret. f_equal. unfold upd_cpu. kext. rewrite Hs2. apply (acquire_resume y c Hc Hn). done.
  - destruct (idle_wf y c Hc Hn) as (c' & Hc' & Hn' & Hi'). exists (set_c_intena b c'). unfold with_intena. cbn [cpus hart set_cpus intr].
    rewrite list_lookup_alter_eq, Hc'. done.
  - by apply lfree_intena, lfree_idle.
Qed.

(** [sched] with only [p->lock] held. *)
Lemma sched_away between s s' b e :
  syn s = acq y (Lproc p) -> p_state (get_proc s p) <> RUNNING -> swtch_away between s = s' -> syn s' = with_intena b (acq y (Lproc p)) ->
  sched s (swtch_away between :: e) = Ok () (set_syn (acq y (Lproc p)) s') e.
Proof using Q.
  intros Hs Hst Hsw Hs'. destruct quiet_cpu as (c & Hc & Hn & Hcp). pose proof (quiet_wf _ Q) as Hwf.
  assert (E : set_syn (touch (syn s)) s = s) by (rewrite Hs, touch_acq by done; rewrite <- Hs; apply set_syn_id).
  unfold sched. kstep ltac:(apply myproc_run; rewrite Hs; auto with xv6). rewrite E.
  rewrite Hs at 1. rewrite cproc_acq, (thread_ok_cur _ (quiet_thread _ Q)). cbn [deref]. kpure.
  unfold holding, mycpu, intr_get. kpure. rewrite Hs, holds_acq. cbn [negb]. kpure. rewrite Hs.
  assert (Hcpu : cpu_of (acq y (Lproc p)) = pushed y c) by (unfold cpu_of; by rewrite (acq_cpu y c Hc)).
  rewrite Hcpu. replace (c_noff (pushed y c) =? 1) with true by (unfold pushed; rewrite Hn; done). cbn [negb]. kpure.
  rewrite decide_False by done. kpure. rewrite Hs. cbn [intr acq]. kpure. rewrite Hs.
  erewrite bind_ok by (unfold yield_env; rewrite Hsw; reflexivity). unfold modify. f_equal. unfold upd_cpu. rewrite Hs'. f_equal.
  apply (restore_intena y c Hc Hn).
Qed.

Definition asleep (ch : chan) (q : proc) : proc := set_p_state SLEEPING (set_p_chan (Some ch) q).
Definition awake (q : proc) : proc := set_p_chan None (set_p_state RUNNING q).

(** [sleep] when [between] makes the process runnable: the process goes on with
    its lock held, in the state that [between] has left. *)
Lemma sleep_resumed ch lk between s s2 b e :
  lfree y lk -> lk <> Lproc p -> syn s = acq y lk ->
  between (set_syn (idle y) (upd_proc p (asleep ch) s)) [] = Ok () s2 [] -> syn s2 = with_intena b (idle y) ->
  p_state (get_proc s2 p) = RUNNABLE ->
  sleep ch lk s (swtch_away between :: e) = Ok () (set_syn (acq y lk) (upd_proc p awake s2)) e.
Proof using Q.
  intros Hlf Hne Hs Hm Hs2 Hst. destruct quiet_cpu as (c & Hc & Hn & Hcp). assert (Hl : lfree y (Lproc p)) by apply Q.
  pose proof (quiet_wf _ Q) as Hwf.
  unfold sleep. kstep ltac:(apply myproc_run; rewrite Hs; auto with xv6). rewrite Hs, cproc_acq.
  rewrite (thread_ok_cur _ (quiet_thread _ Q)), touch_acq by done. cbn [deref]. kpure.
  kstep ltac:(apply acquire_free; cbn; [auto with xv6|by apply lfree_acq]). cbn [syn set_syn].
  kstep ltac:(apply (release_back y c Hc Hn _ lk (Lproc p)); [done|done|reflexivity]). kpure.
  set (s1 := upd_proc p (asleep ch) s).
  assert (E1 : upd_proc p (set_p_state SLEEPING) (upd_proc p (set_p_chan (Some ch)) (set_syn (acq y (Lproc p))
      (set_syn (acq (acq y lk) (Lproc p)) (set_syn (acq y lk) s)))) = set_syn (acq y (Lproc p)) s1).
  { kext. rewrite list_alter_alter_eq. done. }
  assert (Hsw : swtch_away between (set_syn (acq y (Lproc p)) s1) =
      set_syn (with_intena true (acq y (Lproc p))) (upd_proc p (set_p_state RUNNING) s2)).
  { unfold swtch_away. cbn [syn set_syn]. rewrite cproc_acq, (thread_ok_cur _ (quiet_thread _ Q)).
    by rewrite (resume_run between _ s2 b). }
  rewrite E1. erewrite bind_ok; [|eapply (sched_away between); [reflexivity| |exact Hsw|reflexivity]].
  2: { unfold s1, get_proc. cbn. rewrite list_lookup_alter_eq. destruct (procs s !! p); done. }
  cbn [syn set_syn]. kpure. kstep ltac:(apply (release_acq _ _ y); [done|done|reflexivity]).
  rewrite acquire_free by (cbn; auto with xv6). apply Ok_eq; [done|]. kext.
  - apply acq_touch. done.
  - by rewrite list_alter_alter_eq.
Qed.

End Sleep.

Lemma pcore_alter (f : proc -> proc) i (ps : list proc) : (forall q, pcore (f q) = pcore q) -> pcore <$> alter f i ps = pcore <$> ps.
Proof.
  intros Hf. apply list_eq. intros j. rewrite !list_lookup_fmap. destruct (decide (j = i)) as [->|Hj].
  - rewrite list_lookup_alter_eq. destruct (ps !! i); [|done]. cbn. by rewrite Hf.
  - by rewrite list_lookup_alter_ne.
Qed.

(** ** The turn of another process *)

(** The scheduler finds [r] runnable and switches to it; [r] returns from the [sched]
    of its [yield], runs [body] with interrupts on, and yields again. *)
Definition turn (r : nat) (body : M unit) : M unit :=
  chosen ← scheduler_try r;
  if chosen : bool then
    modify (upd_cpu (set_c_intena true));;
    release (Lproc r);;
    body;;
    acquire (Lproc r);;
    modify (upd_proc r (set_p_state RUNNABLE));;
    modify (upd_cpu (set_c_proc None));;
    release (Lproc r);;
    intr_on
  else mret ().

(** The hart while [r] runs. *)
Definition running (r : nat) (y : sync) : sync :=
  set_cpus (alter (fun c => set_c_proc (Some r) (set_c_intena true c)) (hart y) (cpus (idle y))) (idle y).

Section Turn.
Context (s0 : kstate) (Q : quiet s0) (r : nat) (Hr : (r < Z.to_nat NPROC)%nat).
Notation y := (syn s0).

Lemma running_cpu c : cpus y !! hart y = Some c ->
  cpus (running r y) !! hart (running r y) = Some (set_c_proc (Some r) (set_c_intena true (set_c_proc None (set_c_intena (intr y) c)))).
Proof. intros Hc. unfold running, idle. cbn. by rewrite !list_alter_alter_eq, list_lookup_alter_eq, Hc. Qed.

Lemma lfree_running l : lfree y l -> lfree (running r y) l.
Proof. done. Qed.

Lemma running_quiet s : syn s = running r y -> length (procs s) = length (procs s0) -> quiet s /\ cur s = r.
Proof using Q Hr.
  intros Hs Hlen. destruct (quiet_cpu s0 Q) as (c & Hc & Hn & Hp). destruct (quiet_procs s0 Q) as [Hps Hpl].
  pose proof (running_cpu c Hc) as Hrc. assert (Hcp : c_proc (cpu_of (syn s)) = Some r) by (rewrite Hs; unfold cpu_of; by rewrite Hrc).
  assert (Hcur : cur s = r) by (unfold cur; by rewrite Hcp). split; [|done]. destruct Q as ((_ & _ & Hsl) & _ & _ & Hst).
  split_and!.
  - split_and!.
    + split_and!; [|by rewrite Hlen|].
      * rewrite Hs. eexists. split; [exact Hrc|]. cbn. rewrite Hn. lia.
      * intros i Hi _. rewrite Hs. by apply lfree_running, Hpl.
    + by exists r.
    + intros l Hl. rewrite Hs. by apply lfree_running, Hsl.
  - rewrite Hs. unfold cpu_of. rewrite Hrc. cbn. done.
  - rewrite Hs, Hcur. by apply lfree_running, Hpl.
  - eapply Forall_impl; [exact Hst|]. intros l. rewrite Hs. apply lfree_running.
Qed.

Lemma running_idle : idle (running r y) = with_intena true (idle y).
Proof.
  destruct (quiet_cpu s0 Q) as (c & Hc & Hn & Hp). unfold idle at 1, running, with_intena, idle, set_cpus. cbn.
  apply sync_eq; [done|done| |done]. rewrite !list_alter_alter_eq, !(list_alter_known _ _ _ _ Hc). f_equal.
Qed.

Lemma running_touch : touch (running r y) = running r y.
Proof using Q.
  destruct (quiet_cpu s0 Q) as (c & Hc & Hn & Hp). unfold touch, running, idle, set_cpus. cbn. apply sync_eq; [done|done| |done].
  rewrite !list_alter_alter_eq, !(list_alter_known _ _ _ _ Hc). f_equal. destruct c; cbn in *. by subst.
Qed.

Lemma acq_running l :
  let y1 := acq (idle y) l in let y2 := set_cpus (alter (set_c_proc (Some r)) (hart y1) (cpus y1)) y1 in
  set_cpus (alter (set_c_intena true) (hart y2) (cpus y2)) y2 = acq (running r y) l.
Proof using Q.
  destruct (quiet_cpu s0 Q) as (c & Hc & Hn & Hp). unfold acq, running, idle, set_cpus. cbn. apply sync_eq; [done|done| |done].
  rewrite !list_alter_alter_eq, !(list_alter_known _ _ _ _ Hc). f_equal. unfold pushed. destruct c; cbn in *. by subst.
Qed.

Lemma turn_run body s s2 :
  syn s = idle y -> p_state (get_proc s r) = RUNNABLE ->
  body (set_syn (running r y) (upd_proc r (set_p_state RUNNING) s)) [] = Ok () s2 [] -> syn s2 = running r y ->
  turn r body s [] = Ok () (set_syn (with_intena true (idle y)) (upd_proc r (set_p_state RUNNABLE) s2)) [].
Proof using Q Hr.
  intros Hs Hst Hb Hs2. destruct (quiet_cpu s0 Q) as (c & Hc & Hn & Hp). destruct (quiet_procs s0 Q) as [Hps Hpl]. specialize (Hpl r Hr).
  pose proof (running_cpu c Hc) as Hrc. pose proof (idle_wf y c Hc Hn) as Hiw.
  assert (Hrw : cpu_wf (running r y)) by (eexists; split; [exact Hrc|]; cbn; rewrite Hn; lia).
  unfold turn, scheduler_try. rewrite bind_assoc. kstep ltac:(apply acquire_free; rewrite Hs; [done|by apply lfree_idle]). kpure.
  change (get_proc (set_syn _ s) r) with (get_proc s r). rewrite Hst, decide_True by done. kpure.
  erewrite bind_ok; [|apply (release_acq _ _ (running r y)); [done|by apply lfree_running|rewrite Hs; apply acq_running]].
  rewrite running_touch. match goal with |- (body ≫= _) ?x _ = _ => assert (E : x = set_syn (running r y) (upd_proc r (set_p_state RUNNING) s)) by (by kext) end.
  rewrite E, (bind_ok _ _ _ _ _ _ _ Hb). kstep ltac:(apply acquire_free; rewrite Hs2; [done|by apply lfree_running]). kpure.
  rewrite Hs2. erewrite (release_idle (running r y)); [|exact Hrc|done|by apply lfree_running|reflexivity].
  rewrite running_idle. apply Ok_eq; [done|]. by kext.
Qed.

End Turn.
