(* ===== verification/Uart.v ===== *)
(** * kernel/uart.c and [consputc] of kernel/console.c

    The transmit ring and the line status register.  The device's answers to
    polls of LSR.THRE are the list [u_lsr] of the state; received bytes are
    [uart_rx]; every byte stored to THR is appended to [uart_out].  [uartintr],
    which calls the console's line discipline, is in [Console]. *)

From stdpp Require Import base gmap strings numbers list.
From S2P Require Import Prelude KState Sample Spinlock Sched.

Definition UART_TX_BUF_SIZE : Z := 32.

Definition upd_uart (f : uartst -> uartst) (s : kstate) : kstate := set_uart (f (uart s)) s.

(** ReadReg(LSR) & LSR_TX_IDLE *)
Definition lsr_tx_idle : M bool :=
  q ← gets (fun s => u_lsr (uart s));
  match q with
  | [] => mret true
  | b :: q' => modify (upd_uart (set_u_lsr q'));; mret b
  end.

(** WriteReg(THR, c) *)
Definition write_thr (c : Z) : M unit :=
  modify (upd_uart (fun u => set_uart_out (uart_out u ++ [u8 c]) u)).

Definition RHR : Z := 0.
Definition IER : Z := 1.
Definition FCR : Z := 2.
Definition LCR : Z := 3.

(** WriteReg for the configuration registers. *)
Definition WriteReg (reg v : Z) : M unit :=
  modify (fun s => set_mmio (mmio s ++ [(UART0 + reg, u8 v)]) s).

Definition uartinit : M unit :=
  WriteReg IER 0x00;;
  WriteReg LCR (Z.shiftl 1 7);;
  WriteReg 0 0x03;;
  WriteReg 1 0x00;;
  WriteReg LCR (Z.shiftl 3 0);;
  WriteReg FCR (Z.lor (Z.shiftl 1 0) (Z.shiftl 3 1));;
  WriteReg IER (Z.lor (Z.shiftl 1 1) (Z.shiftl 1 0));;
  initlock Luart "uart".

(** while(1) of [uartstart]; every round takes a byte out of the ring. *)
Fixpoint uartstart_loop (n : nat) : M unit :=
  match n with
  | O => kspin
  | S n' =>
      u ← gets uart;
      if tx_w u =? tx_r u then mret () else
      idle ← lsr_tx_idle;
      if negb idle then mret () else
      u ← gets uart;
      let c := nth (Z.to_nat (tx_r u mod UART_TX_BUF_SIZE)) (tx_buf u) 0 in
      modify (upd_uart (fun u => set_tx_r (u64 (tx_r u + 1)) u));;
      wakeup Ch_uart_r;;
      write_thr c;;
      uartstart_loop n'
  end.
Definition uartstart : M unit :=
  u ← gets uart;
  uartstart_loop (S (Z.to_nat (u64 (tx_w u - tx_r u)))).

Definition uartputc (c : Z) : M unit :=
  acquire Luart;;
  p ← gets panicked;
  if p : bool then kspin else
  while_wait (gets (fun s => tx_w (uart s) =? u64 (tx_r (uart s) + UART_TX_BUF_SIZE)))
    (sleep Ch_uart_r Luart);;
  modify (upd_uart (fun u =>
    set_tx_buf (<[Z.to_nat (tx_w u mod UART_TX_BUF_SIZE) := u8 c]> (tx_buf u)) u));;
  modify (upd_uart (fun u => set_tx_w (u64 (tx_w u + 1)) u));;
  uartstart;;
  release Luart.

(** while((ReadReg(LSR) & LSR_TX_IDLE) == 0) ; *)
Fixpoint uart_poll (n : nat) : M unit :=
  match n with
  | O => kspin
  | S n' =>
      idle ← lsr_tx_idle;
      if idle : bool then mret () else uart_poll n'
  end.

Definition uartputc_sync (c : Z) : M unit :=
  push_off;;
  p ← gets panicked;
  if p : bool then kspin else
  q ← gets (fun s => u_lsr (uart s));
  uart_poll (S (length q));;
  write_thr c;;
  pop_off.

(** The byte received, or -1. *)
Definition uartgetc : M Z :=
  q ← gets (fun s => uart_rx (uart s));
  match q with
  | [] => mret (-1)
  | c :: q' => modify (upd_uart (set_uart_rx q'));; mret c
  end.

Definition BACKSPACE : Z := 0x100.

Definition consputc (c : Z) : M unit :=
  if c =? BACKSPACE then
    uartputc_sync 8;; uartputc_sync 32;; uartputc_sync 8
  else uartputc_sync c.

(** ** Behaviour of the synchronous output path *)

Lemma lsr_poll_run q s e :
  u_lsr (uart s) = q ->
  exists q', uart_poll (S (length q)) s e = Ok () (upd_uart (set_u_lsr q') s) e.
Proof.
  revert s. induction q as [|b q IH]; intros s Hq; cbn [uart_poll length].
  - exists []. unfold lsr_tx_idle. kpure. rewrite Hq. kpure.
    unfold mret, KM_ret. apply Ok_eq; [done|]. kext. rewrite <- Hq. by destruct (uart s).
  - unfold lsr_tx_idle. kpure. rewrite Hq. kpure. destruct b.
    + exists q. done.
    + destruct (IH (upd_uart (set_u_lsr q) s)) as [q' Hr]; [done|]. exists q'.
      etransitivity; [exact Hr|]. apply Ok_eq; [done|]. by kext.
Qed.

(** The state after bytes [out] have been sent synchronously. *)
Definition sent (s s' : kstate) (out : list Z) : Prop :=
  exists y q, s' = set_syn y (upd_uart (fun u => set_u_lsr q (set_uart_out (uart_out u ++ out) u)) s) /\
    (y = syn s \/ y = touch (syn s)).

Lemma uartputc_sync_run c s e :
  cpu_wf (syn s) -> panicked s = false ->
  exists s', uartputc_sync c s e = Ok () s' e /\ sent s s' [u8 c].
Proof.
  intros Hwf Hp. unfold uartputc_sync. kstep ltac:(by apply push_off_run).
  kpure. cbn [panicked set_syn]. rewrite Hp. kpure.
  destruct (lsr_poll_run _ (set_syn (psh (syn s)) s) e eq_refl) as [q' Hr]. kstep_with Hr.
  unfold write_thr. kpure. rewrite (pop_psh _ _ (syn s)) by done.
  eexists. split; [reflexivity|]. exists (touch (syn s)), q'. split; [|by right]. kext.
Qed.

Lemma sent_trans s1 s2 s3 o1 o2 : sent s1 s2 o1 -> sent s2 s3 o2 -> sent s1 s3 (o1 ++ o2).
Proof.
  intros (y & q & -> & Hy) (y' & q' & -> & Hy'). exists y', q'. split.
  - kext. by rewrite app_assoc.
  - cbn in Hy'. destruct Hy as [->| ->], Hy' as [->| ->]; rewrite ?touch_touch; auto.
Qed.

Lemma sent_refl s : sent s s [].
Proof.
  exists (syn s), (u_lsr (uart s)). split; [|by left]. kext.
  rewrite app_nil_r. by destruct (uart s).
Qed.

Lemma sent_keep s s' o : sent s s' o ->
  (cpu_wf (syn s) -> cpu_wf (syn s')) /\ panicked s' = panicked s /\
  (forall l, lfree (syn s) l -> lfree (syn s') l).
Proof. intros (y & q & -> & [->| ->]); cbn; auto with xv6. Qed.

Lemma consputc_run c s e :
  cpu_wf (syn s) -> panicked s = false ->
  exists s', consputc c s e = Ok () s' e /\
    sent s s' (if c =? BACKSPACE then [8; 32; 8] else [u8 c]).
Proof.
  intros Hwf Hp. unfold consputc. destruct (c =? BACKSPACE); [|by apply uartputc_sync_run].
  destruct (uartputc_sync_run 8 s e Hwf Hp) as (s1 & H1 & S1).
  destruct (sent_keep _ _ _ S1) as (Hw1 & Hp1 & _).
  destruct (uartputc_sync_run 32 s1 e) as (s2 & H2 & S2); [auto|congruence|].
  destruct (sent_keep _ _ _ S2) as (Hw2 & Hp2 & _).
  destruct (uartputc_sync_run 8 s2 e) as (s3 & H3 & S3); [auto|congruence|].
  exists s3. kstep_with H1. kstep_with H2. split; [exact H3|].
  exact (sent_trans _ _ _ _ _ S1 (sent_trans _ _ _ _ _ S2 S3)).
Qed.
