(* ===== verification/Printf.v ===== *)
(** * kernel/printf.c

    Formatted output to the console.  A call's variable arguments are the list
    of values in their order; reading an argument that is not there, or of the
    wrong kind, is undefined in C and a panic here, and so is a store beyond
    the 16 bytes of [printint]'s buffer. *)

From stdpp Require Import base gmap strings numbers list.
From Stdlib Require Import Ascii.
From S2P Require Import Prelude KState Sample StringC Spinlock Sched Uart.

Definition chr (a : ascii) : Z := Z.of_N (N_of_ascii a).
Arguments chr a%_char_scope.
Fixpoint zstr (s : string) : list Z :=
  match s with
  | EmptyString => []
  | String a s' => chr a :: zstr s'
  end.

Inductive parg : Type := AInt (z : Z) | AStr (s : option (list Z)).

Definition digits : list Z := zstr "0123456789abcdef".

(** do { buf[i++] = digits[x % base]; } while((x /= base) != 0);
    a 64-bit number has at most 64 digits. *)
Fixpoint digits_loop (n : nat) (x base : Z) : list Z :=
  match n with
  | O => []
  | S n' =>
      nth (Z.to_nat (x mod base)) digits 0
        :: (if x / base =? 0 then [] else digits_loop n' (x / base) base)
  end.

Definition printint (xx base : Z) (sign : bool) : M unit :=
  let neg := sign && (xx <? 0) in
  let x := if neg then u64 (- xx) else u64 xx in
  let buf := digits_loop 64 x base ++ (if neg then zstr "-" else []) in
  if (16 <? length buf)%nat then kpanic "printint: buf overrun"
  else for_each (reverse buf) consputc.

Fixpoint printptr_loop (n : nat) (x : Z) : M unit :=
  match n with
  | O => mret ()
  | S n' => consputc (nth (Z.to_nat (Z.shiftr x 60)) digits 0);; printptr_loop n' (u64 (Z.shiftl x 4))
  end.
Definition printptr (x : Z) : M unit :=
  consputc (chr "0");; consputc (chr "x");; printptr_loop 16 x.

(** va_arg *)
Definition va_num (ap : list parg) : M (Z * list parg) :=
  match ap with
  | AInt z :: ap' => mret (z, ap')
  | _ => kpanic "va_arg"
  end.
Definition va_str (ap : list parg) : M (option (list Z) * list parg) :=
  match ap with
  | AStr s :: ap' => mret (s, ap')
  | _ => kpanic "va_arg"
  end.

(** for(i = 0; (cx = fmt[i] & 0xff) != 0; i++), on the format from [i] on. *)
Fixpoint printf_loop (n : nat) (fmt : list Z) (ap : list parg) : M unit :=
  match n with
  | O => kspin
  | S n' =>
      let cx := ch fmt in
      if cx =? 0 then mret () else
      if negb (cx =? chr "%") then consputc cx;; printf_loop n' (tail fmt) ap else
      let f := tail fmt in
      let c0 := ch f in
      let c1 := if c0 =? 0 then 0 else ch (tail f) in
      let c2 := if c1 =? 0 then 0 else ch (tail (tail f)) in
      let num conv base sign skip :=
        '(z, ap') ← va_num ap;
        printint (conv z) base sign;;
        printf_loop n' (drop skip f) ap' in
      if (c0 =? chr "d") then num i32 10 true 1%nat
      else if (c0 =? chr "l") && (c1 =? chr "d") then num i64 10 true 2%nat
      else if (c0 =? chr "l") && (c1 =? chr "l") && (c2 =? chr "d") then num i64 10 true 3%nat
      else if (c0 =? chr "u") then num i32 10 false 1%nat
      else if (c0 =? chr "l") && (c1 =? chr "u") then num i64 10 false 2%nat
      else if (c0 =? chr "l") && (c1 =? chr "l") && (c2 =? chr "u") then num i64 10 false 3%nat
      else if (c0 =? chr "x") then num i32 16 false 1%nat
      else if (c0 =? chr "l") && (c1 =? chr "x") then num i64 16 false 2%nat
      else if (c0 =? chr "l") && (c1 =? chr "l") && (c2 =? chr "x") then num i64 16 false 3%nat
      else if (c0 =? chr "p") then
        '(z, ap') ← va_num ap;
        printptr (u64 z);;
        printf_loop n' (tail f) ap'
      else if (c0 =? chr "s") then
        '(s, ap') ← va_str ap;
        for_each (cstr (default (zstr "(null)") s)) consputc;;
        printf_loop n' (tail f) ap'
      else if (c0 =? chr "%") then consputc (chr "%");; printf_loop n' (tail f) ap
      else if c0 =? 0 then mret ()
      else consputc (chr "%");; consputc c0;; printf_loop n' (tail f) ap
  end.

Definition printf (fmt : list Z) (ap : list parg) : M unit :=
  locking ← gets pr_locking;
  when locking (acquire Lpr);;
  printf_loop (S (length fmt)) fmt ap;;
  when locking (release Lpr).

Definition panic (s : list Z) : M unit :=
  modify (set_pr_locking false);;
  printf (zstr "panic: ") [];;
  printf (zstr "%s" ++ [10]) [AStr (Some s)];;
  modify (set_panicked true);;
  kspin.

Definition printfinit : M unit :=
  initlock Lpr "pr";;
  modify (set_pr_locking true).

(** ** What is printed *)

(** The number a digit string denotes, most significant digit first. *)
Definition digit_val (c : Z) : Z :=
  if (48 <=? c) && (c <=? 57) then c - 48 else c - 87.
Definition num_val (base : Z) (ds : list Z) : Z :=
  fold_left (fun v c => v * base + digit_val c) ds 0.

Lemma digit_val_nth d : 0 <= d < 16 -> digit_val (nth (Z.to_nat d) digits 0) = d.
Proof.
  intros Hd.
  assert (H : Forall (fun i => digit_val (nth i digits 0) = Z.of_nat i) (seq 0 16))
    by (apply (bool_decide_unpack _); vm_compute; exact I).
  rewrite list.Forall_forall in H. rewrite H by (apply elem_of_seq; lia). lia.
Qed.

Fixpoint low_val (base : Z) (ds : list Z) : Z :=
  match ds with
  | [] => 0
  | c :: ds' => digit_val c + base * low_val base ds'
  end.

Lemma num_val_reverse base ds : num_val base (reverse ds) = low_val base ds.
Proof.
  induction ds as [|c ds IH]; [done|]. unfold num_val in *. rewrite reverse_cons, fold_left_app.
  cbn. rewrite IH. lia.
Qed.

Lemma digits_loop_val n x base :
  2 <= base <= 16 -> 0 <= x < base ^ Z.of_nat n -> (0 < n)%nat ->
  low_val base (digits_loop n x base) = x.
Proof.
  revert x. induction n as [|n IH]; intros x Hb Hx Hn; [lia|].
  cbn [digits_loop low_val]. rewrite digit_val_nth by (pose proof (Z.mod_pos_bound x base); lia).
  pose proof (Z.div_mod x base ltac:(lia)) as Hdm.
  destruct (Z.eqb_spec (x / base) 0) as [H0|H0].
  - cbn. rewrite H0 in Hdm. lia.
  - assert (Hlt : x / base < base ^ Z.of_nat n).
    { apply Z.div_lt_upper_bound; [lia|]. rewrite Nat2Z.inj_succ, Z.pow_succ_r in Hx by lia. lia. }
    assert (0 <= x / base) by (apply Z.div_pos; lia).
    rewrite IH; [lia|done|lia|]. destruct n; [|lia]. cbn in Hlt. lia.
Qed.

Lemma digits_loop_length n m x base :
  2 <= base -> 0 <= x < base ^ Z.of_nat m -> (0 < m)%nat ->
  (length (digits_loop n x base) <= m)%nat.
Proof.
  revert m x. induction n as [|n IH]; intros m x Hb Hx Hm; cbn [digits_loop length]; [lia|].
  destruct (Z.eqb_spec (x / base) 0) as [H0|H0]; [cbn; lia|].
  destruct m as [|m]; [lia|].
  assert (Hlt : x / base < base ^ Z.of_nat m).
  { apply Z.div_lt_upper_bound; [lia|]. rewrite Nat2Z.inj_succ, Z.pow_succ_r in Hx by lia. lia. }
  assert (0 <= x / base) by (apply Z.div_pos; lia).
  assert (0 < m)%nat by (destruct m; [cbn in Hlt; lia|lia]).
  specialize (IH m (x / base) Hb ltac:(lia) ltac:(lia)). lia.
Qed.

Lemma puts_run l s e :
  cpu_wf (syn s) -> panicked s = false -> Forall byte_ok l ->
  exists s', for_each l consputc s e = Ok () s' e /\ sent s s' l.
Proof.
  intros Hwf Hp Hl. revert s Hwf Hp. induction Hl as [|c l Hc Hl IH]; intros s Hwf Hp.
  - exists s. split; [done|apply sent_refl].
  - destruct (consputc_run c s e Hwf Hp) as (s1 & H1 & S1).
    destruct (sent_keep _ _ _ S1) as (Hw1 & Hp1 & _).
    destruct (IH s1) as (s2 & H2 & S2); [auto|congruence|]. exists s2. cbn [for_each]. kstep_with H1.
    split; [exact H2|].
    replace (if c =? BACKSPACE then [8; 32; 8] else [u8 c]) with [c] in S1.
    + exact (sent_trans _ _ _ _ _ S1 S2).
    + unfold byte_ok in Hc. rewrite (proj2 (Z.eqb_neq _ _)) by (unfold BACKSPACE; lia).
      unfold u8. rewrite Z.mod_small by (change (2 ^ 8) with 256; lia). done.
Qed.

Lemma digits_byte d : byte_ok (nth d digits 0).
Proof.
  assert (H : Forall byte_ok digits) by (apply (bool_decide_unpack _); vm_compute; exact I).
  rewrite list.Forall_forall in H. destruct (decide (d < length digits)%nat).
  - apply H, list_elem_of_In, nth_In. done.
  - rewrite nth_overflow by lia. unfold byte_ok. lia.
Qed.

Lemma digits_loop_bytes n x base : Forall byte_ok (digits_loop n x base).
Proof.
  revert x. induction n as [|n IH]; intros x; cbn [digits_loop]; [constructor|].
  constructor; [apply digits_byte|]. destruct (_ =? 0); [constructor|apply IH].
Qed.

Lemma digits_loop_longer n m x base :
  2 <= base -> base ^ Z.of_nat m <= x -> (m < n)%nat -> (m < length (digits_loop n x base))%nat.
Proof.
  revert m x. induction n as [|n IH]; intros m x Hb Hx Hn; [lia|]. cbn [digits_loop length].
  destruct m as [|m]; [destruct (_ =? 0); cbn; lia|].
  rewrite Nat2Z.inj_succ, Z.pow_succ_r in Hx by lia.
  assert (Hd : base ^ Z.of_nat m <= x / base) by (apply Z.div_le_lower_bound; lia).
  assert (0 < base ^ Z.of_nat m) by (apply Z.pow_pos_nonneg; lia).
  rewrite (proj2 (Z.eqb_neq _ _)) by lia.
  specialize (IH m (x / base) Hb Hd ltac:(lia)). lia.
Qed.

(** ** Properties *)

(** [printint] prints a number of at most fifteen digits as an optional minus
    sign followed by digits that denote its magnitude in the base asked for,
    one byte at a time on the UART, and returns. *)
Theorem printint_prints xx base sign s e :
  cpu_wf (syn s) -> panicked s = false -> 2 <= base <= 16 -> - 2 ^ 63 <= xx < 2 ^ 63 ->
  let neg := sign && (xx <? 0) in
  let x := if neg then - xx else u64 xx in
  x < base ^ 15 ->
  exists s' ds, printint xx base sign s e = Ok () s' e /\
    sent s s' ((if neg then [45] else []) ++ ds) /\ num_val base ds = x.
Proof.
  intros Hwf Hp Hb Hxx neg x Hx.
  assert (Hx0 : 0 <= x).
  { unfold x, neg. destruct sign; cbn [andb]; [destruct (Z.ltb_spec xx 0); [lia|]|];
      apply Z.mod_pos_bound; lia. }
  assert (Hxe : (if neg then u64 (- xx) else u64 xx) = x).
  { unfold x, neg. destruct (sign && (xx <? 0)) eqn:E; [|done].
    apply andb_true_iff in E as [_ E%Z.ltb_lt]. apply Z.mod_small. lia. }
  unfold printint. fold neg. rewrite Hxe.
  assert (Hpow : 2 ^ 64 <= base ^ Z.of_nat 64) by (apply Z.pow_le_mono_l; lia).
  assert (Hx64 : x < 2 ^ 64).
  { unfold x. destruct neg; [lia|]. apply Z.mod_pos_bound. lia. }
  assert (Hlen : (length (digits_loop 64 x base) <= 15)%nat)
    by (apply digits_loop_length; cbn -[Z.pow]; lia).
  assert (Hsg : (length (if neg then zstr "-" else []) <= 1)%nat) by (destruct neg; cbn; lia).
  rewrite (proj2 (Nat.ltb_ge _ _)) by (rewrite length_app; lia).
  destruct (puts_run (reverse (digits_loop 64 x base ++ (if neg then zstr "-" else []))) s e Hwf Hp)
    as (s' & Hr & Hs).
  { rewrite Forall_reverse. apply Forall_app. split; [apply digits_loop_bytes|].
    destruct neg; repeat constructor; by vm_compute. }
  exists s', (reverse (digits_loop 64 x base)). split; [exact Hr|]. split.
  - rewrite reverse_app in Hs. by destruct neg.
  - rewrite num_val_reverse. apply digits_loop_val; lia.
Qed.

Lemma printint_prints_witness :
  exists s' ds, printint (-42) 10 true sample_state [] = Ok () s' [] /\
    sent sample_state s' ([45] ++ ds) /\ num_val 10 ds = 42.
Proof.
  apply (printint_prints (-42) 10 true sample_state []).
  - apply sample_cpu_wf.
  - reflexivity.
  - lia.
  - lia.
  - vm_compute. reflexivity.
Defined.

(** [printint]'s buffer is too small: every unsigned value of seventeen or
    more digits runs past its 16 bytes. *)
Theorem printint_overruns xx base s e :
  2 <= base -> base ^ 16 <= u64 xx ->
  printint xx base false s e = Panic "printint: buf overrun" s.
Proof.
  intros Hb Hx. unfold printint. cbn [andb]. rewrite app_nil_r.
  rewrite (proj2 (Nat.ltb_lt _ _)); [done|]. apply digits_loop_longer; done || lia.
Qed.

Lemma printint_overruns_witness :
  printint (-1) 10 false sample_state [] = Panic "printint: buf overrun" sample_state.
Proof. apply (printint_overruns (-1) 10 sample_state []); vm_compute; congruence. Defined.
