(* ===== verification/Pages.v ===== *)
(** * Page arithmetic

    Facts about the macros of riscv.h that [KState] defines with the bit
    operations of the source: rounding to page boundaries, the three page-table
    indices of an address, and the fields of a page-table entry. *)

From stdpp Require Import base numbers.
From S2P Require Import Prelude KState.

Ltac Zify.zify_post_hook ::= Z.to_euclidean_division_equations.

Lemma mask_page : u64 (Z.lnot (PGSIZE - 1)) = Z.shiftl (Z.ones 52) 12.
Proof. reflexivity. Qed.

Lemma land_page x : 0 <= x < 2 ^ 64 ->
  Z.land x (u64 (Z.lnot (PGSIZE - 1))) = PGSIZE * (x / PGSIZE).
Proof.
  intros Hx. rewrite mask_page. unfold PGSIZE. change 4096 with (2 ^ 12).
  rewrite Z.mul_comm, <- Z.shiftr_div_pow2, <- Z.shiftl_mul_pow2 by lia.
  apply Z.bits_inj'. intros n Hn. rewrite Z.land_spec.
  destruct (decide (n < 12)).
  - rewrite !Z.shiftl_spec_low by lia. by rewrite andb_false_r.
  - rewrite !Z.shiftl_spec, Z.shiftr_spec by lia.
    replace (n - 12 + 12) with n by lia.
    destruct (decide (n < 64)).
    + rewrite Z.ones_spec_low by lia. by rewrite andb_true_r.
    + rewrite Z.ones_spec_high, andb_false_r by lia. symmetry.
      apply Z.bits_above_log2; [lia|].
      destruct (decide (x = 0)) as [->|]; [cbn; lia|].
      assert (Z.log2 x < 64) by (apply Z.log2_lt_pow2; lia). lia.
Qed.

Lemma PGROUNDDOWN_spec x : 0 <= x < 2 ^ 64 -> PGROUNDDOWN x = PGSIZE * (x / PGSIZE).
Proof. apply land_page. Qed.

Lemma PGROUNDUP_spec x : 0 <= x -> x + PGSIZE - 1 < 2 ^ 64 ->
  PGROUNDUP x = PGSIZE * ((x + PGSIZE - 1) / PGSIZE).
Proof.
  intros H1 H2. unfold PGROUNDUP. unfold u64 at 1.
  rewrite Z.mod_small by (unfold PGSIZE in *; lia).
  apply land_page. unfold PGSIZE in *. lia.
Qed.

Definition aligned (x : Z) : Prop := x mod PGSIZE = 0.

Lemma PGROUNDUP_aligned x : 0 <= x -> x + PGSIZE - 1 < 2 ^ 64 -> aligned (PGROUNDUP x).
Proof. intros. rewrite PGROUNDUP_spec by done. unfold aligned, PGSIZE. lia. Qed.

Lemma PGROUNDUP_bounds x : 0 <= x -> x + PGSIZE - 1 < 2 ^ 64 ->
  x <= PGROUNDUP x < x + PGSIZE.
Proof. intros. rewrite PGROUNDUP_spec by done. unfold PGSIZE in *. lia. Qed.

Lemma PGROUNDUP_id x : 0 <= x -> x + PGSIZE - 1 < 2 ^ 64 -> aligned x -> PGROUNDUP x = x.
Proof. intros. rewrite PGROUNDUP_spec by done. unfold aligned, PGSIZE in *. lia. Qed.

Lemma PGROUNDUP_le x y : 0 <= x -> x <= y -> y + PGSIZE - 1 < 2 ^ 64 ->
  PGROUNDUP x <= PGROUNDUP y.
Proof. intros. rewrite !PGROUNDUP_spec by lia. unfold PGSIZE in *. lia. Qed.

Lemma PGROUNDDOWN_bounds x : 0 <= x < 2 ^ 64 -> PGROUNDDOWN x <= x < PGROUNDDOWN x + PGSIZE.
Proof. intros. rewrite PGROUNDDOWN_spec by done. unfold PGSIZE. lia. Qed.

Lemma PGROUNDDOWN_aligned x : 0 <= x < 2 ^ 64 -> aligned (PGROUNDDOWN x).
Proof. intros. rewrite PGROUNDDOWN_spec by done. unfold aligned, PGSIZE. lia. Qed.

(** Distinct pages do not overlap. *)
Lemma aligned_sep p q : aligned p -> aligned q -> p <> q -> p + PGSIZE <= q \/ q + PGSIZE <= p.
Proof. unfold aligned, PGSIZE. lia. Qed.

(** ** Page-table entries *)

Lemma PA2PTE_spec pa : 0 <= pa < 2 ^ 56 -> PA2PTE pa = pa / PGSIZE * 1024.
Proof.
  intros. unfold PA2PTE, PGSIZE, u64.
  rewrite Z.shiftl_mul_pow2, Z.shiftr_div_pow2 by lia. apply Z.mod_small. lia.
Qed.

Lemma lor_disjoint_add a b k : 0 <= k -> 0 <= b < 2 ^ k -> Z.lor (a * 2 ^ k) b = a * 2 ^ k + b.
Proof.
  intros Hk Hb. rewrite <- Z.shiftl_mul_pow2 by done.
  rewrite <- Z.lxor_lor, <- Z.add_nocarry_lxor; try done;
    apply Z.bits_inj'; intros n Hn; rewrite Z.land_spec, Z.bits_0;
    (destruct (decide (n < k));
      [rewrite Z.shiftl_spec_low by lia; done|]);
    apply andb_false_iff; right;
    (destruct (decide (b = 0)) as [->|]; [by rewrite Z.bits_0|]);
    apply Z.bits_above_log2; try lia;
    assert (Z.log2 b < k) by (apply Z.log2_lt_pow2; lia); lia.
Qed.

(** An entry is its page number in units of 1024 plus ten flag bits. *)
Lemma PTE_make pa fl : 0 <= pa < 2 ^ 56 -> 0 <= fl < 1024 ->
  Z.lor (PA2PTE pa) fl = pa / PGSIZE * 1024 + fl.
Proof. intros. rewrite PA2PTE_spec by done. by apply (lor_disjoint_add _ _ 10). Qed.

Lemma PTE2PA_spec pte : 0 <= pte < 2 ^ 54 -> PTE2PA pte = pte / 1024 * PGSIZE.
Proof.
  intros. unfold PTE2PA, PGSIZE, u64.
  rewrite Z.shiftl_mul_pow2, Z.shiftr_div_pow2 by lia. apply Z.mod_small. lia.
Qed.

Lemma PTE_FLAGS_spec pte : PTE_FLAGS pte = pte mod 1024.
Proof. unfold PTE_FLAGS. change 0x3FF with (Z.ones 10). by rewrite Z.land_ones. Qed.

Lemma PTE2PA_make pa fl : 0 <= pa < 2 ^ 56 -> aligned pa -> 0 <= fl < 1024 ->
  PTE2PA (Z.lor (PA2PTE pa) fl) = pa.
Proof.
  intros Hpa Ha Hfl. rewrite PTE_make by done. unfold aligned, PGSIZE in *.
  rewrite PTE2PA_spec; unfold PGSIZE; lia.
Qed.

Lemma PTE_FLAGS_make pa fl : 0 <= pa < 2 ^ 56 -> 0 <= fl < 1024 ->
  PTE_FLAGS (Z.lor (PA2PTE pa) fl) = fl.
Proof. intros. rewrite PTE_make, PTE_FLAGS_spec by done. lia. Qed.

(** A flag test only sees the flag bits. *)
Lemma land_flags pte f : 0 <= f < 1024 -> Z.land pte f = Z.land (PTE_FLAGS pte) f.
Proof.
  intros Hf. unfold PTE_FLAGS. change 0x3FF with (Z.ones 10).
  rewrite <- Z.land_assoc. f_equal. rewrite Z.land_comm, Z.land_ones by lia.
  symmetry. apply Z.mod_small. lia.
Qed.

(** ** Page-table indices *)

Lemma PX_spec level va : 0 <= level -> PX level va = va / 2 ^ (12 + 9 * level) mod 512.
Proof.
  intros. unfold PX, PXSHIFT, PXMASK. change 0x1FF with (Z.ones 9).
  by rewrite Z.land_ones, Z.shiftr_div_pow2 by lia.
Qed.

Lemma PX_range level va : 0 <= level -> 0 <= PX level va < 512.
Proof. intros. rewrite PX_spec by done. lia. Qed.

Lemma MAXVA_val : MAXVA = 2 ^ 38.
Proof. reflexivity. Qed.

(** The three indices of a user-range address determine its page. *)
Lemma PX_inj va va' : 0 <= va < MAXVA -> 0 <= va' < MAXVA -> aligned va -> aligned va' ->
  PX 0 va = PX 0 va' -> PX 1 va = PX 1 va' -> PX 2 va = PX 2 va' -> va = va'.
Proof.
  rewrite MAXVA_val. unfold aligned, PGSIZE. rewrite !PX_spec by lia. cbn -[Z.pow].
  intros. change (2 ^ (12 + 9 * 0)) with 4096 in *. change (2 ^ (12 + 9 * 1)) with 2097152 in *.
  change (2 ^ (12 + 9 * 2)) with 1073741824 in *. lia.
Qed.
