(* ===== verification/Kalloc.v ===== *)
(** * kernel/kalloc.c

    The physical page allocator.  As in the source, the free list is threaded
    through the free pages themselves: [r->next] is the word at the start of
    page [r].  [kmem_inv] relates that linked structure to the list of free
    pages it stands for. *)

From stdpp Require Import base gmap strings list.
From S2P Require Import Prelude KState StringC Spinlock Pages Sample.

Ltac Zify.zify_post_hook ::= Z.to_euclidean_division_equations.

Section Kalloc.
Context {L : Layout}.

(** ** The routines *)

Definition upd_mem (f : gmap Z Z -> gmap Z Z) (s : kstate) : kstate := set_mem (f (mem s)) s.

Definition kfree (pa : Z) : M unit :=
  if negb (pa mod PGSIZE =? 0) || (pa <? kend) || (PHYSTOP <=? pa)
  then kpanic "kfree" else
  modify (upd_mem (fun m => memset m pa 1 PGSIZE));;
  acquire Lkmem;;
  fl ← gets freelist;
  modify (upd_mem (fun m => st64 m pa fl));;
  modify (set_freelist pa);;
  release Lkmem.

Definition kalloc : M Z :=
  acquire Lkmem;;
  r ← gets freelist;
  when (negb (r =? 0)) (modify (fun s => set_freelist (ld64 (mem s) r) s));;
  release Lkmem;;
  when (negb (r =? 0)) (modify (upd_mem (fun m => memset m r 5 PGSIZE)));;
  mret r.

(** for(; p + PGSIZE <= (char* )pa_end; p += PGSIZE) kfree(p); *)
Fixpoint freerange_loop (n : nat) (p pa_end : Z) : M unit :=
  match n with
  | O => kspin
  | S n' =>
      if p + PGSIZE <=? pa_end
      then kfree p;; freerange_loop n' (p + PGSIZE) pa_end
      else mret ()
  end.
Definition freerange (pa_start pa_end : Z) : M unit :=
  let p := PGROUNDUP pa_start in
  freerange_loop (S (Z.to_nat ((pa_end - p) / PGSIZE))) p pa_end.

Definition kinit : M unit :=
  initlock Lkmem "kmem";;
  freerange kend PHYSTOP.

(** ** The free list as a data structure *)

(** The pages the allocator manages. *)
Definition page_ok (p : Z) : Prop := aligned p /\ kend <= p < PHYSTOP.

(** [l] is the list linked from [head] in memory [m]. *)
Fixpoint fl_rep (m : gmap Z Z) (head : Z) (l : list Z) : Prop :=
  match l with
  | [] => head = 0
  | p :: l' => head = p /\ fl_rep m (ld64 m p) l'
  end.

Definition kmem_inv (s : kstate) (l : list Z) : Prop :=
  fl_rep (mem s) (freelist s) l /\ NoDup l /\ Forall page_ok l.

(** The kernel image ends below the memory it allocates, above address zero. *)
Definition layout_ok : Prop := 0 < kend <= PHYSTOP.

(** The abstract allocator: a stack of free pages and the pages handed out. *)
Record amem : Type := mkamem { a_free : list Z; a_used : list Z }.
Inductive kop : Type := OpAlloc | OpFree (p : Z).

Definition spec_op (o : kop) (a : amem) : option (Z * amem) :=
  match o with
  | OpAlloc => match a_free a with
      | [] => Some (0, a)
      | p :: l => Some (p, mkamem l (p :: a_used a))
      end
  | OpFree p => if decide (p ∈ a_used a)
      then Some (0, mkamem (p :: a_free a) (list_difference (a_used a) [p])) else None
  end.

Definition run_op (o : kop) : M Z :=
  match o with
  | OpAlloc => kalloc
  | OpFree p => kfree p;; mret 0
  end.

Fixpoint spec_ops (os : list kop) (a : amem) : option (list Z * amem) :=
  match os with
  | [] => Some ([], a)
  | o :: os' =>
      '(r, a1) ← spec_op o a;
      '(rs, a2) ← spec_ops os' a1;
      Some (r :: rs, a2)
  end.

Fixpoint run_ops (os : list kop) : M (list Z) :=
  match os with
  | [] => mret []
  | o :: os' => r ← run_op o; rs ← run_ops os'; mret (r :: rs)
  end.

(** ** Lemmas *)

Lemma fl_rep_frame m m' h l :
  (forall p a, p ∈ l -> p <= a < p + 8 -> ld8 m a = ld8 m' a) ->
  fl_rep m h l -> fl_rep m' h l.
Proof.
  revert h. induction l as [|p l IH]; intros h Hm; cbn; [done|].
  intros [-> H]. split; [done|].
  rewrite <- (ld64_ext m m' p) by (intros; apply (Hm p); set_solver).
  apply IH; [|done]. intros q a Hq Ha. apply (Hm q); [set_solver|done].
Qed.

Lemma page_ok_pos p : layout_ok -> page_ok p -> 0 < p < 2 ^ 56 /\ p + PGSIZE <= PHYSTOP.
Proof. unfold layout_ok, page_ok, aligned, PHYSTOP, KERNBASE, PGSIZE. lia. Qed.

Lemma page_sep l p q a :
  Forall page_ok l -> p ∈ l -> page_ok q -> p <> q -> p <= a < p + 8 ->
  ~ (q <= a < q + PGSIZE).
Proof.
  intros Hl Hp [Hq _] Hne Ha. rewrite list.Forall_forall in Hl. destruct (Hl _ Hp) as [Hp' _].
  destruct (aligned_sep p q Hp' Hq Hne); unfold PGSIZE in *; lia.
Qed.

Lemma fl_rep_write m m' h l q :
  (forall a, ~ (q <= a < q + PGSIZE) -> ld8 m' a = ld8 m a) ->
  Forall page_ok l -> page_ok q -> q ∉ l -> fl_rep m h l -> fl_rep m' h l.
Proof.
  intros Hm Hl Hq Hnin. apply fl_rep_frame. intros p a Hp Ha. symmetry. apply Hm.
  eapply page_sep; try done. by intros ->.
Qed.

Lemma kfree_panics pa s e :
  ~ page_ok pa -> kfree pa s e = Panic "kfree" s.
Proof.
  intros Hp. unfold kfree.
  destruct (negb (pa mod PGSIZE =? 0) || (pa <? kend) || (PHYSTOP <=? pa)) eqn:E; [done|].
  exfalso. apply Hp. unfold page_ok, aligned. lia.
Qed.

(** The state after [kfree pa]. *)
Definition freed (pa : Z) (s : kstate) : kstate :=
  set_syn (touch (syn s)) (set_freelist pa
    (set_mem (st64 (memset (mem s) pa 1 PGSIZE) pa (freelist s)) s)).

Lemma kfree_run pa s e :
  page_ok pa -> cpu_wf (syn s) -> lfree (syn s) Lkmem ->
  kfree pa s e = Ok () (freed pa s) e.
Proof.
  intros Hp Hwf Hl. unfold kfree.
  replace (negb (pa mod PGSIZE =? 0) || (pa <? kend) || (PHYSTOP <=? pa)) with false
    by (unfold page_ok, aligned in Hp; lia).
  kpure. kacq. kpure. rewrite (release_acq _ _ (syn s)) by done.
  apply Ok_eq; [done|by kext].
Qed.

Lemma ld8_freed_mem m pa fl a :
  ~ (pa <= a < pa + PGSIZE) -> ld8 (st64 (memset m pa 1 PGSIZE) pa fl) a = ld8 m a.
Proof.
  intros Ha. rewrite ld8_st64_other, ld8_memset by (unfold PGSIZE in *; lia).
  case_decide; done || lia.
Qed.

Lemma freed_inv pa s l :
  layout_ok -> page_ok pa -> pa ∉ l -> kmem_inv s l -> kmem_inv (freed pa s) (pa :: l).
Proof.
  intros HL Hp Hnin (Hrep & Hnd & Hok). split_and!; cbn.
  - split; [done|]. rewrite ld64_st64.
    assert (Hfl : u64 (freelist s) = freelist s).
    { unfold u64. destruct l as [|q l]; cbn in Hrep.
      - by rewrite Hrep.
      - destruct Hrep as [-> _]. inversion_clear Hok as [|? ? Hq _].
        pose proof (page_ok_pos _ HL Hq) as Hq'. apply Z.mod_small. lia. }
    rewrite Hfl. apply (fl_rep_write (mem s) _ _ _ pa); try done.
    intros a Ha. by apply ld8_freed_mem.
  - by constructor.
  - by constructor.
Qed.

(** The state after [kalloc] takes the page at the head of the list. *)
Definition kalloced (p : Z) (s : kstate) : kstate :=
  set_syn (touch (syn s)) (set_freelist (ld64 (mem s) p)
    (set_mem (memset (mem s) p 5 PGSIZE) s)).

Lemma kalloc_empty s e :
  kmem_inv s [] -> cpu_wf (syn s) -> lfree (syn s) Lkmem ->
  kalloc s e = Ok 0 (set_syn (touch (syn s)) s) e.
Proof.
  intros (Hrep & _) Hwf Hl. cbn in Hrep. unfold kalloc. kacq. kpure. cbn. rewrite Hrep. cbn.
  kpure. kstep ltac:(by apply (release_acq _ _ (syn s))). kpure. done.
Qed.

Lemma kalloc_run p l s e :
  layout_ok -> kmem_inv s (p :: l) -> cpu_wf (syn s) -> lfree (syn s) Lkmem ->
  kalloc s e = Ok p (kalloced p s) e.
Proof.
  intros HL (Hrep & _ & Hok) Hwf Hl. destruct Hrep as [Hh _].
  inversion_clear Hok as [|? ? Hp _]. pose proof (page_ok_pos _ HL Hp) as Hp'.
  unfold kalloc. kacq. kpure. cbn. rewrite Hh.
  rewrite (proj2 (Z.eqb_neq _ _)) by lia. cbn [negb when]. kpure.
  kstep ltac:(by apply (release_acq _ _ (syn s))). kpure.
  unfold mret, KM_ret. apply Ok_eq; [done|by kext].
Qed.

Lemma kalloced_inv p l s : kmem_inv s (p :: l) -> kmem_inv (kalloced p s) l.
Proof.
  intros ([_ Hrep] & Hnd & Hok). apply NoDup_cons in Hnd as [Hnin Hnd].
  inversion_clear Hok as [|? ? Hp Hok']. split_and!; [|done..]. cbn.
  apply (fl_rep_write (mem s) _ _ _ p); try done.
  intros a Ha. rewrite ld8_memset. case_decide; done.
Qed.

(** ** Properties *)

Lemma run_op_spec o s e a r a' :
  layout_ok -> kmem_inv s (a_free a) -> cpu_wf (syn s) -> lfree (syn s) Lkmem ->
  NoDup (a_free a ++ a_used a) -> Forall page_ok (a_used a) ->
  spec_op o a = Some (r, a') ->
  exists s', run_op o s e = Ok r s' e /\ kmem_inv s' (a_free a') /\
    cpu_wf (syn s') /\ lfree (syn s') Lkmem /\
    (a_free a' ++ a_used a') ≡ₚ (a_free a ++ a_used a) /\ Forall page_ok (a_used a').
Proof.
  intros HL Hinv Hwf Hl Hnd Hused Hs. destruct o as [|p]; cbn in Hs |- *.
  - destruct (a_free a) as [|p l] eqn:Hf; injection Hs as <- <-.
    + exists (set_syn (touch (syn s)) s). rewrite kalloc_empty by done.
      rewrite Hf. split_and!; cbn; auto with xv6. 
    + exists (kalloced p s). rewrite (kalloc_run p l) by done. cbn.
      destruct Hinv as (Hrep & Hnd' & Hok). pose proof Hok as Hok'.
      inversion_clear Hok' as [|? ? Hp _].
      split_and!; auto with xv6; [by apply kalloced_inv|by rewrite Permutation_middle].
  - case_decide as Hin; [|done]. injection Hs as <- <-.
    rewrite list.Forall_forall in Hused. pose proof (Hused _ Hin) as Hp.
    apply NoDup_app in Hnd as (Hnd1 & Hnd2 & Hnd3).
    exists (freed p s). rewrite (bind_ok _ _ _ _ _ _ _ (kfree_run p s e Hp Hwf Hl)). cbn.
    assert (Hperm : p :: list_difference (a_used a) [p] ≡ₚ a_used a).
    { apply NoDup_Permutation.
      - constructor; [rewrite list_elem_of_difference; set_solver|by apply NoDup_list_difference].
      - done.
      - intros x. rewrite elem_of_cons, list_elem_of_difference. destruct (decide (x = p)); set_solver. }
    split_and!; auto with xv6.
    + apply freed_inv; try done. intros H. by apply (Hnd2 p).
    + by rewrite Permutation_middle, Hperm.
    + rewrite list.Forall_forall. intros q Hq. apply Hused.
      rewrite <- Hperm. set_solver.
Qed.

(** C14 The linked allocator implements the abstract one: any sequence of
    [kalloc] and of [kfree] of pages in use returns what the stack of free
    pages returns, never panics or waits, keeps the memory-threaded list in
    step with that stack, and conserves the pages: those free and those in use
    are together always the same pages, each once, so a page in use is never
    handed out again. *)
Theorem kmem_refines os s e a rs a' :
  layout_ok -> kmem_inv s (a_free a) -> cpu_wf (syn s) -> lfree (syn s) Lkmem ->
  NoDup (a_free a ++ a_used a) -> Forall page_ok (a_used a) ->
  spec_ops os a = Some (rs, a') ->
  exists s', run_ops os s e = Ok rs s' e /\ kmem_inv s' (a_free a') /\
    (a_free a' ++ a_used a') ≡ₚ (a_free a ++ a_used a) /\ NoDup (a_free a' ++ a_used a').
Proof.
  intros HL. revert s a rs. induction os as [|o os IH]; intros s a rs Hinv Hwf Hl Hnd Hu Hs.
  - cbn in Hs. simplify_eq. by exists s.
  - cbn [spec_ops] in Hs. apply bind_Some in Hs as ([r a1] & H1 & Hs).
    apply bind_Some in Hs as ([rs' a2] & H2 & Hs). simplify_eq.
    destruct (run_op_spec o s e a r a1) as (s1 & Hr & Hi1 & Hw1 & Hl1 & Hp1 & Hu1); try done.
    destruct (IH s1 a1 rs') as (s2 & Hr2 & Hi2 & Hp2 & Hn2); try done.
    { by rewrite Hp1. }
    exists s2. cbn [run_ops]. kstep_with Hr. kstep_with Hr2. split_and!; try done.
    by rewrite Hp2, Hp1.
Qed.

(** The pages from [p] up, [n] of them. *)
Fixpoint pages_from (p : Z) (n : nat) : list Z :=
  match n with
  | O => []
  | S n' => p :: pages_from (p + PGSIZE) n'
  end.

Lemma pages_from_elem p n i : (i < n)%nat -> p + Z.of_nat i * PGSIZE ∈ pages_from p n.
Proof.
  revert p i. induction n as [|n IH]; intros p i Hi; [lia|]. cbn [pages_from].
  destruct i as [|i]; [apply elem_of_cons; left; lia|].
  apply elem_of_cons. right. replace (p + Z.of_nat (S i) * PGSIZE) with (p + PGSIZE + Z.of_nat i * PGSIZE) by lia.
  apply IH. lia.
Qed.

Lemma freerange_loop_run n k p s e l :
  layout_ok -> aligned p -> kend <= p -> p + Z.of_nat n * PGSIZE <= PHYSTOP ->
  PHYSTOP < p + (Z.of_nat n + 1) * PGSIZE -> (n < k)%nat ->
  kmem_inv s l -> Forall (fun q => q < p) l ->
  cpu_wf (syn s) -> lfree (syn s) Lkmem ->
  exists s', freerange_loop k p PHYSTOP s e = Ok () s' e /\
    kmem_inv s' (reverse (pages_from p n) ++ l) /\ cpu_wf (syn s') /\ lfree (syn s') Lkmem.
Proof.
  intros HL. revert k p s l. induction n as [|n IH]; intros k p s l Ha Hp H1 H2 Hk Hinv Hlt Hwf Hl.
  - destruct k as [|k]; [lia|]. exists s. cbn [freerange_loop].
    destruct (Z.leb_spec (p + PGSIZE) PHYSTOP); [unfold PGSIZE in *; lia|]. done.
  - destruct k as [|k]; [lia|]. cbn [freerange_loop pages_from]. rewrite reverse_cons.
    destruct (Z.leb_spec (p + PGSIZE) PHYSTOP); [|unfold PGSIZE in *; lia].
    assert (Hpo : page_ok p) by (unfold page_ok, PGSIZE in *; split; [done|lia]).
    assert (Hnin : p ∉ l).
    { intros Hin. rewrite list.Forall_forall in Hlt. specialize (Hlt _ Hin). lia. }
    kstep ltac:(by apply kfree_run).
    destruct (IH k (p + PGSIZE) (freed p s) (p :: l)) as (s' & Hr & Hi & Hw & Hf);
      try (unfold aligned, PGSIZE in *; lia).
    + by apply freed_inv.
    + constructor; [unfold PGSIZE; lia|]. eapply Forall_impl; [done|]. cbn. unfold PGSIZE. lia.
    + cbn. auto with xv6.
    + cbn. auto with xv6.
    + exists s'. rewrite Hr. rewrite <- app_assoc. done.
Qed.

(** C30 [kinit] puts every whole page between [end] and [PHYSTOP] on the free
    list exactly once, the highest page first, and does not panic. *)
Theorem kinit_frees_all s e :
  layout_ok -> cpu_wf (syn s) -> freelist s = 0 ->
  let p0 := PGROUNDUP kend in
  let n := Z.to_nat ((PHYSTOP - p0) / PGSIZE) in
  exists s', kinit s e = Ok () s' e /\
    kmem_inv s' (reverse (pages_from p0 n)) /\
    forall q, q ∈ reverse (pages_from p0 n) <-> page_ok q.
Proof.
  intros HL Hwf Hfl p0 n. unfold layout_ok in HL.
  assert (Hb : kend <= p0 < kend + PGSIZE) by (apply PGROUNDUP_bounds; unfold PHYSTOP, KERNBASE, PGSIZE in *; lia).
  assert (Hal : aligned p0) by (apply PGROUNDUP_aligned; unfold PHYSTOP, KERNBASE, PGSIZE in *; lia).
  assert (Hps : aligned PHYSTOP) by reflexivity.
  assert (Hle : p0 <= PHYSTOP) by (unfold aligned, PGSIZE in *; lia).
  unfold kinit, initlock. kpure. unfold freerange. fold p0.
  destruct (freerange_loop_run n (S (Z.to_nat ((PHYSTOP - p0) / PGSIZE))) p0
    (set_syn (set_locks (<[Lkmem := mkspinlock "kmem" false None]> (locks (syn s))) (syn s)) s) e [])
    as (s' & Hr & Hi & _); try (unfold n, aligned, PGSIZE in *; lia).
  - done.
  - split_and!; cbn; [done|constructor..].
  - constructor.
  - done.
  - cbn. unfold lfree. cbn. exists "kmem". by rewrite lookup_insert_eq.
  - exists s'. rewrite app_nil_r in Hi. split_and!; [done..|]. intros q. split.
    + destruct Hi as (_ & _ & Hok). rewrite list.Forall_forall in Hok. auto.
    + intros [Hqa Hqr]. rewrite elem_of_reverse.
      assert (Hq : q = p0 + Z.of_nat (Z.to_nat ((q - p0) / PGSIZE)) * PGSIZE)
        by (unfold aligned, PGSIZE in *; lia).
      rewrite Hq. apply pages_from_elem. unfold n, aligned, PGSIZE in *. lia.
Qed.

End Kalloc.

(** The sample state with its free pages on the list. *)

Definition sample_page (i : Z) : Z := PHYSTOP - (8 - i) * PGSIZE.
Definition sample_free : kstate :=
  fold_left (fun s i => freed (sample_page i) s) [7; 6; 5; 4; 3; 2; 1; 0] sample_state.
Definition sample_freelist : list Z := sample_page <$> [0; 1; 2; 3; 4; 5; 6; 7].

Lemma sample_layout_ok : layout_ok (L := sample_layout).
Proof. split; vm_compute; congruence. Qed.

Lemma sample_page_ok i : 0 <= i < 8 -> page_ok (L := sample_layout) (sample_page i).
Proof.
  intros. unfold page_ok, aligned, sample_page. cbn [kend sample_layout].
  unfold PHYSTOP, KERNBASE, PGSIZE. lia.
Qed.

Lemma sample_free_inv : kmem_inv (L := sample_layout) sample_free sample_freelist.
Proof.
  unfold sample_free, sample_freelist. cbn [fold_left fmap list_fmap].
  repeat (apply (freed_inv (L := sample_layout)); [apply sample_layout_ok|by apply sample_page_ok
    |by apply (bool_decide_unpack _); vm_compute|]).
  repeat split; constructor.
Qed.

Lemma sample_free_syn : syn sample_free = touch (syn sample_state).
Proof. unfold sample_free. cbn [fold_left]. unfold freed. cbn [syn set_syn]. by rewrite !touch_touch. Qed.

Lemma sample_free_wf : cpu_wf (syn sample_free).
Proof. rewrite sample_free_syn. apply cpu_wf_touch, sample_cpu_wf. Qed.

Lemma sample_free_lfree l : l ∈ sample_lockids -> lfree (syn sample_free) l.
Proof. intros. rewrite sample_free_syn. by apply lfree_touch, sample_lfree. Qed.

Definition sample_ops : list kop :=
  [OpAlloc; OpAlloc; OpFree (sample_page 0); OpAlloc].

Lemma kmem_refines_witness :
  exists s' a', run_ops (L := sample_layout) sample_ops sample_free [] =
    Ok [sample_page 0; sample_page 1; 0; sample_page 0] s' [] /\
    kmem_inv (L := sample_layout) s' (a_free a').
Proof.
  destruct (kmem_refines (L := sample_layout) sample_ops sample_free []
    (mkamem sample_freelist []) [sample_page 0; sample_page 1; 0; sample_page 0]
    (mkamem (sample_page <$> [2; 3; 4; 5; 6; 7]) [sample_page 0; sample_page 1]))
    as (s' & Hr & Hi & _).
  - apply sample_layout_ok.
  - apply sample_free_inv.
  - apply sample_free_wf.
  - apply sample_free_lfree, sample_lockids_elem. exact I.
  - apply (bool_decide_unpack _). vm_compute. exact I.
  - constructor.
  - vm_compute. reflexivity.
  - exists s', (mkamem (sample_page <$> [2; 3; 4; 5; 6; 7]) [sample_page 0; sample_page 1]).
    split; [exact Hr|exact Hi].
Defined.

Lemma kinit_frees_all_witness :
  exists s', kinit (L := sample_layout) sample_state [] = Ok () s' [] /\
    kmem_inv (L := sample_layout) s' (sample_page <$> [7; 6; 5; 4; 3; 2; 1; 0]).
Proof.
  destruct (kinit_frees_all (L := sample_layout) sample_state []) as (s' & Hr & Hi & _).
  - apply sample_layout_ok.
  - apply sample_cpu_wf.
  - reflexivity.
  - exists s'. split; [exact Hr|exact Hi].
Defined.
