(* ===== verification/Vm.v ===== *)
(** * kernel/vm.c, with [proc_mapstacks] of kernel/proc.c

    Page tables are pages of the byte memory, read and written as 64-bit
    words, exactly as the source does through [pte_t *].  A null pointer is the
    address 0.  Kernel buffers that are copied to or from user memory are byte
    lists: [copyin] and [copyinstr] return, next to their status, the bytes
    they stored at [dst] (also those stored before a failure). *)

From stdpp Require Import base gmap strings numbers list.
From S2P Require Import Prelude KState StringC Spinlock Pages Kalloc.

Section Vm.
Context {L : Layout}.

(** [pte & flags] as a C condition. *)
Definition has (pte flags : Z) : bool := negb (Z.land pte flags =? 0).

Definition rd64 (a : Z) : M Z := gets (fun s => ld64 (mem s) a).
Definition wr64 (a v : Z) : M unit := modify (upd_mem (fun m => st64 m a v)).

(** Writing through a pointer that may be null. *)
Definition kmemset (p c n : Z) : M unit :=
  if p =? 0 then kpanic "kerneltrap" else modify (upd_mem (fun m => memset m p c n)).

(** ** Page-table walks *)

(** for(int level = 2; level > 0; level--) *)
Fixpoint walk_levels (levels : list Z) (pagetable va : Z) (alloc : bool) : M Z :=
  match levels with
  | [] => mret (pagetable + 8 * PX 0 va)
  | level :: levels' =>
      let pte := pagetable + 8 * PX level va in
      v ← rd64 pte;
      if has v PTE_V then walk_levels levels' (PTE2PA v) va alloc
      else if negb alloc then mret 0
      else
        pagetable ← kalloc;
        if pagetable =? 0 then mret 0 else
        modify (upd_mem (fun m => memset m pagetable 0 PGSIZE));;
        wr64 pte (Z.lor (PA2PTE pagetable) PTE_V);;
        walk_levels levels' pagetable va alloc
  end.
Definition walk (pagetable va : Z) (alloc : bool) : M Z :=
  if MAXVA <=? va then kpanic "walk" else walk_levels [2; 1] pagetable va alloc.

Definition walkaddr (pagetable va : Z) : M Z :=
  if MAXVA <=? va then mret 0 else
  pte ← walk pagetable va false;
  if pte =? 0 then mret 0 else
  v ← rd64 pte;
  if negb (has v PTE_V) then mret 0 else
  if negb (has v PTE_U) then mret 0 else
  mret (PTE2PA v).

(** The rounds of [for(;;)] in [mappages]; [last] is reached in the [n]th. *)
Fixpoint mappages_loop (n : nat) (pagetable a last pa perm : Z) : M Z :=
  match n with
  | O => kspin
  | S n' =>
      pte ← walk pagetable a true;
      if pte =? 0 then mret (-1) else
      v ← rd64 pte;
      if has v PTE_V then kpanic "mappages: remap" else
      wr64 pte (Z.lor (Z.lor (PA2PTE pa) perm) PTE_V);;
      if a =? last then mret 0 else
      mappages_loop n' pagetable (u64 (a + PGSIZE)) last (u64 (pa + PGSIZE)) perm
  end.
Definition mappages (pagetable va size pa perm : Z) : M Z :=
  if negb (va mod PGSIZE =? 0) then kpanic "mappages: va not aligned" else
  if negb (size mod PGSIZE =? 0) then kpanic "mappages: size not aligned" else
  if size =? 0 then kpanic "mappages: size" else
  mappages_loop (Z.to_nat (size / PGSIZE)) pagetable va (u64 (va + size - PGSIZE)) pa perm.

(** ** The kernel's page table *)

Definition kvmmap (kpgtbl va pa sz perm : Z) : M unit :=
  r ← mappages kpgtbl va sz pa perm;
  if negb (r =? 0) then kpanic "kvmmap" else mret ().

Definition proc_mapstacks (kpgtbl : Z) : M unit :=
  for_each (seqZ 0 NPROC) (fun p =>
    pa ← kalloc;
    if pa =? 0 then kpanic "kalloc" else
    kvmmap kpgtbl (KSTACK p) pa PGSIZE (Z.lor PTE_R PTE_W)).

Definition kvmmake : M Z :=
  kpgtbl ← kalloc;
  kmemset kpgtbl 0 PGSIZE;;
  kvmmap kpgtbl UART0 UART0 PGSIZE (Z.lor PTE_R PTE_W);;
  kvmmap kpgtbl VIRTIO0 VIRTIO0 PGSIZE (Z.lor PTE_R PTE_W);;
  kvmmap kpgtbl PLIC PLIC 0x4000000 (Z.lor PTE_R PTE_W);;
  kvmmap kpgtbl KERNBASE KERNBASE (etext - KERNBASE) (Z.lor PTE_R PTE_X);;
  kvmmap kpgtbl etext etext (PHYSTOP - etext) (Z.lor PTE_R PTE_W);;
  kvmmap kpgtbl TRAMPOLINE trampoline PGSIZE (Z.lor PTE_R PTE_X);;
  proc_mapstacks kpgtbl;;
  mret kpgtbl.

Definition kvminit : M unit :=
  kpgtbl ← kvmmake;
  modify (set_kernel_pagetable kpgtbl).

Definition kvminithart : M unit :=
  modify (fun s => set_csr (set_satp (MAKE_SATP (kernel_pagetable s)) (csr s)) s).

(** ** User page tables *)

(** for(a = va; a < bound; a += PGSIZE) *)
Fixpoint uvmunmap_loop (n : nat) (pagetable a bound : Z) (do_free : bool) : M unit :=
  match n with
  | O => kspin
  | S n' =>
      if negb (a <? bound) then mret () else
      pte ← walk pagetable a false;
      if pte =? 0 then kpanic "uvmunmap: walk" else
      v ← rd64 pte;
      if negb (has v PTE_V) then kpanic "uvmunmap: not mapped" else
      if PTE_FLAGS v =? PTE_V then kpanic "uvmunmap: not a leaf" else
      when do_free (kfree (PTE2PA v));;
      wr64 pte 0;;
      uvmunmap_loop n' pagetable (u64 (a + PGSIZE)) bound do_free
  end.
Definition uvmunmap (pagetable va npages : Z) (do_free : bool) : M unit :=
  if negb (va mod PGSIZE =? 0) then kpanic "uvmunmap: not aligned" else
  let bound := u64 (va + u64 (npages * PGSIZE)) in
  uvmunmap_loop (Z.to_nat ((bound - va) / PGSIZE + 1)) pagetable va bound do_free.

Definition uvmcreate : M Z :=
  pagetable ← kalloc;
  if pagetable =? 0 then mret 0 else
  modify (upd_mem (fun m => memset m pagetable 0 PGSIZE));;
  mret pagetable.

Definition uvmfirst (pagetable : Z) (src : list Z) (sz : Z) : M unit :=
  if PGSIZE <=? sz then kpanic "uvmfirst: more than a page" else
  mem ← kalloc;
  kmemset mem 0 PGSIZE;;
  mappages pagetable 0 PGSIZE mem (Z.lor (Z.lor (Z.lor PTE_W PTE_R) PTE_X) PTE_U);;
  modify (upd_mem (fun m => st_bytes m mem (take (Z.to_nat sz) src))).

Definition uvmdealloc (pagetable oldsz newsz : Z) : M Z :=
  if oldsz <=? newsz then mret oldsz else
  when (PGROUNDUP newsz <? PGROUNDUP oldsz)
    (let npages := i32 ((PGROUNDUP oldsz - PGROUNDUP newsz) / PGSIZE) in
     uvmunmap pagetable (PGROUNDUP newsz) npages true);;
  mret newsz.

(** for(a = oldsz; a < newsz; a += PGSIZE) *)
Fixpoint uvmalloc_loop (n : nat) (pagetable oldsz a newsz xperm : Z) : M Z :=
  match n with
  | O => kspin
  | S n' =>
      if negb (a <? newsz) then mret newsz else
      mem ← kalloc;
      if mem =? 0 then uvmdealloc pagetable a oldsz;; mret 0 else
      modify (upd_mem (fun m => memset m mem 0 PGSIZE));;
      r ← mappages pagetable a PGSIZE mem (Z.lor (Z.lor PTE_R PTE_U) xperm);
      if negb (r =? 0) then
        kfree mem;;
        uvmdealloc pagetable a oldsz;;
        mret 0
      else uvmalloc_loop n' pagetable oldsz (u64 (a + PGSIZE)) newsz xperm
  end.
Definition uvmalloc (pagetable oldsz newsz xperm : Z) : M Z :=
  if newsz <? oldsz then mret oldsz else
  let oldsz := PGROUNDUP oldsz in
  uvmalloc_loop (Z.to_nat ((newsz - oldsz) / PGSIZE + 2)) pagetable oldsz oldsz newsz xperm.

(** [n] bounds the depth of the recursion, which is three on a page table;
    deeper recursion would run the kernel stack into its guard page. *)
Fixpoint freewalk_depth (n : nat) (pagetable : Z) : M unit :=
  match n with
  | O => kpanic "kerneltrap"
  | S n' =>
      for_each (seqZ 0 512) (fun i =>
        pte ← rd64 (pagetable + 8 * i);
        if has pte PTE_V && negb (has pte (Z.lor (Z.lor PTE_R PTE_W) PTE_X)) then
          freewalk_depth n' (PTE2PA pte);;
          wr64 (pagetable + 8 * i) 0
        else if has pte PTE_V then kpanic "freewalk: leaf"
        else mret ());;
      kfree pagetable
  end.
Definition freewalk (pagetable : Z) : M unit := freewalk_depth 8 pagetable.

Definition uvmfree (pagetable sz : Z) : M unit :=
  when (0 <? sz) (uvmunmap pagetable 0 (PGROUNDUP sz / PGSIZE) true);;
  freewalk pagetable.

(** for(i = 0; i < sz; i += PGSIZE) *)
Fixpoint uvmcopy_loop (n : nat) (old new i sz : Z) : M Z :=
  match n with
  | O => kspin
  | S n' =>
      if negb (i <? sz) then mret 0 else
      let err := uvmunmap new 0 (i / PGSIZE) true;; mret (-1) in
      pte ← walk old i false;
      if pte =? 0 then kpanic "uvmcopy: pte should exist" else
      v ← rd64 pte;
      if negb (has v PTE_V) then kpanic "uvmcopy: page not present" else
      let pa := PTE2PA v in
      let flags := PTE_FLAGS v in
      mem ← kalloc;
      if mem =? 0 then err else
      modify (upd_mem (fun m => memmove m mem pa PGSIZE));;
      r ← mappages new i PGSIZE mem flags;
      if negb (r =? 0) then kfree mem;; err
      else uvmcopy_loop n' old new (u64 (i + PGSIZE)) sz
  end.
Definition uvmcopy (old new sz : Z) : M Z :=
  uvmcopy_loop (Z.to_nat (sz / PGSIZE + 2)) old new 0 sz.

Definition uvmclear (pagetable va : Z) : M unit :=
  pte ← walk pagetable va false;
  if pte =? 0 then kpanic "uvmclear" else
  v ← rd64 pte;
  wr64 pte (Z.land v (u64 (Z.lnot PTE_U))).

(** ** Copying between kernel and user memory *)

(** while(len > 0), a page at a time. *)
Fixpoint copyout_loop (n : nat) (pagetable dstva : Z) (src : list Z) (len : Z) : M Z :=
  match n with
  | O => kspin
  | S n' =>
      if negb (0 <? len) then mret 0 else
      let va0 := PGROUNDDOWN dstva in
      if MAXVA <=? va0 then mret (-1) else
      pte ← walk pagetable va0 false;
      if pte =? 0 then mret (-1) else
      v ← rd64 pte;
      if negb (has v PTE_V) || negb (has v PTE_U) || negb (has v PTE_W) then mret (-1) else
      let pa0 := PTE2PA v in
      let k := Z.min (PGSIZE - (dstva - va0)) len in
      modify (upd_mem (fun m => st_bytes m (pa0 + (dstva - va0)) (take (Z.to_nat k) src)));;
      copyout_loop n' pagetable (va0 + PGSIZE) (drop (Z.to_nat k) src) (len - k)
  end.
Definition copyout (pagetable dstva : Z) (src : list Z) (len : Z) : M Z :=
  copyout_loop (Z.to_nat (len / PGSIZE + 3)) pagetable dstva src len.

Fixpoint copyin_loop (n : nat) (pagetable : Z) (dst : list Z) (srcva len : Z) : M (Z * list Z) :=
  match n with
  | O => kspin
  | S n' =>
      if negb (0 <? len) then mret (0, dst) else
      let va0 := PGROUNDDOWN srcva in
      pa0 ← walkaddr pagetable va0;
      if pa0 =? 0 then mret (-1, dst) else
      let k := Z.min (PGSIZE - (srcva - va0)) len in
      bs ← gets (fun s => ld_bytes (mem s) (pa0 + (srcva - va0)) (Z.to_nat k));
      copyin_loop n' pagetable (dst ++ bs) (va0 + PGSIZE) (len - k)
  end.
Definition copyin (pagetable srcva len : Z) : M (Z * list Z) :=
  copyin_loop (Z.to_nat (len / PGSIZE + 3)) pagetable [] srcva len.

(** while(n > 0) of [copyinstr]: the bytes up to the first NUL. *)
Fixpoint copy_str (bs : list Z) : bool * list Z :=
  match bs with
  | [] => (false, [])
  | c :: bs' =>
      if c =? 0 then (true, [0])
      else let '(got_null, out) := copy_str bs' in (got_null, c :: out)
  end.

Fixpoint copyinstr_loop (n : nat) (pagetable : Z) (dst : list Z) (srcva max : Z) :
    M (Z * list Z) :=
  match n with
  | O => kspin
  | S n' =>
      if negb (0 <? max) then mret (-1, dst) else
      let va0 := PGROUNDDOWN srcva in
      pa0 ← walkaddr pagetable va0;
      if pa0 =? 0 then mret (-1, dst) else
      let k := Z.min (PGSIZE - (srcva - va0)) max in
      bs ← gets (fun s => ld_bytes (mem s) (pa0 + (srcva - va0)) (Z.to_nat k));
      let '(got_null, out) := copy_str bs in
      if got_null : bool then mret (0, dst ++ out) else
      copyinstr_loop n' pagetable (dst ++ out) (va0 + PGSIZE) (max - k)
  end.
Definition copyinstr (pagetable srcva max : Z) : M (Z * list Z) :=
  copyinstr_loop (Z.to_nat (max / PGSIZE + 3)) pagetable [] srcva max.

End Vm.
