(* ===== verification/PageTable.v ===== *)
(** * Page tables as a data structure

    [pt_rep m T] says that memory [m] holds the three-level page table [T]: a
    map from index paths to table pages and a map from full paths to leaf
    entries.  The lemmas describe [walk] and [mappages] on such a table: what
    they return, how [T] grows, which pages they take from the free list and
    what they leave alone. *)

From stdpp Require Import base gmap strings numbers list.
From S2P Require Import Prelude KState StringC Spinlock Pages Sample Kalloc Vm.

Ltac Zify.zify_post_hook ::= Z.to_euclidean_division_equations.

(** ** States that differ in memory only *)

(** Memory, the free list head and the hart's [intena] may change. *)
Definition memstep (s s' : kstate) : Prop :=
  exists y f m, s' = set_syn y (set_freelist f (set_mem m s)) /\
    (y = syn s \/ y = touch (syn s)).

Lemma memstep_refl s : memstep s s.
Proof. exists (syn s), (freelist s), (mem s). split; [|by left]. by kext. Qed.

Lemma memstep_trans s1 s2 s3 : memstep s1 s2 -> memstep s2 s3 -> memstep s1 s3.
Proof.
  intros (y & f & m & -> & Hy) (y' & f' & m' & -> & Hy'). exists y', f', m'.
  split; [by kext|]. cbn in Hy'. destruct Hy as [->| ->], Hy' as [->| ->]; rewrite ?touch_touch; auto.
Qed.

Lemma memstep_mem s m : memstep s (set_mem m s).
Proof. exists (syn s), (freelist s), m. split; [|by left]. by kext. Qed.

Lemma memstep_syn s s' : memstep s s' -> syn s' = syn s \/ syn s' = touch (syn s).
Proof. by intros (y & f & m & -> & Hy). Qed.

Lemma memstep_wf s s' : memstep s s' -> cpu_wf (syn s) -> cpu_wf (syn s').
Proof. intros [-> | ->]%memstep_syn; auto with xv6. Qed.

Lemma memstep_lfree s s' l : memstep s s' -> lfree (syn s) l -> lfree (syn s') l.
Proof. intros [-> | ->]%memstep_syn; auto with xv6. Qed.
#[export] Hint Resolve memstep_refl memstep_mem memstep_wf memstep_lfree : xv6.
#[export] Instance memstep_preorder : PreOrder memstep.
Proof. split; [exact memstep_refl|exact memstep_trans]. Qed.

(** Only the pages [ps] may differ. *)
Definition in_page (p a : Z) : Prop := p <= a < p + PGSIZE.
Definition mem_frame (ps : list Z) (m m' : gmap Z Z) : Prop :=
  forall a, (forall p, p ∈ ps -> ~ in_page p a) -> ld8 m' a = ld8 m a.

Lemma mem_frame_refl ps m : mem_frame ps m m.
Proof. done. Qed.
Lemma mem_frame_trans ps m1 m2 m3 :
  mem_frame ps m1 m2 -> mem_frame ps m2 m3 -> mem_frame ps m1 m3.
Proof. intros H1 H2 a Ha. rewrite H2, H1 by done. done. Qed.
Lemma mem_frame_mono ps ps' m m' : ps ⊆ ps' -> mem_frame ps m m' -> mem_frame ps' m m'.
Proof. intros Hs H a Ha. apply H. intros p Hp. apply Ha. set_solver. Qed.
Lemma mem_frame_memset p c m : mem_frame [p] m (memset m p c PGSIZE).
Proof.
  intros a Ha. rewrite ld8_memset. case_decide as H; [|done].
  exfalso. apply (Ha p); [set_solver|done].
Qed.
Lemma mem_frame_st64 p a v m :
  p <= a -> a + 8 <= p + PGSIZE -> mem_frame [p] m (st64 m a v).
Proof.
  intros H1 H2 b Hb. apply ld8_st64_other. intros Hab. apply (Hb p); [set_solver|].
  unfold in_page. lia.
Qed.

(** Membership and inclusion of explicit lists, without looking at the context. *)
Ltac list_sub :=
  clear; first [intros ? | idtac]; rewrite ?elem_of_app, ?elem_of_cons, ?list_elem_of_singleton, ?elem_of_nil;
  tauto.

Ltac forall_list := repeat first [apply list.Forall_nil_2 | apply list.Forall_cons_2; [assumption|]].

(** ** Page tables *)

Record pgt : Type := mkpgt {
  pt_tabs : gmap (list Z) Z;
  pt_leaf : gmap (list Z) Z
}.

(** The word stored for an index path. *)
Definition pt_entry (T : pgt) (p : list Z) : Z :=
  if decide (length p = 3%nat) then default 0 (pt_leaf T !! p)
  else match pt_tabs T !! p with
       | Some pg => Z.lor (PA2PTE pg) PTE_V
       | None => 0
       end.

Definition leaf_ok (pte : Z) : Prop := 0 <= pte < 2 ^ 54 /\ has pte PTE_V = true.

Definition pt_path (va : Z) : list Z := [PX 2 va; PX 1 va; PX 0 va].

(** The address of the leaf entry for [va], 0 when its table is missing. *)
Definition pt_walk (T : pgt) (va : Z) : Z :=
  match pt_tabs T !! [PX 2 va; PX 1 va] with
  | Some pg => pg + 8 * PX 0 va
  | None => 0
  end.

Definition pt_tab_pages (T : pgt) : list Z := (map_to_list (pt_tabs T)).*2.

Definition add_tab (q : list Z) (pg : Z) (T : pgt) : pgt :=
  mkpgt (<[q := pg]> (pt_tabs T)) (pt_leaf T).
Definition set_leaf (va pte : Z) (T : pgt) : pgt :=
  mkpgt (pt_tabs T) (<[pt_path va := pte]> (pt_leaf T)).
Definition del_leaf (va : Z) (T : pgt) : pgt :=
  mkpgt (pt_tabs T) (delete (pt_path va) (pt_leaf T)).

Section PageTable.
Context {L : Layout}.

Record pt_rep (m : gmap Z Z) (T : pgt) : Prop := {
  rep_word p pg i : pt_tabs T !! p = Some pg -> 0 <= i < 512 ->
    ld64 m (pg + 8 * i) = pt_entry T (p ++ [i]);
  rep_page p pg : pt_tabs T !! p = Some pg -> page_ok pg /\ (length p <= 2)%nat;
  rep_parent p i : is_Some (pt_tabs T !! (p ++ [i])) -> is_Some (pt_tabs T !! p) /\ 0 <= i < 512;
  rep_leaf p pte : pt_leaf T !! p = Some pte ->
    leaf_ok pte /\ exists q i, p = q ++ [i] /\ length q = 2%nat /\ is_Some (pt_tabs T !! q) /\ 0 <= i < 512;
  rep_inj p q pg : pt_tabs T !! p = Some pg -> pt_tabs T !! q = Some pg -> p = q
}.

(** The allocator and one page table side by side. *)
Definition vm_ok (s : kstate) (l : list Z) (T : pgt) : Prop :=
  layout_ok /\ kmem_inv s l /\ pt_rep (mem s) T /\
  (forall p pg, pt_tabs T !! p = Some pg -> pg ∉ l) /\
  cpu_wf (syn s) /\ lfree (syn s) Lkmem.

(** ** Words and pages *)

Lemma has_0 f : has 0 f = false.
Proof. unfold has. by rewrite Z.land_0_l. Qed.

Lemma table_pte pg : layout_ok -> page_ok pg ->
  PTE2PA (Z.lor (PA2PTE pg) PTE_V) = pg /\ has (Z.lor (PA2PTE pg) PTE_V) PTE_V = true /\
  0 <= Z.lor (PA2PTE pg) PTE_V < 2 ^ 54.
Proof.
  intros HL Hp. pose proof (page_ok_pos _ HL Hp) as [Hb _]. destruct Hp as [Ha _].
  change PTE_V with 1. split_and!.
  - apply PTE2PA_make; done || lia.
  - unfold has. rewrite land_flags, PTE_FLAGS_make by lia. done.
  - rewrite PTE_make by lia. unfold PGSIZE. lia.
  - rewrite PTE_make by lia. unfold PGSIZE. lia.
Qed.

Lemma page_slot_in pg i a : 0 <= i < 512 -> pg + 8 * i <= a < pg + 8 * i + 8 -> in_page pg a.
Proof. unfold in_page, PGSIZE. lia. Qed.

Lemma page_ok_disj p q a : page_ok p -> page_ok q -> in_page p a -> in_page q a -> p = q.
Proof.
  intros [Hp _] [Hq _] H1 H2. destruct (decide (p = q)) as [|Hne]; [done|].
  destruct (aligned_sep p q Hp Hq Hne); unfold in_page in *; lia.
Qed.

Lemma page_apart p q : page_ok p -> page_ok q -> p <> q -> p + 4096 <= q \/ q + 4096 <= p.
Proof. intros [Hp _] [Hq _]. by apply aligned_sep. Qed.

(** A word of a page outside the frame is unchanged. *)
Lemma frame_word ps m m' pg i :
  mem_frame ps m m' -> Forall page_ok ps -> page_ok pg -> pg ∉ ps -> 0 <= i < 512 ->
  ld64 m' (pg + 8 * i) = ld64 m (pg + 8 * i).
Proof.
  intros Hf Hps Hpg Hnin Hi. apply ld64_ext. intros a Ha. apply Hf. intros p Hp Hin.
  rewrite list.Forall_forall in Hps. apply Hnin.
  rewrite (page_ok_disj pg p a); try done; [by apply Hps|]. by eapply page_slot_in.
Qed.

Lemma fl_frame ps m m' h l :
  mem_frame ps m m' -> Forall page_ok ps -> Forall page_ok l -> (forall p, p ∈ ps -> p ∉ l) ->
  fl_rep m h l -> fl_rep m' h l.
Proof.
  intros Hf Hps Hl Hd. apply fl_rep_frame. intros q a Hq Ha. symmetry. apply Hf.
  intros p Hp Hin. rewrite list.Forall_forall in Hps, Hl. apply (Hd p Hp).
  rewrite (page_ok_disj p q a); auto. unfold in_page, PGSIZE. lia.
Qed.

Lemma path_snoc_ne (p : list Z) i : p <> p ++ [i].
Proof. intros H. apply (f_equal length) in H. rewrite length_app in H. cbn in H. lia. Qed.

(** Linking in a zeroed table page. *)
Lemma pt_rep_add_tab m m' T q pg i p :
  layout_ok -> pt_rep m T -> pt_tabs T !! q = Some pg -> (length q <= 1)%nat -> 0 <= i < 512 ->
  pt_tabs T !! (q ++ [i]) = None -> page_ok p ->
  (forall r pg', pt_tabs T !! r = Some pg' -> pg' <> p) ->
  (forall r pg' j, pt_tabs T !! r = Some pg' -> 0 <= j < 512 -> (r, j) <> (q, i) ->
     ld64 m' (pg' + 8 * j) = ld64 m (pg' + 8 * j)) ->
  ld64 m' (pg + 8 * i) = Z.lor (PA2PTE p) PTE_V ->
  (forall j, 0 <= j < 512 -> ld64 m' (p + 8 * j) = 0) ->
  pt_rep m' (add_tab (q ++ [i]) p T).
Proof.
  intros HL HT Hq Hlen Hi Hnone Hp Hfresh Hsame Hlink Hzero.
  assert (Hent : forall r, r <> q ++ [i] -> pt_entry (add_tab (q ++ [i]) p T) r = pt_entry T r).
  { intros r Hr. unfold pt_entry. cbn. case_decide; [done|]. by rewrite lookup_insert_ne. }
  assert (Hl1 : length (q ++ [i]) = S (length q)) by (rewrite length_app; cbn; lia).
  split.
  - intros r pg' j Hr Hj. cbn in Hr. apply lookup_insert_Some in Hr as [[<- <-]|[Hne Hr]].
    + rewrite Hzero by done. rewrite Hent by (symmetry; apply path_snoc_ne). unfold pt_entry.
      case_decide as Hd.
      * destruct (pt_leaf T !! _) as [pte|] eqn:Hleaf; [|done].
        destruct (rep_leaf _ _ HT _ _ Hleaf) as (_ & q' & k & Heq & _ & [x Hx] & _).
        apply app_inj_2 in Heq as [<- _]; [|done]. congruence.
      * destruct (pt_tabs T !! ((q ++ [i]) ++ [j])) eqn:Ht; [|done].
        destruct (rep_parent _ _ HT (q ++ [i]) j) as [[x Hx] _]; [eauto|]. congruence.
    + destruct (decide ((r, j) = (q, i))) as [[= -> ->]|Hrj].
      * rewrite Hq in Hr. injection Hr as <-. rewrite Hlink. unfold pt_entry. cbn.
        rewrite decide_False by lia. by rewrite lookup_insert_eq.
      * rewrite (Hsame r) by done. rewrite (rep_word _ _ HT _ _ _ Hr Hj), Hent; [done|].
        intros Heq. apply app_inj_2 in Heq as [-> [= ->]]; done.
  - intros r pg' Hr. cbn in Hr. apply lookup_insert_Some in Hr as [[<- <-]|[Hne Hr]].
    + split; [done|lia].
    + by apply (rep_page _ _ HT).
  - intros r j [x Hr]. cbn in Hr |- *. apply lookup_insert_Some in Hr as [[Heq <-]|[Hne Hr]].
    + apply app_inj_2 in Heq as [<- [= <-]]; [|done]. split; [|done].
      rewrite lookup_insert_ne; [by eauto|]. symmetry. apply path_snoc_ne.
    + destruct (rep_parent _ _ HT r j) as [Hr' Hj]; [eauto|]. split; [|done].
      destruct (decide (q ++ [i] = r)) as [<-|]; [by rewrite lookup_insert_eq; eauto|].
      by rewrite lookup_insert_ne.
  - intros r pte Hr. cbn in Hr. destruct (rep_leaf _ _ HT _ _ Hr) as (Hok & q' & k & -> & Hl & Hs & Hk).
    split; [done|]. exists q', k. split_and!; try done; try lia. cbn.
    destruct (decide (q ++ [i] = q')) as [<-|]; [by rewrite lookup_insert_eq; eauto|].
    by rewrite lookup_insert_ne.
  - intros r1 r2 pg' H1 H2. cbn in H1, H2.
    apply lookup_insert_Some in H1 as [[<- <-]|[Hn1 H1]];
      apply lookup_insert_Some in H2 as [[<- ?]|[Hn2 H2]]; subst; try done.
    + by apply Hfresh in H2.
    + by apply Hfresh in H1.
    + by apply (rep_inj _ _ HT _ _ pg').
Qed.

(** ** [walk] *)

(** Reading a table entry on the way down. *)
Lemma inner_entry m T q pg i :
  layout_ok -> pt_rep m T -> pt_tabs T !! q = Some pg -> (length q <= 1)%nat -> 0 <= i < 512 ->
  match pt_tabs T !! (q ++ [i]) with
  | Some pg' => has (ld64 m (pg + 8 * i)) PTE_V = true /\ PTE2PA (ld64 m (pg + 8 * i)) = pg'
  | None => has (ld64 m (pg + 8 * i)) PTE_V = false
  end.
Proof.
  intros HL HT Hq Hlen Hi. rewrite (rep_word _ _ HT _ _ _ Hq Hi). unfold pt_entry.
  rewrite decide_False by (rewrite length_app; cbn; lia).
  destruct (pt_tabs T !! (q ++ [i])) as [pg'|] eqn:Ht; [|apply has_0].
  destruct (table_pte pg' HL) as (-> & -> & _); [|done]. by apply (rep_page _ _ HT _ _ Ht).
Qed.

Lemma walk_noalloc T root va s e :
  layout_ok -> pt_rep (mem s) T -> pt_tabs T !! [] = Some root -> 0 <= va < MAXVA ->
  walk root va false s e = Ok (pt_walk T va) s e.
Proof.
  intros HL HT Hroot Hva. unfold walk. destruct (Z.leb_spec MAXVA va); [lia|].
  cbn [walk_levels]. unfold rd64, pt_walk. kpure. cbn [negb].
  pose proof (inner_entry _ _ _ _ _ HL HT Hroot ltac:(cbn; lia) (PX_range 2 va ltac:(lia))) as H2.
  cbn [app] in H2. destruct (pt_tabs T !! [PX 2 va]) as [pg|] eqn:Hpg.
  - destruct H2 as [-> ->]. kpure.
    pose proof (inner_entry _ _ _ _ _ HL HT Hpg ltac:(cbn; lia) (PX_range 1 va ltac:(lia))) as H1.
    cbn [app] in H1. destruct (pt_tabs T !! [PX 2 va; PX 1 va]) as [pg'|].
    + destruct H1 as [-> ->]. done.
    + by rewrite H1.
  - rewrite H2. destruct (pt_tabs T !! [PX 2 va; PX 1 va]) as [pg'|] eqn:H1; [|done].
    destruct (rep_parent _ _ HT [PX 2 va] (PX 1 va)) as [[x Hx] _]; [by eauto|]. congruence.
Qed.

(** The word [walk] points to. *)
Lemma walk_entry m T va pg :
  pt_rep m T -> pt_tabs T !! [PX 2 va; PX 1 va] = Some pg ->
  ld64 m (pt_walk T va) = default 0 (pt_leaf T !! pt_path va).
Proof.
  intros HT Hpg. unfold pt_walk. rewrite Hpg.
  rewrite (rep_word _ _ HT _ _ _ Hpg (PX_range 0 va ltac:(lia))). done.
Qed.

Lemma pt_walk_pos m T va pg :
  layout_ok -> pt_rep m T -> pt_tabs T !! [PX 2 va; PX 1 va] = Some pg -> 0 < pt_walk T va.
Proof.
  intros HL HT Hpg. unfold pt_walk. rewrite Hpg. pose proof (PX_range 0 va ltac:(lia)).
  destruct (rep_page _ _ HT _ _ Hpg) as [Hok _]. pose proof (page_ok_pos _ HL Hok). lia.
Qed.

Lemma leaf_tab m T va pte :
  pt_rep m T -> pt_leaf T !! pt_path va = Some pte ->
  exists pg, pt_tabs T !! [PX 2 va; PX 1 va] = Some pg.
Proof.
  intros HT Hl. destruct (rep_leaf _ _ HT _ _ Hl) as (_ & q & i & Heq & Hlen & Hs & _).
  change (pt_path va) with ([PX 2 va; PX 1 va] ++ [PX 0 va]) in Heq.
  apply app_inj_2 in Heq as [<- _]; [|done]. destruct Hs as [pg Hpg]. eauto.
Qed.

Lemma tab_page_in T p pg : pt_tabs T !! p = Some pg -> pg ∈ pt_tab_pages T.
Proof.
  intros H. unfold pt_tab_pages. apply list_elem_of_fmap. exists (p, pg). split; [done|].
  by apply elem_of_map_to_list.
Qed.

Lemma tab_pages_ok m T : pt_rep m T -> Forall page_ok (pt_tab_pages T).
Proof.
  intros HT. apply list.Forall_forall. intros pg Hpg. unfold pt_tab_pages in Hpg.
  apply list_elem_of_fmap in Hpg as ([p pg'] & -> & Hp). apply elem_of_map_to_list in Hp.
  by apply (rep_page _ _ HT _ _ Hp).
Qed.

Lemma tab_pages_add q pg T :
  pt_tabs T !! q = None -> pt_tab_pages (add_tab q pg T) ≡ₚ pg :: pt_tab_pages T.
Proof. intros H. unfold pt_tab_pages. cbn. by rewrite map_to_list_insert. Qed.

(** One level of [walk] with [alloc]: descend, fail, or link in a page from
    the free list. *)
Lemma walk_level_alloc level levels T q pg va s l e :
  vm_ok s l T -> pt_tabs T !! q = Some pg -> (length q <= 1)%nat -> 0 <= level ->
  match pt_tabs T !! (q ++ [PX level va]), l with
  | Some pg', _ =>
      walk_levels (level :: levels) pg va true s e = walk_levels levels pg' va true s e
  | None, [] =>
      walk_levels (level :: levels) pg va true s e = Ok 0 (set_syn (touch (syn s)) s) e
  | None, p :: l' => exists s',
      walk_levels (level :: levels) pg va true s e = walk_levels levels p va true s' e /\
      memstep s s' /\ vm_ok s' l' (add_tab (q ++ [PX level va]) p T) /\
      mem_frame [p; pg] (mem s) (mem s')
  end.
Proof.
  intros (HL & Hk & HT & Hdisj & Hwf & Hlk) Hq Hlen Hlev. set (i := PX level va).
  assert (Hi : 0 <= i < 512) by (by apply PX_range).
  pose proof (inner_entry _ _ _ _ _ HL HT Hq Hlen Hi) as He.
  cbn [walk_levels]. unfold rd64. kpure. fold i.
  destruct (pt_tabs T !! (q ++ [i])) as [pg'|] eqn:Hqi; [by destruct He as [-> ->]|].
  rewrite He. cbn [negb]. destruct l as [|p l'].
  { kstep ltac:(by apply kalloc_empty). done. }
  destruct Hk as (Hrep & Hnd & Hok). pose proof Hok as Hok'. inversion_clear Hok' as [|? ? Hp _].
  pose proof (page_ok_pos _ HL Hp) as Hpos. pose proof (conj Hrep (conj Hnd Hok)) as Hk.
  kstep ltac:(by apply (kalloc_run p l')).
  destruct (Z.eqb_spec p 0); [lia|]. unfold wr64. kpure. set (s' := upd_mem _ _).
  assert (Hpg : page_ok pg) by (by apply (rep_page _ _ HT _ _ Hq)).
  assert (Hne : pg <> p) by (intros ->; apply (Hdisj _ _ Hq); apply elem_of_cons; tauto).
  assert (Hmem : mem s' = st64 (memset (memset (mem s) p 5 PGSIZE) p 0 PGSIZE) (pg + 8 * i)
    (Z.lor (PA2PTE p) PTE_V)) by done.
  assert (Hflist : freelist s' = ld64 (mem s) p) by done.
  assert (Hms : memstep s s').
  { exists (touch (syn s)), (ld64 (mem s) p), (mem s'). split; [by kext|by right]. }
  assert (Hfr : mem_frame [p; pg] (mem s) (mem s')).
  { rewrite Hmem. eapply mem_frame_trans; [|eapply mem_frame_mono; [|apply (mem_frame_st64 pg)]];
      [|list_sub|lia|unfold PGSIZE; lia].
    eapply mem_frame_trans; (eapply mem_frame_mono; [|apply (mem_frame_memset p)]); list_sub. }
  exists s'. split; [reflexivity|]. split; [exact Hms|]. split; [|exact Hfr].
  pose proof (kalloced_inv _ _ _ Hk) as (Hr' & Hnd' & Hok'). apply NoDup_cons in Hnd as [Hnin _].
  clearbody s'.
  split_and!; [exact HL|split_and!|..|by eapply memstep_wf|by eapply memstep_lfree].
  - rewrite Hflist. refine (fl_frame [p; pg] (mem s) _ _ _ Hfr _ Hok' _ (proj2 Hrep)); [forall_list|].
    intros x Hx. apply elem_of_cons in Hx as [->|Hx]; [done|].
    apply list_elem_of_singleton in Hx as ->. intros Hin. apply (Hdisj _ _ Hq). apply elem_of_cons; tauto.
  - exact Hnd'.
  - exact Hok'.
  - refine (pt_rep_add_tab (mem s) _ _ _ pg _ _ HL HT Hq Hlen Hi Hqi Hp _ _ _ _).
    + intros r pg' Hr ->. apply (Hdisj _ _ Hr). apply elem_of_cons; tauto.
    + intros r pg' j Hr Hj Hrj. assert (Hpg' : page_ok pg') by (by apply (rep_page _ _ HT _ _ Hr)).
      assert (Hpn : pg' <> p) by (intros ->; apply (Hdisj _ _ Hr); apply elem_of_cons; tauto).
      rewrite Hmem, ld64_st64_other.
      * rewrite !ld64_memset_other; [reflexivity|..];
          destruct (page_apart _ _ Hpg' Hp Hpn); unfold PGSIZE; lia.
      * destruct (decide (pg' = pg)) as [->|Hn].
        -- assert (r = q) as -> by (eapply (rep_inj _ _ HT); eassumption). assert (j <> i) by congruence. lia.
        -- destruct (page_apart _ _ Hpg' Hpg Hn); lia.
    + rewrite Hmem, ld64_st64. apply Z.mod_small. destruct (table_pte p HL Hp) as (_ & _ & H). lia.
    + intros j Hj. rewrite Hmem, ld64_st64_other.
      * apply ld64_memset_0; unfold PGSIZE; lia.
      * destruct (page_apart _ _ Hpg Hp Hne); lia.
  - intros r pg' Hr. cbn in Hr. apply lookup_insert_Some in Hr as [[<- <-]|[_ Hr]]; [done|].
    intros Hin. apply (Hdisj _ _ Hr). apply elem_of_cons; tauto.
Qed.

(** Growth of a page table: new tables are taken from the free list, and only
    table pages and formerly free pages are written. *)
Record grows (s : kstate) (l : list Z) (T : pgt) (s' : kstate) (l' : list Z) (T' : pgt) : Prop := {
  gr_step : memstep s s';
  gr_ok : vm_ok s' l' T';
  gr_tabs : pt_tabs T ⊆ pt_tabs T';
  gr_pages : pt_tab_pages T' ++ l' ≡ₚ pt_tab_pages T ++ l;
  gr_frame : mem_frame (pt_tab_pages T ++ l) (mem s) (mem s')
}.

Lemma vm_ok_touch s l T : vm_ok s l T -> vm_ok (set_syn (touch (syn s)) s) l T.
Proof. intros (HL & Hk & HT & Hd & Hwf & Hlk). exact (conj HL (conj Hk (conj HT (conj Hd (conj (cpu_wf_touch _ Hwf) Hlk))))). Qed.

Lemma memstep_touch s : memstep s (set_syn (touch (syn s)) s).
Proof. exists (touch (syn s)), (freelist s), (mem s). split; [by kext|by right]. Qed.

Lemma grows_refl s l T : vm_ok s l T -> grows s l T s l T.
Proof. intros. by split. Qed.

Lemma grows_touch s l T : vm_ok s l T -> grows s l T (set_syn (touch (syn s)) s) l T.
Proof. intros. split; try done; [apply memstep_touch|by apply vm_ok_touch]. Qed.

Lemma grows_trans s1 l1 T1 s2 l2 T2 s3 l3 T3 :
  grows s1 l1 T1 s2 l2 T2 -> grows s2 l2 T2 s3 l3 T3 -> grows s1 l1 T1 s3 l3 T3.
Proof.
  intros [A1 A2 A4 A5 A6] [B1 B2 B4 B5 B6]. split.
  - by etransitivity.
  - done.
  - by etransitivity.
  - by rewrite B5.
  - eapply mem_frame_trans; [done|]. eapply mem_frame_mono; [|done].
    intros x Hx. by rewrite A5 in Hx.
Qed.

Lemma grows_add s l T s' p l' q pg :
  vm_ok s (p :: l') T -> pt_tabs T !! q = None -> pg ∈ pt_tab_pages T -> l = p :: l' ->
  memstep s s' -> vm_ok s' l' (add_tab q p T) -> mem_frame [p; pg] (mem s) (mem s') ->
  grows s l T s' l' (add_tab q p T).
Proof.
  intros Hok Hq Hpg -> Hms Hok' Hfr. split; try done.
  - cbn. by apply insert_subseteq.
  - rewrite tab_pages_add by done. apply (Permutation_middle _ _ p).
  - eapply mem_frame_mono; [|done]. intros x. rewrite !elem_of_cons, elem_of_app, elem_of_cons, elem_of_nil.
    intros [->|[->|[]]]; auto.
Qed.

Lemma walk_level_grows level levels T q pg va s l e :
  vm_ok s l T -> pt_tabs T !! q = Some pg -> (length q <= 1)%nat -> 0 <= level ->
  exists s' l' T', grows s l T s' l' T' /\ pt_leaf T' = pt_leaf T /\
   (length l <= S (length l'))%nat /\
   ((l = [] /\ l' = [] /\ walk_levels (level :: levels) pg va true s e = Ok 0 s' e) \/
    exists pg', pt_tabs T' !! (q ++ [PX level va]) = Some pg' /\
      walk_levels (level :: levels) pg va true s e = walk_levels levels pg' va true s' e).
Proof.
  intros Hok Hq Hlen Hlev.
  pose proof (walk_level_alloc level levels T q pg va s l e Hok Hq Hlen Hlev) as H.
  destruct (pt_tabs T !! (q ++ [PX level va])) as [pg'|] eqn:Hqi; [|destruct l as [|p l']].
  - exists s, l, T. split; [by apply grows_refl|]. split; [done|]. split; [lia|].
    right. exists pg'. split; [exact Hqi|exact H].
  - exists (set_syn (touch (syn s)) s), [], T. split; [by apply grows_touch|]. split; [done|]. split; [cbn; lia|].
    left. split_and!; [done|done|exact H].
  - destruct H as (s' & Hw & Hms & Hok' & Hfr).
    exists s', l', (add_tab (q ++ [PX level va]) p T). split.
    + eapply (grows_add s _ T s' p l' _ pg); try eassumption; [|reflexivity]. by eapply tab_page_in.
    + split; [done|]. split; [cbn; lia|]. right. exists p. split; [|exact Hw]. cbn. apply lookup_insert_eq.
Qed.

Lemma walk_alloc T root va s l e :
  vm_ok s l T -> pt_tabs T !! [] = Some root -> 0 <= va < MAXVA ->
  exists s' l' T' r, grows s l T s' l' T' /\ pt_leaf T' = pt_leaf T /\ walk root va true s e = Ok r s' e /\
    (length l <= length l' + 2)%nat /\
    ((l' = [] /\ r = 0 /\ (length l < 2)%nat) \/ (r = pt_walk T' va /\ is_Some (pt_tabs T' !! [PX 2 va; PX 1 va]))).
Proof.
  intros Hok Hroot Hva. unfold walk. destruct (Z.leb_spec MAXVA va); [lia|].
  destruct (walk_level_grows 2 [1] T [] root va s l e Hok Hroot) as (s1 & l1 & T1 & G1 & E1 & N1 & H1);
    [cbn; lia|lia|].
  destruct H1 as [(-> & -> & H1)|(pg1 & Hpg1 & H1)].
  { exists s1, [], T1, 0. split_and!; [exact G1|exact E1|exact H1|cbn; lia|left; cbn; split_and!; done || lia]. }
  destruct (walk_level_grows 1 [] T1 [PX 2 va] pg1 va s1 l1 e (gr_ok _ _ _ _ _ _ G1) Hpg1)
    as (s2 & l2 & T2 & G2 & E2 & N2 & H2); [cbn; lia|lia|].
  pose proof (grows_trans _ _ _ _ _ _ _ _ _ G1 G2) as G.
  destruct H2 as [(-> & -> & H2)|(pg2 & Hpg2 & H2)].
  { exists s2, [], T2, 0. cbn in N1. split_and!; [exact G|congruence|by rewrite H1|lia|left; split_and!; done || lia]. }
  exists s2, l2, T2, (pg2 + 8 * PX 0 va). split; [exact G|]. split; [congruence|]. split; [by rewrite H1, H2|].
  split; [lia|].
  right. cbn [app] in Hpg2. unfold pt_walk. rewrite Hpg2. eauto.
Qed.

(** ** Leaf entries *)

Lemma pt_path_app va : pt_path va = [PX 2 va; PX 1 va] ++ [PX 0 va].
Proof. done. Qed.

(** Writing through the pointer [walk] returns. *)
Lemma pt_rep_write_leaf m T va pg v lf :
  layout_ok -> pt_rep m T -> pt_tabs T !! [PX 2 va; PX 1 va] = Some pg ->
  (forall p, p <> pt_path va -> lf !! p = pt_leaf T !! p) ->
  match lf !! pt_path va with Some pte => pte = v /\ leaf_ok v | None => v = 0 end ->
  pt_rep (st64 m (pt_walk T va) v) (mkpgt (pt_tabs T) lf).
Proof.
  intros HL HT Hpg Hlf Hv. pose proof (PX_range 0 va ltac:(lia)) as Hi.
  assert (Hw : pt_walk T va = pg + 8 * PX 0 va) by (unfold pt_walk; by rewrite Hpg).
  split; cbn [pt_tabs pt_leaf].
  - intros p pg' j Hp Hj. rewrite Hw. unfold pt_entry. cbn [pt_tabs pt_leaf].
    destruct (decide (p ++ [j] = pt_path va)) as [Heq|Hne].
    + rewrite pt_path_app in Heq. apply app_inj_2 in Heq as [-> [= ->]]; [|done].
      rewrite Hpg in Hp. injection Hp as <-. rewrite ld64_st64, <- pt_path_app.
      rewrite decide_True by done.
      destruct (lf !! pt_path va) as [pte|].
      * destruct Hv as [-> [[Hv0 Hv1] _]]. cbn. apply Z.mod_small. lia.
      * by rewrite Hv.
    + rewrite ld64_st64_other, (rep_word _ _ HT _ _ _ Hp Hj).
      * unfold pt_entry. case_decide; [|done]. by rewrite Hlf.
      * destruct (decide (pg' = pg)) as [->|Hn].
        -- assert (p = [PX 2 va; PX 1 va]) as -> by (eapply (rep_inj _ _ HT); eassumption).
           assert (j <> PX 0 va) by (intros ->; by apply Hne). lia.
        -- destruct (page_apart pg' pg (proj1 (rep_page _ _ HT _ _ Hp))
             (proj1 (rep_page _ _ HT _ _ Hpg)) Hn); lia.
  - apply (rep_page _ _ HT).
  - apply (rep_parent _ _ HT).
  - intros p pte Hp. destruct (decide (p = pt_path va)) as [->|Hne].
    + rewrite Hp in Hv. destruct Hv as [-> Hv]. split; [done|].
      exists [PX 2 va; PX 1 va], (PX 0 va). split_and!; [done|done|eauto|lia..].
    + rewrite Hlf in Hp by done. by apply (rep_leaf _ _ HT).
  - apply (rep_inj _ _ HT).
Qed.

(** The entry is in one of the table's pages. *)
Lemma mem_frame_leaf m T va pg v :
  pt_tabs T !! [PX 2 va; PX 1 va] = Some pg ->
  mem_frame (pt_tab_pages T) m (st64 m (pt_walk T va) v).
Proof.
  intros Hpg. unfold pt_walk. rewrite Hpg. pose proof (PX_range 0 va ltac:(lia)).
  eapply mem_frame_mono; [|apply (mem_frame_st64 pg); unfold PGSIZE; lia].
  intros x ->%list_elem_of_singleton. by eapply tab_page_in.
Qed.

Lemma tab_disj s l T : vm_ok s l T -> forall p, p ∈ pt_tab_pages T -> p ∉ l.
Proof.
  intros (_ & _ & _ & Hd & _) pg Hpg. unfold pt_tab_pages in Hpg.
  apply list_elem_of_fmap in Hpg as ([p pg'] & -> & Hp). apply elem_of_map_to_list in Hp.
  by eapply Hd.
Qed.

Lemma kmem_frame ps s l m :
  mem_frame ps (mem s) m -> Forall page_ok ps -> (forall p, p ∈ ps -> p ∉ l) ->
  kmem_inv s l -> kmem_inv (set_mem m s) l.
Proof.
  intros Hf Hps Hd (Hr & Hn & Ho). split; [|split; [exact Hn|exact Ho]].
  exact (fl_frame ps (mem s) m _ _ Hf Hps Ho Hd Hr).
Qed.

(** Writing a leaf entry. *)
Lemma grows_leaf s l T va pg v lf :
  vm_ok s l T -> pt_tabs T !! [PX 2 va; PX 1 va] = Some pg ->
  (forall p, p <> pt_path va -> lf !! p = pt_leaf T !! p) ->
  match lf !! pt_path va with Some pte => pte = v /\ leaf_ok v | None => v = 0 end ->
  grows s l T (upd_mem (fun m => st64 m (pt_walk T va) v) s) l (mkpgt (pt_tabs T) lf).
Proof.
  intros Hok Hpg Hlf Hv. pose proof (tab_disj _ _ _ Hok) as Htd.
  destruct Hok as (HL & Hk & HT & Hd & Hwf & Hlk).
  pose proof (mem_frame_leaf (mem s) T va pg v Hpg) as Hfr.
  unfold upd_mem. split.
  - apply memstep_mem.
  - refine (conj HL (conj _ (conj _ (conj Hd (conj Hwf Hlk))))).
    + exact (kmem_frame _ _ _ _ Hfr (tab_pages_ok _ _ HT) Htd Hk).
    + exact (pt_rep_write_leaf _ _ _ _ _ _ HL HT Hpg Hlf Hv).
  - done.
  - done.
  - eapply mem_frame_mono; [|exact Hfr]. intros x Hx. apply elem_of_app. by left.
Qed.

(** ** [walkaddr] *)

Definition pt_translate (T : pgt) (va : Z) : Z :=
  match pt_leaf T !! pt_path va with
  | Some pte => if has pte PTE_U then PTE2PA pte else 0
  | None => 0
  end.

Lemma walkaddr_run T root va s e :
  layout_ok -> pt_rep (mem s) T -> pt_tabs T !! [] = Some root -> 0 <= va < MAXVA ->
  walkaddr root va s e = Ok (pt_translate T va) s e.
Proof.
  intros HL HT Hroot Hva. unfold walkaddr. destruct (Z.leb_spec MAXVA va); [lia|].
  kstep ltac:(by apply (walk_noalloc T)). unfold pt_translate.
  destruct (pt_tabs T !! [PX 2 va; PX 1 va]) as [pg|] eqn:Hpg.
  - pose proof (pt_walk_pos _ _ _ _ HL HT Hpg). destruct (Z.eqb_spec (pt_walk T va) 0); [lia|].
    unfold rd64. kpure. rewrite (walk_entry _ _ _ _ HT Hpg).
    destruct (pt_leaf T !! pt_path va) as [pte|] eqn:Hl; cbn [from_option id].
    + destruct (rep_leaf _ _ HT _ _ Hl) as ((_ & ->) & _). cbn [negb].
      by destruct (has pte PTE_U).
    + by rewrite has_0.
  - unfold pt_walk. rewrite Hpg. cbn. destruct (pt_leaf T !! pt_path va) as [pte|] eqn:Hl; [|done].
    destruct (leaf_tab _ _ _ _ HT Hl). congruence.
Qed.

(** ** [mappages] *)

Definition mk_pte (pa perm : Z) : Z := Z.lor (Z.lor (PA2PTE pa) perm) PTE_V.

Lemma lor_lt a b k : 0 <= k -> 0 <= a < 2 ^ k -> 0 <= b < 2 ^ k -> 0 <= Z.lor a b < 2 ^ k.
Proof.
  intros Hk Ha Hb. split; [apply Z.lor_nonneg; lia|].
  destruct (decide (Z.lor a b = 0)) as [->|Hz]; [lia|].
  apply Z.log2_lt_pow2; [pose proof (proj2 (Z.lor_nonneg a b)); lia|].
  rewrite Z.log2_lor by lia.
  assert (forall x, 0 <= x < 2 ^ k -> 0 < k -> Z.log2 x < k).
  { intros x Hx Hk0. destruct (decide (x = 0)) as [->|]; [cbn; lia|]. apply Z.log2_lt_pow2; lia. }
  destruct (decide (k = 0)) as [->|].
  { assert (a = 0) as -> by lia. assert (b = 0) as -> by lia. done. }
  apply Z.max_lub_lt; auto with lia.
Qed.

Lemma mk_pte_spec pa perm : 0 <= pa < 2 ^ 56 -> aligned pa -> 0 <= perm < 1024 ->
  leaf_ok (mk_pte pa perm) /\ PTE2PA (mk_pte pa perm) = pa /\
  PTE_FLAGS (mk_pte pa perm) = Z.lor perm PTE_V.
Proof.
  intros Hpa Ha Hperm. unfold mk_pte. rewrite <- Z.lor_assoc. change PTE_V with 1.
  assert (Hf : 0 <= Z.lor perm 1 < 1024) by (apply (lor_lt _ _ 10); lia).
  split_and!.
  - split; [|change PTE_V with 1; unfold has]. { rewrite PTE_make by lia. unfold PGSIZE. lia. }
    rewrite land_flags, PTE_FLAGS_make by lia.
    rewrite Z.land_comm, Z.lor_comm, Z.land_lor_distr_r. change (Z.land 1 1) with 1.
    rewrite (proj2 (Z.eqb_neq _ _)); [done|]. intros H%Z.lor_eq_0_iff. lia.
  - by apply PTE2PA_make.
  - by apply PTE_FLAGS_make.
Qed.

Fixpoint map_range (n : nat) (a pa perm : Z) (lf : gmap (list Z) Z) : gmap (list Z) Z :=
  match n with
  | O => lf
  | S n' => map_range n' (a + PGSIZE) (pa + PGSIZE) perm (<[pt_path a := mk_pte pa perm]> lf)
  end.

Lemma pt_path_inj va va' : 0 <= va < MAXVA -> 0 <= va' < MAXVA -> aligned va -> aligned va' ->
  pt_path va = pt_path va' -> va = va'.
Proof. intros ? ? ? ? [= H2 H1 H0]. by apply PX_inj. Qed.

Lemma map_range_other n a pa perm lf va :
  0 <= a -> a + Z.of_nat n * PGSIZE <= MAXVA -> aligned a -> 0 <= va < MAXVA -> aligned va ->
  ~ (a <= va < a + Z.of_nat n * PGSIZE) ->
  map_range n a pa perm lf !! pt_path va = lf !! pt_path va.
Proof.
  revert a pa lf. induction n as [|n IH]; intros a pa lf Ha Hb Hal Hva Hval Hout; [done|].
  cbn [map_range]. unfold PGSIZE in *. rewrite IH; unfold aligned, PGSIZE in *; try lia.
  apply lookup_insert_ne. intros Heq%pt_path_inj; unfold aligned, PGSIZE in *; lia.
Qed.

Lemma map_range_in n a pa perm lf k :
  0 <= a -> a + Z.of_nat n * PGSIZE <= MAXVA -> aligned a -> 0 <= k < Z.of_nat n ->
  map_range n a pa perm lf !! pt_path (a + k * PGSIZE) = Some (mk_pte (pa + k * PGSIZE) perm).
Proof.
  revert a pa lf k. induction n as [|n IH]; intros a pa lf k Ha Hb Hal Hk; [lia|].
  cbn [map_range]. destruct (decide (k = 0)) as [->|Hk0].
  - rewrite map_range_other; unfold aligned, PGSIZE in *; try lia.
    rewrite !Z.add_0_r. by rewrite lookup_insert_eq.
  - replace (a + k * PGSIZE) with (a + PGSIZE + (k - 1) * PGSIZE) by lia.
    replace (pa + k * PGSIZE) with (pa + PGSIZE + (k - 1) * PGSIZE) by lia.
    apply IH; unfold aligned, PGSIZE in *; lia.
Qed.

(** One round: out of memory, or the entry is written. *)
Lemma mappages_round n T root a last pa perm s l e :
  vm_ok s l T -> pt_tabs T !! [] = Some root -> 0 <= a < MAXVA ->
  0 <= pa < 2 ^ 56 -> aligned pa -> 0 <= perm < 1024 -> pt_leaf T !! pt_path a = None ->
  exists s' l' T', grows s l T s' l' T' /\
    (length l <= length l' + 2)%nat /\
    ((l' = [] /\ (length l < 2)%nat /\ pt_leaf T' = pt_leaf T /\
      mappages_loop (S n) root a last pa perm s e = Ok (-1) s' e) \/
     (pt_leaf T' = <[pt_path a := mk_pte pa perm]> (pt_leaf T) /\
      mappages_loop (S n) root a last pa perm s e =
        (if a =? last then mret 0 else
         mappages_loop n root (u64 (a + PGSIZE)) last (u64 (pa + PGSIZE)) perm) s' e)).
Proof.
  intros Hok Hroot Ha Hpa Hpal Hperm Hnone.
  destruct (walk_alloc T root a s l e Hok Hroot Ha) as (s1 & l1 & T1 & r & G1 & E1 & Hw & Hn & Hr).
  cbn [mappages_loop]. kstep_with Hw. destruct Hr as [(-> & -> & Hl2)|[-> [pg Hpg]]].
  { exists s1, [], T1. split; [exact G1|]. split; [done|]. left. split_and!; [done|done|exact E1|done]. }
  pose proof (gr_ok _ _ _ _ _ _ G1) as Hok1. pose proof Hok1 as (HL & _ & HT1 & _).
  pose proof (pt_walk_pos _ _ _ _ HL HT1 Hpg). destruct (Z.eqb_spec (pt_walk T1 a) 0); [lia|].
  unfold rd64, wr64. kpure. rewrite (walk_entry _ _ _ _ HT1 Hpg), E1, Hnone.
  change (default 0 None) with 0. rewrite has_0. kpure.
  set (T2 := mkpgt (pt_tabs T1) (<[pt_path a := mk_pte pa perm]> (pt_leaf T))).
  exists (upd_mem (fun m => st64 m (pt_walk T1 a) (mk_pte pa perm)) s1), l1, T2. split.
  - eapply grows_trans; [exact G1|]. apply (grows_leaf _ _ _ _ pg); [exact Hok1|exact Hpg|..].
    + intros p Hp. rewrite lookup_insert_ne by done. by rewrite E1.
    + rewrite lookup_insert_eq. split; [done|]. by apply mk_pte_spec.
  - split; [exact Hn|]. right. split; [done|]. reflexivity.
Qed.

Lemma mappages_loop_run n T root a pa perm s l e :
  vm_ok s l T -> pt_tabs T !! [] = Some root ->
  0 <= a -> a + Z.of_nat (S n) * PGSIZE <= MAXVA -> aligned a ->
  0 <= pa -> pa + Z.of_nat (S n) * PGSIZE <= 2 ^ 56 -> aligned pa -> 0 <= perm < 1024 ->
  (forall k, 0 <= k < Z.of_nat (S n) -> pt_leaf T !! pt_path (a + k * PGSIZE) = None) ->
  exists s' l' T' r, grows s l T s' l' T' /\
    mappages_loop (S n) root a (a + Z.of_nat n * PGSIZE) pa perm s e = Ok r s' e /\
    ((r = 0 /\ (length l <= length l' + 2 * S n)%nat /\ pt_leaf T' = map_range (S n) a pa perm (pt_leaf T)) \/
     (r = -1 /\ l' = [] /\ (length l < 2 * S n)%nat /\ exists k, (k <= n)%nat /\ pt_leaf T' = map_range k a pa perm (pt_leaf T))).
Proof.
  revert T a pa s l. induction n as [|n IH];
    intros T a pa s l Hok Hroot Ha Hb Hal Hpa Hpb Hpal Hperm Hfree;
    (assert (H0 : pt_leaf T !! pt_path a = None) by (rewrite <- (Hfree 0) by lia; do 2 f_equal; lia)).
  - destruct (mappages_round 0 T root a (a + Z.of_nat 0 * PGSIZE) pa perm s l e Hok Hroot)
      as (s1 & l1 & T1 & G1 & N1 & H1); [unfold PGSIZE in *; lia..|done|done|done|].
    exists s1, l1, T1. destruct H1 as [(-> & N1' & E1 & Hr)|(E1 & Hr)].
    + exists (-1). split_and!; [exact G1|exact Hr|]. right. split_and!; [done|done|lia|]. by exists 0%nat.
    + rewrite (proj2 (Z.eqb_eq _ _)) in Hr by lia. exists 0. split_and!; [exact G1|exact Hr|left; split_and!; done || lia].
  - destruct (mappages_round (S n) T root a (a + Z.of_nat (S n) * PGSIZE) pa perm s l e Hok Hroot)
      as (s1 & l1 & T1 & G1 & N1 & H1); [unfold PGSIZE in *; lia..|done|done|done|].
    destruct H1 as [(-> & N1' & E1 & Hr)|(E1 & Hr)].
    { exists s1, [], T1, (-1). split_and!; [exact G1|exact Hr|]. right. split_and!; [done|done|lia|].
      exists 0%nat. split; [lia|done]. }
    rewrite (proj2 (Z.eqb_neq _ _)) in Hr by (unfold PGSIZE; lia).
    assert (Hu : u64 (a + PGSIZE) = a + PGSIZE /\ u64 (pa + PGSIZE) = pa + PGSIZE).
    { change MAXVA with (2 ^ 38) in Hb. unfold u64. rewrite !Z.mod_small; unfold PGSIZE in *; lia. }
    destruct Hu as [Hu1 Hu2]. rewrite Hu1, Hu2 in Hr.
    destruct (IH T1 (a + PGSIZE) (pa + PGSIZE) s1 l1) as (s2 & l2 & T2 & r & G2 & Hr2 & H2);
      try (unfold aligned, PGSIZE in *; lia).
    + exact (gr_ok _ _ _ _ _ _ G1).
    + eapply lookup_weaken; [exact Hroot|exact (gr_tabs _ _ _ _ _ _ G1)].
    + intros k Hk. rewrite E1, lookup_insert_ne.
      * rewrite <- (Hfree (k + 1)) by lia. do 2 f_equal. lia.
      * intros Heq%pt_path_inj; unfold aligned, PGSIZE in *; lia.
    + replace (a + PGSIZE + Z.of_nat n * PGSIZE) with (a + Z.of_nat (S n) * PGSIZE) in Hr2 by lia.
      exists s2, l2, T2, r. split_and!; [by eapply grows_trans|by rewrite Hr|].
      destruct H2 as [(-> & N2 & E2)|(-> & -> & N2 & k & Hk & E2)].
      * left. split_and!; [done|lia|]. by rewrite E2, E1.
      * right. split_and!; [done|done|lia|]. exists (S k). split; [lia|]. by rewrite E2, E1.
Qed.

Lemma mappages_run n T root va pa perm s l e :
  vm_ok s l T -> pt_tabs T !! [] = Some root ->
  0 <= va -> va + Z.of_nat (S n) * PGSIZE <= MAXVA -> aligned va ->
  0 <= pa -> pa + Z.of_nat (S n) * PGSIZE <= 2 ^ 56 -> aligned pa -> 0 <= perm < 1024 ->
  (forall k, 0 <= k < Z.of_nat (S n) -> pt_leaf T !! pt_path (va + k * PGSIZE) = None) ->
  exists s' l' T' r, grows s l T s' l' T' /\
    mappages root va (Z.of_nat (S n) * PGSIZE) pa perm s e = Ok r s' e /\
    ((r = 0 /\ (length l <= length l' + 2 * S n)%nat /\ pt_leaf T' = map_range (S n) va pa perm (pt_leaf T)) \/
     (r = -1 /\ l' = [] /\ (length l < 2 * S n)%nat /\ exists k, (k <= n)%nat /\ pt_leaf T' = map_range k va pa perm (pt_leaf T))).
Proof.
  intros Hok Hroot Ha Hb Hal Hpa Hpb Hpal Hperm Hfree.
  destruct (mappages_loop_run n T root va pa perm s l e Hok Hroot Ha Hb Hal Hpa Hpb Hpal Hperm Hfree)
    as (s' & l' & T' & r & G & Hr & Hc).
  exists s', l', T', r. split_and!; [exact G| |exact Hc]. unfold mappages.
  rewrite (proj2 (Z.eqb_eq (va mod PGSIZE) 0)) by exact Hal.
  rewrite (proj2 (Z.eqb_eq (_ * PGSIZE mod PGSIZE) 0)) by (unfold PGSIZE; lia).
  rewrite (proj2 (Z.eqb_neq (_ * PGSIZE) 0)) by (unfold PGSIZE; lia). cbn [negb].
  replace (Z.to_nat (Z.of_nat (S n) * PGSIZE / PGSIZE)) with (S n) by (unfold PGSIZE; lia).
  replace (u64 (va + Z.of_nat (S n) * PGSIZE - PGSIZE)) with (va + Z.of_nat n * PGSIZE); [exact Hr|].
  change MAXVA with (2 ^ 38) in Hb. unfold u64. rewrite Z.mod_small; unfold PGSIZE in *; lia.
Qed.


(** ** Creation *)

Definition pt_empty (root : Z) : pgt := mkpgt {[ [] := root ]} ∅.

Lemma pt_rep_empty m root :
  page_ok root -> (forall i, 0 <= i < 512 -> ld64 m (root + 8 * i) = 0) -> pt_rep m (pt_empty root).
Proof.
  intros Hok Hz. split; cbn.
  - intros p pg i Hp Hi. apply lookup_singleton_Some in Hp as [<- <-]. rewrite Hz by done.
    unfold pt_entry. cbn [app pt_tabs pt_empty]. rewrite decide_False by done.
    by rewrite lookup_singleton_ne.
  - intros p pg Hp. apply lookup_singleton_Some in Hp as [<- <-]. split; [done|cbn; lia].
  - intros p i [x Hp]. apply lookup_singleton_Some in Hp as [Hp _]. by destruct p.
  - intros p pte Hp. by rewrite lookup_empty in Hp.
  - intros p q pg Hp Hq. apply lookup_singleton_Some in Hp as [<- _], Hq as [<- _]. done.
Qed.

Lemma kalloc_zeroed p l s e :
  layout_ok -> kmem_inv s (p :: l) -> cpu_wf (syn s) -> lfree (syn s) Lkmem ->
  let s' := upd_mem (fun m => memset m p 0 PGSIZE) (kalloced p s) in
  kalloc s e = Ok p (kalloced p s) e /\ 0 < p /\ page_ok p /\ memstep s s' /\ kmem_inv s' l /\ p ∉ l /\
  mem_frame [p] (mem s) (mem s') /\
  (forall a, in_page p a -> ld8 (mem s') a = 0) /\
  (forall i, 0 <= i < 512 -> ld64 (mem s') (p + 8 * i) = 0).
Proof.
  intros HL Hk Hwf Hlk s'. pose proof (kalloced_inv _ _ _ Hk) as Hk'.
  pose proof Hk as (_ & Hnd & Hok). apply NoDup_cons in Hnd as [Hnin _].
  inversion_clear Hok as [|? ? Hp _]. pose proof (page_ok_pos _ HL Hp).
  assert (Hm : mem s' = memset (memset (mem s) p 5 PGSIZE) p 0 PGSIZE) by reflexivity.
  split; [exact (kalloc_run p l s e HL Hk Hwf Hlk)|]. split_and!; [lia|exact Hp|..].
  - exists (touch (syn s)), (ld64 (mem s) p), (mem s'). split; [by kext|by right].
  - refine (kmem_frame [p] (kalloced p s) l _ _ _ _ Hk').
    + apply mem_frame_memset.
    + forall_list.
    + intros x ->%list_elem_of_singleton. exact Hnin.
  - exact Hnin.
  - rewrite Hm. eapply mem_frame_trans; apply mem_frame_memset.
  - intros a Ha. rewrite Hm, ld8_memset. case_decide; [done|]. by destruct H0.
  - intros i Hi. rewrite Hm. apply ld64_memset_0; unfold PGSIZE; lia.
Qed.

Lemma uvmcreate_run p l s e :
  layout_ok -> kmem_inv s (p :: l) -> cpu_wf (syn s) -> lfree (syn s) Lkmem ->
  exists s', uvmcreate s e = Ok p s' e /\ memstep s s' /\ vm_ok s' l (pt_empty p) /\
    mem_frame [p] (mem s) (mem s').
Proof.
  intros HL Hk Hwf Hlk.
  destruct (kalloc_zeroed p l s e HL Hk Hwf Hlk) as (Hr & Hp & Hok & Hms & Hk' & Hnin & Hfr & _ & Hz).
  eexists. split; [|split; [exact Hms|split; [|exact Hfr]]].
  - unfold uvmcreate. kstep_with Hr. destruct (Z.eqb_spec p 0); [lia|]. kpure. reflexivity.
  - refine (conj HL (conj Hk' (conj (pt_rep_empty _ _ Hok Hz) (conj _ (conj _ _))))).
    + intros q pg Hq. cbn [pt_tabs pt_empty] in Hq. apply lookup_singleton_Some in Hq as [_ <-]. exact Hnin.
    + eapply memstep_wf; eassumption.
    + eapply memstep_lfree; eassumption.
Qed.

(** ** Properties *)

Lemma has_mk_pte pa perm f : 0 <= pa < 2 ^ 56 -> 0 <= perm < 1024 -> 0 <= f < 1024 ->
  Z.land 1 f = 0 -> has (mk_pte pa perm) f = has perm f.
Proof.
  intros Hpa Hperm Hf H1. unfold has, mk_pte. rewrite <- Z.lor_assoc.
  rewrite land_flags, PTE_FLAGS_make by (done || apply (lor_lt _ _ 10); done || lia).
  rewrite Z.land_lor_distr_l. change PTE_V with 1. by rewrite H1, Z.lor_0_r.
Qed.

(** C15 [mappages] on any well-formed page table and any aligned, still unmapped
    range below [MAXVA]: it does not panic; it returns -1 only when the free
    list has run empty, which takes fewer than two free pages per page mapped; after 0 every page of the range translates to its
    physical page (for user access exactly if [perm] allows it); every address
    outside the range translates as before; and the tables it added came from
    the free list, one page each. *)
Theorem mappages_translates n T root va pa perm s l e :
  vm_ok s l T -> pt_tabs T !! [] = Some root ->
  0 <= va -> va + Z.of_nat (S n) * PGSIZE <= MAXVA -> aligned va ->
  0 <= pa -> pa + Z.of_nat (S n) * PGSIZE <= 2 ^ 56 -> aligned pa -> 0 <= perm < 1024 ->
  (forall k, 0 <= k < Z.of_nat (S n) -> pt_leaf T !! pt_path (va + k * PGSIZE) = None) ->
  exists s' l' T' r, mappages root va (Z.of_nat (S n) * PGSIZE) pa perm s e = Ok r s' e /\
    vm_ok s' l' T' /\ pt_tab_pages T' ++ l' ≡ₚ pt_tab_pages T ++ l /\
    (r = 0 \/ r = -1 /\ l' = [] /\ (length l < 2 * S n)%nat) /\
    (r = 0 -> forall k, 0 <= k < Z.of_nat (S n) ->
       walkaddr root (va + k * PGSIZE) s' e =
         Ok (if has perm PTE_U then pa + k * PGSIZE else 0) s' e) /\
    (forall va', 0 <= va' < MAXVA -> aligned va' -> ~ (va <= va' < va + Z.of_nat (S n) * PGSIZE) ->
       exists x, walkaddr root va' s e = Ok x s e /\ walkaddr root va' s' e = Ok x s' e).
Proof.
  intros Hok Hroot Ha Hb Hal Hpa Hpb Hpal Hperm Hfree.
  destruct (mappages_run n T root va pa perm s l e Hok Hroot Ha Hb Hal Hpa Hpb Hpal Hperm Hfree)
    as (s' & l' & T' & r & G & Hr & Hc).
  exists s', l', T', r. pose proof (gr_ok _ _ _ _ _ _ G) as Hok'.
  assert (Hroot' : pt_tabs T' !! [] = Some root)
    by (eapply lookup_weaken; [exact Hroot|exact (gr_tabs _ _ _ _ _ _ G)]).
  pose proof Hok as (HL & _ & HT & _). pose proof Hok' as (_ & _ & HT' & _).
  split_and!; [exact Hr|exact Hok'|exact (gr_pages _ _ _ _ _ _ G)|naive_solver|..].
  - intros -> k Hk. destruct Hc as [(_ & _ & E)|[? _]]; [|done].
    rewrite (walkaddr_run T') by (done || unfold PGSIZE in *; lia). unfold pt_translate.
    rewrite E, map_range_in by done.
    rewrite has_mk_pte by (done || unfold PGSIZE in *; lia).
    destruct (has perm PTE_U); [|done]. f_equal.
    apply mk_pte_spec; unfold aligned, PGSIZE in *; lia.
  - intros va' Hva' Hal' Hout. exists (pt_translate T va').
    rewrite (walkaddr_run T), (walkaddr_run T') by done. split; [done|]. f_equal.
    unfold pt_translate. destruct Hc as [(_ & _ & E)|(_ & _ & _ & k & Hk & E)]; rewrite E.
    + rewrite map_range_other by done. done.
    + rewrite map_range_other; unfold PGSIZE in *; done || lia.
Qed.

End PageTable.

Lemma mappages_translates_witness :
  exists s s' l' T' r, mappages (sample_page 0) 0 (Z.of_nat 2 * PGSIZE)
      KERNBASE (Z.lor PTE_R PTE_U) s [] = Ok r s' [] /\ vm_ok (L := sample_layout) s' l' T'.
Proof.
  destruct (uvmcreate_run (L := sample_layout) (sample_page 0) (sample_page <$> [1; 2; 3; 4; 5; 6; 7])
    sample_free []) as (s & _ & _ & Hok & _).
  - apply sample_layout_ok.
  - apply sample_free_inv.
  - apply sample_free_wf.
  - apply sample_free_lfree, sample_lockids_elem. exact I.
  - destruct (mappages_translates (L := sample_layout) 1 (pt_empty (sample_page 0)) (sample_page 0)
      0 KERNBASE (Z.lor PTE_R PTE_U) s (sample_page <$> [1; 2; 3; 4; 5; 6; 7]) [])
      as (s' & l' & T' & r & Hr & Hok' & _).
    + exact Hok.
    + reflexivity.
    + lia.
    + vm_compute. congruence.
    + reflexivity.
    + vm_compute. congruence.
    + vm_compute. congruence.
    + reflexivity.
    + split; vm_compute; congruence.
    + reflexivity.
    + exists s, s', l', T', r. split; [exact Hr|exact Hok'].
Defined.
