(* ===== verification/UserVm.v ===== *)
(** * Unmapping and freeing page tables

    What [uvmunmap] and [freewalk] do to a page table and to the free list. *)

From stdpp Require Import base gmap strings numbers list.
From S2P Require Import Prelude KState StringC Spinlock Pages Sample Kalloc Vm PageTable.

Ltac Zify.zify_post_hook ::= Z.to_euclidean_division_equations.

Section UserVm.
Context {L : Layout}.

(** ** Unmapping *)

Fixpoint unmap_range (n : nat) (a : Z) (lf : gmap (list Z) Z) : gmap (list Z) Z :=
  match n with
  | O => lf
  | S n' => unmap_range n' (a + PGSIZE) (delete (pt_path a) lf)
  end.

Lemma unmap_range_other n a lf va :
  0 <= a -> a + Z.of_nat n * PGSIZE <= MAXVA -> aligned a -> 0 <= va < MAXVA -> aligned va ->
  ~ (a <= va < a + Z.of_nat n * PGSIZE) ->
  unmap_range n a lf !! pt_path va = lf !! pt_path va.
Proof.
  revert a lf. induction n as [|n IH]; intros a lf Ha Hb Hal Hva Hval Hout; [done|].
  cbn [unmap_range]. rewrite IH; unfold aligned, PGSIZE in *; try lia.
  apply lookup_delete_ne. intros Heq%pt_path_inj; unfold aligned, PGSIZE in *; lia.
Qed.

Lemma unmap_range_in n a lf va :
  0 <= a -> a + Z.of_nat n * PGSIZE <= MAXVA -> aligned a -> aligned va ->
  a <= va < a + Z.of_nat n * PGSIZE ->
  unmap_range n a lf !! pt_path va = None.
Proof.
  revert a lf. induction n as [|n IH]; intros a lf Ha Hb Hal Hval Hin; [lia|].
  cbn [unmap_range]. destruct (decide (va = a)) as [->|Hne].
  - rewrite unmap_range_other; unfold aligned, PGSIZE in *; try lia. apply lookup_delete_eq.
  - apply IH; unfold aligned, PGSIZE in *; lia.
Qed.

Lemma unmap_range_sub n a lf p : is_Some (unmap_range n a lf !! p) -> is_Some (lf !! p).
Proof.
  revert a lf. induction n as [|n IH]; intros a lf; [done|]. cbn [unmap_range]. intros H%IH.
  destruct H as [x Hx]. apply lookup_delete_Some in Hx as [_ Hx]. eauto.
Qed.

(** A mapping whose page may be given back. *)
Definition maps (T : pgt) (va f : Z) : Prop :=
  exists pte, pt_leaf T !! pt_path va = Some pte /\ PTE2PA pte = f /\ PTE_FLAGS pte <> PTE_V /\
    page_ok f.

Lemma mem_frame_freed pa s : mem_frame [pa] (mem s) (mem (freed pa s)).
Proof. intros a Ha. apply ld8_freed_mem. apply (Ha pa). by left. Qed.

Lemma memstep_freed pa s : memstep s (freed pa s).
Proof. exists (touch (syn s)), pa, (mem (freed pa s)). split; [by kext|by right]. Qed.

Lemma freed_vm pa s l T :
  vm_ok s l T -> page_ok pa -> pa ∉ l -> pa ∉ pt_tab_pages T ->
  vm_ok (freed pa s) (pa :: l) T /\ memstep s (freed pa s) /\
  mem_frame [pa] (mem s) (mem (freed pa s)).
Proof.
  intros (HL & Hk & HT & Hd & Hwf & Hlk) Hp Hnl Hnt.
  pose proof (mem_frame_freed pa s) as Hfr. pose proof (memstep_freed pa s) as Hms.
  split; [|split; [exact Hms|exact Hfr]].
  refine (conj HL (conj (freed_inv _ _ _ HL Hp Hnl Hk) (conj _ (conj _ (conj _ _))))).
  - split; try apply HT. intros p pg i Hpg Hi. rewrite <- (rep_word _ _ HT _ _ _ Hpg Hi).
    refine (frame_word [pa] _ _ _ _ Hfr _ (proj1 (rep_page _ _ HT _ _ Hpg)) _ Hi); [forall_list|].
    intros ->%list_elem_of_singleton. apply Hnt. by eapply tab_page_in.
  - intros p pg Hpg. apply not_elem_of_cons. split; [|by eapply Hd].
    intros ->. apply Hnt. by eapply tab_page_in.
  - eapply memstep_wf; eassumption.
  - eapply memstep_lfree; eassumption.
Qed.

(** One round of [uvmunmap] with [do_free]. *)
Lemma uvmunmap_round n T root a bound f s l e :
  vm_ok s l T -> pt_tabs T !! [] = Some root -> 0 <= a < MAXVA -> a < bound ->
  maps T a f -> f ∉ l -> f ∉ pt_tab_pages T ->
  exists s', uvmunmap_loop (S n) root a bound true s e =
      uvmunmap_loop n root (u64 (a + PGSIZE)) bound true s' e /\
    vm_ok s' (f :: l) (mkpgt (pt_tabs T) (delete (pt_path a) (pt_leaf T))) /\ memstep s s' /\
    mem_frame (f :: pt_tab_pages T) (mem s) (mem s').
Proof.
  intros Hok Hroot Ha Hb (pte & Hl & Hpa & Hfl & Hf) Hnl Hnt.
  pose proof Hok as (HL & _ & HT & _ & Hwf & Hlk). destruct (leaf_tab _ _ _ _ HT Hl) as [pg Hpg].
  destruct (freed_vm f s l T Hok Hf Hnl Hnt) as (Hok1 & Hms1 & Hfr1).
  pose proof (walk_entry _ _ _ _ HT Hpg) as Hw. rewrite Hl in Hw. cbn in Hw.
  pose proof (pt_walk_pos _ _ _ _ HL HT Hpg) as Hpos.
  destruct (rep_leaf _ _ HT _ _ Hl) as ((_ & HV) & _).
  set (lf := delete (pt_path a) (pt_leaf T)).
  assert (G : grows (freed f s) (f :: l) T
    (upd_mem (fun m => st64 m (pt_walk T a) 0) (freed f s)) (f :: l) (mkpgt (pt_tabs T) lf)).
  { apply (grows_leaf _ _ _ _ pg); [exact Hok1|exact Hpg|..]; unfold lf.
    - intros p Hp. by rewrite lookup_delete_ne.
    - by rewrite lookup_delete_eq. }
  exists (upd_mem (fun m => st64 m (pt_walk T a) 0) (freed f s)). split_and!.
  - cbn [uvmunmap_loop]. rewrite (proj2 (Z.ltb_lt _ _)) by done. cbn [negb].
    kstep ltac:(by apply (walk_noalloc T)). rewrite (proj2 (Z.eqb_neq _ _)) by lia.
    unfold rd64, wr64. kpure. rewrite Hw, HV. cbn [negb].
    rewrite (proj2 (Z.eqb_neq (PTE_FLAGS pte) PTE_V)) by done. cbn [when]. rewrite Hpa.
    kstep ltac:(by apply kfree_run). kpure. reflexivity.
  - exact (gr_ok _ _ _ _ _ _ G).
  - etransitivity; [exact Hms1|exact (gr_step _ _ _ _ _ _ G)].
  - eapply mem_frame_trans.
    + eapply mem_frame_mono; [|exact Hfr1]. intros x ->%list_elem_of_singleton. by left.
    + eapply mem_frame_mono; [|exact (mem_frame_leaf _ T a pg 0 Hpg)]. intros x Hx. by right.
Qed.

Lemma uvmunmap_loop_run fs k T root a s l e :
  vm_ok s l T -> pt_tabs T !! [] = Some root -> 0 <= a -> aligned a ->
  a + Z.of_nat (length fs) * PGSIZE <= MAXVA -> (length fs < k)%nat ->
  (forall j f, fs !! j = Some f -> maps T (a + Z.of_nat j * PGSIZE) f) ->
  NoDup (fs ++ pt_tab_pages T ++ l) ->
  exists s', uvmunmap_loop k root a (a + Z.of_nat (length fs) * PGSIZE) true s e = Ok () s' e /\
    vm_ok s' (reverse fs ++ l) (mkpgt (pt_tabs T) (unmap_range (length fs) a (pt_leaf T))) /\
    memstep s s' /\ mem_frame (fs ++ pt_tab_pages T) (mem s) (mem s').
Proof.
  revert k T a s l. induction fs as [|f fs IH]; intros k T a s l Hok Hroot Ha Hal Hb Hk Hm Hnd.
  - exists s. destruct k as [|k]; [cbn in Hk; lia|]. cbn [uvmunmap_loop length].
    rewrite (proj2 (Z.ltb_ge _ _)) by lia. cbn [negb]. split_and!; [done|by destruct T|reflexivity|done].
  - destruct k as [|k]; [cbn in Hk; lia|]. cbn [length] in *.
    cbn [app] in Hnd. apply NoDup_cons in Hnd as [Hnin Hnd].
    rewrite !not_elem_of_app in Hnin. destruct Hnin as (Hn1 & Hn2 & Hn3).
    destruct (uvmunmap_round k T root a (a + Z.of_nat (S (length fs)) * PGSIZE) f s l e)
      as (s1 & Hr1 & Hok1 & Hms1 & Hfr1); try done; try (unfold PGSIZE in *; lia).
    { specialize (Hm 0%nat f eq_refl). by rewrite Z.add_0_r in Hm. }
    destruct (IH k (mkpgt (pt_tabs T) (delete (pt_path a) (pt_leaf T))) (a + PGSIZE) s1 (f :: l))
      as (s2 & Hr2 & Hok2 & Hms2 & Hfr2); try done; try (unfold aligned, PGSIZE in *; lia).
    { intros j f' Hj. assert (Hlt : (j < length fs)%nat) by (by eapply lookup_lt_Some).
      destruct (Hm (S j) f' Hj) as (pte & Hl & Hpte). exists pte. split; [|done]. cbn [pt_leaf].
      rewrite lookup_delete_ne; [rewrite <- Hl; do 2 f_equal; lia|].
      intros Heq%pt_path_inj; unfold aligned, PGSIZE in *; lia. }
    { unfold pt_tab_pages in *. cbn [pt_tabs]. rewrite app_assoc, <- Permutation_middle, <- app_assoc.
      apply NoDup_cons. split; [|done]. by rewrite !not_elem_of_app. }
    exists s2. rewrite Hr1. assert (Hu : u64 (a + PGSIZE) = a + PGSIZE).
    { change MAXVA with (2 ^ 38) in Hb. unfold u64. apply Z.mod_small. unfold PGSIZE in *. lia. }
    rewrite Hu. replace (a + Z.of_nat (S (length fs)) * PGSIZE)
      with (a + PGSIZE + Z.of_nat (length fs) * PGSIZE) by lia.
    split_and!; [exact Hr2| |by etransitivity|].
    + rewrite reverse_cons, <- app_assoc. exact Hok2.
    + eapply mem_frame_trans; (eapply mem_frame_mono; [|eassumption]); intros x.
      * clear. rewrite elem_of_app, !elem_of_cons. tauto.
      * clear. unfold pt_tab_pages. cbn [pt_tabs]. rewrite !elem_of_app, !elem_of_cons. tauto.
Qed.

Lemma uvmunmap_run fs T root va n s l e :
  vm_ok s l T -> pt_tabs T !! [] = Some root -> 0 <= va -> aligned va ->
  n = Z.of_nat (length fs) -> va + n * PGSIZE <= MAXVA ->
  (forall j f, fs !! j = Some f -> maps T (va + Z.of_nat j * PGSIZE) f) ->
  NoDup (fs ++ pt_tab_pages T ++ l) ->
  exists s', uvmunmap root va n true s e = Ok () s' e /\
    vm_ok s' (reverse fs ++ l) (mkpgt (pt_tabs T) (unmap_range (length fs) va (pt_leaf T))) /\
    memstep s s' /\ mem_frame (fs ++ pt_tab_pages T) (mem s) (mem s').
Proof.
  intros Hok Hroot Ha Hal -> Hb Hm Hnd. unfold uvmunmap.
  rewrite (proj2 (Z.eqb_eq _ _)) by exact Hal. cbn [negb].
  assert (Hu : u64 (va + u64 (Z.of_nat (length fs) * PGSIZE)) = va + Z.of_nat (length fs) * PGSIZE).
  { change MAXVA with (2 ^ 38) in Hb. unfold u64. rewrite !Z.mod_small; unfold PGSIZE in *; lia. }
  rewrite Hu. apply uvmunmap_loop_run; try done. unfold PGSIZE. lia.
Qed.

(** ** Freeing the tables *)

(** The table pages from the node [q] down, [d] levels below it. *)
Fixpoint sub_pages (d : nat) (T : pgt) (q : list Z) : list Z :=
  match pt_tabs T !! q with
  | None => []
  | Some pg =>
      pg :: match d with
            | O => []
            | S d' => seqZ 0 512 ≫= (fun i => sub_pages d' T (q ++ [i]))
            end
  end.

(** The part of a page table from [q] down is in memory. *)
Definition sub_rep (m : gmap Z Z) (T : pgt) (q : list Z) : Prop :=
  forall r pg i, pt_tabs T !! (q ++ r) = Some pg -> 0 <= i < 512 ->
    ld64 m (pg + 8 * i) = pt_entry T ((q ++ r) ++ [i]).

Lemma sub_pages_tab d T q pg : pg ∈ sub_pages d T q -> exists r, pt_tabs T !! (q ++ r) = Some pg.
Proof.
  revert q. induction d as [|d IH]; intros q; cbn [sub_pages];
    (destruct (pt_tabs T !! q) as [pg0|] eqn:Hq; [|by intros ?%elem_of_nil]);
    (intros [->|Hin]%elem_of_cons; [by exists []; rewrite app_nil_r|]).
  - by apply elem_of_nil in Hin.
  - apply list_elem_of_bind in Hin as (i & Hin & _). destruct (IH _ Hin) as [r Hr].
    exists (i :: r). by rewrite <- app_assoc in Hr.
Qed.

Lemma sub_pages_in d T q r pg m :
  pt_rep m T -> pt_tabs T !! (q ++ r) = Some pg -> (length r <= d)%nat -> pg ∈ sub_pages d T q.
Proof.
  intros HT. revert d q. induction r as [|i r IH]; intros d q Hr Hlen.
  - rewrite app_nil_r in Hr. destruct d; cbn [sub_pages]; rewrite Hr; by left.
  - assert (Hi : is_Some (pt_tabs T !! (q ++ [i])) -> is_Some (pt_tabs T !! q) /\ 0 <= i < 512)
      by apply (rep_parent _ _ HT).
    assert (Hpre : forall r' q', is_Some (pt_tabs T !! (q' ++ r')) -> is_Some (pt_tabs T !! q')).
    { intros r'. induction r' as [|j r' IHr] using rev_ind; intros q' Hs.
      - by rewrite app_nil_r in Hs.
      - rewrite app_assoc in Hs. apply (rep_parent _ _ HT) in Hs as [Hs _]. by apply IHr. }
    rewrite cons_middle, app_assoc in Hr.
    destruct Hi as [[pg0 Hpg0] Hi]; [by apply (Hpre r); eauto|].
    destruct d as [|d]; [cbn in Hlen; lia|]. cbn [sub_pages]. rewrite Hpg0. right.
    apply list_elem_of_bind. exists i. split; [|by apply elem_of_seqZ].
    apply IH; [exact Hr|cbn in Hlen; lia].
Qed.

Lemma sub_pages_all m T : pt_rep m T -> forall pg, pg ∈ sub_pages 2 T [] <-> pg ∈ pt_tab_pages T.
Proof.
  intros HT pg. split.
  - intros [r Hr]%sub_pages_tab. by eapply tab_page_in.
  - intros Hpg. unfold pt_tab_pages in Hpg. apply list_elem_of_fmap in Hpg as ([p pg'] & -> & Hp).
    apply elem_of_map_to_list in Hp. eapply (sub_pages_in 2 T [] p); [exact HT|exact Hp|].
    by apply (rep_page _ _ HT _ _ Hp).
Qed.

Lemma tab_pages_NoDup m T : pt_rep m T -> NoDup (pt_tab_pages T).
Proof.
  intros HT. unfold pt_tab_pages. apply NoDup_fmap_2_strong; [|apply NoDup_map_to_list].
  intros [p pg] [q pg'] Hp Hq. cbn. intros <-. apply elem_of_map_to_list in Hp, Hq.
  by rewrite (rep_inj _ _ HT _ _ _ Hp Hq).
Qed.

(** The allocator alone, between calls. *)
Definition alloc_ok (s : kstate) (l : list Z) : Prop :=
  layout_ok /\ kmem_inv s l /\ cpu_wf (syn s) /\ lfree (syn s) Lkmem.

Section Freewalk.
Variables (T : pgt) (m0 : gmap Z Z).
Hypothesis HT : pt_rep m0 T.
Hypothesis Hnoleaf : pt_leaf T = ∅.

Lemma entry_noleaf p : layout_ok ->
  match pt_tabs T !! p with
  | Some pg => PTE2PA (pt_entry T p) = pg /\ has (pt_entry T p) PTE_V = true /\
      has (pt_entry T p) (Z.lor (Z.lor PTE_R PTE_W) PTE_X) = false
  | None => pt_entry T p = 0
  end.
Proof.
  intros HL. unfold pt_entry. rewrite Hnoleaf, lookup_empty.
  destruct (pt_tabs T !! p) as [pg|] eqn:Hp; [|by case_decide].
  destruct (rep_page _ _ HT _ _ Hp) as [Hok Hlen]. rewrite decide_False by lia.
  destruct (table_pte pg HL Hok) as (H1 & H2 & _). split_and!; [exact H1|exact H2|].
  pose proof (page_ok_pos _ HL Hok). unfold has.
  rewrite land_flags, PTE_FLAGS_make by (lia || (split; vm_compute; congruence)). done.
Qed.

(** A page below one node is not a page below another, nor the node itself. *)
Lemma sub_page_path d q i pg r :
  pg ∈ sub_pages d T (q ++ [i]) -> pt_tabs T !! r = Some pg ->
  exists r', r = q ++ i :: r'.
Proof.
  intros [r' Hr']%sub_pages_tab Hr. exists r'. rewrite (rep_inj _ _ HT _ _ _ Hr Hr').
  by rewrite <- app_assoc.
Qed.

Lemma sub_pages_ok d q : Forall page_ok (sub_pages d T q).
Proof.
  apply list.Forall_forall. intros pg [r Hr]%sub_pages_tab. by apply (rep_page _ _ HT _ _ Hr).
Qed.

Definition walk_entry_step (n : nat) (pagetable i : Z) : M unit :=
  pte ← rd64 (pagetable + 8 * i);
  if has pte PTE_V && negb (has pte (Z.lor (Z.lor PTE_R PTE_W) PTE_X)) then
    freewalk_depth n (PTE2PA pte);;
    wr64 (pagetable + 8 * i) 0
  else if has pte PTE_V then kpanic "freewalk: leaf"
  else mret ().

Lemma walk_entry_eq {B} n pg i (k : unit -> M B) s e :
  (walk_entry_step n pg i ≫= k) s e =
    (let pte := ld64 (mem s) (pg + 8 * i) in
     if has pte PTE_V && negb (has pte (Z.lor (Z.lor PTE_R PTE_W) PTE_X)) then
       freewalk_depth n (PTE2PA pte);; (wr64 (pg + 8 * i) 0 ≫= k)
     else if has pte PTE_V then kpanic "freewalk: leaf"
     else k ()) s e.
Proof.
  unfold walk_entry_step, rd64. rewrite bind_assoc, bind_gets. cbn zeta.
  destruct (_ && _); [by rewrite bind_assoc|]. by destruct (has _ _).
Qed.

(** What freeing the tree below a node means. *)
Definition frees (d n : nat) (q : list Z) : Prop :=
  forall pg s l e, pt_tabs T !! q = Some pg -> alloc_ok s l -> sub_rep (mem s) T q ->
    (forall x, x ∈ sub_pages d T q -> x ∉ l) ->
    exists s' new, freewalk_depth n pg s e = Ok () s' e /\ memstep s s' /\
      alloc_ok s' (new ++ l) /\ (forall x, x ∈ new <-> x ∈ sub_pages d T q) /\
      mem_frame (sub_pages d T q) (mem s) (mem s').

Lemma app_cons_ne (q r : list Z) i : q <> q ++ i :: r.
Proof. intros H%(f_equal length). rewrite length_app in H. cbn in H. lia. Qed.

Lemma sub_not_root d q i pg : pt_tabs T !! q = Some pg -> pg ∉ sub_pages d T (q ++ [i]).
Proof. intros Hq Hin. destruct (sub_page_path _ _ _ _ _ Hin Hq) as [r Hr]. by apply app_cons_ne in Hr. Qed.

Lemma sub_not_sib d q i j r pg :
  i <> j -> pt_tabs T !! ((q ++ [j]) ++ r) = Some pg -> pg ∉ sub_pages d T (q ++ [i]).
Proof.
  intros Hne Hj Hin. destruct (sub_page_path _ _ _ _ _ Hin Hj) as [r' Hr].
  rewrite <- app_assoc in Hr. apply app_inv_head in Hr. by injection Hr as <-.
Qed.

(** What is still to be freed survives the freeing of one entry's tree. *)
Lemma freewalk_keep d q pg i j s s1 :
  pt_tabs T !! q = Some pg -> 0 <= i < 512 -> 0 <= j < 512 -> i <> j ->
  mem_frame (sub_pages d T (q ++ [i])) (mem s) (mem s1) ->
  ld64 (mem s) (pg + 8 * j) = pt_entry T (q ++ [j]) -> sub_rep (mem s) T (q ++ [j]) ->
  let m2 := st64 (mem s1) (pg + 8 * i) 0 in
  ld64 m2 (pg + 8 * j) = pt_entry T (q ++ [j]) /\ sub_rep m2 T (q ++ [j]).
Proof.
  intros Hq Hi Hj Hne Hfr Hw Hsub m2. unfold m2.
  assert (Hpg : page_ok pg) by (by apply (rep_page _ _ HT _ _ Hq)). split.
  - rewrite ld64_st64_other by lia. rewrite <- Hw.
    refine (frame_word _ _ _ _ _ Hfr (sub_pages_ok _ _) Hpg _ Hj). by apply sub_not_root.
  - intros r pg' k Hr Hk. assert (Hpg' : page_ok pg') by (by apply (rep_page _ _ HT _ _ Hr)).
    assert (Hn : pg' <> pg).
    { intros ->. pose proof (rep_inj _ _ HT _ _ _ Hq Hr) as Heq. rewrite <- app_assoc in Heq.
      by apply app_cons_ne in Heq. }
    rewrite ld64_st64_other by (destruct (page_apart _ _ Hpg' Hpg Hn); lia).
    rewrite <- (Hsub r pg' k Hr Hk).
    refine (frame_word _ _ _ _ _ Hfr (sub_pages_ok _ _) Hpg' _ Hk). by eapply sub_not_sib.
Qed.

Lemma freewalk_entries d n q pg ids s l e :
  (forall i, frees d n (q ++ [i])) ->
  pt_tabs T !! q = Some pg -> alloc_ok s l -> pg ∉ l ->
  NoDup ids -> (forall i, i ∈ ids -> 0 <= i < 512) ->
  (forall i, i ∈ ids -> ld64 (mem s) (pg + 8 * i) = pt_entry T (q ++ [i]) /\
     sub_rep (mem s) T (q ++ [i]) /\ forall x, x ∈ sub_pages d T (q ++ [i]) -> x ∉ l) ->
  exists s' new, for_each ids (walk_entry_step n pg) s e = Ok () s' e /\ memstep s s' /\
    alloc_ok s' (new ++ l) /\
    (forall x, x ∈ new <-> x ∈ (ids ≫= fun i => sub_pages d T (q ++ [i]))) /\
    mem_frame (pg :: (ids ≫= fun i => sub_pages d T (q ++ [i]))) (mem s) (mem s').
Proof.
  intros Hfree Hq. revert s l. induction ids as [|i ids IH]; intros s l Hok Hpl Hnd Hr Hids.
  { exists s, []. split_and!; [done|reflexivity|exact Hok|done|done]. }
  apply NoDup_cons in Hnd as [Hnin Hnd].
  destruct (Hids i) as (Hw & Hsub & Hdis); [by left|]. assert (Hi : 0 <= i < 512) by (apply Hr; by left).
  pose proof (entry_noleaf (q ++ [i]) (proj1 Hok)) as He.
  cbn [for_each]. rewrite walk_entry_eq, Hw. cbn zeta.
  assert (Hsp : forall d, pt_tabs T !! (q ++ [i]) = None -> sub_pages d T (q ++ [i]) = []).
  { intros [|d'] H; cbn [sub_pages]; by rewrite H. }
  destruct (pt_tabs T !! (q ++ [i])) as [child|] eqn:Hc.
  - destruct He as (He1 & He2 & He3). rewrite He2, He3. cbn [andb negb]. rewrite He1.
    destruct (Hfree i child s l e Hc Hok Hsub Hdis) as (s1 & new1 & Hr1 & Hms1 & Hok1 & Hn1 & Hfr1).
    kstep_with Hr1. unfold wr64. kpure.
    set (s2 := upd_mem (fun m => st64 m (pg + 8 * i) 0) s1).
    assert (Hpg : page_ok pg) by (by apply (rep_page _ _ HT _ _ Hq)).
    assert (Hpn : pg ∉ new1 ++ l).
    { rewrite elem_of_app, Hn1. intros [H|H]; [|done]. by apply sub_not_root in H. }
    assert (Hfr2 : mem_frame [pg] (mem s1) (mem s2)) by (apply mem_frame_st64; unfold PGSIZE; lia).
    assert (Hok2 : alloc_ok s2 (new1 ++ l)).
    { destruct Hok1 as (HL & Hk & Hwf & Hlk). refine (conj HL (conj _ (conj Hwf Hlk))).
      refine (kmem_frame [pg] s1 _ _ Hfr2 _ _ Hk); [forall_list|].
      by intros x ->%list_elem_of_singleton. }
    destruct (IH s2 (new1 ++ l) Hok2 Hpn Hnd) as (s3 & new2 & Hr3 & Hms3 & Hok3 & Hn3 & Hfr3).
    { intros j Hj. apply Hr. by right. }
    { intros j Hj. assert (Hij : i <> j) by (intros ->; done).
      destruct (Hids j) as (Hwj & Hsj & Hdj); [by right|].
      destruct (freewalk_keep d q pg i j s s1 Hq Hi (Hr j ltac:(by right)) Hij Hfr1 Hwj Hsj) as [Hwj' Hsj'].
      split; [exact Hwj'|]. split; [exact Hsj'|]. intros x Hx. rewrite elem_of_app, Hn1.
      intros [Hx'|Hx']; [|by eapply Hdj]. pose proof Hx as [r Hxr]%sub_pages_tab.
      by eapply sub_not_sib in Hx'. }
    exists s3, (new2 ++ new1). rewrite <- app_assoc. split_and!.
    + exact Hr3.
    + etransitivity; [exact Hms1|]. etransitivity; [apply (memstep_mem s1)|exact Hms3].
    + exact Hok3.
    + intros x. rewrite bind_cons, !elem_of_app, Hn1, Hn3. tauto.
    + cbn [mbind]. eapply mem_frame_trans; [eapply mem_frame_trans|].
      * eapply mem_frame_mono; [|exact Hfr1]. intros x Hx. rewrite bind_cons, elem_of_cons, elem_of_app. tauto.
      * eapply mem_frame_mono; [|exact Hfr2]. intros x ->%list_elem_of_singleton. by left.
      * eapply mem_frame_mono; [|exact Hfr3]. intros x Hx. rewrite bind_cons, elem_of_cons, elem_of_app.
        apply elem_of_cons in Hx. tauto.
  - rewrite He, has_0. cbn [andb].
    destruct (IH s l Hok Hpl Hnd) as (s3 & new2 & Hr3 & Hms3 & Hok3 & Hn3 & Hfr3).
    { intros j Hj. apply Hr. by right. }
    { intros j Hj. apply Hids. by right. }
    exists s3, new2. rewrite bind_cons, Hsp by done. split_and!; done.
Qed.

Lemma sub_pages_step d q pg x :
  (length q + d = 2)%nat -> pt_tabs T !! q = Some pg ->
  x ∈ sub_pages d T q <-> x = pg \/ x ∈ (seqZ 0 512 ≫= fun i => sub_pages (pred d) T (q ++ [i])).
Proof.
  intros Hlen Hq. destruct d as [|d]; cbn [sub_pages pred]; rewrite Hq, elem_of_cons; [|done].
  split; [by intros [->|?%elem_of_nil]; [left|]|]. intros [->|Hx]; [by left|].
  apply list_elem_of_bind in Hx as (i & Hx & _). cbn [sub_pages] in Hx.
  destruct (pt_tabs T !! (q ++ [i])) as [pg'|] eqn:Hi; [|by apply elem_of_nil in Hx].
  apply (rep_page _ _ HT) in Hi as [_ Hi]. rewrite length_app in Hi. cbn in Hi. lia.
Qed.

Lemma freewalk_node d n q :
  (length q + d = 2)%nat -> (forall i, frees (pred d) n (q ++ [i])) -> frees d (S n) q.
Proof.
  intros Hlen IH pg s l e Hq Hok Hsub Hdis.
  assert (Hpl : pg ∉ l) by (apply Hdis; eapply sub_pages_step; eauto).
  destruct (freewalk_entries (pred d) n q pg (seqZ 0 512) s l e)
    as (s1 & new & Hr & Hms & Hok1 & Hn1 & Hfr1);
    [done|done|done|done|apply NoDup_seqZ|by intros i Hi%elem_of_seqZ| |].
  { intros i Hi. pose proof (proj1 (elem_of_seqZ _ _ _) Hi) as Hi'. split_and!.
    - pose proof (Hsub [] pg i) as H. rewrite app_nil_r in H. apply H; [done|lia].
    - intros r pg' j Hr Hj. rewrite <- app_assoc in Hr. rewrite <- (app_assoc q [i] r). by apply Hsub.
    - intros x Hx. apply Hdis. eapply sub_pages_step; [done..|right]. apply list_elem_of_bind. eauto. }
  assert (Hpg : page_ok pg) by (by apply (rep_page _ _ HT _ _ Hq)).
  assert (Hpn : pg ∉ new ++ l).
  { rewrite elem_of_app, Hn1. intros [(i & H & _)%list_elem_of_bind|H]; [|done].
    by apply sub_not_root in H. }
  destruct Hok1 as (HL & Hk & Hwf & Hlk). exists (freed pg s1), (pg :: new). split_and!.
  - change (freewalk_depth (S n) pg) with (for_each (seqZ 0 512) (walk_entry_step n pg);; kfree pg).
    kstep_with Hr. by apply kfree_run.
  - etransitivity; [exact Hms|apply memstep_freed].
  - refine (conj HL (conj (freed_inv _ _ _ HL Hpg Hpn Hk) (conj _ Hlk))). by apply cpu_wf_touch.
  - intros x. rewrite elem_of_cons, Hn1. symmetry. by apply sub_pages_step.
  - eapply mem_frame_trans.
    + eapply mem_frame_mono; [|exact Hfr1]. intros x Hx. eapply sub_pages_step; [done..|].
      by apply elem_of_cons in Hx.
    + intros a Ha. apply ld8_freed_mem. apply (Ha pg). eapply sub_pages_step; eauto.
Qed.

Lemma freewalk_frees d n q : (length q + d = 2)%nat -> (d < n)%nat -> frees d n q.
Proof.
  revert n q. induction d as [|d IH]; intros n q Hlen Hn; (destruct n as [|n]; [lia|]);
    (apply freewalk_node; [done|]); intros i; cbn [pred].
  - intros pg s l e Hi. apply (rep_page _ _ HT) in Hi as [_ Hi]. rewrite length_app in Hi.
    cbn in Hi. lia.
  - apply IH; [rewrite length_app; cbn|]; lia.
Qed.

End Freewalk.

(** A page table without leaves gives all its table pages back. *)
Lemma freewalk_run T root s l e :
  vm_ok s l T -> pt_tabs T !! [] = Some root -> pt_leaf T = ∅ ->
  exists s' l', freewalk root s e = Ok () s' e /\ memstep s s' /\ alloc_ok s' l' /\
    l' ≡ₚ pt_tab_pages T ++ l /\ mem_frame (pt_tab_pages T) (mem s) (mem s').
Proof.
  intros Hok Hroot Hl. pose proof (tab_disj _ _ _ Hok) as Hd.
  destruct Hok as (HL & Hk & HT & _ & Hwf & Hlk). pose proof (sub_pages_all _ _ HT) as Hall.
  destruct (freewalk_frees T (mem s) HT Hl 2 8 [] ltac:(done) ltac:(lia) root s l e Hroot)
    as (s' & new & Hr & Hms & Hok' & Hn & Hfr).
  - done.
  - intros r pg i Hp Hi. by apply (rep_word _ _ HT).
  - intros x Hx. apply Hd. by apply Hall.
  - exists s', (new ++ l). split_and!; [exact Hr|exact Hms|exact Hok'|..].
    + apply Permutation_app_tail. destruct Hok' as (_ & (_ & Hnd & _) & _).
      apply NoDup_app in Hnd as [Hnd _]. apply NoDup_Permutation; [done|by eapply tab_pages_NoDup|].
      intros x. by rewrite Hn, Hall.
    + eapply mem_frame_mono; [|exact Hfr]. intros x Hx. by apply Hall.
Qed.

End UserVm.
