(* ===== verification/UserSpace.v ===== *)
(** * User address spaces

    What [uvmdealloc], [uvmalloc] and [uvmfree] do to a process's pages: they
    move between the address space and the free list, and none is lost. *)

From stdpp Require Import base gmap strings numbers list.
From S2P Require Import Prelude KState StringC Spinlock Pages Sample Kalloc Vm PageTable UserVm.

Ltac Zify.zify_post_hook ::= Z.to_euclidean_division_equations.

Section UserSpace.
Context {L : Layout}.

(** ** User address spaces *)

(** The table [T] at [root] maps the frames [us] from address 0 up, and nothing
    between them and the trap frame; frames, tables and free pages are
    distinct pages. *)
Record uvm_ok (s : kstate) (l : list Z) (T : pgt) (root : Z) (us : list Z) : Prop := {
  uv_vm : vm_ok s l T;
  uv_root : pt_tabs T !! [] = Some root;
  uv_maps k f : us !! k = Some f -> maps T (Z.of_nat k * PGSIZE) f;
  uv_free va : aligned va -> Z.of_nat (length us) * PGSIZE <= va < TRAPFRAME ->
    pt_leaf T !! pt_path va = None;
  uv_size : Z.of_nat (length us) * PGSIZE <= TRAPFRAME;
  uv_pages : NoDup (us ++ pt_tab_pages T ++ l);
  uv_keys p : is_Some (pt_leaf T !! p) -> exists va, aligned va /\ 0 <= va < MAXVA /\ p = pt_path va
}.

Definition user_pages (T : pgt) (us l : list Z) : list Z := us ++ pt_tab_pages T ++ l.

Lemma TRAPFRAME_lt : 0 < TRAPFRAME /\ TRAPFRAME + 2 * PGSIZE = MAXVA /\ aligned TRAPFRAME.
Proof. done. Qed.

(** Unmapping and freeing the frames from the [k]th on. *)
Lemma uvmunmap_tail s l T root us k e :
  uvm_ok s l T root us -> (k <= length us)%nat ->
  exists s' T', uvmunmap root (Z.of_nat k * PGSIZE) (Z.of_nat (length us - k)) true s e = Ok () s' e /\
    uvm_ok s' (reverse (drop k us) ++ l) T' root (take k us) /\ memstep s s' /\
    pt_tabs T' = pt_tabs T /\ mem_frame (drop k us ++ pt_tab_pages T) (mem s) (mem s') /\
    (forall va, aligned va -> 0 <= va < MAXVA ->
      ~ (Z.of_nat k * PGSIZE <= va < Z.of_nat (length us) * PGSIZE) ->
      pt_leaf T' !! pt_path va = pt_leaf T !! pt_path va).
Proof.
  intros [Hok Hroot Hm Hf Hsz Hnd Hkeys] Hkl. destruct TRAPFRAME_lt as (HT1 & HT2 & HT3).
  assert (Hdl : length (drop k us) = (length us - k)%nat) by apply length_drop.
  destruct (uvmunmap_run (drop k us) T root (Z.of_nat k * PGSIZE) (Z.of_nat (length us - k)) s l e)
    as (s' & Hr' & Hok' & Hms & Hfr); try done; try (unfold aligned, PGSIZE in *; lia).
  - intros j f Hj. rewrite lookup_drop in Hj. specialize (Hm _ _ Hj).
    replace (Z.of_nat k * PGSIZE + Z.of_nat j * PGSIZE) with (Z.of_nat (k + j) * PGSIZE) by lia. done.
  - rewrite <- (take_drop k us), <- app_assoc in Hnd. by apply NoDup_app in Hnd as (_ & _ & Hnd).
  - exists s', (mkpgt (pt_tabs T) (unmap_range (length (drop k us)) (Z.of_nat k * PGSIZE) (pt_leaf T))).
    split_and!; [exact Hr'| |exact Hms|reflexivity|exact Hfr|].
    + split.
      * exact Hok'.
      * done.
      * intros j f Hj. apply lookup_take_Some in Hj as [Hj Hjk].
        destruct (Hm _ _ Hj) as (pte & Hl & Hp). exists pte. split; [|exact Hp]. cbn [pt_leaf].
        rewrite unmap_range_other; [exact Hl|..]; unfold aligned, PGSIZE in *; lia.
      * intros va Hva. rewrite length_take. intros Hr2. cbn [pt_leaf].
        destruct (decide (va < Z.of_nat (length us) * PGSIZE)).
        -- apply unmap_range_in; unfold aligned, PGSIZE in *; lia.
        -- rewrite unmap_range_other; [apply Hf; [done|]|..]; unfold aligned, PGSIZE in *; lia.
      * rewrite length_take. unfold PGSIZE in *. lia.
      * unfold pt_tab_pages in *. cbn [pt_tabs]. rewrite <- (take_drop k us), <- app_assoc in Hnd.
        rewrite (Permutation_app_comm (reverse (drop k us))), reverse_Permutation.
        rewrite (app_assoc _ l), (Permutation_app_comm _ (drop k us)). done.
      * intros p Hp. cbn [pt_leaf] in Hp. apply Hkeys. by eapply unmap_range_sub.
    + intros va Hva Hb1 Hout. cbn [pt_leaf]. apply unmap_range_other; unfold aligned, PGSIZE in *; lia.
Qed.

Lemma uvmdealloc_run s l T root us oldsz newsz e :
  uvm_ok s l T root us -> 0 <= newsz < oldsz -> oldsz + PGSIZE < 2 ^ 64 ->
  PGROUNDUP oldsz = Z.of_nat (length us) * PGSIZE ->
  let k := Z.to_nat (PGROUNDUP newsz / PGSIZE) in
  exists s' T', uvmdealloc root oldsz newsz s e = Ok newsz s' e /\
    uvm_ok s' (reverse (drop k us) ++ l) T' root (take k us) /\ memstep s s' /\
    pt_tabs T' = pt_tabs T /\ mem_frame (drop k us ++ pt_tab_pages T) (mem s) (mem s') /\
    (forall va, aligned va -> 0 <= va < MAXVA ->
      ~ (PGROUNDUP newsz <= va < PGROUNDUP oldsz) -> pt_leaf T' !! pt_path va = pt_leaf T !! pt_path va).
Proof.
  intros H Hn Ho Hus k. pose proof (uv_size _ _ _ _ _ H) as Hsz. destruct TRAPFRAME_lt as (HT1 & HT2 & HT3).
  assert (Hr : PGROUNDUP newsz <= PGROUNDUP oldsz) by (apply PGROUNDUP_le; unfold PGSIZE in *; lia).
  assert (Hb : newsz <= PGROUNDUP newsz) by (apply PGROUNDUP_bounds; unfold PGSIZE in *; lia).
  assert (Ha : aligned (PGROUNDUP newsz)) by (apply PGROUNDUP_aligned; unfold PGSIZE in *; lia).
  assert (Hk : Z.of_nat k * PGSIZE = PGROUNDUP newsz) by (unfold k, aligned, PGSIZE in *; lia).
  assert (Hkl : (k <= length us)%nat) by (unfold PGSIZE in *; lia).
  unfold uvmdealloc. rewrite (proj2 (Z.leb_gt _ _)) by lia.
  destruct (Z.ltb_spec (PGROUNDUP newsz) (PGROUNDUP oldsz)) as [Hlt|Hge]; cbn [when].
  - replace (i32 ((PGROUNDUP oldsz - PGROUNDUP newsz) / PGSIZE)) with (Z.of_nat (length us - k)).
    2: { rewrite Hus, <- Hk. unfold i32, signed.
         replace ((Z.of_nat (length us) * PGSIZE - Z.of_nat k * PGSIZE) / PGSIZE)
           with (Z.of_nat (length us) - Z.of_nat k) by (unfold PGSIZE; lia).
         change TRAPFRAME with (67108862 * PGSIZE) in Hsz.
         rewrite Z.mod_small by (unfold PGSIZE in *; lia). destruct (Z.ltb_spec (Z.of_nat (length us) - Z.of_nat k) (2 ^ (32 - 1)));
         unfold PGSIZE in *; lia. }
    destruct (uvmunmap_tail s l T root us k e H Hkl) as (s' & T' & Hr' & Hok' & Hms & Htab & Hfr & Hleaf).
    rewrite Hk in Hr', Hleaf. kstep_with Hr'. exists s', T'. rewrite Hus. split_and!; done.
  - assert (Hke : k = length us) by (unfold PGSIZE in *; lia).
    exists s, T. rewrite Hke, take_ge, drop_ge by lia. split_and!; done.
Qed.

(** Taking a page off the free list leaves the table alone. *)
Lemma vm_ok_alloc s s1 p l T :
  vm_ok s (p :: l) T -> memstep s s1 -> kmem_inv s1 l -> mem_frame [p] (mem s) (mem s1) ->
  vm_ok s1 l T.
Proof.
  intros Hok Hms Hk Hfr. pose proof (tab_disj _ _ _ Hok) as Hd.
  destruct Hok as (HL & (_ & _ & Hpok) & HT & Hdis & Hwf & Hlk). inversion_clear Hpok as [|? ? Hp _].
  refine (conj HL (conj Hk (conj _ (conj _ (conj _ _))))).
  - split; try apply HT. intros q pg i Hq Hi. rewrite <- (rep_word _ _ HT _ _ _ Hq Hi).
    refine (frame_word [p] _ _ _ _ Hfr _ (proj1 (rep_page _ _ HT _ _ Hq)) _ Hi); [forall_list|].
    intros ->%list_elem_of_singleton. apply (Hdis _ _ Hq). by left.
  - intros q pg Hq Hin. apply (Hdis _ _ Hq). by right.
  - eapply memstep_wf; eassumption.
  - eapply memstep_lfree; eassumption.
Qed.

Lemma maps_mono (T T' : pgt) va f :
  pt_leaf T' !! pt_path va = pt_leaf T !! pt_path va -> maps T va f -> maps T' va f.
Proof. intros H (pte & Hl & Hp). exists pte. by rewrite H. Qed.

(** Mapping a page [p] taken off the free list at the end of the address
    space; [s1] is the state after it has been filled. *)
Lemma uvm_map s s1 p l T root us perm e :
  uvm_ok s (p :: l) T root us -> memstep s s1 -> kmem_inv s1 l -> mem_frame [p] (mem s) (mem s1) ->
  Z.of_nat (length us) * PGSIZE < TRAPFRAME -> 0 <= perm < 1024 -> Z.lor perm PTE_V <> PTE_V ->
  let a := Z.of_nat (length us) * PGSIZE in
  exists s2 l2 T2 r, mappages root a PGSIZE p perm s1 e = Ok r s2 e /\ memstep s s2 /\
    mem_frame (pt_tab_pages T ++ p :: l) (mem s) (mem s2) /\
    (forall x, in_page p x -> ld8 (mem s2) x = ld8 (mem s1) x) /\
    p :: pt_tab_pages T2 ++ l2 ≡ₚ pt_tab_pages T ++ p :: l /\ pt_tabs T ⊆ pt_tabs T2 /\
    ((r = 0 /\ (length l <= length l2 + 2)%nat /\ uvm_ok s2 l2 T2 root (us ++ [p]) /\
       pt_leaf T2 = <[pt_path a := mk_pte p perm]> (pt_leaf T)) \/
     (r = -1 /\ l2 = [] /\ (length l < 2)%nat /\ uvm_ok (freed p s2) [p] T2 root us /\ pt_leaf T2 = pt_leaf T /\
       kfree p s2 e = Ok () (freed p s2) e)).
Proof.
  intros [Hok Hroot Hm Hf Hsz Hnd Hkeys] Hms Hk Hfr Hlt Hperm Hfl a.
  destruct TRAPFRAME_lt as (HT1 & HT2 & HT3).
  pose proof (vm_ok_alloc _ _ _ _ _ Hok Hms Hk Hfr) as Hok1.
  pose proof Hok as (HL & (_ & Hndl & Hpok) & _). inversion_clear Hpok as [|? ? Hp _].
  pose proof (page_ok_pos _ HL Hp) as [Hpos Hpos2]. unfold PHYSTOP, KERNBASE in Hpos2.
  pose proof (proj1 Hp) as Hpal.
  assert (Hpn : p ∉ us /\ p ∉ pt_tab_pages T /\ p ∉ l).
  { assert (Hnd' : NoDup (p :: (us ++ pt_tab_pages T ++ l))).
    { rewrite app_assoc in Hnd |- *. by rewrite Permutation_middle. }
    apply NoDup_cons in Hnd' as [H _]. rewrite !not_elem_of_app in H. done. }
  destruct Hpn as (Hpu & Hpt & Hpl).
  destruct (mappages_run 0 T root a p perm s1 l e) as (s2 & l2 & T2 & r & G & Hr & Hc);
    try done; try (unfold aligned, PGSIZE in *; lia).
  { intros k Hk'. assert (k = 0) as -> by lia. rewrite Z.add_0_r. apply Hf; unfold aligned, PGSIZE in *; lia. }
  pose proof (gr_pages _ _ _ _ _ _ G) as Hpages. pose proof (gr_ok _ _ _ _ _ _ G) as Hok2.
  assert (Hms2 : memstep s s2) by (etransitivity; [exact Hms|exact (gr_step _ _ _ _ _ _ G)]).
  assert (Hroot2 : pt_tabs T2 !! [] = Some root)
    by (eapply lookup_weaken; [exact Hroot|exact (gr_tabs _ _ _ _ _ _ G)]).
  assert (Hperm2 : p :: pt_tab_pages T2 ++ l2 ≡ₚ pt_tab_pages T ++ p :: l)
    by (rewrite Hpages; apply Permutation_middle).
  assert (Hnd2 : NoDup (us ++ p :: pt_tab_pages T2 ++ l2)) by (by rewrite Hperm2).
  exists s2, l2, T2, r. split_and!; [exact Hr|exact Hms2| | |exact Hperm2|exact (gr_tabs _ _ _ _ _ _ G)|].
  - eapply mem_frame_trans; (eapply mem_frame_mono; [|eassumption || exact (gr_frame _ _ _ _ _ _ G)]);
      intros x; rewrite !elem_of_app, ?elem_of_cons, ?elem_of_nil; tauto.
  - intros x Hx. apply (gr_frame _ _ _ _ _ _ G). intros q Hq Hin.
    destruct Hok1 as (_ & (_ & _ & Hlok) & HT & _). pose proof (tab_pages_ok _ _ HT) as Htok.
    rewrite list.Forall_forall in Hlok, Htok. apply elem_of_app in Hq as Hq'.
    assert (Hqok : page_ok q) by (destruct Hq'; auto).
    assert (p = q) as <- by (by eapply page_ok_disj). by destruct Hq'.
  - destruct Hc as [(-> & Hn2 & E)|(-> & -> & Hl2 & k & Hk0 & E)].
    + left. split; [done|]. split; [lia|]. split; [|exact E]. cbn [map_range] in E. split; try done.
      * intros k f Hkf. apply lookup_app_Some in Hkf as [Hkf|[Hge Hkf]].
        -- eapply maps_mono; [|by apply Hm]. rewrite E. apply lookup_insert_ne.
           apply lookup_lt_Some in Hkf. intros Heq%pt_path_inj; unfold a, aligned, PGSIZE in *; lia.
        -- apply list_lookup_singleton_Some in Hkf as [Hk0 <-].
           replace k with (length us) by lia. exists (mk_pte p perm). rewrite E, lookup_insert_eq.
           destruct (mk_pte_spec p perm ltac:(lia) Hpal Hperm) as (_ & H1 & H2).
           rewrite H1, H2. done.
      * intros va Hva Hr'. rewrite length_app in Hr'. cbn [length] in Hr'. rewrite E, lookup_insert_ne.
        -- apply Hf; [done|]. unfold PGSIZE in *. lia.
        -- intros Heq%pt_path_inj; unfold a, aligned, PGSIZE in *; lia.
      * rewrite length_app. cbn [length]. unfold aligned, PGSIZE in *. lia.
      * by rewrite <- app_assoc.
      * intros q Hq. rewrite E in Hq. destruct (decide (pt_path a = q)) as [<-|Hne].
        -- exists a. unfold a, aligned, PGSIZE in *. split_and!; lia || done.
        -- rewrite lookup_insert_ne in Hq by done. by apply Hkeys.
    + right. assert (k = 0%nat) as -> by lia. cbn [map_range] in E. rewrite app_nil_r in Hperm2, Hnd2.
      assert (Hpt2 : p ∉ pt_tab_pages T2).
      { apply NoDup_app in Hnd2 as (_ & _ & Hnd2). by apply NoDup_cons in Hnd2 as [? _]. }
      destruct (freed_vm p s2 [] T2 Hok2 Hp (not_elem_of_nil _) Hpt2) as (Hok3 & _ & _).
      destruct Hok2 as (_ & _ & _ & _ & Hwf2 & Hlk2).
      split_and!; [done|done|exact Hl2| |exact E|by apply kfree_run]. split; try done.
      * intros k f Hkf. eapply maps_mono; [|by apply Hm]. by rewrite E.
      * intros va Hva Hr'. rewrite E. by apply Hf.
      * rewrite <- (Permutation_cons_append (pt_tab_pages T2) p). done.
      * intros q Hq. rewrite E in Hq. by apply Hkeys.
Qed.

Lemma PGROUNDUP_unique x a :
  0 <= x -> x + PGSIZE - 1 < 2 ^ 64 -> aligned a -> x <= a < x + PGSIZE -> PGROUNDUP x = a.
Proof. intros. rewrite PGROUNDUP_spec by done. unfold aligned, PGSIZE in *. lia. Qed.

Definition zeroed (m : gmap Z Z) (p : Z) : Prop := forall x, in_page p x -> ld8 m x = 0.

(** What [uvmalloc] can do, from an address space [us0 ++ nw] of which [nw] is
    already new. *)
Definition alloc_done (s s' : kstate) (l : list Z) (T T' : pgt) (us0 nw us' : list Z)
    (perm newsz r : Z) : Prop :=
  (r = newsz /\ PGROUNDUP newsz = Z.of_nat (length us') * PGSIZE /\
     mem_frame (pt_tab_pages T ++ l) (mem s) (mem s') /\
     (forall va, aligned va -> 0 <= va < MAXVA ->
        ~ (Z.of_nat (length (us0 ++ nw)) * PGSIZE <= va < PGROUNDUP newsz) ->
        pt_leaf T' !! pt_path va = pt_leaf T !! pt_path va) /\
     exists nw', us' = us0 ++ nw ++ nw' /\ Forall (zeroed (mem s')) nw' /\
       forall k f, us' !! k = Some f -> (length (us0 ++ nw) <= k)%nat ->
         pt_leaf T' !! pt_path (Z.of_nat k * PGSIZE) = Some (mk_pte f perm)) \/
  (r = 0 /\ us' = us0 /\ mem_frame (nw ++ pt_tab_pages T ++ l) (mem s) (mem s') /\
     (forall va, aligned va -> 0 <= va < MAXVA ->
        ~ (Z.of_nat (length us0) * PGSIZE <= va < Z.of_nat (length (us0 ++ nw)) * PGSIZE) ->
        pt_leaf T' !! pt_path va = pt_leaf T !! pt_path va)).

(** Giving up: the pages added so far are unmapped and freed. *)
Lemma uvmalloc_undo s l T root us0 nw e :
  uvm_ok s l T root (us0 ++ nw) ->
  exists s' T' r, uvmdealloc root (Z.of_nat (length (us0 ++ nw)) * PGSIZE) (Z.of_nat (length us0) * PGSIZE) s e
      = Ok r s' e /\
    uvm_ok s' (reverse nw ++ l) T' root us0 /\ memstep s s' /\ pt_tabs T' = pt_tabs T /\
    mem_frame (nw ++ pt_tab_pages T) (mem s) (mem s') /\
    (forall va, aligned va -> 0 <= va < MAXVA ->
      ~ (Z.of_nat (length us0) * PGSIZE <= va < Z.of_nat (length (us0 ++ nw)) * PGSIZE) ->
      pt_leaf T' !! pt_path va = pt_leaf T !! pt_path va).
Proof.
  intros H. pose proof (uv_size _ _ _ _ _ H) as Hsz. destruct TRAPFRAME_lt as (HT1 & HT2 & HT3).
  change MAXVA with (2 ^ 38) in HT2.
  assert (Hup : forall k : nat, (k <= length (us0 ++ nw))%nat ->
    PGROUNDUP (Z.of_nat k * PGSIZE) = Z.of_nat k * PGSIZE).
  { intros k Hk. apply PGROUNDUP_id; unfold aligned, PGSIZE in *; lia. }
  assert (Hlen : length (us0 ++ nw) = (length us0 + length nw)%nat) by apply length_app.
  destruct (decide (nw = [])) as [->|Hnw].
  - rewrite app_nil_r in H |- *. exists s, T, (Z.of_nat (length us0) * PGSIZE). unfold uvmdealloc.
    rewrite (proj2 (Z.leb_le _ _)) by lia. split_and!; done.
  - assert (Hpos : (0 < length nw)%nat) by (destruct nw; [done|cbn; lia]).
    destruct (uvmdealloc_run s l T root (us0 ++ nw) (Z.of_nat (length (us0 ++ nw)) * PGSIZE)
      (Z.of_nat (length us0) * PGSIZE) e) as (s' & T' & Hr & Hok & Hms & Htab & Hfr & Hleaf); try done.
    + unfold PGSIZE. lia.
    + unfold PGSIZE in *. lia.
    + apply Hup. lia.
    + rewrite (Hup (length us0)) in Hok, Hfr, Hleaf by lia. rewrite Hup in Hleaf by lia.
      replace (Z.to_nat (Z.of_nat (length us0) * PGSIZE / PGSIZE)) with (length us0) in * by (unfold PGSIZE; lia).
      rewrite drop_app_length, take_app_length in *. exists s', T', (Z.of_nat (length us0) * PGSIZE).
      split_and!; done.
Qed.

Lemma uvm_ok_touch s l T root us :
  uvm_ok s l T root us -> uvm_ok (set_syn (touch (syn s)) s) l T root us.
Proof. intros [H1 H2 H3 H4 H5 H6 H7]. split; try done. by apply vm_ok_touch. Qed.

(** A frame of the address space is not a table or a free page. *)
Lemma user_frame_keep s l T root us f m' :
  uvm_ok s l T root us -> f ∈ us -> mem_frame (pt_tab_pages T ++ l) (mem s) m' ->
  forall x, in_page f x -> ld8 m' x = ld8 (mem s) x.
Proof.
  intros [(HL & (_ & _ & Hlok) & HT & _) _ Hm _ _ Hnd _] Hf Hfr x Hx. apply Hfr. intros q Hq Hin.
  pose proof (tab_pages_ok _ _ HT) as Htok. rewrite list.Forall_forall in Hlok, Htok.
  apply list_elem_of_lookup in Hf as Hf'. destruct Hf' as [k Hk]. destruct (Hm k f Hk) as (_ & _ & _ & _ & Hfok).
  assert (Hqok : page_ok q) by (apply elem_of_app in Hq as [|]; auto).
  assert (f = q) as <- by (by eapply page_ok_disj). apply NoDup_app in Hnd as (_ & Hd & _).
  by apply (Hd f).
Qed.

Section Uvmalloc.
Variables (root oldsz newsz xperm : Z) (us0 : list Z) (e : env).
Let perm := Z.lor (Z.lor PTE_R PTE_U) xperm.
Hypothesis Hx : 0 <= perm < 1024.
Hypothesis Hpx : Z.lor perm PTE_V <> PTE_V.
Hypothesis Hold : oldsz = Z.of_nat (length us0) * PGSIZE.
Hypothesis Hnew : 0 <= newsz <= TRAPFRAME.

(** The two ways in which a round of the loop gives up. *)
Lemma uvmalloc_fail s s1 l T1 T nw m l0 :
  uvm_ok s1 l T1 root (us0 ++ nw) -> memstep s s1 -> m = mem s ->
  pt_leaf T1 = pt_leaf T -> pt_tabs T ⊆ pt_tabs T1 -> pt_tab_pages T1 ++ l ≡ₚ pt_tab_pages T ++ l0 ->
  mem_frame (pt_tab_pages T ++ l0) m (mem s1) ->
  exists s' l' T', (uvmdealloc root (Z.of_nat (length (us0 ++ nw)) * PGSIZE) oldsz;; mret 0) s1 e = Ok 0 s' e /\
    memstep s s' /\ uvm_ok s' l' T' root us0 /\
    user_pages T' us0 l' ≡ₚ user_pages T (us0 ++ nw) l0 /\ pt_tabs T ⊆ pt_tabs T' /\
    alloc_done s s' l0 T T' us0 nw us0 perm newsz 0.
Proof.
  intros Hok Hms -> Hleaf Htabs Hpages Hfr.
  destruct (uvmalloc_undo s1 l T1 root us0 nw e Hok) as (s' & T' & r & Hr & Hok' & Hms' & Htab & Hfr' & Hl').
  exists s', (reverse nw ++ l), T'. rewrite Hold. kstep_with Hr. split_and!; [done| |exact Hok'| |by rewrite Htab|].
  - etransitivity; [exact Hms|exact Hms'].
  - unfold user_pages, pt_tab_pages in *. rewrite Htab, <- (app_assoc us0 nw), <- Hpages.
    rewrite reverse_Permutation. apply Permutation_app_head. solve_Permutation.
  - right. split_and!; [done|done| |].
    + eapply mem_frame_trans; (eapply mem_frame_mono; [|eassumption]); intros x Hx'.
      * apply elem_of_app. by right.
      * apply elem_of_app in Hx' as [Hx'|Hx']; apply elem_of_app; [by left|right].
        rewrite <- Hpages. apply elem_of_app. by left.
    + intros va Hva Hr' Hout. rewrite Hl', Hleaf by done. done.
Qed.

(** A completed round followed by the rest of the loop. *)
Lemma alloc_done_step s s2 s3 p l l2 l3 T T2 T3 nw us3 r :
  let a := Z.of_nat (length (us0 ++ nw)) * PGSIZE in
  uvm_ok s (p :: l) T root (us0 ++ nw) -> uvm_ok s2 l2 T2 root (us0 ++ nw ++ [p]) ->
  uvm_ok s3 l3 T3 root us3 -> a < newsz ->
  pt_leaf T2 = <[pt_path a := mk_pte p perm]> (pt_leaf T) ->
  p :: pt_tab_pages T2 ++ l2 ≡ₚ pt_tab_pages T ++ p :: l ->
  mem_frame (pt_tab_pages T ++ p :: l) (mem s) (mem s2) -> zeroed (mem s2) p ->
  alloc_done s2 s3 l2 T2 T3 us0 (nw ++ [p]) us3 perm newsz r ->
  alloc_done s s3 (p :: l) T T3 us0 nw us3 perm newsz r.
Proof.
  intros a Hok0 Hok Hok3 Hlt Hl2 Hpg Hfr Hz Hd. destruct TRAPFRAME_lt as (HT1 & HT2 & HT3).
  assert (Hlen : length (us0 ++ nw ++ [p]) = S (length (us0 ++ nw)))
    by (rewrite !length_app; cbn; lia).
  assert (Hal : aligned a) by (unfold a, aligned, PGSIZE; lia).
  assert (Hothers : forall va, aligned va -> 0 <= va < MAXVA -> va <> a ->
    pt_leaf T2 !! pt_path va = pt_leaf T !! pt_path va).
  { intros va Hva Hr' Hne. rewrite Hl2. apply lookup_insert_ne.
    intros Heq%pt_path_inj; unfold a, PGSIZE in *; done || lia. }
  assert (Hsub : forall x, x ∈ pt_tab_pages T2 ++ l2 -> x ∈ pt_tab_pages T ++ p :: l).
  { intros x Hx'. rewrite <- Hpg. by right. }
  destruct Hd as [(-> & Hup & Hfr3 & Hl3 & nw' & -> & Hz3 & Hk3)|(-> & -> & Hfr3 & Hl3)].
  - left. rewrite Hlen in Hl3, Hk3.
    assert (HupA : newsz <= PGROUNDUP newsz)
      by (apply PGROUNDUP_bounds; change MAXVA with (2 ^ 38) in HT2; unfold PGSIZE in *; lia).
    split_and!; [done|exact Hup| | |].
    + eapply mem_frame_trans; [exact Hfr|]. eapply mem_frame_mono; [|exact Hfr3]. exact Hsub.
    + intros va Hva Hr' Hout. rewrite Hl3 by (try done; unfold a, PGSIZE in *; lia).
      apply Hothers; try done. unfold a in *. lia.
    + exists (p :: nw'). rewrite <- app_assoc. split_and!; [done| |].
      * constructor; [|exact Hz3]. intros x Hx'.
        rewrite (user_frame_keep s2 l2 T2 root _ p (mem s3) Hok); [by apply Hz| |exact Hfr3|done].
        rewrite !elem_of_app, list_elem_of_singleton. tauto.
      * intros k f Hkf Hge. destruct (decide (k = length (us0 ++ nw))) as [->|Hne].
        -- fold a. rewrite Hl3, Hl2, lookup_insert_eq by (try done; unfold a, PGSIZE in *; lia).
           rewrite app_assoc, lookup_app_r, Nat.sub_diag in Hkf by lia. by injection Hkf as ->.
        -- apply Hk3; [by rewrite <- app_assoc|lia].
  - right. rewrite Hlen in Hl3. split_and!; [done|done| |].
    + eapply mem_frame_trans; (eapply mem_frame_mono; [|eassumption]); intros x Hx'.
      * apply elem_of_app. by right.
      * rewrite <- app_assoc, elem_of_app in Hx'. apply elem_of_app.
        destruct Hx' as [?|Hx']; [by left|right]. rewrite <- Hpg.
        apply elem_of_app in Hx' as [->%list_elem_of_singleton|Hx']; [by left|by right].
    + intros va Hva Hr' Hout. destruct (decide (va = a)) as [->|Hne].
      * rewrite (uv_free _ _ _ _ _ Hok3), (uv_free _ _ _ _ _ Hok0); try done; unfold a in *; [lia|].
        rewrite length_app in *. unfold PGSIZE in *. lia.
      * rewrite Hl3; try done; [|unfold a, aligned, PGSIZE in *; lia]. by apply Hothers.
Qed.

Lemma uvmalloc_loop_run n nw s l T :
  uvm_ok s l T root (us0 ++ nw) ->
  Z.of_nat (length (us0 ++ nw)) * PGSIZE < newsz + PGSIZE ->
  newsz + PGSIZE <= Z.of_nat (length (us0 ++ nw) + n) * PGSIZE ->
  exists r s' l' T' us',
    uvmalloc_loop n root oldsz (Z.of_nat (length (us0 ++ nw)) * PGSIZE) newsz xperm s e = Ok r s' e /\
    memstep s s' /\ uvm_ok s' l' T' root us' /\
    user_pages T' us' l' ≡ₚ user_pages T (us0 ++ nw) l /\ pt_tabs T ⊆ pt_tabs T' /\
    alloc_done s s' l T T' us0 nw us' perm newsz r.
Proof.
  destruct TRAPFRAME_lt as (HT1 & HT2 & HT3). change MAXVA with (2 ^ 38) in HT2.
  revert nw s l T. induction n as [|n IH]; intros nw s l T Hok Hlo Hhi; [unfold PGSIZE in *; lia|].
  pose proof (uv_vm _ _ _ _ _ Hok) as (HL & Hk & _ & _ & Hwf & Hlk).
  cbn [uvmalloc_loop]. set (a := Z.of_nat (length (us0 ++ nw)) * PGSIZE) in *.
  destruct (Z.ltb_spec a newsz) as [Hlt|Hge]; cbn [negb].
  2: { exists newsz, s, l, T, (us0 ++ nw). split_and!; [done|reflexivity|exact Hok|done|done|].
       assert (Hup : PGROUNDUP newsz = a) by (apply PGROUNDUP_unique; unfold a, aligned, PGSIZE in *; lia).
       left. split_and!; [done|exact Hup|done|done|]. exists []. rewrite app_nil_r.
       split_and!; [done|constructor|]. intros k f Hkf%lookup_lt_Some Hge'. lia. }
  destruct l as [|p l].
  { kstep ltac:(by apply kalloc_empty). rewrite (proj2 (Z.eqb_eq 0 0)) by done.
    destruct (uvmalloc_fail s (set_syn (touch (syn s)) s) [] T T nw (mem s) [])
      as (s' & l' & T' & Hr & Hms & Hok' & Hp & Ht & Hd); try done.
    - by apply uvm_ok_touch.
    - apply memstep_touch.
    - exists 0, s', l', T', us0. split_and!; done. }
  destruct (kalloc_zeroed p l s e HL Hk Hwf Hlk) as (Hr & Hp & Hpok & Hms & Hk' & Hnin & Hfr & Hz & _).
  kstep_with Hr. rewrite (proj2 (Z.eqb_neq p 0)) by lia. kpure.
  set (s1 := upd_mem (fun m => memset m p 0 PGSIZE) (kalloced p s)) in *. clearbody s1.
  destruct (uvm_map s s1 p l T root (us0 ++ nw) perm e Hok Hms Hk' Hfr ltac:(unfold a in *; lia) Hx Hpx)
    as (s2 & l2 & T2 & r & Hr2 & Hms2 & Hfr2 & Hc2 & Hpg2 & Ht2 & Hcase).
  kstep_with Hr2. destruct Hcase as [(-> & _ & Hok2 & Hl2)|(-> & -> & _ & Hok2 & Hl2 & Hkf)].
  - rewrite (proj2 (Z.eqb_eq 0 0)) by done. cbn [negb]. rewrite <- app_assoc in Hok2.
    assert (Ha2 : u64 (a + PGSIZE) = Z.of_nat (length (us0 ++ nw ++ [p])) * PGSIZE).
    { unfold u64, a in *. rewrite Z.mod_small by (unfold PGSIZE in *; lia).
      rewrite !length_app. cbn [length]. unfold PGSIZE. lia. }
    rewrite Ha2.
    destruct (IH (nw ++ [p]) s2 l2 T2 Hok2) as (r & s3 & l3 & T3 & us3 & Hr3 & Hms3 & Hok3 & Hp3 & Ht3 & Hd3).
    { unfold a in *. rewrite !length_app in *. cbn [length]. unfold PGSIZE in *. lia. }
    { unfold a in *. rewrite !length_app in *. cbn [length]. unfold PGSIZE in *. lia. }
    exists r, s3, l3, T3, us3. split_and!; [exact Hr3| |exact Hok3| |by etransitivity|].
    + etransitivity; [exact Hms2|exact Hms3].
    + rewrite Hp3. unfold user_pages. rewrite <- Hpg2, (app_assoc us0 nw), <- app_assoc.
      apply Permutation_app_head. done.
    + apply (alloc_done_step s s2 s3 p l l2 l3 T T2 T3 nw us3 r); try done.
      intros x Hx'. rewrite Hc2 by done. by apply Hz.
  - rewrite (proj2 (Z.eqb_neq (-1) 0)) by done. cbn [negb]. kstep_with Hkf.
    destruct (uvmalloc_fail s (freed p s2) [p] T2 T nw (mem s) (p :: l))
      as (s' & l' & T' & Hr' & Hms' & Hok' & Hp' & Ht' & Hd'); try done.
    + etransitivity; [exact Hms2|apply memstep_freed].
    + rewrite <- Hpg2, app_nil_r. symmetry. apply Permutation_cons_append.
    + eapply mem_frame_trans; [exact Hfr2|]. eapply mem_frame_mono; [|apply mem_frame_freed].
      intros x ->%list_elem_of_singleton. apply elem_of_app. right. by left.
    + exists 0, s', l', T', us0. split_and!; done.
Qed.

End Uvmalloc.

(** Freeing a whole address space. *)
Lemma uvmfree_run s l T root us sz e :
  uvm_ok s l T root us -> 0 <= sz <= TRAPFRAME -> PGROUNDUP sz = Z.of_nat (length us) * PGSIZE ->
  (forall va, aligned va -> TRAPFRAME <= va < MAXVA -> pt_leaf T !! pt_path va = None) ->
  exists s' l', uvmfree root sz s e = Ok () s' e /\ alloc_ok s' l' /\ memstep s s' /\
    l' ≡ₚ us ++ pt_tab_pages T ++ l /\ mem_frame (us ++ pt_tab_pages T) (mem s) (mem s').
Proof.
  intros [Hok Hroot Hm Hf Hsz Hnd Hkeys] Hs Hus Htop. destruct TRAPFRAME_lt as (HT1 & HT2 & HT3).
  change MAXVA with (2 ^ 38) in *.
  set (lf := unmap_range (length us) 0 (pt_leaf T)).
  assert (Hun : exists s1, when (0 <? sz) (uvmunmap root 0 (PGROUNDUP sz / PGSIZE) true) s e = Ok () s1 e /\
    vm_ok s1 (reverse us ++ l) (mkpgt (pt_tabs T) lf) /\ memstep s s1 /\
    mem_frame (us ++ pt_tab_pages T) (mem s) (mem s1)).
  { destruct (Z.ltb_spec 0 sz) as [Hpos|Hz]; cbn [when].
    - destruct (uvmunmap_run us T root 0 (PGROUNDUP sz / PGSIZE) s l e) as (s1 & Hr & Hok1 & Hms1 & Hfr1);
        try done; try (change MAXVA with (2 ^ 38); unfold PGSIZE in *; lia). eauto.
    - assert (length us = 0%nat) as Hl0.
      { assert (sz = 0) as -> by lia. change (PGROUNDUP 0) with 0 in Hus. unfold PGSIZE in Hus. lia. }
      apply nil_length_inv in Hl0 as ->. exists s. split; [done|].
      split_and!; [unfold lf; cbn; by destruct T|reflexivity|done]. }
  destruct Hun as (s1 & Hr1 & Hok1 & Hms1 & Hfr1).
  assert (Hempty : lf = ∅).
  { apply map_eq. intros p. rewrite lookup_empty. destruct (lf !! p) as [pte|] eqn:Hp; [|done].
    destruct (Hkeys p) as (va & Hva & Hr & ->); [apply (unmap_range_sub (length us) 0); fold lf; eauto|].
    change MAXVA with (2 ^ 38) in Hr. rewrite <- Hp. unfold lf.
    destruct (decide (va < Z.of_nat (length us) * PGSIZE)).
    - apply unmap_range_in; try done; change MAXVA with (2 ^ 38); unfold PGSIZE in *; lia.
    - rewrite unmap_range_other; try done; try (change MAXVA with (2 ^ 38); unfold PGSIZE in *; lia).
      destruct (decide (va < TRAPFRAME)); [apply Hf|apply Htop]; done || lia. }
  destruct (freewalk_run (mkpgt (pt_tabs T) lf) root s1 (reverse us ++ l) e Hok1 Hroot Hempty)
    as (s2 & l2 & Hr2 & Hms2 & Hok2 & Hp2 & Hfr2).
  exists s2, l2. split_and!; [|exact Hok2|by etransitivity| |].
  - unfold uvmfree. kstep_with Hr1. exact Hr2.
  - rewrite Hp2. unfold pt_tab_pages. cbn [pt_tabs]. rewrite reverse_Permutation. solve_Permutation.
  - eapply mem_frame_trans; [exact Hfr1|]. eapply mem_frame_mono; [|exact Hfr2].
    intros x Hx. apply elem_of_app. by right.
Qed.

(** The table has grown by the pages [nt], and the free list has lost these pages. *)
Definition kept_tables (T T' : pgt) (l l' : list Z) : Prop :=
  exists nt, pt_tab_pages T' ≡ₚ nt ++ pt_tab_pages T /\ l ≡ₚ nt ++ l'.

Lemma tables_kept T T' us l l' :
  pt_tabs T ⊆ pt_tabs T' -> user_pages T' us l' ≡ₚ user_pages T us l -> kept_tables T T' l l'.
Proof.
  intros Ht Hp. unfold user_pages in Hp. apply Permutation_app_inv_l in Hp.
  assert (Hs : pt_tab_pages T ⊆+ pt_tab_pages T') by (by apply fmap_submseteq, map_to_list_submseteq).
  apply submseteq_Permutation in Hs as [nt E]. exists nt. split; [by rewrite E, Permutation_app_comm|].
  rewrite E, <- app_assoc in Hp. apply Permutation_app_inv_l in Hp. by symmetry.
Qed.

(** ** Properties *)

(** C22 [uvmalloc] is all or nothing for the memory of the process.  It never panics.
    If it returns the new size, the address space has exactly the pages for it, the
    added ones are zero-filled and mapped with the permissions asked for.  If it
    returns 0, every frame it had added is unmapped and back on the free list; the
    only pages that the free list has lost are those that [walk] took for page-table
    pages, which stay in the table, empty, until the address space is freed.  In
    both cases frames, tables and free pages are together the same pages as before
    and the contents of the frames that were there are unchanged. *)
Theorem uvmalloc_all_or_nothing s l T root us oldsz newsz xperm e :
  uvm_ok s l T root us -> 0 <= oldsz <= newsz -> newsz <= TRAPFRAME ->
  PGROUNDUP oldsz = Z.of_nat (length us) * PGSIZE -> 0 <= xperm < 1024 ->
  let perm := Z.lor (Z.lor PTE_R PTE_U) xperm in
  exists r s' l' T' us', uvmalloc root oldsz newsz xperm s e = Ok r s' e /\
    uvm_ok s' l' T' root us' /\ user_pages T' us' l' ≡ₚ user_pages T us l /\
    (forall f x, f ∈ us -> in_page f x -> ld8 (mem s') x = ld8 (mem s) x) /\
    ((r = newsz /\ PGROUNDUP newsz = Z.of_nat (length us') * PGSIZE /\
      exists nw, us' = us ++ nw /\ Forall (zeroed (mem s')) nw /\
        forall k f, nw !! k = Some f ->
          pt_leaf T' !! pt_path (Z.of_nat (length us + k) * PGSIZE) = Some (mk_pte f perm)) \/
     (r = 0 /\ us' = us /\ kept_tables T T' l l' /\
      forall va, aligned va -> 0 <= va < MAXVA -> pt_leaf T' !! pt_path va = pt_leaf T !! pt_path va)).
Proof.
  intros Hok Ho Hn Hus Hx perm. destruct TRAPFRAME_lt as (HT1 & HT2 & HT3).
  change MAXVA with (2 ^ 38) in HT2.
  assert (Hperm : 0 <= perm < 1024) by (apply (lor_lt _ _ 10); [lia|by vm_compute|done]).
  assert (Hpx : Z.lor perm PTE_V <> PTE_V).
  { intros H. apply (f_equal (fun z => Z.testbit z 1)) in H. unfold perm in H.
    rewrite !Z.lor_spec in H. by cbn in H. }
  assert (Hb : PGROUNDUP oldsz < oldsz + PGSIZE) by (apply PGROUNDUP_bounds; unfold PGSIZE in *; lia).
  destruct (uvmalloc_loop_run root (PGROUNDUP oldsz) newsz xperm us e Hperm Hpx Hus ltac:(lia)
    (Z.to_nat ((newsz - PGROUNDUP oldsz) / PGSIZE + 2)) [] s l T) as (r & s' & l' & T' & us' & Hr & _ & Hok' & Hp & Ht & Hd);
    rewrite ?app_nil_r in *; [exact Hok|lia|unfold PGSIZE in *; lia|].
  exists r, s', l', T', us'. split_and!; [|exact Hok'|exact Hp| |].
  - unfold uvmalloc. rewrite (proj2 (Z.ltb_ge _ _)) by lia. rewrite <- Hr. by rewrite <- Hus.
  - intros f x Hf Hin. eapply user_frame_keep; [exact Hok|exact Hf| |exact Hin].
    destruct Hd as [(_ & _ & H & _)|(_ & _ & H & _)]; exact H.
  - destruct Hd as [(-> & Hup & _ & _ & nw & -> & Hz & Hk)|(-> & -> & _ & Hl)]; rewrite ?app_nil_r in *.
    + left. split_and!; [done|exact Hup|]. exists nw. split_and!; [done|exact Hz|].
      intros k f Hkf. apply Hk; [|lia]. cbn [app]. rewrite lookup_app_r by lia. by replace (_ + k - _)%nat with k by lia.
    + right. split_and!; [done..|by apply (tables_kept T T' us)|]. intros va Hva Hr'. apply Hl; try done. lia.
Qed.

(** C23 [uvmfree] leaks nothing: once nothing but the frames below [sz] is
    mapped, it unmaps and frees every frame and every page-table page, each
    exactly once, and does not panic. *)
Theorem uvmfree_no_leak s l T root us sz e :
  uvm_ok s l T root us -> 0 <= sz <= TRAPFRAME -> PGROUNDUP sz = Z.of_nat (length us) * PGSIZE ->
  (forall va, aligned va -> TRAPFRAME <= va < MAXVA -> pt_leaf T !! pt_path va = None) ->
  exists s' l', uvmfree root sz s e = Ok () s' e /\ alloc_ok s' l' /\
    l' ≡ₚ us ++ pt_tab_pages T ++ l.
Proof.
  intros Hok Hs Hus Htop. destruct (uvmfree_run s l T root us sz e Hok Hs Hus Htop) as (s' & l' & Hr & Hal & _ & Hp & _).
  by exists s', l'.
Qed.

End UserSpace.

(** ** Evaluation on the sample state *)

Lemma uvm_ok_empty {L : Layout} s l root :
  vm_ok s l (pt_empty root) -> NoDup (root :: l) -> uvm_ok s l (pt_empty root) root [].
Proof.
  intros Hok Hnd. split; try done.
  - intros p [x Hx]. cbn in Hx. by rewrite lookup_empty in Hx.
Qed.

Lemma sample_uvm : exists s,
  uvm_ok (L := sample_layout) s (sample_page <$> [1; 2; 3; 4; 5; 6; 7])
    (pt_empty (sample_page 0)) (sample_page 0) [].
Proof.
  destruct (uvmcreate_run (L := sample_layout) (sample_page 0) (sample_page <$> [1; 2; 3; 4; 5; 6; 7])
    sample_free []) as (s & _ & _ & Hok & _).
  - apply sample_layout_ok.
  - apply sample_free_inv.
  - apply sample_free_wf.
  - apply sample_free_lfree, sample_lockids_elem. exact I.
  - exists s. apply uvm_ok_empty; [exact Hok|]. apply (bool_decide_unpack _). vm_compute. exact I.
Qed.

(** The same with one writable page mapped at address 0. *)
Lemma sample_mapped : exists s l T, uvm_ok (L := sample_layout) s l T (sample_page 0) [sample_page 1] /\
  pt_leaf T = <[pt_path 0 := mk_pte (sample_page 1) (Z.lor (Z.lor PTE_R PTE_W) PTE_U)]> ∅ /\
  sample_page 1 :: pt_tab_pages T ++ l ≡ₚ sample_page <$> [0; 1; 2; 3; 4; 5; 6; 7].
Proof.
  destruct sample_uvm as [s Hok]. pose proof (uv_vm _ _ _ _ _ Hok) as (HL & Hk & _ & _ & Hwf & Hlk).
  destruct (kalloc_zeroed (L := sample_layout) (sample_page 1)
    (list_fmap _ _ sample_page [2; 3; 4; 5; 6; 7]) s [] HL Hk Hwf Hlk)
    as (_ & _ & _ & Hms & Hk' & _ & Hfr & _).
  destruct (uvm_map (L := sample_layout) s _ _ _ _ _ [] (Z.lor (Z.lor PTE_R PTE_W) PTE_U) [] Hok Hms Hk' Hfr)
    as (s2 & l2 & T2 & r & _ & _ & _ & _ & Hpg & _ & Hc); [by vm_compute| |done|].
  { split; vm_compute; congruence. }
  destruct Hc as [(_ & _ & Hok2 & Hl2)|(_ & _ & Hlen & _)].
  - exists s2, l2, T2. split; [exact Hok2|]. split; [exact Hl2|]. rewrite Hpg. unfold pt_tab_pages. cbn [pt_tabs pt_empty].
    by rewrite map_to_list_singleton.
  - cbn in Hlen. lia.
Qed.

Lemma sample_uvm1 : exists s l T, uvm_ok (L := sample_layout) s l T (sample_page 0) [sample_page 1] /\
  pt_leaf T !! pt_path 0 = Some (mk_pte (sample_page 1) (Z.lor (Z.lor PTE_R PTE_W) PTE_U)).
Proof. destruct sample_mapped as (s & l & T & U & Hl & _). exists s, l, T. split; [exact U|]. by rewrite Hl, lookup_insert_eq. Qed.

Lemma uvmalloc_all_or_nothing_witness :
  exists s r s' l' T' us', uvmalloc (L := sample_layout) (sample_page 0) 0 (2 * PGSIZE) PTE_W s [] = Ok r s' [] /\
    uvm_ok (L := sample_layout) s' l' T' (sample_page 0) us'.
Proof.
  destruct sample_uvm as [s Hok].
  destruct (uvmalloc_all_or_nothing (L := sample_layout) s _ _ _ [] 0 (2 * PGSIZE) PTE_W [] Hok)
    as (r & s' & l' & T' & us' & Hr & Hok' & _).
  - vm_compute. split; congruence.
  - vm_compute. congruence.
  - reflexivity.
  - vm_compute. split; congruence.
  - exists s, r, s', l', T', us'. split; [exact Hr|exact Hok'].
Defined.

Lemma uvmfree_no_leak_witness :
  exists s s' l', uvmfree (L := sample_layout) (sample_page 0) 100 s [] = Ok () s' [] /\
    l' ≡ₚ sample_page <$> [0; 1; 2; 3; 4; 5; 6; 7].
Proof.
  destruct sample_mapped as (s & l & T & Hok & Hl & Hpg).
  destruct (uvmfree_no_leak (L := sample_layout) s _ _ _ _ 100 [] Hok) as (s' & l' & Hr & _ & Hp).
  - vm_compute. split; congruence.
  - reflexivity.
  - intros va Hva Hr. rewrite Hl, lookup_insert_ne; [apply lookup_empty|].
    destruct TRAPFRAME_lt as (HT1 & HT2 & _). clear -Hva Hr HT1 HT2. unfold PGSIZE in HT2.
    intros Heq. apply pt_path_inj in Heq; [lia|lia|lia|reflexivity|exact Hva].
  - exists s, s', l'. split; [exact Hr|]. rewrite Hp. exact Hpg.
Defined.
