(* ===== verification/Copy.v ===== *)
(** * Copying between the kernel and user memory

    [copyout], [copyin] and [copyinstr] on a user address space: they read and
    write exactly the bytes the page table maps for the user, whatever address
    and length they are given. *)

From stdpp Require Import base gmap strings numbers list.
From S2P Require Import Prelude KState StringC Spinlock Pages Sample Kalloc Vm PageTable UserVm UserSpace.

Ltac Zify.zify_post_hook ::= Z.to_euclidean_division_equations.

(** The physical address behind user address [va]. *)
Definition uaddr (us : list Z) (va : Z) : Z :=
  default 0 (us !! Z.to_nat (va / PGSIZE)) + va mod PGSIZE.

(** The [n] bytes of user memory from [va] on. *)
Definition ubytes (m : gmap Z Z) (us : list Z) (va : Z) (n : nat) : list Z :=
  (fun i => ld8 m (uaddr us (va + Z.of_nat i))) <$> seq 0 n.

Section Copy.
Context {L : Layout}.

(** The entry of [va]'s page, 0 if there is none. *)
Definition pte_of (T : pgt) (va : Z) : Z := default 0 (pt_leaf T !! pt_path va).

(** The pages from [va] to [va + len] are user pages with the given flags. *)
Definition accessible (T : pgt) (us : list Z) (fl va len : Z) : Prop :=
  0 <= va /\ va + len <= Z.of_nat (length us) * PGSIZE /\
  forall k, va < (k + 1) * PGSIZE -> k * PGSIZE < va + len -> 0 <= k ->
    has (pte_of T (k * PGSIZE)) PTE_U = true /\ has (pte_of T (k * PGSIZE)) fl = true.

(** ** One page *)

Lemma frame_at s l T root us k :
  uvm_ok s l T root us -> 0 <= k < Z.of_nat (length us) ->
  exists f, us !! Z.to_nat k = Some f /\ page_ok f /\ 0 < f /\
    pt_leaf T !! pt_path (k * PGSIZE) = Some (pte_of T (k * PGSIZE)) /\
    PTE2PA (pte_of T (k * PGSIZE)) = f /\ has (pte_of T (k * PGSIZE)) PTE_V = true.
Proof.
  intros [Hok Hroot Hm _ _ _ _] Hk. destruct (lookup_lt_is_Some_2 us (Z.to_nat k)) as [f Hf]; [lia|].
  exists f. pose proof Hok as (HL & _ & HT & _). destruct (Hm _ _ Hf) as (pte & Hl & Hpa & _ & Hpok).
  replace (Z.of_nat (Z.to_nat k)) with k in Hl by lia. unfold pte_of. rewrite Hl. cbn [from_option id].
  pose proof (page_ok_pos _ HL Hpok). destruct (rep_leaf _ _ HT _ _ Hl) as ((_ & HV) & _).
  split_and!; done || lia.
Qed.

Lemma rounddown_page va : 0 <= va < 2 ^ 64 -> PGROUNDDOWN va = va / PGSIZE * PGSIZE.
Proof. intros. rewrite PGROUNDDOWN_spec by done. lia. Qed.

(** A round of [copyout], on any address. *)
Lemma copyout_round n s l T root us dstva src len e :
  uvm_ok s l T root us -> 0 <= dstva < 2 ^ 64 -> 0 < len ->
  let va0 := PGROUNDDOWN dstva in
  let v := pte_of T va0 in
  let k := Z.min (PGSIZE - (dstva - va0)) len in
  copyout_loop (S n) root dstva src len s e =
    (if MAXVA <=? va0 then mret (-1) else
     if has v PTE_V && has v PTE_U && has v PTE_W then
       modify (upd_mem (fun m => st_bytes m (PTE2PA v + (dstva - va0)) (take (Z.to_nat k) src)));;
       copyout_loop n root (va0 + PGSIZE) (drop (Z.to_nat k) src) (len - k)
     else mret (-1)) s e.
Proof.
  intros [Hok Hroot _ _ _ _ _] Hva Hlen va0 v k. pose proof Hok as (HL & _ & HT & _).
  cbn [copyout_loop]. rewrite (proj2 (Z.ltb_lt 0 len)) by lia. cbn [negb]. fold va0.
  destruct (Z.leb_spec MAXVA va0) as [|Hlt]; [done|].
  assert (Hva0 : 0 <= va0 < MAXVA).
  { split; [|done]. unfold va0. rewrite PGROUNDDOWN_spec by done. unfold PGSIZE. lia. }
  kstep ltac:(by apply (walk_noalloc T)).
  destruct (pt_tabs T !! [PX 2 va0; PX 1 va0]) as [pg|] eqn:Hpg.
  - pose proof (pt_walk_pos _ _ _ _ HL HT Hpg). rewrite (proj2 (Z.eqb_neq _ _)) by lia.
    unfold rd64. kpure. rewrite (walk_entry _ _ _ _ HT Hpg). fold v.
    change (default 0 (pt_leaf T !! pt_path va0)) with v. rewrite <- !negb_andb.
    by destruct (has v PTE_V && has v PTE_U && has v PTE_W).
  - unfold pt_walk. rewrite Hpg. cbn [Z.eqb].
    assert (Hv : v = 0).
    { unfold v, pte_of. destruct (pt_leaf T !! pt_path va0) as [pte|] eqn:Hl; [|done].
      destruct (leaf_tab _ _ _ _ HT Hl). congruence. }
    rewrite Hv, has_0. done.
Qed.

Lemma copyin_round n s l T root us dst srcva len e :
  uvm_ok s l T root us -> 0 <= srcva < 2 ^ 64 -> 0 < len ->
  let va0 := PGROUNDDOWN srcva in
  let pa0 := if MAXVA <=? va0 then 0 else pt_translate T va0 in
  let k := Z.min (PGSIZE - (srcva - va0)) len in
  copyin_loop (S n) root dst srcva len s e =
    (if pa0 =? 0 then mret (-1, dst) else
     copyin_loop n root (dst ++ ld_bytes (mem s) (pa0 + (srcva - va0)) (Z.to_nat k))
       (va0 + PGSIZE) (len - k)) s e.
Proof.
  intros [Hok Hroot _ _ _ _ _] Hva Hlen va0 pa0 k. pose proof Hok as (HL & _ & HT & _).
  cbn [copyin_loop]. rewrite (proj2 (Z.ltb_lt 0 len)) by lia. cbn [negb]. fold va0.
  erewrite bind_ok; [|instantiate (1 := e); instantiate (1 := s); instantiate (1 := pa0)].
  - destruct (pa0 =? 0); [done|]. by kpure.
  - unfold pa0. unfold walkaddr at 1. destruct (Z.leb_spec MAXVA va0) as [|Hlt]; [done|].
    assert (Hva0 : 0 <= va0 < MAXVA).
    { split; [|done]. unfold va0. rewrite PGROUNDDOWN_spec by done. unfold PGSIZE. lia. }
    rewrite <- (walkaddr_run T root va0 s e HL HT Hroot Hva0). unfold walkaddr.
    by rewrite (proj2 (Z.leb_gt _ _)) by lia.
Qed.

(** ** Writing into a frame *)

Lemma mem_frame_st_bytes f a bs m :
  f <= a -> a + Z.of_nat (length bs) <= f + PGSIZE -> mem_frame [f] m (st_bytes m a bs).
Proof.
  intros H1 H2 b Hb. rewrite ld8_st_bytes. case_decide; [|done].
  exfalso. apply (Hb f); [by left|]. unfold in_page. lia.
Qed.

Lemma uvm_ok_write s l T root us k f m :
  uvm_ok s l T root us -> us !! k = Some f -> mem_frame [f] (mem s) m ->
  uvm_ok (set_mem m s) l T root us.
Proof.
  intros [(HL & Hk & HT & Hd & Hwf & Hlk) Hroot Hm Hf Hsz Hnd Hkeys] Hkf Hfr.
  destruct (Hm _ _ Hkf) as (_ & _ & _ & _ & Hpok).
  assert (Hn : f ∉ pt_tab_pages T /\ f ∉ l).
  { apply NoDup_app in Hnd as (_ & Hnd & _). specialize (Hnd f (list_elem_of_lookup_2 _ _ _ Hkf)).
    by rewrite not_elem_of_app in Hnd. }
  destruct Hn as [Hn1 Hn2].
  split; try done. refine (conj HL (conj _ (conj _ (conj Hd (conj Hwf Hlk))))).
  - refine (kmem_frame [f] s l m Hfr _ _ Hk); [forall_list|]. by intros x ->%list_elem_of_singleton.
  - split; try apply HT. intros q pg i Hq Hi. rewrite <- (rep_word _ _ HT _ _ _ Hq Hi).
    refine (frame_word [f] _ _ _ _ Hfr _ (proj1 (rep_page _ _ HT _ _ Hq)) _ Hi); [forall_list|].
    intros ->%list_elem_of_singleton. apply Hn1. by eapply tab_page_in.
Qed.

Lemma uaddr_page us va f :
  us !! Z.to_nat (va / PGSIZE) = Some f -> uaddr us va = f + va mod PGSIZE.
Proof. intros H. unfold uaddr. by rewrite H. Qed.

Lemma uaddr_inj s l T root us va va' :
  uvm_ok s l T root us -> 0 <= va < Z.of_nat (length us) * PGSIZE ->
  0 <= va' < Z.of_nat (length us) * PGSIZE -> uaddr us va = uaddr us va' -> va = va'.
Proof.
  intros Hok Hva Hva' Heq.
  destruct (frame_at _ _ _ _ _ (va / PGSIZE) Hok) as (f & Hf & Hfok & _); [unfold PGSIZE in *; lia|].
  destruct (frame_at _ _ _ _ _ (va' / PGSIZE) Hok) as (f' & Hf' & Hfok' & _); [unfold PGSIZE in *; lia|].
  rewrite (uaddr_page _ _ _ Hf), (uaddr_page _ _ _ Hf') in Heq.
  assert (f = f') as <-.
  { apply (page_ok_disj f f' (f + va mod PGSIZE)); try done; unfold in_page, PGSIZE in *; lia. }
  pose proof (uv_pages _ _ _ _ _ Hok) as Hnd. apply NoDup_app in Hnd as [Hnd _].
  pose proof (NoDup_lookup _ _ _ _ Hnd Hf Hf'). unfold PGSIZE in *. lia.
Qed.

(** A write through one frame, seen at user addresses. *)
Lemma uwrite_page s l T root us va bs va' :
  uvm_ok s l T root us -> 0 <= va -> va + Z.of_nat (length bs) <= Z.of_nat (length us) * PGSIZE ->
  (0 < length bs)%nat -> va mod PGSIZE + Z.of_nat (length bs) <= PGSIZE ->
  0 <= va' < Z.of_nat (length us) * PGSIZE ->
  ld8 (st_bytes (mem s) (uaddr us va) bs) (uaddr us va') =
    if decide (va <= va' < va + Z.of_nat (length bs)) then default 0 (bs !! Z.to_nat (va' - va))
    else ld8 (mem s) (uaddr us va').
Proof.
  intros Hok Hva Hb Hpos Hpg Hva'.
  assert (Hin : forall i, 0 <= i < Z.of_nat (length bs) -> uaddr us (va + i) = uaddr us va + i).
  { intros i Hi. unfold uaddr. replace ((va + i) / PGSIZE) with (va / PGSIZE) by (unfold PGSIZE in *; lia).
    replace ((va + i) mod PGSIZE) with (va mod PGSIZE + i) by (unfold PGSIZE in *; lia). lia. }
  rewrite ld8_st_bytes. case_decide as H1; case_decide as H2.
  - do 2 f_equal. replace va' with (va + (va' - va)) at 1 by lia. rewrite Hin by lia. f_equal. lia.
  - exfalso. apply H2. set (i := uaddr us va' - uaddr us va).
    assert (Heq : uaddr us va' = uaddr us (va + i)) by (rewrite Hin; unfold i; lia).
    apply (uaddr_inj s l T root us) in Heq; try done; unfold i in *; lia.
  - exfalso. apply H1. replace va' with (va + (va' - va)) by lia. rewrite Hin by lia. lia.
  - done.
Qed.

(** ** [copyout] *)

Lemma copyout_loop_run n s l T root us va src len e :
  uvm_ok s l T root us -> accessible T us PTE_W va len -> Z.of_nat (length src) = len ->
  va mod PGSIZE + len + PGSIZE <= Z.of_nat n * PGSIZE ->
  exists s', copyout_loop n root va src len s e = Ok 0 s' e /\ memstep s s' /\
    uvm_ok s' l T root us /\ mem_frame us (mem s) (mem s') /\
    forall va', 0 <= va' < Z.of_nat (length us) * PGSIZE ->
      ld8 (mem s') (uaddr us va') =
        if decide (va <= va' < va + len) then default 0 (src !! Z.to_nat (va' - va))
        else ld8 (mem s) (uaddr us va').
Proof.
  revert s va src len. induction n as [|n IH]; intros s va src len Hok Hacc Hlen Hn.
  - unfold PGSIZE in *. lia.
  - destruct (decide (len = 0)) as [->|Hl0].
    { exists s. cbn [copyout_loop]. split_and!; try done. intros va' _. by rewrite decide_False by lia. }
    destruct Hacc as (Hva & Hb & Hacc). pose proof (uv_size _ _ _ _ _ Hok) as Hsz.
    assert (Hv64 : 0 <= va < 2 ^ 64).
    { destruct TRAPFRAME_lt as (_ & H & _). change MAXVA with (2 ^ 38) in H. unfold PGSIZE in *. lia. }
    rewrite (copyout_round n s l T root us va src len e Hok Hv64) by lia. cbn zeta.
    rewrite rounddown_page by done. set (q := va / PGSIZE).
    destruct (frame_at _ _ _ _ _ q Hok) as (f & Hf & Hfok & Hfpos & Hleaf & Hpa & HV);
      [unfold q, PGSIZE in *; lia|].
    destruct (Hacc q) as [HU HW]; [unfold q, PGSIZE in *; lia..|].
    rewrite (proj2 (Z.leb_gt _ _))
      by (destruct TRAPFRAME_lt as (_ & H & _); unfold q, PGSIZE in *; lia).
    rewrite HV, HU, HW, Hpa. cbn [andb]. kpure.
    set (k := Z.min (PGSIZE - (va - q * PGSIZE)) len). set (bs := take (Z.to_nat k) src).
    assert (Hk : 0 < k <= len) by (unfold k, q, PGSIZE in *; lia).
    assert (Hbl : Z.of_nat (length bs) = k) by (unfold bs; rewrite length_take; lia).
    assert (Hua : f + (va - q * PGSIZE) = uaddr us va)
      by (rewrite (uaddr_page _ _ _ Hf); unfold q, PGSIZE; lia).
    rewrite Hua. set (s1 := upd_mem (fun m => st_bytes m (uaddr us va) bs) s).
    assert (Hfr1 : mem_frame [f] (mem s) (mem s1)).
    { apply mem_frame_st_bytes; rewrite <- Hua, ?Hbl; unfold k, q, PGSIZE in *; lia. }
    assert (Hok1 : uvm_ok s1 l T root us) by (eapply uvm_ok_write; eassumption).
    destruct (IH s1 (q * PGSIZE + PGSIZE) (drop (Z.to_nat k) src) (len - k) Hok1)
      as (s2 & Hr2 & Hms2 & Hok2 & Hfr2 & Hub).
    { split; [unfold q, PGSIZE in *; lia|]. split; [unfold k, q, PGSIZE in *; lia|].
      intros j Hj1 Hj2 Hj3. apply Hacc; unfold k, q, PGSIZE in *; lia. }
    { rewrite length_drop. lia. }
    { unfold k, q, PGSIZE in *. lia. }
    exists s2. split_and!; [exact Hr2| |exact Hok2| |].
    + etransitivity; [apply memstep_mem|exact Hms2].
    + eapply mem_frame_trans; [|exact Hfr2]. eapply mem_frame_mono; [|exact Hfr1].
      intros x ->%list_elem_of_singleton. by eapply list_elem_of_lookup_2.
    + intros va' Hva'. rewrite Hub by done. change (mem s1) with (st_bytes (mem s) (uaddr us va) bs).
      rewrite (uwrite_page s l T root us va bs va' Hok) by (unfold k, q, PGSIZE in *; lia).
      rewrite Hbl. unfold bs. repeat case_decide; try done; try (unfold k, q, PGSIZE in *; lia).
      * rewrite lookup_drop. do 2 f_equal. unfold k, q, PGSIZE in *. lia.
      * by rewrite lookup_take_lt by lia.
Qed.


(** ** [copyin] and [copyinstr] *)

Lemma length_ubytes m us va n : length (ubytes m us va n) = n.
Proof. unfold ubytes. by rewrite length_fmap, length_seq. Qed.

Lemma ubytes_app m us va a b :
  ubytes m us va (a + b) = ubytes m us va a ++ ubytes m us (va + Z.of_nat a) b.
Proof.
  unfold ubytes. rewrite seq_app, fmap_app. f_equal. apply list_eq. intros i.
  rewrite !list_lookup_fmap. destruct (decide (i < b)%nat).
  - rewrite !lookup_seq_lt by lia. cbn. do 3 f_equal. lia.
  - rewrite !lookup_seq_ge by lia. done.
Qed.

(** Within one page, user bytes are consecutive bytes of the frame. *)
Lemma ubytes_page m us va n :
  va mod PGSIZE + Z.of_nat n <= PGSIZE -> ubytes m us va n = ld_bytes m (uaddr us va) n.
Proof.
  intros H. apply list_eq. intros i. unfold ubytes. rewrite list_lookup_fmap.
  destruct (decide (i < n)%nat) as [Hi|Hi].
  - rewrite lookup_seq_lt, lookup_ld_bytes by done. cbn. do 2 f_equal. unfold uaddr.
    replace ((va + Z.of_nat i) / PGSIZE) with (va / PGSIZE) by (unfold PGSIZE in *; lia).
    replace ((va + Z.of_nat i) mod PGSIZE) with (va mod PGSIZE + Z.of_nat i) by (unfold PGSIZE in *; lia). lia.
  - rewrite lookup_seq_ge by lia. rewrite lookup_ge_None_2; [done|]. rewrite length_ld_bytes. lia.
Qed.

(** The page of an accessible address, as [copyin] and [copyinstr] find it. *)
Lemma access_page s l T root us fl va len :
  uvm_ok s l T root us -> accessible T us fl va len -> 0 < len ->
  let va0 := PGROUNDDOWN va in
  0 <= va < 2 ^ 64 /\ va0 = va / PGSIZE * PGSIZE /\ va0 < MAXVA /\
  0 < pt_translate T va0 /\ pt_translate T va0 + (va - va0) = uaddr us va.
Proof.
  intros Hok (Hva & Hb & Hacc) Hlen va0. pose proof (uv_size _ _ _ _ _ Hok) as Hsz.
  destruct TRAPFRAME_lt as (_ & HT2 & _).
  assert (Hv64 : 0 <= va < 2 ^ 64) by (change MAXVA with (2 ^ 38) in HT2; unfold PGSIZE in *; lia).
  assert (Hva0 : va0 = va / PGSIZE * PGSIZE) by (by apply rounddown_page).
  destruct (frame_at _ _ _ _ _ (va / PGSIZE) Hok) as (f & Hf & _ & Hfpos & Hleaf & Hpa & _);
    [unfold PGSIZE in *; lia|].
  destruct (Hacc (va / PGSIZE)) as [HU _]; [unfold PGSIZE in *; lia..|].
  assert (Htr : pt_translate T va0 = f).
  { unfold pt_translate. rewrite Hva0, Hleaf, HU. done. }
  rewrite Htr, (uaddr_page _ _ _ Hf). split_and!; try done; unfold PGSIZE in *; lia.
Qed.

Lemma accessible_next T us fl va len k :
  accessible T us fl va len -> 0 <= va -> k = Z.min (PGSIZE - (va - va / PGSIZE * PGSIZE)) len ->
  0 < len -> accessible T us fl (va / PGSIZE * PGSIZE + PGSIZE) (len - k).
Proof.
  intros (Hva & Hb & Hacc) _ -> Hlen. split; [unfold PGSIZE in *; lia|].
  split; [unfold PGSIZE in *; lia|]. intros j Hj1 Hj2 Hj3. apply Hacc; unfold PGSIZE in *; lia.
Qed.

Lemma copyin_loop_run n s l T root us dst va len e :
  uvm_ok s l T root us -> accessible T us PTE_U va len -> 0 <= len ->
  va mod PGSIZE + len + PGSIZE <= Z.of_nat n * PGSIZE ->
  copyin_loop n root dst va len s e = Ok (0, dst ++ ubytes (mem s) us va (Z.to_nat len)) s e.
Proof.
  intros Hok. revert dst va len. induction n as [|n IH]; intros dst va len Hacc Hlen Hn.
  { unfold PGSIZE in *. lia. }
  destruct (decide (len = 0)) as [->|Hl0]; [cbn; by rewrite app_nil_r|].
  destruct (access_page _ _ _ _ _ _ _ _ Hok Hacc) as (Hv64 & Hva0 & Hlt & Hpos & Hua); [lia|].
  rewrite (copyin_round n s l T root us dst va len e Hok Hv64) by lia. cbn zeta.
  rewrite (proj2 (Z.leb_gt _ _)), (proj2 (Z.eqb_neq _ _)), Hua by lia.
  set (k := Z.min (PGSIZE - (va - PGROUNDDOWN va)) len).
  assert (Hk : 0 < k <= len) by (unfold k; rewrite Hva0; unfold PGSIZE in *; lia).
  rewrite IH.
  - rewrite <- app_assoc. do 3 f_equal.
    replace (Z.to_nat len) with (Z.to_nat k + Z.to_nat (len - k))%nat by lia.
    rewrite ubytes_app. rewrite (ubytes_page _ _ va) by (unfold k; rewrite Hva0; unfold PGSIZE in *; lia). f_equal.
    destruct (decide (len - k = 0)) as [->|Hne]; [done|]. f_equal.
    unfold k in *. rewrite Hva0 in *. unfold PGSIZE in *. lia.
  - rewrite Hva0. apply accessible_next; [done|lia|by rewrite <- Hva0|lia].
  - lia.
  - unfold k. rewrite Hva0. unfold PGSIZE in *. lia.
Qed.

Lemma copy_str_spec bs :
  copy_str bs = if decide (0 ∈ bs) then (true, cstr bs ++ [0]) else (false, bs).
Proof.
  induction bs as [|c bs IH]; [done|]. cbn [copy_str cstr]. rewrite IH.
  destruct (Z.eqb_spec c 0) as [->|Hc].
  - rewrite decide_True by (by left). done.
  - destruct (decide (0 ∈ bs)) as [H|H].
    + rewrite decide_True by (by right). done.
    + rewrite decide_False; [done|]. rewrite elem_of_cons. by intros [?|?].
Qed.

Lemma cstr_app_in l r : 0 ∈ l -> cstr (l ++ r) = cstr l.
Proof.
  induction l as [|c l IH]; [by intros ?%elem_of_nil|]. cbn. destruct (Z.eqb_spec c 0); [done|].
  intros [?|H]%elem_of_cons; [done|]. by rewrite IH.
Qed.
Lemma cstr_app_notin l r : 0 ∉ l -> cstr (l ++ r) = l ++ cstr r.
Proof.
  induction l as [|c l IH]; [done|]. rewrite not_elem_of_cons. intros [Hc Hl]. cbn.
  destruct (Z.eqb_spec c 0); [by subst|]. by rewrite IH.
Qed.

Lemma copyinstr_loop_run n s l T root us dst va len max e :
  uvm_ok s l T root us -> accessible T us PTE_U va len -> 0 <= len <= max ->
  0 ∈ ubytes (mem s) us va (Z.to_nat len) -> va mod PGSIZE + len + PGSIZE <= Z.of_nat n * PGSIZE ->
  copyinstr_loop n root dst va max s e =
    Ok (0, dst ++ cstr (ubytes (mem s) us va (Z.to_nat len)) ++ [0]) s e.
Proof.
  intros Hok. revert dst va len max. induction n as [|n IH]; intros dst va len max Hacc Hlen Hin Hn.
  { unfold PGSIZE in *. lia. }
  destruct (decide (len = 0)) as [->|Hl0]; [by apply elem_of_nil in Hin|].
  destruct (access_page _ _ _ _ _ _ _ _ Hok Hacc) as (Hv64 & Hva0 & Hlt & Hpos & Hua); [lia|].
  pose proof (uv_vm _ _ _ _ _ Hok) as (HL & _ & HT & _). pose proof (uv_root _ _ _ _ _ Hok) as Hroot.
  cbn [copyinstr_loop]. rewrite (proj2 (Z.ltb_lt 0 max)) by lia. cbn [negb].
  kstep ltac:(apply (walkaddr_run T); [done..|]; rewrite Hva0 in *; unfold PGSIZE in *; lia).
  rewrite (proj2 (Z.eqb_neq _ _)), Hua by lia. kpure. set (k := Z.min (PGSIZE - (va - PGROUNDDOWN va)) max).
  set (k1 := Z.min (PGSIZE - (va - PGROUNDDOWN va)) len).
  assert (Hk : 0 < k1 <= k /\ k <= max /\ k1 <= len /\ (k1 = k \/ k1 = len)).
  { unfold k, k1. rewrite Hva0. unfold PGSIZE in *. lia. }
  rewrite <- (ubytes_page _ us va) by (unfold k; rewrite Hva0; unfold PGSIZE in *; lia).
  rewrite copy_str_spec.
  replace (Z.to_nat len) with (Z.to_nat k1 + Z.to_nat (len - k1))%nat in Hin |- * by lia.
  replace (Z.to_nat k) with (Z.to_nat k1 + Z.to_nat (k - k1))%nat by lia.
  rewrite !ubytes_app in *. apply elem_of_app in Hin.
  destruct (decide (0 ∈ ubytes (mem s) us va (Z.to_nat k1))) as [H1|H1].
  - rewrite decide_True by (apply elem_of_app; by left). by rewrite !cstr_app_in by done.
  - destruct Hin as [?|Hin]; [done|]. assert (Hkk : k1 = k).
    { destruct Hk as (_ & _ & _ & [?| ->]); [done|]. rewrite Z.sub_diag in Hin. by apply elem_of_nil in Hin. }
    rewrite Hkk, Z.sub_diag in *. cbn [Z.to_nat]. rewrite (app_nil_r (ubytes _ _ va _)).
    rewrite decide_False by done. rewrite cstr_app_notin by done.
    assert (Hnx : va + Z.of_nat (Z.to_nat k) = PGROUNDDOWN va + PGSIZE).
    { destruct (decide (len - k = 0)) as [Hz|Hz]; [rewrite Hz in Hin; by apply elem_of_nil in Hin|].
      unfold k1 in *. rewrite Hva0 in *. unfold PGSIZE in *. lia. }
    rewrite (IH _ _ (len - k)).
    + rewrite Hnx. by rewrite <- !app_assoc.
    + rewrite Hva0. apply accessible_next; [done|lia|by rewrite <- Hva0|lia].
    + lia.
    + by rewrite Hnx in Hin.
    + rewrite Hva0 in *. unfold k, k1, PGSIZE in *. lia.
Qed.

(** Whatever the arguments, a round stays within the user's writable frames. *)
Definition uwritable (T : pgt) (us : list Z) (a : Z) : Prop :=
  exists k f, us !! k = Some f /\ in_page f a /\
    has (pte_of T (Z.of_nat k * PGSIZE)) PTE_U = true /\
    has (pte_of T (Z.of_nat k * PGSIZE)) PTE_W = true.

Lemma copyout_loop_confined n s l T root us va src len e :
  uvm_ok s l T root us -> 0 <= va < 2 ^ 64 -> 0 <= len ->
  va mod PGSIZE + len + PGSIZE <= Z.of_nat n * PGSIZE ->
  (forall pte va', aligned va' -> TRAPFRAME <= va' < MAXVA ->
     pt_leaf T !! pt_path va' = Some pte -> has pte PTE_U = false) ->
  exists r s', copyout_loop n root va src len s e = Ok r s' e /\ (r = 0 \/ r = -1) /\
    uvm_ok s' l T root us /\
    forall a, ~ uwritable T us a -> ld8 (mem s') a = ld8 (mem s) a.
Proof.
  intros Hok Hva Hl Hn Htop. revert s va src len Hok Hva Hl Hn.
  induction n as [|n IH]; intros s va src len Hok Hva Hl Hn.
  { unfold PGSIZE in *. lia. }
  destruct (decide (0 < len)) as [Hpos|Hz].
  2: { exists 0, s. cbn [copyout_loop]. rewrite (proj2 (Z.ltb_ge _ _)) by lia.
       split_and!; [done|by left|done|done]. }
  rewrite (copyout_round n s l T root us va src len e Hok Hva Hpos). cbn zeta.
  rewrite rounddown_page by done. set (q := va / PGSIZE).
  destruct (Z.leb_spec MAXVA (q * PGSIZE)) as [|Hlt]; [exists (-1), s; split_and!; [done|by right|done|done]|].
  destruct (has (pte_of T (q * PGSIZE)) PTE_V && has (pte_of T (q * PGSIZE)) PTE_U &&
    has (pte_of T (q * PGSIZE)) PTE_W) eqn:Hfl;
    [|exists (-1), s; split_and!; [done|by right|done|done]].
  apply andb_true_iff in Hfl as [[HV HU]%andb_true_iff HW].
  assert (Hal : aligned (q * PGSIZE)) by (unfold aligned, PGSIZE; lia).
  assert (Hq : 0 <= q < Z.of_nat (length us)).
  { split; [unfold q, PGSIZE; lia|]. destruct (decide (q < Z.of_nat (length us))) as [|Hge]; [done|exfalso].
    unfold pte_of in HU, HV. destruct (pt_leaf T !! pt_path (q * PGSIZE)) as [pte|] eqn:Hlf;
      [|cbn in HV; by rewrite has_0 in HV]. cbn in HU.
    destruct (decide (q * PGSIZE < TRAPFRAME)).
    - rewrite (uv_free _ _ _ _ _ Hok) in Hlf by (done || unfold PGSIZE in *; lia). done.
    - rewrite (Htop pte (q * PGSIZE)) in HU by (done || lia). done. }
  destruct (frame_at _ _ _ _ _ q Hok Hq) as (f & Hf & Hfok & Hfpos & Hleaf & Hpa & _). rewrite Hpa. kpure.
  set (k := Z.min (PGSIZE - (va - q * PGSIZE)) len).
  set (s1 := upd_mem (fun m => st_bytes m (f + (va - q * PGSIZE)) (take (Z.to_nat k) src)) s).
  assert (Hfr1 : mem_frame [f] (mem s) (mem s1)).
  { apply mem_frame_st_bytes; rewrite ?length_take; unfold k, q, PGSIZE in *; lia. }
  destruct (IH s1 (q * PGSIZE + PGSIZE) (drop (Z.to_nat k) src) (len - k))
    as (r & s2 & Hr & Hr01 & Hok2 & Hkeep).
  - eapply uvm_ok_write; eassumption.
  - change MAXVA with (2 ^ 38) in Hlt. unfold PGSIZE in *. lia.
  - unfold k. lia.
  - unfold k, q, PGSIZE in *. lia.
  - exists r, s2. split_and!; [exact Hr|exact Hr01|exact Hok2|]. intros a Ha. rewrite Hkeep by done.
    apply Hfr1. intros x ->%list_elem_of_singleton Hin. apply Ha. exists (Z.to_nat q), f.
    replace (Z.of_nat (Z.to_nat q)) with q by lia. done.
Qed.

(** ** Properties *)

(** C27 [copyout] followed by [copyin] gives the bytes back, over any number of
    page boundaries; every other user byte, the page table and the free list
    are unchanged. *)
Theorem copyout_copyin s l T root us va src e :
  uvm_ok s l T root us -> accessible T us PTE_W va (Z.of_nat (length src)) ->
  exists s', copyout root va src (Z.of_nat (length src)) s e = Ok 0 s' e /\
    copyin root va (Z.of_nat (length src)) s' e = Ok (0, src) s' e /\
    uvm_ok s' l T root us /\
    forall va', 0 <= va' < Z.of_nat (length us) * PGSIZE ->
      ~ (va <= va' < va + Z.of_nat (length src)) ->
      ld8 (mem s') (uaddr us va') = ld8 (mem s) (uaddr us va').
Proof.
  intros Hok Hacc. set (len := Z.of_nat (length src)). pose proof Hacc as (Hva & Hb & Hfl).
  assert (Hfuel : va mod PGSIZE + len + PGSIZE <= Z.of_nat (Z.to_nat (len / PGSIZE + 3)) * PGSIZE)
    by (unfold len, PGSIZE in *; lia).
  destruct (copyout_loop_run _ s l T root us va src len e Hok Hacc eq_refl Hfuel)
    as (s' & Hr & _ & Hok' & _ & Hub).
  exists s'. split_and!; [exact Hr| |exact Hok'|].
  - unfold copyin. rewrite (copyin_loop_run _ s' l T root us [] va len e Hok'); [|..|exact Hfuel].
    + do 2 f_equal. cbn [app]. f_equal. apply list_eq. intros i. unfold ubytes, len.
      rewrite Nat2Z.id, list_lookup_fmap. destruct (decide (i < length src)%nat) as [Hi|Hi].
      * rewrite lookup_seq_lt by done. cbn. rewrite Hub by (unfold len in *; lia).
        rewrite decide_True by (unfold len; lia). replace (Z.to_nat (va + Z.of_nat i - va)) with i by lia.
        destruct (lookup_lt_is_Some_2 src i Hi) as [x ->]. done.
      * rewrite lookup_seq_ge, lookup_ge_None_2 by lia. done.
    + split_and!; [done|done|]. intros k H1 H2 H3. destruct (Hfl k H1 H2 H3) as [HU _]. done.
    + unfold len. lia.
  - intros va' Hva' Hout. rewrite Hub by done. by rewrite decide_False.
Qed.

(** C28 [copyout] is confined: whatever destination address and length a system
    call passes, it returns 0 or -1 without panicking, keeps the page table and
    the free list, and changes no byte outside the frames that the page table
    maps as user-accessible and writable. *)
Theorem copyout_confined s l T root us va src len e :
  uvm_ok s l T root us -> 0 <= va < 2 ^ 64 -> 0 <= len ->
  (forall pte va', aligned va' -> TRAPFRAME <= va' < MAXVA ->
     pt_leaf T !! pt_path va' = Some pte -> has pte PTE_U = false) ->
  exists r s', copyout root va src len s e = Ok r s' e /\ (r = 0 \/ r = -1) /\
    uvm_ok s' l T root us /\
    forall a, ~ uwritable T us a -> ld8 (mem s') a = ld8 (mem s) a.
Proof. intros Hok Hva Hl Htop. apply (copyout_loop_confined _ s l); try done. unfold PGSIZE. lia. Qed.

(** C29 [copyinstr] fetches exactly the NUL-terminated string at a user address
    whose bytes up to the terminator are mapped for the user and fit in [max],
    across page boundaries. *)
Theorem copyinstr_string s l T root us va len max e :
  uvm_ok s l T root us -> accessible T us PTE_U va len -> 0 <= len <= max ->
  0 ∈ ubytes (mem s) us va (Z.to_nat len) ->
  copyinstr root va max s e = Ok (0, cstr (ubytes (mem s) us va (Z.to_nat len)) ++ [0]) s e.
Proof.
  intros Hok Hacc Hlen Hin. unfold copyinstr. pose proof Hacc as (Hva & _).
  apply (copyinstr_loop_run _ s l T root us [] va len max e Hok Hacc Hlen Hin).
  unfold PGSIZE in *. lia.
Qed.

End Copy.

Lemma sample_accessible s l T fl len :
  uvm_ok (L := sample_layout) s l T (sample_page 0) [sample_page 1] ->
  pt_leaf T !! pt_path 0 = Some (mk_pte (sample_page 1) (Z.lor (Z.lor PTE_R PTE_W) PTE_U)) ->
  fl = PTE_W \/ fl = PTE_U -> 0 <= len <= PGSIZE ->
  accessible T [sample_page 1] fl 0 len.
Proof.
  intros Hok Hl Hfl Hlen. split_and!; [lia|cbn; lia|]. intros k H1 H2 H3.
  assert (k = 0) as -> by (unfold PGSIZE in *; lia). unfold pte_of. change (0 * PGSIZE) with 0.
  rewrite Hl. destruct Hfl as [->| ->]; by vm_compute.
Qed.

Lemma copyout_copyin_witness :
  exists s s', copyout (sample_page 0) 0 [7; 8; 9] 3 s [] = Ok 0 s' [] /\
    copyin (sample_page 0) 0 3 s' [] = Ok (0, [7; 8; 9]) s' [].
Proof.
  destruct sample_uvm1 as (s & l & T & Hok & Hl).
  destruct (copyout_copyin (L := sample_layout) s l T (sample_page 0) [sample_page 1] 0 [7; 8; 9] [] Hok)
    as (s' & H1 & H2 & _).
  - apply (sample_accessible s l T); [exact Hok|exact Hl|left; reflexivity|vm_compute; split; congruence].
  - exists s, s'. split; [exact H1|exact H2].
Defined.

Lemma copyout_confined_witness :
  exists s r s', copyout (sample_page 0) (2 ^ 64 - 8) [7; 8; 9] 3 s [] = Ok r s' [] /\ (r = 0 \/ r = -1).
Proof.
  destruct sample_uvm as [s Hok].
  destruct (copyout_confined (L := sample_layout) s _ _ (sample_page 0) [] (2 ^ 64 - 8) [7; 8; 9] 3 [] Hok)
    as (r & s' & H1 & H2 & _).
  - split; vm_compute; congruence.
  - lia.
  - intros pte va _ _ H. cbn in H. rewrite lookup_empty in H. congruence.
  - exists s, r, s'. split; [exact H1|exact H2].
Defined.

Lemma copyinstr_string_witness :
  exists s out, copyinstr (sample_page 0) 0 16 s [] = Ok (0, out) s [].
Proof.
  destruct sample_uvm1 as (s & l & T & Hok & Hl).
  destruct (copyout_loop_run (L := sample_layout) 2 s l T (sample_page 0) [sample_page 1] 0 [104; 0] 2 [] Hok)
    as (s' & _ & _ & Hok' & _ & Hub).
  - apply (sample_accessible s l T); [exact Hok|exact Hl|left; reflexivity|vm_compute; split; congruence].
  - reflexivity.
  - vm_compute. congruence.
  - exists s'. eexists.
    apply (copyinstr_string (L := sample_layout) s' l T (sample_page 0) [sample_page 1] 0 2 16 [] Hok').
    + apply (sample_accessible s' l T); [exact Hok'|exact Hl|right; reflexivity|vm_compute; split; congruence].
    + lia.
    + unfold ubytes. cbn [Z.to_nat Pos.to_nat Pos.iter_op Nat.add seq fmap list_fmap].
      right. rewrite Hub by (cbn; unfold PGSIZE; lia). rewrite decide_True by (cbn; lia). left.
Defined.
