(* ===== verification/ForkVm.v ===== *)
(** * Copying an address space

    [uvmcopy], the part of [fork] that copies the parent's memory, on two page
    tables in one physical memory. *)

From stdpp Require Import base gmap strings numbers list.
From S2P Require Import Prelude KState StringC Spinlock Pages Sample Kalloc Vm PageTable UserVm UserSpace Copy.

Ltac Zify.zify_post_hook ::= Z.to_euclidean_division_equations.

Section ForkVm.
Context {L : Layout}.

(** ** Two address spaces *)

(** What another process does to its own pages [C] and to the free list does
    not touch an address space. *)
Lemma uvm_ok_other s l T root us s' l' C :
  uvm_ok s l T root us -> kmem_inv s' l' -> cpu_wf (syn s') -> lfree (syn s') Lkmem ->
  Forall page_ok C -> (forall x, x ∈ us ++ pt_tab_pages T -> x ∉ C) -> l' ⊆ C ->
  mem_frame C (mem s) (mem s') -> uvm_ok s' l' T root us.
Proof.
  intros [(HL & Hk & HT & Hd & Hwf & Hlk) Hroot Hm Hf Hsz Hnd Hkeys] Hk' Hwf' Hlk' HC Hdis Hsub Hfr.
  split; try done.
  - refine (conj HL (conj Hk' (conj _ (conj _ (conj Hwf' Hlk'))))).
    + split; try apply HT. intros q pg i Hq Hi. rewrite <- (rep_word _ _ HT _ _ _ Hq Hi).
      refine (frame_word C _ _ _ _ Hfr HC (proj1 (rep_page _ _ HT _ _ Hq)) _ Hi).
      apply Hdis, elem_of_app. right. by eapply tab_page_in.
    + intros q pg Hq Hin. apply (Hdis pg); [|by apply Hsub]. apply elem_of_app. right. by eapply tab_page_in.
  - rewrite app_assoc in Hnd |- *. apply NoDup_app in Hnd as (Hnd & _ & _).
    apply NoDup_app. split_and!; [done| |apply Hk']. intros x Hx Hin. by apply (Hdis x), Hsub.
Qed.

(** The contents of its frames stay as well. *)
Lemma other_frame C m m' f x :
  Forall page_ok C -> page_ok f -> f ∉ C -> mem_frame C m m' -> in_page f x -> ld8 m' x = ld8 m x.
Proof.
  intros HC Hf Hn Hfr Hx. apply Hfr. intros q Hq Hin. rewrite list.Forall_forall in HC.
  assert (f = q) as <- by (by eapply page_ok_disj; eauto). done.
Qed.

(** The flags of a valid entry have the valid bit already. *)
Lemma flags_valid pte : has pte PTE_V = true -> Z.lor (PTE_FLAGS pte) PTE_V = PTE_FLAGS pte.
Proof.
  unfold has. rewrite land_flags by done. change PTE_V with 1. intros H.
  assert (Hodd : Z.testbit (PTE_FLAGS pte) 0 = true).
  { rewrite Z.bit0_odd. change 1 with (Z.ones 1) in H. rewrite Z.land_ones, Zmod_odd in H by lia.
    by destruct (Z.odd (PTE_FLAGS pte)). }
  apply Z.bits_inj'. intros n Hn. rewrite Z.lor_spec. destruct (decide (n = 0)) as [->|Hne].
  - by rewrite Hodd.
  - change 1 with (2 ^ 0). rewrite Z.pow2_bits_false by lia. apply orb_false_r.
Qed.

(** A page taken off the free list and filled. *)
Lemma kalloc_filled p l s m e :
  layout_ok -> kmem_inv s (p :: l) -> cpu_wf (syn s) -> lfree (syn s) Lkmem ->
  mem_frame [p] (mem (kalloced p s)) m ->
  let s1 := set_mem m (kalloced p s) in
  kalloc s e = Ok p (kalloced p s) e /\ 0 < p /\ page_ok p /\ memstep s s1 /\ kmem_inv s1 l /\
  mem_frame [p] (mem s) (mem s1).
Proof.
  intros HL Hk Hwf Hlk Hfr s1. pose proof Hk as (_ & Hnd & Hok). apply NoDup_cons in Hnd as [Hnin _].
  inversion_clear Hok as [|? ? Hp _]. pose proof (page_ok_pos _ HL Hp).
  split_and!; [by apply (kalloc_run p l)|lia|done| | |].
  - exists (touch (syn s)), (ld64 (mem s) p), m. split; [by kext|by right].
  - refine (kmem_frame [p] (kalloced p s) l m Hfr _ _ (kalloced_inv _ _ _ Hk)); [forall_list|].
    by intros x ->%list_elem_of_singleton.
  - eapply mem_frame_trans; [|exact Hfr]. apply mem_frame_memset.
Qed.

(** User bytes from bytes of frames. *)
Lemma ubytes_pagewise m m' us us' va n :
  0 <= va -> va + Z.of_nat n <= Z.of_nat (length us) * PGSIZE -> length us' = length us ->
  (forall k f g i, us !! k = Some f -> us' !! k = Some g -> 0 <= i < PGSIZE -> ld8 m' (g + i) = ld8 m (f + i)) ->
  ubytes m' us' va n = ubytes m us va n.
Proof.
  intros Hva Hvn Hlen H. unfold ubytes. apply list_fmap_ext. intros j i Hi. apply lookup_seq in Hi as [-> Hi].
  set (a := va + Z.of_nat (0 + j)).
  destruct (lookup_lt_is_Some_2 us (Z.to_nat (a / PGSIZE))) as [f Hf]; [unfold a, PGSIZE in *; lia|].
  destruct (lookup_lt_is_Some_2 us' (Z.to_nat (a / PGSIZE))) as [g Hg]; [unfold a, PGSIZE in *; lia|].
  rewrite (uaddr_page _ _ _ Hf), (uaddr_page _ _ _ Hg). eapply H; try eassumption. unfold PGSIZE. lia.
Qed.

(** ** The loop of [uvmcopy] *)

Section Uvmcopy.
Variables (s0 : kstate) (l0 : list Z) (T : pgt) (root : Z) (us : list Z).
Variables (T0 : pgt) (root' sz : Z) (e : env).
Hypothesis Hpar : uvm_ok s0 l0 T root us.
Hypothesis Hchild : uvm_ok s0 l0 T0 root' [].
Hypothesis Hdis : forall x, x ∈ us ++ pt_tab_pages T -> x ∉ pt_tab_pages T0.
Hypothesis Hsz : 0 <= sz.
Hypothesis Hus : PGROUNDUP sz = Z.of_nat (length us) * PGSIZE.
Hypothesis Hmax : sz <= TRAPFRAME.

(** The pages that belong to the child or to nobody. *)
Let C := pt_tab_pages T0 ++ l0.

(** Page [g] has the contents that [f] had at the start. *)
Definition copied (m : gmap Z Z) (f g : Z) : Prop :=
  forall i, 0 <= i < PGSIZE -> ld8 m (g + i) = ld8 (mem s0) (f + i).

(** After [length nw] rounds the child has copies [nw] of the parent's first
    frames, with the same flags. *)
Record copying (s : kstate) (l : list Z) (T' : pgt) (nw : list Z) : Prop := {
  cp_child : uvm_ok s l T' root' nw;
  cp_len : (length nw <= length us)%nat;
  cp_pages : user_pages T' nw l ≡ₚ C;
  cp_frame : mem_frame C (mem s0) (mem s);
  cp_step : memstep s0 s;
  cp_copied k f g : us !! k = Some f -> nw !! k = Some g -> copied (mem s) f g;
  cp_flags k : (k < length nw)%nat ->
    PTE_FLAGS (pte_of T' (Z.of_nat k * PGSIZE)) = PTE_FLAGS (pte_of T (Z.of_nat k * PGSIZE));
  cp_above va : aligned va -> Z.of_nat (length nw) * PGSIZE <= va < MAXVA ->
    pt_leaf T' !! pt_path va = pt_leaf T0 !! pt_path va;
  cp_tabs : pt_tabs T0 ⊆ pt_tabs T'
}.

Lemma child_pages_ok : Forall page_ok C.
Proof using Hchild.
  destruct (uv_vm _ _ _ _ _ Hchild) as (_ & (_ & _ & Hl) & HT & _). apply Forall_app.
  split; [by eapply tab_pages_ok|done].
Qed.

Lemma parent_apart x : x ∈ us ++ pt_tab_pages T -> x ∉ C.
Proof using Hpar Hdis.
  intros Hx. apply not_elem_of_app. split; [by apply Hdis|].
  pose proof (uv_pages _ _ _ _ _ Hpar) as Hnd. rewrite app_assoc in Hnd.
  apply NoDup_app in Hnd as (_ & Hnd & _). by apply Hnd.
Qed.

Lemma parent_frame_ok f : f ∈ us -> page_ok f.
Proof using Hpar.
  intros [k Hk]%list_elem_of_lookup. by destruct (uv_maps _ _ _ _ _ Hpar _ _ Hk) as (_ & _ & _ & _ & ?).
Qed.

Lemma copying_parent s l T' nw : copying s l T' nw -> uvm_ok s l T root us.
Proof using Hpar Hdis Hchild.
  intros H. destruct (uv_vm _ _ _ _ _ (cp_child _ _ _ _ H)) as (_ & Hk & _ & _ & Hwf & Hlk).
  eapply (uvm_ok_other s0 l0 T root us s l C); try done; [apply child_pages_ok|apply parent_apart| |apply H].
  intros x Hx. rewrite <- (cp_pages _ _ _ _ H). unfold user_pages. rewrite !elem_of_app. tauto.
Qed.

Lemma copying_frame s l T' nw f x :
  copying s l T' nw -> f ∈ us -> in_page f x -> ld8 (mem s) x = ld8 (mem s0) x.
Proof using Hpar Hdis Hchild.
  intros H Hf. eapply (other_frame C); [apply child_pages_ok|by apply parent_frame_ok| |apply H].
  apply parent_apart, elem_of_app. by left.
Qed.

Lemma copying_start : copying s0 l0 T0 [].
Proof using Hchild.
  split; try done; cbn; lia.
Qed.

(** The two ways in which a round gives up: the copies are freed again. *)
Lemma uvmcopy_err s l T' nw :
  copying s l T' nw ->
  exists s' l' T2, (uvmunmap root' 0 (Z.of_nat (length nw) * PGSIZE / PGSIZE) true;; mret (-1)) s e = Ok (-1) s' e /\
    copying s' l' T2 [] .
Proof using Hpar Hchild.
  intros H. destruct (uvmunmap_tail s l T' root' nw 0 e (cp_child _ _ _ _ H)) as
    (s' & T2 & Hr & Hok & Hms & Htab & Hfr & Hleaf); [lia|].
  replace (Z.of_nat (length nw) * PGSIZE / PGSIZE) with (Z.of_nat (length nw - 0)) by (unfold PGSIZE; lia).
  change (Z.of_nat 0 * PGSIZE) with 0 in *. kstep_with Hr. exists s', (reverse nw ++ l), T2. split; [done|].
  assert (Htp : pt_tab_pages T2 = pt_tab_pages T') by (unfold pt_tab_pages; by rewrite Htab).
  pose proof (cp_pages _ _ _ _ H) as Hp. unfold user_pages in Hp. split.
  - exact Hok.
  - cbn. lia.
  - unfold user_pages. rewrite Htp, reverse_Permutation, <- Hp. solve_Permutation.
  - eapply mem_frame_trans; [apply H|]. eapply mem_frame_mono; [|exact Hfr].
    intros x Hx. rewrite <- Hp, drop_0 in *. rewrite !elem_of_app in *. tauto.
  - etransitivity; [apply H|exact Hms].
  - intros k f g _ Hk. done.
  - cbn. lia.
  - intros va Hva Hr2. change (Z.of_nat (length []) * PGSIZE) with 0 in Hr2. destruct (decide (va < Z.of_nat (length nw) * PGSIZE)).
    + pose proof (uv_size _ _ _ _ _ (cp_child _ _ _ _ H)).
      assert (Hva2 : 0 <= va < TRAPFRAME) by lia.
      by rewrite (uv_free _ _ _ _ _ Hok va Hva Hva2), (uv_free _ _ _ _ _ Hchild va Hva Hva2).
    + rewrite Hleaf by (done || lia). apply H; [done|lia].
  - rewrite Htab. apply H.
Qed.

(** The parent's next frame and what its entry says. *)
Lemma parent_next s l T' nw :
  copying s l T' nw -> (length nw < length us)%nat ->
  let a := Z.of_nat (length nw) * PGSIZE in
  let v := pte_of T a in
  exists f, us !! length nw = Some f /\ page_ok f /\ PTE2PA v = f /\ has v PTE_V = true /\
    0 <= PTE_FLAGS v < 1024 /\ Z.lor (PTE_FLAGS v) PTE_V = PTE_FLAGS v /\ PTE_FLAGS v <> PTE_V /\
    walk root a false s e = Ok (pt_walk T a) s e /\ 0 < pt_walk T a /\ ld64 (mem s) (pt_walk T a) = v.
Proof using Hpar Hdis Hchild.
  intros H Hlt a v. pose proof (copying_parent _ _ _ _ H) as Hp.
  pose proof (uv_vm _ _ _ _ _ Hp) as (HL & _ & HT & _). pose proof (uv_size _ _ _ _ _ Hp).
  destruct TRAPFRAME_lt as (_ & HT2 & _).
  destruct (lookup_lt_is_Some_2 us (length nw) Hlt) as [f Hf]. exists f.
  destruct (uv_maps _ _ _ _ _ Hp _ _ Hf) as (pte & Hl & Hpa & Hfl & Hok). fold a in Hl.
  assert (Hv : v = pte) by (unfold v, pte_of; by rewrite Hl). rewrite Hv.
  destruct (rep_leaf _ _ HT _ _ Hl) as ((_ & HV) & _). destruct (leaf_tab _ _ _ _ HT Hl) as [pg Hpg].
  assert (Hb : 0 <= PTE_FLAGS pte < 1024) by (rewrite PTE_FLAGS_spec; lia).
  split_and!; try done; try lia.
  - by apply flags_valid.
  - apply walk_noalloc; try done; [by apply Hp|]. unfold a, PGSIZE in *. lia.
  - by eapply pt_walk_pos.
  - rewrite (walk_entry _ _ _ _ HT Hpg), Hl. done.
Qed.

(** Rounds that give up do so with the copies made so far. *)
Lemma copying_touch s l T' nw : copying s l T' nw -> copying (set_syn (touch (syn s)) s) l T' nw.
Proof.
  intros H. split; try apply H; [apply uvm_ok_touch, H|].
  etransitivity; [apply H|apply memstep_touch].
Qed.

Lemma copying_freed s s2 p l T' T2 nw :
  copying s (p :: l) T' nw -> memstep s s2 -> mem_frame (pt_tab_pages T' ++ p :: l) (mem s) (mem s2) ->
  p :: pt_tab_pages T2 ++ [] ≡ₚ pt_tab_pages T' ++ p :: l -> pt_tabs T' ⊆ pt_tabs T2 -> pt_leaf T2 = pt_leaf T' ->
  uvm_ok (freed p s2) [p] T2 root' nw -> copying (freed p s2) [p] T2 nw.
Proof.
  intros H Hms Hfr Hpg Htabs Hleaf Hok. pose proof (cp_pages _ _ _ _ H) as Hp. unfold user_pages in Hp.
  assert (Hfr2 : mem_frame (pt_tab_pages T' ++ p :: l) (mem s) (mem (freed p s2))).
  { eapply mem_frame_trans; [exact Hfr|]. eapply mem_frame_mono; [|apply mem_frame_freed].
    intros x ->%list_elem_of_singleton. apply elem_of_app. right. by left. }
  split.
  - exact Hok.
  - apply H.
  - unfold user_pages. rewrite <- Hp, <- Hpg. apply Permutation_app_head. rewrite app_nil_r.
    symmetry. apply Permutation_cons_append.
  - eapply mem_frame_trans; [apply H|]. eapply mem_frame_mono; [|exact Hfr2].
    intros x Hx. rewrite <- Hp, elem_of_app. by right.
  - etransitivity; [apply H|]. etransitivity; [exact Hms|apply memstep_freed].
  - intros k f g Hf Hg i Hi. rewrite <- (cp_copied _ _ _ _ H k f g Hf Hg i Hi).
    eapply user_frame_keep; [apply H|by eapply list_elem_of_lookup_2|exact Hfr2|]. unfold in_page. lia.
  - intros k Hk. unfold pte_of at 1. rewrite Hleaf. by apply H.
  - intros va Hva Hr. rewrite Hleaf. by apply H.
  - etransitivity; [apply H|exact Htabs].
Qed.

Lemma mem_frame_memmove p f m : mem_frame [p] m (memmove m p f PGSIZE).
Proof.
  intros a Ha. rewrite ld8_memmove by (unfold PGSIZE; lia). case_decide as Hin; [|done].
  exfalso. apply (Ha p); [by left|done].
Qed.

(** The new page has the parent's contents once it is mapped. *)
Lemma copied_fresh s s2 p l T' nw f :
  copying s (p :: l) T' nw -> f ∈ us -> page_ok p ->
  (forall x, in_page p x -> ld8 (mem s2) x = ld8 (memmove (mem (kalloced p s)) p f PGSIZE) x) ->
  copied (mem s2) f p.
Proof using Hpar Hdis Hchild.
  intros H Hf Hpok Hx i Hi. rewrite Hx by (unfold in_page; lia).
  rewrite ld8_memmove by (unfold PGSIZE; lia). rewrite decide_True by lia.
  replace (f + (p + i - p)) with (f + i) by lia.
  assert (Hfp : in_page f (f + i)) by (unfold in_page; lia).
  rewrite <- (copying_frame _ _ _ _ f (f + i) H Hf Hfp).
  eapply (other_frame [p]); [forall_list|by apply parent_frame_ok| |apply mem_frame_memset|done].
  intros ->%list_elem_of_singleton. apply (parent_apart p); [apply elem_of_app; by left|].
  rewrite <- (cp_pages _ _ _ _ H). unfold user_pages. rewrite !elem_of_app. right. right. by left.
Qed.

(** A completed round. *)
Lemma copying_step s s2 p l l2 T' T2 nw f :
  let a := Z.of_nat (length nw) * PGSIZE in
  let fl := PTE_FLAGS (pte_of T a) in
  copying s (p :: l) T' nw -> us !! length nw = Some f -> 0 <= fl < 1024 -> Z.lor fl PTE_V = fl ->
  uvm_ok s2 l2 T2 root' (nw ++ [p]) -> memstep s s2 -> copied (mem s2) f p ->
  pt_leaf T2 = <[pt_path a := mk_pte p fl]> (pt_leaf T') ->
  mem_frame (pt_tab_pages T' ++ p :: l) (mem s) (mem s2) ->
  p :: pt_tab_pages T2 ++ l2 ≡ₚ pt_tab_pages T' ++ p :: l -> pt_tabs T' ⊆ pt_tabs T2 ->
  copying s2 l2 T2 (nw ++ [p]).
Proof using Hpar.
  intros a fl H Hf Hfl Hlor Hok Hms Hcp Hleaf Hfr Hpg Htabs. pose proof (cp_child _ _ _ _ H) as Hc.
  pose proof (lookup_lt_Some _ _ _ Hf) as Hlt. destruct TRAPFRAME_lt as (HT1 & HT2 & HT3).
  pose proof (uv_size _ _ _ _ _ Hok) as Hszk. rewrite length_app in Hszk. cbn [length] in Hszk.
  pose proof (cp_pages _ _ _ _ H) as Hp. unfold user_pages in Hp.
  assert (Hal : aligned a) by (unfold a, aligned, PGSIZE; lia).
  assert (Hother : forall va, aligned va -> 0 <= va < MAXVA -> va <> a ->
    pt_leaf T2 !! pt_path va = pt_leaf T' !! pt_path va).
  { intros va Hva Hr Hne. rewrite Hleaf. apply lookup_insert_ne.
    intros Heq%pt_path_inj; unfold a, PGSIZE in *; done || lia. }
  split.
  - exact Hok.
  - rewrite length_app. cbn. lia.
  - unfold user_pages. rewrite <- app_assoc. cbn [app]. by rewrite Hpg.
  - eapply mem_frame_trans; [apply H|]. eapply mem_frame_mono; [|exact Hfr].
    intros x Hx. rewrite <- Hp, elem_of_app. by right.
  - etransitivity; [apply H|exact Hms].
  - intros k f' g Hf' Hg. apply lookup_app_Some in Hg as [Hg|[Hge Hg]].
    + intros i Hi. rewrite <- (cp_copied _ _ _ _ H k f' g Hf' Hg i Hi).
      eapply user_frame_keep; [exact Hc|by eapply list_elem_of_lookup_2|exact Hfr|]. unfold in_page. lia.
    + apply list_lookup_singleton_Some in Hg as [Hk <-]. assert (k = length nw) as -> by lia.
      by replace f' with f by congruence.
  - intros k. rewrite length_app. cbn [length]. intros Hk. unfold pte_of at 1.
    destruct (decide (k = length nw)) as [->|Hne].
    + fold a. rewrite Hleaf, lookup_insert_eq. cbn [from_option id].
      destruct (uv_vm _ _ _ _ _ Hc) as (HL & (_ & _ & Hlok) & _). inversion_clear Hlok as [|? ? Hpok _].
      pose proof (page_ok_pos _ HL Hpok) as [? Hpos2]. unfold PHYSTOP, KERNBASE in Hpos2.
      destruct (mk_pte_spec p fl ltac:(lia) (proj1 Hpok) Hfl) as (_ & _ & ->). exact Hlor.
    + rewrite Hother; [apply H; lia|..]; unfold a, aligned, PGSIZE in *; lia.
  - intros va Hva. rewrite length_app. cbn [length]. intros Hr.
    rewrite Hother; [apply H; [done|]|done|..]; unfold a, PGSIZE in *; lia.
  - etransitivity; [apply H|exact Htabs].
Qed.

Lemma uvmcopy_loop_run n nw s l T' :
  copying s l T' nw -> (length us - length nw < n)%nat ->
  exists r s' l' T2 nw',
    uvmcopy_loop n root root' (Z.of_nat (length nw) * PGSIZE) sz s e = Ok r s' e /\
    copying s' l' T2 nw' /\ (r = 0 /\ length nw' = length us \/
      r = -1 /\ nw' = [] /\ (length l < 3 * (length us - length nw))%nat).
Proof using Hpar Hchild Hdis Hsz Hus Hmax.
  destruct TRAPFRAME_lt as (HT1 & HT2 & HT3). change MAXVA with (2 ^ 38) in HT2.
  pose proof (PGROUNDUP_bounds sz Hsz ltac:(unfold PGSIZE in *; lia)) as Hb.
  revert nw s l T'. induction n as [|n IH]; intros nw s l T' H Hn; [lia|].
  pose proof (cp_len _ _ _ _ H) as Hlen. pose proof (cp_child _ _ _ _ H) as Hc.
  cbn [uvmcopy_loop]. set (a := Z.of_nat (length nw) * PGSIZE) in *.
  destruct (Z.ltb_spec a sz) as [Hlt|Hge]; cbn [negb].
  2: { exists 0, s, l, T', nw. split_and!; [done|done|]. left. unfold a, PGSIZE in *. lia. }
  assert (Hltn : (length nw < length us)%nat) by (unfold a, PGSIZE in *; lia).
  destruct (parent_next s l T' nw H Hltn) as (f & Hf & Hfok & Hpa & HV & Hfl & Hlor & Hnv & Hw & Hpos & Hld).
  fold a in Hpa, HV, Hfl, Hlor, Hnv, Hw, Hpos, Hld. kstep_with Hw.
  rewrite (proj2 (Z.eqb_neq _ _)) by lia. unfold rd64. kpure. rewrite Hld, HV, Hpa. cbn [negb].
  pose proof (uv_vm _ _ _ _ _ Hc) as (HL & Hk & _ & _ & Hwf & Hlk).
  destruct l as [|p l].
  { kstep ltac:(by apply kalloc_empty). rewrite (proj2 (Z.eqb_eq 0 0)) by done.
    destruct (uvmcopy_err (set_syn (touch (syn s)) s) [] T' nw) as (s' & l' & T2 & Hr & H').
    - by apply copying_touch.
    - exists (-1), s', l', T2, []. split_and!; [exact Hr|exact H'|]. right. cbn. split_and!; done || lia. }
  set (m := memmove (mem (kalloced p s)) p f PGSIZE).
  destruct (kalloc_filled p l s m e HL Hk Hwf Hlk) as (Hr & Hp & Hpok & Hms & Hk' & Hfr).
  { apply mem_frame_memmove. }
  kstep_with Hr. rewrite (proj2 (Z.eqb_neq p 0)) by lia. kpure.
  change (upd_mem (fun m => memmove m p f PGSIZE) (kalloced p s)) with (set_mem m (kalloced p s)).
  destruct (uvm_map s (set_mem m (kalloced p s)) p l T' root' nw (PTE_FLAGS (pte_of T a)) e Hc Hms Hk' Hfr)
    as (s2 & l2 & T2 & r & Hr2 & Hms2 & Hfr2 & Hc2 & Hpg2 & Ht2 & Hcase); try done.
  { unfold a in *. lia. } { congruence. }
  fold a in Hr2, Hcase. kstep_with Hr2. destruct Hcase as [(-> & Hn2 & Hok2 & Hl2)|(-> & -> & Hn2 & Hok2 & Hl2 & Hkf)].
  - rewrite (proj2 (Z.eqb_eq 0 0)) by done. cbn [negb].
    assert (Hcp : copied (mem s2) f p) by (eapply copied_fresh; eauto using list_elem_of_lookup_2).
    pose proof (copying_step s s2 p l l2 T' T2 nw f H Hf Hfl Hlor Hok2 Hms2 Hcp Hl2 Hfr2 Hpg2 Ht2) as H2.
    replace (u64 (a + PGSIZE)) with (Z.of_nat (length (nw ++ [p])) * PGSIZE).
    2: { unfold u64, a in *. rewrite Z.mod_small by (unfold PGSIZE in *; lia).
         rewrite length_app. cbn [length]. unfold PGSIZE. lia. }
    assert (Hl1 : length (nw ++ [p]) = S (length nw)) by (rewrite length_app; cbn; lia).
    destruct (IH _ _ _ _ H2) as (r & s3 & l3 & T3 & nw3 & Hr3 & H3 & Hc3); [lia|].
    exists r, s3, l3, T3, nw3. split_and!; [exact Hr3|exact H3|]. rewrite Hl1 in Hc3.
    destruct Hc3 as [?|(-> & -> & Hl3)]; [by left|right; cbn; split_and!; done || lia].
  - rewrite (proj2 (Z.eqb_neq (-1) 0)) by done. cbn [negb]. kstep_with Hkf.
    destruct (uvmcopy_err (freed p s2) [p] T2 nw) as (s' & l' & T3 & Hr' & H').
    + by eapply copying_freed.
    + exists (-1), s', l', T3, []. split_and!; [exact Hr'|exact H'|]. right. cbn. split_and!; done || lia.
Qed.

End Uvmcopy.

Lemma tab_pages_empty p : pt_tab_pages (pt_empty p) = [p].
Proof. unfold pt_tab_pages. cbn. by rewrite map_to_list_singleton. Qed.

(** A new, empty address space beside an existing one. *)
Lemma second_space s p l T root us e :
  uvm_ok s (p :: l) T root us ->
  exists s', uvmcreate s e = Ok p s' e /\ memstep s s' /\ mem_frame [p] (mem s) (mem s') /\
    uvm_ok s' l T root us /\ uvm_ok s' l (pt_empty p) p [] /\
    forall x, x ∈ us ++ pt_tab_pages T -> x ∉ pt_tab_pages (pt_empty p).
Proof.
  intros H. pose proof (uv_vm _ _ _ _ _ H) as (HL & Hk & _ & _ & Hwf & Hlk).
  pose proof (uv_pages _ _ _ _ _ H) as Hnd. rewrite app_assoc in Hnd.
  apply NoDup_app in Hnd as (_ & Hnd & Hndl).
  destruct (uvmcreate_run p l s e HL Hk Hwf Hlk) as (s' & Hr & Hms & Hok & Hfr). exists s'.
  pose proof Hok as (_ & Hk' & _ & _ & Hwf' & Hlk'). pose proof Hk as (_ & _ & Hlok).
  split_and!; [exact Hr|exact Hms|exact Hfr| |by apply uvm_ok_empty|].
  - eapply (uvm_ok_other s _ T root us s' l (p :: l)); try done.
    + intros x Hx. by right.
    + eapply mem_frame_mono; [|exact Hfr]. intros x ->%list_elem_of_singleton. by left.
  - rewrite tab_pages_empty. intros x Hx ->%list_elem_of_singleton. apply (Hnd p Hx). by left.
Qed.

(** ** Properties *)

(** C25 [uvmcopy] gives the child a copy of the parent's memory, or nothing.
    It never panics.  If it returns 0, the child has as many frames as the
    parent, none of them the parent's, every byte of the child's memory is the
    parent's, every page has the parent's permissions, and the mappings above
    the copied part (trap frame and trampoline) are as they were.  If it
    returns -1, which takes fewer free pages than three per page to copy, the
    child's memory is empty again and every frame it had is back on the free list;
    the only pages that the free list has lost are those that [walk] took for the
    child's page table, which stay in it until the child's table is freed.  In both
    cases child and free list together have the pages they had, and the parent's
    memory is unchanged. *)
Theorem uvmcopy_copies s l T root us T0 root' sz e :
  uvm_ok s l T root us -> uvm_ok s l T0 root' [] ->
  (forall x, x ∈ us ++ pt_tab_pages T -> x ∉ pt_tab_pages T0) ->
  0 <= sz <= TRAPFRAME -> PGROUNDUP sz = Z.of_nat (length us) * PGSIZE ->
  exists r s' l' T' us', uvmcopy root root' sz s e = Ok r s' e /\
    uvm_ok s' l' T root us /\ uvm_ok s' l' T' root' us' /\
    user_pages T' us' l' ≡ₚ user_pages T0 [] l /\
    (forall va n, 0 <= va -> va + Z.of_nat n <= Z.of_nat (length us) * PGSIZE ->
       ubytes (mem s') us va n = ubytes (mem s) us va n) /\
    (forall va, aligned va -> Z.of_nat (length us') * PGSIZE <= va < MAXVA ->
       pt_leaf T' !! pt_path va = pt_leaf T0 !! pt_path va) /\
    ((r = 0 /\ length us' = length us /\ (forall x, x ∈ us' -> x ∉ us) /\
      (forall va n, 0 <= va -> va + Z.of_nat n <= Z.of_nat (length us) * PGSIZE ->
         ubytes (mem s') us' va n = ubytes (mem s) us va n) /\
      forall k, (k < length us)%nat ->
        PTE_FLAGS (pte_of T' (Z.of_nat k * PGSIZE)) = PTE_FLAGS (pte_of T (Z.of_nat k * PGSIZE))) \/
     (r = -1 /\ us' = [] /\ (length l < 3 * length us)%nat /\ kept_tables T0 T' l l')).
Proof.
  intros Hp Hc Hdis Hsz Hus. destruct TRAPFRAME_lt as (HT1 & HT2 & HT3). change MAXVA with (2 ^ 38) in HT2.
  assert (Hb : sz <= PGROUNDUP sz < sz + PGSIZE) by (apply PGROUNDUP_bounds; unfold PGSIZE in *; lia).
  destruct (uvmcopy_loop_run s l T root us T0 root' sz e Hp Hc Hdis (proj1 Hsz) Hus (proj2 Hsz)
    (Z.to_nat (sz / PGSIZE + 2)) [] s l T0) as (r & s' & l' & T' & us' & Hr & H & Hcase).
  { by apply copying_start. }
  { cbn. unfold PGSIZE in *. lia. }
  exists r, s', l', T', us'. split_and!; [exact Hr|by eapply copying_parent|apply H|apply H| |apply H|].
  - intros va n Hva Hvn. apply ubytes_pagewise; try done. intros k f g i Hf Hg Hi.
    assert (f = g) as <- by congruence.
    refine (copying_frame s l T root us T0 root' Hp Hc Hdis s' l' T' us' f _ H _ _);
      [by eapply list_elem_of_lookup_2|]. unfold in_page. lia.
  - destruct Hcase as [(-> & Hlen)|(-> & -> & Hl)]; [left|right].
    2: { cbn in Hl. split_and!; [done|done|lia|]. apply (tables_kept T0 T' []); apply H. }
    split_and!; [done|exact Hlen| | |].
    + intros x Hx Hxu. apply (parent_apart s l T root us T0 Hp Hdis x); [apply elem_of_app; by left|].
      pose proof (cp_pages _ _ _ _ _ _ _ _ _ _ H) as Hpg. rewrite <- Hpg.
      apply elem_of_app. by left.
    + intros va n Hva Hvn. apply ubytes_pagewise; try done.
      intros k f g i Hf Hg Hi. by apply (cp_copied _ _ _ _ _ _ _ _ _ _ H k).
    + intros k Hk. apply H. lia.
Qed.

End ForkVm.

(** ** Witnesses *)

Definition sample_perm : Z := Z.lor (Z.lor PTE_R PTE_W) PTE_U.

(** A process with one page of memory and another that has only its root. *)
Lemma sample_two : exists s l T,
  uvm_ok (L := sample_layout) s l T (sample_page 0) [sample_page 2] /\
  uvm_ok (L := sample_layout) s l (pt_empty (sample_page 1)) (sample_page 1) [] /\
  (forall x, x ∈ [sample_page 2] ++ pt_tab_pages T -> x ∉ pt_tab_pages (pt_empty (sample_page 1))) /\
  (3 <= length l)%nat /\ pt_leaf T !! pt_path 0 = Some (mk_pte (sample_page 2) sample_perm).
Proof.
  destruct sample_uvm as [s Hok].
  destruct (second_space (L := sample_layout) s _ _ _ _ _ [] Hok) as (s1 & _ & _ & _ & Hp & Hc & Hd).
  pose proof (uv_vm _ _ _ _ _ Hp) as (HL & Hk & _ & _ & Hwf & Hlk).
  destruct (kalloc_zeroed (L := sample_layout) (sample_page 2)
    (list_fmap _ _ sample_page [3; 4; 5; 6; 7]) s1 [] HL Hk Hwf Hlk) as (_ & _ & _ & Hms & Hk' & _ & Hfr & _).
  destruct (uvm_map (L := sample_layout) s1 _ _ _ _ _ [] sample_perm [] Hp Hms Hk' Hfr)
    as (s2 & l2 & T2 & r & _ & Hms2 & Hfr2 & _ & Hpg & _ & Hcase); [by vm_compute| |done|].
  { split; vm_compute; congruence. }
  destruct Hcase as [(_ & Hn & Hok2 & Hl2)|(_ & _ & Hlen & _)]; [|cbn in Hlen; lia].
  exists s2, l2, T2. split_and!; [exact Hok2| | | |].
  - eapply (uvm_ok_other (L := sample_layout)); [exact Hc|apply Hok2..| | | |exact Hfr2].
    + rewrite tab_pages_empty. repeat constructor; apply sample_page_ok; lia.
    + rewrite !tab_pages_empty. intros x ->%list_elem_of_singleton.
      apply (bool_decide_unpack _). vm_compute. exact I.
    + intros x Hx. rewrite <- Hpg. right. apply elem_of_app. by right.
  - rewrite tab_pages_empty in Hpg |- *. intros x Hx ->%list_elem_of_singleton.
    assert (Hin : sample_page 1 ∈ sample_page 2 :: pt_tab_pages T2 ++ l2).
    { apply elem_of_app in Hx as [Hx|Hx]; [apply list_elem_of_singleton in Hx; rewrite Hx; by left|].
      right. apply elem_of_app. by left. }
    rewrite Hpg in Hin. revert Hin. apply (bool_decide_unpack _). vm_compute. exact I.
  - cbn in Hn. lia.
  - by rewrite Hl2, lookup_insert_eq.
Qed.

Lemma uvmcopy_copies_witness : exists s s' us T T',
  uvmcopy (L := sample_layout) (sample_page 0) (sample_page 1) PGSIZE s [] = Ok 0 s' [] /\
  ubytes (mem s') us 0 16 = ubytes (mem s) [sample_page 2] 0 16 /\
  PTE_FLAGS (pte_of T' 0) = PTE_FLAGS (pte_of T 0).
Proof.
  destruct sample_two as (s & l & T & Hp & Hc & Hd & Hn & _).
  destruct (uvmcopy_copies (L := sample_layout) s l T _ _ _ _ PGSIZE [] Hp Hc Hd)
    as (r & s' & l' & T' & us' & Hr & _ & _ & _ & _ & _ & Hcase).
  - split; vm_compute; congruence.
  - reflexivity.
  - destruct Hcase as [(-> & _ & _ & Hb & Hfl)|(_ & _ & Hlt & _)]; [|cbn in Hlt; lia].
    exists s, s', us', T, T'. split; [exact Hr|]. split.
    + apply Hb; [lia|vm_compute; congruence].
    + apply (Hfl 0%nat). cbn. lia.
Defined.

(** Two processes with a page of memory each. *)
Lemma sample_forked : exists s l T T' g,
  uvm_ok (L := sample_layout) s l T (sample_page 0) [sample_page 2] /\
  uvm_ok (L := sample_layout) s l T' (sample_page 1) [g] /\
  (forall f, f ∈ [g] -> f ∉ [sample_page 2] /\ f ∉ pt_tab_pages T) /\
  PTE_FLAGS (pte_of T 0) = Z.lor sample_perm PTE_V /\ PTE_FLAGS (pte_of T' 0) = Z.lor sample_perm PTE_V.
Proof.
  destruct sample_two as (s & l & T & Hp & Hc & Hd & Hn & Hl).
  assert (Hfl : PTE_FLAGS (pte_of T 0) = Z.lor sample_perm PTE_V).
  { unfold pte_of. rewrite Hl. by vm_compute. }
  destruct (uvmcopy_loop_run (L := sample_layout) s l T _ _ _ _ PGSIZE [] Hp Hc Hd ltac:(done) eq_refl
    ltac:(vm_compute; congruence) 3 [] s l _ (copying_start s l T _ _ _ Hc) ltac:(cbn; lia))
    as (r & s' & l' & T' & nw & _ & H & Hcase).
  destruct Hcase as [(_ & Hlen)|(_ & _ & Hlt)]; [|cbn in Hlt; lia].
  destruct nw as [|g [|? ?]]; try done.
  exists s', l', T, T', g. split_and!; [by eapply copying_parent|apply H| |exact Hfl|].
  - intros f ->%list_elem_of_singleton. rewrite <- not_elem_of_app. intros Hin.
    apply (parent_apart s l T _ _ _ Hp Hd g Hin). rewrite <- (cp_pages _ _ _ _ _ _ _ _ _ _ H). by left.
  - rewrite <- Hfl. apply (cp_flags _ _ _ _ _ _ _ _ _ _ H 0%nat). cbn. lia.
Qed.

Lemma one_page_accessible T f fl len :
  PTE_FLAGS (pte_of T 0) = Z.lor sample_perm PTE_V -> fl = PTE_W \/ fl = PTE_U -> 0 <= len <= PGSIZE ->
  accessible T [f] fl 0 len.
Proof.
  intros Hf Hfl Hlen. split_and!; [lia|cbn; lia|]. intros k H1 H2 H3.
  assert (k = 0) as -> by (unfold PGSIZE in *; lia). change (0 * PGSIZE) with 0. unfold has.
  destruct Hfl as [->| ->];
    rewrite ?(land_flags (pte_of T 0) PTE_U), ?(land_flags (pte_of T 0) PTE_W), Hf by done; by vm_compute.
Qed.
