(* ===== verification/Bio.v ===== *)
(** * kernel/bio.c: the buffer cache

    [bufs] holds the [NBUF] buffers and, at index [NBUF], the list head; the
    doubly linked list of the source is the [b_prev] and [b_next] fields.  The
    disk driver is the interface [DiskDriver]; [Virtio] provides it. *)

From stdpp Require Import base gmap strings numbers list.
From S2P Require Import Prelude KState Sample Spinlock Sched Sleeplock Uart.

(** What the buffer cache calls of the disk driver. *)
Class DiskDriver : Type := { disk_rw : nat -> bool -> M unit }.

Definition HEAD : nat := Z.to_nat NBUF.

Section Bio.
Context {D : DiskDriver}.

Definition set_next (i j : nat) : M unit := modify (upd_buf i (set_b_next j)).
Definition set_prev (i j : nat) : M unit := modify (upd_buf i (set_b_prev j)).
Definition bufget (i : nat) : M buf := gets (fun s => get_buf s i).

Definition binit_one (b : nat) : M unit :=
  h ← bufget HEAD;
  set_next b (b_next h);;
  set_prev b HEAD;;
  initsleeplock (SLbuf b) "buffer";;
  h ← bufget HEAD;
  set_prev (b_next h) b;;
  set_next HEAD b.

Definition binit : M unit :=
  initlock Lbcache "bcache";;
  set_prev HEAD HEAD;;
  set_next HEAD HEAD;;
  for_each (seq 0 (Z.to_nat NBUF)) binit_one.

(** for(b = start; b != &bcache.head; b = step(b)) if(test(b)) ... *)
Fixpoint buf_scan (n : nat) (step : buf -> nat) (test : buf -> bool) (b : nat) : M (option nat) :=
  match n with
  | O => kspin
  | S n' =>
      if decide (b = HEAD) then mret None else
      x ← bufget b;
      if test x then mret (Some b) else buf_scan n' step test (step x)
  end.

Definition bget (dev blockno : Z) : M nat :=
  acquire Lbcache;;
  h ← bufget HEAD;
  r ← buf_scan (S HEAD) b_next (fun b => (b_dev b =? dev) && (b_blockno b =? blockno)) (b_next h);
  match r with
  | Some b =>
      modify (upd_buf b (fun x => set_b_refcnt (b_refcnt x + 1) x));;
      release Lbcache;;
      acquiresleep (SLbuf b);;
      mret b
  | None =>
      h ← bufget HEAD;
      r ← buf_scan (S HEAD) b_prev (fun b => b_refcnt b =? 0) (b_prev h);
      match r with
      | Some b =>
          modify (upd_buf b (set_b_dev dev));;
          modify (upd_buf b (set_b_blockno blockno));;
          modify (upd_buf b (set_b_valid false));;
          modify (upd_buf b (set_b_refcnt 1));;
          release Lbcache;;
          acquiresleep (SLbuf b);;
          mret b
      | None => kpanic "bget: no buffers"
      end
  end.

Definition bread (dev blockno : Z) : M nat :=
  b ← bget dev blockno;
  x ← bufget b;
  when (negb (b_valid x))
    (disk_rw b false;; modify (upd_buf b (set_b_valid true)));;
  mret b.

Definition bwrite (b : nat) : M unit :=
  h ← holdingsleep (SLbuf b);
  if negb h then kpanic "bwrite" else
  disk_rw b true.

Definition brelse (b : nat) : M unit :=
  h ← holdingsleep (SLbuf b);
  if negb h then kpanic "brelse" else
  releasesleep (SLbuf b);;
  acquire Lbcache;;
  modify (upd_buf b (fun x => set_b_refcnt (b_refcnt x - 1) x));;
  x ← bufget b;
  when (b_refcnt x =? 0)
    (x ← bufget b;
     set_prev (b_next x) (b_prev x);;
     x ← bufget b;
     set_next (b_prev x) (b_next x);;
     h ← bufget HEAD;
     set_next b (b_next h);;
     set_prev b HEAD;;
     h ← bufget HEAD;
     set_prev (b_next h) b;;
     set_next HEAD b);;
  release Lbcache.

Definition bpin (b : nat) : M unit :=
  acquire Lbcache;;
  modify (upd_buf b (fun x => set_b_refcnt (b_refcnt x + 1) x));;
  release Lbcache.

Definition bunpin (b : nat) : M unit :=
  acquire Lbcache;;
  modify (upd_buf b (fun x => set_b_refcnt (b_refcnt x - 1) x));;
  release Lbcache.

End Bio.
