(* ===== verification/BufCache.v ===== *)
(** * The buffer cache implements a map of live blocks over the disk

    An abstract cache is the disk and a finite map from block numbers to live
    blocks, those whose buffer is referenced.  [brep] relates a kernel state to
    its abstract cache; the routines of [Bio] are shown to act on it as
    specified, whatever buffers they choose and however the list is linked. *)

From stdpp Require Import base gmap strings numbers list.
From S2P Require Import Prelude KState Sample Spinlock Sched Sleeplock Quiet Uart Bio.

(** ** A doubly linked ring *)

(** The consecutive pairs of a list from [a] through [l] to [b]. *)
Definition pairs (a : nat) (l : list nat) (b : nat) : list (nat * nat) :=
  zip (a :: l) (l ++ [b]).

Definition linked (nx pv : nat -> nat) (xy : nat * nat) : Prop :=
  nx (fst xy) = snd xy /\ pv (snd xy) = fst xy.
Definition ring (nx pv : nat -> nat) (l : list nat) : Prop :=
  Forall (linked nx pv) (pairs HEAD l HEAD).

Definition fupd {A} (f : nat -> A) (i : nat) (v : A) : nat -> A :=
  fun j => if decide (j = i) then v else f j.
Lemma fupd_eq {A} (f : nat -> A) i v : fupd f i v i = v.
Proof. unfold fupd. by rewrite decide_True. Qed.
Lemma fupd_ne {A} (f : nat -> A) i v j : j <> i -> fupd f i v j = f j.
Proof. intros. unfold fupd. by rewrite decide_False. Qed.

Section Ring.
Implicit Types (l : list nat) (nx pv : nat -> nat).

Lemma pairs_app a l1 x l2 b : pairs a (l1 ++ x :: l2) b = pairs a l1 x ++ pairs x l2 b.
Proof.
  revert a. induction l1 as [|y l1 IH]; intros a; [done|].
  transitivity ((a, y) :: pairs y (l1 ++ x :: l2) b); [done|].
  by rewrite IH.
Qed.

Lemma pairs_nil a b : pairs a [] b = [(a, b)].
Proof. done. Qed.
Lemma pairs_cons a x l b : pairs a (x :: l) b = (a, x) :: pairs x l b.
Proof. done. Qed.

Lemma pairs_fst a l b : (pairs a l b).*1 = a :: l.
Proof. unfold pairs. apply fst_zip. rewrite length_app. cbn. lia. Qed.
Lemma pairs_snd a l b : (pairs a l b).*2 = l ++ [b].
Proof. unfold pairs. apply snd_zip. rewrite length_app. cbn. lia. Qed.

(** The last pair, and the first. *)
Lemma pairs_last a l b : exists P p, pairs a l b = P ++ [(p, b)].
Proof.
  destruct l as [|x l] using rev_ind; [by exists [], a|].
  rewrite pairs_app. by exists (pairs a l x), x.
Qed.
Lemma pairs_first a l b : exists Q n, pairs a l b = (a, n) :: Q.
Proof. destruct l as [|x l]; [by exists [], b|]. by exists (pairs x l b), x. Qed.

(** Leaving out the element between two lists. *)
Lemma pairs_join a i b l1 l2 P p n Q :
  pairs a l1 i = P ++ [(p, i)] -> pairs i l2 b = (i, n) :: Q ->
  pairs a (l1 ++ l2) b = P ++ (p, n) :: Q.
Proof.
  revert a P. induction l1 as [|y l1 IH]; intros a P HP HQ.
  - rewrite pairs_nil in HP. destruct P as [|? [|]]; [|done..]. injection HP as <-.
    destruct l2; cbn in *; injection HQ as <- <-; done.
  - rewrite pairs_cons in HP. destruct P as [|xy P]; [by destruct l1|].
    injection HP as <- HP. cbn [app]. by rewrite pairs_cons, (IH _ _ HP HQ).
Qed.

Lemma linked_ext nx pv nx' pv' P :
  (forall x, x ∈ P.*1 -> nx' x = nx x) -> (forall y, y ∈ P.*2 -> pv' y = pv y) ->
  Forall (linked nx pv) P -> Forall (linked nx' pv') P.
Proof.
  intros Hn Hp. rewrite !Forall_forall. intros H [x y] Hxy. destruct (H _ Hxy) as [H1 H2].
  split; cbn in *.
  - rewrite Hn; [done|]. apply list_elem_of_fmap. by exists (x, y).
  - rewrite Hp; [done|]. apply list_elem_of_fmap. by exists (x, y).
Qed.

(** Taking an element out: [b->next->prev = b->prev; b->prev->next = b->next]. *)
Lemma ring_unlink nx pv l1 i l2 :
  NoDup (HEAD :: l1 ++ i :: l2) -> ring nx pv (l1 ++ i :: l2) ->
  ring (fupd nx (pv i) (nx i)) (fupd pv (nx i) (pv i)) (l1 ++ l2).
Proof.
  unfold ring. intros Hnd Hr.
  assert (H1 : NoDup (pairs HEAD (l1 ++ i :: l2) HEAD).*1) by (by rewrite pairs_fst).
  assert (H2 : NoDup (pairs HEAD (l1 ++ i :: l2) HEAD).*2).
  { rewrite pairs_snd. by rewrite Permutation_app_comm. }
  rewrite pairs_app in Hr, H1, H2.
  destruct (pairs_last HEAD l1 i) as (P & p & HP).
  destruct (pairs_first i l2 HEAD) as (Q & n & HQ).
  assert (Hnew : pairs HEAD (l1 ++ l2) HEAD = P ++ (p, n) :: Q) by (by apply (pairs_join _ i)).
  rewrite HP, HQ, <- app_assoc in *. cbn [app] in *.
  apply Forall_app in Hr as [HrP Hr]. inversion_clear Hr as [|? ? [Hpi Hip] Hr'].
  inversion_clear Hr' as [|? ? [Hin Hni] HrQ]. cbn in Hpi, Hip, Hin, Hni.
  rewrite fmap_app in H1, H2. cbn in H1, H2.
  apply NoDup_app in H1 as (_ & H1a & H1b). apply NoDup_app in H2 as (_ & H2a & H2b).
  apply NoDup_cons in H1b as [H1c H1d]. apply NoDup_cons in H1d as [H1e H1f].
  apply NoDup_cons in H2b as [H2c H2d]. apply NoDup_cons in H2d as [H2e H2f].
  rewrite Hnew, Hip, Hin. apply Forall_app. split; [|constructor].
  - eapply linked_ext; [..|exact HrP]; intros z Hx; apply fupd_ne; intros ->.
    + by apply (H1a _ Hx), list_elem_of_here.
    + by apply (H2a _ Hx), list_elem_of_further, list_elem_of_here.
  - split; cbn; apply fupd_eq.
  - eapply linked_ext; [..|exact HrQ]; intros z Hx; apply fupd_ne; intros ->.
    + apply H1c. by apply list_elem_of_further.
    + done.
Qed.

(** Putting an element at the front. *)
Lemma ring_push nx pv i l :
  i <> HEAD -> i ∉ l -> NoDup (HEAD :: l) -> ring nx pv l ->
  ring (fupd (fupd nx i (nx HEAD)) HEAD i) (fupd (fupd pv i HEAD) (nx HEAD) i) (i :: l).
Proof.
  unfold ring. intros Hi Hil Hnd Hr. rewrite pairs_cons.
  destruct (pairs_first HEAD l HEAD) as (Q & n & HQ).
  assert (Hiq : pairs i l HEAD = (i, n) :: Q).
  { destruct l; cbn in HQ; injection HQ as <- <-; done. }
  pose proof (pairs_fst HEAD l HEAD) as H1. pose proof (pairs_snd HEAD l HEAD) as H2.
  rewrite HQ in Hr, H1, H2. cbn in H1, H2. injection H1 as H1.
  inversion_clear Hr as [|? ? [Hn Hp] HrQ]. cbn in Hn, Hp. rewrite Hn, Hiq.
  assert (Hnd2 : NoDup (n :: Q.*2)).
  { rewrite H2. by rewrite Permutation_app_comm. }
  apply NoDup_cons in Hnd2 as [Hn2 _]. apply NoDup_cons in Hnd as [Hh _].
  assert (Hin : i <> n).
  { intros ->. assert (Hin : n ∈ l ++ [HEAD]) by (rewrite <- H2; apply list_elem_of_here).
    apply elem_of_app in Hin as [?|?%list_elem_of_singleton]; done. }
  constructor; [|constructor].
  - split; cbn; [apply fupd_eq|]. rewrite fupd_ne by done. apply fupd_eq.
  - split; cbn; [|apply fupd_eq]. rewrite fupd_ne by done. apply fupd_eq.
  - eapply linked_ext; [..|exact HrQ].
    + intros z Hx. rewrite H1 in Hx. rewrite !fupd_ne; [done| |]; intros ->; done.
    + intros y Hy. rewrite fupd_ne by (intros ->; done).
      apply fupd_ne. intros ->. assert (Hy' : i ∈ l ++ [HEAD]).
      { rewrite <- H2. by apply list_elem_of_further. }
      apply elem_of_app in Hy' as [?|?%list_elem_of_singleton]; done.
Qed.

End Ring.

(** ** Abstract caches *)

Definition zero_block : list Z := replicate (Z.to_nat BSIZE) 0.
(** The contents of a disk block, and the disk after a block is written. *)
Definition dblock (d : diskst) (b : Z) : list Z := default zero_block (d_blocks d !! b).
Definition dwrite (b : Z) (v : list Z) (d : diskst) : diskst :=
  mkdisk (<[b := v]> (d_blocks d)) (d_writes d ++ [(b, v)]).

(** A live block: its buffer, references, whether the thread holds the
    buffer's lock, and its contents. *)
Record live : Type := mklive { lv_buf : nat; lv_ref : Z; lv_held : bool; lv_data : list Z }.
Implicit Types (L : gmap Z live) (c : nat -> buf) (lk : nat -> sleeplock) (d : diskst).

(** What block [b] contains. *)
Definition content (d : diskst) (L : gmap Z live) (b : Z) : list Z :=
  match L !! b with Some x => lv_data x | None => dblock d b end.

(** A buffer without its links. *)
Definition core (b : buf) : buf := set_b_prev 0 (set_b_next 0 b).
Definition live_buf (b : Z) (x : live) : buf :=
  mkbuf true false ROOTDEV b (lv_ref x) 0 0 (lv_data x).

Definition block_ok (v : list Z) : Prop := length v = Z.to_nat BSIZE.
Definition blockno_ok (b : Z) : Prop := 0 <= b < 2 ^ 31.

Definition lock_is (lk : sleeplock) (pid : Z) (held : bool) : Prop :=
  sl_locked lk = held /\ (held = true -> sl_pid lk = pid).

(** A buffer that is not live: never used, or equal to its disk block. *)
Definition idle_buf (d : diskst) (b : buf) : Prop :=
  b_disk b = false /\ b_refcnt b = 0 /\ block_ok (b_data b) /\ blockno_ok (b_blockno b) /\
  (b_dev b = 0 \/ b_dev b = ROOTDEV /\ b_valid b = true /\ b_data b = dblock d (b_blockno b)).

(** The buffers [c] and their locks [lk] hold the live blocks [L]. *)
Record tab (c : nat -> buf) (lk : nat -> sleeplock) (pid : Z) (d : diskst) (L : gmap Z live) :
    Prop := mktab {
  t_live : forall b x, L !! b = Some x -> (lv_buf x < HEAD)%nat /\ 0 < lv_ref x /\
    block_ok (lv_data x) /\ blockno_ok b /\ c (lv_buf x) = live_buf b x /\
    lock_is (lk (lv_buf x)) pid (lv_held x);
  t_buf : forall i, (i < HEAD)%nat -> idle_buf d (c i) /\ sl_locked (lk i) = false \/
    exists b x, L !! b = Some x /\ lv_buf x = i;
  t_uniq : forall i j, (i < HEAD)%nat -> (j < HEAD)%nat -> b_dev (c i) = ROOTDEV ->
    b_dev (c j) = ROOTDEV -> b_blockno (c i) = b_blockno (c j) -> i = j;
  t_disk : forall b, block_ok (dblock d b)
}.

Lemma dblock_dwrite d b v b' :
  dblock (dwrite b v d) b' = if decide (b' = b) then v else dblock d b'.
Proof.
  unfold dblock, dwrite. cbn. case_decide as H.
  - subst. by rewrite lookup_insert_eq.
  - by rewrite lookup_insert_ne.
Qed.

Section Tab.
Context (c : nat -> buf) (lk : nat -> sleeplock) (pid : Z) (d : diskst) (L : gmap Z live).
Hypothesis T : tab c lk pid d L.

(** Two live blocks are in different buffers. *)
Lemma live_inj b b' x x' :
  L !! b = Some x -> L !! b' = Some x' -> lv_buf x = lv_buf x' -> b = b'.
Proof.
  intros H H' He. destruct (t_live _ _ _ _ _ T _ _ H) as (_ & _ & _ & _ & Hc & _).
  destruct (t_live _ _ _ _ _ T _ _ H') as (_ & _ & _ & _ & Hc' & _).
  rewrite He, Hc' in Hc. by injection Hc.
Qed.

Lemma live_content_ok b : block_ok (content d L b).
Proof.
  unfold content. destruct (L !! b) as [x|] eqn:H; [|by apply (t_disk _ _ _ _ _ T)].
  by destruct (t_live _ _ _ _ _ T _ _ H) as (_ & _ & ? & _).
Qed.

(** A live block changes its references, lock or contents. *)
Lemma tab_update b x ref held v k :
  L !! b = Some x -> 0 < ref -> block_ok v -> lock_is k pid held ->
  tab (fupd c (lv_buf x) (live_buf b (mklive (lv_buf x) ref held v)))
    (fupd lk (lv_buf x) k) pid d (<[b := mklive (lv_buf x) ref held v]> L).
Proof.
  intros Hx Href Hv Hk. destruct (t_live _ _ _ _ _ T _ _ Hx) as (Hi & _ & _ & Hb & Hc & _).
  split.
  - intros b' x' Hx'. destruct (decide (b' = b)) as [->|Hne].
    + rewrite lookup_insert_eq in Hx'. injection Hx' as <-. cbn. rewrite !fupd_eq. done.
    + rewrite lookup_insert_ne in Hx' by done.
      assert (lv_buf x' <> lv_buf x) by (intros He; apply Hne; by eapply live_inj).
      rewrite !fupd_ne by done. by apply (t_live _ _ _ _ _ T).
  - intros i Hi'. destruct (decide (i = lv_buf x)) as [->|Hne].
    + right. exists b, (mklive (lv_buf x) ref held v). by rewrite lookup_insert_eq.
    + rewrite !fupd_ne by done. destruct (t_buf _ _ _ _ _ T i Hi') as [?|(b' & x' & Hx' & He)];
        [by left|]. right. exists b', x'. split; [|done].
      rewrite lookup_insert_ne; [done|]. intros ->. congruence.
  - assert (Hcore : forall j, b_dev (fupd c (lv_buf x) (live_buf b (mklive (lv_buf x) ref held v)) j) = b_dev (c j)
      /\ b_blockno (fupd c (lv_buf x) (live_buf b (mklive (lv_buf x) ref held v)) j) = b_blockno (c j)).
    { intros j. destruct (decide (j = lv_buf x)) as [->|]; [|by rewrite fupd_ne].
      by rewrite fupd_eq, Hc. }
    intros i j Hi' Hj. destruct (Hcore i) as [-> ->], (Hcore j) as [-> ->].
    by apply (t_uniq _ _ _ _ _ T).
  - apply (t_disk _ _ _ _ _ T).
Qed.

(** An idle buffer becomes the buffer of a block that is in no other one. *)
Lemma tab_enter b i k :
  L !! b = None -> (i < HEAD)%nat -> b_refcnt (c i) = 0 -> blockno_ok b ->
  (forall j, (j < HEAD)%nat -> b_dev (c j) = ROOTDEV -> b_blockno (c j) = b -> j = i) ->
  lock_is k pid true ->
  tab (fupd c i (live_buf b (mklive i 1 true (dblock d b)))) (fupd lk i k) pid d
    (<[b := mklive i 1 true (dblock d b)]> L).
Proof.
  intros Hb Hi Hr Hbo Hone Hk.
  assert (Hnl : forall b' x', L !! b' = Some x' -> lv_buf x' <> i).
  { intros b' x' Hx' <-. destruct (t_live _ _ _ _ _ T _ _ Hx') as (_ & Hr' & _ & _ & Hc & _).
    rewrite Hc in Hr. cbn in Hr. lia. }
  split.
  - intros b' x' Hx'. destruct (decide (b' = b)) as [->|Hne].
    + rewrite lookup_insert_eq in Hx'. injection Hx' as <-. cbn. rewrite !fupd_eq.
      split_and!; try done. apply (t_disk _ _ _ _ _ T).
    + rewrite lookup_insert_ne in Hx' by done. rewrite !fupd_ne by (by eapply Hnl).
      by apply (t_live _ _ _ _ _ T).
  - intros j Hj. destruct (decide (j = i)) as [->|Hne].
    + right. exists b, (mklive i 1 true (dblock d b)). by rewrite lookup_insert_eq.
    + rewrite !fupd_ne by done. destruct (t_buf _ _ _ _ _ T j Hj) as [?|(b' & x' & Hx' & He)];
        [by left|]. right. exists b', x'. split; [|done]. rewrite lookup_insert_ne; [done|].
      intros ->. congruence.
  - intros j j' Hj Hj'. destruct (decide (j = i)) as [->|Hne], (decide (j' = i)) as [->|Hne'];
      rewrite ?fupd_eq, ?fupd_ne by done; cbn; [done|..].
    + intros _ Hd Heq. symmetry. by apply Hone.
    + intros Hd _ Heq. by apply Hone.
    + by apply (t_uniq _ _ _ _ _ T).
  - apply (t_disk _ _ _ _ _ T).
Qed.

(** A clean block stops being live. *)
Lemma tab_leave b x k :
  L !! b = Some x -> lv_data x = dblock d b -> sl_locked k = false ->
  tab (fupd c (lv_buf x) (live_buf b (mklive (lv_buf x) 0 false (lv_data x))))
    (fupd lk (lv_buf x) k) pid d (delete b L).
Proof.
  intros Hx Hclean Hk. destruct (t_live _ _ _ _ _ T _ _ Hx) as (Hi & _ & Hv & Hb & Hc & _).
  split.
  - intros b' x' Hx'. apply lookup_delete_Some in Hx' as [Hne Hx'].
    assert (lv_buf x' <> lv_buf x) by (intros He; apply Hne; symmetry; by eapply live_inj).
    rewrite !fupd_ne by done. by apply (t_live _ _ _ _ _ T).
  - intros i Hi'. destruct (decide (i = lv_buf x)) as [->|Hne].
    + left. rewrite !fupd_eq. split; [|done]. unfold idle_buf, live_buf. cbn. rewrite <- Hclean. auto 10.
    + rewrite !fupd_ne by done. destruct (t_buf _ _ _ _ _ T i Hi') as [?|(b' & x' & Hx' & He)];
        [by left|]. right. exists b', x'. split; [|done].
      rewrite lookup_delete_ne; [done|]. intros ->. congruence.
  - assert (Hcore : forall j, b_dev (fupd c (lv_buf x) (live_buf b (mklive (lv_buf x) 0 false (lv_data x))) j) = b_dev (c j)
      /\ b_blockno (fupd c (lv_buf x) (live_buf b (mklive (lv_buf x) 0 false (lv_data x))) j) = b_blockno (c j)).
    { intros j. destruct (decide (j = lv_buf x)) as [->|]; [|by rewrite fupd_ne].
      by rewrite fupd_eq, Hc. }
    intros i j Hi' Hj. destruct (Hcore i) as [-> ->], (Hcore j) as [-> ->].
    by apply (t_uniq _ _ _ _ _ T).
  - apply (t_disk _ _ _ _ _ T).
Qed.

(** Writing a live block to the disk. *)
Lemma tab_write b x : L !! b = Some x -> tab c lk pid (dwrite b (lv_data x) d) L.
Proof.
  intros Hx. destruct (t_live _ _ _ _ _ T _ _ Hx) as (Hi & Hr & Hv & Hb & Hc & _).
  split.
  - apply (t_live _ _ _ _ _ T).
  - intros i Hi'. destruct (t_buf _ _ _ _ _ T i Hi') as [[Hidle Hl]|?]; [|by right]. left.
    split; [|done]. destruct Hidle as (? & Hr0 & ? & ? & Hd). unfold idle_buf.
    split_and!; try done. destruct Hd as [?|(Hroot & ? & Heq)]; [by left|]. right.
    split_and!; try done. rewrite dblock_dwrite, decide_False; [done|]. intros Hbb.
    assert (i = lv_buf x) as ->.
    { apply (t_uniq _ _ _ _ _ T); try done; rewrite Hc; [done|]. by rewrite Hbb. }
    rewrite Hc in Hr0. cbn in Hr0. lia.
  - apply (t_uniq _ _ _ _ _ T).
  - intros b'. rewrite dblock_dwrite. case_decide; [done|]. apply (t_disk _ _ _ _ _ T).
Qed.

End Tab.

Lemma tab_ext c c' lk lk' pid d L :
  (forall i, (i < HEAD)%nat -> c' i = c i) -> (forall i, (i < HEAD)%nat -> lk' i = lk i) ->
  tab c lk pid d L -> tab c' lk' pid d L.
Proof.
  intros Hc Hk [T1 T2 T3 T4]. split; [..|done].
  - intros b x Hx. destruct (T1 _ _ Hx) as (Hi & ?). rewrite Hc, Hk by done. done.
  - intros i Hi. rewrite Hc, Hk by done. by apply T2.
  - intros i j Hi Hj. rewrite !Hc by done. by apply T3.
Qed.

(** When fewer blocks than buffers are live, a buffer is idle. *)
Lemma tab_idle c lk pid d L :
  tab c lk pid d L -> (size L < HEAD)%nat -> exists i, (i < HEAD)%nat /\ b_refcnt (c i) = 0.
Proof.
  intros T Hs.
  destruct (decide (Exists (fun i => b_refcnt (c i) = 0) (seq 0 HEAD))) as [He|Hn].
  { apply Exists_exists in He as (i & Hi & ?). apply elem_of_seq in Hi. exists i. split; [lia|done]. }
  exfalso. apply not_Exists_Forall in Hn; [|apply _]. rewrite Forall_forall in Hn.
  assert (Hincl : forall i, In i (seq 0 HEAD) -> In i (lv_buf <$> (map_to_list L).*2)).
  { intros i Hi%list_elem_of_In. apply list_elem_of_In.
    pose proof (Hn _ Hi) as Hr. apply elem_of_seq in Hi.
    assert (Hi' : (i < HEAD)%nat) by lia.
    destruct (t_buf _ _ _ _ _ T i Hi') as [[(_ & ? & _) _]|(b & x & Hx & <-)]; [done|].
    apply list_elem_of_fmap. exists x. split; [done|]. apply list_elem_of_fmap. exists (b, x).
    split; [done|]. by apply elem_of_map_to_list. }
  pose proof (NoDup_incl_length (seq_NoDup HEAD 0) Hincl) as Hlen.
  rewrite length_seq, !length_fmap, length_map_to_list in Hlen. lia.
Qed.

(** ** The kernel state represents an abstract cache *)

(** What the layers above the cache keep in the kernel state. *)
Definition upper (s : kstate) := (klog s, itable s, sb s).

(** The disk driver transfers a block between its buffer and the disk. *)
Class DiskLaws `{D : DiskDriver} : Type := {
  dd_ok : kstate -> Prop;
  dd_keep s s' : vdsk s' = vdsk s -> dd_ok s -> dd_ok s';
  disk_rw_run b w s e x :
    quiet s -> dd_ok s -> bufs s !! b = Some x -> (b < HEAD)%nat ->
    b_disk x = false -> blockno_ok (b_blockno x) -> block_ok (b_data x) ->
    exists s', disk_rw b w s e = Ok () s' e /\ dd_ok s' /\ kq s s' /\
      upper s' = upper s /\ slocks s' = slocks s /\
      (if w then bufs s' = bufs s /\ disk s' = dwrite (b_blockno x) (b_data x) (disk s)
       else disk s' = disk s /\
         bufs s' = <[b := set_b_data (dblock (disk s) (b_blockno x)) x]> (bufs s))
}.

Definition links (s : kstate) (l : list nat) : Prop :=
  ring (fun i => b_next (get_buf s i)) (fun i => b_prev (get_buf s i)) l.

Section BufCache.
Context {D : DiskDriver} {DL : DiskLaws}.

Record brep (s : kstate) (L : gmap Z live) : Prop := mkbrep {
  br_quiet : quiet s;
  br_dd : dd_ok s;
  br_len : length (bufs s) = S HEAD;
  br_ring : exists l, l ≡ₚ seq 0 HEAD /\ links s l;
  br_tab : tab (fun i => core (get_buf s i)) (fun i => get_slock s (SLbuf i)) (cur_pid s) (disk s) L
}.

(** What a routine of the cache leaves alone. *)
Record bstep (s s' : kstate) : Prop := mkbstep {
  bs_kq : kq s s';
  bs_upper : upper s' = upper s;
  bs_inode : forall i, get_slock s' (SLinode i) = get_slock s (SLinode i)
}.

#[export] Instance bstep_refl : Reflexive bstep.
Proof. intros s. by split. Qed.
#[export] Instance bstep_trans : Transitive bstep.
Proof.
  intros s1 s2 s3 [K1 U1 I1] [K2 U2 I2]. split; [by etrans|congruence|]. intros i. by rewrite I2.
Qed.

Lemma get_upd_buf s i f j :
  (i < length (bufs s))%nat ->
  get_buf (upd_buf i f s) j = if decide (j = i) then f (get_buf s i) else get_buf s j.
Proof.
  intros Hi. unfold get_buf, upd_buf. cbn. destruct (lookup_lt_is_Some_2 _ _ Hi) as [x Hx].
  case_decide as H.
  - subst. by rewrite list_lookup_alter_eq, Hx.
  - by rewrite list_lookup_alter_ne.
Qed.

Lemma get_upd_slock s l v l' :
  get_slock (upd_slock l v s) l' = if decide (l' = l) then v else get_slock s l'.
Proof.
  unfold get_slock, upd_slock. cbn. case_decide as H.
  - subst. by rewrite lookup_insert_eq.
  - by rewrite lookup_insert_ne.
Qed.

Lemma links_ext s s' l :
  (forall i, b_next (get_buf s' i) = b_next (get_buf s i)) ->
  (forall i, b_prev (get_buf s' i) = b_prev (get_buf s i)) -> links s l -> links s' l.
Proof. intros Hn Hp. apply linked_ext; intros; [apply Hn|apply Hp]. Qed.

(** ** Searching the list *)

Fixpoint ffind (f : nat -> bool) (l : list nat) : option nat :=
  match l with
  | [] => None
  | i :: l' => if f i then Some i else ffind f l'
  end.

Lemma ffind_Some f l i : ffind f l = Some i -> i ∈ l /\ f i = true.
Proof.
  induction l as [|j l IH]; [done|]. cbn. destruct (f j) eqn:Hf.
  - intros [= <-]. split; [apply list_elem_of_here|done].
  - intros H. destruct (IH H). split; [by apply list_elem_of_further|done].
Qed.
Lemma ffind_None f l i : ffind f l = None -> i ∈ l -> f i = false.
Proof.
  induction l as [|j l IH]; cbn; [by intros _ ?%elem_of_nil|]. destruct (f j) eqn:Hf; [done|].
  intros H [->|Hi]%elem_of_cons; [done|]. by apply IH.
Qed.

Lemma scan_run s e n step test a l :
  Forall (fun xy => step (get_buf s (fst xy)) = snd xy) (pairs a l HEAD) ->
  HEAD ∉ l -> (length l < n)%nat ->
  buf_scan n step test (step (get_buf s a)) s e = Ok (ffind (fun i => test (get_buf s i)) l) s e.
Proof.
  revert a n. induction l as [|x l IH]; intros a n Hp Hh Hn;
    (destruct n as [|n]; [cbn in Hn; lia|]).
  - rewrite pairs_nil in Hp. apply Forall_cons in Hp as [H _]. cbn in H. rewrite H.
    cbn [buf_scan]. by rewrite decide_True.
  - rewrite pairs_cons in Hp. apply Forall_cons in Hp as [H Hp]. cbn in H. rewrite H.
    apply not_elem_of_cons in Hh as [Hx Hh]. cbn [buf_scan ffind].
    rewrite decide_False by done. unfold bufget. kpure.
    destruct (test (get_buf s x)); [done|]. apply IH; [done..|]. cbn in Hn. lia.
Qed.

Lemma pairs_rev a l b : pairs b (rev l) a = rev (prod_swap <$> pairs a l b).
Proof.
  revert a. induction l as [|x l IH]; intros a; [done|].
  rewrite pairs_cons. cbn [rev fmap list_fmap]. rewrite pairs_app, IH. done.
Qed.

Lemma elem_of_rev (i : nat) l : i ∈ rev l <-> i ∈ l.
Proof. by rewrite <- Permutation_rev. Qed.

Lemma perm_head l : l ≡ₚ seq 0 HEAD -> HEAD ∉ l /\ (length l < S HEAD)%nat /\ NoDup l /\
  forall i, i ∈ l <-> (i < HEAD)%nat.
Proof.
  intros Hp.
  assert (Hin : forall i, i ∈ l <-> (i < HEAD)%nat).
  { intros i. rewrite Hp, elem_of_seq. lia. }
  split_and!; [|..|done].
  - rewrite Hin. lia.
  - rewrite Hp, length_seq. lia.
  - rewrite Hp. apply NoDup_seq.
Qed.

Lemma scan_fwd s e test l :
  l ≡ₚ seq 0 HEAD -> links s l ->
  buf_scan (S HEAD) b_next test (b_next (get_buf s HEAD)) s e =
    Ok (ffind (fun i => test (get_buf s i)) l) s e.
Proof.
  intros Hp Hl. destruct (perm_head _ Hp) as (? & ? & _). apply scan_run; [|done..].
  eapply Forall_impl; [exact Hl|]. by intros xy [].
Qed.

Lemma scan_bwd s e test l :
  l ≡ₚ seq 0 HEAD -> links s l ->
  buf_scan (S HEAD) b_prev test (b_prev (get_buf s HEAD)) s e =
    Ok (ffind (fun i => test (get_buf s i)) (rev l)) s e.
Proof.
  intros Hp Hl. assert (Hp' : rev l ≡ₚ seq 0 HEAD) by (by rewrite <- Permutation_rev).
  destruct (perm_head _ Hp') as (? & ? & _). apply scan_run; [|done..].
  rewrite pairs_rev. apply Forall_rev, Forall_fmap. eapply Forall_impl; [exact Hl|].
  by intros [x y] [].
Qed.

(** ** The routines *)

(** The buffers change at [i], not in their links. *)
Lemma brep_upd s s' L L' i f :
  brep s L -> kq s s' -> dd_ok s' -> disk s' = disk s -> (i < HEAD)%nat ->
  bufs s' = alter f i (bufs s) ->
  (forall b, b_next (f b) = b_next b /\ b_prev (f b) = b_prev b) ->
  tab (fupd (fun j => core (get_buf s j)) i (core (f (get_buf s i))))
    (fun j => get_slock s' (SLbuf j)) (cur_pid s) (disk s) L' ->
  brep s' L'.
Proof.
  intros [Q V Hlen (l & Hp & Hl) T] K Hv Hd Hi Hb Hf T'.
  assert (Hget : forall j, get_buf s' j = get_buf (upd_buf i f s) j) by (intros; unfold get_buf; by rewrite Hb).
  assert (Hlt : (i < length (bufs s))%nat) by lia.
  split.
  - by eapply kq_quiet.
  - done.
  - by rewrite Hb, length_alter.
  - exists l. split; [done|]. eapply links_ext; [..|exact Hl]; intros j; rewrite Hget, get_upd_buf by done;
      case_decide; subst; try done; apply Hf.
  - rewrite (kq_cur_pid _ _ K), Hd. eapply tab_ext; [..|exact T']; [|done].
    intros j Hj. rewrite Hget, get_upd_buf by done. unfold fupd. by case_decide; subst.
Qed.

Lemma kq_intro s s' :
  fixed s' = fixed s -> syn s' = touch (syn s) -> procs s' = procs s -> kq s s'.
Proof. intros. split; auto. congruence. Qed.

Lemma slock_ok_buf i : (i < HEAD)%nat -> slock_ok (SLbuf i).
Proof. intros. apply Is_true_eq_left. by apply Nat.ltb_lt. Qed.

(** Taking the lock of buffer [i] at the end of [bget]; [t] is [s] with the
    cache locked and updated. *)
Lemma take_buf s t e i :
  quiet s -> (i < HEAD)%nat -> sl_locked (get_slock s (SLbuf i)) = false ->
  syn t = acq (syn s) Lbcache -> fixed t = fixed s -> procs t = procs s -> slocks t = slocks s ->
  exists s', (release Lbcache;; acquiresleep (SLbuf i);; mret i) t e = Ok i s' e /\
    kq s s' /\ upper s' = upper t /\ vdsk s' = vdsk t /\ disk s' = disk t /\ bufs s' = bufs t /\
    slocks s' = <[SLbuf i := mksleeplock (sl_name (get_slock s (SLbuf i))) true (cur_pid s)]> (slocks s).
Proof.
  intros Q Hi Hl Hy Hfx Hpr Hsl.
  rewrite (bind_ok (release Lbcache) _ _ _ _ _ _
    (quiet_release s t e Lbcache Q ltac:(in_static) Hy)).
  set (s1 := set_syn (touch (syn s)) t).
  assert (K1 : kq s s1) by (by apply kq_intro).
  assert (Hl1 : get_slock s1 (SLbuf i) = get_slock s (SLbuf i)).
  { unfold get_slock, s1. cbn. by rewrite Hsl. }
  rewrite (bind_ok (acquiresleep (SLbuf i)) _ _ _ _ _ _ (acquiresleep_free (SLbuf i) s1 e
    (kq_thread _ _ K1 (quiet_thread _ Q)) (slock_ok_buf i Hi) ltac:(rewrite Hl1; exact Hl))).
  eexists. split; [reflexivity|].
  rewrite Hl1, (kq_cur_pid _ _ K1). cbn. rewrite Hsl, touch_touch.
  split_and!; try done.
  transitivity s1; [done|]. apply kq_intro; cbn; by rewrite ?touch_touch.
Qed.

(** Is a buffer that of block [b]? *)
Definition is_block (b : Z) (x : buf) : bool := (b_dev x =? ROOTDEV) && (b_blockno x =? b).

Lemma bget_hit s e b i l :
  quiet s -> l ≡ₚ seq 0 HEAD -> links s l -> (i < HEAD)%nat ->
  sl_locked (get_slock s (SLbuf i)) = false ->
  ffind (fun j => is_block b (get_buf s j)) l = Some i ->
  exists s', bget ROOTDEV b s e = Ok i s' e /\
    kq s s' /\ upper s' = upper s /\ vdsk s' = vdsk s /\ disk s' = disk s /\
    bufs s' = alter (fun x => set_b_refcnt (b_refcnt x + 1) x) i (bufs s) /\
    slocks s' = <[SLbuf i := mksleeplock (sl_name (get_slock s (SLbuf i))) true (cur_pid s)]> (slocks s).
Proof.
  intros Q Hp Hr Hi Hl Hf. unfold bget.
  rewrite (bind_ok _ _ _ _ _ _ _ (quiet_acquire s e Lbcache Q ltac:(in_static))).
  set (s0 := set_syn (acq (syn s) Lbcache) s). unfold bufget. kpure.
  rewrite (bind_ok _ _ _ _ _ _ _ (scan_fwd s0 e (is_block b) l Hp Hr)).
  change (ffind (fun j => is_block b (get_buf s0 j)) l) with (ffind (fun j => is_block b (get_buf s j)) l).
  rewrite Hf. kpure.
  by apply (take_buf s (upd_buf i (fun x => set_b_refcnt (b_refcnt x + 1) x) s0)).
Qed.

(** What [bget] makes of a recycled buffer. *)
Definition recycled (b : Z) (x : buf) : buf :=
  set_b_refcnt 1 (set_b_valid false (set_b_blockno b (set_b_dev ROOTDEV x))).

Lemma bget_miss s e b i l :
  quiet s -> l ≡ₚ seq 0 HEAD -> links s l -> (i < HEAD)%nat ->
  sl_locked (get_slock s (SLbuf i)) = false ->
  ffind (fun j => is_block b (get_buf s j)) l = None ->
  ffind (fun j => b_refcnt (get_buf s j) =? 0) (rev l) = Some i ->
  exists s', bget ROOTDEV b s e = Ok i s' e /\
    kq s s' /\ upper s' = upper s /\ vdsk s' = vdsk s /\ disk s' = disk s /\
    bufs s' = alter (recycled b) i (bufs s) /\
    slocks s' = <[SLbuf i := mksleeplock (sl_name (get_slock s (SLbuf i))) true (cur_pid s)]> (slocks s).
Proof.
  intros Q Hp Hr Hi Hl Hf Hf2. unfold bget.
  rewrite (bind_ok _ _ _ _ _ _ _ (quiet_acquire s e Lbcache Q ltac:(in_static))).
  set (s0 := set_syn (acq (syn s) Lbcache) s). unfold bufget. kpure.
  rewrite (bind_ok _ _ _ _ _ _ _ (scan_fwd s0 e (is_block b) l Hp Hr)).
  change (ffind (fun j => is_block b (get_buf s0 j)) l) with (ffind (fun j => is_block b (get_buf s j)) l).
  rewrite Hf. kpure.
  rewrite (bind_ok _ _ _ _ _ _ _ (scan_bwd s0 e (fun x => b_refcnt x =? 0) l Hp Hr)).
  change (ffind (fun j => b_refcnt (get_buf s0 j) =? 0) (rev l))
    with (ffind (fun j => b_refcnt (get_buf s j) =? 0) (rev l)).
  rewrite Hf2. kpure.
  destruct (take_buf s (upd_buf i (set_b_refcnt 1) (upd_buf i (set_b_valid false)
    (upd_buf i (set_b_blockno b) (upd_buf i (set_b_dev ROOTDEV) s0)))) e i)
    as (s' & Hrun & K & U & V & Dk & B & Sl); try done.
  exists s'. split_and!; try done. rewrite B. unfold upd_buf. cbn. by rewrite !list_alter_alter_eq.
Qed.

Definition live_ref (L : gmap Z live) (b : Z) : Z :=
  match L !! b with Some x => lv_ref x | None => 0 end.

(** The block may be taken: it is live and nobody holds it, or a buffer is free for it. *)
Definition can_get (L : gmap Z live) (b : Z) : Prop :=
  match L !! b with Some x => lv_held x = false | None => (size L < HEAD)%nat end.

Definition get_live (d : diskst) (L : gmap Z live) (b : Z) (i : nat) : gmap Z live :=
  <[b := mklive i (live_ref L b + 1) true (content d L b)]> L.

(** The locks after one of them was taken. *)
Lemma tab_locks s s' k i c L d pid :
  slocks s' = <[SLbuf i := k]> (slocks s) ->
  tab c (fupd (fun j => get_slock s (SLbuf j)) i k) pid d L ->
  tab c (fun j => get_slock s' (SLbuf j)) pid d L.
Proof.
  intros Hs. apply tab_ext; [done|]. intros j _. unfold get_slock, fupd. rewrite Hs.
  case_decide as Hj; [subst; by rewrite lookup_insert_eq|]. by rewrite lookup_insert_ne by congruence.
Qed.

Lemma bstep_intro s s' i k :
  kq s s' -> upper s' = upper s -> slocks s' = <[SLbuf i := k]> (slocks s) -> bstep s s'.
Proof.
  intros K U Hs. split; [done..|]. intros j. unfold get_slock. rewrite Hs. by rewrite lookup_insert_ne.
Qed.

Lemma is_block_core b x : is_block b x = true <-> b_dev (core x) = ROOTDEV /\ b_blockno (core x) = b.
Proof. unfold is_block, core. cbn. rewrite andb_true_iff, !Z.eqb_eq. done. Qed.

Lemma core_live x b i v r :
  b_valid (core x) = true -> b_disk (core x) = false -> b_dev (core x) = ROOTDEV ->
  b_blockno (core x) = b -> b_refcnt (core x) = r -> b_data (core x) = v ->
  set_b_refcnt (b_refcnt (core x) + 1) (core x) = live_buf b (mklive i (r + 1) true v).
Proof. destruct x. unfold live_buf, core. cbn. by intros -> -> -> -> -> ->. Qed.

(** The block is in the cache. *)
Lemma bread_hit s L b e i l :
  brep s L -> can_get L b -> l ≡ₚ seq 0 HEAD -> links s l ->
  ffind (fun j => is_block b (get_buf s j)) l = Some i ->
  exists s', bread ROOTDEV b s e = Ok i s' e /\ brep s' (get_live (disk s) L b i) /\
    bstep s s' /\ disk s' = disk s /\ (forall x, L !! b = Some x -> i = lv_buf x).
Proof.
  intros R Hcan Hp Hr Hf. pose proof R as [Q V Hlen _ T].
  destruct (ffind_Some _ _ _ Hf) as [Hi Hb]. apply (perm_head _ Hp) in Hi.
  apply is_block_core in Hb as [Hdev Hno].
  set (f := fun x => set_b_refcnt (b_refcnt x + 1) x).
  set (k := mksleeplock (sl_name (get_slock s (SLbuf i))) true (cur_pid s)).
  assert (Hcase : sl_locked (get_slock s (SLbuf i)) = false /\ b_valid (core (get_buf s i)) = true /\
    (forall x, L !! b = Some x -> i = lv_buf x) /\
    tab (fupd (fun j => core (get_buf s j)) i (core (f (get_buf s i))))
      (fupd (fun j => get_slock s (SLbuf j)) i k) (cur_pid s) (disk s) (get_live (disk s) L b i)).
  { assert (Hcf : core (f (get_buf s i)) = f (core (get_buf s i))) by done. rewrite Hcf.
    destruct (t_buf _ _ _ _ _ T i Hi) as [[Hidle Hl]|(b' & x & Hx & <-)].
    - destruct Hidle as (Hd & Hr0 & _ & Hbo & [Hz|(_ & Hv & Hdata)]); [by rewrite Hz in Hdev|].
      assert (Hnone : L !! b = None).
      { destruct (L !! b) as [x|] eqn:Hx; [|done]. exfalso.
        destruct (t_live _ _ _ _ _ T _ _ Hx) as (Hxi & Hxr & _ & _ & Hxc & _).
        assert (i = lv_buf x) as -> by (apply (t_uniq _ _ _ _ _ T); rewrite ?Hxc; done).
        rewrite Hxc in Hr0. cbn in Hr0. lia. }
      split_and!; [done|done|by rewrite Hnone|]. unfold get_live, live_ref, content. rewrite Hnone.
      replace (f (core (get_buf s i))) with (live_buf b (mklive i 1 true (dblock (disk s) b))).
      + apply tab_enter; try done; [by rewrite Hno in Hbo|].
        intros j Hj Hjd Hjn. by apply (t_uniq _ _ _ _ _ T); rewrite ?Hjn, ?Hno.
      + rewrite Hno in Hdata. symmetry. by apply (core_live _ b i (dblock (disk s) b) 0).
    - destruct (t_live _ _ _ _ _ T _ _ Hx) as (Hxi & Hxr & Hxd & _ & Hxc & [Hxl _]).
      rewrite Hxc in Hno. cbn in Hno. subst b'. unfold can_get in Hcan. rewrite Hx in Hcan.
      split_and!; [congruence|by rewrite Hxc|intros x'; rewrite Hx; by intros [= ->]|].
      unfold get_live, live_ref, content. rewrite Hx, Hxc. apply tab_update; try done. lia. }
  destruct Hcase as (Hl & Hv & Hlv & T').
  destruct (bget_hit s e b i l Q Hp Hr Hi Hl Hf) as (s' & Hrun & K & U & Vd & Dk & B & Sl).
  exists s'. split_and!; [|..|done|done].
  - unfold bread. rewrite (bind_ok _ _ _ _ _ _ _ Hrun). unfold bufget. kpure.
    assert (Hv' : b_valid (get_buf s' i) = true).
    { unfold get_buf in *. rewrite B. cbn in Hv. rewrite list_lookup_alter_eq.
      by destruct (bufs s !! i). }
    by rewrite Hv'.
  - eapply brep_upd; [exact R|done|by eapply dd_keep|done|exact Hi|exact B|done|].
    eapply tab_locks; [exact Sl|exact T'].
  - by eapply bstep_intro.
Qed.

(** The block is not in the cache: the least recently used idle buffer is
    recycled for it and read from the disk. *)
Lemma bread_miss s L b e l :
  brep s L -> can_get L b -> blockno_ok b -> l ≡ₚ seq 0 HEAD -> links s l ->
  ffind (fun j => is_block b (get_buf s j)) l = None ->
  exists i s', bread ROOTDEV b s e = Ok i s' e /\ brep s' (get_live (disk s) L b i) /\
    bstep s s' /\ disk s' = disk s /\ L !! b = None.
Proof.
  intros R Hcan Hbo Hp Hr Hf. pose proof R as [Q V Hlen _ T].
  assert (Hno : forall j, (j < HEAD)%nat -> b_dev (core (get_buf s j)) = ROOTDEV ->
    b_blockno (core (get_buf s j)) <> b).
  { intros j Hj Hd Hb. apply (perm_head _ Hp) in Hj. pose proof (ffind_None _ _ _ Hf Hj) as Hn.
    cbn in Hn. rewrite (proj2 (is_block_core b _)) in Hn; done. }
  assert (Hnone : L !! b = None).
  { destruct (L !! b) as [x|] eqn:Hx; [|done]. exfalso.
    destruct (t_live _ _ _ _ _ T _ _ Hx) as (Hxi & _ & _ & _ & Hxc & _).
    apply (Hno _ Hxi); by rewrite Hxc. }
  unfold can_get in Hcan. rewrite Hnone in Hcan.
  destruct (ffind (fun j => b_refcnt (get_buf s j) =? 0) (rev l)) as [i|] eqn:Hf2.
  2: { destruct (tab_idle _ _ _ _ _ T Hcan) as (i & Hi & Hri). apply (perm_head _ Hp) in Hi.
       rewrite <- elem_of_rev in Hi.
       pose proof (ffind_None _ _ _ Hf2 Hi) as Hn. by apply Z.eqb_neq in Hn. }
  destruct (ffind_Some _ _ _ Hf2) as [Hi Hr0]. apply Z.eqb_eq in Hr0.
  rewrite elem_of_rev in Hi. apply (perm_head _ Hp) in Hi.
  assert (Hidle : idle_buf (disk s) (core (get_buf s i)) /\ sl_locked (get_slock s (SLbuf i)) = false).
  { destruct (t_buf _ _ _ _ _ T i Hi) as [?|(b' & x & Hx & <-)]; [done|]. exfalso.
    destruct (t_live _ _ _ _ _ T _ _ Hx) as (_ & Hxr & _ & _ & Hxc & _).
    apply (f_equal b_refcnt) in Hxc. cbn in Hxc. lia. }
  destruct Hidle as [(Hd & _ & Hok & _ & _) Hl].
  destruct (bget_miss s e b i l Q Hp Hr Hi Hl Hf Hf2) as (s1 & Hrun & K & U & Vd & Dk & B & Sl).
  assert (Hlt : (i < length (bufs s))%nat) by lia.
  destruct (lookup_lt_is_Some_2 _ _ Hlt) as [x Hx].
  assert (Hgx : get_buf s i = x) by (unfold get_buf; by rewrite Hx). rewrite Hgx in Hd, Hok.
  assert (B1 : bufs s1 !! i = Some (recycled b x)) by (by rewrite B, list_lookup_alter_eq, Hx).
  destruct (disk_rw_run i false s1 e (recycled b x)) as (s2 & Hrw & V2 & K2 & U2 & Sl2 & Dk2 & B2);
    [by eapply kq_quiet|by eapply dd_keep|done..|].
  exists i, (upd_buf i (set_b_valid true) s2).
  assert (Kall : kq s (upd_buf i (set_b_valid true) s2)).
  { transitivity s1; [done|]. transitivity s2; [done|]. split; auto. }
  split_and!; [| | |cbn; congruence|done].
  - unfold bread. rewrite (bind_ok _ _ _ _ _ _ _ Hrun). unfold bufget. kpure.
    unfold get_buf. rewrite B1. cbn [from_option id recycled set_b_refcnt b_valid set_b_valid negb when].
    rewrite bind_assoc, (bind_ok _ _ _ _ _ _ _ Hrw). kpure. done.
  - eapply (brep_upd s _ L _ i (fun x => set_b_valid true (set_b_data (dblock (disk s) b) (recycled b x))));
      [exact R|done|by eapply dd_keep, V2|cbn; congruence|done| |done|].
    + cbn. rewrite B2, Dk. cbn. rewrite B, (list_alter_known _ _ _ _ Hx), list_insert_insert_eq.
      rewrite (list_alter_known _ _ _ (set_b_data (dblock (disk s) b) (recycled b x))),
        list_insert_insert_eq, (list_alter_known _ _ _ _ Hx); [done|].
      by rewrite list_lookup_insert_eq.
    + eapply (tab_locks s); [cbn; rewrite Sl2; exact Sl|].
      rewrite Hgx. unfold get_live, live_ref, content. rewrite Hnone.
      replace (core (set_b_valid true (set_b_data (dblock (disk s) b) (recycled b x))))
        with (live_buf b (mklive i 1 true (dblock (disk s) b))).
      * apply tab_enter; try done. intros j Hj Hjd Hjn. by destruct (Hno j Hj Hjd).
      * clear -Hd. destruct x. cbn in Hd. by subst.
  - eapply bstep_intro; [done|cbn; etrans; [exact U2|exact U]|cbn; rewrite Sl2; exact Sl].
Qed.

(** [bread] makes the block live, with the contents it has, and holds it. *)
Lemma bread_run s L b e :
  brep s L -> can_get L b -> blockno_ok b ->
  exists i s', bread ROOTDEV b s e = Ok i s' e /\ brep s' (get_live (disk s) L b i) /\
    bstep s s' /\ disk s' = disk s /\ (forall x, L !! b = Some x -> i = lv_buf x).
Proof.
  intros R Hcan Hbo. destruct (br_ring _ _ R) as (l & Hp & Hr).
  destruct (ffind (fun j => is_block b (get_buf s j)) l) as [i|] eqn:Hf.
  - exists i. by eapply bread_hit.
  - destruct (bread_miss s L b e l R Hcan Hbo Hp Hr Hf) as (i & s' & H1 & H2 & H3 & H4 & H5).
    exists i, s'. split_and!; try done. by rewrite H5.
Qed.

(** *** Moving a buffer to the front of the list *)

Definition nx (s : kstate) : nat -> nat := fun j => b_next (get_buf s j).
Definition pv (s : kstate) : nat -> nat := fun j => b_prev (get_buf s j).

(** The assignments of [brelse] to the links. *)
Definition unlink (i : nat) (s : kstate) : kstate :=
  let s1 := upd_buf (b_next (get_buf s i)) (set_b_prev (b_prev (get_buf s i))) s in
  upd_buf (b_prev (get_buf s1 i)) (set_b_next (b_next (get_buf s1 i))) s1.
Definition push_front (i : nat) (s : kstate) : kstate :=
  let s1 := upd_buf i (set_b_next (b_next (get_buf s HEAD))) s in
  let s2 := upd_buf i (set_b_prev HEAD) s1 in
  let s3 := upd_buf (b_next (get_buf s2 HEAD)) (set_b_prev i) s2 in
  upd_buf HEAD (set_b_next i) s3.

Lemma nx_set_next s k v j : (k < length (bufs s))%nat ->
  nx (upd_buf k (set_b_next v) s) j = fupd (nx s) k v j.
Proof. intros. unfold nx, fupd. rewrite get_upd_buf by done. by case_decide. Qed.
Lemma pv_set_prev s k v j : (k < length (bufs s))%nat ->
  pv (upd_buf k (set_b_prev v) s) j = fupd (pv s) k v j.
Proof. intros. unfold pv, fupd. rewrite get_upd_buf by done. by case_decide. Qed.
Lemma nx_set_prev s k v j : (k < length (bufs s))%nat -> nx (upd_buf k (set_b_prev v) s) j = nx s j.
Proof. intros. unfold nx. rewrite get_upd_buf by done. by case_decide; subst. Qed.
Lemma pv_set_next s k v j : (k < length (bufs s))%nat -> pv (upd_buf k (set_b_next v) s) j = pv s j.
Proof. intros. unfold pv. rewrite get_upd_buf by done. by case_decide; subst. Qed.

(** A change of links. *)
Definition relinks (s s' : kstate) : Prop :=
  length (bufs s') = length (bufs s) /\ (forall j, core (get_buf s' j) = core (get_buf s j)) /\
  exists bs, s' = set_bufs bs s.

Lemma relinks_next s k v : (k < length (bufs s))%nat -> relinks s (upd_buf k (set_b_next v) s).
Proof.
  intros. split_and!; [apply length_alter| |by eexists].
  intros j. rewrite get_upd_buf by done. by case_decide; subst.
Qed.
Lemma relinks_prev s k v : (k < length (bufs s))%nat -> relinks s (upd_buf k (set_b_prev v) s).
Proof.
  intros. split_and!; [apply length_alter| |by eexists].
  intros j. rewrite get_upd_buf by done. by case_decide; subst.
Qed.
Lemma relinks_refl s : relinks s s.
Proof. split; [done|]. split; [done|]. exists (bufs s). symmetry. apply set_bufs_id. Qed.
Lemma relinks_trans s1 s2 s3 : relinks s1 s2 -> relinks s2 s3 -> relinks s1 s3.
Proof.
  intros (L1 & C1 & b1 & ->) (L2 & C2 & b2 & ->). split_and!; [congruence| |].
  - intros j. by rewrite C2.
  - exists b2. by destruct s1.
Qed.

Lemma ring_neighbours nx pv l1 i l2 :
  NoDup (HEAD :: l1 ++ i :: l2) -> ring nx pv (l1 ++ i :: l2) ->
  nx i ∈ HEAD :: l1 ++ l2 /\ pv i ∈ HEAD :: l1 ++ l2 /\ nx i <> i.
Proof.
  intros Hnd Hl. unfold ring in Hl. rewrite pairs_app, Forall_app in Hl. destruct Hl as [Ha Hb].
  destruct (pairs_last HEAD l1 i) as (P & p & HP). destruct (pairs_first i l2 HEAD) as (Q & n & HQ).
  rewrite HP, Forall_app in Ha. destruct Ha as [_ Ha%Forall_inv]. rewrite HQ in Hb.
  apply Forall_inv in Hb. destruct Ha as [_ Ha], Hb as [Hb _]. cbn in Ha, Hb. rewrite Ha, Hb.
  assert (Hp1 : p ∈ HEAD :: l1).
  { rewrite <- (pairs_fst HEAD l1 i), HP, fmap_app. apply elem_of_app. right. apply list_elem_of_here. }
  assert (Hn1 : n ∈ l2 ++ [HEAD]).
  { rewrite <- (pairs_snd i l2 HEAD), HQ. apply list_elem_of_here. }
  apply NoDup_cons in Hnd as [Hh Hnd]. apply NoDup_app in Hnd as (_ & _ & [Hi2 _]%NoDup_cons).
  rewrite elem_of_app, list_elem_of_singleton in Hn1. rewrite elem_of_cons in Hp1.
  rewrite elem_of_app, elem_of_cons in Hh. rewrite !elem_of_cons, !elem_of_app.
  split_and!; try tauto. intros ->. destruct Hn1 as [?| ->]; tauto.
Qed.

Lemma unlink_run s l1 i l2 :
  NoDup (HEAD :: l1 ++ i :: l2) -> length (bufs s) = S HEAD ->
  (forall j, j ∈ HEAD :: l1 ++ l2 -> (j < S HEAD)%nat) -> links s (l1 ++ i :: l2) ->
  links (unlink i s) (l1 ++ l2) /\ relinks s (unlink i s).
Proof.
  intros Hnd Hlen Hmem Hl.
  destruct (ring_neighbours (nx s) (pv s) l1 i l2 Hnd Hl) as (Hn%Hmem & Hp%Hmem & Hni).
  rewrite <- Hlen in Hn, Hp. unfold unlink. fold (nx s i) (pv s i).
  set (s1 := upd_buf (nx s i) (set_b_prev (pv s i)) s). fold (nx s1 i) (pv s1 i).
  assert (R1 : relinks s s1) by (by apply relinks_prev).
  assert (E1 : pv s1 i = pv s i).
  { unfold s1. rewrite pv_set_prev by done. by apply fupd_ne. }
  assert (E2 : nx s1 i = nx s i) by (unfold s1; by rewrite nx_set_prev).
  assert (Hp1 : (pv s i < length (bufs s1))%nat) by (by destruct R1 as [-> _]).
  rewrite E1, E2. split; [|eapply relinks_trans; [exact R1|by apply relinks_next]].
  eapply linked_ext; [..|exact (ring_unlink (nx s) (pv s) l1 i l2 Hnd Hl)]; intros j _.
  - etrans; [by apply nx_set_next|]. unfold fupd. case_decide; [done|]. unfold s1. by apply nx_set_prev.
  - etrans; [by apply pv_set_next|]. unfold s1. by apply pv_set_prev.
Qed.

Lemma push_front_run s i l :
  NoDup (HEAD :: i :: l) -> length (bufs s) = S HEAD -> (i < HEAD)%nat ->
  (forall j, j ∈ HEAD :: l -> (j < S HEAD)%nat) -> links s l ->
  links (push_front i s) (i :: l) /\ relinks s (push_front i s).
Proof.
  intros Hnd Hlen Hi Hmem Hl. apply NoDup_cons in Hnd as [Hhi Hnd].
  apply NoDup_cons in Hnd as [Hil Hnd]. apply not_elem_of_cons in Hhi as [Hhi Hhl].
  assert (Hn : (nx s HEAD < S HEAD)%nat).
  { destruct (pairs_first HEAD l HEAD) as (Q & n & HQ). pose proof (pairs_snd HEAD l HEAD) as H2.
    unfold links, ring in Hl. rewrite HQ in Hl, H2. apply Forall_inv in Hl as [Hl _]. cbn in Hl.
    unfold nx. rewrite Hl. apply Hmem. cbn in H2.
    assert (Hin : n ∈ l ++ [HEAD]) by (rewrite <- H2; apply list_elem_of_here).
    rewrite elem_of_app, list_elem_of_singleton in Hin. rewrite elem_of_cons. tauto. }
  unfold push_front. fold (nx s HEAD).
  set (s1 := upd_buf i (set_b_next (nx s HEAD)) s). set (s2 := upd_buf i (set_b_prev HEAD) s1).
  fold (nx s2 HEAD).
  assert (R1 : relinks s s1) by (apply relinks_next; lia).
  assert (L1 : length (bufs s1) = S HEAD) by (by destruct R1 as [-> _]).
  assert (R2 : relinks s1 s2) by (apply relinks_prev; lia).
  assert (L2 : length (bufs s2) = S HEAD) by (by destruct R2 as [-> _]).
  assert (E : nx s2 HEAD = nx s HEAD).
  { unfold s2, s1. rewrite nx_set_prev, nx_set_next by (cbn; rewrite ?length_alter; lia). by apply fupd_ne. }
  rewrite E. set (s3 := upd_buf (nx s HEAD) (set_b_prev i) s2).
  assert (R3 : relinks s2 s3) by (apply relinks_prev; lia).
  assert (L3 : length (bufs s3) = S HEAD) by (by destruct R3 as [-> _]).
  split.
  2: { eapply relinks_trans; [|apply relinks_next; lia]. eapply relinks_trans; [|exact R3].
       eapply relinks_trans; [exact R1|exact R2]. }
  eapply linked_ext; [..|exact (ring_push (nx s) (pv s) i l ltac:(lia) Hil
    ltac:(by apply NoDup_cons) Hl)]; intros j _.
  - etrans; [apply nx_set_next; lia|]. unfold fupd at 1 2. case_decide; [done|].
    unfold s3, s2, s1. rewrite !nx_set_prev by (cbn; rewrite ?length_alter; lia).
    apply nx_set_next. lia.
  - etrans; [apply pv_set_next; lia|]. unfold s3. rewrite pv_set_prev by lia.
    unfold fupd at 1 2. case_decide; [done|]. unfold s2. rewrite pv_set_prev by lia.
    unfold fupd. case_decide; [done|]. unfold s1. apply pv_set_next. lia.
Qed.

(** Moving a buffer of the list to its front. *)
Lemma relink_run s i l :
  l ≡ₚ seq 0 HEAD -> length (bufs s) = S HEAD -> links s l -> (i < HEAD)%nat ->
  exists l', l' ≡ₚ seq 0 HEAD /\ links (push_front i (unlink i s)) l' /\
    relinks s (push_front i (unlink i s)).
Proof.
  intros Hp Hlen Hl Hi. destruct (perm_head _ Hp) as (Hh & _ & Hnd & Hin).
  pose proof (proj2 (Hin i) Hi) as Hil. apply list_elem_of_split in Hil as (l1 & l2 & ->).
  assert (Hmem : forall j, j ∈ HEAD :: l1 ++ l2 -> (j < S HEAD)%nat).
  { intros j [->|Hj]%elem_of_cons; [lia|]. assert (Hj' : (j < HEAD)%nat); [|lia].
    apply Hin. rewrite elem_of_app in *. rewrite elem_of_cons. tauto. }
  assert (Hp' : i :: l1 ++ l2 ≡ₚ seq 0 HEAD) by (by rewrite <- Hp, Permutation_middle).
  destruct (unlink_run s l1 i l2) as [Hu Ru]; [by apply NoDup_cons|done..|].
  destruct (perm_head _ Hp') as (Hh' & _ & Hnd' & _).
  destruct (push_front_run (unlink i s) i (l1 ++ l2)) as [Hf Rf];
    [by apply NoDup_cons|by destruct Ru as [-> _]|done..|].
  exists (i :: l1 ++ l2). split_and!; [done..|]. by eapply relinks_trans.
Qed.

(** A released block: one reference less, and no longer live at none. *)
Definition put_live (L : gmap Z live) (b : Z) (x : live) : gmap Z live :=
  if lv_ref x =? 1 then delete b L
  else <[b := mklive (lv_buf x) (lv_ref x - 1) false (lv_data x)]> L.

Definition decref (x : buf) : buf := set_b_refcnt (b_refcnt x - 1) x.

(** The part of [brelse] under the cache's lock. *)
Lemma put_buf s e i l :
  quiet s -> l ≡ₚ seq 0 HEAD -> length (bufs s) = S HEAD -> links s l -> (i < HEAD)%nat ->
  exists l' s', (acquire Lbcache;;
      modify (upd_buf i (fun x => set_b_refcnt (b_refcnt x - 1) x));;
      x ← bufget i;
      when (b_refcnt x =? 0)
        (x ← bufget i;
         set_prev (b_next x) (b_prev x);;
         x ← bufget i;
         set_next (b_prev x) (b_next x);;
         h ← bufget HEAD;
         set_next i (b_next h);;
         set_prev i HEAD;;
         h ← bufget HEAD;
         set_prev (b_next h) i;;
         set_next HEAD i);;
      release Lbcache) s e = Ok () s' e /\
    l' ≡ₚ seq 0 HEAD /\ links s' l' /\ length (bufs s') = S HEAD /\ kq s s' /\
    (exists bs, s' = set_syn (touch (syn s)) (set_bufs bs s)) /\
    forall j, core (get_buf s' j) =
      fupd (fun j => core (get_buf s j)) i (core (decref (get_buf s i))) j.
Proof.
  intros Q Hp Hlen Hl Hi.
  rewrite (bind_ok _ _ _ _ _ _ _ (quiet_acquire s e Lbcache Q ltac:(in_static))). kpure.
  set (s1 := upd_buf i decref (set_syn (acq (syn s) Lbcache) s)).
  change (upd_buf i (fun x => set_b_refcnt (b_refcnt x - 1) x) (set_syn (acq (syn s) Lbcache) s)) with s1.
  assert (Hg1 : forall j, get_buf s1 j = if decide (j = i) then decref (get_buf s i) else get_buf s j).
  { intros j. apply (get_upd_buf (set_syn (acq (syn s) Lbcache) s)). cbn. lia. }
  assert (Hl1 : links s1 l).
  { eapply links_ext; [..|exact Hl]; intros j; rewrite Hg1; by case_decide; subst. }
  assert (Hlen1 : length (bufs s1) = S HEAD) by (unfold s1; cbn; by rewrite length_alter).
  assert (Hex : exists l' s2, l' ≡ₚ seq 0 HEAD /\ links s2 l' /\ relinks s1 s2 /\
    s2 = (if b_refcnt (get_buf s1 i) =? 0 then push_front i (unlink i s1) else s1)).
  { destruct (b_refcnt (get_buf s1 i) =? 0).
    - destruct (relink_run s1 i l Hp Hlen1 Hl1 Hi) as (l' & ? & ? & ?). eauto 10.
    - exists l, s1. split; [done|]. split; [done|]. split; [apply relinks_refl|done]. }
  destruct Hex as (l' & s2 & Hp' & Hl2 & (Hlen2 & Hc2 & bs & Hbs) & Hs2).
  exists l', (set_syn (touch (syn s)) s2).
  rewrite (bind_ok (bufget i) _ s1 e (get_buf s1 i) s1 e) by done. cbn beta.
  rewrite (bind_ok (when _ _) _ s1 e () s2 e).
  - rewrite (quiet_release s s2 e Lbcache Q ltac:(in_static)) by (by rewrite Hbs).
    split_and!; [done..| | | |].
    + change (length (bufs s2) = S HEAD). by rewrite Hlen2.
    + rewrite Hbs. by apply kq_intro.
    + exists bs. by rewrite Hbs.
    + intros j. change (core (get_buf s2 j) = fupd (fun j => core (get_buf s j)) i (core (decref (get_buf s i))) j).
      rewrite Hc2, Hg1. unfold fupd. by case_decide.
  - rewrite Hs2. unfold when, bufget, set_prev, set_next. destruct (b_refcnt (get_buf s1 i) =? 0); [|done].
    kpure. reflexivity.
Qed.

Lemma live_held s L b x :
  brep s L -> L !! b = Some x -> lv_held x = true ->
  sl_locked (get_slock s (SLbuf (lv_buf x))) && (sl_pid (get_slock s (SLbuf (lv_buf x))) =? cur_pid s) = true.
Proof.
  intros R Hx Hh. destruct (t_live _ _ _ _ _ (br_tab _ _ R) _ _ Hx) as (_ & _ & _ & _ & _ & Hl & Hp).
  rewrite Hl, (Hp Hh), Hh, Z.eqb_refl. done.
Qed.

(** Giving back the lock of a buffer. *)
Lemma drop_lock s e i :
  quiet s -> (i < HEAD)%nat ->
  sl_locked (get_slock s (SLbuf i)) && (sl_pid (get_slock s (SLbuf i)) =? cur_pid s) = true ->
  exists s1 s2, holdingsleep (SLbuf i) s e = Ok true s1 e /\ releasesleep (SLbuf i) s1 e = Ok () s2 e /\
    kq s s2 /\ upper s2 = upper s /\ vdsk s2 = vdsk s /\ disk s2 = disk s /\ bufs s2 = bufs s /\
    slocks s2 = <[SLbuf i := mksleeplock (sl_name (get_slock s (SLbuf i))) false 0]> (slocks s).
Proof.
  intros Q Hi Hh. pose proof (quiet_thread _ Q) as Hok.
  exists (set_syn (touch (syn s)) s).
  assert (K1 : kq s (set_syn (touch (syn s)) s)) by (by apply kq_intro).
  eexists. split_and!.
  - rewrite holdingsleep_run by (done || by apply slock_ok_buf). by rewrite Hh.
  - apply releasesleep_run; [by eapply kq_thread|by apply slock_ok_buf].
  - transitivity (set_syn (touch (syn s)) s); [done|]. split; [done|by right|].
    cbn. apply pcore_wake_procs.
  - done.
  - done.
  - done.
  - done.
  - done.
Qed.

Lemma core_decref x b r held v i :
  core x = live_buf b (mklive i r held v) ->
  core (decref x) = live_buf b (mklive i (r - 1) false v).
Proof.
  destruct x. unfold core, live_buf, decref. cbn. intros H. injection H as -> -> -> -> -> ->. done.
Qed.

(** [brelse] gives a held block back; one that stops being live must be clean. *)
Lemma brelse_run s L b x e :
  brep s L -> L !! b = Some x -> lv_held x = true ->
  (lv_ref x = 1 -> lv_data x = dblock (disk s) b) ->
  exists s', brelse (lv_buf x) s e = Ok () s' e /\ brep s' (put_live L b x) /\
    bstep s s' /\ disk s' = disk s.
Proof.
  intros R Hx Hh Hclean. pose proof R as [Q V Hlen (l & Hp & Hl) T].
  destruct (t_live _ _ _ _ _ T _ _ Hx) as (Hi & Hr & Hd & Hb & Hc & _).
  destruct (drop_lock s e (lv_buf x) Q Hi (live_held _ _ _ _ R Hx Hh))
    as (s1 & s2 & Hr1 & Hr2 & K & U & Vd & Dk & B & Sl).
  assert (Hg : forall j, get_buf s2 j = get_buf s j) by (intros; unfold get_buf; by rewrite B).
  destruct (put_buf s2 e (lv_buf x) l) as (l' & s' & Hr3 & Hp' & Hl' & Hlen' & K' & (bs & Hs') & Hc');
    [by eapply kq_quiet|done|by rewrite B|by eapply links_ext; [..|exact Hl]; intros j; rewrite Hg|done|].
  assert (Hfr : upper s' = upper s /\ vdsk s' = vdsk s /\ disk s' = disk s /\ slocks s' = slocks s2).
  { rewrite Hs'. cbn. split_and!; [exact U|exact Vd|exact Dk|done]. }
  destruct Hfr as (U' & V' & D' & S'). clear Hs'.
  assert (Kall : kq s s') by (by etrans).
  exists s'. split_and!; [|split| |done].
  - unfold brelse. rewrite (bind_ok _ _ _ _ _ _ _ Hr1). cbn [negb].
    rewrite (bind_ok _ _ _ _ _ _ _ Hr2). exact Hr3.
  - by eapply kq_quiet.
  - by eapply dd_keep.
  - done.
  - eauto.
  - rewrite (kq_cur_pid _ _ Kall), D'.
    assert (Hc2 : forall j, core (get_buf s' j) =
      fupd (fun j => core (get_buf s j)) (lv_buf x) (core (decref (get_buf s (lv_buf x)))) j).
    { intros j. rewrite Hc'. unfold fupd. by rewrite !Hg. }
    eapply tab_ext; [intros j _; apply Hc2|reflexivity|].
    eapply (tab_locks s); [rewrite S'; exact Sl|].
    pose proof (core_decref _ _ (lv_ref x) (lv_held x) (lv_data x) (lv_buf x) Hc) as Hdc.
    unfold put_live. destruct (Z.eqb_spec (lv_ref x) 1) as [H1|H1].
    + rewrite H1 in Hdc. cbn in Hdc.
      eapply tab_ext; [|reflexivity|apply (tab_leave _ _ _ _ _ T b x); auto].
      intros j _. by rewrite Hdc.
    + eapply tab_ext; [|reflexivity|apply (tab_update _ _ _ _ _ T b x (lv_ref x - 1) false); auto; [lia|done]].
      intros j _. by rewrite Hdc.
  - eapply bstep_intro; [done..|]. rewrite S'. exact Sl.
Qed.

(** [bwrite] writes a held block to the disk. *)
Lemma bwrite_run s L b x e :
  brep s L -> L !! b = Some x -> lv_held x = true ->
  exists s', bwrite (lv_buf x) s e = Ok () s' e /\ brep s' L /\
    bstep s s' /\ disk s' = dwrite b (lv_data x) (disk s).
Proof.
  intros R Hx Hh. pose proof R as [Q V Hlen (l & Hp & Hl) T].
  destruct (t_live _ _ _ _ _ T _ _ Hx) as (Hi & Hr & Hd & Hb & Hc & _).
  set (s1 := set_syn (touch (syn s)) s).
  assert (K1 : kq s s1) by (by apply kq_intro).
  assert (Hlt : (lv_buf x < length (bufs s))%nat) by lia.
  destruct (lookup_lt_is_Some_2 _ _ Hlt) as [y Hy].
  assert (Hcy : core y = live_buf b x) by (rewrite <- Hc; unfold get_buf; by rewrite Hy).
  assert (Hyb : b_blockno y = b /\ b_data y = lv_data x /\ b_disk y = false).
  { destruct y. unfold core, live_buf in Hcy. cbn in Hcy. by injection Hcy as -> -> -> -> -> ->. }
  destruct Hyb as (Hyb & Hyd & Hyk).
  destruct (disk_rw_run (lv_buf x) true s1 e y) as (s' & Hrun & V' & K' & U' & S' & B' & D');
    [by eapply kq_quiet|by apply (dd_keep s)|done|done|done|by rewrite Hyb|by rewrite Hyd|].
  assert (Kall : kq s s') by (by transitivity s1).
  assert (Hg : forall j, get_buf s' j = get_buf s j) by (intros; unfold get_buf; by rewrite B').
  exists s'. split_and!; [|split| |].
  - unfold bwrite. rewrite (bind_ok _ _ s e true s1 e).
    + cbn [negb]. exact Hrun.
    + rewrite holdingsleep_run; [|by apply quiet_thread|by apply slock_ok_buf].
      by rewrite (live_held _ _ _ _ R Hx Hh).
  - by eapply kq_quiet.
  - done.
  - by rewrite B'.
  - exists l. split; [done|]. eapply links_ext; [..|exact Hl]; intros j; by rewrite Hg.
  - rewrite (kq_cur_pid _ _ Kall), D', Hyb, Hyd.
    eapply tab_ext; [..|apply (tab_write _ _ _ _ _ T _ _ Hx)]; intros j _.
    + by rewrite Hg.
    + unfold get_slock. by rewrite S'.
  - split; [done..|]. intros j. unfold get_slock. by rewrite S'.
  - rewrite D', Hyb, Hyd. done.
Qed.

(** A live block changes in its buffer, not in its lock. *)
Lemma brep_live s s' L b x r v f :
  brep s L -> L !! b = Some x -> 0 < r -> block_ok v ->
  kq s s' -> vdsk s' = vdsk s -> disk s' = disk s -> slocks s' = slocks s ->
  bufs s' = alter f (lv_buf x) (bufs s) ->
  (forall y, b_next (f y) = b_next y /\ b_prev (f y) = b_prev y) ->
  (forall y, core y = live_buf b x -> core (f y) = live_buf b (mklive (lv_buf x) r (lv_held x) v)) ->
  brep s' (<[b := mklive (lv_buf x) r (lv_held x) v]> L).
Proof.
  intros R Hx Hr Hv K Vd Dk Sl B Hlink Hcore. pose proof (br_tab _ _ R) as T.
  destruct (t_live _ _ _ _ _ T _ _ Hx) as (Hi & _ & _ & _ & Hc & Hl).
  eapply brep_upd; [exact R|done|by apply (dd_keep s); [|apply br_dd with L]|done|exact Hi|exact B|done|].
  rewrite (Hcore _ Hc).
  eapply tab_ext; [reflexivity| |apply (tab_update _ _ _ _ _ T b x r (lv_held x) v); [done..|exact Hl]].
  intros j _. unfold fupd, get_slock. rewrite Sl. by case_decide; subst.
Qed.

Lemma set_b_refcnt_live y b x r :
  core y = live_buf b x -> core (set_b_refcnt r y) = live_buf b (mklive (lv_buf x) r (lv_held x) (lv_data x)).
Proof. destruct y. unfold core, live_buf. cbn. intros H. by injection H as -> -> -> -> -> ->. Qed.
Lemma set_b_data_live y b x v :
  core y = live_buf b x -> core (set_b_data v y) = live_buf b (mklive (lv_buf x) (lv_ref x) (lv_held x) v).
Proof. destruct y. unfold core, live_buf. cbn. intros H. by injection H as -> -> -> -> -> ->. Qed.

Lemma live_refcnt s L b x : brep s L -> L !! b = Some x ->
  b_refcnt (get_buf s (lv_buf x)) = lv_ref x /\ b_data (get_buf s (lv_buf x)) = lv_data x /\
  b_blockno (get_buf s (lv_buf x)) = b /\ core (get_buf s (lv_buf x)) = live_buf b x.
Proof.
  intros R Hx. destruct (t_live _ _ _ _ _ (br_tab _ _ R) _ _ Hx) as (_ & _ & _ & _ & Hc & _).
  split_and!; [by apply (f_equal b_refcnt) in Hc|by apply (f_equal b_data) in Hc|
    by apply (f_equal b_blockno) in Hc|done].
Qed.

(** Storing into a live buffer. *)
Lemma store_run s L b x v :
  brep s L -> L !! b = Some x -> block_ok v ->
  brep (upd_buf (lv_buf x) (set_b_data v) s) (<[b := mklive (lv_buf x) (lv_ref x) (lv_held x) v]> L) /\
  bstep s (upd_buf (lv_buf x) (set_b_data v) s).
Proof.
  intros R Hx Hv. destruct (t_live _ _ _ _ _ (br_tab _ _ R) _ _ Hx) as (_ & Hr & _).
  assert (K : kq s (upd_buf (lv_buf x) (set_b_data v) s)) by (split; auto).
  split; [|by split]. eapply brep_live; try done. intros y. apply set_b_data_live.
Qed.

(** [bpin] and [bunpin], in any context where the cache's lock is free. *)
Lemma bpin_raw s e i : cpu_wf (syn s) -> lfree (syn s) Lbcache ->
  bpin i s e = Ok () (set_syn (touch (syn s)) (upd_buf i (fun x => set_b_refcnt (b_refcnt x + 1) x) s)) e.
Proof. intros. unfold bpin. kacq. kpure. rewrite (release_acq _ _ (syn s)) by done. done. Qed.
Lemma bunpin_raw s e i : cpu_wf (syn s) -> lfree (syn s) Lbcache ->
  bunpin i s e = Ok () (set_syn (touch (syn s)) (upd_buf i decref s)) e.
Proof. intros. unfold bunpin. kacq. kpure. rewrite (release_acq _ _ (syn s)) by done. done. Qed.

Lemma bunpin_run s L b x e :
  brep s L -> L !! b = Some x -> 1 < lv_ref x ->
  exists s', bunpin (lv_buf x) s e = Ok () s' e /\
    brep s' (<[b := mklive (lv_buf x) (lv_ref x - 1) (lv_held x) (lv_data x)]> L) /\
    bstep s s' /\ disk s' = disk s.
Proof.
  intros R Hx Hr. pose proof (br_quiet _ _ R) as Q.
  eexists. split; [apply bunpin_raw; eauto with xv6; apply quiet_lfree; [done|in_static]|].
  destruct (t_live _ _ _ _ _ (br_tab _ _ R) _ _ Hx) as (_ & _ & Hd & _).
  match goal with |- brep ?t _ /\ _ => assert (K : kq s t) by (by apply kq_intro) end.
  split_and!; [|by split|done]. eapply brep_live; try done; [lia|].
  intros y Hy. unfold decref. apply (f_equal b_refcnt) in Hy as Hry. cbn in Hry. rewrite Hry.
  by apply set_b_refcnt_live.
Qed.

Lemma bpin_run s L b x e :
  brep s L -> L !! b = Some x ->
  exists s', bpin (lv_buf x) s e = Ok () s' e /\
    brep s' (<[b := mklive (lv_buf x) (lv_ref x + 1) (lv_held x) (lv_data x)]> L) /\
    bstep s s' /\ disk s' = disk s.
Proof.
  intros R Hx. pose proof (br_quiet _ _ R) as Q.
  eexists. split; [apply bpin_raw; eauto with xv6; apply quiet_lfree; [done|in_static]|].
  destruct (t_live _ _ _ _ _ (br_tab _ _ R) _ _ Hx) as (_ & Hr & Hd & _).
  match goal with |- brep ?t _ /\ _ => assert (K : kq s t) by (by apply kq_intro) end.
  split_and!; [|by split|done]. eapply brep_live; try done; [lia|].
  intros y Hy. cbn beta. apply (f_equal b_refcnt) in Hy as Hry. cbn in Hry. rewrite Hry.
  by apply set_b_refcnt_live.
Qed.

(** ** Initialisation *)

(** Linking one buffer in front of the others. *)
Lemma binit_one_run s e b l :
  NoDup (HEAD :: b :: l) -> length (bufs s) = S HEAD -> (b < HEAD)%nat ->
  (forall j, j ∈ HEAD :: l -> (j < S HEAD)%nat) -> links s l ->
  exists s', binit_one b s e = Ok () s' e /\ links s' (b :: l) /\ length (bufs s') = S HEAD /\
    (forall j, core (get_buf s' j) = core (get_buf s j)) /\
    slocks s' = <[SLbuf b := mksleeplock "buffer" false 0]> (slocks s) /\
    locks (syn s') = <[Lsleep (SLbuf b) := mkspinlock "sleep lock" false None]> (locks (syn s)).
Proof.
  intros Hnd Hlen Hb Hmem Hl.
  destruct (push_front_run s b l Hnd Hlen Hb Hmem Hl) as (Hf & Hlen' & Hc & bs & Hbs).
  exists (set_bufs bs (upd_slock (SLbuf b) (mksleeplock "buffer" false 0)
    (upd_lock (Lsleep (SLbuf b)) (fun _ => mkspinlock "sleep lock" false None) s))).
  assert (Hg : forall j, get_buf (push_front b s) j = default zero_buf (bs !! j)).
  { intros j. unfold get_buf. by rewrite Hbs. }
  split_and!; [|..|done|done].
  - unfold binit_one, initsleeplock, initlock, bufget, set_next, set_prev. kpure.
    unfold push_front in Hbs. apply (f_equal bufs) in Hbs. cbn in Hbs.
    apply Ok_eq; [done|]. kext. exact Hbs.
  - eapply linked_ext; [..|exact Hf]; intros j _; cbn beta; by rewrite Hg.
  - rewrite Hbs in Hlen'. cbn in Hlen'. cbn. congruence.
  - intros j. rewrite <- Hc, Hg. done.
Qed.

End BufCache.
