(* ===== verification/BufRefine.v ===== *)
(** * The buffer cache: refinement of a map of blocks, and initialisation

    Every sequence of cache operations that the abstract cache allows runs on
    the linked buffers without panic and with the same effect. *)

From stdpp Require Import base gmap strings numbers list.
From S2P Require Import Prelude KState Sample Spinlock Sched Sleeplock Quiet Uart Bio BufCache.

(** ** Sequences of operations *)

(** A client's use of the cache, blocks named by their number. *)
Inductive cop : Type :=
| ORead (b : Z) | OStore (b : Z) (v : list Z) | OWrite (b : Z) | ORelse (b : Z)
| OPin (b : Z) | OUnpin (b : Z).

(** A block as the client sees it: references, held or not, contents. *)
Record ablk : Type := mkablk { a_ref : Z; a_held : bool; a_data : list Z }.
Definition acache : Type := diskst * gmap Z ablk.

Definition spec_cop (o : cop) (a : acache) : option acache :=
  let '(d, A) := a in
  match o with
  | ORead b =>
      if negb ((0 <=? b) && (b <? 2 ^ 31)) then None else
      match A !! b with
      | Some x => if a_held x then None else Some (d, <[b := mkablk (a_ref x + 1) true (a_data x)]> A)
      | None =>
          if (size A <? HEAD)%nat then Some (d, <[b := mkablk 1 true (dblock d b)]> A) else None
      end
  | OStore b v =>
      x ← A !! b;
      if a_held x && (length v =? Z.to_nat BSIZE)%nat
      then Some (d, <[b := mkablk (a_ref x) true v]> A) else None
  | OWrite b =>
      x ← A !! b;
      if a_held x then Some (dwrite b (a_data x) d, A) else None
  | ORelse b =>
      x ← A !! b;
      if negb (a_held x) then None else
      if a_ref x =? 1 then
        if decide (a_data x = dblock d b) then Some (d, delete b A) else None
      else Some (d, <[b := mkablk (a_ref x - 1) false (a_data x)]> A)
  | OPin b =>
      x ← A !! b;
      Some (d, <[b := mkablk (a_ref x + 1) (a_held x) (a_data x)]> A)
  | OUnpin b =>
      x ← A !! b;
      if 1 <? a_ref x then Some (d, <[b := mkablk (a_ref x - 1) (a_held x) (a_data x)]> A) else None
  end.

Fixpoint spec_cops (os : list cop) (a : acache) : option acache :=
  match os with
  | [] => Some a
  | o :: os' => a' ← spec_cop o a; spec_cops os' a'
  end.

Section Refine.
Context {D : DiskDriver}.

(** The same operations on the kernel's cache; [p] is where the client keeps
    the buffer pointers that [bread] returned. *)
Definition run_cop (o : cop) (p : Z -> nat) : M (Z -> nat) :=
  match o with
  | ORead b =>
      i ← bread ROOTDEV b;
      mret (fun b' => if decide (b' = b) then i else p b')
  | OStore b v => modify (upd_buf (p b) (set_b_data v));; mret p
  | OWrite b => bwrite (p b);; mret p
  | ORelse b => brelse (p b);; mret p
  | OPin b => bpin (p b);; mret p
  | OUnpin b => bunpin (p b);; mret p
  end.

Fixpoint run_cops (os : list cop) (p : Z -> nat) : M (Z -> nat) :=
  match os with
  | [] => mret p
  | o :: os' => p' ← run_cop o p; run_cops os' p'
  end.

Context {DL : DiskLaws}.

Definition abs_live (x : live) : ablk := mkablk (lv_ref x) (lv_held x) (lv_data x).

Definition ptrs_ok (p : Z -> nat) (L : gmap Z live) : Prop :=
  forall b x, L !! b = Some x -> p b = lv_buf x.

(** [s] implements the abstract cache [a], the client holding pointers [p]. *)
Definition crep (s : kstate) (p : Z -> nat) (a : acache) : Prop :=
  exists L, brep s L /\ a = (disk s, abs_live <$> L) /\ ptrs_ok p L.

Lemma crep_insert s L b i r h v p p' :
  brep s (<[b := mklive i r h v]> L) -> p' b = i -> (forall b', b' <> b -> p' b' = p b') ->
  ptrs_ok p L -> crep s p' (disk s, <[b := mkablk r h v]> (abs_live <$> L)).
Proof.
  intros R Hb Hne Hp. eexists. split; [exact R|]. split; [by rewrite fmap_insert|].
  intros b' x'. destruct (decide (b' = b)) as [->|H].
  - rewrite lookup_insert_eq. by intros [= <-].
  - rewrite lookup_insert_ne, Hne by done. apply Hp.
Qed.

(** The outcome of an operation that yields [p'] and the abstract cache [a']. *)
Definition cop_ok (o : cop) (s : kstate) (p : Z -> nat) (a' : acache) (e : env) : Prop :=
  exists p' s', run_cop o p s e = Ok p' s' e /\ crep s' p' a' /\ kq s s'.

Ltac cop_ran Hrun := eexists _, _; split; [unfold run_cop; rewrite (bind_ok _ _ _ _ _ _ _ Hrun); reflexivity|].

Section Ops.
Context (s : kstate) (L : gmap Z live) (p : Z -> nat) (e : env).
Hypothesis (R : brep s L) (Hp : ptrs_ok p L).

Lemma read_ok b a' : spec_cop (ORead b) (disk s, abs_live <$> L) = Some a' -> cop_ok (ORead b) s p a' e.
Proof.
  cbn [spec_cop]. destruct ((0 <=? b) && (b <? 2 ^ 31)) eqn:Hb; [|done]. cbn [negb].
  apply andb_true_iff in Hb as [Hb1 Hb2]. apply Z.leb_le in Hb1. apply Z.ltb_lt in Hb2.
  rewrite lookup_fmap, map_size_fmap. intros Hs.
  assert (Hcan : can_get L b /\
    a' = (disk s, <[b := mkablk (live_ref L b + 1) true (content (disk s) L b)]> (abs_live <$> L))).
  { unfold can_get, live_ref, content. destruct (L !! b) as [x|] eqn:Hx; cbn in Hs.
    - destruct (lv_held x) eqn:Hh; [done|]. by injection Hs as <-.
    - case_match eqn:Hsz; [|done]. injection Hs as <-. split; [by apply Nat.ltb_lt|done]. }
  destruct Hcan as [Hcan ->].
  destruct (bread_run s L b e R Hcan (conj Hb1 Hb2)) as (i & s' & Hrun & R' & Hst & Hd & _).
  cop_ran Hrun. split; [|apply Hst]. rewrite <- Hd. eapply crep_insert; [rewrite Hd; exact R'|..|exact Hp].
  - by rewrite decide_True.
  - intros. by rewrite decide_False.
Qed.

(** The other operations are on a live block. *)
Context (b : Z) (x : live).
Hypothesis Hx : L !! b = Some x.

Lemma store_ok v : length v = Z.to_nat BSIZE ->
  cop_ok (OStore b v) s p (disk s, <[b := mkablk (lv_ref x) (lv_held x) v]> (abs_live <$> L)) e.
Proof.
  intros Hv. destruct (store_run s L b x v R Hx Hv) as [R' Hst].
  exists p, (upd_buf (p b) (set_b_data v) s). split; [done|]. rewrite (Hp _ _ Hx).
  split; [|apply Hst]. eapply (crep_insert (upd_buf (lv_buf x) (set_b_data v) s)); eauto.
Qed.

Lemma write_ok : lv_held x = true -> cop_ok (OWrite b) s p (dwrite b (lv_data x) (disk s), abs_live <$> L) e.
Proof.
  intros Hh. destruct (bwrite_run s L b x e R Hx Hh) as (s' & Hrun & R' & Hst & Hd).
  unfold cop_ok, run_cop. rewrite (Hp _ _ Hx). cop_ran Hrun. split; [|apply Hst].
  exists L. by rewrite Hd.
Qed.

Lemma relse_ok : lv_held x = true -> (lv_ref x = 1 -> lv_data x = dblock (disk s) b) ->
  cop_ok (ORelse b) s p (disk s, abs_live <$> put_live L b x) e.
Proof.
  intros Hh Hc. destruct (brelse_run s L b x e R Hx Hh Hc) as (s' & Hrun & R' & Hst & Hd).
  unfold cop_ok, run_cop. rewrite (Hp _ _ Hx). cop_ran Hrun. split; [|apply Hst].
  eexists. split; [exact R'|]. split; [by rewrite Hd|].
  intros b' x'. unfold put_live. destruct (lv_ref x =? 1).
  - intros [_ ?]%lookup_delete_Some. by apply Hp.
  - destruct (decide (b' = b)) as [->|]; [rewrite lookup_insert_eq; intros [= <-]; exact (Hp b x Hx)|].
    rewrite lookup_insert_ne by done. apply Hp.
Qed.

Lemma pin_ok :
  cop_ok (OPin b) s p (disk s, <[b := mkablk (lv_ref x + 1) (lv_held x) (lv_data x)]> (abs_live <$> L)) e.
Proof.
  destruct (bpin_run s L b x e R Hx) as (s' & Hrun & R' & Hst & Hd).
  unfold cop_ok, run_cop. rewrite (Hp _ _ Hx). cop_ran Hrun. split; [|apply Hst].
  rewrite <- Hd. eapply crep_insert; eauto.
Qed.

Lemma unpin_ok : 1 < lv_ref x ->
  cop_ok (OUnpin b) s p (disk s, <[b := mkablk (lv_ref x - 1) (lv_held x) (lv_data x)]> (abs_live <$> L)) e.
Proof.
  intros Hr. destruct (bunpin_run s L b x e R Hx Hr) as (s' & Hrun & R' & Hst & Hd).
  unfold cop_ok, run_cop. rewrite (Hp _ _ Hx). cop_ran Hrun. split; [|apply Hst].
  rewrite <- Hd. eapply crep_insert; eauto.
Qed.

End Ops.

Lemma run_cop_ok o s p a a' e : crep s p a -> spec_cop o a = Some a' -> cop_ok o s p a' e.
Proof.
  intros (L & R & -> & Hp) Hs.
  destruct o as [b|b v|b|b|b|b]; [by eapply read_ok|..]; cbn [spec_cop] in Hs;
    rewrite lookup_fmap in Hs; (destruct (L !! b) as [x|] eqn:Hx; [|done]); cbn in Hs.
  - destruct (lv_held x) eqn:Hh; [|done]. case_match eqn:Hv; [|done]. injection Hs as <-.
    apply Nat.eqb_eq in Hv. rewrite <- Hh. by eapply store_ok.
  - destruct (lv_held x) eqn:Hh; [|done]. injection Hs as <-. by eapply write_ok.
  - destruct (lv_held x) eqn:Hh; [|done]. cbn in Hs.
    replace a' with (disk s, abs_live <$> put_live L b x); [eapply relse_ok; try done|];
      unfold put_live; destruct (Z.eqb_spec (lv_ref x) 1) as [H1|H1]; try case_decide; try done;
      injection Hs as <-; by rewrite ?fmap_delete, ?fmap_insert.
  - injection Hs as <-. by eapply pin_ok.
  - destruct (1 <? lv_ref x) eqn:Hr; [|done]. injection Hs as <-. by eapply unpin_ok; [..|apply Z.ltb_lt].
Qed.

Lemma run_cops_ok os s p a a' e :
  crep s p a -> spec_cops os a = Some a' ->
  exists p' s', run_cops os p s e = Ok p' s' e /\ crep s' p' a' /\ kq s s'.
Proof.
  revert s p a. induction os as [|o os IH]; intros s p a Hc Hs; cbn in *.
  - injection Hs as <-. by exists p, s.
  - destruct (spec_cop o a) as [a1|] eqn:H1; [|done]. cbn in Hs.
    destruct (run_cop_ok o s p a a1 e Hc H1) as (p1 & s1 & Hr1 & Hc1 & K1).
    destruct (IH s1 p1 a1 Hc1 Hs) as (p2 & s2 & Hr2 & Hc2 & K2).
    exists p2, s2. split; [by rewrite (bind_ok _ _ _ _ _ _ _ Hr1)|]. split; [done|by etrans].
Qed.

(** ** Initialisation *)

Lemma binit_loop n k s e :
  (k + n = HEAD)%nat -> length (bufs s) = S HEAD -> links s (rev (seq 0 k)) ->
  exists s', for_each (seq k n) binit_one s e = Ok () s' e /\ links s' (rev (seq 0 HEAD)) /\
    length (bufs s') = S HEAD /\ (forall j, core (get_buf s' j) = core (get_buf s j)) /\
    (forall j, (j < k)%nat -> slocks s' !! SLbuf j = slocks s !! SLbuf j) /\
    (forall j, (k <= j < HEAD)%nat -> slocks s' !! SLbuf j = Some (mksleeplock "buffer" false 0) /\
       lfree (syn s') (Lsleep (SLbuf j))) /\
    (forall l, (forall j, l <> Lsleep (SLbuf j)) -> locks (syn s') !! l = locks (syn s) !! l) /\
    (forall j, (j < k)%nat -> locks (syn s') !! Lsleep (SLbuf j) = locks (syn s) !! Lsleep (SLbuf j)).
Proof.
  revert k s. induction n as [|n IH]; intros k s Hk Hlen Hl.
  - exists s. replace HEAD with k in * by lia. split_and!; try done. intros j Hj. lia.
  - cbn [seq for_each].
    destruct (binit_one_run s e k (rev (seq 0 k))) as (s1 & Hr1 & Hl1 & Hlen1 & Hc1 & Hs1 & Hy1);
      [|done|lia| |done|].
    { rewrite <- (Permutation_rev (seq 0 k)). apply NoDup_cons. split.
      - rewrite elem_of_cons, elem_of_seq. lia.
      - apply NoDup_cons. split; [rewrite elem_of_seq; lia|apply NoDup_seq]. }
    { intros j. rewrite elem_of_cons, <- (Permutation_rev (seq 0 k)), elem_of_seq. lia. }
    destruct (IH (S k) s1) as (s2 & Hr2 & Hl2 & Hlen2 & Hc2 & Hsa & Hsb & Hya & Hyb); [lia|done| |].
    { rewrite seq_S, rev_app_distr. done. }
    exists s2. rewrite (bind_ok _ _ _ _ _ _ _ Hr1). split_and!; try done.
    + intros j. by rewrite Hc2, Hc1.
    + intros j Hj. rewrite Hsa by lia. rewrite Hs1, lookup_insert_ne; [done|]. intros [= ->]. lia.
    + intros j Hj. destruct (decide (j = k)) as [->|]; [|apply Hsb; lia].
      rewrite Hsa by lia. rewrite Hs1, lookup_insert_eq. split; [done|].
      exists "sleep lock". rewrite Hyb by lia. by rewrite Hy1, lookup_insert_eq.
    + intros l Hne. rewrite Hya by done. rewrite Hy1, lookup_insert_ne; [done|]. intros <-. by eapply Hne.
    + intros j Hj. rewrite Hyb by lia. rewrite Hy1, lookup_insert_ne; [done|]. intros [= ->]. lia.
Qed.

(** What the cache holds after initialisation: nothing. *)
Lemma empty_tab d lk pid c :
  (forall i, (i < HEAD)%nat -> c i = zero_buf /\ sl_locked (lk i) = false) ->
  (forall b, block_ok (dblock d b)) -> tab c lk pid d ∅.
Proof.
  intros Hc Hd. split; [done| | |done].
  - intros i Hi. left. destruct (Hc i Hi) as [-> ?]. split; [|done].
    split_and!; [done|done|done|vm_compute; split; congruence|by left].
  - intros i j Hi _ H. destruct (Hc i Hi) as [Hz _]. by rewrite Hz in H.
Qed.

End Refine.

Section Init.
Context {D : DiskDriver} {DL : DiskLaws}.

(** The list head linked to itself. *)
Lemma init_head s :
  let s0 := upd_buf HEAD (set_b_next HEAD) (upd_buf HEAD (set_b_prev HEAD)
    (upd_lock Lbcache (fun _ => mkspinlock "bcache" false None) s)) in
  length (bufs s) = S HEAD ->
  length (bufs s0) = S HEAD /\ (forall j, core (get_buf s0 j) = core (get_buf s j)) /\ links s0 [].
Proof.
  intros s0 Hlen.
  assert (Hg : forall j, get_buf s0 j = if decide (j = HEAD)
    then set_b_next HEAD (set_b_prev HEAD (get_buf s HEAD)) else get_buf s j).
  { intros j. unfold s0. rewrite get_upd_buf by (cbn; rewrite length_alter, Hlen; lia).
    rewrite !get_upd_buf by (cbn; rewrite Hlen; lia). by destruct (decide (j = HEAD)), (decide (HEAD = HEAD)). }
  split_and!; [cbn; by rewrite !length_alter| |].
  - intros j. rewrite Hg. by case_decide; subst.
  - unfold links, ring. rewrite pairs_nil. apply Forall_singleton. unfold linked.
    by rewrite !Hg, decide_True.
Qed.

(** A thread that runs with the buffers and buffer locks of [s] starts from a
    cache without live blocks. *)
Definition starts_empty (s : kstate) : Prop :=
  forall t, bufs t = bufs s -> slocks t = slocks s -> quiet t -> dd_ok t ->
    (forall b, block_ok (dblock (disk t) b)) -> brep t ∅.

(** [binit] links every buffer into the list in front of the head, in both
    directions, and initialises the cache's lock and every buffer's sleep
    lock free; a thread that later runs with these buffers therefore starts
    from a cache that represents no live block. *)
Theorem binit_empty_cache s e :
  length (bufs s) = S HEAD -> (forall i, (i < HEAD)%nat -> core (get_buf s i) = zero_buf) ->
  exists s', binit s e = Ok () s' e /\ links s' (rev (seq 0 HEAD)) /\ lfree (syn s') Lbcache /\
    (forall j, (j < HEAD)%nat -> lfree (syn s') (Lsleep (SLbuf j))) /\
    starts_empty s'.
Proof.
  intros Hlen Hz.
  set (s0 := upd_buf HEAD (set_b_next HEAD) (upd_buf HEAD (set_b_prev HEAD)
    (upd_lock Lbcache (fun _ => mkspinlock "bcache" false None) s))).
  destruct (init_head s Hlen) as (H0 & Hg & Hn). fold s0 in H0, Hg, Hn.
  destruct (binit_loop HEAD 0 s0 e) as (s' & Hr & Hl & Hlen' & Hc & _ & Hsl & Hlk & _);
    [done|done|done|].
  exists s'. split_and!; [exact Hr|done| |by intros; apply Hsl; lia|].
  - exists "bcache". rewrite Hlk by done. cbn. by rewrite lookup_insert_eq.
  - intros t Hb Hs Hq Hdd Hd.
    assert (Hgt : forall j, get_buf t j = get_buf s' j) by (intros; unfold get_buf; by rewrite Hb).
    split; [done|done|by rewrite Hb| |].
    + exists (rev (seq 0 HEAD)). split; [by rewrite <- Permutation_rev|].
      apply (links_ext s'); [..|exact Hl]; intros; by rewrite Hgt.
    + apply empty_tab; [|done]. intros i Hi. rewrite Hgt, Hc, Hg. split; [by apply Hz|].
      unfold get_slock. rewrite Hs. by destruct (Hsl i) as [-> _]; [lia|].
Qed.

End Init.

(** ** A disk in memory, and an empty cache on it *)

Definition ram_rw (b : nat) (w : bool) : M unit :=
  x ← bufget b;
  if w then modify (fun s => set_disk (dwrite (b_blockno x) (b_data x) (disk s)) s)
  else modify (fun s => upd_buf b (set_b_data (dblock (disk s) (b_blockno x))) s).
Definition ram_driver : DiskDriver := {| disk_rw := ram_rw |}.

Lemma ram_rw_run b w s e x :
  bufs s !! b = Some x ->
  exists s', ram_rw b w s e = Ok () s' e /\ True /\ kq s s' /\
    upper s' = upper s /\ slocks s' = slocks s /\
    (if w then bufs s' = bufs s /\ disk s' = dwrite (b_blockno x) (b_data x) (disk s)
     else disk s' = disk s /\
       bufs s' = <[b := set_b_data (dblock (disk s) (b_blockno x)) x]> (bufs s)).
Proof.
  intros Hx. unfold ram_rw, bufget, gets, get_buf, mbind, KM_bind. cbn [bufs]. rewrite Hx.
  destruct w; (eexists; split; [reflexivity|]); split_and!; try done; try (split; by auto).
  cbn. by apply list_alter_known.
Qed.

Definition ram_laws : @DiskLaws ram_driver :=
  @Build_DiskLaws ram_driver (fun _ => True) (fun _ _ _ _ => I)
    (fun b w s e x _ _ Hx _ _ _ _ => ram_rw_run b w s e x Hx).

Lemma sample_brep : @brep ram_driver ram_laws sample_state ∅.
Proof.
  split; [apply sample_quiet|exact I|done| |].
  - exists (rev (seq 0 HEAD)). split; [by rewrite <- Permutation_rev|].
    unfold links, ring, linked. apply (bool_decide_unpack _). vm_compute. exact I.
  - apply empty_tab; [|done]. intros i Hi.
    do 30 (destruct i as [|i]; [split; reflexivity|]). unfold HEAD in Hi. vm_compute in Hi. lia.
Qed.

(** C16 every sequence of reads, stores, writes, releases, pins and unpins of
    blocks that the abstract cache (a map from block numbers to references,
    lock state and contents, over a disk) allows runs to completion on the
    linked list of buffers, without panic and without waiting, and ends in a
    state that represents the abstract result: the same disk, and each live
    block in the one buffer the client's pointer names. *)
Theorem bcache_refines `{DL : DiskLaws} os s p a a' e :
  crep s p a -> spec_cops os a = Some a' ->
  exists p' s', run_cops os p s e = Ok p' s' e /\ crep s' p' a' /\ quiet s'.
Proof.
  intros Hc Hs. destruct (run_cops_ok os s p a a' e Hc Hs) as (p' & s' & Hr & Hc' & Hk).
  exists p', s'. split_and!; [done..|]. destruct Hc' as (L & R & _). apply R.
Qed.

Definition sample_cops : list cop :=
  [ORead 46; ORead 47; OStore 46 (replicate 1024 7); OPin 46; ORelse 46; ORead 46; OWrite 46;
   OUnpin 46; ORelse 46; ORead 48; ORelse 47].

Lemma bcache_refines_witness :
  let a' := (dwrite 46 (replicate 1024 7) (mkdisk ∅ []),
             {[ 48 := mkablk 1 true zero_block ]} : gmap Z ablk) in
  exists p' s', @run_cops ram_driver sample_cops (fun _ => 0%nat) sample_state [] = Ok p' s' [] /\
    @crep ram_driver ram_laws s' p' a' /\ quiet s'.
Proof.
  intros a'. apply (@bcache_refines ram_driver ram_laws sample_cops sample_state _ (mkdisk ∅ [], ∅)).
  - exists ∅. split; [apply sample_brep|]. split; [by rewrite fmap_empty|]. intros b x H. by rewrite lookup_empty in H.
  - vm_compute. reflexivity.
Defined.

Lemma binit_empty_cache_witness :
  exists s', binit sample_state [] = Ok () s' [] /\ links s' (rev (seq 0 HEAD)).
Proof.
  destruct (@binit_empty_cache ram_driver ram_laws sample_state []) as (s' & H & Hl & _).
  - reflexivity.
  - intros i Hi. do 30 (destruct i as [|i]; [reflexivity|]). unfold HEAD in Hi. vm_compute in Hi. lia.
  - exists s'. by split.
Defined.
