(* ===== verification/Log.v ===== *)
(** * kernel/log.c: the write-ahead log

    The in-memory [struct log] is [klog]; the on-disk header block is read and
    written through the buffer of block [log.start] at the byte offsets of
    [struct logheader]: the count, then the block numbers, four bytes each. *)

From stdpp Require Import base gmap strings numbers list.
From S2P Require Import Prelude KState Sample StringC Spinlock Sched Sleeplock Bio.

(** [b->data], and storing into it. *)
Definition bdata (b : nat) : M (list Z) := gets (fun s => b_data (get_buf s b)).
Definition set_bdata (b : nat) (d : list Z) : M unit := modify (upd_buf b (set_b_data d)).

(** [log.lh.block[i]] *)
Definition lh_get (l : log) (i : Z) : Z := nth (Z.to_nat i) (lh_block l) 0.
Definition lh_set (i v : Z) (l : log) : log := set_lh_block (<[Z.to_nat i := v]> (lh_block l)) l.
(** [log.lh.block[i] = v]; a store beyond the array is undefined. *)
Definition lh_store (i v : Z) : M unit :=
  if LOGSIZE <=? i then kpanic "log.lh.block out of bounds" else modify (upd_log (lh_set i v)).

Section Log.
Context {D : DiskDriver}.

(** for (tail = 0; tail < log.lh.n; tail++), with [log.lh.n] constant while the
    loops run: commit and recovery exclude every other writer of the log. *)
Definition tails (l : log) : list Z := seqZ 0 (lh_n l).

Definition install_one (recovering : bool) (tail : Z) : M unit :=
  l ← gets klog;
  lbuf ← bread (l_dev l) (l_start l + tail + 1);
  l ← gets klog;
  dbuf ← bread (l_dev l) (lh_get l tail);
  d ← bdata lbuf;
  set_bdata dbuf d;;
  bwrite dbuf;;
  when (negb recovering) (bunpin dbuf);;
  brelse lbuf;;
  brelse dbuf.

Definition install_trans (recovering : bool) : M unit :=
  l ← gets klog;
  for_each (tails l) (install_one recovering).

(** [lh->n] and [lh->block[i]] of the header block. *)
Definition hdr_n (d : list Z) : Z := i32 (get_le d 0 4).
Definition hdr_block (d : list Z) (i : Z) : Z := i32 (get_le d (4 + 4 * Z.to_nat i) 4).

Definition read_head : M unit :=
  l ← gets klog;
  b ← bread (l_dev l) (l_start l);
  d ← bdata b;
  modify (upd_log (set_lh_n (hdr_n d)));;
  l ← gets klog;
  for_each (tails l) (fun i => lh_store i (hdr_block d i));;
  brelse b.

Definition write_head : M unit :=
  l ← gets klog;
  b ← bread (l_dev l) (l_start l);
  l ← gets klog;
  d ← bdata b;
  set_bdata b (put_le d 0 4 (lh_n l));;
  for_each (tails l) (fun i =>
    l ← gets klog;
    d ← bdata b;
    set_bdata b (put_le d (4 + 4 * Z.to_nat i) 4 (lh_get l i)));;
  bwrite b;;
  brelse b.

Definition recover_from_log : M unit :=
  read_head;;
  install_trans true;;
  modify (upd_log (set_lh_n 0));;
  write_head.

(** [sizeof(struct logheader)] *)
Definition LOGHEADER_SIZE : Z := 4 + 4 * LOGSIZE.

Definition initlog (dev : Z) : M unit :=
  if BSIZE <=? LOGHEADER_SIZE then kpanic "initlog: too big logheader" else
  initlock Llog "log";;
  b ← gets sb;
  modify (upd_log (set_l_start (sb_logstart b)));;
  modify (upd_log (set_l_size (sb_nlog b)));;
  modify (upd_log (set_l_dev dev));;
  recover_from_log.

(** The two conditions under which [begin_op] waits. *)
Definition log_busy (l : log) : bool :=
  l_committing l || (LOGSIZE <? lh_n l + (l_outstanding l + 1) * MAXOPBLOCKS).

Definition begin_op : M unit :=
  acquire Llog;;
  while_wait (gets (fun s => log_busy (klog s))) (sleep Ch_log Llog);;
  modify (upd_log (fun l => set_l_outstanding (l_outstanding l + 1) l));;
  release Llog.

Definition write_log_one (tail : Z) : M unit :=
  l ← gets klog;
  to ← bread (l_dev l) (l_start l + tail + 1);
  l ← gets klog;
  from ← bread (l_dev l) (lh_get l tail);
  d ← bdata from;
  set_bdata to d;;
  bwrite to;;
  brelse from;;
  brelse to.

Definition write_log : M unit :=
  l ← gets klog;
  for_each (tails l) write_log_one.

Definition commit : M unit :=
  l ← gets klog;
  when (0 <? lh_n l)
    (write_log;;
     write_head;;
     install_trans false;;
     modify (upd_log (set_lh_n 0));;
     write_head).

Definition end_op : M unit :=
  acquire Llog;;
  modify (upd_log (fun l => set_l_outstanding (l_outstanding l - 1) l));;
  l ← gets klog;
  if l_committing l then kpanic "log.committing" else
  let do_commit := l_outstanding l =? 0 in
  (if do_commit then modify (upd_log (set_l_committing true)) else wakeup Ch_log);;
  release Llog;;
  when do_commit
    (commit;;
     acquire Llog;;
     modify (upd_log (set_l_committing false));;
     wakeup Ch_log;;
     release Llog).

(** for (i = 0; i < log.lh.n; i++) if (log.lh.block[i] == b->blockno) break; *)
Fixpoint log_find (blocks : list Z) (blockno i : Z) : Z :=
  match blocks with
  | [] => i
  | x :: blocks' => if x =? blockno then i else log_find blocks' blockno (i + 1)
  end.

Definition log_write (b : nat) : M unit :=
  acquire Llog;;
  l ← gets klog;
  if (LOGSIZE <=? lh_n l) || (l_size l - 1 <=? lh_n l) then kpanic "too big a transaction" else
  if l_outstanding l <? 1 then kpanic "log_write outside of trans" else
  x ← bufget b;
  let i := log_find (take (Z.to_nat (lh_n l)) (lh_block l)) (b_blockno x) 0 in
  lh_store i (b_blockno x);;
  when (i =? lh_n l)
    (bpin b;;
     modify (upd_log (fun l => set_lh_n (lh_n l + 1) l)));;
  release Llog.

End Log.
