(* ===== verification/LogDisk.v ===== *)
(** * The write-ahead log on the disk

    What a disk with a log stands for: the blocks that the header lists have
    the contents of their log copies, every other block its own.  The order in
    which [commit] and [recover_from_log] write makes every intermediate disk
    stand for the contents before or after the transaction. *)

From stdpp Require Import base gmap strings numbers list.
From S2P Require Import Prelude KState Sample StringC Spinlock Sched Sleeplock Quiet Bio BufCache Log.

(** ** Sequences of block writes *)

Notation wr := (Z * list Z)%type.

Definition apply_writes (d : diskst) (ws : list wr) : diskst :=
  foldl (fun d w => dwrite (fst w) (snd w) d) d ws.

Lemma apply_writes_app d ws1 ws2 :
  apply_writes d (ws1 ++ ws2) = apply_writes (apply_writes d ws1) ws2.
Proof. apply foldl_app. Qed.

Lemma d_writes_apply d ws : d_writes (apply_writes d ws) = d_writes d ++ ws.
Proof.
  revert d. induction ws as [|w ws IH]; intros d; cbn; [by rewrite app_nil_r|].
  rewrite IH. cbn. rewrite <- app_assoc. by destruct w.
Qed.

Lemma dblock_apply_other d ws b : b ∉ ws.*1 -> dblock (apply_writes d ws) b = dblock d b.
Proof.
  revert d. induction ws as [|[a v] ws IH]; intros d Hb; [done|].
  cbn in *. apply not_elem_of_cons in Hb as [Hne Hb]. rewrite IH by done.
  rewrite dblock_dwrite. by rewrite decide_False.
Qed.

Lemma dblock_apply_in d ws b v :
  NoDup ws.*1 -> (b, v) ∈ ws -> dblock (apply_writes d ws) b = v.
Proof.
  revert d. induction ws as [|[a w] ws IH]; intros d Hnd Hin; [by apply elem_of_nil in Hin|].
  cbn in Hnd. apply NoDup_cons in Hnd as [Ha Hnd].
  apply elem_of_cons in Hin as [[= <- <-]|Hin]; [|by apply IH].
  cbn. rewrite dblock_apply_other by done. rewrite dblock_dwrite. by rewrite decide_True.
Qed.

(** ** The header block *)

Lemma block_ok_put d off n v : block_ok d -> (off + n <= 1024)%nat -> block_ok (put_le d off n v).
Proof.
  unfold block_ok. change (Z.to_nat BSIZE) with 1024%nat. intros H Hn. by rewrite length_put_le by lia.
Qed.

(** The block that [write_head] builds for the block numbers [bs]. *)
Definition hdr_put (bs : list Z) (d : list Z) (i : Z) : list Z :=
  put_le d (4 + 4 * Z.to_nat i) 4 (nth (Z.to_nat i) bs 0).
Definition hdr_fill (d : list Z) (bs : list Z) : list Z :=
  foldl (hdr_put bs) (put_le d 0 4 (Z.of_nat (length bs))) (seqZ 0 (Z.of_nat (length bs))).

Definition hdr_list (d : list Z) : list Z := hdr_block d <$> seqZ 0 (hdr_n d).

Lemma i32_small v : 0 <= v < 2 ^ 31 -> i32 (v mod 256 ^ Z.of_nat 4) = v.
Proof.
  intros H. change (256 ^ Z.of_nat 4) with (2 ^ 32). rewrite Z.mod_small by lia.
  unfold i32, signed. rewrite Z.mod_small by lia. change (2 ^ (32 - 1)) with (2 ^ 31).
  destruct (Z.ltb_spec v (2 ^ 31)); lia.
Qed.

Section Fill.
Context (d bs : list Z).
Hypothesis (Hd : block_ok d) (Hbs : (length bs <= Z.to_nat LOGSIZE)%nat).
Hypothesis Hok : Forall blockno_ok bs.

(** After [i] stores, the count and the first [i] block numbers are in place. *)
Lemma hdr_fill_prefix i : (i <= length bs)%nat ->
  let h := foldl (hdr_put bs) (put_le d 0 4 (Z.of_nat (length bs))) (seqZ 0 (Z.of_nat i)) in
  block_ok h /\ hdr_n h = Z.of_nat (length bs) /\
  forall j, (j < i)%nat -> hdr_block h (Z.of_nat j) = nth j bs 0.
Proof.
  unfold block_ok in *. change (Z.to_nat BSIZE) with 1024%nat in *.
  change (Z.to_nat LOGSIZE) with 30%nat in Hbs.
  induction i as [|i IH]; intros Hi; cbv zeta in *.
  - change (seqZ 0 (Z.of_nat 0)) with (@nil Z). cbn [foldl]. split; [by rewrite length_put_le by lia|].
    split; [|lia]. unfold hdr_n. rewrite get_put_le by lia. apply i32_small. lia.
  - destruct IH as (H1 & H2 & H3); [lia|].
    rewrite seqZ_S, foldl_app. cbn [foldl].
    set (h := foldl _ _ _) in *. unfold hdr_put.
    split_and!; [by rewrite length_put_le by lia| |].
    + unfold hdr_n. by rewrite get_put_le_other by lia.
    + intros j Hj. unfold hdr_block. rewrite Z.add_0_l, !Nat2Z.id.
      destruct (decide (j = i)) as [->|].
      * rewrite get_put_le by lia. apply i32_small. rewrite Forall_lookup in Hok.
        destruct (lookup_lt_is_Some_2 bs i) as [b Hb]; [lia|].
        rewrite (nth_lookup_Some _ _ _ _ Hb). by apply (Hok i).
      * rewrite get_put_le_other by lia. rewrite <- H3 by lia. unfold hdr_block. by rewrite Nat2Z.id.
Qed.

(** [read_head] reads back what [write_head] wrote. *)
Lemma hdr_fill_ok : block_ok (hdr_fill d bs) /\ hdr_n (hdr_fill d bs) = Z.of_nat (length bs) /\
  hdr_list (hdr_fill d bs) = bs.
Proof.
  destruct (hdr_fill_prefix (length bs)) as (H1 & H2 & H3); [lia|].
  fold (hdr_fill d bs) in H1, H2, H3. split_and!; [done..|]. unfold hdr_list. rewrite H2. apply list_eq. intros i.
  rewrite list_lookup_fmap. destruct (decide (i < length bs)%nat).
  - rewrite lookup_seqZ_lt by lia. cbn. rewrite Z.add_0_l, H3 by done. symmetry. by destruct (nth_lookup_or_length bs i 0); [|lia].
  - rewrite lookup_seqZ_ge by lia. symmetry. apply lookup_ge_None. lia.
Qed.

End Fill.

(** The header with its count cleared. *)
Lemma hdr_clear d : block_ok d -> block_ok (put_le d 0 4 0) /\ hdr_n (put_le d 0 4 0) = 0.
Proof.
  unfold block_ok. change (Z.to_nat BSIZE) with 1024%nat. intros Hd. split.
  - by rewrite length_put_le by lia.
  - unfold hdr_n. rewrite get_put_le by lia. by apply (i32_small 0).
Qed.

Lemma hdr_list_clear d : block_ok d -> hdr_list (put_le d 0 4 0) = [].
Proof. intros Hd. unfold hdr_list. by rewrite (proj2 (hdr_clear d Hd)). Qed.

(** ** What a disk stands for *)

Section LogDisk.
Context (start nlog : Z).
Implicit Types (d : diskst) (bs : list Z) (ws : list wr).

Definition in_log (b : Z) : Prop := start <= b < start + nlog.

(** The log's entries: home block and logged contents. *)
Definition entry (d : diskst) (k : nat) (b : Z) : wr := (b, dblock d (start + Z.of_nat k + 1)).
Definition entries (d : diskst) (bs : list Z) : list wr := imap (entry d) bs.
Definition dlog (d : diskst) : list wr := entries d (hdr_list (dblock d start)).

Definition logical (d : diskst) (b : Z) : list Z :=
  default (dblock d b) ((list_to_map (dlog d) : gmap Z (list Z)) !! b).

(** A transaction's block numbers. *)
Record trans_ok (bs : list Z) : Prop := {
  to_size : (length bs <= Z.to_nat LOGSIZE)%nat;
  to_fits : Z.of_nat (length bs) < nlog;
  to_dup : NoDup bs;
  to_home : Forall (fun b => blockno_ok b /\ ~ in_log b) bs
}.

Record logged (d : diskst) : Prop := {
  lg_blocks : forall b, block_ok (dblock d b);
  lg_start : 0 <= start /\ 0 < nlog /\ start + nlog <= 2 ^ 31;
  lg_count : 0 <= hdr_n (dblock d start);
  lg_trans : trans_ok (hdr_list (dblock d start))
}.

Definition recovery_writes (d : diskst) : list wr :=
  dlog d ++ [(start, put_le (dblock d start) 0 4 0)].

Lemma entries_fst d bs : (entries d bs).*1 = bs.
Proof.
  apply list_eq. intros i. unfold entries. rewrite list_lookup_fmap, list_lookup_imap.
  by destruct (bs !! i).
Qed.

Lemma dlog_fst d : (dlog d).*1 = hdr_list (dblock d start).
Proof. apply entries_fst. Qed.

Lemma logical_in d b v : NoDup (dlog d).*1 -> (b, v) ∈ dlog d -> logical d b = v.
Proof. intros Hnd Hin. unfold logical. by rewrite (elem_of_list_to_map_1 _ _ _ Hnd Hin). Qed.

Lemma logical_out d b : b ∉ (dlog d).*1 -> logical d b = dblock d b.
Proof. intros Hn. unfold logical. by rewrite (not_elem_of_list_to_map_1 _ _ Hn). Qed.

(** Entries depend on the log's blocks only. *)
Lemma entries_ext d d' bs :
  (Z.of_nat (length bs) < nlog) -> 0 <= start ->
  (forall b, in_log b -> dblock d' b = dblock d b) -> entries d' bs = entries d bs.
Proof.
  intros Hn Hs Heq. apply imap_ext. intros k b Hk. unfold entry. f_equal.
  apply lookup_lt_Some in Hk. apply Heq. unfold in_log. lia.
Qed.

Lemma dlog_ext d d' :
  logged d -> (forall b, in_log b -> dblock d' b = dblock d b) -> dlog d' = dlog d.
Proof.
  intros [_ Hs _ Ht] Heq. unfold dlog. rewrite (Heq start) by (unfold in_log; lia).
  apply entries_ext; [apply Ht|lia|done].
Qed.

Lemma logged_ext d d' :
  logged d -> (forall b, block_ok (dblock d' b)) ->
  dblock d' start = dblock d start -> logged d'.
Proof. intros [_ Hs Hc Ht] Hb Heq. split; [done|done|by rewrite Heq..]. Qed.

Lemma apply_blocks_ok d ws :
  (forall b, block_ok (dblock d b)) -> Forall (fun w => block_ok (snd w)) ws ->
  forall b, block_ok (dblock (apply_writes d ws) b).
Proof.
  revert d. induction ws as [|[a v] ws IH]; intros d Hd Hws b; [done|].
  apply Forall_cons in Hws as [Hv Hws]. cbn. apply IH; [|done].
  intros b'. rewrite dblock_dwrite. by case_decide.
Qed.

Lemma entries_ok d bs : (forall b, block_ok (dblock d b)) -> Forall (fun w => block_ok (snd w)) (entries d bs).
Proof. intros Hd. apply Forall_forall. intros w (k & b & -> & _)%elem_of_lookup_imap. apply Hd. Qed.

(** Writing some entries of the log to their homes. *)
Lemma install_some d ws ws' :
  logged d -> dlog d = ws ++ ws' ->
  logged (apply_writes d ws) /\ dlog (apply_writes d ws) = dlog d /\
  forall b, logical (apply_writes d ws) b = logical d b.
Proof.
  intros Hl Hws. pose proof (lg_trans _ Hl) as Ht. pose proof (dlog_fst d) as Hf.
  assert (Hsub : forall b, b ∈ ws.*1 -> b ∈ (dlog d).*1).
  { intros b Hb. rewrite Hws, fmap_app. apply elem_of_app. by left. }
  assert (Hkeep : forall b, in_log b -> dblock (apply_writes d ws) b = dblock d b).
  { intros b Hb. apply dblock_apply_other. intros Hin. apply Hsub in Hin. rewrite Hf in Hin.
    destruct Ht as [_ _ _ Hh]. rewrite Forall_forall in Hh. by apply (Hh b Hin). }
  assert (Hdl : dlog (apply_writes d ws) = dlog d) by (by apply dlog_ext).
  split; [|split; [done|]].
  - apply (logged_ext d); [done| |apply Hkeep; unfold in_log; destruct Hl; lia].
    apply apply_blocks_ok; [apply Hl|].
    pose proof (entries_ok d (hdr_list (dblock d start)) (lg_blocks _ Hl)) as He.
    fold (dlog d) in He. rewrite Hws in He. by apply Forall_app in He as [He _].
  - intros b. assert (Hnd : NoDup (dlog d).*1) by (rewrite Hf; apply Ht).
    destruct (decide (b ∈ (dlog d).*1)) as [Hin|Hout].
    + apply list_elem_of_fmap in Hin as ([b' v] & -> & Hin). cbn.
      rewrite (logical_in d b' v) by done. apply logical_in; by rewrite Hdl.
    + rewrite !logical_out; [|done|by rewrite Hdl]. apply dblock_apply_other. eauto.
Qed.

(** The log block of an entry keeps its contents while homes are written. *)
Lemma entry_kept d ws ws' k b v :
  logged d -> dlog d = ws ++ ws' -> dlog d !! k = Some (b, v) ->
  dblock (apply_writes d ws) (start + Z.of_nat k + 1) = v.
Proof.
  intros Hl Hws Hk. destruct (install_some d ws ws' Hl Hws) as (_ & Hd & _). rewrite <- Hd in Hk.
  unfold dlog, entries in Hk. rewrite list_lookup_imap in Hk.
  destruct (hdr_list _ !! k) as [b'|]; [|done]. cbn in Hk. by injection Hk as _ Hk.
Qed.

(** Clearing the header once every entry is in place. *)
Lemma recovery_done d :
  logged d -> let d' := apply_writes d (recovery_writes d) in
  logged d' /\ dlog d' = [] /\ forall b, b <> start -> dblock d' b = logical d b /\ logical d' b = logical d b.
Proof.
  intros Hl. pose proof (lg_blocks _ Hl) as Hb. pose proof (lg_trans _ Hl) as Ht.
  unfold recovery_writes. rewrite apply_writes_app. cbv zeta.
  destruct (install_some d (dlog d) []) as (Hl1 & Hd1 & _); [done|by rewrite app_nil_r|].
  set (d1 := apply_writes d (dlog d)) in *.
  cbn [apply_writes foldl fst snd]. set (d' := dwrite _ _ d1).
  assert (Hst : dblock d' start = put_le (dblock d start) 0 4 0).
  { unfold d'. rewrite dblock_dwrite. by rewrite decide_True. }
  assert (Hnil : dlog d' = []). { unfold dlog. by rewrite Hst, hdr_list_clear. }
  split; [|split; [done|]].
  - split; [|apply Hl|..].
    + intros b. unfold d'. rewrite dblock_dwrite. case_decide; [by apply hdr_clear|apply Hl1].
    + by rewrite Hst, (proj2 (hdr_clear _ (Hb start))).
    + rewrite Hst, hdr_list_clear by done.
      split; [cbn; lia|cbn; destruct (lg_start _ Hl); lia|apply NoDup_nil_2|done].
  - intros b Hne. assert (dblock d' b = logical d b) as E.
    + unfold d'. rewrite dblock_dwrite. rewrite decide_False by done.
      assert (Hnd : NoDup (dlog d).*1) by (rewrite dlog_fst; apply Ht).
      destruct (decide (b ∈ (dlog d).*1)) as [Hin|Hout].
      * apply list_elem_of_fmap in Hin as ([b' v] & -> & Hin). cbn.
        rewrite (logical_in d b' v) by done. by apply dblock_apply_in.
      * rewrite logical_out by done. by apply dblock_apply_other.
    + split; [done|]. rewrite logical_out; [done|]. rewrite Hnil. apply not_elem_of_nil.
Qed.

(** A crash at any point of the recovery loses nothing. *)
Lemma recovery_prefix d ws1 ws2 :
  logged d -> recovery_writes d = ws1 ++ ws2 ->
  logged (apply_writes d ws1) /\
  forall b, b <> start -> logical (apply_writes d ws1) b = logical d b.
Proof.
  intros Hl Hws. destruct ws2 as [|w ws2 _] using rev_ind.
  - rewrite app_nil_r in Hws. subst ws1.
    destruct (recovery_done d Hl) as (H1 & _ & H3). split; [done|]. intros b Hb. by apply H3.
  - unfold recovery_writes in Hws. rewrite app_assoc in Hws.
    apply app_inj_2 in Hws as [Hws _]; [|done].
    destruct (install_some d ws1 ws2 Hl Hws) as (H1 & _ & H3). auto.
Qed.

(** ** The writes of a commit *)

Definition log_copy (k : nat) (v : list Z) : wr := (start + Z.of_nat k + 1, v).
Definition log_copies (vs : list (list Z)) : list wr := imap log_copy vs.

Definition commit_point (d : diskst) (bs : list Z) (vs : list (list Z)) : diskst :=
  dwrite start (hdr_fill (dblock d start) bs) (apply_writes d (log_copies vs)).

Definition commit_writes (d : diskst) (bs : list Z) (vs : list (list Z)) : list wr :=
  log_copies vs ++ (start, hdr_fill (dblock d start) bs) :: recovery_writes (commit_point d bs vs).

(** The contents after the transaction. *)
Definition after_trans (d : diskst) (bs : list Z) (vs : list (list Z)) (b : Z) : list Z :=
  default (dblock d b) ((list_to_map (zip bs vs) : gmap Z (list Z)) !! b).

Lemma log_copies_fst vs : (log_copies vs).*1 = (fun k => start + Z.of_nat k + 1) <$> seq 0 (length vs).
Proof.
  apply list_eq. intros i. unfold log_copies. rewrite !list_lookup_fmap, list_lookup_imap.
  destruct (vs !! i) eqn:Hi.
  - apply lookup_lt_Some in Hi. by rewrite lookup_seq_lt.
  - apply lookup_ge_None in Hi. by rewrite lookup_seq_ge.
Qed.

Lemma log_copies_in vs a : a ∈ (log_copies vs).*1 -> start < a <= start + Z.of_nat (length vs).
Proof. rewrite log_copies_fst. intros (k & -> & Hk%elem_of_seq)%list_elem_of_fmap. lia. Qed.

Lemma log_copies_NoDup vs : NoDup (log_copies vs).*1.
Proof. rewrite log_copies_fst. apply NoDup_fmap_2_strong; [intros; lia|apply NoDup_seq]. Qed.

Section Commit.
Context (d : diskst) (bs : list Z) (vs : list (list Z)).
Hypothesis (Hl : logged d) (Hclear : dlog d = []) (Ht : trans_ok bs).
Hypothesis (Hlen : length vs = length bs) (Hvs : Forall block_ok vs).

Lemma copies_ok ws ws' : log_copies vs = ws ++ ws' -> Forall (fun w => block_ok (snd w)) ws.
Proof.
  intros Hws. assert (H : Forall (fun w => block_ok (snd w)) (log_copies vs)).
  { apply Forall_forall. intros w (k & v & -> & Hk)%elem_of_lookup_imap. cbn.
    rewrite Forall_lookup in Hvs. by apply (Hvs k). }
  rewrite Hws in H. by apply Forall_app in H as [H _].
Qed.

(** While the copies are written, the header is still clear. *)
Lemma copies_prefix ws ws' :
  log_copies vs = ws ++ ws' ->
  logged (apply_writes d ws) /\ forall b, ~ in_log b -> logical (apply_writes d ws) b = dblock d b.
Proof.
  intros Hws. pose proof (to_fits _ Ht) as Hfit.
  assert (Hin : forall a, a ∈ ws.*1 -> start < a /\ in_log a).
  { intros a Ha. destruct (log_copies_in vs a) as [? ?]; [|unfold in_log; lia].
    rewrite Hws, fmap_app. apply elem_of_app. by left. }
  assert (Hst : dblock (apply_writes d ws) start = dblock d start).
  { apply dblock_apply_other. intros Ha. apply Hin in Ha. lia. }
  split.
  - apply (logged_ext d); [done| |done]. apply apply_blocks_ok; [apply Hl|by eapply copies_ok].
  - intros b Hb. rewrite logical_out; [apply dblock_apply_other; intros Ha; by destruct (Hin b Ha)|].
    rewrite dlog_fst, Hst, <- dlog_fst, Hclear. apply not_elem_of_nil.
Qed.

(** Writing the header is what commits. *)
Lemma commit_point_ok :
  logged (commit_point d bs vs) /\ dlog (commit_point d bs vs) = zip bs vs /\
  forall b, ~ in_log b -> logical (commit_point d bs vs) b = after_trans d bs vs b.
Proof.
  pose proof (copies_prefix (log_copies vs) [] ltac:(by rewrite app_nil_r)) as [Hl1 _].
  assert (Hbs : Forall blockno_ok bs) by (eapply Forall_impl; [apply Ht|naive_solver]).
  destruct (hdr_fill_ok (dblock d start) bs (lg_blocks _ Hl start) (to_size _ Ht) Hbs) as (H1 & H2 & H3).
  assert (Hst : dblock (commit_point d bs vs) start = hdr_fill (dblock d start) bs).
  { unfold commit_point. rewrite dblock_dwrite. by rewrite decide_True. }
  assert (Hdl : dlog (commit_point d bs vs) = zip bs vs).
  { unfold dlog. rewrite Hst, H3. apply list_eq. intros k. unfold entries.
    rewrite list_lookup_imap, lookup_zip_with.
    destruct (bs !! k) as [b|] eqn:Hb; [|done].
    destruct (lookup_lt_is_Some_2 vs k) as [v Hv]; [rewrite Hlen; by eapply lookup_lt_Some|].
    rewrite Hv. change (Some (entry (commit_point d bs vs) k b) = Some (b, v)).
    unfold entry. do 2 f_equal. unfold commit_point. rewrite dblock_dwrite, decide_False by lia.
    apply dblock_apply_in; [apply log_copies_NoDup|].
    apply elem_of_lookup_imap. by exists k, v. }
  split; [|split; [done|]].
  - split; [|apply Hl|rewrite Hst, H2; lia|by rewrite Hst, H3].
    intros b. unfold commit_point. rewrite dblock_dwrite. case_decide; [done|apply Hl1].
  - intros b Hb. unfold logical, after_trans. rewrite Hdl. f_equal.
    unfold commit_point. rewrite dblock_dwrite, decide_False.
    + apply dblock_apply_other. intros Ha%log_copies_in. pose proof (to_fits _ Ht). unfold in_log in Hb. lia.
    + intros ->. unfold in_log in Hb. destruct (lg_start _ Hl). lia.
Qed.

(** Atomicity of the transaction's writes. *)
Lemma commit_prefix ws1 ws2 :
  commit_writes d bs vs = ws1 ++ ws2 ->
  logged (apply_writes d ws1) /\
  ((length ws1 <= length bs)%nat /\
     (forall b, ~ in_log b -> logical (apply_writes d ws1) b = dblock d b) \/
   (length bs < length ws1)%nat /\
     (forall b, ~ in_log b -> logical (apply_writes d ws1) b = after_trans d bs vs b)).
Proof.
  intros Hws. unfold commit_writes in Hws.
  assert (Hcl : length (log_copies vs) = length bs) by (unfold log_copies; by rewrite length_imap).
  assert (Hsplit : (exists k, log_copies vs = ws1 ++ k) \/
    exists k, ws1 = log_copies vs ++ (start, hdr_fill (dblock d start) bs) :: k /\
      recovery_writes (commit_point d bs vs) = k ++ ws2).
  { apply app_eq_inv in Hws as [(k & H1 & H2)|(k & H1 & H2)]; [left; eauto|].
    destruct k as [|w k]; [left; exists []; by rewrite app_nil_r in *|].
    injection H2 as <- H2. right. eauto. }
  destruct Hsplit as [[k Hk]|(k & -> & Hk)].
  - destruct (copies_prefix ws1 k Hk) as [H1 H2]. split; [done|]. left. split; [|done].
    rewrite <- Hcl, Hk, length_app. lia.
  - rewrite apply_writes_app. cbn [apply_writes foldl fst snd].
    fold (commit_point d bs vs). fold (apply_writes (commit_point d bs vs) k).
    destruct commit_point_ok as (H1 & _ & H3).
    destruct (recovery_prefix _ _ _ H1 Hk) as [H4 H5]. split; [done|]. right.
    split; [rewrite length_app; cbn; lia|]. intros b Hb. rewrite H5, H3; [done..|].
    intros ->. unfold in_log in Hb. destruct (lg_start _ Hl). lia.
Qed.

End Commit.

End LogDisk.
