(* ===== verification/BufWp.v ===== *)
(** * Running code that uses the buffer cache

    A total-correctness calculus for straight-line use of the cache: [runs m s
    e Q] says that [m] returns from [s], without giving the processor away, and
    [Q] holds of the result.  The rules are those of the cache's routines on the
    abstract map of live blocks. *)

From stdpp Require Import base gmap strings numbers list.
From S2P Require Import Prelude KState Sample StringC Spinlock Sched Sleeplock Quiet Bio BufCache Log.

Definition runs {A} (m : M A) (s : kstate) (e : env) (Q : A -> kstate -> Prop) : Prop :=
  exists a s', m s e = Ok a s' e /\ Q a s'.

Section Runs.
Implicit Types (s : kstate) (e : env).

Lemma runs_ret {A} (a : A) s e (Q : A -> kstate -> Prop) : Q a s -> runs (mret a) s e Q.
Proof. intros H. by exists a, s. Qed.

Lemma runs_bind {A B} (m : M A) (f : A -> M B) s e Q :
  runs m s e (fun a s' => runs (f a) s' e Q) -> runs (m ≫= f) s e Q.
Proof.
  intros (a & s1 & H1 & b & s2 & H2 & HQ). exists b, s2. split; [|done].
  by rewrite (bind_ok _ _ _ _ _ _ _ H1).
Qed.

Lemma runs_mono {A} (m : M A) s e (Q Q' : A -> kstate -> Prop) :
  runs m s e Q -> (forall a s', Q a s' -> Q' a s') -> runs m s e Q'.
Proof. intros (a & s1 & H1 & HQ) H. exists a, s1. auto. Qed.

Lemma runs_step {A B} (m : M A) (f : A -> M B) s e a s' Q :
  m s e = Ok a s' e -> runs (f a) s' e Q -> runs (m ≫= f) s e Q.
Proof. intros H1 H2. apply runs_bind. by exists a, s'. Qed.

Lemma runs_gets {A B} (g : kstate -> A) (f : A -> M B) s e Q : runs (f (g s)) s e Q -> runs (gets g ≫= f) s e Q.
Proof. by apply runs_step. Qed.

Lemma runs_modify {B} (g : kstate -> kstate) (f : unit -> M B) s e Q :
  runs (f ()) (g s) e Q -> runs (modify g ≫= f) s e Q.
Proof. by apply runs_step. Qed.

(** A loop with an invariant on the elements still to come. *)
Lemma runs_for_each {A} (I : list A -> kstate -> Prop) (l : list A) (f : A -> M unit) s e :
  I l s -> (forall x l' s, I (x :: l') s -> runs (f x) s e (fun _ => I l')) ->
  runs (for_each l f) s e (fun _ => I []).
Proof.
  revert s. induction l as [|x l IH]; intros s HI Hf; [by apply runs_ret|].
  cbn [for_each]. apply runs_bind. eapply runs_mono; [by apply Hf|].
  intros ? s' HI'. by apply IH.
Qed.

End Runs.

Section Rules.
Context {D : DiskDriver} {DL : DiskLaws}.
Implicit Types (s : kstate) (e : env) (L : gmap Z live) (d : diskst) (l : log).

(** What the users of the cache leave alone: everything but the cache, the disk
    and the log's own state. *)
Record frame (s0 s : kstate) : Prop := mkframe {
  fr_kq : kq s0 s;
  fr_itable : itable s = itable s0;
  fr_sb : sb s = sb s0;
  fr_inode : forall i, get_slock s (SLinode i) = get_slock s0 (SLinode i)
}.

#[export] Instance frame_refl : Reflexive frame.
Proof. by intros s. Qed.
#[export] Instance frame_trans : Transitive frame.
Proof. intros s1 s2 s3 [] []. split; [by etrans|congruence..]. Qed.

Lemma frame_bstep s0 s s' : frame s0 s -> bstep s s' -> frame s0 s' /\ klog s' = klog s.
Proof.
  intros [K I B S] [K' U' S']. injection U' as Hl Hi Hb. split; [|done].
  split; [by etrans|congruence..|]. intros i. by rewrite S', S.
Qed.

(** [s], reached from [s0], caches [L] over the disk [d], with log state [l]. *)
Record cst (s0 s : kstate) (l : log) (L : gmap Z live) (d : diskst) : Prop := mkcst {
  cs_brep : brep s L;
  cs_disk : disk s = d;
  cs_log : klog s = l;
  cs_frame : frame s0 s
}.

Lemma cst_start s L : brep s L -> cst s s (klog s) L (disk s).
Proof. by split. Qed.

Lemma cst_bstep s0 s s' l L L' d d' :
  cst s0 s l L d -> brep s' L' -> bstep s s' -> disk s' = d' -> cst s0 s' l L' d'.
Proof. intros [_ _ <- F] R Hb Hd. destruct (frame_bstep _ _ _ F Hb). by split. Qed.

Lemma brep_klog s L f : brep s L -> brep (upd_log f s) L.
Proof.
  intros [Q O Hn R T]. split; [exact Q|by apply (dd_keep s)|exact Hn|exact R|exact T].
Qed.

Context (s0 : kstate) {A : Type}.
Implicit Types (Q : A -> kstate -> Prop).

Lemma wp_klog s l L d f (k : unit -> M A) e Q :
  cst s0 s l L d -> (forall s', cst s0 s' (f l) L d -> runs (k ()) s' e Q) ->
  runs (modify (upd_log f) ≫= k) s e Q.
Proof.
  intros [R Hd <- [K I B S]] Hk. apply runs_modify, Hk.
  split; [by apply brep_klog|done|done|]. split; [|done..].
  etrans; [exact K|]. split; auto.
Qed.

Lemma wp_getlog s l L d (k : log -> M A) e Q :
  cst s0 s l L d -> runs (k l) s e Q -> runs (gets klog ≫= k) s e Q.
Proof. intros [_ _ <- _]. apply runs_gets. Qed.

Lemma wp_bread s l L d b (k : nat -> M A) e Q :
  cst s0 s l L d -> can_get L b -> blockno_ok b ->
  (forall i s', cst s0 s' l (get_live d L b i) d ->
     (forall x, L !! b = Some x -> i = lv_buf x) -> runs (k i) s' e Q) ->
  runs (bread ROOTDEV b ≫= k) s e Q.
Proof.
  intros C Hc Hb Hk. pose proof (cs_disk _ _ _ _ _ C) as Hd.
  destruct (bread_run s L b e (cs_brep _ _ _ _ _ C) Hc Hb) as (i & s' & H & R & Hs & Hd' & Hi).
  eapply runs_step; [exact H|]. apply Hk; [|done]. rewrite Hd in R, Hd'. by eapply cst_bstep.
Qed.

(** The other rules are about a live block. *)
Section Live.
Context (s : kstate) (l : log) (L : gmap Z live) (d : diskst) (b : Z) (x : live) (e : env).
Hypothesis (C : cst s0 s l L d) (Hx : L !! b = Some x).

Lemma wp_bdata (k : list Z -> M A) Q :
  runs (k (lv_data x)) s e Q -> runs (bdata (lv_buf x) ≫= k) s e Q.
Proof.
  intros Hk. apply runs_gets.
  by destruct (live_refcnt _ _ _ _ (cs_brep _ _ _ _ _ C) Hx) as (_ & -> & _).
Qed.

Lemma wp_set_bdata v (k : unit -> M A) Q :
  block_ok v ->
  (forall s', cst s0 s' l (<[b := mklive (lv_buf x) (lv_ref x) (lv_held x) v]> L) d -> runs (k ()) s' e Q) ->
  runs (set_bdata (lv_buf x) v ≫= k) s e Q.
Proof.
  intros Hv Hk. apply runs_modify, Hk.
  destruct (store_run _ _ _ _ v (cs_brep _ _ _ _ _ C) Hx Hv) as [R Hs].
  eapply cst_bstep; [exact C|exact R|exact Hs|]. apply C.
Qed.

Lemma wp_bwrite (k : unit -> M A) Q :
  lv_held x = true ->
  (forall s', cst s0 s' l L (dwrite b (lv_data x) d) -> runs (k ()) s' e Q) ->
  runs (bwrite (lv_buf x) ≫= k) s e Q.
Proof.
  intros Hh Hk. pose proof (cs_disk _ _ _ _ _ C) as Hd.
  destruct (bwrite_run _ _ _ _ e (cs_brep _ _ _ _ _ C) Hx Hh) as (s' & H & R & Hs & Hd').
  eapply runs_step; [exact H|]. apply Hk. rewrite Hd in Hd'. by eapply cst_bstep.
Qed.

Lemma wp_brelse (k : unit -> M A) Q :
  lv_held x = true -> (lv_ref x = 1 -> lv_data x = dblock d b) ->
  (forall s', cst s0 s' l (put_live L b x) d -> runs (k ()) s' e Q) ->
  runs (brelse (lv_buf x) ≫= k) s e Q.
Proof.
  intros Hh Hc Hk. pose proof (cs_disk _ _ _ _ _ C) as Hd. rewrite <- Hd in Hc.
  destruct (brelse_run _ _ _ _ e (cs_brep _ _ _ _ _ C) Hx Hh Hc) as (s' & H & R & Hs & Hd').
  eapply runs_step; [exact H|]. apply Hk. rewrite Hd in Hd'. by eapply cst_bstep.
Qed.

Lemma wp_bunpin (k : unit -> M A) Q :
  1 < lv_ref x ->
  (forall s', cst s0 s' l (<[b := mklive (lv_buf x) (lv_ref x - 1) (lv_held x) (lv_data x)]> L) d ->
     runs (k ()) s' e Q) ->
  runs (bunpin (lv_buf x) ≫= k) s e Q.
Proof.
  intros Hr Hk. pose proof (cs_disk _ _ _ _ _ C) as Hd.
  destruct (bunpin_run _ _ _ _ e (cs_brep _ _ _ _ _ C) Hx Hr) as (s' & H & R & Hs & Hd').
  eapply runs_step; [exact H|]. apply Hk. rewrite Hd in Hd'. by eapply cst_bstep.
Qed.

End Live.

(** A block that was not live is live while it is held, and gone afterwards. *)
Lemma get_live_fresh d L b i : L !! b = None -> get_live d L b i = <[b := mklive i 1 true (dblock d b)]> L.
Proof. intros H. unfold get_live, live_ref, content. by rewrite H. Qed.

Lemma get_live_known d L b i x : L !! b = Some x ->
  get_live d L b i = <[b := mklive i (lv_ref x + 1) true (lv_data x)]> L.
Proof. intros H. unfold get_live, live_ref, content. by rewrite H. Qed.

Lemma live_pos s l L d b x : cst s0 s l L d -> L !! b = Some x -> 0 < lv_ref x /\ block_ok (lv_data x) /\ blockno_ok b.
Proof.
  intros C Hx. destruct (t_live _ _ _ _ _ (br_tab _ _ (cs_brep _ _ _ _ _ C)) _ _ Hx) as (_ & ? & ? & ? & _).
  done.
Qed.

Lemma disk_ok s l L d b : cst s0 s l L d -> block_ok (dblock d b).
Proof. intros [R <- _ _]. apply (t_disk _ _ _ _ _ (br_tab _ _ R)). Qed.

End Rules.

Lemma put_live_fresh L b i v : L !! b = None ->
  put_live (<[b := mklive i 1 true v]> L) b (mklive i 1 true v) = L.
Proof. intros H. by apply delete_insert_id. Qed.

(** The last statement of a routine. *)
Lemma runs_last {A} (m : M A) s e Q : runs (m ≫= mret) s e Q -> runs m s e Q.
Proof.
  intros (a & s' & H & HQ). exists a, s'. split; [|done]. revert H. unfold mbind, KM_bind.
  by destruct (m s e).
Qed.

Lemma live_eta x r : lv_held x = false -> mklive (lv_buf x) (lv_ref x + r - r) false (lv_data x) = x.
Proof. destruct x. cbn. intros ->. f_equal. lia. Qed.

(** Equality of maps of live blocks, by cases on the keys given. *)
Ltac live_eq b1 b2 :=
  let q := fresh "q" in apply map_eq; intros q; unfold put_live; cbn;
  destruct (decide (q = b1)) as [->|]; [|destruct (decide (q = b2)) as [->|]];
  repeat case_match; simplify_map_eq; try done; try lia.
