(* ===== verification/LogRun.v ===== *)
(** * kernel/log.c: what the routines write to the disk

    Each routine of the log, run on a cache whose transaction blocks are live,
    performs exactly the block writes of [LogDisk], in that order. *)

From stdpp Require Import base gmap strings numbers list.
From S2P Require Import Prelude KState Sample StringC Spinlock Sched Sleeplock Quiet Bio BufCache Log LogDisk BufWp.

Section LogRun.
Context {D : DiskDriver} {DL : DiskLaws} (s0 : kstate).
Implicit Types (s : kstate) (e : env) (L : gmap Z live) (d : diskst) (l : log).

(** One block copied from the cache to the log. *)
Lemma write_log_one_runs s l L d k to h x e :
  cst s0 s l L d -> l_dev l = ROOTDEV -> l_start l + k + 1 = to -> lh_get l k = h ->
  L !! h = Some x -> lv_held x = false -> L !! to = None -> blockno_ok to -> (size L < HEAD)%nat ->
  runs (write_log_one k) s e (fun _ s' => cst s0 s' l L (dwrite to (lv_data x) d)).
Proof.
  intros C Hdev Hlog Hh Hx Hheld Hto Hok Hsz.
  destruct (live_pos _ _ _ _ _ _ _ C Hx) as (Hpos & Hdata & Hhok).
  assert (Hne : to <> h) by congruence.
  unfold write_log_one. eapply wp_getlog; [done|]. rewrite Hdev, Hlog.
  eapply wp_bread; [done|by unfold can_get; rewrite Hto|done|].
  intros i s1 C1 _. rewrite get_live_fresh in C1 by done. eapply wp_getlog; [done|]. rewrite Hdev, Hh.
  eapply wp_bread; [exact C1|by unfold can_get; rewrite lookup_insert_ne, Hx|done|].
  intros j s2 C2 Hj. rewrite (get_live_known _ _ _ _ x) in C2 by (by rewrite lookup_insert_ne).
  rewrite (Hj x) in * by (by rewrite lookup_insert_ne). clear Hj j.
  eapply (wp_bdata s0 _ _ _ _ h (mklive (lv_buf x) (lv_ref x + 1) true (lv_data x))); [exact C2|by simplify_map_eq|].
  eapply (wp_set_bdata s0 _ _ _ _ to (mklive i 1 true (dblock d to))); [exact C2|by simplify_map_eq|done|].
  intros s3 C3. eapply (wp_bwrite s0 _ _ _ _ to (mklive i 1 true (lv_data x))); [exact C3|by simplify_map_eq|done|].
  intros s4 C4. eapply (wp_brelse s0 _ _ _ _ h (mklive (lv_buf x) (lv_ref x + 1) true (lv_data x)));
    [exact C4|by simplify_map_eq|done|cbn; lia|].
  intros s5 C5. unfold put_live in C5. cbn in C5. rewrite (proj2 (Z.eqb_neq _ _)) in C5 by lia.
  apply runs_last. eapply (wp_brelse s0 _ _ _ _ to (mklive i 1 true (lv_data x)));
    [exact C5|by simplify_map_eq|done|by rewrite dblock_dwrite, decide_True|].
  intros s6 C6. apply runs_ret. cbn in C6.
  match type of C6 with cst _ _ _ ?L' _ => replace L with L'; [done|] end.
  unfold put_live. cbn. live_eq to h.
  by rewrite live_eta.
Qed.

(** One block copied from the log to its home, and released by the log. *)
Lemma install_one_runs s l L d k lg h x e :
  cst s0 s l L d -> l_dev l = ROOTDEV -> l_start l + k + 1 = lg -> lh_get l k = h ->
  L !! h = Some x -> lv_held x = false -> L !! lg = None -> blockno_ok lg -> (size L < HEAD)%nat ->
  let v := dblock d lg in
  runs (install_one false k) s e
    (fun _ s' => cst s0 s' l (put_live L h (mklive (lv_buf x) (lv_ref x) true v)) (dwrite h v d)).
Proof.
  intros C Hdev Hlog Hh Hx Hheld Hlg Hok Hsz v.
  destruct (live_pos _ _ _ _ _ _ _ C Hx) as (Hpos & Hdata & Hhok).
  assert (Hne : lg <> h) by congruence.
  assert (Hv : block_ok v) by (by eapply disk_ok).
  unfold install_one. eapply wp_getlog; [done|]. rewrite Hdev, Hlog.
  eapply wp_bread; [done|by unfold can_get; rewrite Hlg|done|].
  intros i s1 C1 _. rewrite get_live_fresh in C1 by done. eapply wp_getlog; [done|]. rewrite Hdev, Hh.
  eapply wp_bread; [exact C1|by unfold can_get; rewrite lookup_insert_ne, Hx|done|].
  intros j s2 C2 Hj. rewrite (get_live_known _ _ _ _ x) in C2 by (by rewrite lookup_insert_ne).
  rewrite (Hj x) in * by (by rewrite lookup_insert_ne). clear Hj j.
  eapply (wp_bdata s0 _ _ _ _ lg (mklive i 1 true v)); [exact C2|by simplify_map_eq|].
  eapply (wp_set_bdata s0 _ _ _ _ h (mklive (lv_buf x) (lv_ref x + 1) true (lv_data x)));
    [exact C2|by simplify_map_eq|done|].
  intros s3 C3. eapply (wp_bwrite s0 _ _ _ _ h (mklive (lv_buf x) (lv_ref x + 1) true v));
    [exact C3|by simplify_map_eq|done|].
  intros s4 C4. cbn [negb when].
  eapply (wp_bunpin s0 _ _ _ _ h (mklive (lv_buf x) (lv_ref x + 1) true v)); [exact C4|by simplify_map_eq|cbn; lia|].
  intros s5 C5. cbn [lv_buf lv_ref lv_held lv_data] in C5.
  eapply (wp_brelse s0 _ _ _ _ lg (mklive i 1 true v)); [exact C5|by simplify_map_eq|done| |].
  { intros _. by rewrite dblock_dwrite, decide_False. }
  intros s6 C6. apply runs_last.
  eapply (wp_brelse s0 _ _ _ _ h (mklive (lv_buf x) (lv_ref x) true v)); [exact C6| |done| |].
  { unfold put_live. cbn. rewrite lookup_delete_ne, lookup_insert_eq by done. by rewrite Z.add_simpl_r. }
  { intros _. by rewrite dblock_dwrite, decide_True. }
  intros s7 C7. apply runs_ret.
  match type of C7 with cst _ _ _ ?L' _ => replace (put_live L _ _) with L'; [done|] end.
  live_eq lg h.
Qed.

(** The same during recovery, when nothing is live. *)
Lemma recover_one_runs s l L d k lg h e :
  cst s0 s l L d -> l_dev l = ROOTDEV -> l_start l + k + 1 = lg -> lh_get l k = h ->
  L !! h = None -> L !! lg = None -> lg <> h -> blockno_ok h -> blockno_ok lg ->
  (S (size L) < HEAD)%nat ->
  runs (install_one true k) s e (fun _ s' => cst s0 s' l L (dwrite h (dblock d lg) d)).
Proof.
  set (v := dblock d lg). intros C Hdev Hlog Hh Hx Hlg Hne Hhok Hok Hsz.
  assert (Hv : block_ok v) by (by eapply disk_ok).
  unfold install_one. eapply wp_getlog; [done|]. rewrite Hdev, Hlog.
  eapply wp_bread; [done|unfold can_get; rewrite Hlg; lia|done|].
  intros i s1 C1 _. rewrite get_live_fresh in C1 by done. eapply wp_getlog; [done|]. rewrite Hdev, Hh.
  eapply wp_bread; [exact C1| |done|].
  { unfold can_get. rewrite lookup_insert_ne, Hx, map_size_insert_None by done. lia. }
  intros j s2 C2 _. rewrite get_live_fresh in C2 by (by rewrite lookup_insert_ne).
  eapply (wp_bdata s0 _ _ _ _ lg (mklive i 1 true v)); [exact C2|by simplify_map_eq|].
  eapply (wp_set_bdata s0 _ _ _ _ h (mklive j 1 true (dblock d h))); [exact C2|by simplify_map_eq|done|].
  intros s3 C3. eapply (wp_bwrite s0 _ _ _ _ h (mklive j 1 true v)); [exact C3|by simplify_map_eq|done|].
  intros s4 C4. cbn [negb when]. eapply runs_step; [reflexivity|].
  eapply (wp_brelse s0 _ _ _ _ lg (mklive i 1 true v)); [exact C4|by simplify_map_eq|done| |].
  { intros _. by rewrite dblock_dwrite, decide_False. }
  intros s5 C5. apply runs_last.
  eapply (wp_brelse s0 _ _ _ _ h (mklive j 1 true v)); [exact C5|unfold put_live; cbn; by simplify_map_eq|done| |].
  { intros _. by rewrite dblock_dwrite, decide_True. }
  intros s6 C6. apply runs_ret.
  match type of C6 with cst _ _ _ ?L' _ => replace L with L'; [done|] end.
  live_eq lg h.
Qed.

(** Storing the block numbers into the header's buffer. *)
Lemma head_loop_runs s l L d bs st i h e :
  cst s0 s l (<[st := mklive i 1 true h]> L) d -> block_ok h -> lh_n l = Z.of_nat (length bs) ->
  take (length bs) (lh_block l) = bs -> (length bs <= Z.to_nat LOGSIZE)%nat ->
  runs (for_each (tails l) (fun i' =>
      l ← gets klog;
      d ← bdata i;
      set_bdata i (put_le d (4 + 4 * Z.to_nat i') 4 (lh_get l i')))) s e
    (fun _ s' => cst s0 s' l (<[st := mklive i 1 true (foldl (hdr_put bs) h (tails l))]> L) d).
Proof.
  intros C Hh Hn Hbs Hsz. set (h' := foldl _ h (tails l)).
  eapply runs_mono; [apply (runs_for_each (fun rest s => exists h1,
      cst s0 s l (<[st := mklive i 1 true h1]> L) d /\ block_ok h1 /\
      foldl (hdr_put bs) h1 rest = h' /\ Forall (fun k => 0 <= k < lh_n l) rest))|].
  - exists h. split_and!; [done..|]. apply Forall_seqZ. lia.
  - clear s C. intros k rest s (h1 & C & Hh1 & Hf & Hr). apply Forall_cons in Hr as [Hk Hr].
    assert (Hget : nth (Z.to_nat k) bs 0 = lh_get l k).
    { unfold lh_get. rewrite <- Hbs, !nth_lookup, lookup_take_lt by lia. done. }
    assert (Hp : block_ok (hdr_put bs h1 k)).
    { apply block_ok_put; [done|]. change (Z.to_nat LOGSIZE) with 30%nat in *. lia. }
    eapply wp_getlog; [done|].
    eapply (wp_bdata s0 _ _ _ _ st (mklive i 1 true h1)); [exact C|by simplify_map_eq|].
    apply runs_last. rewrite <- Hget.
    eapply (wp_set_bdata s0 _ _ _ _ st (mklive i 1 true h1)); [exact C|by simplify_map_eq|exact Hp|].
    intros s3 C3. apply runs_ret. cbn in C3. rewrite insert_insert_eq in C3. by eexists.
  - cbn beta. intros _ s3 (h1 & C3 & _ & Hf & _). cbn in Hf. by subst h1.
Qed.

(** The header block written from the in-memory header. *)
Lemma write_head_runs s l L d st bs e :
  cst s0 s l L d -> l_dev l = ROOTDEV -> l_start l = st -> lh_n l = Z.of_nat (length bs) ->
  take (length bs) (lh_block l) = bs -> (length bs <= Z.to_nat LOGSIZE)%nat ->
  L !! st = None -> blockno_ok st -> (size L < HEAD)%nat ->
  runs write_head s e (fun _ s' => cst s0 s' l L (dwrite st (hdr_fill (dblock d st) bs) d)).
Proof.
  intros C Hdev Hlog Hn Hbs Hsz30 Hst Hok Hsz.
  assert (Hv : block_ok (dblock d st)) by (by eapply disk_ok).
  assert (Hp : block_ok (put_le (dblock d st) 0 4 (lh_n l))) by (apply block_ok_put; [done|lia]).
  unfold write_head. eapply wp_getlog; [done|]. rewrite Hdev, Hlog.
  eapply wp_bread; [done|by unfold can_get; rewrite Hst|done|].
  intros i s1 C1 _. rewrite get_live_fresh in C1 by done. eapply wp_getlog; [done|].
  eapply (wp_bdata s0 _ _ _ _ st (mklive i 1 true (dblock d st))); [exact C1|by simplify_map_eq|].
  eapply (wp_set_bdata s0 _ _ _ _ st (mklive i 1 true (dblock d st))); [exact C1|by simplify_map_eq|exact Hp|].
  intros s2 C2. cbn [lv_data lv_buf lv_ref lv_held] in *. rewrite insert_insert_eq in C2.
  apply runs_bind. eapply runs_mono; [by apply (head_loop_runs _ l L d bs st i)|].
  cbn beta. intros _ s3 C3. unfold tails in C3. rewrite Hn in C3. change (foldl _ _ _) with (hdr_fill (dblock d st) bs) in C3.
  eapply (wp_bwrite s0 _ _ _ _ st (mklive i 1 true (hdr_fill (dblock d st) bs))); [exact C3|by simplify_map_eq|done|].
  intros s4 C4. apply runs_last.
  eapply (wp_brelse s0 _ _ _ _ st (mklive i 1 true (hdr_fill (dblock d st) bs))); [exact C4|by simplify_map_eq|done| |].
  { intros _. by rewrite dblock_dwrite, decide_True. }
  intros s5 C5. apply runs_ret. by rewrite put_live_fresh in C5.
Qed.

(** The in-memory header read from the header block. *)
Definition with_head (l : log) (n : Z) (blocks : list Z) : log :=
  set_lh_block blocks (set_lh_n n l).

Lemma head_stores_runs s l L d n h e :
  cst s0 s (set_lh_n n l) L d -> 0 <= n <= LOGSIZE -> length (lh_block l) = Z.to_nat LOGSIZE ->
  runs (for_each (seqZ 0 n) (fun i => lh_store i (hdr_block h i))) s e (fun _ s' => exists blocks,
    cst s0 s' (with_head l n blocks) L d /\ length blocks = Z.to_nat LOGSIZE /\
    take (Z.to_nat n) blocks = hdr_block h <$> seqZ 0 n).
Proof.
  intros C Hn Hlen. change (Z.to_nat LOGSIZE) with 30%nat in *. change LOGSIZE with 30 in *.
  eapply runs_mono; [apply (runs_for_each (fun rest s => exists k blocks, rest = seqZ k (n - k) /\ 0 <= k <= n /\
    cst s0 s (with_head l n blocks) L d /\ length blocks = 30%nat /\
    take (Z.to_nat k) blocks = hdr_block h <$> seqZ 0 k))|].
  - exists 0, (lh_block l). rewrite Z.sub_0_r. split_and!; [done|lia|lia| |done|done].
    unfold with_head. by destruct l.
  - clear s C. intros k rest s (k' & blocks & Hr & Hk & C & Hb & Ht).
    destruct (decide (k' = n)) as [->|]; [by rewrite Z.sub_diag in Hr|].
    rewrite seqZ_cons in Hr by lia. injection Hr as -> ->.
    unfold lh_store. change LOGSIZE with 30. rewrite (proj2 (Z.leb_gt _ _)) by lia.
    apply runs_last. eapply wp_klog; [exact C|]. intros s' C'. apply runs_ret.
    exists (k' + 1), (<[Z.to_nat k' := hdr_block h k']> blocks).
    split_and!; [f_equal; lia|lia|lia|exact C'|by rewrite length_insert|].
    rewrite Z2Nat.inj_add by lia. rewrite Nat.add_1_r, (take_S_r _ _ (hdr_block h k'))
      by (apply list_lookup_insert_eq; lia).
    rewrite take_insert_ge, Ht by lia. rewrite seqZ_app by lia. by rewrite fmap_app.
  - cbn beta. intros _ s' (k & blocks & Hr & Hk & C' & Hb & Ht).
    assert (k = n) as -> by (destruct (decide (k = n)); [done|rewrite seqZ_cons in Hr by lia; done]).
    by exists blocks.
Qed.

Lemma read_head_runs s l L d st e :
  cst s0 s l L d -> l_dev l = ROOTDEV -> l_start l = st -> length (lh_block l) = Z.to_nat LOGSIZE ->
  L !! st = None -> blockno_ok st -> (size L < HEAD)%nat ->
  let h := dblock d st in 0 <= hdr_n h <= LOGSIZE ->
  runs read_head s e (fun _ s' => exists blocks,
    cst s0 s' (with_head l (hdr_n h) blocks) L d /\ length blocks = Z.to_nat LOGSIZE /\
    take (length (hdr_list h)) blocks = hdr_list h).
Proof.
  intros C Hdev Hlog Hlen Hst Hok Hsz h Hn.
  unfold read_head. eapply wp_getlog; [done|]. rewrite Hdev, Hlog.
  eapply wp_bread; [done|by unfold can_get; rewrite Hst|done|].
  intros i s1 C1 _. rewrite get_live_fresh in C1 by done.
  eapply (wp_bdata s0 _ _ _ _ st (mklive i 1 true h)); [exact C1|by simplify_map_eq|].
  eapply wp_klog; [exact C1|]. intros s2 C2. eapply wp_getlog; [done|].
  apply runs_bind. unfold tails. cbn [lv_data lh_n set_lh_n].
  eapply runs_mono; [by apply head_stores_runs|].
  cbn beta. intros _ s3 (blocks & C3 & Hb & Ht). apply runs_last.
  eapply (wp_brelse s0 _ _ _ _ st (mklive i 1 true h)); [exact C3|by simplify_map_eq|done|done|].
  intros s4 C4. apply runs_ret. exists blocks. rewrite put_live_fresh in C4 by done. split_and!; [done|done|].
  unfold hdr_list. by rewrite length_fmap, length_seqZ.
Qed.

End LogRun.
