(* ===== verification/LogSafe.v ===== *)
(** * kernel/log.c: transactions are atomic

    [commit] and recovery as sequences of block writes, and the theorem about
    crashes: whatever prefix of the writes of a commit reaches the disk, and
    however often recovery itself is cut short, a recovery that completes leaves
    either all of the transaction's blocks or none of them. *)

From stdpp Require Import base gmap strings numbers list.
From S2P Require Import Prelude KState Sample StringC Spinlock Sched Sleeplock Quiet Bio BufCache BufRefine Log LogDisk BufWp LogRun.

Lemma not_in_take {A} (l : list A) k x : NoDup l -> l !! k = Some x -> x ∉ take k l.
Proof.
  intros Hnd Hk (j & Hj & Hlt)%elem_of_take. pose proof (NoDup_lookup _ _ _ _ Hnd Hj Hk). lia.
Qed.

(** What the log's references of a committed transaction leave in the cache. *)
Definition unpin_one (L : gmap Z live) (b : Z) : gmap Z live :=
  match L !! b with
  | Some x => put_live L b (mklive (lv_buf x) (lv_ref x) true (lv_data x))
  | None => L
  end.
Definition unpins (L : gmap Z live) (bs : list Z) : gmap Z live := foldl unpin_one L bs.

Lemma unpin_one_other L b b' : b' <> b -> unpin_one L b !! b' = L !! b'.
Proof.
  intros Hne. unfold unpin_one, put_live. destruct (L !! b); [|done].
  case_match; by rewrite ?lookup_delete_ne, ?lookup_insert_ne.
Qed.

Lemma unpins_other L bs b : b ∉ bs -> unpins L bs !! b = L !! b.
Proof.
  revert L. induction bs as [|a bs IH]; intros L Hb; [done|].
  apply not_elem_of_cons in Hb as [Hne Hb]. cbn. rewrite IH by done. by apply unpin_one_other.
Qed.

Lemma unpins_none L bs b : L !! b = None -> unpins L bs !! b = None.
Proof.
  revert L. induction bs as [|a bs IH]; intros L Hb; [done|]. cbn. apply IH.
  destruct (decide (b = a)) as [->|]; [|by rewrite unpin_one_other].
  unfold unpin_one. by rewrite Hb.
Qed.

Lemma unpins_size L bs : (size (unpins L bs) <= size L)%nat.
Proof.
  revert L. induction bs as [|a bs IH]; intros L; [done|]. cbn. etrans; [apply IH|].
  unfold unpin_one, put_live. destruct (L !! a) eqn:Ha; [|done]. case_match.
  - rewrite map_size_delete. rewrite Ha. lia.
  - by rewrite map_size_insert_Some.
Qed.

Section LogSafe.
Context {D : DiskDriver} {DL : DiskLaws} (start nlog : Z).
Implicit Types (s : kstate) (e : env) (L : gmap Z live) (d : diskst) (l : log) (bs : list Z).

(** A loop over the log's entries, one block write each. *)
Lemma writes_loop s0 s l (Lk : nat -> gmap Z live) d ws f e n :
  length ws = n -> cst s0 s l (Lk 0%nat) d ->
  (forall k w s, ws !! k = Some w -> cst s0 s l (Lk k) (apply_writes d (take k ws)) ->
     runs (f (Z.of_nat k)) s e (fun _ s' =>
       cst s0 s' l (Lk (S k)) (dwrite (fst w) (snd w) (apply_writes d (take k ws))))) ->
  runs (for_each (seqZ 0 (Z.of_nat n)) f) s e (fun _ s' => cst s0 s' l (Lk n) (apply_writes d ws)).
Proof.
  intros Hn C Hf. eapply runs_mono; [apply (runs_for_each (fun rest s => exists k,
    rest = seqZ (Z.of_nat k) (Z.of_nat n - Z.of_nat k) /\ (k <= n)%nat /\
    cst s0 s l (Lk k) (apply_writes d (take k ws))))|].
  - exists 0%nat. rewrite Z.sub_0_r, take_0. split_and!; [done|lia|done].
  - clear s C. intros x rest s (k & Hr & Hk & C).
    destruct (decide (k = n)) as [->|]; [by rewrite Z.sub_diag in Hr|].
    rewrite seqZ_cons in Hr by lia. injection Hr as -> ->.
    destruct (lookup_lt_is_Some_2 ws k) as [w Hw]; [lia|].
    eapply runs_mono; [by apply Hf|]. cbn beta. intros _ s' C'. exists (S k).
    split_and!; [f_equal; lia|lia|]. rewrite (take_S_r _ _ _ Hw), apply_writes_app. done.
  - cbn beta. intros _ s' (k & Hr & Hk & C').
    assert (k = n) as -> by (destruct (decide (k = n)); [done|rewrite seqZ_cons in Hr by lia; done]).
    by rewrite take_ge in C' by lia.
Qed.

(** The in-memory log describes the transaction [bs] over the blocks [L]. *)
Record trans (l : log) (L : gmap Z live) (bs : list Z) : Prop := mktrans {
  tr_dev : l_dev l = ROOTDEV;
  tr_start : l_start l = start;
  tr_count : lh_n l = Z.of_nat (length bs);
  tr_len : length (lh_block l) = Z.to_nat LOGSIZE;
  tr_blocks : take (length bs) (lh_block l) = bs;
  tr_ok : trans_ok start nlog bs;
  tr_live : forall b, b ∈ bs -> exists x, L !! b = Some x /\ lv_held x = false;
  tr_log : forall b, in_log start nlog b -> L !! b = None;
  tr_room : (size L < HEAD)%nat
}.

Lemma trans_get l L bs k b : trans l L bs -> bs !! k = Some b -> lh_get l (Z.of_nat k) = b.
Proof.
  intros T Hk. unfold lh_get. rewrite Nat2Z.id. apply nth_lookup_Some.
  rewrite <- (tr_blocks _ _ _ T) in Hk. rewrite lookup_take_lt in Hk; [done|].
  apply lookup_lt_Some in Hk. rewrite length_take in Hk. lia.
Qed.

Lemma log_block_ok (d : diskst) bs k :
  logged start nlog d -> trans_ok start nlog bs -> (k < length bs)%nat ->
  in_log start nlog (start + Z.of_nat k + 1) /\ blockno_ok (start + Z.of_nat k + 1).
Proof.
  intros Hl Ht Hk. pose proof (to_fits _ _ _ Ht). destruct (lg_start _ _ _ Hl) as (? & ? & ?).
  unfold in_log, blockno_ok. lia.
Qed.

(** Clearing the header after every entry went home. *)
Lemma clear_runs s0 s l L d e :
  logged start nlog d -> cst s0 s l L (apply_writes d (dlog start d)) ->
  l_dev l = ROOTDEV -> l_start l = start -> L !! start = None -> (size L < HEAD)%nat ->
  runs (modify (upd_log (set_lh_n 0));; write_head) s e
    (fun _ s' => cst s0 s' (set_lh_n 0 l) L (apply_writes d (recovery_writes start d))).
Proof.
  intros Hl C Hdev Hs Hnone Hsz. destruct (lg_start _ _ _ Hl) as (? & ? & ?).
  eapply wp_klog; [exact C|]. intros s1 C1.
  assert (Hst : dblock (apply_writes d (dlog start d)) start = dblock d start).
  { apply dblock_apply_other. rewrite dlog_fst. intros Hin.
    pose proof (to_home _ _ _ (lg_trans _ _ _ Hl)) as Hh. rewrite Forall_forall in Hh. apply (Hh _ Hin).
    unfold in_log. lia. }
  unfold recovery_writes. rewrite apply_writes_app, <- Hst.
  eapply (write_head_runs _ _ _ _ _ _ []); [exact C1|done..|cbn; lia|done| |done].
  unfold blockno_ok. cbn [fst]. lia.
Qed.

(** Installing the entries during recovery, with nothing in the cache. *)
Lemma recover_install_runs s0 s l d e :
  logged start nlog d -> cst s0 s l ∅ d -> l_dev l = ROOTDEV -> l_start l = start ->
  let bs := hdr_list (dblock d start) in
  lh_n l = Z.of_nat (length bs) -> take (length bs) (lh_block l) = bs ->
  runs (install_trans true) s e (fun _ s' => cst s0 s' l ∅ (apply_writes d (dlog start d))).
Proof.
  intros Hl C Hdev Hs bs Hn Htk. pose proof (lg_trans _ _ _ Hl) as Ht.
  unfold install_trans. eapply wp_getlog; [done|]. unfold tails. rewrite Hn.
  apply (writes_loop s0 s l (fun _ => ∅) d (dlog start d)); [unfold bs; by rewrite <- dlog_fst, length_fmap|done|].
  clear s C. intros k [b v] s Hw C. cbn [fst snd].
  pose proof (entry_kept start nlog d _ _ k b v Hl (eq_sym (take_drop k _)) Hw) as Hv.
  assert (Hbk : bs !! k = Some b).
  { unfold bs. rewrite <- dlog_fst, list_lookup_fmap, Hw. done. }
  destruct (log_block_ok d _ k Hl Ht) as [Hin Hok]; [by eapply lookup_lt_Some|].
  pose proof (to_home _ _ _ Ht) as Hh. rewrite Forall_lookup in Hh. destruct (Hh k b Hbk) as [Hbok Hout].
  rewrite <- Hv. eapply recover_one_runs; [exact C|done|by rewrite Hs| |done|done| |done|done|vm_compute; lia].
  - unfold lh_get. rewrite Nat2Z.id. apply nth_lookup_Some.
    rewrite <- Htk in Hbk. by apply lookup_take_Some in Hbk as [Hbk _].
  - intros Heq. apply Hout. by rewrite <- Heq.
Qed.

Lemma recover_runs s0 s l d e :
  logged start nlog d -> cst s0 s l ∅ d -> l_dev l = ROOTDEV -> l_start l = start ->
  length (lh_block l) = Z.to_nat LOGSIZE ->
  runs recover_from_log s e (fun _ s' => exists blocks, length blocks = Z.to_nat LOGSIZE /\
    cst s0 s' (with_head l 0 blocks) ∅ (apply_writes d (recovery_writes start d))).
Proof.
  intros Hl C Hdev Hs Hlen. destruct (lg_start _ _ _ Hl) as (? & ? & ?).
  pose proof (lg_count _ _ _ Hl) as Hc. pose proof (to_size _ _ _ (lg_trans _ _ _ Hl)) as Hsz.
  assert (Hn : Z.of_nat (length (hdr_list (dblock d start))) = hdr_n (dblock d start)).
  { unfold hdr_list. rewrite length_fmap, length_seqZ. lia. }
  change (Z.to_nat LOGSIZE) with 30%nat in *.
  unfold recover_from_log. apply runs_bind. eapply runs_mono.
  { eapply (read_head_runs _ _ _ _ _ start); [exact C|done..| | |].
    - unfold blockno_ok. lia.
    - vm_compute. lia.
    - change LOGSIZE with 30. lia. }
  cbn beta. intros _ s1 (blocks & Hb & C1 & Htk). apply runs_bind.
  eapply runs_mono; [by apply (recover_install_runs s0 s1 _ d e Hl Hb)|].
  cbn beta. intros _ s2 C2. eapply runs_mono; [apply (clear_runs _ _ _ _ _ _ Hl C2); try done; vm_compute; lia|].
  cbn beta. intros _ s3 C3. by exists blocks.
Qed.

Section Commit.
Context (s0 : kstate) (l : log) (L : gmap Z live) (bs : list Z) (d : diskst).
Hypothesis (T : trans l L bs) (Hlog : logged start nlog d).

(** The contents of the transaction's blocks. *)
Let vs := content d L <$> bs.

Lemma trans_content b x : L !! b = Some x -> content d L b = lv_data x.
Proof. intros Hx. unfold content. by rewrite Hx. Qed.

Lemma write_log_runs s e : cst s0 s l L d ->
  runs write_log s e (fun _ s' => cst s0 s' l L (apply_writes d (log_copies start vs))).
Proof.
  intros C. unfold write_log. eapply wp_getlog; [done|]. unfold tails. rewrite (tr_count _ _ _ T).
  apply (writes_loop s0 s l (fun _ => L)); [unfold log_copies, vs; by rewrite length_imap, length_fmap|done|].
  clear s C. intros k w s Hw C. unfold log_copies, vs in Hw. rewrite list_lookup_imap, list_lookup_fmap in Hw.
  destruct (bs !! k) as [b|] eqn:Hb; [|done]. cbn in Hw. injection Hw as <-. cbn.
  destruct (tr_live _ _ _ T b) as (x & Hx & Hh); [by eapply list_elem_of_lookup_2|].
  destruct (log_block_ok d bs k Hlog (tr_ok _ _ _ T)) as [Hin Hbk]; [by eapply lookup_lt_Some|].
  pose proof (tr_log _ _ _ T _ Hin) as Hnone. pose proof (trans_get _ _ _ _ _ T Hb) as Hget.
  rewrite (trans_content _ _ Hx).
  eapply (write_log_one_runs _ _ _ _ _ _ _ b); [exact C|apply T|by rewrite (tr_start _ _ _ T)|done..|apply T].
Qed.

(** The disk at the commit point. *)
Let dc := commit_point start d bs vs.

Lemma head_runs s e L' : cst s0 s l L' (apply_writes d (log_copies start vs)) ->
  L' !! start = None -> (size L' < HEAD)%nat -> runs write_head s e (fun _ s' => cst s0 s' l L' dc).
Proof.
  intros C Hnone Hsz. destruct (lg_start _ _ _ Hlog) as (? & ? & ?).
  assert (Hst : dblock (apply_writes d (log_copies start vs)) start = dblock d start).
  { apply dblock_apply_other. intros Ha%log_copies_in. lia. }
  unfold dc, commit_point. rewrite <- Hst.
  eapply write_head_runs; [exact C|apply T..|done| |done]. unfold blockno_ok. lia.
Qed.

Hypothesis Hclear : dlog start d = [].
Hypothesis Hblocks : forall b, block_ok (content d L b).

Lemma vs_length : length vs = length bs.
Proof. apply length_fmap. Qed.
Lemma vs_ok : Forall block_ok vs.
Proof. apply Forall_fmap, Forall_forall. intros b _. apply Hblocks. Qed.

Lemma point_ok : logged start nlog dc /\ dlog start dc = zip bs vs.
Proof.
  destruct (commit_point_ok start nlog d bs vs Hlog Hclear (tr_ok _ _ _ T) vs_length vs_ok) as (? & ? & _).
  done.
Qed.

(** The log block of entry [k] still holds its contents while homes are written. *)
Lemma log_block_kept k b ws ws' :
  zip bs vs = ws ++ ws' -> bs !! k = Some b ->
  dblock (apply_writes dc ws) (start + Z.of_nat k + 1) = content d L b.
Proof.
  intros Hws Hb. destruct point_ok as [Hl Hd]. rewrite <- Hd in Hws.
  apply (entry_kept start nlog dc ws ws' k b); [done..|].
  rewrite Hd, lookup_zip_with, Hb. unfold vs. by rewrite list_lookup_fmap, Hb.
Qed.

Lemma install_runs s e : cst s0 s l L dc ->
  runs (install_trans false) s e (fun _ s' => cst s0 s' l (unpins L bs) (apply_writes dc (zip bs vs))).
Proof.
  intros C. unfold install_trans. eapply wp_getlog; [done|]. unfold tails. rewrite (tr_count _ _ _ T).
  eapply runs_mono; [apply (writes_loop s0 s l (fun k => unpins L (take k bs)) dc (zip bs vs))|].
  - rewrite length_zip_with, vs_length. lia.
  - done.
  - clear s C. intros k w s Hw C. pose proof Hw as Hw'. rewrite lookup_zip_with in Hw.
    unfold vs in Hw. rewrite list_lookup_fmap in Hw.
    destruct (bs !! k) as [b|] eqn:Hb; [|done]. cbn in Hw. injection Hw as <-. cbn [fst snd].
    destruct (tr_live _ _ _ T b) as (x & Hx & Hh); [by eapply list_elem_of_lookup_2|].
    destruct (log_block_ok d bs k Hlog (tr_ok _ _ _ T)) as [Hin Hbk]; [by eapply lookup_lt_Some|].
    pose proof (tr_log _ _ _ T _ Hin) as Hnone. pose proof (trans_get _ _ _ _ _ T Hb) as Hget.
    assert (Hkeep : unpins L (take k bs) !! b = Some x).
    { rewrite unpins_other; [done|]. apply not_in_take; [apply T|done]. }
    pose proof (log_block_kept k b _ _ (eq_sym (take_drop k _)) Hb) as Hlg.
    rewrite <- Hlg. eapply runs_mono.
    { eapply (install_one_runs _ _ _ _ _ _ _ b); [exact C|apply T|by rewrite (tr_start _ _ _ T)|done..|
        by apply unpins_none|done|]. pose proof (unpins_size L (take k bs)). pose proof (tr_room _ _ _ T). lia. }
    cbn beta. intros _ s' C'. rewrite (take_S_r _ _ _ Hb). unfold unpins in *. rewrite foldl_app. cbn.
    unfold unpin_one at 1. rewrite Hkeep, <- (trans_content _ _ Hx), <- Hlg. exact C'.
  - cbn beta. intros _ s' C'. by rewrite firstn_all in C'.
Qed.

Lemma commit_runs s e : (0 < length bs)%nat -> cst s0 s l L d ->
  runs commit s e (fun _ s' =>
    cst s0 s' (set_lh_n 0 l) (unpins L bs) (apply_writes d (commit_writes start d bs vs))).
Proof.
  intros Hpos C. unfold commit. eapply wp_getlog; [done|]. rewrite (tr_count _ _ _ T).
  rewrite (proj2 (Z.ltb_lt _ _)) by lia. cbn [when].
  assert (Hst : L !! start = None).
  { apply (tr_log _ _ _ T). destruct (lg_start _ _ _ Hlog). unfold in_log. lia. }
  apply runs_bind. eapply runs_mono; [by apply write_log_runs|]. cbn beta. intros _ s1 C1.
  apply runs_bind. eapply runs_mono; [apply head_runs; [exact C1|done|apply T]|]. cbn beta. intros _ s2 C2.
  apply runs_bind. eapply runs_mono; [by apply install_runs|]. cbn beta. intros _ s3 C3.
  destruct point_ok as [Hl Hd]. rewrite <- Hd in C3.
  eapply runs_mono; [apply (clear_runs _ _ _ _ _ _ Hl C3)|].
  - apply T.
  - apply (tr_start _ _ _ T).
  - by apply unpins_none.
  - pose proof (unpins_size L bs). pose proof (tr_room _ _ _ T). lia.
  - cbn beta. intros _ s4 C4. unfold commit_writes. rewrite apply_writes_app. exact C4.
Qed.

End Commit.

(** ** Crashes *)

(** A machine that boots from disk [d]: nothing is cached, the superblock says
    where the log is. *)
Record boots (t : kstate) (d : diskst) : Prop := mkboots {
  bt_brep : brep t ∅;
  bt_disk : disk t = d;
  bt_start : sb_logstart (sb t) = start;
  bt_len : length (lh_block (klog t)) = Z.to_nat LOGSIZE
}.

(** The lock that [initlog] initialises. *)
Definition init_llog (t : kstate) : kstate :=
  set_syn (set_locks (<[Llog := mkspinlock "log" false None]> (locks (syn t))) (syn t)) t.

Lemma quiet_init_llog t : quiet t -> quiet (init_llog t).
Proof.
  assert (Hf : forall k : lockid, lfree (syn t) k -> lfree (syn (init_llog t)) k).
  { intros k [m Hm]. unfold lfree. cbn. destruct (decide (k = Llog)) as [->|].
    - rewrite lookup_insert_eq. eauto.
    - rewrite lookup_insert_ne by done. eauto. }
  intros (((Hwf & Hlen & Hpr) & Hcur & Hsl) & Hn & Hp & Hl).
  split_and!; [|exact Hn|by apply Hf|eapply Forall_impl; eauto].
  split_and!; [|exact Hcur|by auto]. split_and!; [exact Hwf|exact Hlen|]. intros i Hi Hne. by apply Hf, Hpr.
Qed.

Definition mounted_log (t : kstate) (blocks : list Z) : log :=
  with_head (set_l_dev ROOTDEV (set_l_size (sb_nlog (sb t)) (set_l_start (sb_logstart (sb t)) (klog t)))) 0 blocks.

Lemma initlog_state t d e :
  boots t d -> logged start nlog d ->
  runs (initlog ROOTDEV) t e (fun _ t' => exists blocks, length blocks = Z.to_nat LOGSIZE /\
    cst (init_llog t) t' (mounted_log t blocks) ∅ (apply_writes d (recovery_writes start d))).
Proof.
  intros [[Q O Hb R T] Hd Hs Hlen] Hl. unfold initlog. cbn [Z.leb]. rewrite (proj2 (Z.leb_gt _ _)) by done.
  apply runs_modify. fold (init_llog t). apply runs_gets. change (sb (init_llog t)) with (sb t).
  assert (C : cst (init_llog t) (init_llog t) (klog t) ∅ d).
  { split; [|done..]. split; [by apply quiet_init_llog|by apply (dd_keep t)|done..]. }
  eapply wp_klog; [exact C|]. clear C. intros s1 C1.
  eapply wp_klog; [exact C1|]. clear C1. intros s2 C2.
  eapply wp_klog; [exact C2|]. clear C2. intros s3 C3.
  by apply (recover_runs _ _ _ _ _ Hl C3).
Qed.

Lemma initlog_runs t d e :
  boots t d -> logged start nlog d ->
  runs (initlog ROOTDEV) t e (fun _ t' => disk t' = apply_writes d (recovery_writes start d)).
Proof.
  intros Hb Hl. eapply runs_mono; [by apply (initlog_state t d)|]. intros _ t' (blocks & _ & C). apply C.
Qed.

(** The disks that can be found after crashes: the machine boots from [d],
    writes the first blocks [ws1] of what its recovery would write, and stops. *)
Inductive crashes : diskst -> diskst -> Prop :=
| crash_none d : crashes d d
| crash_again d t t' e ws1 ws2 d' :
    boots t d -> initlog ROOTDEV t e = Ok () t' e ->
    d_writes (disk t') = d_writes d ++ ws1 ++ ws2 ->
    crashes (apply_writes d ws1) d' -> crashes d d'.

Lemma crashes_logical d d' :
  crashes d d' -> logged start nlog d ->
  logged start nlog d' /\ forall b, b <> start -> logical start d' b = logical start d b.
Proof.
  induction 1 as [d|d t t' e ws1 ws2 d' Hb Hr Hw _ IH]; intros Hl; [done|].
  destruct (initlog_runs t d e Hb Hl) as ([] & t1 & Hr1 & Hd). rewrite Hr in Hr1. injection Hr1 as <-.
  rewrite Hd, d_writes_apply in Hw. apply app_inv_head in Hw.
  destruct (recovery_prefix start nlog d ws1 ws2 Hl Hw) as [Hl1 H1]. destruct (IH Hl1) as [Hl' H'].
  split; [done|]. intros b Hne. by rewrite H', H1.
Qed.

(** A transaction in memory, over a disk with an empty log. *)
Record log_ready (s : kstate) (L : gmap Z live) (bs : list Z) : Prop := mkready {
  rd_brep : brep s L;
  rd_trans : trans (klog s) L bs;
  rd_disk : logged start nlog (disk s);
  rd_clear : dlog start (disk s) = []
}.

(** The contents of the disk before the transaction [bs], and after it. *)
Definition old_block (s : kstate) (b : Z) : list Z := dblock (disk s) b.
Definition new_block (s : kstate) (L : gmap Z live) (bs : list Z) (b : Z) : list Z :=
  if decide (b ∈ bs) then content (disk s) L b else dblock (disk s) b.

Lemma after_trans_content d L bs b :
  NoDup bs -> after_trans d bs (content d L <$> bs) b = if decide (b ∈ bs) then content d L b else dblock d b.
Proof.
  intros Hnd. unfold after_trans.
  assert (Hf : (zip bs (content d L <$> bs)).*1 = bs) by (apply fst_zip; by rewrite length_fmap).
  case_decide as Hb.
  - apply list_elem_of_lookup in Hb as [k Hk].
    rewrite (elem_of_list_to_map_1 _ b (content d L b)); [done|by rewrite Hf|].
    apply list_elem_of_lookup. exists k. by rewrite lookup_zip_with, list_lookup_fmap, Hk.
  - rewrite not_elem_of_list_to_map_1; [done|]. by rewrite Hf.
Qed.

Lemma brep_content s L b : brep s L -> block_ok (content (disk s) L b).
Proof.
  intros R. unfold content. destruct (L !! b) eqn:Hb.
  - by destruct (t_live _ _ _ _ _ (br_tab _ _ R) _ _ Hb) as (_ & _ & Hd & _).
  - apply (t_disk _ _ _ _ _ (br_tab _ _ R)).
Qed.

Lemma ready_commit s L bs e :
  log_ready s L bs -> (0 < length bs)%nat ->
  let ws := commit_writes start (disk s) bs (content (disk s) L <$> bs) in
  exists s', commit s e = Ok () s' e /\ brep s' (unpins L bs) /\
    klog s' = set_lh_n 0 (klog s) /\ frame s s' /\ disk s' = apply_writes (disk s) ws.
Proof.
  intros [R T Hl Hc] Hpos ws.
  destruct (commit_runs s (klog s) L bs (disk s) T Hl Hc (fun b => brep_content s L b R) s e Hpos
    (cst_start s L R)) as ([] & s' & Hr & [R' Hd Hk Hf]).
  by exists s'.
Qed.

End LogSafe.

(** C1 A transaction is atomic whatever crashes happen.  [commit] of the blocks
    [bs] returns, having written a list of blocks to the disk.  Let the machine
    stop after any number of these writes, reboot, and stop again within any
    number of recoveries: the recovery that completes gives a disk where, outside
    the log, every block has its contents from before the transaction, or every
    block of [bs] has its contents from the transaction and every other block is
    as before.  It is the latter exactly from the write of the header on, in
    particular once [commit] has returned. *)
Theorem commit_crash_atomic `{DL : DiskLaws} start nlog s L bs e :
  log_ready start nlog s L bs -> (0 < length bs)%nat ->
  exists s', commit s e = Ok () s' e /\
    forall ws1 ws2, d_writes (disk s') = d_writes (disk s) ++ ws1 ++ ws2 ->
    forall d t e', crashes start (apply_writes (disk s) ws1) d -> boots start t d ->
    exists t', initlog ROOTDEV t e' = Ok () t' e' /\
      forall b, ~ in_log start nlog b ->
        dblock (disk t') b =
          if (length ws1 <=? length bs)%nat then old_block s b else new_block s L bs b.
Proof.
  intros Hr Hpos. destruct (ready_commit start nlog s L bs e Hr Hpos) as (s' & Hrun & _ & _ & _ & Hd).
  exists s'. split; [done|]. intros ws1 ws2 Hw d t e' Hcr Hb.
  rewrite Hd, d_writes_apply in Hw. apply app_inv_head in Hw.
  destruct Hr as [R T Hl Hc]. pose proof (lg_start _ _ _ Hl) as Hst.
  destruct (commit_prefix start nlog (disk s) bs _ Hl Hc (tr_ok _ _ _ _ _ T) (length_fmap _ _)
    (vs_ok L bs (disk s) (fun b => brep_content s L b R)) ws1 ws2 Hw) as [Hl1 Hcase].
  destruct (crashes_logical start nlog _ _ Hcr Hl1) as [Hl2 Heq].
  destruct (initlog_runs start nlog t d e' Hb Hl2) as ([] & t' & Ht & Hd').
  exists t'. split; [done|]. intros b Hout.
  assert (Hne : b <> start) by (intros ->; apply Hout; unfold in_log; lia).
  destruct (recovery_done start nlog d Hl2) as (_ & _ & Hfin). destruct (Hfin b Hne) as [Hfin1 _].
  rewrite Hd', Hfin1, Heq by done.
  destruct Hcase as [[Hn Ho]|[Hn Ho]]; rewrite Ho by done.
  - by rewrite (proj2 (Nat.leb_le _ _)).
  - rewrite (proj2 (Nat.leb_gt _ _)) by lia. apply after_trans_content, T.
Qed.

(** Block 46 changed in the cache and pinned by the log. *)
Definition sample_trans : list cop :=
  [ORead 46; OStore 46 (replicate 1024 7); OPin 46; ORelse 46].
Definition sample_log : log := mklog 2 30 0 true ROOTDEV 1 (46 :: replicate 29 0).

Lemma sample_logged d : (forall b, dblock d b = zero_block) -> logged 2 30 d /\ dlog 2 d = [].
Proof.
  intros Hd. assert (Hh : hdr_list (dblock d 2) = []) by (rewrite Hd; vm_compute; reflexivity).
  split; [|unfold dlog; by rewrite Hh]. split; [intros b; by rewrite Hd|lia|rewrite Hd; vm_compute; congruence|].
  rewrite Hh. split; [cbn; lia|cbn; lia|apply NoDup_nil_2|done].
Qed.

Lemma sample_ready : exists s L, @log_ready ram_driver ram_laws 2 30 s L [46].
Proof.
  destruct (@run_cops_ok ram_driver ram_laws sample_trans sample_state (fun _ => 0%nat)
    (mkdisk ∅ [], ∅) (mkdisk ∅ [], {[46 := mkablk 1 false (replicate 1024 7)]}) [])
    as (p & s & _ & (L & R & Ha & _) & _).
  { exists ∅. split; [apply sample_brep|]. split; [by rewrite fmap_empty|]. intros b x H. by rewrite lookup_empty in H. }
  { vm_compute. reflexivity. }
  injection Ha as Hd HL. destruct (sample_logged (disk s)) as [Hl Hc]; [intros b; by rewrite <- Hd|].
  assert (HL' : forall b, abs_live <$> L !! b = if decide (b = 46) then Some (mkablk 1 false (replicate 1024 7)) else None).
  { intros b. rewrite <- lookup_fmap, <- HL. case_decide as Hb; [subst; apply lookup_singleton_eq|by apply lookup_singleton_ne]. }
  exists (upd_log (fun _ => sample_log) s), L. split; [by apply brep_klog| |done|done].
  split; try done.
  - split; [vm_compute; lia|cbn; lia|apply NoDup_singleton|].
    apply Forall_singleton. unfold blockno_ok, in_log. lia.
  - intros b ->%list_elem_of_singleton. specialize (HL' 46). rewrite decide_True in HL' by done.
    destruct (L !! 46) as [x|]; [|done]. exists x. split; [done|]. by injection HL' as _ ? _.
  - intros b Hb. specialize (HL' b). rewrite decide_False in HL' by (unfold in_log in Hb; lia).
    by destruct (L !! b).
  - rewrite <- (map_size_fmap abs_live L), <- HL. vm_compute. lia.
Qed.

Lemma commit_crash_atomic_witness :
  exists s L s', @commit ram_driver s [] = Ok () s' [] /\
    forall ws1 ws2, d_writes (disk s') = d_writes (disk s) ++ ws1 ++ ws2 ->
    forall d t e', @crashes ram_driver ram_laws 2 (apply_writes (disk s) ws1) d -> @boots ram_driver ram_laws 2 t d ->
    exists t', @initlog ram_driver ROOTDEV t e' = Ok () t' e' /\
      forall b, ~ in_log 2 30 b ->
        dblock (disk t') b = if (length ws1 <=? 1)%nat then old_block s b else new_block s L [46] b.
Proof.
  destruct sample_ready as (s & L & Hr). exists s, L.
  apply (@commit_crash_atomic ram_driver ram_laws 2 30 s L [46] [] Hr). cbn. lia.
Defined.
