(* ===== verification/LogOps.v ===== *)
(** * kernel/log.c: the operations of a transaction

    [begin_op], [log_write] with absorption and [end_op], and whole
    transactions: what [begin_op(); ... end_op()] around a sequence of block
    updates leaves on the disk. *)

From stdpp Require Import base gmap strings numbers list.
From S2P Require Import Prelude KState Sample StringC Spinlock Sched Sleeplock Quiet Bio BufCache BufRefine Log LogDisk BufWp LogRun LogSafe.

(** ** The search for an absorbed block *)

Lemma log_find_in bs b i : b ∈ bs -> exists k, bs !! k = Some b /\ log_find bs b i = i + Z.of_nat k.
Proof.
  revert i. induction bs as [|a bs IH]; intros i Hb; [by apply elem_of_nil in Hb|]. cbn.
  destruct (Z.eqb_spec a b) as [->|Hne]; [exists 0%nat; split; [done|lia]|].
  apply elem_of_cons in Hb as [?|Hb]; [done|]. destruct (IH (i + 1) Hb) as (k & Hk & ->).
  exists (S k). split; [done|lia].
Qed.

Lemma log_find_out bs b i : b ∉ bs -> log_find bs b i = i + Z.of_nat (length bs).
Proof.
  revert i. induction bs as [|a bs IH]; intros i Hb; cbn; [lia|].
  apply not_elem_of_cons in Hb as [Hne Hb]. rewrite (proj2 (Z.eqb_neq _ _)) by done.
  rewrite IH by done. lia.
Qed.

(** The header with one more block. *)
Definition log_add (b : Z) (l : log) : log :=
  set_lh_n (lh_n l + 1) (lh_set (lh_n l) b l).

Section LogOps.
Context {D : DiskDriver} {DL : DiskLaws}.
Implicit Types (s : kstate) (e : env) (L : gmap Z live) (d : diskst) (l : log) (bs : list Z).

Lemma brep_keep s s' L :
  brep s L -> kq s s' -> bufs s' = bufs s -> slocks s' = slocks s -> disk s' = disk s ->
  vdsk s' = vdsk s -> brep s' L.
Proof.
  intros [Q O Hn (r & Hp & Hr) T] K Hb Hs Hd Hv.
  assert (Hg : forall j, get_buf s' j = get_buf s j) by (intros; unfold get_buf; by rewrite Hb).
  split; [by eapply kq_quiet|by apply (dd_keep s)|by rewrite Hb| |].
  - exists r. split; [done|]. eapply links_ext; [..|exact Hr]; intros; by rewrite Hg.
  - rewrite (kq_cur_pid _ _ K), Hd. eapply tab_ext; [..|exact T]; intros i _; [by rewrite Hg|].
    unfold get_slock. by rewrite Hs.
Qed.

(** A critical section of the log's lock that changes only the log. *)
Lemma cst_section s0 s l L d f :
  cst s0 s l L d -> cst s0 (set_syn (touch (syn s)) (upd_log f s)) (f l) L d.
Proof.
  intros [R Hd <- [K I B S]]. set (s' := set_syn _ _).
  assert (K' : kq s s') by (split; auto).
  split; [by apply (brep_keep s)|done|done|]. split; [by etrans|done..].
Qed.

Lemma begin_op_runs s0 s l L d e :
  cst s0 s l L d -> log_busy l = false ->
  runs begin_op s e (fun _ s' => cst s0 s' (set_l_outstanding (l_outstanding l + 1) l) L d).
Proof.
  intros C Hb. pose proof (br_quiet _ _ (cs_brep _ _ _ _ _ C)) as Q.
  eexists (), _. split.
  - unfold begin_op. erewrite bind_ok; [|apply quiet_acquire; [done|in_static]].
    erewrite bind_ok; [|apply while_wait_false; unfold gets; cbn; by rewrite (cs_log _ _ _ _ _ C), Hb].
    kpure. apply (quiet_release s); [done|in_static|done].
  - apply (cst_section s0 s l L d (fun l => set_l_outstanding (l_outstanding l + 1) l) C).
Qed.

Section Write.
Context (s0 s : kstate) (l : log) (L : gmap Z live) (d : diskst) (bs : list Z) (b : Z) (x : live) (e : env).
Hypothesis (C : cst s0 s l L d) (Hx : L !! b = Some x).
Hypothesis (Hn : lh_n l = Z.of_nat (length bs)) (Hbs : take (length bs) (lh_block l) = bs).

(** [log_write] refuses a block beyond the log's size. *)
Lemma log_write_panics :
  LOGSIZE <= lh_n l \/ l_size l - 1 <= lh_n l ->
  exists s', log_write (lv_buf x) s e = Panic "too big a transaction" s'.
Proof.
  intros Hfull. pose proof (br_quiet _ _ (cs_brep _ _ _ _ _ C)) as Q. eexists.
  unfold log_write. erewrite bind_ok; [|apply quiet_acquire; [done|in_static]]. rewrite bind_gets. cbn [klog set_syn].
  rewrite (cs_log _ _ _ _ _ C).
  replace ((LOGSIZE <=? lh_n l) || (l_size l - 1 <=? lh_n l)) with true; [reflexivity|].
  symmetry. apply orb_true_iff. rewrite !Z.leb_le. done.
Qed.

Hypothesis (Hlen : length (lh_block l) = Z.to_nat LOGSIZE) (Hout : 1 <= l_outstanding l).
Hypothesis (Hfit : lh_n l < LOGSIZE /\ lh_n l < l_size l - 1).

(** The code of [log_write] after its checks. *)
Lemma log_write_checked :
  log_write (lv_buf x) s e =
    (let i := log_find bs b 0 in
     lh_store i b;;
     when (i =? lh_n l) (bpin (lv_buf x);; modify (upd_log (fun l => set_lh_n (lh_n l + 1) l)));;
     release Llog) (set_syn (acq (syn s) Llog) s) e.
Proof.
  pose proof (br_quiet _ _ (cs_brep _ _ _ _ _ C)) as Q.
  unfold log_write. erewrite bind_ok; [|apply quiet_acquire; [done|in_static]]. rewrite bind_gets. cbn [klog set_syn].
  rewrite (cs_log _ _ _ _ _ C), !(proj2 (Z.leb_gt _ _)) by lia. cbn [orb].
  rewrite (proj2 (Z.ltb_ge _ _)) by lia. unfold bufget. rewrite bind_gets.
  change (get_buf (set_syn (acq (syn s) Llog) s) (lv_buf x)) with (get_buf s (lv_buf x)).
  destruct (live_refcnt _ _ _ _ (cs_brep _ _ _ _ _ C) Hx) as (_ & _ & -> & _).
  by rewrite Hn, Nat2Z.id, Hbs.
Qed.

Lemma log_write_absorbs : b ∈ bs ->
  runs (log_write (lv_buf x)) s e (fun _ s' => cst s0 s' l L d).
Proof.
  intros Hb. pose proof (br_quiet _ _ (cs_brep _ _ _ _ _ C)) as Q.
  destruct (log_find_in bs b 0 Hb) as (k & Hk & Hi). pose proof (lookup_lt_Some _ _ _ Hk) as Hlt.
  eexists (), _. split.
  - rewrite log_write_checked. cbv zeta. rewrite Hi, Z.add_0_l. unfold lh_store.
    rewrite (proj2 (Z.leb_gt _ _)) by lia. rewrite (proj2 (Z.eqb_neq _ _)) by lia. cbn [when]. kpure.
    apply (quiet_release s); [done|in_static|done].
  - pose proof (cst_section s0 s l L d (lh_set (Z.of_nat k) b) C) as C'.
    assert (Hset : lh_set (Z.of_nat k) b l = l).
    { unfold lh_set. rewrite Nat2Z.id. rewrite list_insert_same; [by destruct l|].
      rewrite <- Hbs in Hk. by apply lookup_take_Some in Hk as [? _]. }
    rewrite Hset in C'. exact C'.
Qed.

Lemma log_write_adds : b ∉ bs ->
  runs (log_write (lv_buf x)) s e (fun _ s' => cst s0 s' (log_add b l)
    (<[b := mklive (lv_buf x) (lv_ref x + 1) (lv_held x) (lv_data x)]> L) d).
Proof.
  intros Hb. pose proof (br_quiet _ _ (cs_brep _ _ _ _ _ C)) as Q.
  pose proof (quiet_wf _ Q) as Hwf.
  assert (Hfb : lfree (syn s) Lbcache) by (apply quiet_lfree; [done|in_static]).
  eexists (), _. split.
  - rewrite log_write_checked. cbv zeta. rewrite (log_find_out bs b 0 Hb), Z.add_0_l, <- Hn. unfold lh_store.
    rewrite (proj2 (Z.leb_gt _ _)) by lia. rewrite Z.eqb_refl. cbn [when]. kpure.
    erewrite bind_ok; [|apply bpin_raw; cbn; auto with xv6; by apply lfree_acq].
    kpure. cbn [syn set_syn upd_log set_klog upd_buf set_bufs]. rewrite touch_acq by done.
    apply (quiet_release s); [done|in_static|done].
  - destruct C as [R Hd Hl [K I B S]]. set (s' := set_syn _ _).
    assert (K' : kq s s') by (split; auto).
    destruct (t_live _ _ _ _ _ (br_tab _ _ R) _ _ Hx) as (_ & Hr & Hdt & _).
    split; [|done|cbn; by rewrite Hl|split; [by etrans|done..]].
    eapply (brep_live s s' L b x _ _ (fun y => set_b_refcnt (b_refcnt y + 1) y)); try done; [lia|].
    intros y Hy. apply (f_equal b_refcnt) in Hy as Hry. cbn in Hry. rewrite Hry. by apply set_b_refcnt_live.
Qed.

End Write.

(** ** The end of the last outstanding operation *)

Section EndOp.
Context (start nlog : Z).

Definition end_writes (d : diskst) (L : gmap Z live) (bs : list Z) : list wr :=
  match bs with [] => [] | _ => commit_writes start d bs (content d L <$> bs) end.

(** [commit] of a transaction that may be empty. *)
Lemma commit_any_runs s0 s l L d bs e :
  cst s0 s l L d -> trans start nlog l L bs -> logged start nlog d -> dlog start d = [] ->
  runs commit s e (fun _ s' => cst s0 s' (set_lh_n 0 l) (unpins L bs) (apply_writes d (end_writes d L bs))).
Proof.
  intros C T Hl Hc. destruct bs as [|b bs0] eqn:E.
  - unfold commit. eapply wp_getlog; [done|]. rewrite (tr_count _ _ _ _ _ T). cbn.
    apply runs_ret. replace (set_lh_n 0 l) with l; [done|]. pose proof (tr_count _ _ _ _ _ T) as Hn.
    destruct l; cbn in *. by rewrite Hn.
  - replace (end_writes d L (b :: bs0)) with (commit_writes start d bs (content d L <$> bs)) by (by rewrite E).
    rewrite <- E in *. apply (commit_runs start nlog); try done.
    + intros b'. destruct C as [R <- _ _]. by apply brep_content.
    + rewrite E. cbn. lia.
Qed.

(** The part of [end_op] before the commit. *)
Lemma end_op_enter s e :
  quiet s -> l_committing (klog s) = false -> l_outstanding (klog s) = 1 ->
  end_op s e = (commit;; acquire Llog;; modify (upd_log (set_l_committing false));; wakeup Ch_log;; release Llog)
    (set_syn (touch (syn s)) (upd_log (fun l => set_l_committing true (set_l_outstanding 0 l)) s)) e.
Proof.
  intros Q Hc Ho. unfold end_op. erewrite bind_ok; [|apply quiet_acquire; [done|in_static]]. kpure. cbn [klog upd_log set_klog set_syn].
  replace (l_committing (set_l_outstanding _ _)) with false by done. cbn [l_outstanding set_l_outstanding].
  rewrite Ho. change (1 - 1 =? 0) with true. cbv iota. kpure.
  erewrite bind_ok; [|apply (quiet_release s); [done|in_static|done]]. cbn [when].
  replace (set_syn (touch (syn s)) (upd_log _ _)) with
    (set_syn (touch (syn s)) (upd_log (fun l => set_l_committing true (set_l_outstanding 0 l)) s)); [done|].
  kext. by rewrite Ho.
Qed.

(** The part after the commit. *)
Lemma end_op_leave s0 s l L d e :
  cst s0 s l L d ->
  runs (acquire Llog;; modify (upd_log (set_l_committing false));; wakeup Ch_log;; release Llog) s e
    (fun _ s' => cst s0 s' (set_l_committing false l) L d).
Proof.
  intros C. pose proof (br_quiet _ _ (cs_brep _ _ _ _ _ C)) as Q. eexists (), _. split.
  - erewrite bind_ok; [|apply quiet_acquire; [done|in_static]]. kpure.
    erewrite bind_ok; [|apply (quiet_wakeup s _ _ Llog); [done|in_static|done|done]].
    apply (quiet_release s); [done|in_static|done].
  - destruct C as [R Hd Hl [K I B S]]. set (s' := set_syn _ _).
    assert (K' : kq s s') by (split; [done|by right|apply pcore_wake_procs]).
    split; [by apply (brep_keep s)|done|cbn; by rewrite Hl|]. split; [by etrans|done..].
Qed.

Lemma end_op_runs s0 s l L d bs e :
  cst s0 s l L d -> trans start nlog l L bs -> logged start nlog d -> dlog start d = [] ->
  l_committing l = false -> l_outstanding l = 1 ->
  runs end_op s e (fun _ s' => cst s0 s' (set_lh_n 0 (set_l_outstanding 0 l)) (unpins L bs)
    (apply_writes d (end_writes d L bs))).
Proof.
  intros C T Hl Hc Hcm Ho. pose proof (br_quiet _ _ (cs_brep _ _ _ _ _ C)) as Q.
  pose proof (cs_log _ _ _ _ _ C) as Hk.
  unfold runs. setoid_rewrite end_op_enter; [|done|by rewrite Hk..].
  set (f := fun l => set_l_committing true (set_l_outstanding 0 l)).
  pose proof (cst_section s0 s l L d f C) as C1. apply runs_bind.
  eapply runs_mono; [apply (commit_any_runs _ _ _ _ _ bs _ C1); try done|].
  - destruct T. by split.
  - cbn beta. intros _ s2 C2. eapply runs_mono; [apply (end_op_leave _ _ _ _ _ _ C2)|].
    cbn beta. intros _ s3 C3. destruct l. cbn in *. by rewrite Hcm.
Qed.

End EndOp.

End LogOps.
