(* ===== verification/Transaction.v ===== *)
(** * kernel/log.c: whole transactions

    [begin_op(); { bp = bread(b); change bp->data; log_write(bp); brelse(bp) }*;
    end_op()], the use of the log that its comment prescribes. *)

From stdpp Require Import base gmap strings numbers list.
From S2P Require Import Prelude KState Sample StringC Spinlock Sched Sleeplock Quiet Bio BufCache BufRefine Log LogDisk BufWp LogRun LogSafe LogOps.

(** The contents of the blocks after a list of stores, the last one to a block winning. *)
Definition stored (c : Z -> list Z) (ws : list wr) : Z -> list Z :=
  foldl (fun c w b => if decide (b = fst w) then snd w else c b) c ws.

Lemma stored_ext ws (c c' : Z -> list Z) b :
  (forall b, c b = c' b) -> stored c ws b = stored c' ws b.
Proof.
  revert c c'. induction ws as [|w ws IH]; intros c c' H; cbn; [done|]. apply IH. intros b'.
  by case_decide.
Qed.

Section Transaction.
Context {D : DiskDriver} {DL : DiskLaws} (start nlog : Z).
Implicit Types (s : kstate) (e : env) (L : gmap Z live) (d : diskst) (l : log) (bs : list Z).

Definition log_store (w : wr) : M unit :=
  i ← bread ROOTDEV (fst w);
  set_bdata i (snd w);;
  log_write i;;
  brelse i.

Definition transaction (ws : list wr) : M unit :=
  begin_op;; for_each ws log_store;; end_op.

(** The log between transactions. *)
Record log_idle (s : kstate) : Prop := mkidle {
  id_brep : brep s ∅;
  id_disk : logged start nlog (disk s);
  id_clear : dlog start (disk s) = [];
  id_dev : l_dev (klog s) = ROOTDEV;
  id_start : l_start (klog s) = start;
  id_size : l_size (klog s) = nlog;
  id_out : l_outstanding (klog s) = 0;
  id_comm : l_committing (klog s) = false;
  id_n : lh_n (klog s) = 0;
  id_len : length (lh_block (klog s)) = Z.to_nat LOGSIZE
}.

(** The log within a transaction that has changed the blocks [bs]; one or more
    operations are outstanding. *)
Record open_trans (l : log) (L : gmap Z live) (bs : list Z) : Prop := mkopen {
  op_dev : l_dev l = ROOTDEV;
  op_start : l_start l = start;
  op_size : l_size l = nlog;
  op_out : 1 <= l_outstanding l;
  op_comm : l_committing l = false;
  op_n : lh_n l = Z.of_nat (length bs);
  op_len : length (lh_block l) = Z.to_nat LOGSIZE;
  op_blocks : take (length bs) (lh_block l) = bs;
  op_dup : NoDup bs;
  op_home : Forall (fun b => blockno_ok b /\ ~ in_log start nlog b) bs;
  op_live : forall b x, L !! b = Some x -> b ∈ bs /\ lv_held x = false /\ lv_ref x = 1;
  op_in : forall b, b ∈ bs -> is_Some (L !! b)
}.

Lemma open_size l L bs : open_trans l L bs -> (size L <= length bs)%nat.
Proof.
  intros O. rewrite <- size_dom. transitivity (size (list_to_set bs : gset Z)).
  - apply subseteq_size. intros b [x Hx]%elem_of_dom. apply elem_of_list_to_set. by eapply op_live.
  - by rewrite size_list_to_set by apply O.
Qed.

Definition fits (n : nat) : Prop := (n <= Z.to_nat LOGSIZE)%nat /\ Z.of_nat n < nlog.

Lemma open_set l L bs b x i v :
  open_trans l L bs -> L !! b = Some x -> open_trans l (<[b := mklive i 1 false v]> L) bs.
Proof.
  intros O Hx. destruct O as [? ? ? ? ? ? ? ? ? ? Hlive Hin]. split; try done.
  - intros b' x'. destruct (decide (b' = b)) as [->|].
    + rewrite lookup_insert_eq. intros [= <-]. split; [by eapply Hlive|done].
    + rewrite lookup_insert_ne by done. apply Hlive.
  - intros b' Hb'. destruct (decide (b' = b)) as [->|].
    + by rewrite lookup_insert_eq.
    + rewrite lookup_insert_ne by done. by apply Hin.
Qed.

Lemma open_add l L bs b i v :
  open_trans l L bs -> b ∉ bs -> blockno_ok b -> ~ in_log start nlog b -> fits (S (length bs)) ->
  open_trans (log_add b l) (<[b := mklive i 1 false v]> L) (bs ++ [b]).
Proof.
  intros [? ? ? ? ? Hn Hlen Hbs Hnd Hhome Hlive Hin] Hb Hok Hout [Hf1 Hf2].
  change (Z.to_nat LOGSIZE) with 30%nat in *. split; try done.
  - cbn. rewrite length_app. cbn. lia.
  - cbn. by rewrite length_insert.
  - cbn. rewrite Hn, Nat2Z.id, length_app. cbn. rewrite Nat.add_1_r, (take_S_r _ _ b)
      by (apply list_lookup_insert_eq; lia).
    by rewrite take_insert_ge, Hbs by lia.
  - apply NoDup_app. split_and!; [done| |apply NoDup_singleton].
    intros b' Hb' ->%list_elem_of_singleton. done.
  - apply Forall_app. split; [done|]. by apply Forall_singleton.
  - intros b' x'. rewrite elem_of_app, list_elem_of_singleton. destruct (decide (b' = b)) as [->|].
    + rewrite lookup_insert_eq. intros [= <-]. auto.
    + rewrite lookup_insert_ne by done. intros Hx'. destruct (Hlive _ _ Hx') as (? & ?). auto.
  - intros b'. rewrite elem_of_app, list_elem_of_singleton. destruct (decide (b' = b)) as [->|].
    + by rewrite lookup_insert_eq.
    + rewrite lookup_insert_ne by done. intros [?|?]; [by apply Hin|done].
Qed.

(** One store, to a block of the transaction or to a new one. *)
Section Store.
Context (s0 s : kstate) (l : log) (L : gmap Z live) (d : diskst) (bs : list Z) (b : Z) (v : list Z) (e : env).
Hypothesis (C : cst s0 s l L d) (O : open_trans l L bs) (Hok : blockno_ok b) (Hv : block_ok v).
Hypothesis (Hout : ~ in_log start nlog b) (Hf : fits (S (length bs))).

(** Where a store leaves the transaction. *)
Definition store_done (s' : kstate) (bs' : list Z) : Prop :=
  exists l' i, cst s0 s' l' (<[b := mklive i 1 false v]> L) d /\ l_outstanding l' = l_outstanding l /\
    open_trans l' (<[b := mklive i 1 false v]> L) bs'.

Lemma store_room : lh_n l < LOGSIZE /\ lh_n l < l_size l - 1.
Proof. destruct Hf. rewrite (op_n _ _ _ O), (op_size _ _ _ O). change LOGSIZE with 30 in *. lia. Qed.

Lemma store_again : b ∈ bs -> runs (log_store (b, v)) s e (fun _ s' => store_done s' bs).
Proof.
  intros Hb. destruct (op_in _ _ _ O b Hb) as [x Hx]. destruct (op_live _ _ _ O b x Hx) as (_ & Hh & Hr).
  unfold log_store. cbn [fst snd].
  eapply wp_bread; [exact C|by unfold can_get; rewrite Hx|done|]. intros i s1 C1 Hi.
  rewrite (Hi x Hx) in *. rewrite (get_live_known _ _ _ _ x), Hr in C1 by done.
  eapply (wp_set_bdata s0 _ _ _ _ b (mklive (lv_buf x) (1 + 1) true (lv_data x))); [exact C1|by simplify_map_eq|done|].
  cbn [lv_buf lv_ref lv_held]. intros s2 C2. rewrite insert_insert_eq in C2. apply runs_bind.
  eapply runs_mono; [eapply (log_write_absorbs s0 _ _ _ _ bs b (mklive (lv_buf x) (1 + 1) true v));
    [exact C2|by simplify_map_eq|apply O|apply O|apply O|apply O|apply store_room|done]|].
  cbn beta. intros _ s3 C3. apply runs_last.
  eapply (wp_brelse s0 _ _ _ _ b (mklive (lv_buf x) (1 + 1) true v)); [exact C3|by simplify_map_eq|done|done|].
  intros s4 C4. apply runs_ret. unfold put_live in C4. cbn in C4. rewrite insert_insert_eq in C4.
  exists l, (lv_buf x). split; [exact C4|]. split; [done|by eapply open_set].
Qed.

Lemma store_first : b ∉ bs -> runs (log_store (b, v)) s e (fun _ s' => store_done s' (bs ++ [b])).
Proof.
  intros Hb. pose proof (open_size _ _ _ O) as Hsz. pose proof Hf as [Hf1 _]. unfold log_store. cbn [fst snd].
  assert (Hx : L !! b = None).
  { destruct (L !! b) eqn:E; [|done]. by apply (op_live _ _ _ O) in E as [? _]. }
  eapply wp_bread; [exact C| |done|].
  { unfold can_get. rewrite Hx. change (Z.to_nat LOGSIZE) with HEAD in Hf1. lia. }
  intros i s1 C1 _. rewrite get_live_fresh in C1 by done.
  eapply (wp_set_bdata s0 _ _ _ _ b (mklive i 1 true (dblock d b))); [exact C1|by simplify_map_eq|done|].
  cbn [lv_buf lv_ref lv_held]. intros s2 C2. rewrite insert_insert_eq in C2. apply runs_bind.
  eapply runs_mono; [eapply (log_write_adds s0 _ _ _ _ bs b (mklive i 1 true v));
    [exact C2|by simplify_map_eq|apply O|apply O|apply O|apply O|apply store_room|done]|].
  cbn [lv_buf lv_ref lv_held lv_data]. intros _ s3 C3. rewrite insert_insert_eq in C3. apply runs_last.
  eapply (wp_brelse s0 _ _ _ _ b (mklive i (1 + 1) true v)); [exact C3|by simplify_map_eq|done|done|].
  intros s4 C4. apply runs_ret. unfold put_live in C4. cbn in C4. rewrite insert_insert_eq in C4.
  exists (log_add b l), i. split; [exact C4|]. split; [done|by apply open_add].
Qed.

Lemma log_store_runs :
  runs (log_store (b, v)) s e (fun _ s' => exists bs', store_done s' bs' /\ forall b', b' ∈ bs' <-> b' ∈ bs \/ b' = b).
Proof.
  destruct (decide (b ∈ bs)) as [Hb|Hb].
  - eapply runs_mono; [by apply store_again|]. cbn beta. intros _ s' Hs. exists bs. split; [done|].
    intros b'. split; [auto|]. by intros [?| ->].
  - eapply runs_mono; [by apply store_first|]. cbn beta. intros _ s' Hs. exists (bs ++ [b]). split; [done|].
    intros b'. by rewrite elem_of_app, list_elem_of_singleton.
Qed.

End Store.

Definition good_store (w : wr) : Prop :=
  blockno_ok (fst w) /\ ~ in_log start nlog (fst w) /\ block_ok (snd w).

Lemma sub_length bs (ks : list Z) :
  NoDup bs -> (forall b, b ∈ bs -> b ∈ ks) -> (length bs <= size (list_to_set ks : gset Z))%nat.
Proof.
  intros Hnd Hsub. rewrite <- (size_list_to_set (C := gset Z) bs) by done. apply subseteq_size.
  intros b. rewrite !elem_of_list_to_set. apply Hsub.
Qed.

(** A list of stores within a transaction. *)
Lemma stores_runs ws s0 s l L d bs (ks : list Z) e :
  cst s0 s l L d -> open_trans l L bs -> Forall good_store ws ->
  (forall b, b ∈ bs -> b ∈ ks) -> (forall b, b ∈ ws.*1 -> b ∈ ks) ->
  fits (S (size (list_to_set ks : gset Z))) ->
  runs (for_each ws log_store) s e (fun _ s' => exists l' L' bs',
    cst s0 s' l' L' d /\ l_outstanding l' = l_outstanding l /\ open_trans l' L' bs' /\ (forall b, b ∈ bs' -> b ∈ ks) /\
    forall b, content d L' b = stored (content d L) ws b).
Proof.
  revert s l L bs. induction ws as [|[b v] ws IH]; intros s l L bs C O Hg Hks Hws Hf.
  - apply runs_ret. by exists l, L, bs.
  - apply Forall_cons in Hg as [(Hb1 & Hb2 & Hb3) Hg]. cbn [for_each]. apply runs_bind.
    assert (Hfit : fits (S (length bs))).
    { pose proof (sub_length bs ks (op_dup _ _ _ O) Hks). destruct Hf. split; lia. }
    eapply runs_mono; [by apply (log_store_runs s0 s l L d bs b v)|].
    cbn beta. intros _ s1 (bs1 & (l1 & i & C1 & Ho1 & O1) & Hbs1).
    eapply runs_mono; [apply (IH _ _ _ _ C1 O1 Hg)|].
    + intros b'. rewrite Hbs1. intros [?| ->]; [by apply Hks|]. apply Hws. cbn. by left.
    + intros b' Hb'. apply Hws. cbn. by right.
    + done.
    + cbn beta. intros _ s2 (l2 & L2 & bs2 & C2 & Ho2 & O2 & Hks2 & Hc). exists l2, L2, bs2.
      split_and!; [done|congruence|done|done|]. intros b'. rewrite Hc. cbn [stored foldl fst snd].
      apply (stored_ext ws). clear b'. intros b'. unfold content. case_decide as E; subst.
      * by rewrite lookup_insert_eq.
      * by rewrite lookup_insert_ne.
Qed.

(** Once committed, a transaction's blocks leave the cache. *)
Lemma unpins_empty l L bs : open_trans l L bs -> unpins L bs = ∅.
Proof.
  intros O. apply map_eq. intros b. rewrite lookup_empty.
  destruct (decide (b ∈ bs)) as [Hb|Hb].
  - apply list_elem_of_split in Hb as (b1 & b2 & ->).
    unfold unpins. rewrite foldl_app. change (unpins (unpin_one (unpins L b1) b) b2 !! b = None).
    apply unpins_none. unfold unpin_one.
    destruct (unpins L b1 !! b) as [x|] eqn:Hx; [|done].
    rewrite unpins_other in Hx.
    + destruct (op_live _ _ _ O b x Hx) as (_ & _ & Hr). unfold put_live. cbn. rewrite Hr. cbn.
      apply lookup_delete_eq.
    + pose proof (op_dup _ _ _ O) as Hnd. apply NoDup_app in Hnd as (_ & Hnd & _).
      intros Hin. apply (Hnd b Hin). by left.
  - rewrite unpins_other by done. destruct (L !! b) eqn:E; [|done].
    by apply (op_live _ _ _ O) in E as [? _].
Qed.

Lemma open_trans_trans l L bs d :
  open_trans l L bs -> fits (S (length bs)) -> logged start nlog d -> trans start nlog l L bs.
Proof.
  intros O [Hf1 Hf2] Hl. pose proof (open_size _ _ _ O). change (Z.to_nat LOGSIZE) with HEAD in Hf1.
  split; try apply O.
  - split; [change (Z.to_nat LOGSIZE) with HEAD; lia|lia|apply O..].
  - intros b Hb. destruct (op_in _ _ _ O b Hb) as [x Hx]. exists x. by destruct (op_live _ _ _ O b x Hx) as (_ & ? & _).
  - intros b Hb. destruct (L !! b) eqn:E; [|done]. apply (op_live _ _ _ O) in E as [Hin _].
    pose proof (op_home _ _ _ O) as Hh. rewrite Forall_forall in Hh. by destruct (Hh b Hin) as [_ []].
  - lia.
Qed.

(** The disk after [end_op]. *)
Lemma end_disk l L bs d :
  trans start nlog l L bs -> logged start nlog d -> dlog start d = [] ->
  (forall b, block_ok (content d L b)) -> (forall b, b ∉ bs -> L !! b = None) ->
  let d' := apply_writes d (end_writes start d L bs) in
  logged start nlog d' /\ dlog start d' = [] /\ forall b, ~ in_log start nlog b -> dblock d' b = content d L b.
Proof.
  intros T Hl Hc Hblk Hnone. unfold end_writes. destruct bs as [|b0 bs0] eqn:E.
  - cbn. split_and!; [done..|]. intros b _. unfold content. rewrite Hnone by apply not_elem_of_nil. done.
  - rewrite <- E in *. clear E b0 bs0. cbv zeta.
    pose proof (point_ok start nlog l L bs d T Hl Hc Hblk) as [Hpl _].
    destruct (commit_point_ok start nlog d bs (content d L <$> bs) Hl Hc (tr_ok _ _ _ _ _ T) (length_fmap _ _)
      (vs_ok L bs d Hblk)) as (_ & _ & Hlog).
    destruct (recovery_done start nlog _ Hpl) as (H1 & H2 & H3).
    unfold commit_writes. rewrite apply_writes_app. cbn [apply_writes foldl fst snd].
    fold (commit_point start d bs (content d L <$> bs)).
    change (foldl _ ?x ?y) with (apply_writes x y). split_and!; [done..|]. intros b Hb.
    rewrite (proj1 (H3 b ltac:(intros ->; apply Hb; unfold in_log; destruct (lg_start _ _ _ Hl); lia))), Hlog by done.
    rewrite (after_trans_content d L bs b (to_dup _ _ _ (tr_ok _ _ _ _ _ T))).
    case_decide as Hin; [done|]. unfold content. by rewrite Hnone.
Qed.

(** At the beginning, and at the end. *)
Lemma idle_open s : log_idle s ->
  open_trans (set_l_outstanding (l_outstanding (klog s) + 1) (klog s)) ∅ [].
Proof.
  intros [_ _ _ Hdev Hst Hsz Ho Hcm Hn Hlen]. split; try done; cbn.
  - lia.
  - apply NoDup_nil_2.
  - intros b Hb. by apply elem_of_nil in Hb.
Qed.

Lemma end_idle s s3 l2 L2 bs ws :
  cst s s3 (set_lh_n 0 (set_l_outstanding 0 l2)) (unpins L2 bs) (apply_writes (disk s) (end_writes start (disk s) L2 bs)) ->
  open_trans l2 L2 bs -> trans start nlog l2 L2 bs -> logged start nlog (disk s) -> dlog start (disk s) = [] ->
  (forall b, block_ok (content (disk s) L2 b)) -> (forall b, b ∉ bs -> L2 !! b = None) ->
  (forall b, content (disk s) L2 b = stored (content (disk s) ∅) ws b) ->
  log_idle s3 /\ forall b, ~ in_log start nlog b -> dblock (disk s3) b = stored (dblock (disk s)) ws b.
Proof.
  intros [R3 Hd3 Hk3 _] O2 T Hl Hc Hblk Hnone Hcont. rewrite (unpins_empty _ _ _ O2) in R3.
  destruct (end_disk l2 L2 bs (disk s) T Hl Hc Hblk Hnone) as (H1 & H2 & H3). rewrite <- Hd3 in H1, H2, H3.
  split.
  - split; try done; rewrite Hk3; cbn; done || apply O2.
  - intros b Hb. by rewrite H3, Hcont.
Qed.

End Transaction.

(** C2 A transaction is durable and complete.  From a log at rest, [begin_op],
    then any list of block updates through [log_write] (repeated ones are
    absorbed), then [end_op] returns without panic; afterwards the log is at rest
    again, nothing is left pinned in the cache, and outside the log the disk
    holds the last value stored to each block and is otherwise unchanged.  The
    number of distinct blocks may be anything up to two less than the log's
    size; file-system operations use at most [MAXOPBLOCKS]. *)
Theorem transaction_durable `{DL : DiskLaws} start nlog s ws e :
  log_idle start nlog s -> Forall (good_store start nlog) ws ->
  fits nlog (S (size (list_to_set ws.*1 : gset Z))) ->
  exists s', transaction ws s e = Ok () s' e /\ log_idle start nlog s' /\
    forall b, ~ in_log start nlog b -> dblock (disk s') b = stored (dblock (disk s)) ws b.
Proof.
  intros Hi Hg Hf. pose proof Hi as [R Hl Hc _ _ _ _ Hcm Hn _].
  assert (Hrun : runs (transaction ws) s e (fun _ s' => log_idle start nlog s' /\
    forall b, ~ in_log start nlog b -> dblock (disk s') b = stored (dblock (disk s)) ws b)).
  { unfold transaction. apply runs_bind. eapply runs_mono.
    { apply (begin_op_runs _ _ _ _ _ _ (cst_start s ∅ R)). unfold log_busy. by rewrite Hcm, Hn, (id_out _ _ _ Hi). }
    cbn beta. intros _ s1 C1. apply runs_bind. eapply runs_mono.
    { apply (stores_runs start nlog ws s s1 _ ∅ (disk s) [] ws.*1 e C1 (idle_open _ _ _ Hi)); try done.
      intros b Hb. by apply elem_of_nil in Hb. }
    cbn beta. intros _ s2 (l2 & L2 & bs & C2 & Ho2 & O2 & Hks & Hcont).
    pose proof (sub_length bs _ (op_dup _ _ _ _ _ O2) Hks) as Hle.
    assert (T : trans start nlog l2 L2 bs).
    { apply (open_trans_trans start nlog l2 L2 bs (disk s)); [done| |done]. destruct Hf. split; lia. }
    eapply runs_mono; [by apply (end_op_runs start nlog _ _ _ _ _ bs _ C2 T Hl Hc); [apply O2|rewrite Ho2; cbn; rewrite (id_out _ _ _ Hi)]|].
    cbn beta. intros _ s3 C3. apply (end_idle start nlog s s3 l2 L2 bs ws); try done.
    - intros b. destruct C2 as [R2 <- _ _]. by apply brep_content.
    - intros b Hb. destruct (L2 !! b) eqn:E; [|done]. by apply (op_live _ _ _ _ _ O2) in E as [? _]. }
  destruct Hrun as ([] & s' & H1 & H2 & H3). by exists s'.
Qed.

Definition sample_idle : kstate :=
  upd_log (fun _ => mklog 2 30 0 false ROOTDEV 0 (replicate 30 0)) sample_state.

Lemma transaction_durable_witness :
  exists s', @transaction ram_driver [(46, replicate 1024 7); (50, replicate 1024 8); (46, replicate 1024 9)]
      sample_idle [] = Ok () s' [] /\
    @log_idle ram_driver ram_laws 2 30 s' /\
    forall b, ~ in_log 2 30 b -> dblock (disk s') b =
      stored (dblock (mkdisk ∅ [])) [(46, replicate 1024 7); (50, replicate 1024 8); (46, replicate 1024 9)] b.
Proof.
  apply (@transaction_durable ram_driver ram_laws 2 30 sample_idle).
  - destruct (sample_logged (disk sample_idle)) as [Hl Hc]; [done|].
    split; try done. apply brep_klog, sample_brep.
  - repeat constructor; cbn; unfold in_log; try lia; done.
  - vm_compute. split; [lia|reflexivity].
Defined.

(** ** The reservation of [begin_op]

    [begin_op] counts [MAXOPBLOCKS] blocks for each operation against [LOGSIZE]; the
    log of an image has that many blocks, but the first is the header. *)

Section Overflow.
Context {D : DiskDriver} {DL : DiskLaws} (start : Z).
Implicit Types (s : kstate) (e : env) (L : gmap Z live) (d : diskst) (l : log) (bs : list Z).

Definition three_begins : M unit := begin_op;; begin_op;; begin_op.

Lemma three_begins_runs s e : log_idle start LOGSIZE s ->
  runs three_begins s e (fun _ s' => exists l, cst s s' l ∅ (disk s) /\ l_outstanding l = 3 /\ open_trans start LOGSIZE l ∅ []).
Proof.
  intros Hi. pose proof Hi as [R _ _ Hdev Hst Hsz Ho Hcm Hn Hlen].
  assert (Hnb : forall k, 0 <= k <= 2 -> log_busy (set_l_outstanding k (klog s)) = false).
  { intros k Hk. unfold log_busy. cbn. rewrite Hcm, Hn. apply Z.ltb_ge. unfold LOGSIZE, MAXOPBLOCKS. lia. }
  assert (H0 : klog s = set_l_outstanding 0 (klog s)) by (destruct (klog s); cbn in Ho; by rewrite Ho).
  pose proof (cst_start s ∅ R) as C. rewrite H0 in C. unfold three_begins.
  apply runs_bind. eapply runs_mono; [apply (begin_op_runs _ _ _ _ _ _ C), Hnb; lia|]. cbn. intros _ s1 C1.
  apply runs_bind. eapply runs_mono; [apply (begin_op_runs _ _ _ _ _ _ C1); apply (Hnb 1); lia|]. cbn. intros _ s2 C2.
  eapply runs_mono; [apply (begin_op_runs _ _ _ _ _ _ C2); apply (Hnb 2); lia|]. cbn. intros _ s3 C3.
  eexists. split; [exact C3|]. split; [done|]. split; try done; cbn.
  - apply NoDup_nil_2.
  - intros b Hb. by apply elem_of_nil in Hb.
Qed.

(** A store to a log with all its blocks in use. *)
Lemma store_overflows s0 s l L d bs w e :
  cst s0 s l L d -> open_trans start LOGSIZE l L bs -> length bs = 29%nat -> good_store start LOGSIZE w ->
  exists s', log_store w s e = Panic "too big a transaction" s'.
Proof.
  intros C O Hlen (Hb & _ & Hv). pose proof (open_size _ _ _ _ _ O) as Hsz. destruct w as [b v].
  assert (Hc : can_get L b) by (unfold can_get; destruct (L !! b) as [x|] eqn:E;
    [by destruct (op_live _ _ _ _ _ O b x E) as (_ & -> & _)|change HEAD with 30%nat; lia]).
  destruct (bread_run s L b e (cs_brep _ _ _ _ _ C) Hc Hb) as (i & s1 & E1 & R1 & Hs1 & Hd1 & _).
  pose proof (cs_disk _ _ _ _ _ C) as Hd. rewrite Hd in R1, Hd1.
  pose proof (cst_bstep _ _ _ _ _ _ _ _ C R1 Hs1 Hd1) as C1.
  unfold log_store. cbn [fst snd]. rewrite (bind_ok _ _ _ _ _ _ _ E1).
  assert (Hx : exists x, get_live d L b i !! b = Some x /\ lv_buf x = i)
    by (unfold get_live; destruct (L !! b); rewrite lookup_insert_eq; eexists; split; reflexivity).
  destruct Hx as (x & Hx & <-). destruct (store_run _ _ _ _ v (cs_brep _ _ _ _ _ C1) Hx Hv) as [R2 Hs2].
  pose proof (cst_bstep _ _ _ _ _ _ _ _ C1 R2 Hs2 (cs_disk _ _ _ _ _ C1)) as C2.
  unfold set_bdata. rewrite bind_modify.
  destruct (log_write_panics s0 _ l _ d (mklive (lv_buf x) (lv_ref x) (lv_held x) v) e C2) as [s' Hp].
  - right. rewrite (op_size _ _ _ _ _ O), (op_n _ _ _ _ _ O), Hlen. change LOGSIZE with 30. lia.
  - exists s'. cbn [lv_buf] in Hp. unfold mbind, KM_bind. by rewrite Hp.
Qed.

Lemma stores_overflow ws s0 s l L d bs e :
  cst s0 s l L d -> open_trans start LOGSIZE l L bs -> Forall (good_store start LOGSIZE) ws -> (length bs <= 29)%nat ->
  (30 <= size (list_to_set (bs ++ ws.*1) : gset Z))%nat ->
  exists s', for_each ws log_store s e = Panic "too big a transaction" s'.
Proof.
  revert s l L bs. induction ws as [|w ws IH]; intros s l L bs C O Hg Hlen Hn.
  - cbn in Hn. rewrite app_nil_r, size_list_to_set in Hn by apply O. lia.
  - apply Forall_cons in Hg as [Hw Hg]. cbn [for_each]. destruct (decide (length bs = 29%nat)) as [Hfull|Hroom].
    + destruct (store_overflows s0 s l L d bs w e C O Hfull Hw) as [s' E]. exists s'. unfold mbind, KM_bind. by rewrite E.
    + destruct w as [b v], Hw as (Hb1 & Hb2 & Hb3).
      destruct (log_store_runs start LOGSIZE s0 s l L d bs b v e C O Hb1 Hb3 Hb2) as ([] & s1 & E & bs1 & (l1 & i & C1 & _ & O1) & Hbs1).
      { unfold fits. change LOGSIZE with 30. lia. }
      rewrite (bind_ok _ _ _ _ _ _ _ E). apply (IH _ _ _ _ C1 O1 Hg).
      * assert (Hsub : bs1 ⊆+ bs ++ [b]).
        { apply NoDup_submseteq; [apply O1|]. intros x. by rewrite Hbs1, elem_of_app, list_elem_of_singleton. }
        apply submseteq_length in Hsub. rewrite length_app in Hsub. cbn in Hsub. lia.
      * etransitivity; [exact Hn|]. apply subseteq_size. intros x. rewrite !elem_of_list_to_set, !elem_of_app, Hbs1. cbn.
        rewrite elem_of_cons. tauto.
Qed.

(** C40 The log can be overcommitted.  From any log at rest that has the size of an
    image, [begin_op] admits three operations together, each entitled to
    [MAXOPBLOCKS] blocks; but whichever blocks they update and in whatever order, as
    soon as their updates reach all these blocks, 30 distinct ones, [log_write]
    panics: the header takes one of the blocks of the log. *)
Theorem log_reservation_overflows s ws e :
  log_idle start LOGSIZE s -> Forall (good_store start LOGSIZE) ws ->
  3 * MAXOPBLOCKS <= Z.of_nat (size (list_to_set ws.*1 : gset Z)) ->
  exists s1 s2, three_begins s e = Ok () s1 e /\ l_outstanding (klog s1) = 3 /\
    for_each ws log_store s1 e = Panic "too big a transaction" s2.
Proof.
  intros Hi Hg Hn. destruct (three_begins_runs s e Hi) as ([] & s1 & E1 & l & C & Ho & O).
  destruct (stores_overflow ws s s1 l ∅ (disk s) [] e C O Hg) as [s2 E2]; [cbn; lia|unfold MAXOPBLOCKS in Hn; cbn [app]; lia|].
  exists s1, s2. split; [done|]. split; [by rewrite (cs_log _ _ _ _ _ C)|done].
Qed.

End Overflow.

Lemma log_reservation_overflows_witness :
  exists s1 s2, @three_begins sample_idle [] = Ok () s1 [] /\ l_outstanding (klog s1) = 3 /\
    for_each ((fun b => (b, zero_block)) <$> seqZ 46 30) (@log_store ram_driver) s1 [] = Panic "too big a transaction" s2.
Proof.
  apply (@log_reservation_overflows ram_driver ram_laws 2 sample_idle).
  - destruct (sample_logged (disk sample_idle)) as [Hl Hc]; [done|]. split; try done. apply brep_klog, sample_brep.
  - apply Forall_fmap, Forall_seqZ. intros b Hb. change LOGSIZE with 30. unfold good_store, blockno_ok, in_log. cbn [fst snd compose]. split; [lia|split; [lia|reflexivity]].
  - vm_compute. congruence.
Defined.
