(* ===== verification/FsWp.v ===== *)
(** * Running file-system code inside a transaction

    The rules by which the routines of [Fs] are verified.  Between [begin_op] and
    [end_op] the file system sees the blocks of the disk as the cache has them, with
    the updates of the transaction made; [fsx] is that view, with the blocks the
    thread holds and the blocks that the transaction may have logged. *)

From stdpp Require Import base gmap strings numbers list.
From S2P Require Import Prelude KState Sample StringC Spinlock Sched Sleeplock Quiet Bio BufCache BufRefine Log LogDisk BufWp LogRun LogSafe LogOps Transaction.

(** The blocks after one of them was changed. *)
Definition bupd (c : Z -> list Z) (b : Z) (v : list Z) : Z -> list Z :=
  fun b' => if decide (b' = b) then v else c b'.

Lemma bupd_eq c b v : bupd c b v b = v.
Proof. unfold bupd. by rewrite decide_True. Qed.
Lemma bupd_ne c b v b' : b' <> b -> bupd c b v b' = c b'.
Proof. intros. unfold bupd. by rewrite decide_False. Qed.

Section FsWp.
Context {D : DiskDriver} {DL : DiskLaws} (start nlog : Z).
Implicit Types (s : kstate) (e : env) (L : gmap Z live) (d : diskst) (l : log) (bs : list Z).
Implicit Types (H : gmap Z nat) (c : Z -> list Z) (G : gset Z).

Definition log_ref bs b : Z := if decide (b ∈ bs) then 1 else 0.
Definition held_ref (oh : option nat) : Z := match oh with Some _ => 1 | None => 0 end.

(** Block [b], live as [ox] and held as [oh], in a transaction that has logged [bs]:
    it is referenced once by the log and once by its holder, and unless it has been
    logged it is as on the disk. *)
Definition pt d bs b (ox : option live) (oh : option nat) : Prop :=
  match ox with
  | Some x => lv_ref x = log_ref bs b + held_ref oh /\ lv_held x = bool_decide (is_Some oh) /\
      (forall i, oh = Some i -> lv_buf x = i) /\ (b ∈ bs \/ is_Some oh) /\ (b ∉ bs -> lv_data x = dblock d b)
  | None => b ∉ bs /\ oh = None
  end.

(** The log and the live blocks of a transaction that has logged [bs], while the
    thread holds the buffers [H]. *)
Record txn (d : diskst) (l : log) (L : gmap Z live) (H : gmap Z nat) (bs : list Z) : Prop := mktxn {
  tx_dev : l_dev l = ROOTDEV;
  tx_start : l_start l = start;
  tx_size : l_size l = nlog;
  tx_comm : l_committing l = false;
  tx_n : lh_n l = Z.of_nat (length bs);
  tx_len : length (lh_block l) = Z.to_nat LOGSIZE;
  tx_blocks : take (length bs) (lh_block l) = bs;
  tx_dup : NoDup bs;
  tx_home : Forall (fun b => blockno_ok b /\ ~ in_log start nlog b) bs;
  tx_pt : forall b, pt d bs b (L !! b) (H !! b)
}.

Lemma txn_point d l L L' H H' bs b :
  txn d l L H bs -> (forall b', b' <> b -> L' !! b' = L !! b' /\ H' !! b' = H !! b') -> pt d bs b (L' !! b) (H' !! b) ->
  txn d l L' H' bs.
Proof.
  intros X Hne Hb. destruct X as [? ? ? ? ? ? ? ? ? Hpt]. split; try done. intros b'.
  destruct (decide (b' = b)) as [->|Hn]; [done|]. destruct (Hne b' Hn) as [-> ->]. apply Hpt.
Qed.

Lemma txn_logged d l L H bs b i v r :
  txn d l L H bs -> H !! b = Some i -> b ∉ bs -> blockno_ok b -> ~ in_log start nlog b -> lh_n l < LOGSIZE ->
  r = log_ref bs b + 1 -> txn d (log_add b l) (<[b := mklive i (r + 1) true v]> L) H (bs ++ [b]).
Proof.
  intros [? ? ? ? Hn Hlen Hbs Hnd Hhome Hpt] Hi Hb Hok Hout Hfit ->. split; try done.
  - cbn. rewrite length_app. cbn. lia.
  - cbn. by rewrite length_insert.
  - cbn. change (Z.to_nat LOGSIZE) with 30%nat in *. change LOGSIZE with 30 in *.
    rewrite Hn, Nat2Z.id, length_app. cbn. rewrite Nat.add_1_r, (take_S_r _ _ b) by (apply list_lookup_insert_eq; lia).
    by rewrite take_insert_ge, Hbs by lia.
  - apply NoDup_app. split_and!; [done| |apply NoDup_singleton]. intros b' Hb' ->%list_elem_of_singleton. done.
  - apply Forall_app. split; [done|]. by apply Forall_singleton.
  - intros b'. unfold pt, log_ref. destruct (decide (b' = b)) as [->|Hne].
    + rewrite lookup_insert_eq, Hi. cbn. rewrite (decide_False (P := b ∈ bs)), (decide_True (P := b ∈ bs ++ [b])) by set_solver.
      split; [done|]. split; [done|]. split; [congruence|]. split; [right; by eexists|]. intros []. set_solver.
    + rewrite lookup_insert_ne by done. pose proof (Hpt b') as Hp. unfold pt, log_ref in Hp.
      assert (Hiff : b' ∈ bs ++ [b] <-> b' ∈ bs) by set_solver.
      destruct (L !! b') as [x|]; [|naive_solver]. rewrite (decide_ext (b' ∈ bs ++ [b]) (b' ∈ bs)) by done.
      naive_solver.
Qed.

(** What an operation leaves alone, inode table apart. *)
Record fkeep (s0 s : kstate) : Prop := mkfkeep {
  fk_kq : kq s0 s;
  fk_sb : sb s = sb s0;
  fk_disk : disk s = disk s0;
  fk_out : l_outstanding (klog s) = l_outstanding (klog s0)
}.
#[export] Instance fkeep_refl : Reflexive fkeep.
Proof. by intros s. Qed.
#[export] Instance fkeep_trans : Transitive fkeep.
Proof. intros s1 s2 s3 [] []. split; [by etrans|congruence..]. Qed.

(** Blocks of the log that an operation may still write: a thread holds at most
    two buffers, and the cache must have one for each. *)
Definition room (G : gset Z) : Prop := (size G <= 28)%nat /\ Z.of_nat (size G) + 1 < nlog.

(** Room for [n] more blocks. *)
Definition spare (n : nat) (G : gset Z) : Prop := (size G + n <= 28)%nat /\ Z.of_nat (size G + n) + 1 < nlog.

Lemma spare_room n G : spare n G -> room G.
Proof. intros [? ?]. split; lia. Qed.
Lemma spare_add n G b : spare (S n) G -> spare n ({[b]} ∪ G).
Proof.
  intros [H1 H2]. assert (size ({[b]} ∪ G) <= S (size G))%nat; [|split; lia].
  rewrite size_union_alt, size_singleton. pose proof (subseteq_size (G ∖ {[b]}) G ltac:(set_solver)). lia.
Qed.
Lemma spare_le n m G : (m <= n)%nat -> spare n G -> spare m G.
Proof. intros ? [? ?]. split; lia. Qed.
Lemma spare_in n G b : b ∈ G -> spare n G -> spare n ({[b]} ∪ G).
Proof. intros Hb Hs. by replace ({[b]} ∪ G) with G by set_solver. Qed.
Lemma spare_sub n G G' : G' ⊆ G -> spare n G -> spare n G'.
Proof. intros Hs [? ?]. apply subseteq_size in Hs. split; lia. Qed.

(** [s], reached from [s0]: blocks [c], of which the thread holds [H]; inode table
    [T] with locks [K]; every block logged so far is in [G]. *)
Record fsx (s0 s : kstate) (T : list inode) (K : nat -> sleeplock) (c : Z -> list Z) (H : gmap Z nat) (G : gset Z) : Prop := mkfsx {
  fx_keep : fkeep s0 s;
  fx_itable : itable s = T;
  fx_slocks : forall i, get_slock s (SLinode i) = K i;
  fx_room : room G;
  fx_txn : exists L bs, brep s L /\ txn (disk s) (klog s) L H bs /\ (forall b, content (disk s) L b = c b) /\
    (forall b, b ∈ bs -> b ∈ G)
}.

Lemma fsx_ext s0 s T K c c' H G : (forall b, c b = c' b) -> fsx s0 s T K c H G -> fsx s0 s T K c' H G.
Proof. intros E [? ? ? ? (L & bs & ? & ? & Hc & ?)]. split; try done. exists L, bs. split_and!; [done..| |done]. intros b. by rewrite Hc. Qed.

Lemma fsx_quiet s0 s T K c H G : fsx s0 s T K c H G -> quiet s.
Proof. intros [_ _ _ _ (L & _ & R & _)]. apply R. Qed.

Lemma fsx_sb s0 s T K c H G : fsx s0 s T K c H G -> sb s = sb s0.
Proof. intros X. apply X. Qed.

Lemma room_sub G G' : G' ⊆ G -> room G -> room G'.
Proof. intros Hs [H1 H2]. apply subseteq_size in Hs. split; lia. Qed.

Lemma fsx_more s0 s T K c H G G' : fsx s0 s T K c H G -> G ⊆ G' -> room G' -> fsx s0 s T K c H G'.
Proof. intros [? ? ? ? (L & bs & ? & ? & ? & ?)] Hs Hr. split; try done. exists L, bs. split_and!; [done..|]. set_solver. Qed.

Lemma fsx_block s0 s T K c H G b : fsx s0 s T K c H G -> block_ok (c b).
Proof. intros [_ _ _ _ (L & bs & R & _ & Hc & _)]. rewrite <- Hc. by apply brep_content. Qed.

Lemma txn_size d l L H bs G : txn d l L H bs -> (forall b, b ∈ bs -> b ∈ G) -> (size L <= size G + size H)%nat.
Proof.
  intros X Hg. rewrite <- !size_dom. transitivity (size (G ∪ dom H)); 
    [|rewrite size_union_alt; apply Nat.add_le_mono_l, subseteq_size; set_solver].
  apply subseteq_size. intros b [x Hx]%elem_of_dom. apply elem_of_union. rewrite elem_of_dom.
  pose proof (tx_pt _ _ _ _ _ X b) as Hp. rewrite Hx in Hp. destruct Hp as (_ & _ & _ & [?|?] & _); auto.
Qed.

Lemma log_size bs G : NoDup bs -> (forall b, b ∈ bs -> b ∈ G) -> (length bs <= size G)%nat.
Proof.
  intros Hn Hg. rewrite <- (size_list_to_set (C := gset Z) bs) by done. apply subseteq_size.
  intros b. rewrite elem_of_list_to_set. apply Hg.
Qed.

(** ** Steps that leave the cache and the log alone *)

Lemma brep_slocks s s' L :
  brep s L -> kq s s' -> bufs s' = bufs s -> (forall i, get_slock s' (SLbuf i) = get_slock s (SLbuf i)) ->
  disk s' = disk s -> vdsk s' = vdsk s -> brep s' L.
Proof.
  intros [Q O Hn (r & Hp & Hr) T] K Hb Hs Hd Hv.
  assert (Hg : forall j, get_buf s' j = get_buf s j) by (intros; unfold get_buf; by rewrite Hb).
  split; [by eapply kq_quiet|by apply (dd_keep s)|by rewrite Hb| |].
  - exists r. split; [done|]. eapply links_ext; [..|exact Hr]; intros; by rewrite Hg.
  - rewrite (kq_cur_pid _ _ K), Hd. eapply tab_ext; [..|exact T]; intros i _; [by rewrite Hg|by rewrite Hs].
Qed.

Lemma fsx_other s0 s s' T T' K K' c H G :
  fsx s0 s T K c H G -> kq s s' -> bufs s' = bufs s -> (forall i, get_slock s' (SLbuf i) = get_slock s (SLbuf i)) ->
  disk s' = disk s -> vdsk s' = vdsk s -> klog s' = klog s -> sb s' = sb s -> itable s' = T' ->
  (forall i, get_slock s' (SLinode i) = K' i) -> fsx s0 s' T' K' c H G.
Proof.
  intros [[K1 B1 D1 O1] _ _ Hr (L & bs & R & X & Hc & Hg)] Kq Hb Hs Hd Hv Hl Hsb HT HK.
  split; [split; [by etrans|congruence..]|done|done|done|]. exists L, bs. rewrite Hd, Hl.
  split_and!; try done. by apply (brep_slocks s).
Qed.

(** ** The rules *)

Lemma fsx_step s0 s s' T K c c' H H' G G' L' bs' :
  fsx s0 s T K c H G -> frame s s' -> disk s' = disk s -> l_outstanding (klog s') = l_outstanding (klog s) -> brep s' L' -> txn (disk s) (klog s') L' H' bs' ->
  (forall b, content (disk s) L' b = c' b) -> (forall b, b ∈ bs' -> b ∈ G') -> room G' ->
  fsx s0 s' T K c' H' G'.
Proof.
  intros [[K1 B1 D1 O1] <- Hs _ _] [K2 I2 B2 S2] Hd Ho R X Hc Hg Hr.
  split; [split; [by etrans|congruence..]|done|intros i; by rewrite S2|done|].
  rewrite Hd. by exists L', bs'.
Qed.

Context (s0 : kstate) {A : Type}.
Implicit Types (Q : A -> kstate -> Prop).

Section Step.
Context (s : kstate) (T : list inode) (K : nat -> sleeplock) (c : Z -> list Z) (H : gmap Z nat) (G : gset Z) (b : Z) (e : env).
Hypothesis (X : fsx s0 s T K c H G).

Lemma wp_fbread (k : nat -> M A) Q :
  H !! b = None -> (size H <= 1)%nat -> blockno_ok b ->
  (forall i s', fsx s0 s' T K c (<[b := i]> H) G -> runs (k i) s' e Q) ->
  runs (bread ROOTDEV b ≫= k) s e Q.
Proof.
  intros Hb Hsz Hok Hk. pose proof X as [_ _ _ Hr (L & bs & R & X1 & Hc & Hg)].
  pose proof (txn_size _ _ _ _ _ G X1 Hg) as HL.
  eapply (wp_bread s); [by apply cst_start| |done|].
  pose proof (tx_pt _ _ _ _ _ X1 b) as Hp. rewrite Hb in Hp.
  { unfold can_get. destruct (L !! b) as [x|] eqn:E.
    - by destruct Hp as (_ & -> & _).
    - destruct Hr. change HEAD with 30%nat. lia. }
  intros i s' [R' Hd' Hl' F'] Hi. apply Hk. eapply (fsx_step s0 s); [exact X|exact F'|exact Hd'|by rewrite Hl'|exact R'| | |exact Hg|exact Hr].
  - rewrite Hl'. apply (txn_point _ _ L _ H _ _ b X1); unfold get_live.
    + intros b' Hn. by rewrite !lookup_insert_ne.
    + rewrite !lookup_insert_eq. cbn. unfold live_ref, content. pose proof (tx_pt _ _ _ _ _ X1 b) as Hp. rewrite Hb in Hp.
      destruct (L !! b) as [x|]; cbn in Hp |- *.
      * destruct Hp as (-> & _ & _ & _ & Hp). split; [cbn; lia|]. split; [done|]. split; [congruence|]. split; [right; by eexists|done].
      * destruct Hp as [Hn _]. unfold log_ref. rewrite decide_False by done. split; [done|]. split; [done|]. split; [congruence|].
        split; [right; by eexists|done].
  - intros b'. rewrite <- Hc. unfold get_live, content. destruct (decide (b' = b)) as [->|]; [by rewrite lookup_insert_eq|].
    by rewrite lookup_insert_ne by done.
Qed.

Context (i : nat).
Hypothesis (Hb : H !! b = Some i).

Lemma held_live L bs : txn (disk s) (klog s) L H bs -> (forall b, content (disk s) L b = c b) ->
  exists x, L !! b = Some x /\ lv_buf x = i /\ lv_held x = true /\ lv_data x = c b /\ lv_ref x = log_ref bs b + 1 /\
    (b ∉ bs -> lv_data x = dblock (disk s) b).
Proof.
  intros X1 Hc. pose proof (tx_pt _ _ _ _ _ X1 b) as Hp. rewrite Hb in Hp. pose proof (Hc b) as Hcb. unfold content in Hcb.
  destruct (L !! b) as [x|]; [|by destruct Hp]. exists x. destruct Hp as (Hr & Hh & Hi & _ & Hd).
  split_and!; auto.
Qed.

Lemma wp_fbdata (k : list Z -> M A) Q : runs (k (c b)) s e Q -> runs (bdata i ≫= k) s e Q.
Proof.
  intros Hk. pose proof X as [_ _ _ _ (L & bs & R & X1 & Hc & Hg)].
  destruct (held_live L bs X1 Hc) as (x & Hx & <- & _ & Hd & _ & _).
  eapply (wp_bdata s s (klog s) L (disk s) b x); [by apply cst_start|done|]. by rewrite Hd.
Qed.

Lemma wp_fbrelse (k : unit -> M A) Q :
  (forall s', fsx s0 s' T K c (delete b H) G -> runs (k ()) s' e Q) -> runs (brelse i ≫= k) s e Q.
Proof.
  intros Hk. pose proof X as [_ _ _ Hr (L & bs & R & X1 & Hc & Hg)].
  destruct (held_live L bs X1 Hc) as (x & Hx & <- & Hh & Hd & Href & Hcl).
  assert (Hput : put_live L b x = if decide (b ∈ bs) then <[b := mklive (lv_buf x) 1 false (lv_data x)]> L else delete b L).
  { unfold put_live. rewrite Href. unfold log_ref. by case_decide. }
  eapply (wp_brelse s s (klog s) L (disk s) b x); [by apply cst_start|done|done| |].
  { rewrite Href. unfold log_ref. case_decide as E; [lia|]. intros _. by apply Hcl. }
  intros s' [R' Hd' Hl' F']. apply Hk. rewrite Hput in R'.
  eapply (fsx_step s0 s); [exact X|exact F'|exact Hd'|by rewrite Hl'|exact R'| | |exact Hg|exact Hr].
  - rewrite Hl'. apply (txn_point _ _ L _ H _ _ b X1).
    + intros b' Hn. rewrite lookup_delete_ne by done. by case_decide; rewrite ?lookup_insert_ne, ?lookup_delete_ne.
    + rewrite lookup_delete_eq. case_decide as E; [rewrite lookup_insert_eq|by rewrite lookup_delete_eq].
      unfold pt, log_ref. rewrite decide_True by done. split; [done|]. split; [done|]. split; [done|]. split; [by left|done].
  - intros b'. rewrite <- Hc. unfold content. destruct (decide (b' = b)) as [->|].
    + rewrite Hx. case_decide as E; [by rewrite lookup_insert_eq|]. rewrite lookup_delete_eq. symmetry. by apply Hcl.
    + by case_decide; rewrite ?lookup_insert_ne, ?lookup_delete_ne by done.
Qed.

(** A store into a held block, and its [log_write]. *)
Lemma wp_fupdate v (k : unit -> M A) Q :
  l_outstanding (klog s0) = 1 -> block_ok v -> blockno_ok b -> ~ in_log start nlog b -> room ({[b]} ∪ G) ->
  (forall s', fsx s0 s' T K (bupd c b v) H ({[b]} ∪ G) -> runs (k ()) s' e Q) ->
  runs (set_bdata i v ≫= fun _ => log_write i ≫= k) s e Q.
Proof.
  intros Hopen Hv Hok Hout Hr Hk. pose proof X as [_ _ _ _ (L & bs & R & X1 & Hc & Hg)].
  destruct (held_live L bs X1 Hc) as (x & Hx & <- & Hh & _ & Href & Hcl).
  eapply (wp_set_bdata s s (klog s) L (disk s) b x); [by apply cst_start|done|done|]. intros s1 C1.
  set (x1 := mklive (lv_buf x) (lv_ref x) (lv_held x) v) in *.
  assert (Hlog : (length bs <= size G)%nat) by (apply log_size; [apply X1|done]).
  assert (Hg' : forall b', b' ∈ bs -> b' ∈ {[b]} ∪ G) by (intros b' Hb'; apply elem_of_union_r; auto).
  assert (Hcont : forall (ref : Z) b', content (disk s) (<[b := mklive (lv_buf x) ref (lv_held x) v]> L) b' = bupd c b v b').
  { intros ref b'. unfold content, bupd. case_decide as E; [subst; by rewrite lookup_insert_eq|].
    rewrite lookup_insert_ne by done. apply Hc. }
  assert (Hfit : lh_n (klog s) < LOGSIZE /\ lh_n (klog s) < l_size (klog s) - 1).
  { rewrite (tx_n _ _ _ _ _ X1), (tx_size _ _ _ _ _ X1). change LOGSIZE with 30.
    pose proof (fx_room _ _ _ _ _ _ _ X) as [? ?]. lia. }
  apply runs_bind. destruct (decide (b ∈ bs)) as [Hin|Hnin].
  - eapply runs_mono; [eapply (log_write_absorbs s s1 _ _ _ bs b x1); [exact C1|by simplify_map_eq|apply X1..| |exact Hfit|done]|].
    { rewrite (fk_out _ _ (fx_keep _ _ _ _ _ _ _ X)), Hopen. lia. }
    cbn beta. intros [] s2 [R2 Hd2 Hl2 F2]. apply Hk.
    eapply (fsx_step s0 s); [exact X|exact F2|exact Hd2|by rewrite Hl2|exact R2| |apply Hcont|exact Hg'|exact Hr].
    rewrite Hl2. apply (txn_point _ _ L _ H _ _ b X1); [intros b' Hn; by rewrite lookup_insert_ne|].
    rewrite lookup_insert_eq, Hb. pose proof (tx_pt _ _ _ _ _ X1 b) as Hp. rewrite Hx, Hb in Hp. cbn in Hp |- *. naive_solver.
  - eapply runs_mono; [eapply (log_write_adds s s1 _ _ _ bs b x1); [exact C1|by simplify_map_eq|apply X1..| |exact Hfit|done]|].
    { rewrite (fk_out _ _ (fx_keep _ _ _ _ _ _ _ X)), Hopen. lia. }
    cbn beta. intros [] s2 [R2 Hd2 Hl2 F2]. apply Hk. rewrite insert_insert_eq in R2. subst x1. cbn [lv_buf lv_ref lv_held lv_data] in R2.
    eapply (fsx_step s0 s _ _ _ _ _ _ _ _ _ _ (bs ++ [b])); [exact X|exact F2|exact Hd2|by rewrite Hl2|exact R2| |apply Hcont| |exact Hr].
    + rewrite Hl2, Hh. apply txn_logged; try done. lia.
    + intros b'. rewrite elem_of_app, list_elem_of_singleton. intros [?| ->]; [auto|set_solver].
Qed.

End Step.

End FsWp.

Lemma fupdate_runs {D : DiskDriver} {DL : DiskLaws} start nlog s0 s T K c H G b e i v :
  fsx start nlog s0 s T K c H G -> H !! b = Some i -> l_outstanding (klog s0) = 1 -> block_ok v -> blockno_ok b -> ~ in_log start nlog b ->
  room nlog ({[b]} ∪ G) ->
  runs (set_bdata i v;; log_write i) s e (fun _ s' => fsx start nlog s0 s' T K (bupd c b v) H ({[b]} ∪ G)).
Proof.
  intros X Hb Hopen Hv Hok Hout Hr. apply runs_last. unfold runs. setoid_rewrite bind_assoc.
  apply (wp_fupdate start nlog s0 s T K c H G b e X i Hb v mret _ Hopen Hv Hok Hout Hr). intros s' X'. by apply runs_ret.
Qed.
