(* ===== verification/Fs.v ===== *)
(** * kernel/fs.c: blocks, inodes, directories and path names, with
    [either_copyout] and [either_copyin] of kernel/proc.c

    On-disk structures are read and written in block buffers at their byte
    offsets: [struct dinode] (type, major, minor and nlink of two bytes, size
    and thirteen addresses of four) and [struct dirent] (a two-byte inode
    number and a fourteen-byte name).  Kernel character arrays are byte lists. *)

From stdpp Require Import base gmap strings numbers list.
From Stdlib Require Import Ascii.
From S2P Require Import Prelude KState Sample StringC Spinlock Sched Sleeplock Uart Printf Kalloc Vm Bio Log.

(** Where [readi] puts its bytes: user memory, physical memory, or a local
    variable of the caller, which gets them as part of the result. *)
Inductive kdst : Type := UserDst (va : Z) | PhysDst (pa : Z) | LocalDst.
(** Where [writei] takes its bytes from. *)
Inductive ksrc : Type := UserSrc (va : Z) | LocalSrc (bs : list Z).

Definition dst_add (d : kdst) (m : Z) : kdst :=
  match d with
  | UserDst va => UserDst (u64 (va + m))
  | PhysDst pa => PhysDst (pa + m)
  | LocalDst => LocalDst
  end.
Definition src_add (d : ksrc) (m : Z) : ksrc :=
  match d with
  | UserSrc va => UserSrc (u64 (va + m))
  | LocalSrc bs => LocalSrc (drop (Z.to_nat m) bs)
  end.

Definition IBLOCK (i : Z) (b : superblock) : Z := i / IPB + sb_inodestart b.
Definition BBLOCK (b : Z) (s : superblock) : Z := b / BPB + sb_bmapstart s.

(** [struct stat] *)
Record kstat : Type := mkstat {
  st_dev : Z; st_ino : Z; st_type : Z; st_nlink : Z; st_size : Z
}.

Section Fs.
Context {L : Layout} {D : DiskDriver}.

Definition either_copyout (dst : kdst) (src : list Z) (len : Z) : M Z :=
  me ← myproc;
  match dst with
  | UserDst va =>
      p ← deref me;
      pr ← gets (fun s => get_proc s p);
      copyout (p_pagetable pr) va src len
  | PhysDst pa => modify (upd_mem (fun m => st_bytes m pa (take (Z.to_nat len) src)));; mret 0
  | LocalDst => mret 0
  end.

(** The status and the bytes stored. *)
Definition either_copyin (src : ksrc) (len : Z) : M (Z * list Z) :=
  me ← myproc;
  match src with
  | UserSrc va =>
      p ← deref me;
      pr ← gets (fun s => get_proc s p);
      copyin (p_pagetable pr) va len
  | LocalSrc bs => mret (0, take (Z.to_nat len) bs)
  end.

(** ** Blocks *)

Definition readsb (dev : Z) : M unit :=
  bp ← bread dev 1;
  d ← bdata bp;
  let w i := get_le d (4 * i) 4 in
  modify (set_sb (mksuperblock (w 0%nat) (w 1%nat) (w 2%nat) (w 3%nat) (w 4%nat) (w 5%nat) (w 6%nat) (w 7%nat)));;
  brelse bp.

Definition fsinit (dev : Z) : M unit :=
  readsb dev;;
  b ← gets sb;
  if negb (sb_magic b =? FSMAGIC) then kpanic "invalid file system" else
  initlog dev.

Definition bzero (dev bno : Z) : M unit :=
  bp ← bread dev bno;
  set_bdata bp (replicate (Z.to_nat BSIZE) 0);;
  log_write bp;;
  brelse bp.

(** bp->data[bi/8] & (1 << (bi % 8)) *)
Definition bit_set (d : list Z) (bi : Z) : bool :=
  negb (Z.land (nth (Z.to_nat (bi / 8)) d 0) (Z.shiftl 1 (bi mod 8)) =? 0).

(** for(bi = 0; bi < BPB && b + bi < sb.size; bi++): the first clear bit. *)
Fixpoint bit_scan (n : nat) (d : list Z) (b bi size : Z) : option Z :=
  match n with
  | O => None
  | S n' =>
      if negb (b + bi <? size) then None
      else if bit_set d bi then bit_scan n' d b (bi + 1) size
      else Some bi
  end.

Definition mark_used (d : list Z) (bi : Z) : list Z :=
  alter (fun x => Z.lor x (Z.shiftl 1 (bi mod 8))) (Z.to_nat (bi / 8)) d.
(** [&= ~m] on a byte *)
Definition mark_free (d : list Z) (bi : Z) : list Z :=
  alter (fun x => Z.land x (u8 (Z.lnot (Z.shiftl 1 (bi mod 8))))) (Z.to_nat (bi / 8)) d.

(** for(b = 0; b < sb.size; b += BPB) *)
Fixpoint balloc_loop (n : nat) (dev b : Z) : M Z :=
  match n with
  | O => kspin
  | S n' =>
      sbk ← gets sb;
      if negb (b <? sb_size sbk) then
        printf (zstr "balloc: out of blocks" ++ [10]) [];; mret 0
      else
      bp ← bread dev (BBLOCK b sbk);
      d ← bdata bp;
      match bit_scan (Z.to_nat BPB) d b 0 (sb_size sbk) with
      | Some bi =>
          set_bdata bp (mark_used d bi);;
          log_write bp;;
          brelse bp;;
          bzero dev (b + bi);;
          mret (b + bi)
      | None =>
          brelse bp;;
          balloc_loop n' dev (b + BPB)
      end
  end.
Definition balloc (dev : Z) : M Z :=
  sbk ← gets sb;
  balloc_loop (Z.to_nat (sb_size sbk / BPB + 2)) dev 0.

Definition bfree (dev b : Z) : M unit :=
  sbk ← gets sb;
  bp ← bread dev (BBLOCK b sbk);
  d ← bdata bp;
  let bi := b mod BPB in
  if negb (bit_set d bi) then kpanic "freeing free block" else
  set_bdata bp (mark_free d bi);;
  log_write bp;;
  brelse bp.

(** ** Inodes *)

Definition inodeget (ip : nat) : M inode := gets (fun s => get_inode s ip).
Definition inodeset (ip : nat) (f : inode -> inode) : M unit := modify (upd_inode ip f).

Definition iinit : M unit :=
  initlock Litable "itable";;
  for_each (seq 0 (Z.to_nat NINODE)) (fun i => initsleeplock (SLinode i) "inode").

(** The loop of [iget]: a match, or the first free entry. *)
Fixpoint iget_scan (l : list inode) (i : nat) (dev inum : Z) (empty : option nat) :
    option nat * option nat :=
  match l with
  | [] => (None, empty)
  | ip :: l' =>
      if (0 <? i_ref ip) && (i_dev ip =? dev) && (i_inum ip =? inum) then (Some i, empty)
      else iget_scan l' (S i) dev inum
        (match empty with
         | None => if i_ref ip =? 0 then Some i else None
         | Some _ => empty
         end)
  end.

Definition iget (dev inum : Z) : M nat :=
  acquire Litable;;
  t ← gets itable;
  match iget_scan t 0 dev inum None with
  | (Some ip, _) =>
      inodeset ip (fun x => set_i_ref (i_ref x + 1) x);;
      release Litable;;
      mret ip
  | (None, None) => kpanic "iget: no inodes"
  | (None, Some ip) =>
      inodeset ip (set_i_dev dev);;
      inodeset ip (set_i_inum inum);;
      inodeset ip (set_i_ref 1);;
      inodeset ip (set_i_valid false);;
      release Litable;;
      mret ip
  end.

(** Offset of an inode in its block, and the fields of [struct dinode]. *)
Definition dinode_off (inum : Z) : nat := Z.to_nat ((inum mod IPB) * DINODE_SIZE).
Definition di_type (d : list Z) (o : nat) : Z := i16 (get_le d o 2).
Definition di_addr (d : list Z) (o : nat) (i : nat) : Z := get_le d (o + 12 + 4 * i) 4.

(** for(inum = 1; inum < sb.ninodes; inum++) *)
Fixpoint ialloc_loop (n : nat) (dev type inum : Z) : M (option nat) :=
  match n with
  | O => kspin
  | S n' =>
      sbk ← gets sb;
      if negb (inum <? sb_ninodes sbk) then
        printf (zstr "ialloc: no inodes" ++ [10]) [];; mret None
      else
      bp ← bread dev (IBLOCK inum sbk);
      d ← bdata bp;
      let o := dinode_off inum in
      if di_type d o =? 0 then
        set_bdata bp (put_le (splice d o (replicate (Z.to_nat DINODE_SIZE) 0)) o 2 type);;
        log_write bp;;
        brelse bp;;
        ip ← iget dev inum;
        mret (Some ip)
      else
        brelse bp;;
        ialloc_loop n' dev type (inum + 1)
  end.
Definition ialloc (dev type : Z) : M (option nat) :=
  sbk ← gets sb;
  ialloc_loop (S (Z.to_nat (sb_ninodes sbk))) dev type 1.

(** The inode's fields stored into its [struct dinode]. *)
Definition dinode_store (d : list Z) (o : nat) (x : inode) : list Z :=
  let d := put_le d o 2 (i_type x) in
  let d := put_le d (o + 2) 2 (i_major x) in
  let d := put_le d (o + 4) 2 (i_minor x) in
  let d := put_le d (o + 6) 2 (i_nlink x) in
  let d := put_le d (o + 8) 4 (i_size x) in
  splice d (o + 12) (mjoin (le_bytes 4 <$> i_addrs x)).

Definition iupdate (ip : nat) : M unit :=
  x ← inodeget ip;
  sbk ← gets sb;
  bp ← bread (i_dev x) (IBLOCK (i_inum x) sbk);
  x ← inodeget ip;
  d ← bdata bp;
  set_bdata bp (dinode_store d (dinode_off (i_inum x)) x);;
  log_write bp;;
  brelse bp.

Definition idup (ip : nat) : M nat :=
  acquire Litable;;
  inodeset ip (fun x => set_i_ref (i_ref x + 1) x);;
  release Litable;;
  mret ip.

(** The fields read from a [struct dinode]. *)
Definition dinode_load (d : list Z) (o : nat) (x : inode) : inode :=
  let x := set_i_type (i16 (get_le d o 2)) x in
  let x := set_i_major (i16 (get_le d (o + 2) 2)) x in
  let x := set_i_minor (i16 (get_le d (o + 4) 2)) x in
  let x := set_i_nlink (i16 (get_le d (o + 6) 2)) x in
  let x := set_i_size (get_le d (o + 8) 4) x in
  set_i_addrs ((fun i => di_addr d o i) <$> seq 0 13) x.

Definition ilock (ip : option nat) : M unit :=
  match ip with
  | None => kpanic "ilock"
  | Some ip =>
      x ← inodeget ip;
      if i_ref x <? 1 then kpanic "ilock" else
      acquiresleep (SLinode ip);;
      x ← inodeget ip;
      if i_valid x then mret () else
      sbk ← gets sb;
      bp ← bread (i_dev x) (IBLOCK (i_inum x) sbk);
      d ← bdata bp;
      inodeset ip (dinode_load d (dinode_off (i_inum x)));;
      brelse bp;;
      inodeset ip (set_i_valid true);;
      x ← inodeget ip;
      if i_type x =? 0 then kpanic "ilock: no type" else mret ()
  end.

Definition iunlock (ip : option nat) : M unit :=
  match ip with
  | None => kpanic "iunlock"
  | Some ip =>
      h ← holdingsleep (SLinode ip);
      if negb h then kpanic "iunlock" else
      x ← inodeget ip;
      if i_ref x <? 1 then kpanic "iunlock" else
      releasesleep (SLinode ip)
  end.

(** ** Inode contents *)

Definition set_addr (i : nat) (a : Z) (x : inode) : inode := set_i_addrs (<[i := a]> (i_addrs x)) x.
Definition get_addr (x : inode) (i : nat) : Z := nth i (i_addrs x) 0.

Definition bmap (ip : nat) (bn : Z) : M Z :=
  x ← inodeget ip;
  if bn <? NDIRECT then
    let addr := get_addr x (Z.to_nat bn) in
    if negb (addr =? 0) then mret addr else
    addr ← balloc (i_dev x);
    if addr =? 0 then mret 0 else
    inodeset ip (set_addr (Z.to_nat bn) addr);;
    mret addr
  else
  let bn := bn - NDIRECT in
  if bn <? NINDIRECT then
    let addr := get_addr x (Z.to_nat NDIRECT) in
    addr ← (if negb (addr =? 0) then mret addr else
            addr ← balloc (i_dev x);
            when (negb (addr =? 0)) (inodeset ip (set_addr (Z.to_nat NDIRECT) addr));;
            mret addr);
    if addr =? 0 then mret 0 else
    bp ← bread (i_dev x) addr;
    d ← bdata bp;
    let addr := get_le d (4 * Z.to_nat bn) 4 in
    addr ← (if negb (addr =? 0) then mret addr else
            addr ← balloc (i_dev x);
            when (negb (addr =? 0))
              (d ← bdata bp;
               set_bdata bp (put_le d (4 * Z.to_nat bn) 4 addr);;
               log_write bp);;
            mret addr);
    brelse bp;;
    mret addr
  else kpanic "bmap: out of range".

Definition itrunc (ip : nat) : M unit :=
  for_each (seq 0 (Z.to_nat NDIRECT)) (fun i =>
    x ← inodeget ip;
    when (negb (get_addr x i =? 0))
      (bfree (i_dev x) (get_addr x i);;
       inodeset ip (set_addr i 0)));;
  x ← inodeget ip;
  let ind := get_addr x (Z.to_nat NDIRECT) in
  when (negb (ind =? 0))
    (bp ← bread (i_dev x) ind;
     for_each (seq 0 (Z.to_nat NINDIRECT)) (fun j =>
       d ← bdata bp;
       when (negb (get_le d (4 * j) 4 =? 0)) (bfree (i_dev x) (get_le d (4 * j) 4)));;
     brelse bp;;
     x ← inodeget ip;
     bfree (i_dev x) (get_addr x (Z.to_nat NDIRECT));;
     inodeset ip (set_addr (Z.to_nat NDIRECT) 0));;
  inodeset ip (set_i_size 0);;
  iupdate ip.

Definition iput (ip : nat) : M unit :=
  acquire Litable;;
  x ← inodeget ip;
  when ((i_ref x =? 1) && i_valid x && (i_nlink x =? 0))
    (acquiresleep (SLinode ip);;
     release Litable;;
     itrunc ip;;
     inodeset ip (set_i_type 0);;
     iupdate ip;;
     inodeset ip (set_i_valid false);;
     releasesleep (SLinode ip);;
     acquire Litable);;
  inodeset ip (fun x => set_i_ref (i_ref x - 1) x);;
  release Litable.

Definition iunlockput (ip : nat) : M unit :=
  iunlock (Some ip);;
  iput ip.

Definition stati (ip : nat) : M kstat :=
  x ← inodeget ip;
  mret (mkstat (i_dev x) (i_inum x) (i_type x) (i_nlink x) (i_size x)).

(** for(tot=0; tot<n; tot+=m, off+=m, dst+=m); a round moves at least a byte
    and all but the first and last move a block. *)
Fixpoint readi_loop (k : nat) (ip : nat) (dst : kdst) (off tot n : Z) (out : list Z) :
    M (Z * list Z) :=
  match k with
  | O => kspin
  | S k' =>
      if negb (tot <? n) then mret (tot, out) else
      addr ← bmap ip (off / BSIZE);
      if addr =? 0 then mret (tot, out) else
      x ← inodeget ip;
      bp ← bread (i_dev x) addr;
      let m := Z.min (n - tot) (BSIZE - off mod BSIZE) in
      d ← bdata bp;
      let bs := slice d (Z.to_nat (off mod BSIZE)) (Z.to_nat m) in
      r ← either_copyout dst bs m;
      if r =? -1 then brelse bp;; mret (-1, out) else
      brelse bp;;
      readi_loop k' ip (dst_add dst m) (off + m) (tot + m) n (out ++ bs)
  end.
Definition readi (ip : nat) (dst : kdst) (off n : Z) : M (Z * list Z) :=
  x ← inodeget ip;
  if (i_size x <? off) || (u32 (off + n) <? off) then mret (0, []) else
  let n := if i_size x <? off + n then i_size x - off else n in
  readi_loop (Z.to_nat (n / BSIZE + 3)) ip dst off 0 n [].

Fixpoint writei_loop (k : nat) (ip : nat) (src : ksrc) (off tot n : Z) : M (Z * Z) :=
  match k with
  | O => kspin
  | S k' =>
      if negb (tot <? n) then mret (tot, off) else
      addr ← bmap ip (off / BSIZE);
      if addr =? 0 then mret (tot, off) else
      x ← inodeget ip;
      bp ← bread (i_dev x) addr;
      let m := Z.min (n - tot) (BSIZE - off mod BSIZE) in
      '(r, bs) ← either_copyin src m;
      d ← bdata bp;
      set_bdata bp (splice d (Z.to_nat (off mod BSIZE)) bs);;
      if r =? -1 then brelse bp;; mret (tot, off) else
      log_write bp;;
      brelse bp;;
      writei_loop k' ip (src_add src m) (off + m) (tot + m) n
  end.
Definition writei (ip : nat) (src : ksrc) (off n : Z) : M Z :=
  x ← inodeget ip;
  if (i_size x <? off) || (u32 (off + n) <? off) then mret (-1) else
  if MAXFILE * BSIZE <? off + n then mret (-1) else
  '(tot, off) ← writei_loop (Z.to_nat (n / BSIZE + 3)) ip src off 0 n;
  x ← inodeget ip;
  when (i_size x <? off) (inodeset ip (set_i_size off));;
  iupdate ip;;
  mret tot.

(** ** Directories *)

Definition namecmp (s t : list Z) : Z := strncmp s t DIRSIZ.

Definition de_inum (de : list Z) : Z := get_le de 0 2.
Definition de_name (de : list Z) : list Z := drop 2 de.

(** for(off = 0; off < dp->size; off += sizeof(de)) *)
Fixpoint dirlookup_loop (k : nat) (dp : nat) (name : list Z) (off : Z) : M (option (nat * Z)) :=
  match k with
  | O => kspin
  | S k' =>
      x ← inodeget dp;
      if negb (off <? i_size x) then mret None else
      '(r, de) ← readi dp LocalDst off DIRENT_SIZE;
      if negb (r =? DIRENT_SIZE) then kpanic "dirlookup read" else
      if de_inum de =? 0 then dirlookup_loop k' dp name (off + DIRENT_SIZE) else
      if namecmp name (de_name de) =? 0 then
        x ← inodeget dp;
        ip ← iget (i_dev x) (de_inum de);
        mret (Some (ip, off))
      else dirlookup_loop k' dp name (off + DIRENT_SIZE)
  end.
(** The inode and the offset of its entry. *)
Definition dirlookup (dp : nat) (name : list Z) : M (option (nat * Z)) :=
  x ← inodeget dp;
  if negb (i_type x =? T_DIR) then kpanic "dirlookup not DIR" else
  dirlookup_loop (Z.to_nat (i_size x / DIRENT_SIZE + 2)) dp name 0.

(** The offset of a free entry, or the end, and the entry last read. *)
Fixpoint dirlink_scan (k : nat) (dp : nat) (off : Z) (de : list Z) : M (Z * list Z) :=
  match k with
  | O => kspin
  | S k' =>
      x ← inodeget dp;
      if negb (off <? i_size x) then mret (off, de) else
      '(r, de) ← readi dp LocalDst off DIRENT_SIZE;
      if negb (r =? DIRENT_SIZE) then kpanic "dirlink read" else
      if de_inum de =? 0 then mret (off, de) else
      dirlink_scan k' dp (off + DIRENT_SIZE) de
  end.

Definition dirlink (dp : nat) (name : list Z) (inum : Z) : M Z :=
  found ← dirlookup dp name;
  match found with
  | Some (ip, _) => iput ip;; mret (-1)
  | None =>
      x ← inodeget dp;
      '(off, de) ← dirlink_scan (Z.to_nat (i_size x / DIRENT_SIZE + 2)) dp 0
        (replicate (Z.to_nat DIRENT_SIZE) 0);
      let de := le_bytes 2 inum ++ strncpy (de_name de) name DIRSIZ in
      r ← writei dp (LocalSrc de) off DIRENT_SIZE;
      if negb (r =? DIRENT_SIZE) then mret (-1) else mret 0
  end.

(** ** Path names *)

Fixpoint skip_slashes (p : list Z) : list Z :=
  match p with
  | c :: p' => if c =? chr "/" then skip_slashes p' else p
  | [] => []
  end.
(** The path element at the front, and what follows it. *)
Fixpoint elem_split (p : list Z) : list Z * list Z :=
  match p with
  | c :: p' =>
      if (c =? chr "/") || (c =? 0) then ([], p)
      else let '(a, r) := elem_split p' in (c :: a, r)
  | [] => ([], [])
  end.

(** The rest of the path and the contents of [name] afterwards. *)
Definition skipelem (path name : list Z) : option (list Z * list Z) :=
  let path := skip_slashes path in
  if ch path =? 0 then None else
  let '(s, path) := elem_split path in
  let name :=
    if (Z.to_nat DIRSIZ <=? length s)%nat then take (Z.to_nat DIRSIZ) s
    else s ++ 0 :: drop (S (length s)) name in
  Some (skip_slashes path, name).

Fixpoint namex_loop (k : nat) (ip : nat) (path : list Z) (nameiparent : bool) (name : list Z) :
    M (option nat * list Z) :=
  match k with
  | O => kspin
  | S k' =>
      match skipelem path name with
      | Some (path, name) =>
          ilock (Some ip);;
          x ← inodeget ip;
          if negb (i_type x =? T_DIR) then iunlockput ip;; mret (None, name) else
          if nameiparent && (ch path =? 0) then iunlock (Some ip);; mret (Some ip, name) else
          next ← dirlookup ip name;
          match next with
          | None => iunlockput ip;; mret (None, name)
          | Some (next, _) => iunlockput ip;; namex_loop k' next path nameiparent name
          end
      | None =>
          if nameiparent then iput ip;; mret (None, name)
          else mret (Some ip, name)
      end
  end.

Definition namex (path : list Z) (nameiparent : bool) : M (option nat * list Z) :=
  ip ← (if ch path =? chr "/" then iget ROOTDEV ROOTINO
        else
          me ← myproc;
          p ← deref me;
          pr ← gets (fun s => get_proc s p);
          cwd ← deref (p_cwd pr);
          idup cwd);
  namex_loop (S (length path)) ip path nameiparent (replicate (Z.to_nat DIRSIZ) 0).

Definition namei (path : list Z) : M (option nat) :=
  '(ip, _) ← namex path false;
  mret ip.

Definition nameiparent (path : list Z) : M (option nat * list Z) := namex path true.

End Fs.
