(* ===== verification/FsBlocks.v ===== *)
(** * kernel/fs.c: the block bitmap

    [balloc] and [bfree] keep the set of blocks in use: the bit of a block says
    whether it is allocated, allocation takes the first free block and clears it,
    and no block is handed out twice. *)

From stdpp Require Import base gmap strings numbers list.
From Stdlib Require Import Ascii.
From S2P Require Import Prelude KState Sample StringC Spinlock Sched Sleeplock Quiet Uart Printf Bio BufCache BufRefine Log LogDisk BufWp LogRun LogSafe LogOps Transaction FsWp Fs.

(** ** Bits *)

Lemma land_bit x k : 0 <= k -> (Z.land x (Z.shiftl 1 k) =? 0) = negb (Z.testbit x k).
Proof.
  intros Hk. rewrite Z.shiftl_1_l. destruct (Z.testbit x k) eqn:E; cbn.
  - apply Z.eqb_neq. intros H0. apply (f_equal (fun z => Z.testbit z k)) in H0.
    by rewrite Z.land_spec, E, Z.pow2_bits_true, Z.bits_0 in H0.
  - apply Z.eqb_eq. apply Z.bits_inj'. intros j Hj. rewrite Z.land_spec, Z.bits_0.
    destruct (decide (j = k)) as [->|]; [by rewrite E|]. rewrite (Z.pow2_bits_false k j) by lia. apply andb_false_r.
Qed.

Lemma bit_set_testbit d bi : 0 <= bi -> bit_set d bi = Z.testbit (nth (Z.to_nat (bi / 8)) d 0) (bi mod 8).
Proof. intros. unfold bit_set. rewrite land_bit by (apply Z.mod_pos_bound; lia). apply negb_involutive. Qed.

Lemma byte_bit_eq i j : 0 <= i -> 0 <= j -> Z.to_nat (i / 8) = Z.to_nat (j / 8) -> i mod 8 = j mod 8 -> i = j.
Proof.
  intros Hi Hj H1 H2. apply Z2Nat.inj in H1; [|by apply Z.div_pos; lia..].
  pose proof (Z.div_mod i 8). pose proof (Z.div_mod j 8). lia.
Qed.

Lemma nth_alter (f : Z -> Z) (d : list Z) i j : (i < length d)%nat -> nth j (alter f i d) 0 = if decide (j = i) then f (nth i d 0) else nth j d 0.
Proof.
  intros Hi. rewrite !nth_lookup. case_decide as E.
  - subst. rewrite list_lookup_alter_eq. destruct (d !! i) eqn:Hd; [done|]. apply lookup_ge_None in Hd. lia.
  - by rewrite list_lookup_alter_ne by done.
Qed.

(** Changing the bit [bi] of a block by [f] on its byte. *)
Lemma alter_bit (f : Z -> Z) v d bi bj :
  block_ok d -> 0 <= bi < BPB -> 0 <= bj < BPB ->
  (forall x k, 0 <= k < 8 -> Z.testbit (f x) k = if decide (k = bi mod 8) then v else Z.testbit x k) ->
  bit_set (alter f (Z.to_nat (bi / 8)) d) bj = if decide (bj = bi) then v else bit_set d bj.
Proof.
  intros Hd Hi Hj Hf. rewrite !bit_set_testbit by lia.
  assert (Hlt : forall b, 0 <= b < BPB -> (Z.to_nat (b / 8) < 1024)%nat).
  { intros b Hb. change BPB with 8192 in Hb. pose proof (Z.div_lt_upper_bound b 8 1024). pose proof (Z.div_pos b 8). lia. }
  rewrite nth_alter by (unfold block_ok in Hd; rewrite Hd; by apply Hlt).
  destruct (decide (Z.to_nat (bj / 8) = Z.to_nat (bi / 8))) as [E1|E1]; [rewrite Hf by (apply Z.mod_pos_bound; lia)|].
  - destruct (decide (bj mod 8 = bi mod 8)) as [E2|E2].
    + rewrite decide_True; [done|]. apply byte_bit_eq; lia || done.
    + rewrite decide_False by (by intros ->). by rewrite E1.
  - by rewrite decide_False by (by intros ->).
Qed.

Lemma bit_set_used d bi bj :
  block_ok d -> 0 <= bi < BPB -> 0 <= bj < BPB -> bit_set (mark_used d bi) bj = if decide (bj = bi) then true else bit_set d bj.
Proof.
  intros Hd Hi Hj. apply alter_bit; try done. intros x k Hk. rewrite Z.lor_spec, Z.shiftl_1_l.
  case_decide as E; [subst; by rewrite Z.pow2_bits_true, orb_true_r by lia|].
  rewrite Z.pow2_bits_false by lia. apply orb_false_r.
Qed.

Lemma bit_set_free d bi bj :
  block_ok d -> 0 <= bi < BPB -> 0 <= bj < BPB -> bit_set (mark_free d bi) bj = if decide (bj = bi) then false else bit_set d bj.
Proof.
  intros Hd Hi Hj. apply alter_bit; try done. intros x k Hk. unfold u8.
  rewrite Z.land_spec, Z.mod_pow2_bits_low by lia. rewrite Z.lnot_spec, Z.shiftl_1_l by lia.
  case_decide as E; [subst; by rewrite Z.pow2_bits_true, andb_false_r by lia|].
  rewrite Z.pow2_bits_false by lia. apply andb_true_r.
Qed.

Lemma block_ok_alter (f : Z -> Z) d i : block_ok d -> block_ok (alter f i d).
Proof. unfold block_ok. by rewrite length_alter. Qed.

(** The scan of one bitmap block. *)
Lemma bit_scan_spec n d b bi size :
  0 <= bi ->
  match bit_scan n d b bi size with
  | Some r => bi <= r < bi + Z.of_nat n /\ b + r < size /\ bit_set d r = false /\ forall j, bi <= j < r -> bit_set d j = true
  | None => forall j, bi <= j < bi + Z.of_nat n -> b + j < size -> bit_set d j = true
  end.
Proof.
  revert bi. induction n as [|n IH]; intros bi Hbi; cbn [bit_scan]; [lia|].
  destruct (Z.ltb_spec (b + bi) size) as [Hlt|Hge]; cbn [negb]; [|intros; lia].
  destruct (bit_set d bi) eqn:E; [|split_and!; [lia..|done|lia]].
  specialize (IH (bi + 1) ltac:(lia)). destruct (bit_scan n d b (bi + 1) size) as [r|].
  - destruct IH as (H1 & H2 & H3 & H4). split_and!; [lia..|done|]. intros j Hj. destruct (decide (j = bi)) as [->|]; [done|]. apply H4. lia.
  - intros j Hj Hs. destruct (decide (j = bi)) as [->|]; [done|]. apply IH; lia.
Qed.

(** ** Messages *)

Definition plain (fmt : list Z) : bool := forallb (fun c => (0 <? c) && (c <? 128) && negb (c =? chr "%")) fmt.

Lemma printf_loop_plain fmt n s e :
  cpu_wf (syn s) -> panicked s = false -> plain fmt = true -> (length fmt < n)%nat ->
  exists s', printf_loop n fmt [] s e = Ok () s' e /\ sent s s' fmt.
Proof.
  revert n s. induction fmt as [|c fmt IH]; intros n s Hwf Hp Hf Hn; destruct n as [|n]; cbn [length] in Hn; try lia; cbn [printf_loop ch].
  - exists s. split; [done|apply sent_refl].
  - cbn [plain forallb] in Hf. rewrite !andb_true_iff in Hf. destruct Hf as [[[H1%Z.ltb_lt H2%Z.ltb_lt] H3] Hf].
    rewrite (proj2 (Z.eqb_neq c 0)) by lia. rewrite H3. cbn [tail].
    destruct (consputc_run c s e Hwf Hp) as (s1 & E1 & S1). destruct (sent_keep _ _ _ S1) as (Hw1 & Hp1 & _).
    destruct (IH n s1) as (s2 & E2 & S2); [auto|congruence|done|lia|]. exists s2. kstep_with E1. split; [exact E2|].
    rewrite (proj2 (Z.eqb_neq _ _)) in S1 by (unfold BACKSPACE; lia).
    unfold u8 in S1. rewrite Z.mod_small in S1 by lia. exact (sent_trans _ _ _ _ _ S1 S2).
Qed.

(** A message without conversions changes only the UART. *)
Lemma printf_plain fmt s e :
  quiet s -> panicked s = false -> plain fmt = true ->
  exists y u, printf fmt [] s e = Ok () (set_syn y (set_uart u s)) e /\ (y = syn s \/ y = touch (syn s)).
Proof.
  intros Q Hp Hf. pose proof (quiet_wf _ Q) as Hwf. unfold printf. kpure. destruct (pr_locking s).
  - cbn [when]. kstep ltac:(apply quiet_acquire; [done|in_static]).
    destruct (printf_loop_plain fmt (S (length fmt)) (set_syn (acq (syn s) Lpr) s) e) as (s1 & E1 & (y & q & -> & Hy));
      [cbn; auto with xv6|done|done|lia|]. kstep_with E1.
    assert (y = acq (syn s) Lpr) as -> by (destruct Hy as [->| ->]; cbn; [done|by apply touch_acq]).
    eexists (touch (syn s)), _. split; [|by right].
    rewrite (quiet_release s) by (done || in_static). apply Ok_eq; [done|]. by kext.
  - cbn [when]. kpure. destruct (printf_loop_plain fmt (S (length fmt)) s e) as (s1 & E1 & (y & q & -> & Hy)); [done|done|done|lia|].
    kstep_with E1. eexists y, _. split; [|done]. apply Ok_eq; [done|]. by kext.
Qed.

(** ** The layout of the disk *)

(** The first data block. *)
Definition dstart (B : superblock) : Z := sb_size B - sb_nblocks B.

(** The areas of the disk follow one another as [mkfs] lays them out: the log, the
    inodes, the bitmap and the data. *)
Record geom (B : superblock) : Prop := mkgeom {
  g_log : 0 <= sb_logstart B /\ 0 < sb_nlog B;
  g_inodes : sb_logstart B + sb_nlog B <= sb_inodestart B;
  g_bmap : sb_inodestart B + (sb_ninodes B - 1) / IPB < sb_bmapstart B;
  g_data : sb_bmapstart B + (sb_size B - 1) / BPB < dstart B;
  g_size : 0 < dstart B < sb_size B /\ sb_size B < 2 ^ 31;
  g_ninodes : 0 < sb_ninodes B < 2 ^ 16
}.

Section Layout.
Context (B : superblock) (Hg : geom B).

Definition is_data (b : Z) : Prop := dstart B <= b < sb_size B.
Definition is_inum (i : Z) : Prop := 0 < i < sb_ninodes B.

Lemma BBLOCK_range b : 0 <= b < sb_size B -> sb_bmapstart B <= BBLOCK b B < dstart B.
Proof.
  intros Hb. unfold BBLOCK. pose proof (g_data _ Hg). change BPB with 8192 in *.
  pose proof (Z.div_pos b 8192 ltac:(lia) ltac:(lia)). pose proof (Z.div_le_mono b (sb_size B - 1) 8192 ltac:(lia) ltac:(lia)). lia.
Qed.

Lemma IBLOCK_range i : is_inum i -> sb_inodestart B <= IBLOCK i B < sb_bmapstart B.
Proof.
  unfold is_inum, IBLOCK. intros Hi. pose proof (g_bmap _ Hg). change IPB with 16 in *.
  pose proof (Z.div_pos i 16 ltac:(lia) ltac:(lia)). pose proof (Z.div_le_mono i (sb_ninodes B - 1) 16 ltac:(lia) ltac:(lia)). lia.
Qed.

(** Blocks outside the log that may be written. *)
Definition home (b : Z) : Prop := blockno_ok b /\ ~ in_log (sb_logstart B) (sb_nlog B) b.

Lemma home_after b : sb_inodestart B <= b < sb_size B -> home b.
Proof.
  intros Hb. destruct Hg as [G1 G2 G3 G4 G5 G6]. unfold home, blockno_ok, in_log. lia.
Qed.

Lemma layout_order : 0 < sb_inodestart B < sb_bmapstart B /\ sb_bmapstart B < dstart B < sb_size B.
Proof.
  destruct Hg as [G1 G2 G3 G4 G5 G6]. pose proof (Z.div_pos (sb_ninodes B - 1) IPB ltac:(lia) ltac:(done)).
  pose proof (Z.div_pos (sb_size B - 1) BPB ltac:(lia) ltac:(done)). lia.
Qed.

Lemma bmap_home b : 0 <= b < sb_size B -> home (BBLOCK b B).
Proof. intros Hb. apply home_after. pose proof (BBLOCK_range b Hb). pose proof layout_order. lia. Qed.
Lemma inode_home i : is_inum i -> home (IBLOCK i B).
Proof. intros Hi. apply home_after. pose proof (IBLOCK_range i Hi). pose proof layout_order. lia. Qed.
Lemma data_home b : is_data b -> home b.
Proof. unfold is_data. intros Hb. apply home_after. pose proof layout_order. lia. Qed.

End Layout.

(** ** The bitmap *)

Section Bitmap.
Context {D : DiskDriver} {DL : DiskLaws} (B : superblock) (Hg : geom B).
Context (s0 : kstate) (HB : sb s0 = B) (Hpan : panicked s0 = false).
Implicit Types (c : Z -> list Z) (H : gmap Z nat) (G : gset Z).

Notation fsx := (fsx (sb_logstart B) (sb_nlog B) s0).
Notation room := (room (sb_nlog B)).
Notation spare := (spare (sb_nlog B)).

Definition used c (b : Z) : bool := bit_set (c (BBLOCK b B)) (b mod BPB).

Definition zeros : list Z := replicate (Z.to_nat BSIZE) 0.

(** The blocks after [b] was allocated, and after it was freed. *)
Definition take_block c (b : Z) : Z -> list Z :=
  bupd (bupd c (BBLOCK b B) (mark_used (c (BBLOCK b B)) (b mod BPB))) b zeros.
Definition give_block c (b : Z) : Z -> list Z :=
  bupd c (BBLOCK b B) (mark_free (c (BBLOCK b B)) (b mod BPB)).

(** Blocks in use: those before the data area, and the ones allocated. *)
Definition meta_used c : Prop := forall b, 0 <= b < dstart B -> used c b = true.
(** The blocks a caller holds are allocated data blocks. *)
Definition held_ok c H : Prop := forall b, is_Some (H !! b) -> is_data B b /\ used c b = true.
(** The blocks of the bitmap are accounted for in the log. *)
Definition bitmap_in G : Prop := forall b, 0 <= b < sb_size B -> BBLOCK b B ∈ G.

Lemma mod_BPB b : 0 <= b mod BPB < BPB.
Proof. by apply Z.mod_pos_bound. Qed.

Lemma same_bit b b' : BBLOCK b' B = BBLOCK b B -> b' mod BPB = b mod BPB -> b' = b.
Proof.
  unfold BBLOCK. intros H1 H2. change BPB with 8192 in *. pose proof (Z.div_mod b 8192). pose proof (Z.div_mod b' 8192). lia.
Qed.

Lemma used_bit c b b' v (w : list Z -> Z -> list Z) :
  (forall d bi bj, block_ok d -> 0 <= bi < BPB -> 0 <= bj < BPB -> bit_set (w d bi) bj = if decide (bj = bi) then v else bit_set d bj) ->
  block_ok (c (BBLOCK b B)) ->
  used (bupd c (BBLOCK b B) (w (c (BBLOCK b B)) (b mod BPB))) b' = if decide (b' = b) then v else used c b'.
Proof.
  intros Hw Hok. unfold used. destruct (decide (BBLOCK b' B = BBLOCK b B)) as [E|E].
  - rewrite E, bupd_eq, Hw by (done || apply mod_BPB).
    destruct (decide (b' = b)) as [->|]; [by rewrite decide_True|].
    rewrite decide_False; [done|]. intros ?. by destruct (same_bit b b').
  - rewrite bupd_ne by done. rewrite decide_False; [done|]. by intros ->.
Qed.

Lemma used_data c b v b' : is_data B b -> 0 <= b' < sb_size B -> used (bupd c b v) b' = used c b'.
Proof. intros Hb Hb'. unfold used. rewrite bupd_ne; [done|]. pose proof (BBLOCK_range B Hg b' Hb'). unfold is_data in Hb. lia. Qed.

Lemma used_take c b b' :
  block_ok (c (BBLOCK b B)) -> is_data B b -> 0 <= b' < sb_size B ->
  used (take_block c b) b' = if decide (b' = b) then true else used c b'.
Proof.
  intros Hok Hb Hb'. unfold take_block. rewrite used_data by done. apply used_bit; [apply bit_set_used|done].
Qed.

Lemma used_give c b b' :
  block_ok (c (BBLOCK b B)) -> used (give_block c b) b' = if decide (b' = b) then false else used c b'.
Proof. intros Hok. apply used_bit; [apply bit_set_free|done]. Qed.

Context {A : Type}.
Implicit Types (Q : A -> kstate -> Prop).

Lemma wp_sb s T K c H G (k : superblock -> M A) e Q :
  fsx s T K c H G -> runs (k B) s e Q -> runs (gets sb ≫= k) s e Q.
Proof. intros X Hk. apply runs_gets. by rewrite (fsx_sb _ _ _ _ _ _ _ _ _ X), HB. Qed.

Lemma wp_message s T K c H G fmt (k : unit -> M A) e Q :
  fsx s T K c H G -> plain fmt = true -> (forall s', fsx s' T K c H G -> runs (k ()) s' e Q) ->
  runs (printf fmt [] ≫= k) s e Q.
Proof.
  intros X Hf Hk. destruct (printf_plain fmt s e) as (y & u & E & Hy); [by eapply fsx_quiet| |done|].
  { pose proof (kq_fixed _ _ (fk_kq _ _ (fx_keep _ _ _ _ _ _ _ _ _ X))) as Hfix. injection Hfix. congruence. }
  eapply runs_step; [exact E|]. apply Hk. eapply fsx_other; [exact X|split; [done|done|done]|done..| | ].
  - apply X.
  - intros i. apply X.
Qed.

(** A held block is released. *)
Lemma brelse_runs s T K c H G b i e :
  fsx s T K c (<[b := i]> H) G -> H !! b = None -> runs (brelse i) s e (fun _ s' => fsx s' T K c H G).
Proof.
  intros X Hb. apply runs_last. eapply (wp_fbrelse _ _ s0 s T K _ _ _ b); [exact X|by rewrite lookup_insert_eq|].
  intros s3 X3. apply runs_ret. by rewrite delete_insert_id in X3 by done.
Qed.

End Bitmap.

Section Alloc.
Context {D : DiskDriver} {DL : DiskLaws} (B : superblock) (Hg : geom B).
Context (s0 : kstate) (HB : sb s0 = B) (Hpan : panicked s0 = false) (Hopen : l_outstanding (klog s0) = 1).
Implicit Types (c : Z -> list Z) (H : gmap Z nat) (G : gset Z).

Notation fsx := (fsx (sb_logstart B) (sb_nlog B) s0).
Notation room := (room (sb_nlog B)).
Notation spare := (spare (sb_nlog B)).
Notation used := (used B).

Lemma bzero_runs s T K c H G b e :
  fsx s T K c H G -> H !! b = None -> (size H <= 1)%nat -> home B b -> room ({[b]} ∪ G) ->
  runs (bzero ROOTDEV b) s e (fun _ s' => fsx s' T K (bupd c b zeros) H ({[b]} ∪ G)).
Proof.
  intros X Hb Hsz [Hok Hout] Hr. unfold bzero. eapply wp_fbread; [exact X|done|done|done|]. intros i s1 X1.
  eapply (wp_fupdate _ _ s0 s1 T K c _ G b); [exact X1|by rewrite lookup_insert_eq|done|by unfold block_ok; rewrite length_replicate|done..|].
  intros s2 X2. by eapply brelse_runs.
Qed.

(** What [balloc] has done when it returns [r]. *)
Definition balloc_post T K c H G (r : Z) (s' : kstate) : Prop :=
  (r = 0 /\ (forall b, 0 <= b < sb_size B -> used c b = true) /\ fsx s' T K c H G) \/
  (is_data B r /\ used c r = false /\ (forall b, 0 <= b < r -> used c b = true) /\
   fsx s' T K (take_block B c r) H ({[r]} ∪ G)).

Lemma balloc_found s T K c H G b bi i e :
  fsx s T K c (<[BBLOCK b B := i]> H) G -> b mod BPB = 0 -> 0 <= b -> 0 <= bi < BPB -> b + bi < sb_size B ->
  meta_used B c -> held_ok B c H -> (size H <= 1)%nat -> bitmap_in B G -> spare 1 G ->
  (forall b', 0 <= b' < b + bi -> used c b' = true) -> bit_set (c (BBLOCK b B)) bi = false ->
  runs (set_bdata i (mark_used (c (BBLOCK b B)) bi);; log_write i;; brelse i;; bzero ROOTDEV (b + bi);; mret (b + bi)) s e
    (balloc_post T K c H G).
Proof.
  intros X Hm Hb Hbi Hlt Hmeta Hheld Hsz Hbm Hsp Hused Hclr.
  assert (HBB : BBLOCK (b + bi) B = BBLOCK b B /\ (b + bi) mod BPB = bi).
  { unfold BBLOCK. change BPB with 8192 in *. pose proof (Z.div_mod b 8192 ltac:(lia)) as Hd.
    replace (b + bi) with (bi + b / 8192 * 8192) by lia. rewrite Z.div_add, Z.mod_add, Z.div_small, Z.mod_small by lia. lia. }
  destruct HBB as [HBB Hmod].
  assert (Hfree : used c (b + bi) = false) by (unfold FsBlocks.used; by rewrite HBB, Hmod).
  assert (Hdata : is_data B (b + bi)).
  { unfold is_data. split; [|done]. destruct (Z.lt_ge_cases (b + bi) (dstart B)) as [Hl|]; [|done]. rewrite Hmeta in Hfree by lia. done. }
  assert (Hr0 : 0 <= b < sb_size B) by lia. pose proof (BBLOCK_range B Hg b Hr0) as Hrg.
  destruct (bmap_home B Hg b Hr0) as [Hok Hout].
  assert (HnB : H !! BBLOCK b B = None).
  { destruct (H !! BBLOCK b B) eqn:E; [|done]. destruct (Hheld (BBLOCK b B)) as [[? ?] _]; [by rewrite E|lia]. }
  assert (Hnr : H !! (b + bi) = None).
  { destruct (H !! (b + bi)) eqn:E; [|done]. destruct (Hheld (b + bi)) as [_ ?]; [by rewrite E|congruence]. }
  assert (HGB : {[BBLOCK b B]} ∪ G = G) by (specialize (Hbm b Hr0); set_solver).
  eapply (wp_fupdate _ _ s0 s T K c _ G (BBLOCK b B)); [exact X|by rewrite lookup_insert_eq|done|apply block_ok_alter; by eapply fsx_block|done|done|rewrite HGB; by eapply spare_room|].
  rewrite HGB. intros s1 X1. eapply (wp_fbrelse _ _ s0 s1 T K _ _ _ (BBLOCK b B)); [exact X1|by rewrite lookup_insert_eq|].
  intros s2 X2. rewrite delete_insert_id in X2 by done. apply runs_bind.
  eapply runs_mono; [apply (bzero_runs _ _ _ _ _ _ (b + bi) e X2 Hnr Hsz (data_home B Hg _ Hdata))|].
  { by eapply spare_room, spare_add. }
  cbn beta. intros _ s3 X3. apply runs_ret. right. split_and!; [done..|]. unfold take_block. by rewrite HBB, Hmod.
Qed.

Lemma balloc_loop_runs n s T K c H G b e :
  fsx s T K c H G -> b mod BPB = 0 -> 0 <= b -> sb_size B <= b + BPB * (Z.of_nat n - 1) -> (0 < n)%nat ->
  meta_used B c -> held_ok B c H -> (size H <= 1)%nat -> bitmap_in B G -> spare 1 G ->
  (forall b', 0 <= b' < b -> b' < sb_size B -> used c b' = true) ->
  runs (balloc_loop n ROOTDEV b) s e (balloc_post T K c H G).
Proof.
  revert s b. induction n as [|n IH]; intros s b X Hm Hb Hn Hpos Hmeta Hheld Hsz Hbm Hsp Hused; [lia|].
  cbn [balloc_loop]. eapply (wp_sb B s0 HB); [exact X|]. destruct (Z.ltb_spec b (sb_size B)) as [Hlt|Hge]; cbn [negb].
  - assert (Hr0 : 0 <= b < sb_size B) by lia. pose proof (BBLOCK_range B Hg b Hr0) as Hrg. pose proof (bmap_home B Hg b Hr0) as [Hok Hout].
    assert (HnB : H !! BBLOCK b B = None).
    { destruct (H !! BBLOCK b B) eqn:E; [|done]. destruct (Hheld (BBLOCK b B)) as [[? ?] _]; [by rewrite E|lia]. }
    eapply wp_fbread; [exact X|done|done|done|]. intros i s1 X1.
    eapply (wp_fbdata _ _ s0 s1 T K c _ G (BBLOCK b B)); [exact X1|by rewrite lookup_insert_eq|].
    pose proof (bit_scan_spec (Z.to_nat BPB) (c (BBLOCK b B)) b 0 (sb_size B) ltac:(lia)) as Hscan.
    rewrite Z2Nat.id, Z.add_0_l in Hscan by done.
    assert (Hword : forall j, 0 <= j < BPB -> used c (b + j) = bit_set (c (BBLOCK b B)) j).
    { intros j Hj. unfold FsBlocks.used, BBLOCK. change BPB with 8192 in *. pose proof (Z.div_mod b 8192 ltac:(lia)) as Hd.
      replace (b + j) with (j + b / 8192 * 8192) by lia. rewrite Z.div_add, Z.mod_add, Z.div_small, Z.mod_small by lia. done. }
    assert (Hrest : forall m, (forall j, 0 <= j < m -> j < BPB /\ (b + j < sb_size B -> bit_set (c (BBLOCK b B)) j = true)) ->
      forall b', 0 <= b' < b + m -> b' < sb_size B -> used c b' = true).
    { intros m Hj b' Hb' Hs'. destruct (Z.lt_ge_cases b' b) as [|Hge]; [apply Hused; lia|].
      replace b' with (b + (b' - b)) by lia. rewrite Hword by (specialize (Hj (b' - b)); lia). apply Hj; lia. }
    destruct (bit_scan (Z.to_nat BPB) (c (BBLOCK b B)) b 0 (sb_size B)) as [bi|].
    + destruct Hscan as (H1 & H2 & H3 & H4). apply balloc_found; try done.
      intros b' Hb'. apply (Hrest bi); try lia. intros j Hj. split; [lia|]. auto.
    + eapply (wp_fbrelse _ _ s0 s1 T K _ _ _ (BBLOCK b B)); [exact X1|by rewrite lookup_insert_eq|].
      intros s2 X2. rewrite delete_insert_id in X2 by done. apply (IH s2 (b + BPB)); try done.
      * rewrite Z.add_mod, Hm, Z_mod_same_full by done. done.
      * change BPB with 8192. lia.
      * change BPB with 8192 in *. lia.
      * change BPB with 8192 in *. lia.
      * intros b' Hb' Hs'. apply (Hrest BPB); auto. intros j Hj. split; [lia|auto].
  - eapply (wp_message B s0 Hpan); [exact X|done|]. intros s1 X1. apply runs_ret. left. split; [done|]. split; [|done].
    intros b' Hb'. apply Hused; lia.
Qed.

(** [balloc] takes the first free block, marks it used and clears it; it returns 0,
    with nothing changed, when every block is in use. *)
Lemma balloc_runs s T K c H G e :
  fsx s T K c H G -> meta_used B c -> held_ok B c H -> (size H <= 1)%nat -> bitmap_in B G -> spare 1 G ->
  runs (balloc ROOTDEV) s e (balloc_post T K c H G).
Proof.
  intros X Hmeta Hheld Hsz Hbm Hsp. unfold balloc. eapply (wp_sb B s0 HB); [exact X|].
  pose proof (layout_order B Hg) as Ho. pose proof (Z.div_pos (sb_size B) BPB ltac:(lia) ltac:(done)).
  pose proof (Z.mul_succ_div_gt (sb_size B) BPB ltac:(done)).
  change BPB with 8192 in *. apply balloc_loop_runs; try done; change BPB with 8192; lia.
Qed.

(** [bfree] clears the bit of an allocated block. *)
Lemma bfree_runs s T K c H G b e :
  fsx s T K c H G -> held_ok B c H -> (size H <= 1)%nat -> bitmap_in B G -> 0 <= b < sb_size B -> used c b = true ->
  runs (bfree ROOTDEV b) s e (fun _ s' => fsx s' T K (give_block B c b) H G).
Proof.
  intros X Hheld Hsz Hbm Hb Hu. unfold bfree. eapply (wp_sb B s0 HB); [exact X|].
  pose proof (BBLOCK_range B Hg b Hb) as Hrg. pose proof (bmap_home B Hg b Hb) as [Hok Hout].
  assert (HnB : H !! BBLOCK b B = None).
  { destruct (H !! BBLOCK b B) eqn:E; [|done]. destruct (Hheld (BBLOCK b B)) as [[? ?] _]; [by rewrite E|lia]. }
  eapply wp_fbread; [exact X|done|done|done|]. intros i s1 X1.
  eapply (wp_fbdata _ _ s0 s1 T K c _ G (BBLOCK b B)); [exact X1|by rewrite lookup_insert_eq|].
  unfold FsBlocks.used in Hu. rewrite Hu. cbn [negb].
  assert (HGB : {[BBLOCK b B]} ∪ G = G) by (specialize (Hbm b Hb); set_solver).
  eapply (wp_fupdate _ _ s0 s1 T K c _ G (BBLOCK b B)); [exact X1|by rewrite lookup_insert_eq|done|apply block_ok_alter; by eapply fsx_block|done|done|rewrite HGB; apply X|].
  rewrite HGB. intros s2 X2. by eapply brelse_runs.
Qed.

End Alloc.
