(* ===== verification/FsInode.v ===== *)
(** * kernel/fs.c: inodes

    The on-disk inode and its in-memory copy: what [iupdate] writes, [ilock] reads
    back; references, locks and the inode table. *)

From stdpp Require Import base gmap strings numbers list.
From Stdlib Require Import Ascii.
From S2P Require Import Prelude KState Sample StringC Spinlock Sched Sleeplock Quiet Uart Printf Bio BufCache BufRefine Log LogDisk BufWp LogRun LogSafe LogOps Transaction FsWp Fs FsBlocks.

(** ** The on-disk inode *)

Lemma splice_splice {A} (l a b : list A) o : (o + length a + length b <= length l)%nat ->
  splice (splice l o a) (o + length a) b = splice l o (a ++ b).
Proof.
  intros H. assert (Hl : length (splice l o a) = length l) by (apply length_splice; lia).
  apply list_eq. intros i. rewrite !lookup_splice by (rewrite ?length_app; lia).
  rewrite length_app. repeat case_decide; try lia; try done.
  - rewrite lookup_app_r by lia. f_equal. lia.
  - rewrite lookup_app_l by lia. done.
Qed.

Lemma slice_splice_in {A} (l w : list A) o k n : (o + length w <= length l)%nat -> (k + n <= length w)%nat ->
  slice (splice l o w) (o + k) n = slice w k n.
Proof.
  intros H1 H2. apply list_eq. intros i. rewrite !lookup_slice. case_decide; [|done].
  rewrite lookup_splice, decide_True by lia. f_equal. lia.
Qed.

Lemma slice_app_r {A} (a b : list A) k n : slice (a ++ b) (length a + k) n = slice b k n.
Proof. unfold slice. by rewrite drop_app_add. Qed.
Lemma slice_app_l {A} (a b : list A) k n : (k + n <= length a)%nat -> slice (a ++ b) k n = slice a k n.
Proof.
  intros H. apply list_eq. intros i. rewrite !lookup_slice. case_decide; [|done]. by rewrite lookup_app_l by lia.
Qed.

Lemma get_le_here n v w : get_le (le_bytes n v ++ w) 0 n = v mod 256 ^ Z.of_nat n.
Proof.
  unfold get_le. rewrite slice_app_l by (rewrite length_le_bytes; lia). unfold slice. rewrite drop_0, take_ge by (rewrite length_le_bytes; lia).
  apply le_val_bytes.
Qed.
Lemma get_le_skip m v w k n : get_le (le_bytes m v ++ w) (m + k) n = get_le w k n.
Proof. unfold get_le. rewrite <- (length_le_bytes m v) at 2. by rewrite slice_app_r. Qed.

Lemma words_cons a (l : list Z) : mjoin (le_bytes 4 <$> (a :: l)) = le_bytes 4 a ++ mjoin (le_bytes 4 <$> l).
Proof. reflexivity. Qed.
Lemma length_words (l : list Z) : length (mjoin (le_bytes 4 <$> l)) = (4 * length l)%nat.
Proof. induction l as [|a l IH]; [done|]. rewrite words_cons, length_app, IH, length_le_bytes. cbn [length]. lia. Qed.

Lemma get_le_word (l : list Z) i a : l !! i = Some a -> get_le (mjoin (le_bytes 4 <$> l)) (4 * i) 4 = a mod 2 ^ 32.
Proof.
  revert i. induction l as [|b l IH]; intros i Hi; [done|]. rewrite words_cons.
  destruct i as [|i]; [injection Hi as ->; apply get_le_here|].
  replace (4 * S i)%nat with (4 + 4 * i)%nat by lia. rewrite get_le_skip. by apply IH.
Qed.

(** The bytes of [struct dinode]. *)
Definition dinode_bytes (x : inode) : list Z :=
  le_bytes 2 (i_type x) ++ le_bytes 2 (i_major x) ++ le_bytes 2 (i_minor x) ++ le_bytes 2 (i_nlink x) ++
  le_bytes 4 (i_size x) ++ mjoin (le_bytes 4 <$> i_addrs x).

Lemma length_dinode x : length (i_addrs x) = 13%nat -> length (dinode_bytes x) = 64%nat.
Proof. intros H. unfold dinode_bytes. rewrite !length_app, !length_le_bytes, length_words, H. done. Qed.

Lemma dinode_store_bytes d o x : length (i_addrs x) = 13%nat -> (o + 64 <= length d)%nat ->
  dinode_store d o x = splice d o (dinode_bytes x).
Proof.
  intros Ha Hd. unfold dinode_store, put_le. 
  assert (Hs : forall (a : list Z) n v, (o + length a + n <= length d)%nat ->
    splice (splice d o a) (o + length a) (le_bytes n v) = splice d o (a ++ le_bytes n v)).
  { intros a n v H. apply splice_splice. rewrite length_le_bytes. lia. }
  set (a1 := le_bytes 2 (i_type x)).
  replace (o + 2)%nat with (o + length a1)%nat by (unfold a1; rewrite length_le_bytes; lia).
  rewrite (Hs a1 2%nat) by (unfold a1; rewrite length_le_bytes; lia). set (a2 := a1 ++ _).
  assert (H2 : length a2 = 4%nat) by (unfold a2, a1; by rewrite length_app, !length_le_bytes).
  replace (o + 4)%nat with (o + length a2)%nat by lia. rewrite (Hs a2 2%nat) by lia. set (a3 := a2 ++ _).
  assert (H3 : length a3 = 6%nat) by (unfold a3; by rewrite length_app, H2, !length_le_bytes).
  replace (o + 6)%nat with (o + length a3)%nat by lia. rewrite (Hs a3 2%nat) by lia. set (a4 := a3 ++ _).
  assert (H4 : length a4 = 8%nat) by (unfold a4; by rewrite length_app, H3, !length_le_bytes).
  replace (o + 8)%nat with (o + length a4)%nat by lia. rewrite (Hs a4 4%nat) by lia. set (a5 := a4 ++ _).
  assert (H5 : length a5 = 12%nat) by (unfold a5; by rewrite length_app, H4, !length_le_bytes).
  replace (o + 12)%nat with (o + length a5)%nat by lia. rewrite splice_splice by (rewrite length_words, Ha; lia). reflexivity.
Qed.

(** The fields that [struct dinode] can hold. *)
Definition short_ok (v : Z) : Prop := - 2 ^ 15 <= v < 2 ^ 15.
Definition dinode_ok (x : inode) : Prop :=
  short_ok (i_type x) /\ short_ok (i_major x) /\ short_ok (i_minor x) /\ short_ok (i_nlink x) /\
  0 <= i_size x < 2 ^ 32 /\ length (i_addrs x) = 13%nat /\ Forall (fun a => 0 <= a < 2 ^ 32) (i_addrs x).

Lemma i16_mod v : short_ok v -> i16 (v mod 256 ^ Z.of_nat 2) = v.
Proof.
  unfold short_ok, i16, signed. intros H. change (256 ^ Z.of_nat 2) with (2 ^ 16). rewrite Z.mod_mod by lia.
  change (2 ^ (16 - 1)) with (2 ^ 15). destruct (Z.le_gt_cases 0 v).
  - rewrite Z.mod_small by lia. destruct (Z.ltb_spec v (2 ^ 15)); lia.
  - rewrite <- (Z.mod_add v 1 (2 ^ 16)), Z.mod_small by lia. destruct (Z.ltb_spec (v + 1 * 2 ^ 16) (2 ^ 15)); lia.
Qed.

Lemma i16_short v : short_ok (i16 v).
Proof. unfold short_ok, i16, signed. pose proof (Z.mod_pos_bound v (2 ^ 16) ltac:(lia)). destruct (Z.ltb_spec (v mod 2 ^ 16) (2 ^ (16 - 1))); lia. Qed.

(** The in-memory inode with the on-disk part of [x]. *)
Definition with_dinode (x y : inode) : inode :=
  mkinode (i_dev y) (i_inum y) (i_ref y) (i_valid y) (i_type x) (i_major x) (i_minor x) (i_nlink x) (i_size x) (i_addrs x).

Lemma dinode_fields x :
  get_le (dinode_bytes x) 0 2 = i_type x mod 256 ^ Z.of_nat 2 /\ get_le (dinode_bytes x) 2 2 = i_major x mod 256 ^ Z.of_nat 2 /\
  get_le (dinode_bytes x) 4 2 = i_minor x mod 256 ^ Z.of_nat 2 /\ get_le (dinode_bytes x) 6 2 = i_nlink x mod 256 ^ Z.of_nat 2 /\
  get_le (dinode_bytes x) 8 4 = i_size x mod 256 ^ Z.of_nat 4 /\
  forall i a, i_addrs x !! i = Some a -> get_le (dinode_bytes x) (12 + 4 * i) 4 = a mod 2 ^ 32.
Proof.
  unfold dinode_bytes. split; [by rewrite get_le_here|]. split; [by rewrite (get_le_skip 2 _ _ 0), get_le_here|].
  split; [by rewrite (get_le_skip 2 _ _ 2), (get_le_skip 2 _ _ 0), get_le_here|].
  split; [by rewrite (get_le_skip 2 _ _ 4), (get_le_skip 2 _ _ 2), (get_le_skip 2 _ _ 0), get_le_here|].
  split; [by rewrite (get_le_skip 2 _ _ 6), (get_le_skip 2 _ _ 4), (get_le_skip 2 _ _ 2), (get_le_skip 2 _ _ 0), get_le_here|].
  intros i a Ha. by rewrite (get_le_skip 2 _ _ (10 + 4 * i)), (get_le_skip 2 _ _ (8 + 4 * i)), (get_le_skip 2 _ _ (6 + 4 * i)),
    (get_le_skip 2 _ _ (4 + 4 * i)), (get_le_skip 4 _ _ (4 * i)), (get_le_word _ _ a).
Qed.

(** What [iupdate] stores, [ilock] loads. *)
Lemma dinode_load_store d o x y : dinode_ok x -> (o + 64 <= length d)%nat ->
  dinode_load (dinode_store d o x) o y = with_dinode x y.
Proof.
  intros (H1 & H2 & H3 & H4 & H5 & H6 & H7) Hd. rewrite dinode_store_bytes by done.
  assert (Hget : forall k n, (k + n <= 64)%nat -> get_le (splice d o (dinode_bytes x)) (o + k) n = get_le (dinode_bytes x) k n).
  { intros k n Hk. unfold get_le. rewrite slice_splice_in; [done|..]; rewrite length_dinode by done; lia. }
  unfold dinode_load. pose proof (Hget 0%nat 2%nat ltac:(lia)) as Hget0. rewrite Nat.add_0_r in Hget0. rewrite Hget0, !Hget by lia.
  destruct (dinode_fields x) as (-> & -> & -> & -> & -> & Hw). rewrite !i16_mod, (Z.mod_small (i_size x)) by done.
  unfold with_dinode, set_i_addrs. cbn -[fmap seq di_addr]. f_equal.
  apply list_eq. intros i. rewrite list_lookup_fmap. destruct (decide (i < 13)%nat) as [Hi|Hi].
  - rewrite lookup_seq_lt by done. cbn [fmap option_fmap option_map Nat.add]. unfold di_addr.
    destruct (lookup_lt_is_Some_2 (i_addrs x) i ltac:(lia)) as [a Ha]. rewrite Ha.
    rewrite <- Nat.add_assoc, Hget, (Hw i a) by (done || lia).
    rewrite Forall_lookup in H7. rewrite Z.mod_small by (by apply (H7 i)). done.
  - rewrite (lookup_ge_None_2 (seq 0 13)) by (rewrite length_seq; lia). cbn. symmetry. apply lookup_ge_None_2. lia.
Qed.

Lemma dinode_off_range i : 0 <= i -> (dinode_off i + 64 <= 1024)%nat.
Proof.
  intros Hi. unfold dinode_off. change IPB with 16. change DINODE_SIZE with 64.
  pose proof (Z.mod_pos_bound i 16 ltac:(lia)). lia.
Qed.

(** ** Inodes on the disk *)

Section Disk.
Context (B : superblock) (Hg : geom B).
Implicit Types (c : Z -> list Z).

(** The on-disk inode [i]. *)
Definition dinode_at c (i : Z) : inode := dinode_load (c (IBLOCK i B)) (dinode_off i) zero_inode.

(** The blocks after inode [i] was written. *)
Definition set_dinode c (i : Z) (x : inode) : Z -> list Z :=
  bupd c (IBLOCK i B) (dinode_store (c (IBLOCK i B)) (dinode_off i) x).

Lemma dinode_load_ext d d' o y : slice d' o 64 = slice d o 64 -> dinode_load d' o y = dinode_load d o y.
Proof.
  intros H. assert (Hget : forall k n, (k + n <= 64)%nat -> get_le d' (o + k) n = get_le d (o + k) n).
  { intros k n Hk. unfold get_le. f_equal. apply list_eq. intros i. apply (f_equal (fun l => l !! (k + i)%nat)) in H.
    rewrite !lookup_slice. destruct (decide (i < n)%nat); [|done].
    rewrite !lookup_slice, !decide_True, !Nat.add_assoc in H by lia. done. }
  unfold dinode_load. pose proof (Hget 0%nat 2%nat ltac:(lia)) as Hget0. rewrite Nat.add_0_r in Hget0. rewrite Hget0, !Hget by lia.
  unfold set_i_addrs. f_equal. apply list_fmap_ext. intros i k Hk. apply lookup_seq in Hk. unfold di_addr.
  rewrite <- Nat.add_assoc. apply Hget. lia.
Qed.

Lemma dinode_at_set c i j x :
  0 <= i -> 0 <= j -> block_ok (c (IBLOCK i B)) -> dinode_ok x ->
  dinode_at (set_dinode c i x) j = if decide (j = i) then with_dinode x zero_inode else dinode_at c j.
Proof.
  intros Hi Hj Hok Hx. pose proof (dinode_off_range i Hi). pose proof (dinode_off_range j Hj). unfold block_ok in Hok.
  change (Z.to_nat BSIZE) with 1024%nat in Hok. unfold dinode_at, set_dinode. case_decide as E.
  - subst. rewrite bupd_eq. by rewrite dinode_load_store by (done || lia).
  - destruct (decide (IBLOCK j B = IBLOCK i B)) as [Eb|Eb]; [|by rewrite bupd_ne].
    rewrite Eb, bupd_eq. apply dinode_load_ext. pose proof Hx as (_ & _ & _ & _ & _ & Hl & _).
    rewrite dinode_store_bytes by (done || lia). apply slice_splice_other; rewrite length_dinode by done; [lia|].
    unfold dinode_off, IBLOCK in *. change IPB with 16 in *. change DINODE_SIZE with 64.
    pose proof (Z.div_mod i 16). pose proof (Z.div_mod j 16). pose proof (Z.mod_pos_bound i 16). pose proof (Z.mod_pos_bound j 16). lia.
Qed.

Lemma dinode_at_other c c' i : c' (IBLOCK i B) = c (IBLOCK i B) -> dinode_at c' i = dinode_at c i.
Proof. unfold dinode_at. by intros ->. Qed.

Lemma block_ok_dinode c i x : 0 <= i -> block_ok (c (IBLOCK i B)) -> length (i_addrs x) = 13%nat ->
  block_ok (dinode_store (c (IBLOCK i B)) (dinode_off i) x).
Proof.
  intros Hi Hok Hl. pose proof (dinode_off_range i Hi). unfold block_ok in *. change (Z.to_nat BSIZE) with 1024%nat in *.
  rewrite dinode_store_bytes by (done || lia). by rewrite length_splice by (rewrite length_dinode by done; lia).
Qed.

End Disk.

(** ** The inode table *)

Section Inode.
Context {D : DiskDriver} {DL : DiskLaws} (B : superblock) (Hg : geom B).
Context (s0 : kstate) (HB : sb s0 = B).
Implicit Types (c : Z -> list Z) (H : gmap Z nat) (G : gset Z) (T : list inode).

Notation fsx := (fsx (sb_logstart B) (sb_nlog B) s0).
Notation room := (room (sb_nlog B)).

Lemma wp_inodeget {A} s T K c H G ip x (k : inode -> M A) e Q :
  fsx s T K c H G -> T !! ip = Some x -> runs (k x) s e Q -> runs (inodeget ip ≫= k) s e Q.
Proof.
  intros X Hx Hk. apply runs_gets. unfold get_inode. rewrite (fx_itable _ _ _ _ _ _ _ _ _ X), Hx. done.
Qed.

Lemma wp_inodeset {A} s T K c H G ip x f (k : unit -> M A) e Q :
  fsx s T K c H G -> T !! ip = Some x -> (forall s', fsx s' (<[ip := f x]> T) K c H G -> runs (k ()) s' e Q) ->
  runs (inodeset ip f ≫= k) s e Q.
Proof.
  intros X Hx Hk. apply runs_modify, Hk.
  eapply fsx_other; [exact X|split; auto|done..| |intros i; apply X].
  cbn. rewrite (fx_itable _ _ _ _ _ _ _ _ _ X). by apply list_alter_known.
Qed.

Lemma inodeset_runs s T K c H G ip x f e :
  fsx s T K c H G -> T !! ip = Some x -> runs (inodeset ip f) s e (fun _ s' => fsx s' (<[ip := f x]> T) K c H G).
Proof. intros X Hx. apply runs_last. eapply wp_inodeset; [done..|]. intros s' X'. by apply runs_ret. Qed.

(** A valid inode that is on the device. *)
Definition inode_on (x : inode) : Prop := i_dev x = ROOTDEV /\ is_inum B (i_inum x).

Lemma iupdate_runs s T K c H G ip x e :
  fsx s T K c H G -> T !! ip = Some x -> inode_on x -> length (i_addrs x) = 13%nat ->
  l_outstanding (klog s0) = 1 -> H !! IBLOCK (i_inum x) B = None -> (size H <= 1)%nat -> room ({[IBLOCK (i_inum x) B]} ∪ G) ->
  runs (iupdate ip) s e (fun _ s' => fsx s' T K (set_dinode B c (i_inum x) x) H ({[IBLOCK (i_inum x) B]} ∪ G)).
Proof.
  intros X Hx [Hdev Hin] Hl Hopen Hb Hsz Hr. destruct (inode_home B Hg _ Hin) as [Hok Hout]. unfold is_inum in Hin.
  unfold iupdate. eapply wp_inodeget; [exact X|done|]. eapply (wp_sb B s0 HB); [exact X|]. rewrite Hdev.
  eapply wp_fbread; [exact X|done|done|done|]. intros i s1 X1. eapply wp_inodeget; [exact X1|done|].
  eapply (wp_fbdata _ _ s0 s1 T K c _ G (IBLOCK (i_inum x) B)); [exact X1|by rewrite lookup_insert_eq|].
  eapply (wp_fupdate _ _ s0 s1 T K c _ G (IBLOCK (i_inum x) B)); [exact X1|by rewrite lookup_insert_eq|done| |done|done|done|].
  { apply block_ok_dinode; [lia|by eapply fsx_block|done]. }
  intros s2 X2. by eapply brelse_runs.
Qed.

(** ** Locking *)

(** The inode locks after one of them changed. *)
Definition relock (K : nat -> sleeplock) (ip : nat) (lk : sleeplock) : nat -> sleeplock :=
  fun i => if decide (i = ip) then lk else K i.

(** The lock as the running process holds it, and as it leaves it. *)
Definition lock_taken (K : nat -> sleeplock) (ip : nat) : nat -> sleeplock :=
  relock K ip (mksleeplock (sl_name (K ip)) true (cur_pid s0)).
Definition lock_left (K : nat -> sleeplock) (ip : nat) : nat -> sleeplock :=
  relock K ip (mksleeplock (sl_name (K ip)) false 0).

Definition lock_mine (K : nat -> sleeplock) (ip : nat) : Prop := sl_locked (K ip) = true /\ sl_pid (K ip) = cur_pid s0.

Lemma slock_inode ip : (ip < Z.to_nat NINODE)%nat -> slock_ok (SLinode ip).
Proof. intros H. apply Is_true_true, Nat.ltb_lt. done. Qed.

Lemma fsx_pid s T K c H G : fsx s T K c H G -> cur_pid s = cur_pid s0.
Proof. intros X. apply kq_cur_pid, X. Qed.

Lemma get_slock_other l l' v s : l <> l' -> get_slock (upd_slock l v s) l' = get_slock s l'.
Proof. intros. unfold get_slock, upd_slock. cbn. by rewrite lookup_insert_ne. Qed.

Lemma acquiresleep_inode s T K c H G ip e :
  fsx s T K c H G -> (ip < Z.to_nat NINODE)%nat -> sl_locked (K ip) = false ->
  runs (acquiresleep (SLinode ip)) s e (fun _ s' => fsx s' T (lock_taken K ip) c H G).
Proof.
  intros X Hip Hl. pose proof (fsx_quiet _ _ _ _ _ _ _ _ _ X) as Q. rewrite <- (fx_slocks _ _ _ _ _ _ _ _ _ X) in Hl.
  eexists (), _. split; [apply acquiresleep_free; [apply Q|by apply slock_inode|done]|].
  eapply fsx_other; [exact X|split; [done|by right|done]|done| |done..| |].
  - intros i. by apply get_slock_other.
  - apply X.
  - intros i. unfold lock_taken, relock. rewrite (fsx_pid _ _ _ _ _ _ X), (fx_slocks _ _ _ _ _ _ _ _ _ X). case_decide as E.
    + subst. apply get_slock_upd.
    + etrans; [apply get_slock_other; congruence|]. apply X.
Qed.

Lemma releasesleep_inode s T K c H G ip e :
  fsx s T K c H G -> (ip < Z.to_nat NINODE)%nat -> runs (releasesleep (SLinode ip)) s e (fun _ s' => fsx s' T (lock_left K ip) c H G).
Proof.
  intros X Hip. pose proof (fsx_quiet _ _ _ _ _ _ _ _ _ X) as Q.
  eexists (), _. split; [apply releasesleep_run; [apply Q|by apply slock_inode]|].
  eapply fsx_other; [exact X|split; [done|by right|apply pcore_wake_procs]|done| |done..| |].
  - intros i. by apply get_slock_other.
  - apply X.
  - intros i. unfold lock_left, relock. rewrite (fx_slocks _ _ _ _ _ _ _ _ _ X). case_decide as E.
    + subst. apply get_slock_upd.
    + etrans; [apply get_slock_other; congruence|]. apply X.
Qed.

(** [ilock] of an inode whose contents have been read. *)
Lemma ilock_valid_runs s T K c H G ip x e :
  fsx s T K c H G -> T !! ip = Some x -> (ip < Z.to_nat NINODE)%nat -> 1 <= i_ref x -> i_valid x = true -> sl_locked (K ip) = false ->
  runs (ilock (Some ip)) s e (fun _ s' => fsx s' T (lock_taken K ip) c H G).
Proof.
  intros X Hx Hip Hr Hv Hl. unfold ilock. eapply wp_inodeget; [exact X|done|]. rewrite (proj2 (Z.ltb_ge _ _)) by lia.
  apply runs_bind. eapply runs_mono; [by apply acquiresleep_inode|]. cbn beta. intros _ s1 X1.
  eapply wp_inodeget; [exact X1|done|]. rewrite Hv. by apply runs_ret.
Qed.

(** [ilock] of an inode that has to be read from the disk. *)
Lemma ilock_load_runs s T K c H G ip x e :
  fsx s T K c H G -> T !! ip = Some x -> (ip < Z.to_nat NINODE)%nat -> 1 <= i_ref x -> i_valid x = false -> sl_locked (K ip) = false ->
  inode_on x -> H !! IBLOCK (i_inum x) B = None -> (size H <= 1)%nat ->
  let x' := set_i_valid true (with_dinode (dinode_at B c (i_inum x)) x) in
  i_type x' <> 0 ->
  runs (ilock (Some ip)) s e (fun _ s' => fsx s' (<[ip := x']> T) (lock_taken K ip) c H G).
Proof.
  intros X Hx Hip Hr Hv Hl [Hdev Hin] Hb Hsz x' Ht. destruct (inode_home B Hg _ Hin) as [Hok _].
  assert (Hlt : (ip < length T)%nat) by (by eapply lookup_lt_Some).
  unfold ilock. eapply wp_inodeget; [exact X|done|]. rewrite (proj2 (Z.ltb_ge _ _)) by lia.
  apply runs_bind. eapply runs_mono; [by apply acquiresleep_inode|]. cbn beta. intros _ s1 X1.
  eapply wp_inodeget; [exact X1|done|]. rewrite Hv, Hdev. eapply (wp_sb B s0 HB); [exact X1|].
  eapply wp_fbread; [exact X1|done|done|done|]. intros i s2 X2.
  eapply (wp_fbdata _ _ s0 s2 T _ c _ G (IBLOCK (i_inum x) B)); [exact X2|by rewrite lookup_insert_eq|].
  eapply wp_inodeset; [exact X2|done|]. intros s3 X3. apply runs_bind.
  eapply runs_mono; [by eapply brelse_runs|]. cbn beta. intros _ s4 X4.
  eapply wp_inodeset; [exact X4|by apply list_lookup_insert_eq|]. intros s5 X5. rewrite list_insert_insert_eq in X5.
  eapply wp_inodeget; [exact X5|by apply list_lookup_insert_eq|].
  change (set_i_valid true (dinode_load (c (IBLOCK (i_inum x) B)) (dinode_off (i_inum x)) x)) with x' in *.
  rewrite (proj2 (Z.eqb_neq _ _)) by done. by apply runs_ret.
Qed.

Lemma iunlock_runs s T K c H G ip x e :
  fsx s T K c H G -> T !! ip = Some x -> (ip < Z.to_nat NINODE)%nat -> 1 <= i_ref x -> lock_mine K ip ->
  runs (iunlock (Some ip)) s e (fun _ s' => fsx s' T (lock_left K ip) c H G).
Proof.
  intros X Hx Hip Hr [Hl Hp]. pose proof (fsx_quiet _ _ _ _ _ _ _ _ _ X) as Q. unfold iunlock.
  eapply runs_step; [apply holdingsleep_run; [apply Q|by apply slock_inode]|].
  rewrite (fx_slocks _ _ _ _ _ _ _ _ _ X), Hl, Hp, (fsx_pid _ _ _ _ _ _ X), Z.eqb_refl. cbn [andb negb].
  assert (X1 : fsx (set_syn (touch (syn s)) s) T K c H G).
  { eapply fsx_other; [exact X|split; [done|by right|done]|done..| |]; [apply X|]. intros i. apply X. }
  eapply wp_inodeget; [exact X1|done|]. rewrite (proj2 (Z.ltb_ge _ _)) by lia. by apply releasesleep_inode.
Qed.

End Inode.
