(* ===== verification/FsFile.v ===== *)
(** * kernel/fs.c: the contents of a file

    The blocks of an inode, direct and through its indirect block, and the file they
    make: [bmap] extends the map, [readi] and [writei] move bytes. *)

From stdpp Require Import base gmap strings numbers list.
From Stdlib Require Import Ascii.
From S2P Require Import Prelude KState Sample StringC Spinlock Sched Sleeplock Quiet Uart Printf Bio BufCache BufRefine Log LogDisk BufWp LogRun LogSafe LogOps Transaction FsWp Fs FsBlocks FsInode.

(** ** The block map *)

Definition ind (x : inode) : Z := get_addr x (Z.to_nat NDIRECT).

(** The block that holds block [bn] of the file, or 0. *)
Definition addr (c : Z -> list Z) (x : inode) (bn : Z) : Z :=
  if bn <? NDIRECT then get_addr x (Z.to_nat bn)
  else if ind x =? 0 then 0 else get_le (c (ind x)) (4 * Z.to_nat (bn - NDIRECT)) 4.

Section File.
Context (B : superblock) (Hg : geom B).
Implicit Types (c : Z -> list Z) (x : inode).
Notation used := (used B).
Notation is_data := (is_data B).

Definition is_bn (bn : Z) : Prop := 0 <= bn < MAXFILE.

Record file_ok c x : Prop := mkfile_ok {
  fo_len : length (i_addrs x) = 13%nat;
  fo_size : 0 <= i_size x <= MAXFILE * BSIZE;
  fo_alloc : forall bn, 0 <= bn -> bn * BSIZE < i_size x -> addr c x bn <> 0;
  fo_data : forall bn, is_bn bn -> addr c x bn <> 0 -> is_data (addr c x bn) /\ used c (addr c x bn) = true;
  fo_ind : ind x <> 0 -> is_data (ind x) /\ used c (ind x) = true;
  fo_inj : forall bn bn', is_bn bn -> is_bn bn' -> addr c x bn <> 0 -> addr c x bn = addr c x bn' -> bn = bn';
  fo_ind_ne : forall bn, is_bn bn -> addr c x bn <> 0 -> addr c x bn <> ind x
}.

(** The blocks of a file. *)
Definition owns c x (b : Z) : Prop := b <> 0 /\ (b = ind x \/ exists bn, is_bn bn /\ addr c x bn = b).

(** A block of the bitmap. *)
Definition is_bitmap (b : Z) : Prop := exists b', 0 <= b' < sb_size B /\ b = BBLOCK b' B.

(** The file grew by blocks that were free; of the blocks in use only those in [W]
    were changed. *)
Record extends (W : Z -> Prop) c x c' x' : Prop := mkextends {
  ex_addr : forall bn, is_bn bn -> addr c x bn <> 0 -> addr c' x' bn = addr c x bn;
  ex_ind : ind x <> 0 -> ind x' = ind x;
  ex_used : forall b, 0 <= b < sb_size B -> used c b = true -> used c' b = true;
  ex_new : forall b, 0 <= b < sb_size B -> used c' b = true -> used c b = true \/ owns c' x' b;
  ex_own : forall b, owns c' x' b -> owns c x b \/ (is_data b /\ used c b = false);
  ex_rest : forall b, ~ is_data b -> ~ is_bitmap b -> c' b = c b;
  ex_data : forall b, is_data b -> used c b = true -> b <> ind x' -> ~ W b -> c' b = c b
}.

Definition none : Z -> Prop := fun _ => False.

Lemma extends_refl W c x : extends W c x c x.
Proof. split; auto. Qed.

Lemma extends_owns W c x c' x' b : extends W c x c' x' -> owns c x b -> owns c' x' b.
Proof.
  intros E [Hb [->|(bn & Hbn & <-)]]; (split; [done|]).
  - left. by rewrite (ex_ind _ _ _ _ _ E).
  - right. exists bn. split; [done|]. by apply (ex_addr _ _ _ _ _ E).
Qed.

Lemma extends_trans W c1 x1 c2 x2 c3 x3 :
  extends W c1 x1 c2 x2 -> extends W c2 x2 c3 x3 -> extends W c1 x1 c3 x3.
Proof.
  intros [A1 I1 U1 N1 O1 R1 D1] E2. pose proof E2 as [A2 I2 U2 N2 O2 R2 D2]. split.
  - intros bn Hb H1. rewrite (A2 bn Hb) by (rewrite A1; done). by apply A1.
  - intros H1. rewrite I2; rewrite I1; done.
  - auto.
  - intros b Hb H3. destruct (N2 b Hb H3) as [H2|H2]; [|by right]. destruct (N1 b Hb H2) as [H1|H1]; [by left|right].
    by eapply extends_owns.
  - intros b [H2|[Hd H2]]%O2; [by apply O1|]. right. split; [done|]. unfold FsBlocks.is_data in Hd. pose proof (layout_order B Hg).
    destruct (used c1 b) eqn:E; [|done]. rewrite U1 in H2; [done|lia|done].
  - intros b H1 H2. by rewrite R2, R1.
  - intros b Hb H1 H2 H3. unfold FsBlocks.is_data in Hb. pose proof (layout_order B Hg).
    rewrite D2; [|done|apply U1; [lia|done]|done|done]. apply D1; try done.
    destruct (decide (ind x2 = 0)) as [->|Hi]; [lia|]. by rewrite <- I2.
Qed.

Lemma extends_weak (W W' : Z -> Prop) c x c' x' : (forall b, W b -> W' b) -> extends W c x c' x' -> extends W' c x c' x'.
Proof. intros HW [A1 I1 U1 N1 O1 R1 D1]. split; auto. Qed.

Lemma data_range b : is_data b -> 0 < b < sb_size B.
Proof. unfold FsBlocks.is_data. pose proof (layout_order B Hg). lia. Qed.

(** A free block [r] is put into the map at [bn], or as the indirect block. *)
Section Add.
Context (c c' : Z -> list Z) (x x' : inode) (r : Z).
Hypothesis (F : file_ok c x) (Hr : is_data r) (Hfree : used c r = false).
Hypothesis (Hlen : length (i_addrs x') = 13%nat) (Hsize : i_size x' = i_size x).
Hypothesis (Hused : forall b, 0 <= b < sb_size B -> used c' b = if decide (b = r) then true else used c b).
Hypothesis (Hrest : forall b, ~ is_data b -> ~ is_bitmap b -> c' b = c b).
Hypothesis (Hdata : forall b, is_data b -> used c b = true -> b <> ind x' -> c' b = c b).

Lemma used_mono b : is_data b -> used c b = true -> used c' b = true.
Proof. intros Hb Hu. pose proof (data_range b Hb). rewrite Hused by lia. by case_decide. Qed.

Lemma used_r : used c' r = true.
Proof. pose proof (data_range r Hr). rewrite Hused by lia. by rewrite decide_True. Qed.

Lemma size_bn bn : 0 <= bn -> bn * BSIZE < i_size x -> is_bn bn.
Proof using F. intros H1 H2. pose proof (fo_size _ _ F) as Hs. clear - H1 H2 Hs. unfold is_bn. change BSIZE with 1024 in *. lia. Qed.

Lemma not_r_addr bn : is_bn bn -> addr c x bn <> r.
Proof using F Hr Hfree Hg.
  intros Hb E. pose proof (data_range r Hr) as Hr0. destruct (fo_data _ _ F bn Hb) as [_ Hu]; [rewrite E; clear - Hr0; lia|]. rewrite E in Hu. congruence.
Qed.
Lemma not_r_ind : ind x <> r.
Proof using F Hr Hfree Hg. intros E. pose proof (data_range r Hr) as Hr0. destruct (fo_ind _ _ F) as [_ Hu]; [clear - E Hr0; lia|]. rewrite E in Hu. congruence. Qed.

Lemma file_add bn :
  is_bn bn -> addr c x bn = 0 -> ind x' = ind x ->
  (forall bn', is_bn bn' -> addr c' x' bn' = if decide (bn' = bn) then r else addr c x bn') ->
  file_ok c' x' /\ extends none c x c' x'.
Proof.
  intros Hbn H0 Hi Ha. pose proof (data_range r Hr) as Hr0. split; split.
  - done.
  - rewrite Hsize. apply F.
  - intros bn' H1 H2. rewrite Hsize in H2. rewrite Ha by (by apply size_bn). case_decide; [lia|]. by apply F.
  - intros bn' H1. rewrite Ha by done. case_decide as E; [split; [done|apply used_r]|]. intros H2.
    destruct (fo_data _ _ F bn' H1 H2) as [H3 H4]. split; [done|by apply used_mono].
  - rewrite Hi. intros H1. destruct (fo_ind _ _ F H1) as [H3 H4]. split; [done|by apply used_mono].
  - intros b1 b2 H1 H2. rewrite !Ha by done. destruct (decide (b1 = bn)) as [->|], (decide (b2 = bn)) as [->|]; intros H3 H4; try congruence.
    + by destruct (not_r_addr b2 H2).
    + by destruct (not_r_addr b1 H1).
    + by apply F.
  - intros bn' H1. rewrite Ha, Hi by done. case_decide; [|by apply F]. intros _ E. by destruct not_r_ind.
  - intros bn' H1 H2. rewrite Ha by done. case_decide; [congruence|done].
  - done.
  - intros b Hb Hu. rewrite Hused by done. by case_decide.
  - intros b Hb. rewrite Hused by done. case_decide as E; [|by left]. intros _. right. split; [lia|]. right. exists bn.
    split; [done|]. by rewrite Ha, decide_True by done.
  - intros b [Hb [->|(bn' & Hb' & <-)]].
    + left. rewrite Hi in *. split; [done|by left].
    + rewrite Ha in * by done. case_decide; [by right|]. left. split; [done|]. right. by exists bn'.
  - done.
  - intros b H1 H2 H3 _. by apply Hdata.
Qed.

Lemma file_add_ind :
  ind x = 0 -> ind x' = r -> (forall bn', is_bn bn' -> addr c' x' bn' = addr c x bn') ->
  file_ok c' x' /\ extends none c x c' x'.
Proof.
  intros H0 Hi Ha. pose proof (data_range r Hr) as Hr0. split; split.
  - done.
  - rewrite Hsize. apply F.
  - intros bn' H1 H2. rewrite Hsize in H2. rewrite Ha by (by apply size_bn). by apply F.
  - intros bn' H1. rewrite Ha by done. intros H2. destruct (fo_data _ _ F bn' H1 H2) as [H3 H4]. split; [done|by apply used_mono].
  - rewrite Hi. intros _. split; [done|apply used_r].
  - intros b1 b2 H1 H2. rewrite !Ha by done. by apply F.
  - intros bn' H1. rewrite Ha, Hi by done. intros _. by apply not_r_addr.
  - intros bn' H1 H2. by rewrite Ha.
  - done.
  - intros b Hb Hu. rewrite Hused by done. by case_decide.
  - intros b Hb. rewrite Hused by done. case_decide as E; [|by left]. intros _. right. split; [lia|]. left. congruence.
  - intros b [Hb [->|(bn' & Hb' & <-)]]; [rewrite Hi; by right|]. left. rewrite Ha in * by done. split; [done|]. right. by exists bn'.
  - done.
  - intros b H1 H2 H3 _. by apply Hdata.
Qed.

End Add.

(** ** The blocks that [bmap] adds *)

Lemma take_rest c r b : is_data r -> ~ is_data b -> ~ is_bitmap b -> take_block B c r b = c b.
Proof.
  intros Hr H1 H2. unfold take_block. rewrite !bupd_ne; [done|..].
  - intros ->. apply H2. exists r. split; [|done]. pose proof (data_range r Hr). lia.
  - by intros ->.
Qed.

Lemma bitmap_not_data b b' : is_data b -> 0 <= b' < sb_size B -> b <> BBLOCK b' B.
Proof. intros H1 H2. pose proof (BBLOCK_range B Hg b' H2). unfold FsBlocks.is_data in H1. lia. Qed.

Lemma take_data c r b : is_data r -> is_data b -> b <> r -> take_block B c r b = c b.
Proof.
  intros Hr Hb Hne. unfold take_block. rewrite !bupd_ne; [done| |done].
  apply bitmap_not_data; [done|]. pose proof (data_range r Hr). lia.
Qed.

Lemma take_same c r : take_block B c r r = zeros.
Proof. apply bupd_eq. Qed.

Lemma get_set_addr x i j a : (i < length (i_addrs x))%nat -> get_addr (set_addr i a x) j = if decide (j = i) then a else get_addr x j.
Proof.
  intros Hi. unfold get_addr, set_addr. cbn. rewrite !nth_lookup. case_decide as E.
  - subst. by rewrite list_lookup_insert_eq.
  - by rewrite list_lookup_insert_ne.
Qed.

Lemma get_le_zeros k n : get_le zeros k n = 0.
Proof.
  unfold get_le, slice, zeros. rewrite drop_replicate, take_replicate. induction (Nat.min _ _) as [|m IH]; [done|]. cbn [replicate le_val]. lia.
Qed.

Lemma addr_ext c c' x x' bn :
  ind x' = ind x -> (bn < NDIRECT -> get_addr x' (Z.to_nat bn) = get_addr x (Z.to_nat bn)) ->
  (ind x <> 0 -> c' (ind x) = c (ind x)) -> addr c' x' bn = addr c x bn.
Proof.
  intros Hi Hd Hc. unfold addr. destruct (Z.ltb_spec bn NDIRECT); [by apply Hd|]. rewrite Hi.
  destruct (Z.eqb_spec (ind x) 0); [done|]. by rewrite Hc.
Qed.

Section Steps.
Context (c : Z -> list Z) (x : inode) (r : Z).
Hypothesis (Hblk : forall b, block_ok (c b)) (F : file_ok c x) (Hr : is_data r) (Hfree : used c r = false).

Lemma take_ind : ind x <> 0 -> take_block B c r (ind x) = c (ind x).
Proof.
  intros Hi. destruct (fo_ind _ _ F Hi) as [H1 _]. apply take_data; [done..|]. intros E. by apply (not_r_ind c x r).
Qed.

Lemma add_direct bn :
  0 <= bn < NDIRECT -> addr c x bn = 0 ->
  file_ok (take_block B c r) (set_addr (Z.to_nat bn) r x) /\ extends none c x (take_block B c r) (set_addr (Z.to_nat bn) r x).
Proof.
  intros Hbn H0. change NDIRECT with 12 in Hbn. pose proof (fo_len _ _ F) as Hl.
  assert (Hi : ind (set_addr (Z.to_nat bn) r x) = ind x).
  { unfold ind. rewrite get_set_addr, decide_False by (rewrite ?Hl; change (Z.to_nat NDIRECT) with 12%nat; lia). done. }
  apply (file_add c _ x _ r) with (bn := bn); try done.
  - cbn. by rewrite length_insert.
  - intros b Hb. by apply used_take.
  - intros b. by apply take_rest.
  - intros b H1 H2 _. apply take_data; [done..|]. congruence.
  - unfold is_bn. change MAXFILE with 268. lia.
  - intros bn' Hb'. case_decide as E.
    + subst bn'. unfold addr. rewrite (proj2 (Z.ltb_lt _ _)) by (change NDIRECT with 12; lia).
      by rewrite get_set_addr, decide_True by (rewrite ?Hl; lia).
    + apply addr_ext; [done| |apply take_ind]. intros Hlt. unfold is_bn in Hb'. rewrite get_set_addr, decide_False by (rewrite ?Hl; lia). done.
Qed.

Lemma add_ind :
  ind x = 0 ->
  let x' := set_addr (Z.to_nat NDIRECT) r x in
  file_ok (take_block B c r) x' /\ extends none c x (take_block B c r) x' /\ ind x' = r /\
  forall bn, is_bn bn -> addr (take_block B c r) x' bn = addr c x bn.
Proof.
  intros H0 x'. pose proof (fo_len _ _ F) as Hl. change (Z.to_nat NDIRECT) with 12%nat in x'.
  assert (Hi : ind x' = r) by (unfold ind, x'; by rewrite get_set_addr, decide_True by (rewrite ?Hl; lia || done)).
  assert (Ha : forall bn, is_bn bn -> addr (take_block B c r) x' bn = addr c x bn).
  { intros bn Hbn. unfold addr. rewrite Hi, H0. change NDIRECT with 12. unfold is_bn in Hbn. destruct (Z.ltb_spec bn 12).
    - unfold x'. rewrite get_set_addr, decide_False by (rewrite ?Hl; lia). done.
    - rewrite Z.eqb_refl. pose proof (data_range r Hr). rewrite (proj2 (Z.eqb_neq _ _)) by lia. rewrite take_same. apply get_le_zeros. }
  cut (file_ok (take_block B c r) x' /\ extends none c x (take_block B c r) x'); [by intros [? ?]|]. apply (file_add_ind c _ x _ r); try done.
  - cbn. by rewrite length_insert.
  - intros b Hb. by apply used_take.
  - intros b. by apply take_rest.
  - intros b H1 H2 _. apply take_data; [done..|]. congruence.
Qed.

Definition add_entry (bn : Z) : Z -> list Z :=
  bupd (take_block B c r) (ind x) (put_le (take_block B c r (ind x)) (4 * Z.to_nat (bn - NDIRECT)) 4 r).

Lemma add_indirect bn :
  NDIRECT <= bn < MAXFILE -> ind x <> 0 -> addr c x bn = 0 ->
  file_ok (add_entry bn) x /\ extends none c x (add_entry bn) x /\ addr (add_entry bn) x bn = r.
Proof.
  intros Hbn H0 Ha0. destruct (fo_ind _ _ F H0) as [Hi1 Hi2]. pose proof (data_range r Hr) as Hr0. pose proof (data_range _ Hi1) as Hi0.
  pose proof (Hblk (ind x)) as Hb. unfold block_ok in Hb. change (Z.to_nat BSIZE) with 1024%nat in Hb.
  assert (Ha : forall bn', is_bn bn' -> addr (add_entry bn) x bn' = if decide (bn' = bn) then r else addr c x bn').
  { intros bn' Hb'. unfold add_entry, addr, is_bn in *. rewrite bupd_eq, take_ind by done. change NDIRECT with 12 in *. change MAXFILE with 268 in *.
    destruct (Z.ltb_spec bn' 12); [by rewrite decide_False by lia|]. rewrite (proj2 (Z.eqb_neq (ind x) 0)) by done. case_decide as E.
    - subst. rewrite get_put_le by lia. apply Z.mod_small. destruct (g_size _ Hg). change (256 ^ Z.of_nat 4) with (2 ^ 32). lia.
    - apply get_put_le_other; lia. }
  assert (Hu : forall b, 0 <= b < sb_size B -> used (add_entry bn) b = if decide (b = r) then true else used c b).
  { intros b Hb'. unfold add_entry. rewrite (used_data B Hg) by done. by apply used_take. }
  assert (Hbn' : is_bn bn) by (unfold is_bn; change NDIRECT with 12 in *; lia).
  cut (file_ok (add_entry bn) x /\ extends none c x (add_entry bn) x); [intros [? ?]; by rewrite Ha, decide_True|].
  apply (file_add c _ x _ r) with (bn := bn); try done.
  - apply F.
  - intros b H1 H2. unfold add_entry. rewrite bupd_ne by (by intros ->). by apply take_rest.
  - intros b H1 H2 H3. unfold add_entry. rewrite bupd_ne by done. apply take_data; [done..|]. congruence.
Qed.

End Steps.

End File.

(** ** bmap *)

Section Bmap.
Context {D : DiskDriver} {DL : DiskLaws} (B : superblock) (Hg : geom B).
Context (s0 : kstate) (HB : sb s0 = B) (Hpan : panicked s0 = false) (Hopen : l_outstanding (klog s0) = 1).
Implicit Types (c : Z -> list Z) (G : gset Z) (x : inode) (T : list inode).

Notation fsx := (fsx (sb_logstart B) (sb_nlog B) s0).
Notation spare := (spare (sb_nlog B)).
Notation file_ok := (file_ok B).
Notation extends := (extends B).

(** Room in the log for [m] data blocks, and for the indirect block if it has not
    been logged yet. *)
Definition budget (m : nat) G x : Prop := (ind x <> 0 /\ ind x ∈ G /\ spare m G) \/ spare (S m) G.

Lemma budget_room m G x : budget m G x -> spare m G.
Proof. intros [(_ & _ & H)|H]; [done|]. by apply (spare_le _ (S m)); [lia|]. Qed.
Lemma budget_add m G x b : budget (S m) G x -> budget m ({[b]} ∪ G) x.
Proof.
  intros [(H1 & H2 & H3)|H]; [left|right; by apply spare_add]. split_and!; [done|set_solver|by apply spare_add].
Qed.
Lemma budget_le m m' G x : (m' <= m)%nat -> budget m G x -> budget m' G x.
Proof. intros Hm [(H1 & H2 & H3)|H]; [left; split_and!; [done..|by eapply spare_le]|right; by eapply spare_le; [|exact H]; lia]. Qed.
Lemma budget_ind m G x b : ind x <> 0 -> budget (S m) G x -> budget m ({[b]} ∪ ({[ind x]} ∪ G)) x.
Proof.
  intros Hi [(H1 & H2 & H3)|H]; left; (split_and!; [done|set_solver|]).
  - apply spare_add. by apply spare_in.
  - by apply spare_add, spare_add.
Qed.

Definition same_meta x x' : Prop := x' = set_i_addrs (i_addrs x') x.
Definition full c : Prop := forall b, 0 <= b < sb_size B -> used B c b = true.

Definition bmap_post T K ip c x G m bn (r : Z) (s' : kstate) : Prop :=
  exists c' x' G', fsx s' (<[ip := x']> T) K c' ∅ G' /\ file_ok c' x' /\ extends none c x c' x' /\ same_meta x x' /\
    r = addr c' x' bn /\ G ⊆ G' /\ (r <> 0 -> budget m ({[r]} ∪ G') x') /\ (r = 0 -> full c').

Lemma same_meta_refl x : same_meta x x.
Proof. by destruct x. Qed.
Lemma same_meta_set x i a : same_meta x (set_addr i a x).
Proof. done. Qed.
Lemma same_meta_trans x1 x2 x3 : same_meta x1 x2 -> same_meta x2 x3 -> same_meta x1 x3.
Proof. unfold same_meta. intros -> ->. done. Qed.

Lemma extends_meta c x c' x' : extends none c x c' x' -> meta_used B c -> meta_used B c'.
Proof. intros E Hm b Hb. apply E; [|by apply Hm]. pose proof (layout_order B Hg). lia. Qed.

Context (T : list inode) (K : nat -> sleeplock) (ip : nat).

Lemma bmap_same s c x G m bn e :
  fsx s T K c ∅ G -> T !! ip = Some x -> file_ok c x -> budget (S m) G x -> addr c x bn <> 0 ->
  runs (mret (addr c x bn)) s e (bmap_post T K ip c x G m bn).
Proof.
  intros X Hx F Hbd Ha. apply runs_ret. exists c, x, G. rewrite list_insert_same by done.
  split_and!; [done|done|apply extends_refl|apply same_meta_refl|done|done|by intros _; apply budget_add|done].
Qed.

Lemma bmap_direct s c x G m bn e :
  fsx s T K c ∅ G -> T !! ip = Some x -> i_dev x = ROOTDEV -> file_ok c x -> meta_used B c -> bitmap_in B G -> budget (S m) G x ->
  0 <= bn < NDIRECT -> runs (bmap ip bn) s e (bmap_post T K ip c x G m bn).
Proof.
  intros X Hx Hdev F Hm Hbm Hbd Hbn. unfold bmap. eapply wp_inodeget; [exact X|done|].
  assert (Hget : get_addr x (Z.to_nat bn) = addr c x bn) by (unfold addr; by rewrite (proj2 (Z.ltb_lt _ _)) by lia).
  rewrite (proj2 (Z.ltb_lt _ _)), Hget by lia. destruct (Z.eqb_spec (addr c x bn) 0) as [H0|H0]; cbn [negb]; [|by eapply bmap_same].
  apply runs_bind. rewrite Hdev. eapply runs_mono.
  { apply (balloc_runs B Hg s0 HB Hpan Hopen _ _ _ _ _ _ e X Hm); [intros b [? Hb]; by rewrite lookup_empty in Hb|rewrite map_size_empty; lia|done|].
    apply budget_room in Hbd. by eapply spare_le; [|exact Hbd]; lia. }
  cbn beta. intros r s1 [(-> & Hfull & X1)|(Hr & Hfree & _ & X1)].
  - rewrite Z.eqb_refl. apply runs_ret. exists c, x, G. rewrite list_insert_same by done.
    split_and!; [done|done|apply extends_refl|apply same_meta_refl|done|done|done|done].
  - pose proof (data_range B Hg r Hr). rewrite (proj2 (Z.eqb_neq _ _)) by lia.
    eapply wp_inodeset; [exact X1|done|]. intros s2 X2. apply runs_ret.
    destruct (add_direct B Hg c x r) with (bn := bn) as [F' E']; try done; [intros b; by eapply fsx_block|].
    exists (take_block B c r), (set_addr (Z.to_nat bn) r x), ({[r]} ∪ G). pose proof (fo_len _ _ _ F) as Hl. change NDIRECT with 12 in Hbn.
    assert (Hi : ind (set_addr (Z.to_nat bn) r x) = ind x).
    { unfold ind. rewrite get_set_addr, decide_False by (rewrite ?Hl; change (Z.to_nat NDIRECT) with 12%nat; lia). done. }
    split_and!; [done|done|done|apply same_meta_set| |set_solver| |lia].
    + unfold addr. rewrite (proj2 (Z.ltb_lt _ _)) by (change NDIRECT with 12; lia). by rewrite get_set_addr, decide_True by (rewrite ?Hl; lia).
    + intros _. replace ({[r]} ∪ ({[r]} ∪ G)) with ({[r]} ∪ G) by set_solver. unfold budget. rewrite Hi. by apply budget_add.
Qed.

(** The part of [bmap] that looks up, or adds, an entry of the indirect block. *)
Definition bmap_entry (dev a bn : Z) : M Z :=
  bp ← bread dev a;
  d ← bdata bp;
  let addr := get_le d (4 * Z.to_nat bn) 4 in
  addr ← (if negb (addr =? 0) then mret addr else
          addr ← balloc dev;
          when (negb (addr =? 0))
            (d ← bdata bp;
             set_bdata bp (put_le d (4 * Z.to_nat bn) 4 addr);;
             log_write bp);;
          mret addr);
  brelse bp;;
  mret addr.

Lemma release_ret {A} s c G b i (r : A) e (Q : A -> kstate -> Prop) :
  fsx s T K c (<[b := i]> ∅) G -> (forall s', fsx s' T K c ∅ G -> Q r s') -> runs (brelse i;; mret r) s e Q.
Proof.
  intros X Hp. apply runs_bind. eapply runs_mono; [by eapply brelse_runs; [exact X|apply lookup_empty]|].
  cbn beta. intros _ s' X'. apply runs_ret. by apply Hp.
Qed.

Lemma bmap_entry_runs s c x G m bn e :
  fsx s T K c ∅ G -> T !! ip = Some x -> file_ok c x -> meta_used B c -> bitmap_in B G -> budget (S m) G x ->
  NDIRECT <= bn < MAXFILE -> ind x <> 0 ->
  runs (bmap_entry ROOTDEV (ind x) (bn - NDIRECT)) s e (bmap_post T K ip c x G m bn).
Proof.
  intros X Hx F Hm Hbm Hbd Hbn Hi. destruct (fo_ind _ _ _ F Hi) as [Hid Hiu]. destruct (data_home B Hg _ Hid) as [Hok Hout].
  unfold bmap_entry. eapply wp_fbread; [exact X|apply lookup_empty|rewrite map_size_empty; lia|done|]. intros i s1 X1.
  eapply (wp_fbdata _ _ s0 s1 T K c _ G (ind x)); [exact X1|by rewrite lookup_insert_eq|].
  assert (Hget : get_le (c (ind x)) (4 * Z.to_nat (bn - NDIRECT)) 4 = addr c x bn).
  { unfold addr. by rewrite (proj2 (Z.ltb_ge _ _)), (proj2 (Z.eqb_neq _ _)) by (done || lia). }
  cbv zeta. rewrite Hget. apply runs_bind.
  destruct (Z.eqb_spec (addr c x bn) 0) as [H0|H0]; cbn [negb].
  - apply runs_bind. eapply runs_mono.
    { apply (balloc_runs B Hg s0 HB Hpan Hopen _ _ _ _ _ _ e X1 Hm).
      - intros b [j Hb]. apply lookup_insert_Some in Hb as [[<- _]|[_ Hb]]; [done|by rewrite lookup_empty in Hb].
      - rewrite map_size_insert_None, map_size_empty by apply lookup_empty. lia.
      - done.
      - apply budget_room in Hbd. by eapply spare_le; [|exact Hbd]; lia. }
    cbn beta. intros r s2 [(-> & Hfull & X2)|(Hr & Hfree & _ & X2)].
    + rewrite Z.eqb_refl. cbn [negb when]. apply runs_bind, runs_ret, runs_ret. eapply release_ret; [exact X2|].
      intros s3 X3. exists c, x, G. rewrite list_insert_same by done.
      split_and!; [done|done|apply extends_refl|apply same_meta_refl|done|done|done|done].
    + pose proof (data_range B Hg r Hr). rewrite (proj2 (Z.eqb_neq _ _)) by lia. cbn [negb when].
      destruct (add_indirect B Hg c x r) with (bn := bn) as (F' & E' & Ha'); try done; [intros b; by eapply fsx_block|].
      apply runs_bind. eapply runs_mono.
      { eapply (wp_fbdata _ _ s0 s2 T K _ _ _ (ind x)); [exact X2|by rewrite lookup_insert_eq|].
        eapply (fupdate_runs _ _ s0 s2 T K _ _ _ (ind x)); [exact X2|by rewrite lookup_insert_eq|done| |done|done|].
        - apply block_ok_put; [by eapply fsx_block|]. change NDIRECT with 12 in *. change MAXFILE with 268 in *. lia.
        - eapply spare_room. destruct Hbd as [(_ & Hin & Hsp)|Hsp]; [apply spare_in; [set_solver|]|apply spare_add]; by apply spare_add. }
      cbn beta. intros _ s3 X3. apply runs_ret. eapply release_ret; [exact X3|]. intros s4 X4.
      exists (add_entry B c x r bn), x, ({[ind x]} ∪ ({[r]} ∪ G)). rewrite list_insert_same by done.
      split_and!; [done|done|done|apply same_meta_refl|done|set_solver| |lia].
      intros _. replace ({[r]} ∪ ({[ind x]} ∪ ({[r]} ∪ G))) with ({[r]} ∪ ({[ind x]} ∪ G)) by set_solver. by apply budget_ind.
  - apply runs_ret. eapply release_ret; [exact X1|]. intros s3 X3. exists c, x, G. rewrite list_insert_same by done.
    split_and!; [done|done|apply extends_refl|apply same_meta_refl|done|done|by intros _; apply budget_add|done].
Qed.

Lemma bmap_post_trans c x c1 x1 G G1 m bn r s' :
  extends none c x c1 x1 -> same_meta x x1 -> G ⊆ G1 ->
  bmap_post (<[ip := x1]> T) K ip c1 x1 G1 m bn r s' -> bmap_post T K ip c x G m bn r s'.
Proof using Hg.
  clear HB Hpan Hopen.
  intros E1 S1 HG (c' & x' & G' & X & F & E & S & Ha & HG' & Hb & Hf). exists c', x', G'. rewrite list_insert_insert_eq in X.
  split_and!; [done|done|by eapply (extends_trans B Hg)|by eapply same_meta_trans|done|set_solver|done|done].
Qed.

End Bmap.

Section BmapRun.
Context {D : DiskDriver} {DL : DiskLaws} (B : superblock) (Hg : geom B).
Context (s0 : kstate) (HB : sb s0 = B) (Hpan : panicked s0 = false) (Hopen : l_outstanding (klog s0) = 1).
Implicit Types (c : Z -> list Z) (G : gset Z) (x : inode) (T : list inode).

Notation fsx := (fsx (sb_logstart B) (sb_nlog B) s0).
Notation bmap_post := (bmap_post B s0).

Lemma bmap_indirect s T K ip c x G m bn e :
  fsx s T K c ∅ G -> T !! ip = Some x -> i_dev x = ROOTDEV -> file_ok B c x -> meta_used B c -> bitmap_in B G -> budget B (S m) G x ->
  NDIRECT <= bn < MAXFILE -> runs (bmap ip bn) s e (bmap_post T K ip c x G m bn).
Proof.
  intros X Hx Hdev F Hm Hbm Hbd Hbn. unfold bmap. eapply wp_inodeget; [exact X|done|].
  rewrite (proj2 (Z.ltb_ge _ _)) by lia. cbv zeta. rewrite (proj2 (Z.ltb_lt (bn - NDIRECT) NINDIRECT)) by (unfold MAXFILE in Hbn; lia).
  rewrite Hdev. fold (ind x). apply runs_bind. destruct (Z.eqb_spec (ind x) 0) as [H0|H0]; cbn [negb].
  - destruct Hbd as [(Hne & _)|Hsp]; [done|]. apply runs_bind. eapply runs_mono.
    { apply (balloc_runs B Hg s0 HB Hpan Hopen _ _ _ _ _ _ e X Hm); [intros b [? Hb]; by rewrite lookup_empty in Hb|rewrite map_size_empty; lia|done|].
      by eapply spare_le; [|exact Hsp]; lia. }
    cbn beta. intros r s1 [(-> & Hfull & X1)|(Hr & Hfree & _ & X1)].
    + rewrite Z.eqb_refl. cbn [negb when]. apply runs_bind, runs_ret, runs_ret. rewrite Z.eqb_refl. apply runs_ret.
      exists c, x, G. rewrite list_insert_same by done.
      split_and!; [done|done|apply extends_refl|apply same_meta_refl| |done|done|done].
      unfold addr. by rewrite (proj2 (Z.ltb_ge _ _)), H0, Z.eqb_refl by lia.
    + pose proof (data_range B Hg r Hr). rewrite (proj2 (Z.eqb_neq _ _)) by lia. cbn [negb when].
      apply runs_bind. eapply runs_mono; [by apply (inodeset_runs B s0 _ _ _ _ _ _ _ x _ _ X1)|]. cbn beta. intros _ s2 X2.
      apply runs_ret. rewrite (proj2 (Z.eqb_neq _ _)) by lia.
      destruct (add_ind B Hg c x r) as (F1 & E1 & Hi & _); try done; [intros b; by eapply fsx_block|].
      eapply runs_mono; [|intros r' s3; eapply bmap_post_trans; [done|exact E1|apply same_meta_set|apply (union_subseteq_r {[r]} G)]].
      fold (bmap_entry ROOTDEV r (bn - NDIRECT)). rewrite <- Hi at 1.
      apply (bmap_entry_runs B Hg s0 HB Hpan Hopen (<[ip := set_addr (Z.to_nat NDIRECT) r x]> T)); try done.
      * apply list_lookup_insert_eq. by eapply lookup_lt_Some.
      * by eapply (extends_meta B Hg).
      * intros b Hb. specialize (Hbm b Hb). set_solver.
      * left. rewrite Hi. split_and!; [lia|set_solver|by apply spare_add].
      * rewrite Hi. lia.
  - apply runs_ret. rewrite (proj2 (Z.eqb_neq _ _)) by done. by apply (bmap_entry_runs B Hg s0 HB Hpan Hopen T K ip).
Qed.

Lemma bmap_runs s T K ip c x G m bn e :
  fsx s T K c ∅ G -> T !! ip = Some x -> i_dev x = ROOTDEV -> file_ok B c x -> meta_used B c -> bitmap_in B G -> budget B (S m) G x ->
  is_bn bn -> runs (bmap ip bn) s e (bmap_post T K ip c x G m bn).
Proof.
  intros. destruct (Z.lt_ge_cases bn NDIRECT); unfold is_bn in *; [apply (bmap_direct B Hg s0 HB Hpan Hopen)|apply bmap_indirect]; done || lia.
Qed.

End BmapRun.
