(* ===== verification/FsData.v ===== *)
(** * kernel/fs.c: reading and writing a file

    A file is the sequence of its bytes.  [readi] returns the bytes at an offset and
    [writei] replaces or appends bytes, over any number of block boundaries; nothing
    else on the disk changes but the bitmap and the inode. *)

From stdpp Require Import base gmap strings numbers list.
From Stdlib Require Import Ascii.
From S2P Require Import Prelude KState Sample StringC Spinlock Sched Sleeplock Quiet Uart Printf Bio BufCache BufRefine Log LogDisk BufWp LogRun LogSafe LogOps Transaction FsWp Fs FsBlocks FsInode FsFile.

(** ** The bytes of a file *)

Definition fbyte (c : Z -> list Z) (x : inode) (o : Z) : Z :=
  nth (Z.to_nat (o mod BSIZE)) (c (addr c x (o / BSIZE))) 0.
Definition bytes (c : Z -> list Z) (x : inode) (off n : Z) : list Z := fbyte c x <$> seqZ off n.
(** The contents of the file. *)
Definition file_bytes (c : Z -> list Z) (x : inode) : list Z := bytes c x 0 (i_size x).

Lemma in_block off j : 0 <= j -> off mod BSIZE + j < BSIZE -> (off + j) / BSIZE = off / BSIZE /\ (off + j) mod BSIZE = off mod BSIZE + j.
Proof.
  change BSIZE with 1024. intros Hj H. pose proof (Z.mod_pos_bound off 1024 ltac:(lia)).
  pose proof (Z.div_mod off 1024 ltac:(lia)) as Hd. replace (off + j) with (off mod 1024 + j + off / 1024 * 1024) by lia.
  rewrite Z.div_add, Z.mod_add, Z.div_small, Z.mod_small by lia. lia.
Qed.

Lemma slice_bytes c x off m :
  0 <= m -> off mod BSIZE + m <= BSIZE -> block_ok (c (addr c x (off / BSIZE))) ->
  slice (c (addr c x (off / BSIZE))) (Z.to_nat (off mod BSIZE)) (Z.to_nat m) = bytes c x off m.
Proof.
  intros Hm H Hok. apply list_eq. intros j. rewrite lookup_slice. unfold bytes. rewrite list_lookup_fmap.
  pose proof (Z.mod_pos_bound off BSIZE ltac:(done)) as Hb. case_decide as Hj.
  - rewrite lookup_seqZ_lt by lia. cbn [fmap option_fmap option_map]. unfold fbyte.
    destruct (in_block off (Z.of_nat j)) as [-> ->]; [lia|lia|].
    unfold block_ok in Hok. rewrite Z2Nat.inj_add, Nat2Z.id by lia.
    destruct (lookup_lt_is_Some_2 (c (addr c x (off / BSIZE))) (Z.to_nat (off mod BSIZE) + j)) as [v Hv]; [lia|].
    rewrite Hv. f_equal. symmetry. by apply nth_lookup_Some.
  - by rewrite lookup_seqZ_ge by lia.
Qed.

Lemma bytes_app c x off n m : 0 <= n -> 0 <= m -> bytes c x off (n + m) = bytes c x off n ++ bytes c x (off + n) m.
Proof. intros. unfold bytes. rewrite seqZ_app by lia. by rewrite fmap_app. Qed.

Lemma length_bytes c x off n : length (bytes c x off n) = Z.to_nat n.
Proof. unfold bytes. by rewrite length_fmap, length_seqZ. Qed.

(** The number of blocks that [n] bytes at [off] touch. *)
Definition nblk (off n : Z) : nat :=
  if n <=? 0 then 0%nat else Z.to_nat ((off + n - 1) / BSIZE - off / BSIZE + 1).

Lemma nblk_step off n :
  0 <= off -> 0 < n -> let m := Z.min n (BSIZE - off mod BSIZE) in
  nblk off n = S (nblk (off + m) (n - m)) /\ 0 < m <= n /\ off mod BSIZE + m <= BSIZE.
Proof.
  intros Ho Hn m. change BSIZE with 1024 in *. pose proof (Z.mod_pos_bound off 1024 ltac:(lia)).
  pose proof (Z.div_mod off 1024 ltac:(lia)) as Hd. unfold nblk. change BSIZE with 1024.
  rewrite (proj2 (Z.leb_gt n 0)) by lia. split; [|lia]. destruct (Z.leb_spec (n - m) 0) as [Hle|Hgt].
  - replace (off + n - 1) with (off mod 1024 + n - 1 + off / 1024 * 1024) by lia. rewrite Z.div_add, Z.div_small by lia. lia.
  - assert (Hm : m = 1024 - off mod 1024) by lia. replace (off + m) with ((off / 1024 + 1) * 1024) by lia.
    rewrite Z.div_mul by lia. replace ((off / 1024 + 1) * 1024 + (n - m) - 1) with (off + n - 1) by lia.
    pose proof (Z.div_le_mono ((off / 1024 + 1) * 1024) (off + n - 1) 1024). rewrite Z.div_mul in * by lia. lia.
Qed.

Lemma nblk_fuel off n : 0 <= off -> 0 <= n -> (nblk off n < Z.to_nat (n / BSIZE + 3))%nat.
Proof.
  intros Ho Hn. unfold nblk. change BSIZE with 1024. pose proof (Z.div_pos n 1024 ltac:(lia) ltac:(lia)).
  destruct (Z.leb_spec n 0); [lia|]. pose proof (Z.div_mod off 1024 ltac:(lia)). pose proof (Z.div_mod n 1024 ltac:(lia)).
  pose proof (Z.mod_pos_bound off 1024 ltac:(lia)). pose proof (Z.mod_pos_bound n 1024 ltac:(lia)).
  pose proof (Z.div_lt_upper_bound (off + n - 1) 1024 (off / 1024 + n / 1024 + 2) ltac:(lia) ltac:(lia)). lia.
Qed.

(** ** Reading *)

Section Read.
Context {L : Layout} {D : DiskDriver} {DL : DiskLaws} (B : superblock) (Hg : geom B).
Implicit Types (c : Z -> list Z) (G : gset Z) (x : inode) (T : list inode) (s : kstate).
Notation fsx := (fsx (sb_logstart B) (sb_nlog B)).

(** Looking up a block that is there changes nothing. *)
Lemma bmap_known s0 s T K ip c x G bn e :
  fsx s0 s T K c ∅ G -> T !! ip = Some x -> i_dev x = ROOTDEV -> file_ok B c x -> is_bn bn -> addr c x bn <> 0 ->
  runs (bmap ip bn) s e (fun r s' => r = addr c x bn /\ fsx s0 s' T K c ∅ G).
Proof.
  intros X Hx Hdev F Hbn Ha. unfold bmap. eapply wp_inodeget; [exact X|done|]. unfold is_bn, MAXFILE in Hbn.
  destruct (Z.ltb_spec bn NDIRECT) as [Hlt|Hge].
  - assert (Hget : get_addr x (Z.to_nat bn) = addr c x bn) by (unfold addr; by rewrite (proj2 (Z.ltb_lt _ _)) by lia).
    cbv zeta. rewrite Hget, (proj2 (Z.eqb_neq _ _)) by done. by apply runs_ret.
  - cbv zeta. rewrite (proj2 (Z.ltb_lt (bn - NDIRECT) NINDIRECT)) by lia. fold (ind x).
    assert (Hi : ind x <> 0). { intros Hi. apply Ha. unfold addr. by rewrite (proj2 (Z.ltb_ge _ _)), Hi by lia. }
    rewrite (proj2 (Z.eqb_neq (ind x) 0)) by done. cbn [negb]. apply runs_bind, runs_ret.
    rewrite (proj2 (Z.eqb_neq (ind x) 0)), Hdev by done.
    destruct (fo_ind _ _ _ F Hi) as [Hid Hiu]. destruct (data_home B Hg _ Hid) as [Hok Hout].
    eapply wp_fbread; [exact X|apply lookup_empty|rewrite map_size_empty; lia|done|]. intros i s1 X1.
    eapply (wp_fbdata _ _ s0 s1 T K c _ G (ind x)); [exact X1|by rewrite lookup_insert_eq|].
    assert (Hget : get_le (c (ind x)) (4 * Z.to_nat (bn - NDIRECT)) 4 = addr c x bn).
    { unfold addr. by rewrite (proj2 (Z.ltb_ge _ _)), (proj2 (Z.eqb_neq _ _)) by (done || lia). }
    rewrite Hget, (proj2 (Z.eqb_neq _ _)) by done. cbn [negb]. apply runs_bind, runs_ret.
    eapply (wp_fbrelse _ _ s0 s1 T K _ _ _ (ind x)); [exact X1|by rewrite lookup_insert_eq|]. intros s2 X2.
    rewrite delete_insert_id in X2 by apply lookup_empty. by apply runs_ret.
Qed.

(** A store to memory outside the file system. *)
Lemma fsx_mem s0 s T K c H G m y :
  fsx s0 s T K c H G -> y = syn s \/ y = touch (syn s) -> fsx (set_mem m s0) (set_syn y (set_mem m s)) T K c H G.
Proof.
  intros [[K1 B1 D1 O1] HT HK Hr (L' & bs & R & X & Hc & Hl)] Hy. set (s' := set_syn y (set_mem m s)).
  assert (K0 : kq (set_mem m s) s') by (split; auto).
  split; [|done|done|done|].
  - split; [|done|done|done]. etrans; [|exact K0]. destruct K1 as [F1 Y1 P1]. split; [|done|done].
    revert F1. unfold fixed. cbn. intros [=]. congruence.
  - exists L', bs. split_and!; try done. destruct R as [Q O Hn (r & Hp & Hrr) Tb].
    assert (Hq : quiet s'). { apply (kq_quiet (set_mem m s)); [exact K0|exact Q]. }
    split; [exact Hq|by apply (dd_keep s)|exact Hn|exists r; by split|].
    change (cur_pid s) with (cur_pid (set_mem m s)) in Tb. rewrite <- (kq_cur_pid _ _ K0) in Tb. exact Tb.
Qed.

(** A destination of [either_copyout] for [N] bytes: after [out] has been stored the
    memory satisfies [R out]; a failed copy leaves it as [F] says. *)
Definition sink (N : Z) (dst : kdst) (R : list Z -> gmap Z Z -> Prop) (F : gmap Z Z -> Prop) (s0 : kstate) (e : env) : Prop :=
  forall s out bs, kq (set_mem (mem s) s0) s -> quiet s -> R out (mem s) -> Z.of_nat (length out + length bs) <= N ->
    exists r m y, either_copyout (dst_add dst (Z.of_nat (length out))) bs (Z.of_nat (length bs)) s e =
        Ok r (set_syn y (set_mem m s)) e /\ (y = syn s \/ y = touch (syn s)) /\
      ((r = 0 /\ R (out ++ bs) m) \/ (r = -1 /\ F m)).

Lemma sink_local N s0 e m0 : mem s0 = m0 -> sink N LocalDst (fun _ m => m = m0) (fun _ => False) s0 e.
Proof.
  intros Hm s out bs Hk Q Hmem HN. eexists 0, (mem s), (touch (syn s)). split; [|split; [by right|by left]].
  unfold either_copyout. kstep ltac:(apply myproc_run; auto with xv6). cbn [dst_add]. unfold mret, KM_ret.
  apply Ok_eq; [done|]. by kext.
Qed.

Lemma dst_add_add dst a b : 0 <= a -> 0 <= b -> dst_add (dst_add dst a) b = dst_add dst (a + b).
Proof.
  intros. destruct dst; cbn; try done; f_equal; [|lia]. unfold u64. rewrite Zplus_mod_idemp_l. f_equal. lia.
Qed.

(** What [readi] returns, and the memory it leaves. *)
Definition read_post s0 T K c G (R : list Z -> gmap Z Z -> Prop) (F : gmap Z Z -> Prop) (n : Z) (out : list Z)
    (r : Z * list Z) (s' : kstate) : Prop :=
  exists m, fsx (set_mem m s0) s' T K c ∅ G /\ ((r = (n, out) /\ R out m) \/ (r.1 = -1 /\ F m)).

Lemma fsx_memeq s0 s T K c H G : fsx s0 s T K c H G -> mem s = mem s0.
Proof. intros X. pose proof (kq_fixed _ _ (fk_kq _ _ (fx_keep _ _ _ _ _ _ _ _ _ X))) as Hf. by injection Hf. Qed.

Lemma fsx_same_mem s0 s T K c H G : fsx s0 s T K c H G -> fsx (set_mem (mem s0) s0) s T K c H G.
Proof. by rewrite set_mem_id. Qed.

Lemma readi_loop_runs dst R F T K ip c x G e k : forall s0 s off tot n out,
  sink n dst R F s0 e -> fsx s0 s T K c ∅ G -> T !! ip = Some x -> i_dev x = ROOTDEV -> file_ok B c x ->
  0 <= off -> 0 <= tot <= n -> off + (n - tot) <= i_size x -> tot = Z.of_nat (length out) -> R out (mem s0) ->
  (nblk off (n - tot) < k)%nat ->
  runs (readi_loop k ip (dst_add dst tot) off tot n out) s e (read_post s0 T K c G R F n (out ++ bytes c x off (n - tot))).
Proof.
  induction k as [|k IH]; intros s0 s off tot n out Hsink X Hx Hdev Fo Hoff Htot Hsz Hlen HR Hk; [lia|]. cbn [readi_loop].
  destruct (Z.ltb_spec tot n) as [Hlt|Hge]; cbn [negb].
  2: { apply runs_ret. exists (mem s0). split; [by apply fsx_same_mem|left]. replace (n - tot) with 0 by lia.
       unfold bytes. cbn. rewrite app_nil_r. split; [by replace tot with n by lia|done]. }
  destruct (nblk_step off (n - tot) Hoff ltac:(lia)) as (Hn & Hm & Hb). set (m := Z.min _ _) in *. rewrite Hn in Hk.
  pose proof (Z.div_mod off BSIZE ltac:(done)) as Hdm. pose proof (Z.mod_pos_bound off BSIZE ltac:(done)) as Hmod.
  pose proof (Z.div_pos off BSIZE ltac:(lia) ltac:(done)) as Hdiv.
  assert (Ha : addr c x (off / BSIZE) <> 0) by (apply Fo; lia).
  assert (Hbn : is_bn (off / BSIZE)) by (apply (size_bn B c x Fo); lia).
  apply runs_bind. eapply runs_mono; [by apply (bmap_known s0 s T K ip c x G (off / BSIZE))|]. cbn beta. intros a s1 [-> X1].
  rewrite (proj2 (Z.eqb_neq _ _)) by done. eapply wp_inodeget; [exact X1|done|]. rewrite Hdev.
  destruct (fo_data _ _ _ Fo _ Hbn Ha) as [Had _]. destruct (data_home B Hg _ Had) as [Hok _].
  eapply wp_fbread; [exact X1|apply lookup_empty|rewrite map_size_empty; lia|done|]. intros i s2 X2. cbv zeta.
  eapply (wp_fbdata _ _ s0 s2 T K c _ G (addr c x (off / BSIZE))); [exact X2|by rewrite lookup_insert_eq|].
  rewrite slice_bytes by (lia || by eapply fsx_block).
  pose proof (length_bytes c x off m) as Hlb. assert (Hm' : m = Z.of_nat (length (bytes c x off m))) by lia.
  destruct (Hsink s2 out (bytes c x off m)) as (r & mm & y & Er & Hy & Hr).
  { rewrite (fsx_memeq _ _ _ _ _ _ _ X2), set_mem_id. apply X2. } { by eapply fsx_quiet. } { by rewrite (fsx_memeq _ _ _ _ _ _ _ X2). } { lia. }
  rewrite <- Hm', <- Hlen in Er. eapply runs_step; [exact Er|].
  pose proof (fsx_mem _ _ _ _ _ _ _ mm y X2 Hy) as X3. destruct Hr as [[-> HR']|[-> HF]].
  - rewrite (proj2 (Z.eqb_neq 0 (-1))) by done. apply runs_bind.
    eapply runs_mono; [by eapply brelse_runs; [exact X3|apply lookup_empty]|]. cbn beta. intros _ s4 X4.
    rewrite dst_add_add by lia. eapply runs_mono; [apply (IH (set_mem mm s0)); try done; try lia|].
    + rewrite length_app. lia.
    + replace (n - (tot + m)) with (n - tot - m) by lia. lia.
    + cbn beta. intros r5 s5 (m5 & X5 & H5). exists m5. split; [exact X5|].
      replace (n - tot) with (m + (n - (tot + m))) by lia. rewrite bytes_app by lia. by rewrite app_assoc.
  - rewrite Z.eqb_refl. apply runs_bind. eapply runs_mono; [by eapply brelse_runs; [exact X3|apply lookup_empty]|].
    cbn beta. intros _ s4 X4. apply runs_ret. exists mm. split; [exact X4|by right].
Qed.

(** The bytes of the file at [off], at most [n]. *)
Definition read_at c x (off n : Z) : list Z := bytes c x off (Z.min n (i_size x - off)).

Lemma readi_runs dst R F T K ip c x G e s0 s off n :
  sink (Z.min n (i_size x - off)) dst R F s0 e -> dst_add dst 0 = dst -> fsx s0 s T K c ∅ G -> T !! ip = Some x -> i_dev x = ROOTDEV -> file_ok B c x ->
  0 <= off <= i_size x -> 0 <= n -> off + n < 2 ^ 32 -> R [] (mem s0) ->
  runs (readi ip dst off n) s e (read_post s0 T K c G R F (Z.min n (i_size x - off)) (read_at c x off n)).
Proof.
  intros Hsink Hdst X Hx Hdev Fo Hoff Hn Hlt HR. unfold readi. eapply wp_inodeget; [exact X|done|].
  unfold u32. rewrite Z.mod_small by lia. rewrite !(proj2 (Z.ltb_ge _ _)) by lia. cbn [orb].
  replace (if i_size x <? off + n then i_size x - off else n) with (Z.min n (i_size x - off))
    by (destruct (Z.ltb_spec (i_size x) (off + n)); lia).
  rewrite <- Hdst. eapply runs_mono; [apply (readi_loop_runs dst R F T K ip c x G e _ s0 s off 0 _ []); try done; try lia|].
  - rewrite Z.sub_0_r. by apply nblk_fuel; lia.
  - cbn beta. intros r s'. by rewrite Z.sub_0_r.
Qed.

(** Reading beyond the end, and a range that wraps, give nothing. *)
Lemma readi_beyond T K ip c x G e s0 s dst off n :
  fsx s0 s T K c ∅ G -> T !! ip = Some x -> i_size x < off \/ u32 (off + n) < off ->
  readi ip dst off n s e = Ok (0, []) s e.
Proof.
  intros X Hx H. unfold readi, inodeget. rewrite bind_gets. unfold get_inode.
  rewrite (fx_itable _ _ _ _ _ _ _ _ _ X), Hx. change (default zero_inode (Some x)) with x.
  replace ((i_size x <? off) || (u32 (off + n) <? off)) with true; [reflexivity|].
  symmetry. apply orb_true_iff. rewrite !Z.ltb_lt. done.
Qed.

End Read.

(** ** Writing *)

Section WriteBlock.
Context (B : superblock) (Hg : geom B).
Implicit Types (c : Z -> list Z) (x : inode).
Notation file_ok := (file_ok B).

(** The file changed only in its own blocks, by growing and by stores. *)
Definition evolves c x c' x' : Prop := extends B (owns c' x') c x c' x'.

Lemma evolves_refl c x : evolves c x c x.
Proof. apply extends_refl. Qed.
Lemma evolves_trans c1 x1 c2 x2 c3 x3 : evolves c1 x1 c2 x2 -> evolves c2 x2 c3 x3 -> evolves c1 x1 c3 x3.
Proof.
  intros E1 E2. apply (extends_trans B Hg _ _ _ c2 x2); [|done]. eapply extends_weak; [|exact E1].
  intros b. by eapply extends_owns.
Qed.
Lemma evolves_grow c x c' x' : extends B none c x c' x' -> evolves c x c' x'.
Proof. apply extends_weak. by intros b []. Qed.

(** A file whose map is the same and whose blocks stay allocated is well formed. *)
Lemma file_ok_ext c x c' x' :
  file_ok c x -> length (i_addrs x') = 13%nat -> 0 <= i_size x' <= MAXFILE * BSIZE -> ind x' = ind x ->
  (forall bn, is_bn bn -> addr c' x' bn = addr c x bn) ->
  (forall bn, 0 <= bn -> bn * BSIZE < i_size x' -> addr c x bn <> 0) ->
  (forall b, is_data B b -> used B c b = true -> used B c' b = true) -> file_ok c' x'.
Proof.
  intros F Hl Hs Hi Ha Hall Hu. assert (Hbn : forall bn, 0 <= bn -> bn * BSIZE < i_size x' -> is_bn bn).
  { intros bn H1 H2. unfold is_bn. change BSIZE with 1024 in *. lia. }
  split; try done.
  - intros bn H1 H2. rewrite Ha by auto. auto.
  - intros bn H1. rewrite Ha by done. intros H2. destruct (fo_data _ _ _ F bn H1 H2). auto.
  - rewrite Hi. intros H1. destruct (fo_ind _ _ _ F H1). auto.
  - intros b1 b2 H1 H2. rewrite !Ha by done. by apply F.
  - intros bn H1. rewrite Ha, Hi by done. by apply F.
Qed.

Section Store.
Context (c : Z -> list Z) (x : inode) (off : Z) (chunk : list Z).
Notation a := (addr c x (off / BSIZE)).
Hypothesis (F : file_ok c x) (Hoff : 0 <= off) (Hbn : is_bn (off / BSIZE)) (Ha : a <> 0) (Hok : block_ok (c a)).
Hypothesis (Hfit : off mod BSIZE + Z.of_nat (length chunk) <= BSIZE).

Definition store_at : Z -> list Z := bupd c a (splice (c a) (Z.to_nat (off mod BSIZE)) chunk).

Lemma store_block_ok : block_ok (splice (c a) (Z.to_nat (off mod BSIZE)) chunk).
Proof using Hok Hfit.
  unfold block_ok in *. pose proof (Z.mod_pos_bound off BSIZE ltac:(done)). rewrite length_splice; lia.
Qed.

Lemma store_addr bn : is_bn bn -> addr store_at x bn = addr c x bn.
Proof using F Hbn Ha.
  intros Hb. apply addr_ext; [done|done|]. intros Hi. unfold store_at. rewrite bupd_ne; [done|].
  intros E. by apply (fo_ind_ne _ _ _ F _ Hbn Ha).
Qed.

Lemma store_used b : 0 <= b < sb_size B -> used B store_at b = used B c b.
Proof using F Hbn Ha Hg. intros Hb. apply (used_data B Hg); [|done]. by apply F. Qed.

Lemma store_file_ok : file_ok store_at x.
Proof using F Hbn Ha Hg.
  apply (file_ok_ext c x); [done|apply F|apply F|done|apply store_addr|apply F|].
  intros b Hb Hu. pose proof (data_range B Hg b Hb). by rewrite store_used by lia.
Qed.

Lemma store_evolves : evolves c x store_at x.
Proof using F Hbn Ha Hg.
  split; try done.
  - intros bn Hb _. by apply store_addr.
  - intros b Hb Hu. by rewrite store_used.
  - intros b Hb Hu. rewrite store_used in Hu by done. by left.
  - intros b [Hb [->|(bn & Hb' & <-)]]; left; rewrite ?store_addr in * by done; (split; [done|]); [by left|right; by exists bn].
  - intros b Hb _. unfold store_at. rewrite bupd_ne; [done|]. intros ->. apply Hb. by apply F.
  - intros b Hb Hu _ Hw. unfold store_at. rewrite bupd_ne; [done|]. intros ->. apply Hw. split; [done|]. right.
    exists (off / BSIZE). split; [done|by apply store_addr].
Qed.

Lemma store_fbyte o :
  0 <= o -> is_bn (o / BSIZE) -> addr c x (o / BSIZE) <> 0 ->
  fbyte store_at x o = if decide (off <= o < off + Z.of_nat (length chunk)) then nth (Z.to_nat (o - off)) chunk 0 else fbyte c x o.
Proof using F Hoff Hbn Ha Hok Hfit.
  intros Ho Hob Hoa. unfold fbyte. rewrite store_addr by done. pose proof (Z.mod_pos_bound off BSIZE ltac:(done)).
  pose proof (Z.mod_pos_bound o BSIZE ltac:(done)). pose proof (Z.div_mod o BSIZE ltac:(done)). pose proof (Z.div_mod off BSIZE ltac:(done)).
  unfold store_at. destruct (decide (o / BSIZE = off / BSIZE)) as [E|E].
  - rewrite E, bupd_eq. unfold block_ok in Hok. change BSIZE with 1024 in *. rewrite !nth_lookup, lookup_splice by lia.
    destruct (decide (off <= o < off + Z.of_nat (length chunk))).
    + rewrite decide_True by lia. do 2 f_equal. lia.
    + by rewrite decide_False by lia.
  - rewrite bupd_ne by (intros E'; by apply E, (fo_inj _ _ _ F)). rewrite decide_False; [done|].
    intros Hin. apply E. change BSIZE with 1024 in *. lia.
Qed.

End Store.

End WriteBlock.

Section WriteState.
Context (B : superblock) (Hg : geom B) (c0 : Z -> list Z) (x0 : inode) (off0 : Z) (bs : list Z).
Implicit Types (c : Z -> list Z) (x : inode).

(** The bytes of [bs] up to offset [off] have been written at [off0]. *)
Record wrote_to c x (off : Z) : Prop := mkwrote_to {
  wr_ok : file_ok B c x;
  wr_evolves : evolves B c0 x0 c x;
  wr_meta : same_meta x0 x;
  wr_alloc : forall bn, 0 <= bn -> bn * BSIZE < off -> addr c x bn <> 0;
  wr_bytes : forall o, 0 <= o -> o < i_size x0 \/ o < off ->
    fbyte c x o = if decide (off0 <= o < off) then nth (Z.to_nat (o - off0)) bs 0 else fbyte c0 x0 o
}.

Lemma meta_size x : same_meta x0 x -> i_size x = i_size x0.
Proof. by intros ->. Qed.
Lemma meta_dev x : same_meta x0 x -> i_dev x = i_dev x0.
Proof. by intros ->. Qed.

Lemma meta_inum x : same_meta x0 x -> i_inum x = i_inum x0.
Proof. by intros ->. Qed.

Lemma wrote_start : file_ok B c0 x0 -> 0 <= off0 <= i_size x0 -> wrote_to c0 x0 off0.
Proof.
  intros F Ho. split; [done|apply evolves_refl|apply same_meta_refl| |].
  - intros bn H1 H2. apply F; lia.
  - intros o H1 H2. by rewrite decide_False by lia.
Qed.

Lemma wrote_block c x off o : wrote_to c x off -> off <= MAXFILE * BSIZE -> 0 <= o -> o < i_size x0 \/ o < off ->
  is_bn (o / BSIZE) /\ addr c x (o / BSIZE) <> 0.
Proof.
  intros W Hm Ho H. pose proof (Z.div_mod o BSIZE ltac:(done)). pose proof (Z.mod_pos_bound o BSIZE ltac:(done)).
  pose proof (Z.div_pos o BSIZE ltac:(lia) ltac:(done)). pose proof (fo_size _ _ _ (wr_ok _ _ _ W)) as Hs.
  rewrite (meta_size x (wr_meta _ _ _ W)) in Hs. split; [unfold is_bn; change BSIZE with 1024 in *; lia|].
  destruct H as [H|H]; [apply (fo_alloc _ _ _ (wr_ok _ _ _ W)); [done|rewrite (meta_size x (wr_meta _ _ _ W)); lia]|].
  apply (wr_alloc _ _ _ W); lia.
Qed.

(** Growing the file keeps what has been written. *)
Lemma wrote_grow c x c' x' off :
  wrote_to c x off -> off <= MAXFILE * BSIZE -> file_ok B c' x' -> extends B none c x c' x' -> same_meta x x' -> wrote_to c' x' off.
Proof.
  intros W Hm F' E S. pose proof W as [F Ev Me Al By]. split; [done| |by eapply same_meta_trans| |].
  - eapply (evolves_trans B Hg); [exact Ev|by apply evolves_grow].
  - intros bn H1 H2. assert (Hbn : is_bn bn) by (unfold is_bn; change BSIZE with 1024 in *; lia).
    rewrite (ex_addr _ _ _ _ _ _ E); auto.
  - intros o H1 H2. destruct (wrote_block c x off o W Hm H1 H2) as [Hbn Ha]. rewrite <- By by done.
    unfold fbyte. pose proof (ex_addr _ _ _ _ _ _ E _ Hbn Ha) as He. rewrite He. f_equal.
    destruct (fo_data _ _ _ F _ Hbn Ha) as [Hd Hu]. apply (ex_data _ _ _ _ _ _ E); [done|done| |by intros []].
    rewrite <- He. apply (fo_ind_ne _ _ _ F'); [done|by rewrite He].
Qed.

(** One block's part of the bytes. *)
Lemma wrote_store c x off m :
  wrote_to c x off -> off0 <= off -> 0 <= off0 -> off + m <= MAXFILE * BSIZE -> 0 < m -> off mod BSIZE + m <= BSIZE ->
  off - off0 + m <= Z.of_nat (length bs) -> is_bn (off / BSIZE) -> addr c x (off / BSIZE) <> 0 -> block_ok (c (addr c x (off / BSIZE))) ->
  wrote_to (store_at c x off (slice bs (Z.to_nat (off - off0)) (Z.to_nat m))) x (off + m).
Proof.
  intros W Ho H0 Hmax Hm Hb Hlen Hbn Ha Hok. set (chunk := slice _ _ _).
  assert (Hc : length chunk = Z.to_nat m) by (apply length_slice; lia).
  assert (Hfit : off mod BSIZE + Z.of_nat (length chunk) <= BSIZE) by lia.
  pose proof W as [F Ev Me Al By]. pose proof (fo_size _ _ _ F) as Hsz. split; [by apply (store_file_ok B Hg)| |done| |].
  - eapply (evolves_trans B Hg); [exact Ev|by apply (store_evolves B Hg)].
  - intros bn H1 H2. assert (Hbn' : is_bn bn) by (unfold is_bn; change BSIZE with 1024 in *; lia).
    rewrite (store_addr B) by done. pose proof (Z.div_mod off BSIZE ltac:(done)).
    destruct (Z.lt_ge_cases bn (off / BSIZE)); [apply Al; change BSIZE with 1024 in *; lia|].
    replace bn with (off / BSIZE) by (change BSIZE with 1024 in *; lia). done.
  - intros o H1 H2. pose proof (Z.div_mod o BSIZE ltac:(done)). pose proof (Z.div_mod off BSIZE ltac:(done)).
    pose proof (Z.mod_pos_bound o BSIZE ltac:(done)). pose proof (Z.mod_pos_bound off BSIZE ltac:(done)).
    assert (Hblk : is_bn (o / BSIZE) /\ addr c x (o / BSIZE) <> 0).
    { destruct (decide (off <= o < off + m)) as [Hin|Hout]; [|apply (wrote_block c x off o W); lia].
      replace (o / BSIZE) with (off / BSIZE) by (change BSIZE with 1024 in *; lia). done. }
    destruct Hblk as [Hb1 Hb2]. rewrite (store_fbyte B) by (done || lia). rewrite Hc, Z2Nat.id by lia. destruct (decide (off <= o < off + m)) as [Hin|Hout].
    + rewrite decide_True by lia. unfold chunk. rewrite !nth_lookup, lookup_slice, decide_True by lia. do 2 f_equal. lia.
    + rewrite By by lia. destruct (decide (off0 <= o < off)); [by rewrite decide_True by lia|by rewrite decide_False by lia].
Qed.

End WriteState.

Section Write.
Context {L : Layout} {D : DiskDriver} {DL : DiskLaws} (B : superblock) (Hg : geom B).
Context (s0 : kstate) (HB : sb s0 = B) (Hpan : panicked s0 = false) (Hopen : l_outstanding (klog s0) = 1).
Implicit Types (c : Z -> list Z) (G : gset Z) (x : inode) (T : list inode) (s : kstate).
Notation fsx := (fsx (sb_logstart B) (sb_nlog B) s0).

(** A source of [either_copyin] that holds [bs]. *)
Definition source (src : ksrc) (bs : list Z) (e : env) : Prop :=
  forall s tot m, kq s0 s -> quiet s -> 0 <= tot -> 0 <= m -> tot + m <= Z.of_nat (length bs) ->
    exists y, either_copyin (src_add src tot) m s e = Ok (0, slice bs (Z.to_nat tot) (Z.to_nat m)) (set_syn y s) e /\
      (y = syn s \/ y = touch (syn s)).

Lemma source_local bs e : source (LocalSrc bs) bs e.
Proof.
  intros s tot m Hk Q H1 H2 H3. exists (touch (syn s)). split; [|by right].
  unfold either_copyin. kstep ltac:(apply myproc_run; auto with xv6). done.
Qed.

Lemma src_add_add src a b : 0 <= a -> 0 <= b -> src_add (src_add src a) b = src_add src (a + b).
Proof.
  intros. destruct src; cbn; f_equal.
  - unfold u64. rewrite Zplus_mod_idemp_l. f_equal. lia.
  - rewrite drop_drop. f_equal. lia.
Qed.

(** A write that stops early does so between blocks. *)
Definition between (off r : Z) : Prop := r = 0 \/ (off + r) mod BSIZE = 0.

Lemma between_next off0 off m : 0 <= off -> m = BSIZE - off mod BSIZE -> between off0 (off + m - off0).
Proof.
  intros Ho ->. right. replace (off0 + (off + (BSIZE - off mod BSIZE) - off0)) with ((off / BSIZE + 1) * BSIZE); [by apply Z.mod_mul|].
  pose proof (Z.div_mod off BSIZE ltac:(done)). lia.
Qed.

(** Where the loop of [writei] stops: all bytes written, or no block is free. *)
Definition write_stop T K ip c0 x0 off0 bs n (r : Z) c' x' G' (s' : kstate) : Prop :=
  fsx s' (<[ip := x']> T) K c' ∅ G' /\ wrote_to B c0 x0 off0 bs c' x' (off0 + r) /\ 0 <= r <= n /\ (r < n -> full B c' /\ between off0 r).

Lemma fsx_touch s T K c H G y : fsx s T K c H G -> y = syn s \/ y = touch (syn s) -> fsx (set_syn y s) T K c H G.
Proof.
  intros X Hy. eapply fsx_other; [exact X|split; [done|done|done]|done..| | ]; [apply X|]. intros i. apply X.
Qed.

Section Loop.
Context (T : list inode) (K : nat -> sleeplock) (ip : nat) (c0 : Z -> list Z) (x0 : inode) (off0 : Z) (src : ksrc) (bs : list Z) (n : Z) (e : env).
Hypothesis (Hip : (ip < length T)%nat) (Hdev : i_dev x0 = ROOTDEV) (Hoff0 : 0 <= off0).
Hypothesis (Hn : n = Z.of_nat (length bs)) (Hmax : off0 + n <= MAXFILE * BSIZE) (Hsrc : source src bs e).

(** One round stores the part of [bs] that goes to one block. *)
Lemma write_round s c x G off m a i :
  fsx s (<[ip := x]> T) K c (<[a := i]> ∅) G -> a = addr c x (off / BSIZE) -> a <> 0 -> is_bn (off / BSIZE) ->
  wrote_to B c0 x0 off0 bs c x off -> off0 <= off -> 0 < m -> off mod BSIZE + m <= BSIZE -> off - off0 + m <= n ->
  room (sb_nlog B) ({[a]} ∪ G) ->
  forall (k : unit -> M (Z * Z)) Q,
  (forall s' c', fsx s' (<[ip := x]> T) K c' ∅ ({[a]} ∪ G) -> wrote_to B c0 x0 off0 bs c' x (off + m) -> ind x <> a ->
     (forall b, 0 <= b < sb_size B -> used B c' b = used B c b) -> runs (k ()) s' e Q) ->
  runs ('(r, bs') ← either_copyin (src_add src (off - off0)) m; d ← bdata i;
        set_bdata i (splice d (Z.to_nat (off mod BSIZE)) bs');;
        if r =? -1 then brelse i;; mret (off - off0, off) else log_write i;; brelse i ≫= k) s e Q.
Proof.
  intros X -> Ha Hbn W Ho Hm Hb Hle Hr k Q Hk. destruct (fo_data _ _ _ (wr_ok _ _ _ _ _ _ _ _ W) _ Hbn Ha) as [Hd _].
  destruct (data_home B Hg _ Hd) as [Hok Hout].
  destruct (Hsrc s (off - off0) m) as (y & Ey & Hy); [apply X|by eapply fsx_quiet|lia..|].
  eapply runs_step; [exact Ey|]. cbn beta iota. pose proof (fsx_touch _ _ _ _ _ _ y X Hy) as X1.
  eapply (wp_fbdata _ _ s0 _ _ K c _ G (addr c x (off / BSIZE))); [exact X1|by rewrite lookup_insert_eq|].
  set (chunk := slice bs _ _). rewrite (proj2 (Z.eqb_neq 0 (-1))) by done.
  assert (Hlen : length chunk = Z.to_nat m) by (apply length_slice; lia).
  eapply (wp_fupdate _ _ s0 _ _ K c _ G (addr c x (off / BSIZE))); [exact X1|by rewrite lookup_insert_eq|done| |done|done|done|].
  { apply store_block_ok; [by eapply fsx_block|lia]. }
  intros s2 X2. eapply (wp_fbrelse _ _ s0 s2 _ K _ _ _ (addr c x (off / BSIZE))); [exact X2|by rewrite lookup_insert_eq|].
  intros s3 X3. rewrite delete_insert_id in X3 by apply lookup_empty. apply (Hk s3 _ X3).
  - apply (wrote_store B Hg); try done; try lia. by eapply fsx_block.
  - intros E. by apply (fo_ind_ne _ _ _ (wr_ok _ _ _ _ _ _ _ _ W) _ Hbn Ha).
  - intros b Hb'. by apply (store_used B Hg c x off chunk); [apply W|..].
Qed.

Lemma writei_loop_runs k : forall s c x G off,
  fsx s (<[ip := x]> T) K c ∅ G -> wrote_to B c0 x0 off0 bs c x off -> off0 <= off <= off0 + n ->
  (off < off0 + n -> between off0 (off - off0)) -> meta_used B c -> bitmap_in B G -> budget B (nblk off (off0 + n - off)) G x ->
  (nblk off (off0 + n - off) < k)%nat -> runs (writei_loop k ip (src_add src (off - off0)) off (off - off0) n) s e (fun r s' => exists tot c' x' G',
    r = (tot, off0 + tot) /\ write_stop T K ip c0 x0 off0 bs n tot c' x' G' s' /\ G ⊆ G').
Proof.
  induction k as [|k IH]; intros s c x G off X W Ho Hbt Hmeta Hbm Hbd Hk; [lia|]. cbn [writei_loop].
  destruct (Z.ltb_spec (off - off0) n) as [Hlt|Hge]; cbn [negb].
  2: { apply runs_ret. exists (off - off0), c, x, G. replace (off0 + (off - off0)) with off by lia. split; [done|]. split; [|done].
       split; [done|]. replace (off0 + (off - off0)) with off by lia. split; [done|lia]. }
  destruct (nblk_step off (off0 + n - off) ltac:(lia) ltac:(lia)) as (Hnb & Hm & Hb). set (m := Z.min _ _) in *. rewrite Hnb in Hbd, Hk.
  assert (Hlk : <[ip := x]> T !! ip = Some x) by (by apply list_lookup_insert_eq).
  assert (Hbn : is_bn (off / BSIZE)).
  { pose proof (Z.div_pos off BSIZE ltac:(lia) ltac:(done)). pose proof (Z.div_mod off BSIZE ltac:(done)).
    unfold is_bn. change BSIZE with 1024 in *. lia. }
  assert (Hmt : same_meta x0 x) by apply W. apply runs_bind.
  eapply runs_mono; [apply (bmap_runs B Hg s0 HB Hpan Hopen s (<[ip := x]> T) K ip c x G (nblk (off + m) (off0 + n - off - m)) (off / BSIZE) e X Hlk);
    [by rewrite (meta_dev _ _ Hmt)|apply W|done..]|].
  cbn beta. intros a s1 (c1 & x1 & G1 & X1 & F1 & E1 & S1 & Ha & HG & Hbud & Hfull). rewrite list_insert_insert_eq in X1.
  assert (W1 : wrote_to B c0 x0 off0 bs c1 x1 off) by (apply (wrote_grow B Hg _ _ _ _ c x); done || lia).
  destruct (Z.eqb_spec a 0) as [H0|H0].
  { apply runs_ret. exists (off - off0), c1, x1, G1. replace (off0 + (off - off0)) with off by lia. split; [done|]. split; [|done].
    split; [done|]. replace (off0 + (off - off0)) with off by lia. split; [done|]. split; [lia|]. intros _. split; [by apply Hfull|apply Hbt; lia]. }
  eapply wp_inodeget; [exact X1|by apply list_lookup_insert_eq|]. rewrite (meta_dev _ _ (wr_meta _ _ _ _ _ _ _ _ W1)), Hdev.
  assert (Ha1 : addr c1 x1 (off / BSIZE) <> 0) by (by rewrite <- Ha).
  destruct (fo_data _ _ _ F1 _ Hbn Ha1) as [Hd _]. rewrite <- Ha in Hd. destruct (data_home B Hg _ Hd) as [Hok _].
  eapply wp_fbread; [exact X1|apply lookup_empty|rewrite map_size_empty; lia|done|]. intros i s2 X2. cbv zeta.
  replace (n - (off - off0)) with (off0 + n - off) by lia. fold m.
  eapply (write_round _ _ _ _ off m a i X2); try done; try lia; [by eapply spare_room, budget_room, Hbud|].
  intros s3 c3 X3 W3 Hi3 Hu3. rewrite src_add_add by lia. replace (off - off0 + m) with (off + m - off0) by lia.
  eapply runs_mono; [apply (IH s3 c3 x1 ({[a]} ∪ G1) (off + m) X3 W3); try lia|].
  - intros Hlt'. apply between_next; lia.
  - intros b Hb'. pose proof (layout_order B Hg). rewrite Hu3 by lia. by apply (extends_meta B Hg _ _ _ _ E1).
  - intros b Hb'. specialize (Hbm b Hb'). set_solver.
  - replace (off0 + n - (off + m)) with (off0 + n - off - m) by lia. by apply Hbud.
  - replace (off0 + n - (off + m)) with (off0 + n - off - m) by lia. lia.
  - cbn beta. intros r4 s4 (tot & c4 & x4 & G4 & Hr & Hs & HG4). exists tot, c4, x4, G4. split; [done|]. split; [done|]. set_solver.
Qed.

End Loop.

(** The inode's own block is not one of the file's. *)
Section Dinode.
Context (c : Z -> list Z) (i : Z) (y : inode) (Hi : is_inum B i).

Lemma dinode_data b : is_data B b -> set_dinode B c i y b = c b.
Proof using Hg Hi.
  clear HB Hopen. intros Hb. unfold set_dinode. rewrite bupd_ne; [done|]. pose proof (IBLOCK_range B Hg i Hi). pose proof (layout_order B Hg).
  unfold is_data in Hb. lia.
Qed.
Lemma dinode_used b : 0 <= b < sb_size B -> used B (set_dinode B c i y) b = used B c b.
Proof using Hg Hi.
  clear HB Hopen. intros Hb. unfold used, set_dinode. rewrite bupd_ne; [done|]. pose proof (IBLOCK_range B Hg i Hi).
  pose proof (BBLOCK_range B Hg b Hb). lia.
Qed.
Lemma dinode_addr x bn : file_ok B c x -> addr (set_dinode B c i y) x bn = addr c x bn.
Proof using Hg Hi. intros F. apply addr_ext; [done|done|]. intros H. apply dinode_data. by apply F. Qed.

Lemma dinode_file_ok x : file_ok B c x -> file_ok B (set_dinode B c i y) x.
Proof using Hg Hi.
  intros F. apply (file_ok_ext B c x); [done|apply F|apply F|done|intros; by apply dinode_addr|apply F|].
  intros b Hb Hu. pose proof (data_range B Hg b Hb). by rewrite dinode_used by lia.
Qed.
Lemma dinode_fbyte x o : file_ok B c x -> is_bn (o / BSIZE) -> addr c x (o / BSIZE) <> 0 -> fbyte (set_dinode B c i y) x o = fbyte c x o.
Proof using Hg Hi.
  intros F Hb Ha. unfold fbyte. rewrite dinode_addr by done. rewrite dinode_data; [done|]. by apply F.
Qed.
End Dinode.

(** A file with the size raised over blocks that are allocated. *)
Definition sized (sz : Z) (x : inode) : inode := set_i_size sz x.

Lemma addr_sized c x sz bn : addr c (sized sz x) bn = addr c x bn.
Proof. done. Qed.
Lemma fbyte_sized c x sz o : fbyte c (sized sz x) o = fbyte c x o.
Proof. done. Qed.

Lemma evolves_sized c x c' x' sz : evolves B c x c' x' -> evolves B c x c' (sized sz x').
Proof. by intros [? ? ? ? ? ? ?]; split. Qed.

Lemma wrote_sized c0 x0 off0 bs c x off :
  wrote_to B c0 x0 off0 bs c x off -> off <= MAXFILE * BSIZE -> file_ok B c (sized (Z.max (i_size x) off) x).
Proof using Hg.
  clear HB Hopen. intros W Hm. pose proof (wr_ok _ _ _ _ _ _ _ _ W) as F. apply (file_ok_ext B c x); [done|apply F| |done|done| |done].
  - cbn. pose proof (fo_size _ _ _ F). lia.
  - intros bn H1 H2. cbn in H2. destruct (Z.lt_ge_cases (bn * BSIZE) (i_size x)); [by apply F|]. apply (wr_alloc _ _ _ _ _ _ _ _ W); lia.
Qed.

Lemma lookup_bytes c x sz (j : nat) : 0 <= sz -> bytes c x 0 sz !! j = if decide (Z.of_nat j < sz) then Some (fbyte c x (Z.of_nat j)) else None.
Proof using.
  intros Hs. unfold bytes. rewrite list_lookup_fmap. case_decide.
  - rewrite lookup_seqZ_lt by lia. cbn. by rewrite Z.add_0_l.
  - by rewrite lookup_seqZ_ge by lia.
Qed.

(** The file's bytes after the write. *)
Lemma wrote_bytes c0 x0 off0 bs c x r :
  wrote_to B c0 x0 off0 bs c x (off0 + r) -> 0 <= off0 <= i_size x0 -> 0 <= r <= Z.of_nat (length bs) -> 0 <= i_size x0 ->
  bytes c x 0 (Z.max (i_size x) (off0 + r)) = splice (file_bytes c0 x0) (Z.to_nat off0) (take (Z.to_nat r) bs).
Proof using.
  clear. intros W Ho Hr H0. pose proof (meta_size _ _ (wr_meta _ _ _ _ _ _ _ _ W)) as Hs. rewrite Hs.
  assert (Hlf : length (file_bytes c0 x0) = Z.to_nat (i_size x0)) by apply length_bytes.
  apply list_eq. intros j. rewrite lookup_bytes by lia. unfold splice.
  assert (Hlt : length (take (Z.to_nat r) bs) = Z.to_nat r) by (rewrite length_take; lia).
  destruct (decide (Z.of_nat j < off0)) as [H1|H1].
  { rewrite decide_True by lia. rewrite lookup_app_l by (rewrite length_take; lia). rewrite lookup_take_lt by lia.
    unfold file_bytes. rewrite lookup_bytes, decide_True by lia. by rewrite (wr_bytes _ _ _ _ _ _ _ _ W), decide_False by lia. }
  rewrite lookup_app_r by (rewrite length_take; lia). rewrite length_take, Hlf.
  replace (j - Z.to_nat off0 `min` Z.to_nat (i_size x0))%nat with (j - Z.to_nat off0)%nat by lia.
  destruct (decide (Z.of_nat j < off0 + r)) as [H2|H2].
  - rewrite decide_True by lia. rewrite lookup_app_l by lia. rewrite lookup_take_lt by lia.
    rewrite (wr_bytes _ _ _ _ _ _ _ _ W), decide_True by lia.
    destruct (lookup_lt_is_Some_2 bs (j - Z.to_nat off0)) as [v Hv]; [lia|]. rewrite Hv. f_equal.
    apply nth_lookup_Some. rewrite <- Hv. f_equal. lia.
  - rewrite lookup_app_r by lia. rewrite Hlt, lookup_drop. unfold file_bytes. rewrite lookup_bytes by lia.
    replace (Z.to_nat off0 + Z.to_nat r + (j - Z.to_nat off0 - Z.to_nat r))%nat with j by lia.
    destruct (decide (Z.of_nat j < i_size x0)) as [H3|H3]; [|by rewrite decide_False by lia].
    rewrite decide_True by lia. by rewrite (wr_bytes _ _ _ _ _ _ _ _ W), decide_False by lia.
Qed.

End Write.

Section Writei.
Context {L : Layout} {D : DiskDriver} {DL : DiskLaws} (B : superblock) (Hg : geom B).
Context (s0 : kstate) (HB : sb s0 = B) (Hpan : panicked s0 = false) (Hopen : l_outstanding (klog s0) = 1).
Implicit Types (c : Z -> list Z) (G : gset Z) (x : inode) (T : list inode) (s : kstate).
Notation fsx := (fsx (sb_logstart B) (sb_nlog B) s0).

(** [r] bytes of [bs] have been written at [off]: the file's bytes, its inode in
    memory and on the disk.  Fewer than all only when no block is free. *)
Definition write_post T K ip c x G off bs (r : Z) (s' : kstate) : Prop :=
  exists c1 x' G', let c' := set_dinode B c1 (i_inum x) x' in
    fsx s' (<[ip := x']> T) K c' ∅ G' /\ G ⊆ G' /\ file_ok B c' x' /\ evolves B c x c1 x' /\
    0 <= r <= Z.of_nat (length bs) /\ (r < Z.of_nat (length bs) -> full B c' /\ between off r) /\
    x' = sized (Z.max (i_size x) (off + r)) (set_i_addrs (i_addrs x') x) /\
    file_bytes c' x' = splice (file_bytes c x) (Z.to_nat off) (take (Z.to_nat r) bs).

Section Run.
Context (T : list inode) (K : nat -> sleeplock) (ip : nat) (c : Z -> list Z) (x : inode) (G : gset Z) (off : Z) (src : ksrc) (bs : list Z) (e : env) (s : kstate).
Hypothesis (X : fsx s T K c ∅ G) (Hx : T !! ip = Some x) (Hon : inode_on B x) (F : file_ok B c x).
Hypothesis (Hmeta : meta_used B c) (Hbm : bitmap_in B G) (Hib : IBLOCK (i_inum x) B ∈ G).

(** The inode is written at the end. *)
Lemma writei_finish s1 r c1 x1 G1 :
  write_stop B s0 T K ip c x off bs (Z.of_nat (length bs)) r c1 x1 G1 s1 -> G ⊆ G1 -> 0 <= off <= i_size x ->
  off + Z.of_nat (length bs) <= MAXFILE * BSIZE ->
  runs (x ← inodeget ip; when (i_size x <? off + r) (inodeset ip (set_i_size (off + r)));; iupdate ip;; mret r) s1 e
    (write_post T K ip c x G off bs).
Proof.
  intros (X1 & W & Hr & Hfull) HG Ho Hmax. assert (Hip : (ip < length T)%nat) by (by eapply lookup_lt_Some).
  pose proof (wr_meta _ _ _ _ _ _ _ _ W) as Hmt. set (x2 := sized (Z.max (i_size x1) (off + r)) x1).
  assert (F2 : file_ok B c1 x2) by (apply (wrote_sized B Hg c x off bs c1 x1); done || lia).
  assert (Hin : i_inum x2 = i_inum x) by exact (meta_inum _ _ Hmt). destruct Hon as [Hdev Hinum].
  eapply wp_inodeget; [exact X1|by apply list_lookup_insert_eq|]. apply runs_bind.
  assert (Hset : runs (when (i_size x1 <? off + r) (inodeset ip (set_i_size (off + r)))) s1 e (fun _ s' => fsx s' (<[ip := x2]> T) K c1 ∅ G1)).
  { destruct (Z.ltb_spec (i_size x1) (off + r)); cbn [when].
    - eapply runs_mono; [by apply (inodeset_runs B s0 _ _ _ _ _ _ ip x1 _ e X1), list_lookup_insert_eq|]. cbn beta. intros _ s2 X2.
      rewrite list_insert_insert_eq in X2. unfold x2, sized. by rewrite Z.max_r by lia.
    - apply runs_ret. unfold x2, sized. rewrite Z.max_l by lia. by destruct x1. }
  eapply runs_mono; [exact Hset|]. cbn beta. intros _ s2 X2. apply runs_bind.
  assert (HGi : {[IBLOCK (i_inum x2) B]} ∪ G1 = G1) by (rewrite Hin; set_solver).
  eapply runs_mono; [apply (iupdate_runs B Hg s0 HB s2 _ _ _ _ G1 ip x2 e X2);
    [by apply list_lookup_insert_eq|split; [by etrans; [exact (meta_dev _ _ Hmt)|]|by rewrite Hin]|apply F2|done|apply lookup_empty|rewrite map_size_empty; lia|rewrite HGi; apply X2]|].
  cbn beta. rewrite HGi, Hin. intros _ s3 X3. apply runs_ret. exists c1, x2, G1. cbv zeta.
  assert (Hsz : i_size x1 = i_size x) by exact (meta_size _ _ Hmt).
  pose proof (dinode_file_ok B Hg c1 (i_inum x) x2 Hinum x2 F2) as F3.
  split; [done|]. split; [done|]. split; [exact F3|]. split; [exact (evolves_sized B c x c1 x1 _ (wr_evolves _ _ _ _ _ _ _ _ W))|]. split; [lia|].
  split; [|split].
  - intros Hlt. destruct (Hfull Hlt) as [Hfu Hbt]. split; [|done]. intros b Hb. rewrite (dinode_used B Hg) by done. by apply Hfu.
  - unfold x2. rewrite <- Hsz. unfold sized. cbn [i_addrs set_i_size]. unfold same_meta in Hmt. by rewrite <- Hmt.
  - rewrite <- (wrote_bytes B c x off bs c1 x1 r W) by lia. unfold file_bytes, bytes. cbn [i_size x2 sized set_i_size].
    apply list_fmap_ext. intros j o Ho'. apply lookup_seqZ in Ho'. transitivity (fbyte c1 x2 o); [|done]. apply (dinode_fbyte B Hg); [done|done|..].
    all: destruct (wrote_block B c x off bs c1 x1 (off + r) o W) as [H1 H2]; try lia; done.
Qed.

Lemma writei_runs :
  budget B (nblk off (Z.of_nat (length bs))) G x -> source s0 src bs e -> src_add src 0 = src ->
  0 <= off <= i_size x -> off + Z.of_nat (length bs) <= MAXFILE * BSIZE ->
  runs (writei ip src off (Z.of_nat (length bs))) s e (write_post T K ip c x G off bs).
Proof.
  intros Hbd Hsrc H0 Ho Hmax. assert (Hip : (ip < length T)%nat) by (by eapply lookup_lt_Some).
  unfold writei. eapply wp_inodeget; [exact X|done|]. unfold u32. change (MAXFILE * BSIZE) with 274432 in *.
  rewrite Z.mod_small by lia. rewrite !(proj2 (Z.ltb_ge _ _)) by lia. cbn [orb].
  set (n := Z.of_nat (length bs)) in *.
  assert (Hloop : runs (writei_loop (Z.to_nat (n / BSIZE + 3)) ip (src_add src (off - off)) off (off - off) n) s e (fun r s' => exists tot c' x' G',
    r = (tot, off + tot) /\ write_stop B s0 T K ip c x off bs n tot c' x' G' s' /\ G ⊆ G')).
  { apply (writei_loop_runs B Hg s0 HB Hpan Hopen T K ip c x off src bs n e) with (c := c) (x := x) (G := G); try done; try lia.
    - apply Hon.
    - by rewrite list_insert_same.
    - apply wrote_start; done.
    - intros _. left. lia.
    - by replace (off + n - off) with n by lia.
    - replace (off + n - off) with n by lia. apply nblk_fuel; lia. }
  rewrite Z.sub_diag, H0 in Hloop. apply runs_bind. eapply runs_mono; [exact Hloop|].
  cbn beta. intros r1 s1 (r & c1 & x1 & G1 & -> & Hs & HG). by apply (writei_finish s1 r c1 x1 G1).
Qed.

End Run.
End Writei.
