(* ===== verification/FsOps.v ===== *)
(** * File-system operations as transactions

    [begin_op], an operation of kernel/fs.c and [end_op]: the view of the disk that
    the operation starts with is the disk itself, and the view it ends with is what
    the disk holds afterwards. *)

From stdpp Require Import base gmap strings numbers list.
From Stdlib Require Import Ascii.
From S2P Require Import Prelude KState Sample StringC Spinlock Sched Sleeplock Quiet Uart Printf Bio BufCache BufRefine Log LogDisk BufWp LogRun LogSafe LogOps Transaction FsWp Fs FsBlocks FsInode FsFile FsData.

Section Ops.
Context {D : DiskDriver} {DL : DiskLaws} (start nlog : Z).
Implicit Types (c : Z -> list Z) (G : gset Z) (T : list inode) (s : kstate).

(** What a whole operation leaves alone. *)
Record okeep (s0 s : kstate) : Prop := mkokeep {
  ok_kq : kq s0 s;
  ok_sb : sb s = sb s0
}.
#[export] Instance okeep_refl : Reflexive okeep.
Proof. by intros s. Qed.
#[export] Instance okeep_trans : Transitive okeep.
Proof. intros s1 s2 s3 [] []. split; [by etrans|congruence]. Qed.

(** Nothing is logged and nothing held: the view is the disk. *)
Lemma fsx_idle s G :
  log_idle start nlog s -> room nlog G ->
  fsx start nlog s s (itable s) (fun i => get_slock s (SLinode i)) (dblock (disk s)) ∅ G.
Proof.
  intros [R Hl Hc Hdev Hst Hsz Ho Hcm Hn Hlen] Hr. split; [done|done|done|done|]. exists ∅, []. split; [done|]. split; [|split].
  - split; try done; [by apply NoDup_nil|]. intros b. rewrite !lookup_empty. split; [apply not_elem_of_nil|done].
  - intros b. unfold content. by rewrite lookup_empty.
  - intros b Hb. by apply elem_of_nil in Hb.
Qed.

Lemma fsx_begin s G e :
  log_idle start nlog s -> room nlog G ->
  runs begin_op s e (fun _ s' =>
    fsx start nlog s' s' (itable s) (fun i => get_slock s (SLinode i)) (dblock (disk s)) ∅ G /\
    frame s s' /\ disk s' = disk s /\ l_outstanding (klog s') = 1).
Proof.
  intros Hi Hr. pose proof Hi as [R Hl Hc Hdev Hst Hsz Ho Hcm Hn Hlen].
  eapply runs_mono; [apply (begin_op_runs _ _ _ _ _ _ (cst_start s ∅ R)); unfold log_busy; by rewrite Hcm, Hn, Ho|].
  cbn beta. intros _ s' [R' Hd' Hk' F']. pose proof F' as [K I Bb S]. split; [|split; [done|split; [done|rewrite Hk'; cbn; lia]]].
  split; [done|done|done|done|]. exists ∅, []. split; [done|]. rewrite Hk', Hd'. split; [|split].
  - split; try done; [by apply NoDup_nil|]. intros b. rewrite !lookup_empty. split; [apply not_elem_of_nil|done].
  - intros b. unfold content. by rewrite lookup_empty.
  - intros b Hb. by apply elem_of_nil in Hb.
Qed.

Lemma txn_open d l L bs : txn start nlog d l L ∅ bs -> l_outstanding l = 1 -> open_trans start nlog l L bs.
Proof.
  intros [? ? ? ? ? ? ? ? ? Hpt] Ho. split; try done.
  - rewrite Ho. lia.
  - intros b x Hx. pose proof (Hpt b) as Hp. rewrite Hx, lookup_empty in Hp. destruct Hp as (Hr & Hh & _ & [Hb|[? Hb]] & _); [|done].
    split; [done|]. split; [done|]. rewrite Hr. unfold log_ref. by rewrite decide_True.
  - intros b Hb. pose proof (Hpt b) as Hp. destruct (L !! b); [by eexists|]. by destruct Hp.
Qed.

Lemma fsx_end s0 s T K c G e :
  fsx start nlog s0 s T K c ∅ G -> l_outstanding (klog s0) = 1 -> logged start nlog (disk s0) -> dlog start (disk s0) = [] ->
  runs end_op s e (fun _ s' => log_idle start nlog s' /\ (forall b, ~ in_log start nlog b -> dblock (disk s') b = c b) /\
    itable s' = T /\ (forall i, get_slock s' (SLinode i) = K i) /\ okeep s0 s').
Proof.
  intros [[K1 B1 D1 O1] HT HK Hr (L & bs & R & X & Hc & HG)] Ho Hl Hd. rewrite <- D1 in Hl, Hd.
  pose proof (txn_open _ _ _ _ X (eq_trans O1 Ho)) as Op. pose proof (log_size bs G (tx_dup _ _ _ _ _ _ _ X) HG) as Hsz.
  assert (Hf : fits nlog (S (length bs))) by (destruct Hr; split; [change (Z.to_nat LOGSIZE) with 30%nat|]; lia).
  pose proof (open_trans_trans start nlog _ _ _ _ Op Hf Hl) as Tr.
  assert (Hblk : forall b, block_ok (content (disk s) L b)) by (intros b; by apply brep_content).
  assert (Hnone : forall b, b ∉ bs -> L !! b = None).
  { intros b Hb. destruct (L !! b) eqn:E; [|done]. by apply (op_live _ _ _ _ _ Op) in E as [? _]. }
  eapply runs_mono; [apply (end_op_runs start nlog s s _ L _ bs e (cst_start s L R) Tr Hl Hd); [apply X|congruence]|].
  cbn beta. intros _ s' [R' Hd' Hk' [K2 I2 B2 S2]]. rewrite (unpins_empty start nlog _ _ _ Op) in R'.
  destruct (end_disk start nlog _ L bs (disk s) Tr Hl Hd Hblk Hnone) as (H1 & H2 & H3). rewrite <- Hd' in H1, H2, H3.
  split; [|split; [|split; [congruence|split]]].
  - split; try done; rewrite Hk'; cbn; done || apply Op.
  - intros b Hb. by rewrite H3, Hc.
  - intros i. by rewrite S2, HK.
  - split; [by etrans|congruence].
Qed.

End Ops.

(** ** Files that an operation does not touch *)

Section Frame.
Context (B : superblock) (Hg : geom B).
Implicit Types (c : Z -> list Z) (x y : inode).

(** Two files share no block. *)
Definition apart c x y : Prop := forall b, owns c x b -> owns c y b -> False.

Lemma size_block c y o : file_ok B c y -> 0 <= o < i_size y -> is_bn (o / BSIZE) /\ addr c y (o / BSIZE) <> 0.
Proof.
  intros F Ho. pose proof (Z.div_mod o BSIZE ltac:(done)). pose proof (Z.mod_pos_bound o BSIZE ltac:(done)).
  pose proof (Z.div_pos o BSIZE ltac:(lia) ltac:(done)). pose proof (fo_size _ _ _ F).
  split; [unfold is_bn; change BSIZE with 1024 in *; lia|]. apply F; lia.
Qed.

Section Same.
Context (c c' : Z -> list Z) (y : inode).
Hypothesis (F : file_ok B c y) (Hb : forall b, owns c y b -> c' b = c b).
Hypothesis (Hu : forall b, is_data B b -> used B c b = true -> used B c' b = true).

Lemma same_addr bn : addr c' y bn = addr c y bn.
Proof using Hb. apply addr_ext; [done|done|]. intros Hi. apply Hb. split; [done|by left]. Qed.

Lemma same_file_ok : file_ok B c' y.
Proof using F Hb Hu. apply (file_ok_ext B c y); [done|apply F|apply F|done|intros; apply same_addr|apply F|done]. Qed.

Lemma same_owns b : owns c' y b <-> owns c y b.
Proof using Hb. unfold owns. by setoid_rewrite same_addr. Qed.

Lemma same_bytes : file_bytes c' y = file_bytes c y.
Proof using F Hb.
  unfold file_bytes, bytes. apply list_fmap_ext. intros j o Ho. apply lookup_seqZ in Ho.
  destruct (size_block c y o) as [Hbn Ha]; [done|lia|]. unfold fbyte. rewrite same_addr. f_equal. apply Hb. split; [done|]. right. by exists (o / BSIZE).
Qed.

End Same.

(** A file apart from the one that changes: its blocks are left alone. *)
Lemma other_owns c x c' x' y b :
  evolves B c x c' x' -> file_ok B c y -> apart c x y -> owns c y b -> is_data B b /\ used B c b = true /\ ~ owns c' x' b.
Proof.
  intros E F Hap Hy. assert (Hown : is_data B b /\ used B c b = true) by (destruct Hy as [Hb [->|(bn & Hbn & <-)]]; by apply F).
  destruct Hown as [Hd Hu]. split; [done|]. split; [done|]. intros Hx.
  destruct (ex_own _ _ _ _ _ _ E b Hx) as [Hx'|[_ Hfree]]; [by apply (Hap b)|congruence].
Qed.

Lemma other_blocks c x c' x' y b :
  evolves B c x c' x' -> file_ok B c y -> apart c x y -> owns c y b -> c' b = c b.
Proof.
  intros E F Hap Hy. destruct (other_owns _ _ _ _ _ _ E F Hap Hy) as (Hd & Hu & Hno).
  apply (ex_data _ _ _ _ _ _ E); [done|done| |done]. intros ->. apply Hno. split; [apply Hy|by left].
Qed.

Lemma other_file c x c' x' y :
  evolves B c x c' x' -> file_ok B c y -> apart c x y ->
  file_ok B c' y /\ file_bytes c' y = file_bytes c y /\ apart c' x' y /\ forall b, owns c' y b <-> owns c y b.
Proof.
  intros E F Hap. assert (Hsame : forall b, owns c y b -> c' b = c b) by (intros b; by eapply other_blocks).
  split; [|split; [|split]].
  - apply (same_file_ok c); [done|done|]. intros b Hd Hu. apply (ex_used _ _ _ _ _ _ E); [|done]. pose proof (data_range B Hg b Hd). lia.
  - by apply same_bytes.
  - intros b Hx Hy. rewrite same_owns in Hy by done. by destruct (other_owns _ _ _ _ _ _ E F Hap Hy) as (_ & _ & Hno).
  - intros b. by apply same_owns.
Qed.

(** The files of the disk: each well formed, no two sharing a block. *)
Definition live_inum c (i : Z) : Prop := is_inum B i /\ i_type (dinode_at B c i) <> 0.

Record fs_inv c : Prop := mkfs_inv {
  fi_meta : meta_used B c;
  fi_file : forall i, live_inum c i -> file_ok B c (dinode_at B c i);
  fi_apart : forall i j, live_inum c i -> live_inum c j -> i <> j -> apart c (dinode_at B c i) (dinode_at B c j)
}.

(** Only the block map and the size of an inode matter. *)
Lemma file_ok_same c x y : i_addrs y = i_addrs x -> i_size y = i_size x -> file_ok B c x -> file_ok B c y.
Proof.
  intros Ha Hs F. assert (Hi : ind y = ind x) by (unfold ind, get_addr; by rewrite Ha).
  assert (Had : forall bn, addr c y bn = addr c x bn) by (intros bn; unfold addr, get_addr; by rewrite Hi, Ha).
  apply (file_ok_ext B c x); [done|rewrite Ha; apply F|rewrite Hs; apply F|done|done|rewrite Hs; apply F|done].
Qed.
Lemma file_bytes_same c x y : i_addrs y = i_addrs x -> i_size y = i_size x -> file_bytes c y = file_bytes c x.
Proof.
  intros Ha Hs. assert (Hi : ind y = ind x) by (unfold ind, get_addr; by rewrite Ha).
  unfold file_bytes, bytes. rewrite Hs. apply list_fmap_ext. intros j o _. unfold fbyte, addr, get_addr. by rewrite Hi, Ha.
Qed.
Lemma owns_same c x y b : i_addrs y = i_addrs x -> owns c y b <-> owns c x b.
Proof.
  intros Ha. assert (Hi : ind y = ind x) by (unfold ind, get_addr; by rewrite Ha).
  unfold owns, addr, get_addr. by rewrite Hi, Ha.
Qed.

Lemma file_addrs c x : file_ok B c x -> Forall (fun a => 0 <= a < 2 ^ 32) (i_addrs x).
Proof.
  intros F. apply Forall_lookup. intros i a Ha. pose proof (lookup_lt_Some _ _ _ Ha) as Hlt. rewrite (fo_len _ _ _ F) in Hlt.
  assert (Hget : get_addr x i = a) by (by apply nth_lookup_Some). destruct (decide (a = 0)) as [->|Hne]; [lia|].
  assert (Hd : is_data B a).
  { destruct (decide (i = 12%nat)) as [->|Hi].
    - rewrite <- Hget. apply F. by change (ind x) with (get_addr x 12); rewrite Hget.
    - assert (Had : addr c x (Z.of_nat i) = a).
      { unfold addr. rewrite (proj2 (Z.ltb_lt _ _)) by (change NDIRECT with 12; lia). by rewrite Nat2Z.id. }
      rewrite <- Had. apply F; [unfold is_bn; change MAXFILE with 268; lia|by rewrite Had]. }
  pose proof (data_range B Hg a Hd). destruct (g_size _ Hg). lia.
Qed.

(** Views that agree outside the log. *)
Section Agree.
Context (c c' : Z -> list Z) (Hag : forall b, home B b -> c' b = c b).

Lemma agree_used b : 0 <= b < sb_size B -> used B c' b = used B c b.
Proof. intros Hb. unfold used. by rewrite Hag by (by apply bmap_home). Qed.
Lemma agree_dinode i : is_inum B i -> dinode_at B c' i = dinode_at B c i.
Proof. intros Hi. apply dinode_at_other, Hag. by apply inode_home. Qed.
Lemma agree_owned x b : file_ok B c x -> owns c x b -> c' b = c b.
Proof. intros F [Hb [->|(bn & Hbn & <-)]]; apply Hag, (data_home B Hg); by apply F. Qed.
Lemma agree_file_ok x : file_ok B c x -> file_ok B c' x.
Proof.
  intros F. apply (same_file_ok c); [done|intros b; by apply agree_owned|]. intros b Hd Hu. pose proof (data_range B Hg b Hd).
  by rewrite agree_used by lia.
Qed.
Lemma agree_bytes x : file_ok B c x -> file_bytes c' x = file_bytes c x.
Proof. intros F. apply same_bytes; [done|]. intros b. by apply agree_owned. Qed.

Lemma agree_inv : fs_inv c -> fs_inv c'.
Proof.
  intros [Hm Hf Ha]. assert (Hl : forall i, live_inum c' i -> live_inum c i).
  { intros i [Hi Ht]. rewrite agree_dinode in Ht by done. done. }
  split.
  - intros b Hb. pose proof (layout_order B Hg). rewrite agree_used by lia. by apply Hm.
  - intros i Hi. pose proof (Hl i Hi) as Hi'. rewrite agree_dinode by apply Hi. by apply agree_file_ok, Hf.
  - intros i j Hi Hj Hne b. rewrite !agree_dinode by (apply Hi || apply Hj).
    rewrite !(same_owns c c') by (intros b'; apply agree_owned, Hf, Hl; done). apply (Ha i j); auto.
Qed.

Lemma agree_live i : live_inum c' i <-> live_inum c i.
Proof. unfold live_inum. split; intros [Hi Ht]; (split; [done|]); by rewrite agree_dinode in *. Qed.
Lemma agree_contents i : fs_inv c -> live_inum c i ->
  dinode_at B c' i = dinode_at B c i /\ file_bytes c' (dinode_at B c' i) = file_bytes c (dinode_at B c i).
Proof. intros Hinv Hi. rewrite agree_dinode by apply Hi. split; [done|]. by apply agree_bytes, Hinv. Qed.

End Agree.

(** One file changed, and its inode was written. *)
Section Update.
Context (c c1 : Z -> list Z) (i : Z) (x x' : inode).
Hypothesis (Hinv : fs_inv c) (Hi : live_inum c i) (Hxa : i_addrs (dinode_at B c i) = i_addrs x) (Hev : evolves B c x c1 x').
Hypothesis (F' : file_ok B c1 x') (Hok : block_ok (c1 (IBLOCK i B))) (Hd : dinode_ok x') (Hty : i_type x' <> 0).
Notation c' := (set_dinode B c1 i x').

Lemma update_dinode j : is_inum B j -> dinode_at B c' j = if decide (j = i) then with_dinode x' zero_inode else dinode_at B c j.
Proof.
  intros Hj. destruct Hi as [Hii _]. rewrite dinode_at_set by (done || unfold is_inum in *; lia). case_decide; [done|].
  apply dinode_at_other. apply (ex_rest _ _ _ _ _ _ Hev).
  - pose proof (IBLOCK_range B Hg j Hj). unfold is_data. pose proof (layout_order B Hg). lia.
  - intros (b & Hb & E). pose proof (IBLOCK_range B Hg j Hj). pose proof (BBLOCK_range B Hg b Hb). lia.
Qed.

Lemma update_live j : live_inum c' j -> j <> i -> live_inum c j.
Proof. intros [Hj Ht] Hne. rewrite update_dinode, decide_False in Ht by done. done. Qed.

Lemma update_blocks j b : live_inum c j -> j <> i -> owns c (dinode_at B c j) b -> c' b = c b.
Proof using Hg Hinv Hi Hxa Hev.
  intros Hj Hne Hy. assert (Hap : apart c x (dinode_at B c j)).
  { intros b' Hx Hy'. apply (fi_apart _ Hinv i j Hi Hj (fun E => Hne (eq_sym E)) b'); [|done]. by apply (owns_same c x). }
  destruct (other_owns _ _ _ _ _ _ Hev (fi_file _ Hinv j Hj) Hap Hy) as [Hdb _].
  rewrite (dinode_data B Hg) by (done || apply Hi). by apply (other_blocks c x c1 x' (dinode_at B c j)); [|apply Hinv|..].
Qed.

(** The other files, after the store of the inode. *)
Lemma update_other j : live_inum c j -> j <> i ->
  file_ok B c' (dinode_at B c j) /\ file_bytes c' (dinode_at B c j) = file_bytes c (dinode_at B c j) /\ apart c' x' (dinode_at B c j) /\
  forall b, owns c' (dinode_at B c j) b <-> owns c (dinode_at B c j) b.
Proof.
  intros Hj Hne. destruct (other_file c x c1 x' (dinode_at B c j) Hev) as (F1 & Hb1 & Ha1 & Ho1).
  - by apply Hinv.
  - intros b Hx Hy. apply (fi_apart _ Hinv i j Hi Hj (fun E => Hne (eq_sym E)) b); [|done]. by apply (owns_same c x).
  - destruct Hi as [Hii _]. assert (Hsame : forall y, file_ok B c1 y -> forall b, owns c1 y b -> c' b = c1 b).
    { intros y Fy b' [Hb [->|(bn & Hbn & <-)]]; apply (dinode_data B Hg); try done; by apply Fy. }
    split; [by apply (dinode_file_ok B Hg)|]. split; [|split].
    + rewrite <- Hb1. apply same_bytes; [done|by apply Hsame].
    + intros b Hx Hy. rewrite (same_owns c1) in Hx by (by apply Hsame). rewrite (same_owns c1) in Hy by (by apply Hsame). by apply (Ha1 b).
    + intros b. rewrite (same_owns c1) by (by apply Hsame). apply Ho1.
Qed.

Lemma update_inv : fs_inv c'.
Proof.
  pose proof Hi as [Hii _]. assert (Fx : file_ok B c' (with_dinode x' zero_inode)).
  { apply (file_ok_same c' x'); [done|done|]. by apply (dinode_file_ok B Hg). }
  split.
  - intros b Hb. pose proof (layout_order B Hg). rewrite (dinode_used B Hg) by (done || lia). apply (ex_used _ _ _ _ _ _ Hev); [lia|]. by apply Hinv.
  - intros j Hj. rewrite update_dinode by apply Hj. case_decide as E; [done|]. apply update_other; [by apply update_live|done].
  - intros j k Hj Hk Hne b. rewrite !update_dinode by (apply Hj || apply Hk).
    destruct (decide (j = i)) as [->|Ej], (decide (k = i)) as [->|Ek]; [done| | |].
    + destruct (update_other k) as (_ & _ & Ha & _); [by apply update_live|done|]. intros Hx Hy. apply (Ha b); [by apply (owns_same c' x')|done].
    + destruct (update_other j) as (_ & _ & Ha & _); [by apply update_live|done|]. intros Hx Hy. apply (Ha b); [by apply (owns_same c' x')|done].
    + destruct (update_other j) as (_ & _ & _ & Hoj); [by apply update_live|done|]. destruct (update_other k) as (_ & _ & _ & Hok'); [by apply update_live|done|].
      rewrite Hoj, Hok'. apply (fi_apart _ Hinv j k); [by apply update_live..|done].
Qed.

End Update.

(** A file without blocks. *)
Lemma empty_addr c x bn : i_addrs x = replicate 13 0 -> is_bn bn -> addr c x bn = 0.
Proof.
  intros Hx Hbn. assert (Hget : forall i, get_addr x i = 0).
  { intros i. unfold get_addr. rewrite Hx. by do 13 (destruct i as [|i]; [done|]); destruct i. }
  unfold addr, ind. rewrite !Hget. by destruct (_ <? _).
Qed.

Lemma empty_file c x : i_addrs x = replicate 13 0 -> i_size x = 0 -> file_ok B c x /\ forall b, ~ owns c x b.
Proof.
  intros Hx Hs. assert (Hi : ind x = 0) by (unfold ind, get_addr; by rewrite Hx). split.
  - split; rewrite ?Hx, ?Hs; try done.
    + intros bn H1 H2. change BSIZE with 1024 in H2. lia.
    + intros bn Hbn H. by rewrite empty_addr in H.
    + intros bn bn' Hbn _ H. by rewrite empty_addr in H.
    + intros bn Hbn H. by rewrite empty_addr in H.
  - intros b [Hb [->|(bn & Hbn & <-)]]; [done|]. apply Hb. by apply empty_addr.
Qed.

End Frame.
