(* ===== verification/Mkfs.v ===== *)
(** * mkfs/mkfs.c

    The program that builds the disk image on the host: the image file as blocks,
    the two counters, and every routine.  [die] and a failing [assert] end the
    program; the host's lseek and write succeed, and a read fails at the end of the
    image.  Opening and reading the files to be stored is the host's business. *)

From stdpp Require Import base gmap strings numbers list.
From Stdlib Require Import Ascii.
From S2P Require Import Prelude KState StringC Spinlock Uart Printf Bio BufCache Log Fs.

(** The image file and the allocation counters. *)
Record mkimg : Type := mkmkimg {
  fs_len : Z;
  fs_blk : gmap Z (list Z);
  freeinode : Z;
  freeblock : Z
}.

Inductive mres (A : Type) : Type :=
| MOk (a : A) (m : mkimg)
| MDie (msg : list Z)
| MAssert
| MSpin.
Arguments MOk {A} a m.
Arguments MDie {A} msg.
Arguments MAssert {A}.
Arguments MSpin {A}.

Definition MK (A : Type) : Type := mkimg -> mres A.
#[export] Instance MK_ret : MRet MK := fun A a m => MOk a m.
#[export] Instance MK_bind : MBind MK := fun A B f g m =>
  match g m with MOk a m' => f a m' | MDie s => MDie s | MAssert => MAssert | MSpin => MSpin end.

Definition die {A} (msg : list Z) : MK A := fun _ => MDie msg.
Definition massert (b : bool) : MK unit := fun m => if b then MOk () m else MAssert.

(** ** Layout *)

Definition NINODES : Z := 200.
Definition nbitmap : Z := FSSIZE / BPB + 1.
Definition ninodeblocks : Z := NINODES / IPB + 1.
Definition nlog : Z := LOGSIZE.
Definition nmeta : Z := 2 + nlog + ninodeblocks + nbitmap.
Definition nblocks : Z := FSSIZE - nmeta.

(** The value whose bytes in memory are those of [x] in riscv order, as the kernel
    reads it. *)
Definition xshort (x : Z) : Z := le_val [u8 x; u8 (Z.shiftr x 8)].
Definition xint (x : Z) : Z := le_val [u8 x; u8 (Z.shiftr x 8); u8 (Z.shiftr x 16); u8 (Z.shiftr x 24)].

Definition mk_sb : superblock :=
  mksuperblock FSMAGIC (xint FSSIZE) (xint nblocks) (xint NINODES) (xint nlog) (xint 2) (xint (2 + nlog))
    (xint (2 + nlog + ninodeblocks)).
(** [memmove(buf, &sb, sizeof(sb))] into a cleared buffer *)
Definition sb_block : list Z :=
  splice zero_block 0 (mjoin (le_bytes 4 <$>
    [sb_magic mk_sb; sb_size mk_sb; sb_nblocks mk_sb; sb_ninodes mk_sb; sb_nlog mk_sb; sb_logstart mk_sb; sb_inodestart mk_sb; sb_bmapstart mk_sb])).

(** ** Sectors *)

Definition wsect (sec : Z) (buf : list Z) : MK unit := fun m =>
  let b := u32 (sec * BSIZE) / BSIZE in
  MOk () (mkmkimg (Z.max (fs_len m) (b + 1)) (<[b := buf]> (fs_blk m)) (freeinode m) (freeblock m)).

Definition blk (m : mkimg) (b : Z) : list Z := default zero_block (fs_blk m !! b).
Definition rsect (sec : Z) : MK (list Z) := fun m =>
  let b := u32 (sec * BSIZE) / BSIZE in
  if b <? fs_len m then MOk (blk m b) m else MDie (zstr "read").

(** ** Inodes *)

Definition winode (inum : Z) (ip : inode) : MK unit :=
  let bn := IBLOCK inum mk_sb in
  buf ← rsect bn;
  wsect bn (dinode_store buf (dinode_off inum) ip).

Definition rinode (inum : Z) : MK inode :=
  let bn := IBLOCK inum mk_sb in
  buf ← rsect bn;
  mret (dinode_load buf (dinode_off inum) zero_inode).

Definition next_inode : MK Z := fun m =>
  MOk (freeinode m) (mkmkimg (fs_len m) (fs_blk m) (u32 (freeinode m + 1)) (freeblock m)).
Definition next_block : MK Z := fun m =>
  MOk (freeblock m) (mkmkimg (fs_len m) (fs_blk m) (freeinode m) (u32 (freeblock m + 1))).

Definition get_freeblock : MK Z := fun m => MOk (freeblock m) m.

Definition ialloc (type : Z) : MK Z :=
  inum ← next_inode;
  let din := set_i_size (xint 0) (set_i_nlink (xshort 1) (set_i_type (xshort type) zero_inode)) in
  winode inum din;;
  mret inum.

Definition bitmap (used : Z) : list Z := fold_left mark_used (seqZ 0 used) zero_block.
Definition balloc (used : Z) : MK unit :=
  massert (used <? BPB);;
  wsect (sb_bmapstart mk_sb) (bitmap used).

(** The block that holds block [fbn] of the file, allocated if it is not yet. *)
Definition fblock (din : inode) (fbn : Z) : MK (inode * Z) :=
  if fbn <? NDIRECT then
    din ← (if xint (get_addr din (Z.to_nat fbn)) =? 0 then
             b ← next_block;
             mret (set_addr (Z.to_nat fbn) (xint b) din)
           else mret din);
    mret (din, xint (get_addr din (Z.to_nat fbn)))
  else
    din ← (if xint (get_addr din (Z.to_nat NDIRECT)) =? 0 then
             b ← next_block;
             mret (set_addr (Z.to_nat NDIRECT) (xint b) din)
           else mret din);
    indirect ← rsect (xint (get_addr din (Z.to_nat NDIRECT)));
    let i := Z.to_nat (fbn - NDIRECT) in
    indirect ← (if get_le indirect (4 * i) 4 =? 0 then
                  b ← next_block;
                  let indirect := put_le indirect (4 * i) 4 (xint b) in
                  wsect (xint (get_addr din (Z.to_nat NDIRECT))) indirect;;
                  mret indirect
                else mret indirect);
    mret (din, xint (get_le indirect (4 * i) 4)).

(** while(n > 0): a round fills a block or ends. *)
Fixpoint iappend_loop (k : nat) (din : inode) (off : Z) (p : list Z) : MK (inode * Z) :=
  match k with
  | O => fun _ => MSpin
  | S k' =>
      match p with
      | [] => mret (din, off)
      | _ =>
          let n := Z.of_nat (length p) in
          let fbn := off / BSIZE in
          massert (fbn <? MAXFILE);;
          '(din, x) ← fblock din fbn;
          let n1 := Z.min n ((fbn + 1) * BSIZE - off) in
          buf ← rsect x;
          wsect x (splice buf (Z.to_nat (off - fbn * BSIZE)) (take (Z.to_nat n1) p));;
          iappend_loop k' din (off + n1) (drop (Z.to_nat n1) p)
      end
  end.

Definition iappend (inum : Z) (xp : list Z) : MK unit :=
  din ← rinode inum;
  '(din, off) ← iappend_loop (S (length xp)) din (xint (i_size din)) xp;
  winode inum (set_i_size (xint off) din).

(** ** The program *)

Definition dirent (inum : Z) (name : list Z) : list Z := le_bytes 2 (xshort inum) ++ name.

Fixpoint mfor {A} (l : list A) (f : A -> MK unit) : MK unit :=
  match l with
  | [] => mret ()
  | x :: l' => f x;; mfor l' f
  end.

(** [user/] and a leading [_] are dropped. *)
Definition base_name (arg : list Z) : list Z :=
  if decide (take 5 arg = zstr "user/") then drop 5 arg else arg.
Definition skip_underscore (name : list Z) : list Z :=
  match name with c :: name' => if c =? 95 then name' else name | [] => name end.

Section Main.
(** The file of a name: [None] if it cannot be opened, else what the calls of read
    give until one gives nothing. *)
Context (host : list Z -> option (list (list Z))).

Definition add_file (rootino : Z) (arg : list Z) : MK unit :=
  let shortname := base_name arg in
  massert (bool_decide (47 ∉ shortname));;
  match host arg with
  | None => die arg
  | Some chunks =>
      let shortname := skip_underscore shortname in
      massert (Z.of_nat (length shortname) <=? DIRSIZ);;
      inum ← ialloc T_FILE;
      iappend rootino (dirent inum (strncpy (replicate 14 0) shortname DIRSIZ));;
      mfor chunks (iappend inum)
  end.

Definition fix_root (rootino : Z) : MK unit :=
  din ← rinode rootino;
  let off := xint (i_size din) in
  let off := (off / BSIZE + 1) * BSIZE in
  winode rootino (set_i_size (xint off) din).

(** [main] once the image is open, with the names of the files to store. *)
Definition mkfs (args : list (list Z)) : MK unit :=
  mfor (seqZ 0 FSSIZE) (fun i => wsect i zero_block);;
  wsect 1 sb_block;;
  rootino ← ialloc T_DIR;
  massert (rootino =? ROOTINO);;
  iappend rootino (dirent rootino (zstr "." ++ replicate 13 0));;
  iappend rootino (dirent rootino (zstr ".." ++ replicate 12 0));;
  mfor args (add_file rootino);;
  fix_root rootino;;
  used ← get_freeblock;
  balloc used.

(** The image file has been truncated; the counters have their initial values. *)
Definition mkimg0 : mkimg := mkmkimg 0 ∅ 1 nmeta.

Definition main (argv : list (list Z)) (can_create : bool) : mres unit :=
  match argv with
  | _ :: img :: files => if can_create then mkfs files mkimg0 else MDie img
  | _ => MDie (zstr "Usage: mkfs fs.img files...")
  end.

End Main.
