(* ===== verification/FsSample.v ===== *)
(** * A concrete file system

    The superblock that mkfs writes, one bitmap block, an empty root directory and
    an empty file; the state of a process that has the file open twice. *)

From stdpp Require Import base gmap strings numbers list.
From Stdlib Require Import Ascii.
From S2P Require Import Prelude KState Sample StringC Spinlock Sched Sleeplock Quiet Uart Printf Bio BufCache BufRefine Log LogDisk BufWp LogRun LogSafe LogOps Transaction FsWp Fs FsBlocks FsInode FsFile FsData FsOps Mkfs.

Definition sample_sb : superblock := mksuperblock FSMAGIC FSSIZE 1954 200 30 2 32 45.

Definition sample_inode (inum type : Z) : inode :=
  set_i_inum inum (set_i_dev ROOTDEV (set_i_ref 2 (set_i_valid true
    (set_i_type type (set_i_nlink 1 (set_i_addrs (replicate 13 0) zero_inode)))))).

Definition sample_blocks : gmap Z (list Z) :=
  <[1 := sb_block]> (<[32 := dinode_store (dinode_store zero_block (dinode_off 1) (sample_inode 1 1)) (dinode_off 2) (sample_inode 2 2)]>
  {[45 := replicate 5 255 ++ [63] ++ replicate 1018 0]}).
Definition sample_disk : diskst := mkdisk sample_blocks [].

(** Entries 3 and 4 of the file table are both open on inode 2. *)
Definition sample_file : file :=
  set_f_type FD_INODE (set_f_ref 1 (set_f_readable true (set_f_writable true (set_f_ip (Some 0%nat) zero_file)))).

Definition sample_fs (root : Z) (m : gmap Z Z) (fl : Z) : kstate :=
  set_mem m (set_freelist fl (set_procs (set_p_pagetable root sample_proc :: replicate 63 zero_proc)
    (set_disk sample_disk (set_itable (<[0%nat := sample_inode 2 2]> (itable sample_idle))
      (set_ftable (<[3%nat := sample_file]> (<[4%nat := sample_file]> (ftable sample_idle))) sample_idle))))).

Lemma sample_geom : geom sample_sb.
Proof. split; vm_compute; done || (split; done) || congruence. Qed.

Lemma sample_block b : block_ok (dblock sample_disk b).
Proof.
  unfold dblock, sample_disk, sample_blocks. cbn [d_blocks]. destruct (decide (b = 1)) as [->|H0]; [rewrite lookup_insert_eq; vm_compute; reflexivity|rewrite lookup_insert_ne by done].
  destruct (decide (b = 32)) as [->|H1].
  - rewrite lookup_insert_eq. vm_compute. reflexivity.
  - rewrite lookup_insert_ne by done. destruct (decide (b = 45)) as [->|H2].
    + rewrite lookup_singleton_eq. vm_compute. reflexivity.
    + rewrite lookup_singleton_ne by done. vm_compute. reflexivity.
Qed.

Lemma sample_disk_logged : logged 2 30 sample_disk /\ dlog 2 sample_disk = [].
Proof.
  assert (Hh : hdr_list (dblock sample_disk 2) = []) by (vm_compute; reflexivity).
  split; [|unfold dlog; by rewrite Hh]. split; [exact sample_block|lia|vm_compute; congruence|].
  rewrite Hh. split; [cbn; lia|cbn; lia|apply NoDup_nil_2|done].
Qed.

Section Sample.
Context (root : Z) (m : gmap Z Z) (fl : Z).
Notation s := (sample_fs root m fl).

Lemma sample_fs_quiet : quiet s.
Proof.
  destruct sample_quiet as (Ht & Hn & Hp & Hl). split_and!; [|done|exact Hp|exact Hl].
  apply (thread_ok_keep sample_state); [exact Ht|by right|reflexivity].
Qed.

Lemma sample_fs_idle : @log_idle ram_driver ram_laws 2 30 s.
Proof.
  destruct sample_disk_logged as [Hl Hc]. split; try done.
  split; [apply sample_fs_quiet|exact I|done| |].
  - exists (rev (seq 0 HEAD)). split; [by rewrite <- Permutation_rev|].
    unfold links, ring, linked. apply (bool_decide_unpack _). vm_compute. exact I.
  - apply empty_tab; [|apply sample_block]. intros i Hi.
    do 30 (destruct i as [|i]; [split; reflexivity|]). unfold HEAD in Hi. vm_compute in Hi. lia.
Qed.

End Sample.

Definition empty_or_free (x : inode) : bool :=
  (i_type x =? 0) || (bool_decide (i_addrs x = replicate 13 0) && (i_size x =? 0)).

Lemma empty_or_free_spec x : empty_or_free x = true -> i_type x <> 0 -> i_addrs x = replicate 13 0 /\ i_size x = 0.
Proof. unfold empty_or_free. intros [Hz%Z.eqb_eq|[Ha%bool_decide_eq_true Hs%Z.eqb_eq]%andb_true_iff]%orb_true_iff; done. Qed.

Lemma sample_all_live : forallb (fun i => empty_or_free (dinode_at sample_sb (dblock sample_disk) i)) (seqZ 1 199) = true.
Proof. vm_cast_no_check (eq_refl true). Qed.
Lemma sample_all_used : forallb (used sample_sb (dblock sample_disk)) (seqZ 0 46) = true.
Proof. vm_cast_no_check (eq_refl true). Qed.

Lemma sample_empty i : live_inum sample_sb (dblock sample_disk) i ->
  i_addrs (dinode_at sample_sb (dblock sample_disk) i) = replicate 13 0 /\ i_size (dinode_at sample_sb (dblock sample_disk) i) = 0.
Proof.
  intros [Hi Ht]. pose proof sample_all_live as Hall. rewrite forallb_forall in Hall.
  assert (Hin : In i (seqZ 1 199)) by (apply list_elem_of_In, elem_of_seqZ; unfold is_inum, sample_sb, sb_ninodes in Hi; lia).
  exact (empty_or_free_spec _ (Hall i Hin) Ht).
Qed.

Lemma sample_meta : meta_used sample_sb (dblock sample_disk).
Proof.
  intros b Hb. pose proof sample_all_used as Hused. rewrite forallb_forall in Hused. apply Hused, list_elem_of_In, elem_of_seqZ.
  assert (Hd : dstart sample_sb = 46) by reflexivity. rewrite Hd in Hb. lia.
Qed.

Lemma sample_fs_inv : fs_inv sample_sb (dblock sample_disk).
Proof.
  split; [exact sample_meta| |].
  - intros i Hi. destruct (sample_empty i Hi) as [H1 H2]. exact (proj1 (empty_file sample_sb _ _ H1 H2)).
  - intros i j Hi _ _ b Hb _. destruct (sample_empty i Hi) as [H1 H2]. exact (proj2 (empty_file sample_sb (dblock sample_disk) _ H1 H2) b Hb).
Qed.
