(* ===== verification/MkfsOk.v ===== *)
(** * The image that mkfs builds

    The blocks of the image, with the bitmap that [balloc] will write at the end, are
    at every step a well-formed file system in the sense of the kernel's invariant;
    [iappend] extends one file and [ialloc] adds an empty one. *)

From stdpp Require Import base gmap strings numbers list.
From Stdlib Require Import Ascii.
From S2P Require Import Prelude KState Sample StringC Spinlock Sched Sleeplock Quiet Uart Printf Bio BufCache BufRefine Log LogDisk BufWp LogRun LogSafe LogOps Transaction FsWp Fs FsBlocks FsInode FsFile FsData FsOps Mkfs.

(** ** Runs *)

Definition mruns {A} (g : MK A) (m : mkimg) (Q : A -> mkimg -> Prop) : Prop := exists a m', g m = MOk a m' /\ Q a m'.

Section Runs.
Context {A : Type}.
Implicit Types (m : mkimg).

Lemma mruns_ret (a : A) m (Q : A -> mkimg -> Prop) : Q a m -> mruns (mret a) m Q.
Proof. intros H. by exists a, m. Qed.
Lemma mruns_bind {B} (g : MK A) (f : A -> MK B) m Q : mruns g m (fun a m' => mruns (f a) m' Q) -> mruns (g ≫= f) m Q.
Proof. intros (a & m1 & H1 & b & m2 & H2 & HQ). exists b, m2. split; [|done]. unfold mbind, MK_bind. by rewrite H1. Qed.
Lemma mruns_mono (g : MK A) m (Q Q' : A -> mkimg -> Prop) : mruns g m Q -> (forall a m', Q a m' -> Q' a m') -> mruns g m Q'.
Proof. intros (a & m1 & H1 & HQ) H. exists a, m1. auto. Qed.
Lemma mruns_step {B} (g : MK A) (f : A -> MK B) m a m' Q : g m = MOk a m' -> mruns (f a) m' Q -> mruns (g ≫= f) m Q.
Proof. intros H1 H2. apply mruns_bind. by exists a, m'. Qed.

End Runs.

Lemma mruns_assert {B} b (f : unit -> MK B) m Q : b = true -> mruns (f ()) m Q -> mruns (massert b ≫= f) m Q.
Proof. intros ->. by apply mruns_step. Qed.

Lemma xint_id x : 0 <= x < 2 ^ 32 -> xint x = x.
Proof.
  intros Hx. assert (E : xint x = le_val (le_bytes 4 x)).
  { unfold xint. cbn. unfold u8. rewrite !Z.shiftr_div_pow2 by lia. change (2 ^ 8) with 256. rewrite !Z.div_div by lia. done. }
  rewrite E. rewrite le_val_bytes. by apply Z.mod_small.
Qed.
Lemma xshort_id x : 0 <= x < 2 ^ 16 -> xshort x = x.
Proof.
  intros Hx. assert (E : xshort x = le_val (le_bytes 2 x)).
  { unfold xshort. cbn. unfold u8. rewrite !Z.shiftr_div_pow2 by lia. done. }
  rewrite E. rewrite le_val_bytes. by apply Z.mod_small.
Qed.

Lemma mk_geom : geom mk_sb.
Proof. split; vm_compute; done || (split; done) || congruence. Qed.
Lemma mk_sb_values : mk_sb = mksuperblock FSMAGIC 2000 1954 200 30 2 32 45.
Proof. reflexivity. Qed.

(** ** The bitmap *)

Lemma bitmap_succ k : 0 <= k -> bitmap (k + 1) = mark_used (bitmap k) k.
Proof. intros Hk. unfold bitmap. rewrite seqZ_app by lia. by rewrite fold_left_app, Z.add_0_l. Qed.

Lemma bitmap_bits k : 0 <= k <= BPB -> block_ok (bitmap k) /\ forall b, 0 <= b < BPB -> bit_set (bitmap k) b = (b <? k).
Proof.
  intros [Hk Hle]. revert Hle. pattern k. apply natlike_ind; [| |done].
  - intros _. split; [done|]. intros b Hb. change (bitmap 0) with (replicate (Z.to_nat BSIZE) 0). rewrite (proj2 (Z.ltb_ge _ _)) by lia.
    unfold bit_set. rewrite nth_lookup, lookup_replicate_2; [done|].
    change BPB with 8192 in Hb. change BSIZE with 1024. pose proof (Z.div_lt_upper_bound b 8 1024 ltac:(lia) ltac:(lia)). pose proof (Z.div_pos b 8 ltac:(lia) ltac:(lia)). lia.
  - intros j Hj IH Hle. destruct IH as [Hok Hbits]; [lia|]. unfold Z.succ. rewrite bitmap_succ by lia. split; [unfold block_ok, mark_used; by rewrite length_alter|].
    intros b Hb. rewrite bit_set_used by (done || lia). rewrite Hbits by done. case_decide; subst; lia.
Qed.

(** ** The image as the blocks of a disk *)

Notation B := mk_sb.
Notation Hg := mk_geom.
Implicit Types (m : mkimg) (c : Z -> list Z) (x : inode).

(** The blocks, with the bitmap of the allocations so far. *)
Record img m c : Prop := mkimg_ok {
  im_len : fs_len m = FSSIZE;
  im_blk : forall b, b <> 45 -> blk m b = c b;
  im_map : c 45 = bitmap (freeblock m);
  im_ok : forall b, block_ok (c b);
  im_free : nmeta <= freeblock m <= FSSIZE;
  im_zero : forall b, freeblock m <= b < FSSIZE -> c b = zero_block;
  im_head : c 1 = sb_block /\ forall b, 2 <= b < 32 -> c b = zero_block
}.

Lemma img_used m c b : img m c -> 0 <= b < FSSIZE -> used B c b = (b <? freeblock m).
Proof.
  intros I Hb. unfold used. change FSSIZE with 2000 in Hb. assert (Hbb : BBLOCK b B = 45).
  { unfold BBLOCK. change BPB with 8192. by rewrite Z.div_small by lia. }
  rewrite Hbb, (im_map _ _ I). change BPB with 8192. rewrite Z.mod_small by lia.
  destruct (im_free _ _ I) as [H1 H2]. change nmeta with 46 in H1. change FSSIZE with 2000 in H2.
  apply bitmap_bits; change BPB with 8192; lia.
Qed.

Lemma img_data m c b : img m c -> is_data B b -> used B c b = true -> 46 <= b < freeblock m.
Proof.
  intros I Hb Hu. unfold is_data in Hb. change (dstart B) with 46 in Hb. change (sb_size B) with 2000 in Hb.
  rewrite (img_used m) in Hu by (done || change FSSIZE with 2000; lia). lia.
Qed.

Lemma sector b : 0 <= b < FSSIZE -> u32 (b * BSIZE) / BSIZE = b.
Proof. intros Hb. change FSSIZE with 2000 in Hb. unfold u32. change BSIZE with 1024. rewrite Z.mod_small by lia. by apply Z.div_mul. Qed.

Lemma rsect_img m c b : img m c -> 0 <= b < FSSIZE -> b <> 45 -> rsect b m = MOk (c b) m.
Proof.
  intros I Hb H45. unfold rsect. rewrite sector by done. rewrite (im_len _ _ I), (proj2 (Z.ltb_lt _ _)) by lia.
  by rewrite (im_blk _ _ I).
Qed.

Lemma blk_wsect m b v b' n f1 f2 : blk (mkmkimg n (<[b := v]> (fs_blk m)) f1 f2) b' = if decide (b' = b) then v else blk m b'.
Proof. unfold blk. cbn. case_decide; subst; [by rewrite lookup_insert_eq|by rewrite lookup_insert_ne]. Qed.

(** The counters are left alone. *)
Definition counters m m' : Prop := freeinode m' = freeinode m /\ freeblock m' = freeblock m.

Lemma wsect_img m c b v : img m c -> 32 <= b < freeblock m -> b <> 45 -> block_ok v ->
  exists m', wsect b v m = MOk () m' /\ img m' (bupd c b v) /\ counters m m'.
Proof.
  intros I Hb H45 Hv. pose proof (im_free _ _ I) as [Hf1 Hf2]. unfold wsect. rewrite sector by lia. eexists. split; [done|]. split; [|done].
  assert (Hl : Z.max (fs_len m) (b + 1) = FSSIZE) by (rewrite (im_len _ _ I); lia). rewrite Hl.
  destruct I as [I1 I2 I3 I4 I5 I6 [I7 I8]]. split; cbn [fs_len freeblock]; try done.
  - intros b' H'. rewrite blk_wsect. unfold bupd. case_decide; [done|]. by apply I2.
  - by rewrite bupd_ne.
  - intros b'. unfold bupd. by case_decide.
  - intros b' Hb'. rewrite bupd_ne by lia. by apply I6.
  - split; [by rewrite bupd_ne by lia|]. intros b' Hb'. rewrite bupd_ne by lia. by apply I8.
Qed.

Lemma next_block_img m c : img m c -> freeblock m < FSSIZE ->
  exists m', next_block m = MOk (freeblock m) m' /\ img m' (take_block B c (freeblock m)) /\
    freeinode m' = freeinode m /\ freeblock m' = freeblock m + 1 /\ is_data B (freeblock m) /\ used B c (freeblock m) = false.
Proof.
  intros I Hlt. pose proof (im_free _ _ I) as [Hf1 Hf2]. change nmeta with 46 in Hf1. unfold next_block. eexists. split; [done|].
  assert (Hu : u32 (freeblock m + 1) = freeblock m + 1) by (apply Z.mod_small; change FSSIZE with 2000 in *; lia). cbn [freeinode freeblock]. rewrite Hu.
  assert (Hbb : BBLOCK (freeblock m) B = 45) by (unfold BBLOCK; change BPB with 8192; change FSSIZE with 2000 in *; by rewrite Z.div_small by lia).
  assert (Hmod : freeblock m mod BPB = freeblock m) by (change BPB with 8192; change FSSIZE with 2000 in *; apply Z.mod_small; lia).
  split; [|split; [done|split; [done|split]]].
  - unfold take_block. rewrite Hbb, Hmod. destruct I as [I1 I2 I3 I4 I5 I6 [I7 I8]]. split; cbn [fs_len freeblock]; try done.
    + intros b H45. change (blk _ b) with (blk m b). unfold bupd. destruct (decide (b = freeblock m)) as [->|H].
      * rewrite I2 by done. apply (I6 (freeblock m)). lia.
      * rewrite decide_False by done. by apply I2.
    + rewrite bupd_ne by lia. rewrite bupd_eq, I3. symmetry. apply bitmap_succ. lia.
    + intros b. unfold bupd. case_decide; [done|]. case_decide; [|done]. unfold block_ok, mark_used. rewrite length_alter. apply I4.
    + change nmeta with 46. lia.
    + intros b Hb. rewrite !bupd_ne by lia. apply I6. lia.
    + split; [by rewrite !bupd_ne by lia|]. intros b Hb. rewrite !bupd_ne by lia. by apply I8.
  - unfold is_data. change (dstart B) with 46. change (sb_size B) with 2000. change FSSIZE with 2000 in *. lia.
  - rewrite (img_used m) by (done || lia). apply Z.ltb_irrefl.
Qed.

(** ** A block of a file *)

Record grown m c x m' c' x' (fbn : Z) : Prop := mkgrown {
  gr_img : img m' c';
  gr_file : file_ok B c' x';
  gr_ext : extends B none c x c' x';
  gr_meta : same_meta x x';
  gr_addr : addr c' x' fbn <> 0;
  gr_inode : freeinode m' = freeinode m;
  gr_fresh : forall b, is_data B b -> used B c b = false -> b <> ind x' -> c' b = zero_block
}.

(** The blocks that have to be allocated for it. *)
Definition missing c x (fbn : Z) : Z :=
  if addr c x fbn =? 0 then (if (NDIRECT <=? fbn) && (ind x =? 0) then 2 else 1) else 0.

Lemma img_fresh m c b : img m c -> is_data B b -> used B c b = false -> c b = zero_block.
Proof.
  intros I Hb Hu. unfold is_data in Hb. change (dstart B) with 46 in Hb. change (sb_size B) with 2000 in Hb.
  rewrite (img_used m) in Hu by (done || change FSSIZE with 2000; lia). apply (im_zero _ _ I). change FSSIZE with 2000. lia.
Qed.

Lemma take_fresh m c r b : img m c -> is_data B r -> is_data B b -> used B c b = false -> take_block B c r b = zero_block.
Proof.
  intros I Hr Hb Hu. destruct (decide (b = r)) as [->|Hne]; [apply take_same|]. rewrite (take_data B Hg) by done. by eapply img_fresh.
Qed.

Lemma grown_refl m c x fbn : img m c -> file_ok B c x -> addr c x fbn <> 0 -> grown m c x m c x fbn.
Proof.
  intros I F Ha. split; try done; [apply extends_refl|apply same_meta_refl|]. intros b Hb Hu _. by eapply img_fresh.
Qed.

Lemma addr_small c x fbn : file_ok B c x -> is_bn fbn -> xint (addr c x fbn) = addr c x fbn.
Proof.
  intros F Hb. apply xint_id. destruct (decide (addr c x fbn = 0)) as [->|Ha]; [lia|].
  destruct (fo_data _ _ _ F _ Hb Ha) as [Hd _]. unfold is_data in Hd. change (dstart B) with 46 in Hd. change (sb_size B) with 2000 in Hd. lia.
Qed.
Lemma ind_small c x : file_ok B c x -> xint (ind x) = ind x.
Proof.
  intros F. apply xint_id. destruct (decide (ind x = 0)) as [->|Ha]; [lia|].
  destruct (fo_ind _ _ _ F Ha) as [Hd _]. unfold is_data in Hd. change (dstart B) with 46 in Hd. change (sb_size B) with 2000 in Hd. lia.
Qed.
Lemma data_small r : is_data B r -> xint r = r /\ r <> 0.
Proof.
  intros Hd. unfold is_data in Hd. change (dstart B) with 46 in Hd. change (sb_size B) with 2000 in Hd. split; [apply xint_id|]; lia.
Qed.

Section Block.
Context (m : mkimg) (c : Z -> list Z) (x : inode) (fbn : Z).
Hypothesis (I : img m c) (F : file_ok B c x) (Hroom : freeblock m + missing c x fbn <= FSSIZE).

Definition block_post (r : inode * Z) (m' : mkimg) : Prop :=
  exists c' x', r = (x', addr c' x' fbn) /\ grown m c x m' c' x' fbn /\ freeblock m' = freeblock m + missing c x fbn.

Lemma fblock_direct : 0 <= fbn < NDIRECT -> mruns (fblock x fbn) m block_post.
Proof using I F Hroom.
  intros Hb. assert (Hbn : is_bn fbn) by (unfold is_bn; change NDIRECT with 12 in Hb; change MAXFILE with 268; lia).
  unfold fblock. rewrite (proj2 (Z.ltb_lt _ _)) by lia.
  assert (Hget : get_addr x (Z.to_nat fbn) = addr c x fbn) by (unfold addr; by rewrite (proj2 (Z.ltb_lt _ _)) by lia).
  rewrite Hget, (addr_small c x) by done. destruct (Z.eqb_spec (addr c x fbn) 0) as [H0|H0].
  - assert (Hm : missing c x fbn = 1) by (unfold missing; by rewrite H0, Z.eqb_refl, (proj2 (Z.leb_gt _ _)) by lia).
    destruct (next_block_img m c I) as (m1 & E1 & I1 & Hi & Hf & Hd & Hfree); [lia|]. destruct (data_small _ Hd) as [Hx1 Hx2].
    apply mruns_bind. eapply mruns_step; [exact E1|]. rewrite Hx1. apply mruns_ret, mruns_ret.
    destruct (add_direct B Hg c x (freeblock m)) with (bn := fbn) as [F' E']; try done; [apply I|].
    set (x' := set_addr _ _ x) in *. pose proof (fo_len _ _ _ F) as Hl. change NDIRECT with 12 in Hb.
    assert (Hnew : addr (take_block B c (freeblock m)) x' fbn = freeblock m).
    { unfold addr. rewrite (proj2 (Z.ltb_lt _ _)) by (change NDIRECT with 12; lia). unfold x'. rewrite get_set_addr, decide_True by (done || rewrite Hl; lia). done. }
    exists (take_block B c (freeblock m)), x'. split; [|split; [|lia]].
    + f_equal. rewrite Hnew. unfold x'. rewrite get_set_addr, decide_True by (done || rewrite Hl; lia). done.
    + split; try done; [by rewrite Hnew|]. intros b Hb' Hu _. by eapply take_fresh.
  - assert (Hm : missing c x fbn = 0) by (unfold missing; by rewrite (proj2 (Z.eqb_neq _ _))).
    apply mruns_bind, mruns_ret, mruns_ret. exists c, x. split; [by rewrite Hget, (addr_small c x)|]. split; [by apply grown_refl|lia].
Qed.

(** The entry of the indirect block. *)
Definition fentry (din : inode) : MK (inode * Z) :=
  indirect ← rsect (xint (get_addr din (Z.to_nat NDIRECT)));
  let i := Z.to_nat (fbn - NDIRECT) in
  indirect ← (if get_le indirect (4 * i) 4 =? 0 then
                b ← next_block;
                let indirect := put_le indirect (4 * i) 4 (xint b) in
                wsect (xint (get_addr din (Z.to_nat NDIRECT))) indirect;;
                mret indirect
              else mret indirect);
  mret (din, xint (get_le indirect (4 * i) 4)).

Lemma fentry_runs : NDIRECT <= fbn < MAXFILE -> ind x <> 0 -> mruns (fentry x) m block_post.
Proof using I F Hroom.
  intros Hb Hi. assert (Hbn : is_bn fbn) by (unfold is_bn; change NDIRECT with 12 in Hb; lia).
  destruct (fo_ind _ _ _ F Hi) as [Hid Hiu]. pose proof (img_data _ _ _ I Hid Hiu) as Hir. pose proof (im_free _ _ I) as [_ Hf2].
  assert (Hget : forall c', addr c' x fbn = get_le (c' (ind x)) (4 * Z.to_nat (fbn - NDIRECT)) 4).
  { intros c'. unfold addr. by rewrite (proj2 (Z.ltb_ge _ _)), (proj2 (Z.eqb_neq _ _)) by (done || lia). }
  unfold fentry. change (get_addr x (Z.to_nat NDIRECT)) with (ind x). rewrite (ind_small c x F).
  eapply mruns_step; [apply (rsect_img m c); [done|lia|lia]|]. cbv zeta. rewrite <- (Hget c).
  destruct (Z.eqb_spec (addr c x fbn) 0) as [H0|H0].
  - assert (Hm : missing c x fbn = 1).
    { unfold missing. rewrite H0, Z.eqb_refl, (proj2 (Z.eqb_neq (ind x) 0)), andb_false_r by done. done. }
    destruct (next_block_img m c I) as (m1 & E1 & I1 & Hi1 & Hf1 & Hd & Hfree); [lia|]. destruct (data_small _ Hd) as [Hx1 Hx2].
    destruct (add_indirect B Hg c x (freeblock m)) with (bn := fbn) as (F' & E' & Ha'); try done; [apply I|].
    assert (Hti : take_block B c (freeblock m) (ind x) = c (ind x)) by (by apply (take_ind B Hg)).
    destruct (wsect_img m1 _ (ind x) (put_le (c (ind x)) (4 * Z.to_nat (fbn - NDIRECT)) 4 (freeblock m)) I1) as (m2 & E2 & I2 & Hc2i & Hc2b); [lia|lia| |].
    { unfold block_ok. pose proof (im_ok _ _ I (ind x)) as Hbo. unfold block_ok in Hbo. change NDIRECT with 12 in *. change MAXFILE with 268 in Hb.
      change (Z.to_nat BSIZE) with 1024%nat in *. rewrite length_put_le; lia. }
    apply mruns_bind. eapply mruns_step; [exact E1|]. rewrite Hx1. eapply mruns_step; [exact E2|]. apply mruns_ret, mruns_ret.
    unfold add_entry in *. rewrite Hti in *. set (c2 := bupd _ (ind x) _) in *.
    exists c2, x. split; [|split; [|lia]].
    + f_equal. rewrite Ha'. pose proof (Hget c2) as Hg2. unfold c2 in Hg2 at 2. rewrite bupd_eq, Ha' in Hg2. rewrite <- Hg2. done.
    + split; try done; [apply same_meta_refl|by rewrite Ha'|congruence|].
      intros b Hb' Hu Hbi. unfold c2. rewrite bupd_ne by done. by eapply take_fresh.
  - assert (Hm : missing c x fbn = 0) by (unfold missing; by rewrite (proj2 (Z.eqb_neq _ _))).
    apply mruns_bind, mruns_ret, mruns_ret. exists c, x. split; [by rewrite <- Hget, (addr_small c x)|]. split; [by apply grown_refl|lia].
Qed.

End Block.

Lemma grown_trans m c x m1 c1 x1 m2 c2 x2 fbn :
  img m c -> img m1 c1 -> extends B none c x c1 x1 -> same_meta x x1 -> freeinode m1 = freeinode m ->
  (forall b, is_data B b -> used B c b = false -> b <> ind x1 -> used B c1 b = false) -> ind x1 <> 0 ->
  grown m1 c1 x1 m2 c2 x2 fbn -> grown m c x m2 c2 x2 fbn.
Proof.
  intros I I1 E S Hi Hu Hnz [G1 G2 G3 G4 G5 G6 G7]. split; try done.
  - by apply (extends_trans B Hg _ _ _ c1 x1).
  - by apply (same_meta_trans _ x1).
  - congruence.
  - intros b Hb Hub Hne. pose proof (ex_ind _ _ _ _ _ _ G3 Hnz) as Hii. apply G7; [done| |done]. apply Hu; [done|done|congruence].
Qed.

Lemma fblock_runs m c x fbn :
  img m c -> file_ok B c x -> is_bn fbn -> freeblock m + missing c x fbn <= FSSIZE -> mruns (fblock x fbn) m (block_post m c x fbn).
Proof.
  intros I F Hbn Hroom. unfold is_bn in Hbn. destruct (Z.lt_ge_cases fbn NDIRECT) as [Hlt|Hge]; [by apply fblock_direct; [..|lia]|].
  unfold fblock. rewrite (proj2 (Z.ltb_ge _ _)) by lia. change (get_addr x (Z.to_nat NDIRECT)) with (ind x). rewrite (ind_small c x F).
  apply mruns_bind. destruct (Z.eqb_spec (ind x) 0) as [H0|H0]; [|apply mruns_ret, fentry_runs; done || lia].
  assert (Ha0 : addr c x fbn = 0) by (unfold addr; rewrite (proj2 (Z.ltb_ge _ _)) by lia; by rewrite H0).
  assert (Hm : missing c x fbn = 2) by (unfold missing; rewrite Ha0, H0, (proj2 (Z.leb_le NDIRECT fbn)) by lia; done).
  destruct (next_block_img m c I) as (m1 & E1 & I1 & Hi1 & Hf1 & Hd & Hfree); [lia|]. destruct (data_small _ Hd) as [Hx1 Hx2].
  eapply mruns_step; [exact E1|]. rewrite Hx1. apply mruns_ret.
  destruct (add_ind B Hg c x (freeblock m)) as (F1 & Ex1 & Hind & Ha1); try done; [apply I|]. set (x1 := set_addr _ _ x) in *. set (c1 := take_block _ _ _) in *.
  assert (Ha01 : addr c1 x1 fbn = 0) by (rewrite Ha1; done).
  assert (Hm1 : missing c1 x1 fbn = 1) by (unfold missing; by rewrite Ha01, Hind, (proj2 (Z.eqb_neq (freeblock m) 0)), andb_false_r by done).
  eapply mruns_mono; [apply (fentry_runs m1 c1 x1 fbn I1 F1); [lia|lia|by rewrite Hind]|].
  intros r m2 (c2 & x2 & -> & G & Hf2). exists c2, x2. split; [done|]. split; [|lia].
  eapply (grown_trans m c x m1 c1 x1); try done; [|by rewrite Hind].
  intros b Hb Hu Hne. rewrite Hind in Hne. pose proof (data_range B Hg b Hb). unfold c1. rewrite (used_take B Hg) by (apply I || done || lia). by rewrite decide_False.
Qed.

(** ** Appending to a file *)

(** The blocks of a file of [n] bytes. *)
Definition fblocks (n : Z) : Z := (n + (BSIZE - 1)) / BSIZE + (if NDIRECT * BSIZE <? n then 1 else 0).

(** The bytes after [off] in the blocks of the file are zero. *)
Definition tail c x (off : Z) : Prop :=
  forall o, off <= o -> 0 <= o -> is_bn (o / BSIZE) -> addr c x (o / BSIZE) <> 0 -> fbyte c x o = 0.

Lemma fblocks_step off k : 0 <= off -> 0 < k -> off mod BSIZE + k <= BSIZE ->
  fblocks (off + k) = fblocks off + (if off mod BSIZE =? 0 then 1 else 0) + (if (off =? NDIRECT * BSIZE) then 1 else 0).
Proof.
  unfold fblocks. change BSIZE with 1024. change (NDIRECT * 1024) with 12288. intros Ho Hk Hfit.
  pose proof (Z.div_mod off 1024 ltac:(lia)) as Hd. pose proof (Z.mod_pos_bound off 1024 ltac:(lia)) as Hm. set (q := off / 1024) in *. set (r := off mod 1024) in *.
  assert (H1 : (off + k + (1024 - 1)) / 1024 = q + 1) by (symmetry; apply (Z.div_unique _ _ _ (r + k - 1)); lia).
  rewrite H1. destruct (Z.eqb_spec r 0) as [Hr|Hr].
  - assert (H2 : (off + (1024 - 1)) / 1024 = q) by (symmetry; apply (Z.div_unique _ _ _ 1023); lia). rewrite H2.
    destruct (Z.eqb_spec off 12288), (Z.ltb_spec 12288 (off + k)), (Z.ltb_spec 12288 off); lia.
  - assert (H2 : (off + (1024 - 1)) / 1024 = q + 1) by (symmetry; apply (Z.div_unique _ _ _ (r - 1)); lia). rewrite H2.
    destruct (Z.eqb_spec off 12288), (Z.ltb_spec 12288 (off + k)), (Z.ltb_spec 12288 off); lia.
Qed.

Lemma fblocks_mono a b : 0 <= a <= b -> fblocks a <= fblocks b.
Proof.
  intros H. unfold fblocks. pose proof (Z.div_le_mono (a + (BSIZE - 1)) (b + (BSIZE - 1)) BSIZE ltac:(done) ltac:(lia)).
  destruct (Z.ltb_spec (NDIRECT * BSIZE) a), (Z.ltb_spec (NDIRECT * BSIZE) b); lia.
Qed.

(** What a round may have to allocate. *)
Lemma missing_le c x off k :
  file_ok B c x -> 0 <= off -> 0 < k -> off mod BSIZE + k <= BSIZE -> off < MAXFILE * BSIZE ->
  (forall bn, 0 <= bn -> bn * BSIZE < off -> addr c x bn <> 0) ->
  missing c x (off / BSIZE) <= fblocks (off + k) - fblocks off.
Proof.
  intros F Ho Hk Hfit Hmax Hal. rewrite fblocks_step by done. change BSIZE with 1024 in *. change (NDIRECT * 1024) with 12288.
  pose proof (Z.div_mod off 1024 ltac:(lia)) as Hd. pose proof (Z.mod_pos_bound off 1024 ltac:(lia)) as Hm.
  pose proof (Z.div_pos off 1024 ltac:(lia) ltac:(lia)) as Hq. set (q := off / 1024) in *. set (r := off mod 1024) in *.
  unfold missing. destruct (Z.eqb_spec (addr c x q) 0) as [H0|H0]; [|destruct (r =? 0), (off =? 12288); lia].
  destruct (Z.eqb_spec r 0) as [Hr|Hr]; [|exfalso; apply (Hal q); lia].
  destruct (Z.leb_spec NDIRECT q) as [Hge|Hlt]; cbn [andb]; [|destruct (off =? 12288); lia].
  destruct (Z.eqb_spec (ind x) 0) as [Hi|Hi]; [|destruct (off =? 12288); lia].
  destruct (Z.eqb_spec off 12288) as [E|E]; [lia|]. exfalso. change NDIRECT with 12 in *. apply (Hal 12); [lia|lia|].
  unfold addr. change (12 <? NDIRECT) with false. by rewrite Hi.
Qed.

Lemma nth_zero_block k : nth k zero_block 0 = 0.
Proof. rewrite nth_lookup. unfold zero_block. destruct (replicate _ 0 !! k) eqn:E; [|done]. by apply lookup_replicate in E as [-> _]. Qed.

(** The new blocks are zero, the old ones as they were. *)
Lemma tail_grow m c x m' c' x' fbn off :
  img m c -> file_ok B c x -> grown m c x m' c' x' fbn -> tail c x off -> tail c' x' off.
Proof.
  intros I F [G1 G2 G3 G4 G5 G6 G7] T o H1 H2 Hbn Ha'. destruct (decide (addr c x (o / BSIZE) = 0)) as [H0|H0].
  - set (b := addr c' x' (o / BSIZE)) in *. assert (Hown : owns c' x' b) by (split; [done|]; right; by exists (o / BSIZE)).
    assert (Hne : b <> ind x') by (by apply (fo_ind_ne _ _ _ G2)).
    assert (Hfree : is_data B b /\ used B c b = false).
    { destruct (ex_own _ _ _ _ _ _ G3 b Hown) as [[Hb0 [Hi|(bn & Hb & E)]]|H]; [| |done].
      - exfalso. apply Hne. rewrite (ex_ind _ _ _ _ _ _ G3); [done|]. congruence.
      - exfalso. assert (E' : addr c' x' bn = b) by (rewrite (ex_addr _ _ _ _ _ _ G3); congruence).
        assert (bn = o / BSIZE) as -> by (apply (fo_inj _ _ _ G2); [done|done|congruence|done]). congruence. }
    unfold fbyte. fold b. rewrite (G7 b) by tauto. apply nth_zero_block.
  - pose proof (ex_addr _ _ _ _ _ _ G3 _ Hbn H0) as He. rewrite <- (T o) by done. unfold fbyte. rewrite He. f_equal.
    destruct (fo_data _ _ _ F _ Hbn H0) as [Hd Hu]. apply (ex_data _ _ _ _ _ _ G3); [done|done| |by intros []].
    rewrite <- He. by apply (fo_ind_ne _ _ _ G2).
Qed.

Lemma tail_store c x off (chunk : list Z) :
  file_ok B c x -> 0 <= off -> is_bn (off / BSIZE) -> addr c x (off / BSIZE) <> 0 -> block_ok (c (addr c x (off / BSIZE))) ->
  off mod BSIZE + Z.of_nat (length chunk) <= BSIZE -> tail c x off ->
  tail (store_at c x off chunk) x (off + Z.of_nat (length chunk)).
Proof.
  intros F Ho Hb Ha Hok Hfit T o H1 H2 Hbn Hao. rewrite (store_addr B) in Hao by done.
  rewrite (store_fbyte B) by (done || lia). rewrite decide_False by lia. apply T; done || lia.
Qed.

Section Append.
Context (c0 : Z -> list Z) (x0 : inode) (off0 : Z) (bs : list Z).
Hypothesis (Hoff0 : 0 <= off0) (Hmax : off0 + Z.of_nat (length bs) <= MAXFILE * BSIZE).
Notation len := (Z.of_nat (length bs)).

(** The state between rounds: the bytes up to [off] are in the file. *)
Record appended m c x (off : Z) : Prop := mkappended {
  ap_img : img m c;
  ap_wrote : wrote_to B c0 x0 off0 bs c x off;
  ap_tail : tail c x off;
  ap_room : freeblock m + (fblocks (off0 + len) - fblocks off) <= FSSIZE
}.

Lemma iappend_step k din off p : p <> [] ->
  iappend_loop (S k) din off p =
    (let n := Z.of_nat (length p) in let fbn := off / BSIZE in massert (fbn <? MAXFILE);; '(din, x) ← fblock din fbn;
     let n1 := Z.min n ((fbn + 1) * BSIZE - off) in buf ← rsect x;
     wsect x (splice buf (Z.to_nat (off - fbn * BSIZE)) (take (Z.to_nat n1) p));; iappend_loop k din (off + n1) (drop (Z.to_nat n1) p)).
Proof using. by destruct p. Qed.

(** One round. *)
Lemma append_round {A} m c x off n1 (k : inode -> MK A) Q :
  appended m c x off -> off0 <= off < off0 + len -> n1 = Z.min (off0 + len - off) ((off / BSIZE + 1) * BSIZE - off) ->
  (forall x' m' c', appended m' c' x' (off + n1) -> freeinode m' = freeinode m -> freeblock m' <= freeblock m + (fblocks (off + n1) - fblocks off) ->
    mruns (k x') m' Q) ->
  mruns ('(din, a) ← fblock x (off / BSIZE); buf ← rsect a;
         wsect a (splice buf (Z.to_nat (off - off / BSIZE * BSIZE)) (slice bs (Z.to_nat (off - off0)) (Z.to_nat n1)));; k din) m Q.
Proof using Hoff0 Hmax.
  intros [I W T Hroom] Hoff Hn1 Hk. pose proof (wr_ok _ _ _ _ _ _ _ _ W) as F.
  pose proof (Z.div_mod off BSIZE ltac:(done)) as Hd. pose proof (Z.mod_pos_bound off BSIZE ltac:(done)) as Hm. pose proof (Z.div_pos off BSIZE ltac:(lia) ltac:(done)) as Hq.
  assert (Hfit : 0 < n1 /\ off mod BSIZE + n1 <= BSIZE /\ off + n1 <= off0 + len) by (subst n1; change BSIZE with 1024 in *; lia). destruct Hfit as (Hn & Hfit & Hle).
  assert (Hbn : is_bn (off / BSIZE)) by (unfold is_bn; change BSIZE with 1024 in *; lia).
  pose proof (missing_le c x off n1 F ltac:(lia) Hn Hfit ltac:(lia) (wr_alloc _ _ _ _ _ _ _ _ W)) as Hms.
  pose proof (fblocks_mono (off + n1) (off0 + len) ltac:(lia)) as Hmono.
  apply mruns_bind. eapply mruns_mono; [apply (fblock_runs m c x _ I F Hbn); lia|]. intros r m1 (c1 & x1 & -> & G & Hf1).
  pose proof (wrote_grow B Hg _ _ _ _ _ _ _ _ _ W ltac:(lia) (gr_file _ _ _ _ _ _ _ G) (gr_ext _ _ _ _ _ _ _ G) (gr_meta _ _ _ _ _ _ _ G)) as W1.
  pose proof (tail_grow _ _ _ _ _ _ _ _ I F G T) as T1. destruct G as [I1 F1 E1 S1 A1 N1 _]. set (a := addr c1 x1 (off / BSIZE)) in *.
  destruct (fo_data _ _ _ F1 _ Hbn A1) as [Had Hau]. pose proof (img_data _ _ _ I1 Had Hau) as Har. pose proof (im_free _ _ I1) as [_ Hf2].
  eapply mruns_step; [apply (rsect_img m1 c1); [done|lia|lia]|].
  replace (off - off / BSIZE * BSIZE) with (off mod BSIZE) by lia. set (chunk := slice bs _ _).
  assert (Hcl : Z.of_nat (length chunk) = n1) by (unfold chunk; rewrite length_slice; lia).
  assert (Hblk : block_ok (c1 a)) by apply I1.
  destruct (wsect_img m1 c1 a (splice (c1 a) (Z.to_nat (off mod BSIZE)) chunk) I1) as (m2 & E2 & I2 & Hi2 & Hf3); [lia|lia| |].
  { apply (store_block_ok c1 x1 off chunk); [done|lia]. }
  eapply mruns_step; [exact E2|]. apply (Hk x1 m2 (store_at c1 x1 off chunk)); [|congruence|lia].
  split; [exact I2| |by rewrite <- Hcl; apply tail_store; try done; lia|lia].
  apply (wrote_store B Hg); try done; lia.
Qed.

Lemma iappend_loop_runs k : forall m c x off,
  appended m c x off -> off0 <= off <= off0 + len -> (Z.to_nat (off0 + len - off) < k)%nat ->
  mruns (iappend_loop k x off (drop (Z.to_nat (off - off0)) bs)) m (fun r m' => exists c' x',
    r = (x', off0 + len) /\ appended m' c' x' (off0 + len) /\ freeinode m' = freeinode m /\
    freeblock m' <= freeblock m + (fblocks (off0 + len) - fblocks off)).
Proof using Hoff0 Hmax.
  induction k as [|k IH]; intros m c x off A Hoff Hk; [lia|].
  set (p := drop _ bs). assert (Hpl : Z.of_nat (length p) = off0 + len - off) by (unfold p; rewrite length_drop; lia).
  destruct (decide (off = off0 + len)) as [E|E].
  { assert (p = []) as -> by (apply length_zero_iff_nil; lia). apply mruns_ret. exists c, x. rewrite <- E. split; [done|]. split; [done|lia]. }
  rewrite iappend_step by (intros E'; rewrite E' in Hpl; cbn in Hpl; lia). cbv zeta. rewrite Hpl.
  set (n1 := Z.min _ _). pose proof (Z.div_mod off BSIZE ltac:(done)) as Hd. pose proof (Z.mod_pos_bound off BSIZE ltac:(done)) as Hm.
  assert (Hn : 0 < n1 <= off0 + len - off) by (unfold n1; change BSIZE with 1024 in *; lia).
  apply mruns_assert. { apply Z.ltb_lt. change BSIZE with 1024 in *. lia. }
  apply (append_round m c x off n1); [done|lia|done|]. intros x1 m1 c1 A1 Hi1 Hf1.
  assert (Hdrop : drop (Z.to_nat n1) p = drop (Z.to_nat (off + n1 - off0)) bs) by (unfold p; rewrite drop_drop; f_equal; lia). rewrite Hdrop.
  eapply mruns_mono; [apply (IH m1 c1 x1 (off + n1) A1); lia|]. intros r m2 (c2 & x2 & -> & A2 & Hi2 & Hf2).
  exists c2, x2. split; [done|]. split; [done|]. split; [congruence|lia].
Qed.

End Append.

(** ** Inodes *)

Lemma inum_block i : is_inum B i -> 32 <= IBLOCK i B < 45.
Proof.
  unfold is_inum, IBLOCK. change (sb_ninodes B) with 200. change (sb_inodestart B) with 32. change IPB with 16. intros Hi.
  pose proof (Z.div_pos i 16 ltac:(lia) ltac:(lia)). pose proof (Z.div_lt_upper_bound i 16 13 ltac:(lia) ltac:(lia)). lia.
Qed.

Lemma rinode_img m c i : img m c -> is_inum B i -> rinode i m = MOk (dinode_at B c i) m.
Proof.
  intros I Hi. pose proof (inum_block i Hi). unfold rinode, mbind, MK_bind. rewrite (rsect_img m c) by (done || change FSSIZE with 2000; lia). done.
Qed.

Lemma winode_img m c i x : img m c -> is_inum B i -> length (i_addrs x) = 13%nat ->
  exists m', winode i x m = MOk () m' /\ img m' (set_dinode B c i x) /\ counters m m'.
Proof.
  intros I Hi Hl. pose proof (inum_block i Hi) as Hb. pose proof (im_free _ _ I) as [Hf _]. change nmeta with 46 in Hf.
  unfold winode, mbind, MK_bind. rewrite (rsect_img m c) by (done || change FSSIZE with 2000; lia).
  apply wsect_img; [done|lia|lia|]. apply block_ok_dinode; [unfold is_inum in Hi; lia|apply I|done].
Qed.

(** What is read from a well-formed file's inode can be stored again. *)
Lemma loaded_ok c i : file_ok B c (dinode_at B c i) -> dinode_ok (dinode_at B c i).
Proof.
  intros F. pose proof (fo_size _ _ _ F) as Hs. change (MAXFILE * BSIZE) with 274432 in Hs. pose proof (file_addrs B Hg _ _ F) as Ha.
  unfold dinode_ok. split_and!; try apply i16_short; try lia; [apply F|done].
Qed.

(** [bs] has been appended to file [i]. *)
Record extended c c' (i : Z) (bs : list Z) : Prop := mkextended {
  et_type : i_type (dinode_at B c' i) = i_type (dinode_at B c i);
  et_nlink : i_nlink (dinode_at B c' i) = i_nlink (dinode_at B c i);
  et_size : i_size (dinode_at B c' i) = i_size (dinode_at B c i) + Z.of_nat (length bs);
  et_bytes : file_bytes c' (dinode_at B c' i) = file_bytes c (dinode_at B c i) ++ bs;
  et_tail : tail c' (dinode_at B c' i) (i_size (dinode_at B c' i));
  et_other : forall j, is_inum B j -> j <> i -> dinode_at B c' j = dinode_at B c j;
  et_blocks : forall j b, live_inum B c j -> j <> i -> owns c (dinode_at B c j) b -> c' b = c b
}.

Lemma tail_same c x y off : i_addrs y = i_addrs x -> tail c x off -> tail c y off.
Proof.
  intros Ha T o H1 H2 H3. assert (Hi : ind y = ind x) by (unfold ind, get_addr; by rewrite Ha). unfold fbyte.
  assert (Had : addr c y (o / BSIZE) = addr c x (o / BSIZE)) by (unfold addr, get_addr; by rewrite Hi, Ha). rewrite Had. by apply T.
Qed.
Lemma tail_blocks c c' y off : file_ok B c y -> (forall b, owns c y b -> c' b = c b) -> tail c y off -> tail c' y off.
Proof.
  intros F Hb T o H1 H2 H3. rewrite (same_addr c c' y Hb). intros Ha. rewrite <- (T o H1 H2 H3 Ha). unfold fbyte. rewrite (same_addr c c' y Hb).
  f_equal. apply Hb. split; [done|]. right. by exists (o / BSIZE).
Qed.

(** The inode's block is not one of a file's. *)
Lemma own_dinode c i x y b : file_ok B c y -> is_inum B i -> owns c y b -> set_dinode B c i x b = c b.
Proof. intros F Hi [Hb [->|(bn & Hbn & <-)]]; apply (dinode_data B Hg); try done; by apply F. Qed.

(** Writing back an inode whose file has grown by [bs]. *)
Lemma write_back m1 c c1 i x' bs :
  let x := dinode_at B c i in
  img m1 c1 -> fs_inv B c -> live_inum B c i -> evolves B c x c1 x' -> file_ok B c1 x' -> dinode_ok x' ->
  i_type x' = i_type x -> i_nlink x' = i_nlink x -> i_size x' = i_size x + Z.of_nat (length bs) ->
  file_bytes c1 x' = file_bytes c x ++ bs -> tail c1 x' (i_size x') ->
  exists m2, winode i x' m1 = MOk () m2 /\ counters m1 m2 /\
    let c2 := set_dinode B c1 i x' in img m2 c2 /\ fs_inv B c2 /\ extended c c2 i bs.
Proof.
  intros x I1 Hinv Hl Hev F1 Hd' Ht Hn Hs Hby T1. pose proof Hl as [Hin Hty]. assert (Hbk : block_ok (c1 (IBLOCK i B))) by apply I1.
  assert (Ht' : i_type x' <> 0) by (rewrite Ht; exact Hty).
  destruct (winode_img m1 c1 i x' I1 Hin) as (m2 & E2 & I2 & Hc2); [apply Hd'|]. exists m2. split; [exact E2|]. split; [done|]. intros c2.
  assert (Hdin : forall j, is_inum B j -> dinode_at B c2 j = if decide (j = i) then with_dinode x' zero_inode else dinode_at B c j).
  { intros j Hj. by apply (update_dinode B Hg c c1 i x x'). }
  assert (Hself : dinode_at B c2 i = with_dinode x' zero_inode) by (by rewrite Hdin, decide_True).
  split; [done|]. split; [by apply (update_inv B Hg c c1 i x x')|]. split; rewrite ?Hself; [done|done|done|..].
  - rewrite (file_bytes_same _ x') by done. fold x. rewrite <- Hby. apply (same_bytes B c1); [done|]. intros b Hb. by apply (own_dinode c1 i x' x').
  - apply (tail_same _ x'); [done|]. apply (tail_blocks c1); [done|intros b Hb; by apply (own_dinode c1 i x' x')|done].
  - intros j Hj Hne. by rewrite Hdin, decide_False.
  - intros j b Hj Hne Hb. by apply (update_blocks B Hg c c1 i x x' Hinv Hl eq_refl Hev j).
Qed.

Lemma iappend_runs m c i bs :
  let x := dinode_at B c i in
  img m c -> fs_inv B c -> live_inum B c i -> tail c x (i_size x) -> i_size x + Z.of_nat (length bs) <= MAXFILE * BSIZE ->
  freeblock m + (fblocks (i_size x + Z.of_nat (length bs)) - fblocks (i_size x)) <= FSSIZE ->
  mruns (iappend i bs) m (fun _ m' => exists c', img m' c' /\ fs_inv B c' /\ extended c c' i bs /\ freeinode m' = freeinode m /\
    freeblock m' <= freeblock m + (fblocks (i_size x + Z.of_nat (length bs)) - fblocks (i_size x))).
Proof.
  intros x I Hinv Hl T Hmax Hroom. pose proof (fi_file _ _ Hinv i Hl) as F. fold x in F. pose proof (fo_size _ _ _ F) as Hs.
  set (n := Z.of_nat (length bs)) in *. assert (Hn0 : 0 <= n) by (unfold n; lia). assert (Hmx : i_size x + n < 2 ^ 32) by (change (MAXFILE * BSIZE) with 274432 in *; lia).
  pose proof Hl as [Hin Hty]. unfold iappend. eapply mruns_step; [by apply (rinode_img m c)|]. fold x. rewrite xint_id by lia.
  apply mruns_bind. eapply mruns_mono.
  { pose proof (iappend_loop_runs c x (i_size x) bs ltac:(lia) Hmax (S (length bs)) m c x (i_size x)) as H. rewrite Z.sub_diag in H. apply H; try lia.
    split; [done|by apply wrote_start; [|lia]|done|done]. }
  intros r m1 (c1 & x1 & -> & [I1 W1 T1 _] & Hi1 & Hf1). fold n in W1, T1, Hf1 |- *. rewrite xint_id by lia.
  pose proof (wr_meta _ _ _ _ _ _ _ _ W1) as Hmt. pose proof (meta_size _ _ Hmt) as Hsz1.
  pose proof (wrote_sized B Hg _ _ _ _ _ _ _ W1 Hmax) as F1. rewrite Z.max_r in F1 by lia. change (sized (i_size x + n) x1) with (set_i_size (i_size x + n) x1) in F1.
  set (x' := set_i_size (i_size x + n) x1) in *.
  assert (Hev : evolves B c x c1 x') by (apply (evolves_sized B _ _ _ x1), W1).
  assert (E : forall (g : inode -> Z), (forall a z, g (set_i_size z (set_i_addrs a x)) = g x) -> g x' = g x) by (intros g Hg'; unfold x'; rewrite Hmt; apply Hg').
  assert (Hd' : dinode_ok x').
  { destruct (loaded_ok c i F) as (H1 & H2 & H3 & H4 & _). fold x in H1, H2, H3, H4. pose proof (file_addrs B Hg _ _ F1) as Ha. pose proof (fo_len _ _ _ F1) as Hlen.
    unfold dinode_ok. rewrite (E i_type), (E i_major), (E i_minor), (E i_nlink) by done. change (i_size x') with (i_size x + n). split_and!; done || lia. }
  destruct (write_back m1 c c1 i x' bs I1 Hinv Hl Hev F1 Hd' (E i_type ltac:(done)) (E i_nlink ltac:(done)) eq_refl) as (m2 & E2 & [Hi2 Hf2] & H2); [|by apply (tail_same _ x1)|].
  - unfold file_bytes. cbn [x' i_size set_i_size]. pose proof (wrote_bytes B _ _ _ _ _ _ n W1 ltac:(lia) ltac:(unfold n; lia) ltac:(lia)) as Hby.
    rewrite Hsz1, Z.max_r in Hby by lia. change (bytes c1 x' 0 (i_size x + n)) with (bytes c1 x1 0 (i_size x + n)). rewrite Hby.
    assert (Hfl : length (file_bytes c x) = Z.to_nat (i_size x)) by apply length_bytes. fold x.
    unfold splice. rewrite (take_ge (file_bytes c x)) by lia. f_equal. rewrite take_ge by (unfold n; lia). rewrite drop_ge, app_nil_r; [done|lia].
  - exists (), m2. split; [exact E2|]. exists (set_dinode B c1 i x'). destruct H2 as (? & ? & ?). split_and!; try done; [congruence|lia].
Qed.

(** A new, empty file. *)
Section New.
Context (c : Z -> list Z) (i : Z) (x : inode).
Hypothesis (Hinv : fs_inv B c) (Hi : is_inum B i) (Hfree : i_type (dinode_at B c i) = 0) (Hok : block_ok (c (IBLOCK i B))).
Hypothesis (Hx : dinode_ok x) (Ha : i_addrs x = replicate 13 0) (Hs : i_size x = 0).
Notation c' := (set_dinode B c i x).

Lemma new_dinode j : is_inum B j -> dinode_at B c' j = if decide (j = i) then with_dinode x zero_inode else dinode_at B c j.
Proof using Hi Hok Hx. intros Hj. unfold is_inum in *. by rewrite dinode_at_set by (done || lia). Qed.

Lemma new_live j : live_inum B c' j -> j = i \/ live_inum B c j.
Proof using Hi Hok Hx.
  intros [Hj Ht]. destruct (decide (j = i)) as [->|Hne]; [by left|right]. by rewrite new_dinode, decide_False in Ht by done.
Qed.

Lemma new_owns y b : file_ok B c y -> owns c' y b <-> owns c y b.
Proof using Hi. intros F. apply same_owns. intros b' Hb'. by apply (own_dinode c i x y). Qed.

Lemma new_inv : fs_inv B c'.
Proof using Hinv Hi Hfree Hok Hx Ha Hs.
  assert (He : file_ok B c' (with_dinode x zero_inode) /\ forall b, ~ owns c' (with_dinode x zero_inode) b) by (by apply empty_file).
  destruct He as [He1 He2]. split.
  - intros b Hb. pose proof (layout_order B Hg). rewrite (dinode_used B Hg) by (done || lia). by apply Hinv.
  - intros j Hj. pose proof Hj as [Hin _]. rewrite new_dinode by done. destruct (new_live j Hj) as [->|Hl]; [by rewrite decide_True|].
    case_decide; [done|]. apply (dinode_file_ok B Hg); [done|]. by apply Hinv.
  - intros j k Hj Hk Hne b. pose proof Hj as [Hjn _]. pose proof Hk as [Hkn _]. rewrite !new_dinode by done.
    destruct (decide (j = i)) as [Ej|Ej]; [intros Hb; by apply He2 in Hb|]. destruct (decide (k = i)) as [Ek|Ek]; [intros _ Hb; by apply He2 in Hb|].
    destruct (new_live j Hj) as [?|Hlj]; [done|]. destruct (new_live k Hk) as [?|Hlk]; [done|].
    rewrite !new_owns by (by apply Hinv). by apply (fi_apart _ _ Hinv j k).
Qed.

End New.

(** ** The files of the image *)

(** Inode [k + 1] is the [k]-th file, with its type and its bytes; the others are free. *)
Record holds c (fs : list (Z * list Z)) : Prop := mkholds {
  ho_file : forall k ty bs, fs !! k = Some (ty, bs) -> let x := dinode_at B c (Z.of_nat k + 1) in
    i_type x = ty /\ ty <> 0 /\ i_nlink x = 1 /\ i_size x = Z.of_nat (length bs) /\ file_bytes c x = bs /\ tail c x (i_size x);
  ho_rest : forall j, is_inum B j -> Z.of_nat (length fs) < j -> i_type (dinode_at B c j) = 0
}.

Fixpoint total (fs : list (Z * list Z)) : Z :=
  match fs with [] => 0 | f :: fs' => fblocks (Z.of_nat (length f.2)) + total fs' end.

Record built m (fs : list (Z * list Z)) : Prop := mkbuilt {
  bu_view : exists c, img m c /\ fs_inv B c /\ holds c fs;
  bu_inode : freeinode m = Z.of_nat (length fs) + 1;
  bu_count : Z.of_nat (length fs) < 200;
  bu_block : freeblock m <= nmeta + total fs
}.

Lemma total_app fs gs : total (fs ++ gs) = total fs + total gs.
Proof. induction fs as [|f fs IH]; cbn; [done|]. rewrite IH. lia. Qed.
Lemma fblocks_nonneg n : 0 <= n -> 0 <= fblocks n.
Proof. intros Hn. pose proof (fblocks_mono 0 n ltac:(lia)) as H. by change (fblocks 0) with 0 in H. Qed.
Lemma total_nonneg fs : 0 <= total fs.
Proof. induction fs as [|f fs IH]; cbn [total]; [done|]. pose proof (fblocks_nonneg (Z.of_nat (length f.2)) ltac:(lia)). lia. Qed.
Lemma total_insert fs k f f' : fs !! k = Some f -> total (<[k := f']> fs) = total fs - fblocks (Z.of_nat (length f.2)) + fblocks (Z.of_nat (length f'.2)).
Proof.
  revert k. induction fs as [|g fs IH]; intros [|k] H; try done.
  - injection H as ->. cbn. lia.
  - specialize (IH k H). change (<[S k := f']> (g :: fs)) with (g :: <[k := f']> fs). cbn [total]. rewrite IH. lia.
Qed.

Lemma holds_live c fs k ty bs : holds c fs -> Z.of_nat (length fs) < 200 -> fs !! k = Some (ty, bs) -> live_inum B c (Z.of_nat k + 1).
Proof.
  intros H Hlen Hk. pose proof (lookup_lt_Some _ _ _ Hk). destruct (ho_file _ _ H k ty bs Hk) as (H1 & H2 & _).
  split; [unfold is_inum; change (sb_ninodes B) with 200; lia|congruence].
Qed.

Lemma built_ialloc m fs ty :
  built m fs -> Z.of_nat (length fs) + 1 < 200 -> 0 < ty < 2 ^ 15 ->
  mruns (ialloc ty) m (fun r m' => r = Z.of_nat (length fs) + 1 /\ built m' (fs ++ [(ty, [])])).
Proof.
  intros [(c & I & Hinv & H) Hi Hc Hb] Hlen Hty. unfold ialloc. set (i := Z.of_nat (length fs) + 1) in *.
  assert (Hin : is_inum B i) by (unfold is_inum, i; change (sb_ninodes B) with 200; lia).
  eapply mruns_step; [reflexivity|]. cbv zeta. rewrite Hi. rewrite (xshort_id ty), (xshort_id 1), (xint_id 0) by lia.
  set (x := set_i_size 0 _). set (m1 := mkmkimg _ _ _ _). assert (Hx : dinode_ok x).
  { unfold x, dinode_ok. cbn. unfold short_ok. split_and!; try lia; try done. repeat (apply Forall_cons; split; [lia|]). by apply Forall_nil. }
  assert (I1 : img m1 c) by (destruct I; by split).
  destruct (winode_img m1 c i x I1 Hin eq_refl) as (m2 & E2 & I2 & Hi2 & Hf2).
  eapply mruns_step; [exact E2|]. apply mruns_ret. split; [done|]. assert (Hbk : block_ok (c (IBLOCK i B))) by apply I.
  assert (Hz : i_type (dinode_at B c i) = 0) by (apply (ho_rest _ _ H); [done|unfold i; lia]).
  split.
  - exists (set_dinode B c i x). split; [done|]. split; [by apply new_inv|]. split.
    + intros k ty' bs Hk. destruct (decide (k < length fs)%nat) as [Hlt|Hge].
      * rewrite lookup_app_l in Hk by done. destruct (ho_file _ _ H k ty' bs Hk) as (F1 & F2 & F3 & F4 & F5 & F6).
        pose proof (holds_live _ _ _ _ _ H Hc Hk) as Hl. pose proof (fi_file _ _ Hinv _ Hl) as F.
        assert (Hblk : forall b, owns c (dinode_at B c (Z.of_nat k + 1)) b -> set_dinode B c i x b = c b) by (intros b Hb'; by eapply own_dinode).
        cbv zeta. rewrite (new_dinode c i x), decide_False by (done || apply Hl || unfold i; lia).
        split_and!; try done; [by rewrite (same_bytes B c)|by apply (tail_blocks c)].
      * pose proof (lookup_lt_Some _ _ _ Hk) as Hlt. rewrite length_app in Hlt. cbn in Hlt. assert (k = length fs) as -> by lia.
        rewrite lookup_app_r, Nat.sub_diag in Hk by lia. injection Hk as <- <-. fold i. cbv zeta. rewrite (new_dinode c i x), decide_True by done.
        split_and!; try done; [lia|]. intros o H1 H2 H3 H4. by rewrite empty_addr in H4.
    + intros j Hj Hlt. rewrite length_app in Hlt. cbn in Hlt. rewrite (new_dinode c i x), decide_False by (done || unfold i; lia). apply (ho_rest _ _ H); [done|lia].
  - rewrite Hi2. cbn. rewrite length_app. cbn. unfold u32. rewrite Z.mod_small by lia. lia.
  - rewrite length_app. cbn. lia.
  - rewrite Hf2. cbn [freeblock m1]. rewrite total_app. cbn [total]. change (fblocks (Z.of_nat (length (ty, []).2))) with 0. lia.
Qed.

Lemma extended_built m c fs k ty b0 bs m' c' :
  img m c -> holds c fs -> Z.of_nat (length fs) < 200 -> fs_inv B c -> fs !! k = Some (ty, b0) -> let fs' := <[k := (ty, b0 ++ bs)]> fs in
  img m' c' -> fs_inv B c' -> extended c c' (Z.of_nat k + 1) bs -> freeinode m' = Z.of_nat (length fs) + 1 -> freeblock m' <= nmeta + total fs' ->
  built m' fs'.
Proof.
  intros I H Hc Hinv Hk fs' I' Hinv' [E1 E2 E3 E4 E5 E6 E7] Hi Hf.
  destruct (ho_file _ _ H k ty b0 Hk) as (F1 & F2 & F3 & F4 & F5 & F6). cbv zeta in *. pose proof (lookup_lt_Some _ _ _ Hk) as Hlt.
  split; [|unfold fs'; by rewrite length_insert|unfold fs'; by rewrite length_insert|done].
  exists c'. split; [done|]. split; [done|]. split.
  - intros j ty' bs' Hj. destruct (decide (j = k)) as [->|Hne].
    + unfold fs' in Hj. rewrite list_lookup_insert_eq in Hj by done. injection Hj as <- <-. cbv zeta. rewrite length_app.
      split_and!; try congruence; [rewrite E3; lia|done].
    + unfold fs' in Hj. rewrite list_lookup_insert_ne in Hj by done. pose proof (holds_live _ _ _ _ _ H Hc Hj) as Hlj.
      destruct (ho_file _ _ H j ty' bs' Hj) as (J1 & J2 & J3 & J4 & J5 & J6). pose proof (fi_file _ _ Hinv _ Hlj) as F.
      cbv zeta. rewrite E6 by (apply Hlj || lia).
      assert (Hblk : forall b, owns c (dinode_at B c (Z.of_nat j + 1)) b -> c' b = c b) by (intros b Hb'; apply (E7 (Z.of_nat j + 1) b Hlj); [lia|done]).
      split_and!; try done; [by rewrite (same_bytes B c)|by apply (tail_blocks c)].
  - intros j Hj Hlj. unfold fs' in Hlj. rewrite length_insert in Hlj. rewrite E6 by (done || lia). by apply (ho_rest _ _ H).
Qed.

Lemma built_iappend m fs k ty b0 bs :
  built m fs -> fs !! k = Some (ty, b0) -> let fs' := <[k := (ty, b0 ++ bs)]> fs in
  Z.of_nat (length (b0 ++ bs)) <= MAXFILE * BSIZE -> nmeta + total fs' <= FSSIZE ->
  mruns (iappend (Z.of_nat k + 1) bs) m (fun _ m' => built m' fs').
Proof.
  intros [(c & I & Hinv & H) Hi Hc Hb] Hk fs' Hmax Hroom. pose proof (holds_live _ _ _ _ _ H Hc Hk) as Hl.
  destruct (ho_file _ _ H k ty b0 Hk) as (_ & _ & _ & F4 & _ & F6). cbv zeta in *. rewrite length_app, Nat2Z.inj_add in Hmax.
  pose proof (total_insert fs k _ (ty, b0 ++ bs) Hk) as Htot. cbn [snd] in Htot. rewrite length_app, Nat2Z.inj_add in Htot. fold fs' in Htot.
  eapply mruns_mono; [apply (iappend_runs m c (Z.of_nat k + 1) bs I Hinv Hl); rewrite ?F4; [by rewrite <- F4|lia|lia]|].
  intros _ m' (c' & I' & Hinv' & E & Hi' & Hf'). rewrite F4 in Hf'. apply (extended_built m c fs k ty b0 bs m' c'); try done; [congruence|fold fs'; lia].
Qed.

(** The root directory's size is rounded up to a whole number of blocks. *)
Definition pad_len (n : Z) : nat := Z.to_nat ((n / BSIZE + 1) * BSIZE - n).
Definition padded (r : list Z) : list Z := r ++ replicate (pad_len (Z.of_nat (length r))) 0.

Lemma round_up n : n mod BSIZE <> 0 -> 0 <= n -> let n' := (n / BSIZE + 1) * BSIZE in
  n + Z.of_nat (pad_len n) = n' /\ (forall bn, bn * BSIZE < n' -> bn * BSIZE < n) /\ fblocks n' = fblocks n.
Proof.
  intros Hm Hn n'. unfold pad_len. fold n'. pose proof (Z.div_mod n BSIZE ltac:(done)) as Hd. pose proof (Z.mod_pos_bound n BSIZE ltac:(done)) as Hb.
  unfold n', fblocks. change BSIZE with 1024 in *. change (NDIRECT * 1024) with 12288. set (q := n / 1024) in *. split; [lia|]. split; [intros bn; lia|].
  rewrite <- (Z.div_unique ((q + 1) * 1024 + (1024 - 1)) 1024 (q + 1) 1023) by lia.
  rewrite <- (Z.div_unique (n + (1024 - 1)) 1024 (q + 1) (n mod 1024 - 1)) by lia. destruct (Z.ltb_spec 12288 ((q + 1) * 1024)), (Z.ltb_spec 12288 n); lia.
Qed.

Lemma fix_root_built m fs r :
  built m ((T_DIR, r) :: fs) -> let n := Z.of_nat (length r) in n mod BSIZE <> 0 -> (n / BSIZE + 1) * BSIZE <= MAXFILE * BSIZE ->
  mruns (fix_root ROOTINO) m (fun _ m' => built m' ((T_DIR, padded r) :: fs)).
Proof.
  intros [(c & I & Hinv & H) Hi Hc Hb] n Hm Hmax. pose proof (holds_live _ _ 0 _ _ H Hc eq_refl) as Hl. change (live_inum B c ROOTINO) in Hl.
  destruct (ho_file _ _ H 0%nat T_DIR r eq_refl) as (F1 & F2 & F3 & F4 & F5 & F6). change (Z.of_nat 0 + 1) with ROOTINO in *. fold n in F4. cbv zeta in *.
  assert (Hn0 : 0 <= n) by (unfold n; lia). destruct (round_up n Hm Hn0) as (Hr1 & Hr2 & Hr3). set (n' := (n / BSIZE + 1) * BSIZE) in *.
  pose proof (fi_file _ _ Hinv _ Hl) as F. set (x := dinode_at B c ROOTINO) in *. change (MAXFILE * BSIZE) with 274432 in *. assert (Hn' : 0 <= n' < 2 ^ 32) by lia.
  unfold fix_root. eapply mruns_step; [apply (rinode_img m c); [done|apply Hl]|]. fold x. rewrite F4, (xint_id n) by lia. fold n'. cbv zeta. fold n'. rewrite (xint_id n') by lia.
  set (x' := set_i_size n' x).
  assert (F' : file_ok B c x').
  { apply (file_ok_ext B c x); [done|apply F| |done|done| |done]; [change (0 <= n' <= 274432); lia|]. intros bn H1 H2. apply F; [done|]. rewrite F4. by apply Hr2. }
  assert (Hd' : dinode_ok x').
  { destruct (loaded_ok c ROOTINO F) as (H1 & H2 & H3 & H4 & _ & H6). unfold dinode_ok. change (i_size x') with n'. split_and!; done || lia || apply H6. }
  destruct (write_back m c c ROOTINO x' (replicate (pad_len n) 0)) as (m2 & E2 & [Hi2 Hf2] & I2 & Hinv2 & Hext); try done.
  - apply (evolves_sized B), evolves_refl.
  - fold x. rewrite F4, length_replicate. change (i_size x') with n'. lia.
  - unfold file_bytes. change (i_size x') with n'. fold x. rewrite F4. rewrite <- Hr1 at 1. rewrite bytes_app by lia. f_equal. rewrite Z.add_0_l.
    unfold bytes. apply list_eq_Forall2, Forall2_same_length_lookup_2; [by rewrite length_fmap, length_seqZ, length_replicate, Nat2Z.id|].
    intros j a b Ha Hb'. apply lookup_replicate in Hb' as [-> Hj]. rewrite list_lookup_fmap, lookup_seqZ_lt in Ha by lia. injection Ha as <-.
    destruct (in_block n (Z.of_nat j)) as [Hq _]; [lia|pose proof (Z.div_mod n BSIZE ltac:(done)); unfold n' in *; lia|].
    apply (F6 (n + Z.of_nat j)); [lia|lia|..]; rewrite Hq; pose proof (Z.div_mod n BSIZE ltac:(done)); pose proof (Z.mod_pos_bound n BSIZE ltac:(done)).
    + unfold is_bn. change MAXFILE with 268. unfold n' in *. change BSIZE with 1024 in *. pose proof (Z.div_pos n 1024). lia.
    + apply F; [by apply Z.div_pos|]. rewrite F4. lia.
  - intros o Ho. apply F6. change (n' <= o) in Ho. lia.
  - exists (), m2. split; [exact E2|]. apply (extended_built m c _ 0 T_DIR r (replicate (pad_len n) 0) m2 _ I H Hc Hinv eq_refl I2 Hinv2 Hext); [congruence|].
    cbn [insert list_insert total snd] in *. rewrite length_app, length_replicate, Nat2Z.inj_add. fold n in Hb |- *. rewrite Hr1, Hr3. lia.
Qed.

(** ** The files of the command line *)

Lemma built_chunks chunks : forall m fs k ty b0,
  built m fs -> fs !! k = Some (ty, b0) -> let fs' := <[k := (ty, b0 ++ concat chunks)]> fs in
  Z.of_nat (length (b0 ++ concat chunks)) <= MAXFILE * BSIZE -> nmeta + total fs' <= FSSIZE ->
  mruns (mfor chunks (iappend (Z.of_nat k + 1))) m (fun _ m' => built m' fs').
Proof.
  induction chunks as [|bs chunks IH]; intros m fs k ty b0 Hb Hk fs' Hmax Hroom.
  - apply mruns_ret. unfold fs'. cbn. rewrite app_nil_r. by rewrite list_insert_id.
  - unfold fs' in *. clear fs'. cbn [mfor concat] in *. rewrite (app_assoc b0) in *. pose proof (lookup_lt_Some _ _ _ Hk) as Hlt.
    apply mruns_bind. eapply mruns_mono.
    + apply (built_iappend m fs k ty b0 bs Hb Hk); [rewrite length_app in Hmax; lia|].
      rewrite (total_insert fs k (ty, b0)) in * by done. cbn [snd] in *.
      pose proof (fblocks_mono (Z.of_nat (length (b0 ++ bs))) (Z.of_nat (length ((b0 ++ bs) ++ concat chunks))) ltac:(rewrite (length_app (b0 ++ bs)); lia)). lia.
    + intros u m' Hb'. cbv zeta beta in Hb'. specialize (IH m' (<[k := (ty, b0 ++ bs)]> fs) k ty (b0 ++ bs) Hb' ltac:(by rewrite list_lookup_insert_eq)).
      cbv zeta in IH. rewrite list_insert_insert_eq in IH. by apply IH.
Qed.

(** The name under which a file of the command line is stored, and its entry in the
    root directory. *)
Definition stored_name (arg : list Z) : list Z := skip_underscore (base_name arg).
Definition entry (inum : Z) (arg : list Z) : list Z := dirent inum (strncpy (replicate 14 0) (stored_name arg) DIRSIZ).
Fixpoint entries (inum : Z) (args : list (list Z)) : list Z :=
  match args with [] => [] | a :: args' => entry inum a ++ entries (inum + 1) args' end.

Lemma length_entry inum arg : length (entry inum arg) = 16%nat.
Proof.
  unfold entry, dirent, strncpy. rewrite length_app, length_le_bytes. change (Z.to_nat DIRSIZ) with 14%nat.
  rewrite strncpy_loop_spec by done. rewrite !length_app, length_replicate, length_drop, length_take, length_replicate. lia.
Qed.
Lemma length_entries args : forall inum, length (entries inum args) = (16 * length args)%nat.
Proof. induction args as [|a args IH]; intros inum; [done|]. cbn [entries]. rewrite length_app, length_entry, IH. cbn. lia. Qed.

Section Files.
Context (host : list Z -> option (list (list Z))).

Definition file_of (arg : list Z) : list Z := concat (default [] (host arg)).
Definition stored (args : list (list Z)) : list (Z * list Z) := (fun a => (T_FILE, file_of a)) <$> args.

(** The file can be read, its name fits and so does what it holds. *)
Definition arg_ok (arg : list Z) : Prop :=
  47 ∉ base_name arg /\ Z.of_nat (length (stored_name arg)) <= DIRSIZ /\ host arg <> None /\
  Z.of_nat (length (file_of arg)) <= MAXFILE * BSIZE.

Lemma add_file_built m r fs arg :
  built m ((T_DIR, r) :: fs) -> arg_ok arg -> Z.of_nat (length fs) < 198 ->
  let i := Z.of_nat (length fs) + 2 in let r' := r ++ entry i arg in let fs' := fs ++ [(T_FILE, file_of arg)] in
  Z.of_nat (length r') <= MAXFILE * BSIZE -> nmeta + total ((T_DIR, r') :: fs') <= FSSIZE ->
  mruns (add_file host ROOTINO arg) m (fun _ m' => built m' ((T_DIR, r') :: fs')).
Proof.
  intros Hb (Hn & Hlen & Hh & Hmax) Hfs i r' fs' Hr Hroom. unfold add_file. apply mruns_assert; [by apply bool_decide_eq_true|].
  unfold file_of in Hmax. destruct (host arg) as [chunks|] eqn:Eh; [|done]. cbn [default from_option id] in *. apply mruns_assert; [apply Z.leb_le, Hlen|].
  apply mruns_bind. eapply mruns_mono; [apply (built_ialloc m _ T_FILE Hb); [cbn [length]; lia|done]|].
  intros inum m1 [-> Hb1]. cbn [length] in *. assert (Ei : Z.of_nat (S (length fs)) + 1 = i) by lia. rewrite Ei.
  change (iappend ROOTINO) with (iappend (Z.of_nat 0 + 1)). apply mruns_bind.
  assert (Ht : nmeta + total ((T_DIR, r') :: fs ++ [(T_FILE, [])]) <= FSSIZE).
  { unfold fs' in Hroom. cbn [total snd] in *. rewrite total_app in *. cbn [total snd length] in *. change (fblocks (Z.of_nat 0)) with 0.
    pose proof (fblocks_nonneg (Z.of_nat (length (file_of arg))) ltac:(lia)). lia. }
  eapply mruns_mono; [apply (built_iappend m1 _ 0 T_DIR r _ Hb1 eq_refl); [exact Hr|exact Ht]|].
  intros u m2 Hb2. cbv zeta beta in Hb2. fold (stored_name arg) in *. cbn [app insert list_insert] in Hb2. fold (entry i arg) in Hb2. fold r' in Hb2.
  assert (Ef : <[S (length fs) := (T_FILE, [] ++ concat chunks)]> ((T_DIR, r') :: fs ++ [(T_FILE, [])]) = (T_DIR, r') :: fs').
  { transitivity ((T_DIR, r') :: <[length fs := (T_FILE, concat chunks)]> (fs ++ [(T_FILE, [])])); [done|]. f_equal. unfold fs'. rewrite insert_app_r_alt, Nat.sub_diag by lia. unfold file_of. by rewrite Eh. }
  rewrite <- Ef in *. assert (Ej : i = Z.of_nat (S (length fs)) + 1) by lia. rewrite Ej.
  apply (built_chunks chunks m2 _ (S (length fs)) T_FILE [] Hb2); [|exact Hmax|exact Hroom].
  change ((fs ++ [(T_FILE, [])]) !! length fs = Some (T_FILE, [])). by rewrite lookup_app_r, Nat.sub_diag by lia.
Qed.

Lemma add_files_built args : forall m r fs,
  built m ((T_DIR, r) :: fs) -> Forall arg_ok args -> Z.of_nat (length (fs ++ stored args)) <= 198 ->
  let r' := r ++ entries (Z.of_nat (length fs) + 2) args in let fs' := fs ++ stored args in
  Z.of_nat (length r') <= MAXFILE * BSIZE -> nmeta + total ((T_DIR, r') :: fs') <= FSSIZE ->
  mruns (mfor args (add_file host ROOTINO)) m (fun _ m' => built m' ((T_DIR, r') :: fs')).
Proof.
  induction args as [|a args IH]; intros m r fs Hb Hok Hlen r' fs' Hr Hroom.
  - apply mruns_ret. unfold r', fs'. cbn. by rewrite !app_nil_r.
  - apply Forall_cons in Hok as [Ha Hok]. set (i := Z.of_nat (length fs) + 2) in *. unfold r', fs' in *. clear r' fs'. cbn [mfor entries] in *.
    change (stored (a :: args)) with ([(T_FILE, file_of a)] ++ stored args) in *. rewrite (app_assoc r), (app_assoc fs) in *.
    assert (Ei : Z.of_nat (length (fs ++ [(T_FILE, file_of a)])) + 2 = i + 1) by (rewrite length_app; cbn [length]; lia).
    pose proof Hlen as Hlen2. rewrite !length_app in Hlen2. cbn [length] in Hlen2.
    assert (Hl1 : Z.of_nat (length (r ++ entry i a)) <= Z.of_nat (length ((r ++ entry i a) ++ entries (i + 1) args))) by (rewrite (length_app (r ++ entry i a)); lia).
    apply mruns_bind. eapply mruns_mono.
    + apply (add_file_built m r fs a Hb Ha); [lia|fold i; lia|]. fold i. cbn [total snd] in *. rewrite (total_app (fs ++ _)) in Hroom.
      pose proof (fblocks_mono _ _ (conj (Zle_0_nat _) Hl1)). pose proof (total_nonneg (stored args)). lia.
    + intros u m' Hb'. cbv zeta beta in Hb'. fold i in Hb'. specialize (IH m' _ _ Hb' Hok Hlen). cbv zeta in IH. rewrite Ei in IH. by apply IH.
Qed.
End Files.

(** ** The empty image *)

Lemma wipe_runs n : forall a m, 0 <= a -> a + Z.of_nat n <= FSSIZE -> (forall b, blk m b = zero_block) ->
  mruns (mfor (seqZ a (Z.of_nat n)) (fun i => wsect i zero_block)) m
    (fun _ m' => (forall b, blk m' b = zero_block) /\ counters m m' /\ fs_len m' = if decide (n = O) then fs_len m else Z.max (fs_len m) (a + Z.of_nat n)).
Proof.
  induction n as [|n IH]; intros a m Ha Hn Hz; [by apply mruns_ret|].
  rewrite seqZ_cons by lia. replace (Z.pred (Z.of_nat (S n))) with (Z.of_nat n) by lia. cbn [mfor].
  eapply mruns_step; [unfold wsect; rewrite sector by lia; done|]. eapply mruns_mono; [apply IH; [lia|lia|]|].
  - intros b. rewrite blk_wsect. by destruct (decide (b = a)).
  - intros u m' (H1 & [H2 H3] & H4). split; [done|]. split; [by split|]. rewrite H4. cbn [fs_len]. repeat case_decide; lia.
Qed.

Definition fresh : Z -> list Z := fun b => if decide (b = 1) then sb_block else if decide (b = 45) then bitmap nmeta else zero_block.

Lemma le_val_zeros l : Forall (eq 0) l -> le_val l = 0.
Proof. induction 1 as [|a l <- _ IH]; [done|]. cbn. by rewrite IH. Qed.
Lemma get_le_zero o n : get_le zero_block o n = 0.
Proof. apply le_val_zeros, Forall_take, Forall_drop, Forall_replicate. done. Qed.

Lemma fresh_free i : is_inum B i -> i_type (dinode_at B fresh i) = 0.
Proof.
  intros Hi. pose proof (inum_block i Hi). unfold dinode_at. assert (Hf : fresh (IBLOCK i B) = zero_block) by (unfold fresh; by rewrite !decide_False by lia).
  rewrite Hf. transitivity (i16 (get_le zero_block (dinode_off i) 2)); [done|]. rewrite <- (i16_mod 0) by done. f_equal. apply get_le_zero.
Qed.

Lemma fresh_built m : (forall b, blk m b = if decide (b = 1) then sb_block else zero_block) ->
  fs_len m = FSSIZE -> freeinode m = 1 -> freeblock m = nmeta -> built m [].
Proof.
  intros Hb Hl Hi Hf. assert (I : img m fresh).
  { split; try done; rewrite ?Hf; try done.
    - intros b H45. rewrite Hb. unfold fresh. by rewrite (decide_False (P := b = 45)).
    - intros b. unfold fresh. repeat case_decide; [done| |done]. by apply bitmap_bits.
    - intros b. change nmeta with 46. intros H. unfold fresh. by rewrite !decide_False by lia.
    - split; [done|]. intros b H. unfold fresh. by rewrite !decide_False by lia. }
  assert (Hno : forall i, ~ live_inum B fresh i) by (intros i [H1 H2]; by apply H2, fresh_free).
  split; [|done|done|by rewrite Hf]. exists fresh. split; [done|]. split; split; try (intros i j; by intros ?%Hno); try done; try (intros i; by intros ?%Hno).
  - intros b Hb'. change (dstart B) with 46 in Hb'. rewrite (img_used m fresh) by (done || change FSSIZE with 2000; lia). rewrite Hf. change nmeta with 46. lia.
  - intros j Hj _. by apply fresh_free.
Qed.

(** ** The program *)

Definition root_dir (args : list (list Z)) : list Z :=
  dirent ROOTINO (zstr "." ++ replicate 13 0) ++ dirent ROOTINO (zstr ".." ++ replicate 12 0) ++ entries 2 args.
Lemma length_root_dir args : length (root_dir args) = (16 * (length args + 2))%nat.
Proof. unfold root_dir. rewrite !length_app, length_entries. change (length (dirent ROOTINO (zstr "." ++ replicate 13 0))) with 16%nat. change (length (dirent ROOTINO (zstr ".." ++ replicate 12 0))) with 16%nat. lia. Qed.

(** The image as the kernel will find it: the superblock, an empty log, a bitmap
    that marks the blocks below [freeblock], and well-formed files that share no
    block, inode [k + 1] holding the [k]-th of [fs] and the other inodes free. *)
Record image_of m (fs : list (Z * list Z)) : Prop := mkimage {
  io_len : fs_len m = FSSIZE;
  io_ok : forall b, block_ok (blk m b);
  io_sb : blk m 1 = sb_block;
  io_log : forall b, in_log (sb_logstart B) (sb_nlog B) b -> blk m b = zero_block;
  io_used : forall b, 0 <= b < FSSIZE -> used B (blk m) b = (b <? freeblock m);
  io_inv : fs_inv B (blk m);
  io_file : forall k ty bs, fs !! k = Some (ty, bs) -> let x := dinode_at B (blk m) (Z.of_nat k + 1) in
    live_inum B (blk m) (Z.of_nat k + 1) /\ i_type x = ty /\ i_nlink x = 1 /\ i_size x = Z.of_nat (length bs) /\ file_bytes (blk m) x = bs;
  io_rest : forall j, is_inum B j -> Z.of_nat (length fs) < j -> i_type (dinode_at B (blk m) j) = 0
}.

Lemma balloc_image m fs : built m fs -> mruns (balloc (freeblock m)) m (fun _ m' => image_of m' fs).
Proof.
  intros [(c & I & Hinv & H) Hi Hc Hb]. pose proof (im_free _ _ I) as Hf. unfold balloc.
  apply mruns_assert; [apply Z.ltb_lt; change FSSIZE with 2000 in Hf; change BPB with 8192; lia|].
  eexists (), _. split; [unfold wsect; rewrite sector by done; change (sb_bmapstart mk_sb) with 45; done|]. set (m' := mkmkimg _ _ _ _).
  assert (E : forall b, blk m' b = c b).
  { intros b. unfold m'. rewrite blk_wsect. case_decide as Hb'; [subst; symmetry; apply I|by apply I]. }
  assert (Hag : forall b, home B b -> blk m' b = c b) by (intros; apply E). pose proof (agree_dinode B Hg c _ Hag) as Hd.
  split.
  - cbn. rewrite (im_len _ _ I). done.
  - intros b. rewrite E. apply I.
  - rewrite E. apply I.
  - intros b Hb'. rewrite E. by apply (proj2 (im_head _ _ I)).
  - intros b Hb'. rewrite (agree_used B Hg c _ Hag) by exact Hb'. by apply (img_used m).
  - by apply (agree_inv B Hg c).
  - intros k ty bs Hk. destruct (ho_file _ _ H k ty bs Hk) as (F1 & F2 & F3 & F4 & F5 & F6). pose proof (holds_live _ _ _ _ _ H Hc Hk) as Hl.
    cbv zeta. split; [by apply (agree_live B Hg c)|]. rewrite Hd by apply Hl. rewrite (agree_bytes B Hg c _ Hag) by (by apply Hinv). done.
  - intros j Hj Hlt. rewrite Hd by done. by apply (ho_rest _ _ H).
Qed.

Lemma start_built : mruns (mfor (seqZ 0 FSSIZE) (fun i => wsect i zero_block) ≫= fun _ => wsect 1 sb_block) mkimg0 (fun _ m => built m []).
Proof.
  apply mruns_bind. eapply mruns_mono; [apply (wipe_runs (Z.to_nat FSSIZE) 0 mkimg0 ltac:(done) ltac:(done)); intros b; unfold blk; cbn; by rewrite lookup_empty|].
  intros u m (Hz & [Hi Hf] & Hl). eexists (), _. split; [unfold wsect; rewrite sector by done; done|]. apply fresh_built; [|by cbn; rewrite Hl|done|done].
  intros b. rewrite blk_wsect. destruct (decide (b = 1)); [done|apply Hz].
Qed.

Lemma mruns_assoc {A C} (g : MK A) (h : A -> MK unit) (f : MK C) m Q : mruns ((g ≫= h) ≫= fun _ => f) m Q -> mruns (g ≫= fun a => h a ≫= fun _ => f) m Q.
Proof.
  intros (a & m' & H & HQ). exists a, m'. split; [|done]. rewrite <- H. unfold mbind, MK_bind. by destruct (g m).
Qed.

Lemma mkfs_built host args :
  Forall (arg_ok host) args -> Z.of_nat (length args) <= 198 -> (Z.of_nat (length args) + 2) mod 64 <> 0 ->
  nmeta + total ((T_DIR, root_dir args) :: stored host args) <= FSSIZE ->
  mruns (mkfs host args) mkimg0 (fun _ m => image_of m ((T_DIR, padded (root_dir args)) :: stored host args)).
Proof.
  intros Hok Hlen Hmod Hroom. unfold mkfs. apply mruns_assoc, mruns_bind. eapply mruns_mono; [exact start_built|]. intros u m1 B1.
  apply mruns_bind. eapply mruns_mono; [apply (built_ialloc m1 [] T_DIR B1); done|]. intros r m2 [-> B2]. clear u m1 B1. cbn [app length] in *.
  apply mruns_assert; [done|]. change (Z.of_nat 0 + 1) with ROOTINO.
  set (e1 := dirent ROOTINO (zstr "." ++ replicate 13 0)) in *. set (e2 := dirent ROOTINO (zstr ".." ++ replicate 12 0)) in *.
  assert (Hl : length (root_dir args) = (16 * (length args + 2))%nat) by apply length_root_dir.
  assert (H1 : Z.of_nat (length (root_dir args)) <= MAXFILE * BSIZE) by (rewrite Hl; change (MAXFILE * BSIZE) with 274432; lia).
  change (iappend ROOTINO) with (iappend (Z.of_nat 0 + 1)). apply mruns_bind.
  eapply mruns_mono; [apply (built_iappend m2 [(T_DIR, [])] 0 T_DIR [] e1 B2); done|]. intros u m3 B3. cbv zeta beta in B3. clear u m2 B2.
  apply mruns_bind. eapply mruns_mono; [apply (built_iappend m3 _ 0 T_DIR e1 e2 B3); done|]. intros u m4 B4. cbv zeta beta in B4. clear u m3 B3.
  assert (Er : (e1 ++ e2) ++ entries 2 args = root_dir args) by (unfold root_dir; fold e1 e2; by rewrite app_assoc).
  apply mruns_bind. eapply mruns_mono.
  { apply (add_files_built host args m4 (e1 ++ e2) [] B4 Hok); [unfold stored; rewrite length_app, length_fmap; cbn; lia|..]; cbn [app length]; change (Z.of_nat 0 + 2) with 2; by rewrite Er. }
  intros u m5 B5. cbv zeta beta in B5. cbn [app length] in B5. change (Z.of_nat 0 + 2) with 2 in B5. rewrite Er in B5. clear u m4 B4.
  apply mruns_bind. eapply mruns_mono; [apply (fix_root_built m5 _ _ B5); rewrite Hl|].
  - rewrite Nat2Z.inj_mul, Nat2Z.inj_add. change (Z.of_nat 16) with 16. change (Z.of_nat 2) with 2. change BSIZE with (16 * 64).
    rewrite Z.mul_mod_distr_l by lia. lia.
  - pose proof (Z.div_le_mono (Z.of_nat (16 * (length args + 2))) 3200 BSIZE ltac:(done) ltac:(lia)) as H. change (3200 / BSIZE) with 3 in H.
    change (MAXFILE * BSIZE) with 274432. change BSIZE with 1024 in *. lia.
  - intros u m6 B6. cbv beta in B6. eapply mruns_step; [reflexivity|]. by apply balloc_image.
Qed.

Lemma main_mkfs host prog img args : main host (prog :: img :: args) true = mkfs host args mkimg0.
Proof. unfold main. reflexivity. Qed.

Definition sample_host (arg : list Z) : option (list (list Z)) :=
  if decide (arg = zstr "README") then Some [zstr "hello "; zstr "world"]
  else if decide (arg = zstr "user/_cat") then Some [replicate 1024 7; replicate 1024 8; replicate 3 9]
  else None.
Definition sample_args : list (list Z) := [zstr "README"; zstr "user/_cat"].

Lemma sample_args_ok : Forall (arg_ok sample_host) sample_args.
Proof. repeat constructor; vm_compute; try congruence; by intros H; repeat (apply elem_of_cons in H as [H|H]; [done|]); apply elem_of_nil in H. Qed.

Lemma sample_room : nmeta + total ((T_DIR, root_dir sample_args) :: stored sample_host sample_args) <= FSSIZE.
Proof. apply Z.leb_le. vm_compute. reflexivity. Qed.

(** When the entries fill whole blocks, the size of the root directory is raised by a
    block that does not exist: 62 files and the two entries of the directory itself. *)
Lemma mkfs_root_hole :
  match main (fun _ => Some []) (replicate 64 (zstr "f")) true with
  | MOk _ m => let x := dinode_at B (blk m) ROOTINO in i_size x = 2048 /\ addr (blk m) x 1 = 0
  | _ => False
  end.
Proof. vm_compute. split; reflexivity. Qed.
