(* ===== verification/Pipe.v ===== *)
(** * kernel/pipe.c: the byte ring of a pipe

    A [struct pipe] fills the page that [kalloc] gave for it and is named by
    that page's address.  [pipealloc], which also makes the two open files, is
    in [File]. *)

From stdpp Require Import base gmap strings numbers list.
From S2P Require Import Prelude KState Sample StringC Spinlock Sched Sleeplock Uart Printf Pages Kalloc Vm.

Definition PIPESIZE : Z := 512.
(** What [kalloc] leaves in a page it hands out. *)
Definition junk_pipe : pipe := mkpipe (replicate (Z.to_nat PIPESIZE) 5) 0 0 false false.

Definition get_pipe (s : kstate) (pi : Z) : pipe := default junk_pipe (pipes s !! pi).
Definition upd_pipe (pi : Z) (f : pipe -> pipe) (s : kstate) : kstate :=
  set_pipes (<[pi := f (get_pipe s pi)]> (pipes s)) s.

(** pi->data[pi->nwrite++ % PIPESIZE] = ch *)
Definition pipe_put (ch : Z) (p : pipe) : pipe :=
  set_pi_nwrite (u32 (pi_nwrite p + 1))
    (set_pi_data (<[Z.to_nat (pi_nwrite p mod PIPESIZE) := ch]> (pi_data p)) p).
(** pi->data[pi->nread % PIPESIZE], and pi->nread++ *)
Definition pipe_front (p : pipe) : Z := nth (Z.to_nat (pi_nread p mod PIPESIZE)) (pi_data p) 0.
Definition pipe_drop (p : pipe) : pipe := set_pi_nread (u32 (pi_nread p + 1)) p.

Definition pipe_full (p : pipe) : bool := pi_nwrite p =? u32 (pi_nread p + PIPESIZE).
Definition pipe_empty (p : pipe) : bool := pi_nread p =? pi_nwrite p.

Section Pipe.
Context {L : Layout}.

Definition pipeclose (pi : Z) (writable : bool) : M unit :=
  acquire (Lpipe pi);;
  (if writable then
     modify (upd_pipe pi (set_pi_writeopen false));;
     wakeup (Ch_nread pi)
   else
     modify (upd_pipe pi (set_pi_readopen false));;
     wakeup (Ch_nwrite pi));;
  p ← gets (fun s => get_pipe s pi);
  if negb (pi_readopen p) && negb (pi_writeopen p) then
    release (Lpipe pi);;
    kfree pi
  else release (Lpipe pi).

(** while(i < n): a round stores a byte or sleeps, so one round more than the
    bytes and the schedule together is all that can happen.  [None]: the
    reader is gone or the writer was killed. *)
Fixpoint pipewrite_loop (k : nat) (pi : Z) (pr : nat) (addr n i : Z) : M (option Z) :=
  match k with
  | O => kspin
  | S k' =>
      if negb (i <? n) then mret (Some i) else
      p ← gets (fun s => get_pipe s pi);
      gone ← (if negb (pi_readopen p) then mret true else killed pr);
      if gone : bool then mret None else
      p ← gets (fun s => get_pipe s pi);
      if pipe_full p then
        wakeup (Ch_nread pi);;
        sleep (Ch_nwrite pi) (Lpipe pi);;
        pipewrite_loop k' pi pr addr n i
      else
        me ← gets (fun s => get_proc s pr);
        '(r, bs) ← copyin (p_pagetable me) (u64 (addr + i)) 1;
        if r =? -1 then mret (Some i) else
        modify (upd_pipe pi (pipe_put (ch bs)));;
        pipewrite_loop k' pi pr addr n (i + 1)
  end.

Definition pipewrite (pi addr n : Z) : M Z :=
  me ← myproc;
  pr ← deref me;
  acquire (Lpipe pi);;
  r ← (fun s e => pipewrite_loop (S (Z.to_nat n + length e)) pi pr addr n 0 s e);
  match r with
  | None =>
      release (Lpipe pi);;
      mret (-1)
  | Some i =>
      wakeup (Ch_nread pi);;
      release (Lpipe pi);;
      mret i
  end.

(** while(pi->nread == pi->nwrite && pi->writeopen): [false] if killed. *)
Fixpoint piperead_wait (k : nat) (pi : Z) (pr : nat) : M bool :=
  match k with
  | O => kspin
  | S k' =>
      p ← gets (fun s => get_pipe s pi);
      if pipe_empty p && pi_writeopen p then
        dead ← killed pr;
        if dead : bool then mret false else
        sleep (Ch_nread pi) (Lpipe pi);;
        piperead_wait k' pi pr
      else mret true
  end.

(** for(i = 0; i < n; i++) *)
Fixpoint piperead_copy (k : nat) (pi : Z) (pr : nat) (addr i : Z) : M Z :=
  match k with
  | O => mret i
  | S k' =>
      p ← gets (fun s => get_pipe s pi);
      if pipe_empty p then mret i else
      let ch := pipe_front p in
      modify (upd_pipe pi pipe_drop);;
      me ← gets (fun s => get_proc s pr);
      r ← copyout (p_pagetable me) (u64 (addr + i)) [ch] 1;
      if r =? -1 then mret i else
      piperead_copy k' pi pr addr (i + 1)
  end.

Definition piperead (pi addr n : Z) : M Z :=
  me ← myproc;
  pr ← deref me;
  acquire (Lpipe pi);;
  alive ← (fun s e => piperead_wait (S (length e)) pi pr s e);
  if negb alive then
    release (Lpipe pi);;
    mret (-1)
  else
  i ← piperead_copy (Z.to_nat n) pi pr addr 0;
  wakeup (Ch_nwrite pi);;
  release (Lpipe pi);;
  mret i.

End Pipe.
