(* ===== verification/Console.v ===== *)
(** * kernel/console.c, [uartintr] of kernel/uart.c and [procdump] of kernel/proc.c

    The console's line discipline over the input ring [cons]. *)

From stdpp Require Import base gmap strings numbers list.
From Stdlib Require Import Ascii.
From S2P Require Import Prelude KState Sample StringC Spinlock Sched Sleeplock Uart Printf Kalloc Vm Bio Log Fs.

Definition INPUT_BUF_SIZE : Z := 128.
(** [C(x)], control-x *)
Definition C (x : ascii) : Z := chr x - chr "@".
Arguments C x%_char_scope.

Definition upd_cons (f : consbuf -> consbuf) (s : kstate) : kstate := set_cons (f (cons s)) s.
(** cons.buf[i % INPUT_BUF_SIZE] *)
Definition cons_at (c : consbuf) (i : Z) : Z := nth (Z.to_nat (i mod INPUT_BUF_SIZE)) (cons_buf c) 0.
(** cons.buf[cons.e++ % INPUT_BUF_SIZE] = c *)
Definition cons_store (ch : Z) (c : consbuf) : consbuf :=
  set_cons_e (u32 (cons_e c + 1))
    (set_cons_buf (<[Z.to_nat (cons_e c mod INPUT_BUF_SIZE) := u8 ch]> (cons_buf c)) c).

Definition state_name (st : procstate) : string :=
  match st with
  | UNUSED => "unused" | USED => "used" | SLEEPING => "sleep "
  | RUNNABLE => "runble" | RUNNING => "run   " | ZOMBIE => "zombie"
  end.

Section Console.
Context {L : Layout} {D : DiskDriver}.

(** for(i = 0; i < n; i++) *)
Fixpoint consolewrite_loop (k : nat) (src : ksrc) (i : Z) : M Z :=
  match k with
  | O => mret i
  | S k' =>
      '(r, c) ← either_copyin (src_add src i) 1;
      if r =? -1 then mret i else
      uartputc (ch c);;
      consolewrite_loop k' src (i + 1)
  end.
Definition consolewrite (src : ksrc) (n : Z) : M Z := consolewrite_loop (Z.to_nat n) src 0.

(** while(n > 0), with the loop that waits for input inside it: a round takes a
    character or sleeps.  [None]: killed while waiting. *)
Fixpoint consoleread_loop (k : nat) (dst : kdst) (n target : Z) : M (option Z) :=
  match k with
  | O => kspin
  | S k' =>
      if negb (0 <? n) then mret (Some n) else
      c ← gets cons;
      if cons_r c =? cons_w c then
        me ← myproc;
        p ← deref me;
        dead ← killed p;
        if dead : bool then mret None else
        sleep Ch_cons_r Lcons;;
        consoleread_loop k' dst n target
      else
        let ch := cons_at c (cons_r c) in
        modify (upd_cons (set_cons_r (u32 (cons_r c + 1))));;
        if ch =? C "D" then
          when (n <? target) (modify (upd_cons (fun c => set_cons_r (u32 (cons_r c - 1)) c)));;
          mret (Some n)
        else
        r ← either_copyout dst [ch] 1;
        if r =? -1 then mret (Some n) else
        if ch =? 10 then mret (Some (n - 1)) else
        consoleread_loop k' (dst_add dst 1) (n - 1) target
  end.

Definition consoleread (dst : kdst) (n : Z) : M Z :=
  acquire Lcons;;
  r ← (fun s e => consoleread_loop (S (Z.to_nat n + length e)) dst n n s e);
  match r with
  | None =>
      release Lcons;;
      mret (-1)
  | Some n' =>
      release Lcons;;
      mret (n - n')
  end.

Definition procdump : M unit :=
  printf [10] [];;
  for_each proc_ids (fun i =>
    p ← gets (fun s => get_proc s i);
    if decide (p_state p = UNUSED) then mret () else
    printf (zstr "%d %s %s")
      [AInt (p_pid p); AStr (Some (zstr (state_name (p_state p)))); AStr (Some (p_name p))];;
    printf [10] []).

(** Kill line: while the last character of the line is not a newline. *)
Fixpoint kill_line (k : nat) : M unit :=
  match k with
  | O => kspin
  | S k' =>
      c ← gets cons;
      if negb (cons_e c =? cons_w c) && negb (cons_at c (u32 (cons_e c - 1)) =? 10) then
        modify (upd_cons (set_cons_e (u32 (cons_e c - 1))));;
        consputc BACKSPACE;;
        kill_line k'
      else mret ()
  end.

Definition consoleintr (c : Z) : M unit :=
  acquire Lcons;;
  (if c =? C "P" then procdump
   else if c =? C "U" then
     cb ← gets cons;
     kill_line (S (Z.to_nat (u32 (cons_e cb - cons_w cb))))
   else if (c =? C "H") || (c =? 0x7f) then
     cb ← gets cons;
     when (negb (cons_e cb =? cons_w cb))
       (modify (upd_cons (set_cons_e (u32 (cons_e cb - 1))));;
        consputc BACKSPACE)
   else
     cb ← gets cons;
     when (negb (c =? 0) && (u32 (cons_e cb - cons_r cb) <? INPUT_BUF_SIZE))
       (let c := if c =? 13 then 10 else c in
        consputc c;;
        modify (upd_cons (cons_store c));;
        cb ← gets cons;
        when ((c =? 10) || (c =? C "D") || (u32 (cons_e cb - cons_r cb) =? INPUT_BUF_SIZE))
          (modify (upd_cons (set_cons_w (cons_e cb)));;
           wakeup Ch_cons_r)));;
  release Lcons.

Definition consoleinit : M unit :=
  initlock Lcons "cons";;
  uartinit;;
  modify (fun s => set_devsw (<[Z.to_nat CONSOLE := Some DevConsole]> (devsw s)) s).

(** while(1): one round per character that is waiting. *)
Fixpoint uartintr_loop (k : nat) : M unit :=
  match k with
  | O => kspin
  | S k' =>
      c ← uartgetc;
      if c =? -1 then mret () else
      consoleintr c;;
      uartintr_loop k'
  end.

Definition uartintr : M unit :=
  q ← gets (fun s => uart_rx (uart s));
  uartintr_loop (S (length q));;
  acquire Luart;;
  uartstart;;
  release Luart.

End Console.
