(* ===== verification/File.v ===== *)
(** * kernel/file.c, with [pipealloc] of kernel/pipe.c

    The table of open files: reference counts, and reads and writes dispatched
    to pipes, devices and inodes. *)

From stdpp Require Import base gmap strings numbers list.
From S2P Require Import Prelude KState Sample StringC Spinlock Sched Sleeplock Uart Printf Pages Kalloc Vm Bio Log Fs Pipe Console.

Definition file_ids : list nat := seq 0 (Z.to_nat NFILE).
(** ((MAXOPBLOCKS-1-1-2) / 2) * BSIZE *)
Definition WRITE_MAX : Z := ((MAXOPBLOCKS - 1 - 1 - 2) / 2) * BSIZE.

(** [struct stat] as bytes; four bytes pad the size to eight. *)
Definition stat_bytes {L : Layout} (st : kstat) : list Z :=
  le_bytes 4 (st_dev st) ++ le_bytes 4 (st_ino st) ++ le_bytes 2 (st_type st) ++
  le_bytes 2 (st_nlink st) ++ stat_pad ++ le_bytes 8 (st_size st).
Definition STAT_SIZE : Z := 24.

Section File.
Context {L : Layout} {D : DiskDriver}.

Definition fileget (f : nat) : M file := gets (fun s => get_file s f).
Definition fileset (f : nat) (g : file -> file) : M unit := modify (upd_file f g).

Definition fileinit : M unit := initlock Lftable "ftable".

Fixpoint filealloc_scan (ids : list nat) : M (option nat) :=
  match ids with
  | [] =>
      release Lftable;;
      mret None
  | f :: ids' =>
      x ← fileget f;
      if f_ref x =? 0 then
        fileset f (set_f_ref 1);;
        release Lftable;;
        mret (Some f)
      else filealloc_scan ids'
  end.
Definition filealloc : M (option nat) :=
  acquire Lftable;;
  filealloc_scan file_ids.

Definition filedup (f : nat) : M nat :=
  acquire Lftable;;
  x ← fileget f;
  if f_ref x <? 1 then kpanic "filedup" else
  fileset f (fun x => set_f_ref (f_ref x + 1) x);;
  release Lftable;;
  mret f.

Definition fileclose (f : nat) : M unit :=
  acquire Lftable;;
  x ← fileget f;
  if f_ref x <? 1 then kpanic "fileclose" else
  fileset f (fun x => set_f_ref (f_ref x - 1) x);;
  ff ← fileget f;
  if 0 <? f_ref ff then release Lftable else
  fileset f (set_f_ref 0);;
  fileset f (set_f_type FD_NONE);;
  release Lftable;;
  match f_type ff with
  | FD_PIPE => pipeclose (f_pipe ff) (f_writable ff)
  | FD_INODE | FD_DEVICE =>
      begin_op;;
      ip ← deref (f_ip ff);
      iput ip;;
      end_op
  | FD_NONE => mret ()
  end.

Definition filestat (f : nat) (addr : Z) : M Z :=
  me ← myproc;
  p ← deref me;
  x ← fileget f;
  if decide (f_type x = FD_INODE \/ f_type x = FD_DEVICE) then
    ilock (f_ip x);;
    ip ← deref (f_ip x);
    st ← stati ip;
    iunlock (f_ip x);;
    pr ← gets (fun s => get_proc s p);
    r ← copyout (p_pagetable pr) addr (stat_bytes st) STAT_SIZE;
    if r <? 0 then mret (-1) else mret 0
  else mret (-1).

(** The device switch entry of an open device, if it has one. *)
Definition dev_of (major : Z) : M (option device) :=
  if (major <? 0) || (NDEV <=? major) then mret None else
  gets (fun s => default None (devsw s !! Z.to_nat major)).

(** [n] is an [int], which [readi] takes as an unsigned count. *)
Definition fileread (f : nat) (addr n : Z) : M Z :=
  x ← fileget f;
  if negb (f_readable x) then mret (-1) else
  match f_type x with
  | FD_PIPE => piperead (f_pipe x) addr n
  | FD_DEVICE =>
      d ← dev_of (f_major x);
      match d with
      | None => mret (-1)
      | Some DevConsole => consoleread (UserDst addr) n
      end
  | FD_INODE =>
      ilock (f_ip x);;
      ip ← deref (f_ip x);
      x ← fileget f;
      '(r, _) ← readi ip (UserDst addr) (f_off x) (u32 n);
      when (0 <? r) (fileset f (fun x => set_f_off (u32 (f_off x + r)) x));;
      iunlock (f_ip x);;
      mret r
  | FD_NONE => kpanic "fileread"
  end.

(** while(i < n): every round but the last moves [WRITE_MAX] bytes. *)
Fixpoint filewrite_loop (k : nat) (f : nat) (addr n i : Z) : M Z :=
  match k with
  | O => kspin
  | S k' =>
      if negb (i <? n) then mret i else
      let n1 := Z.min (n - i) WRITE_MAX in
      begin_op;;
      x ← fileget f;
      ilock (f_ip x);;
      ip ← deref (f_ip x);
      x ← fileget f;
      r ← writei ip (UserSrc (u64 (addr + i))) (f_off x) n1;
      when (0 <? r) (fileset f (fun x => set_f_off (u32 (f_off x + r)) x));;
      iunlock (f_ip x);;
      end_op;;
      if negb (r =? n1) then mret i else
      filewrite_loop k' f addr n (i + r)
  end.

Definition filewrite (f : nat) (addr n : Z) : M Z :=
  x ← fileget f;
  if negb (f_writable x) then mret (-1) else
  match f_type x with
  | FD_PIPE => pipewrite (f_pipe x) addr n
  | FD_DEVICE =>
      d ← dev_of (f_major x);
      match d with
      | None => mret (-1)
      | Some DevConsole => consolewrite (UserSrc addr) n
      end
  | FD_INODE =>
      i ← filewrite_loop (S (Z.to_nat (n / WRITE_MAX + 1))) f addr n 0;
      mret (if i =? n then n else -1)
  | FD_NONE => kpanic "filewrite"
  end.

(** The two ends of a new pipe, or what was allocated before the failure. *)
Definition pipealloc_bad (pi : Z) (f0 f1 : option nat) : M (option (nat * nat)) :=
  when (negb (pi =? 0)) (kfree pi);;
  match f0 with Some f => fileclose f | None => mret () end;;
  match f1 with Some f => fileclose f | None => mret () end;;
  mret None.

Definition pipe_end (f : nat) (readable writable : bool) (pi : Z) : M unit :=
  fileset f (set_f_type FD_PIPE);;
  fileset f (set_f_readable readable);;
  fileset f (set_f_writable writable);;
  fileset f (set_f_pipe pi).

Definition pipealloc : M (option (nat * nat)) :=
  f0 ← filealloc;
  match f0 with
  | None => pipealloc_bad 0 None None
  | Some r =>
      f1 ← filealloc;
      match f1 with
      | None => pipealloc_bad 0 f0 None
      | Some w =>
          pi ← kalloc;
          if pi =? 0 then pipealloc_bad 0 f0 f1 else
          modify (fun s => set_pipes (<[pi := junk_pipe]> (pipes s)) s);;
          modify (upd_pipe pi (set_pi_readopen true));;
          modify (upd_pipe pi (set_pi_writeopen true));;
          modify (upd_pipe pi (set_pi_nwrite 0));;
          modify (upd_pipe pi (set_pi_nread 0));;
          initlock (Lpipe pi) "pipe";;
          pipe_end r true false pi;;
          pipe_end w false true pi;;
          mret (Some (r, w))
      end
  end.

End File.
