(* ===== verification/FileRw.v ===== *)
(** * kernel/file.c: reading and writing a file through a descriptor

    [filewrite] and [fileread] on an inode, from the user's buffer to the disk and
    back: the copies between user memory and kernel, the inode lock, the block map
    and bitmap, the transactions of the log and the buffer cache together. *)

From stdpp Require Import base gmap strings numbers list.
From Stdlib Require Import Ascii.
From S2P Require Import Prelude KState Sample StringC Spinlock Sched Sleeplock Quiet Uart Printf Pages Kalloc Vm PageTable UserVm UserSpace Copy Bio BufCache BufRefine Log LogDisk BufWp LogRun LogSafe LogOps Transaction FsWp Fs FsBlocks FsInode FsFile FsData FsOps FsSample Pipe Console File.

(** ** User buffers *)

Section User.
Context {L : Layout}.
Implicit Types (s : kstate).

Lemma uvm_ok_keep s s' l T root us :
  uvm_ok s l T root us -> mem s' = mem s -> freelist s' = freelist s -> cpu_wf (syn s') -> lfree (syn s') Lkmem -> uvm_ok s' l T root us.
Proof.
  intros [(HL & Hk & HT & Hd & Hwf & Hlk) H2 H3 H4 H5 H6 H7] Hm Hf Hw Hl. split; try done.
  split_and!; try done; unfold kmem_inv in *; by rewrite ?Hm, ?Hf.
Qed.

Lemma kq_mem s s' : kq s s' -> mem s' = mem s.
Proof. intros K. pose proof (kq_fixed _ _ K) as Hf. by injection Hf. Qed.
Lemma kq_ftable s s' : kq s s' -> ftable s' = ftable s.
Proof. intros K. pose proof (kq_fixed _ _ K) as Hf. by injection Hf. Qed.
Lemma kq_panic s s' : kq s s' -> panicked s' = panicked s.
Proof. intros K. pose proof (kq_fixed _ _ K) as Hf. by injection Hf. Qed.
Lemma kq_freelist s s' : kq s s' -> freelist s' = freelist s.
Proof. intros K. pose proof (kq_fixed _ _ K) as Hf. by injection Hf. Qed.
Lemma kq_pagetable s s' i : kq s s' -> p_pagetable (get_proc s' i) = p_pagetable (get_proc s i).
Proof. intros K. pose proof (kq_proc _ _ i K) as Hp. by apply (f_equal p_pagetable) in Hp. Qed.

Lemma uvm_ok_kq s s' l T root us : uvm_ok s l T root us -> kq s s' -> uvm_ok s' l T root us.
Proof.
  intros U K. pose proof (uv_vm _ _ _ _ _ U) as (_ & _ & _ & _ & Hwf & Hlk).
  apply (uvm_ok_keep s); [done|by apply kq_mem|by apply kq_freelist| |by eapply kq_lfree]. destruct K as [_ [->| ->] _]; auto with xv6.
Qed.

Lemma accessible_sub T us fl va len a n :
  accessible T us fl va len -> 0 <= a -> 0 <= n -> a + n <= len -> accessible T us fl (va + a) n.
Proof. intros (H1 & H2 & H3) Ha Hn Hl. split_and!; [lia|lia|]. intros k K1 K2 K3. apply H3; lia. Qed.

Lemma accessible_va T us fl va len s l root : uvm_ok s l T root us -> accessible T us fl va len -> 0 <= len -> 0 <= va /\ va + len < 2 ^ 64.
Proof.
  intros U (H1 & H2 & _) Hl. split; [done|]. pose proof (uv_size _ _ _ _ _ U) as Hsz. destruct TRAPFRAME_lt as (_ & Htf & _).
  change MAXVA with (2 ^ 38) in Htf. unfold PGSIZE in *. lia.
Qed.

Lemma u64_small x : 0 <= x < 2 ^ 64 -> u64 x = x.
Proof. apply Z.mod_small. Qed.

Lemma ubytes_slice m us va n tot k : (tot + k <= n)%nat ->
  slice (ubytes m us va n) tot k = ubytes m us (va + Z.of_nat tot) k.
Proof.
  intros H. apply list_eq. intros i. rewrite lookup_slice. unfold ubytes. rewrite !list_lookup_fmap. case_decide.
  - rewrite !lookup_seq_lt by lia. cbn. do 3 f_equal. lia.
  - by rewrite (lookup_ge_None_2 (seq 0 k)) by (rewrite length_seq; lia).
Qed.

Lemma copy_fuel va len : 0 <= len -> va mod PGSIZE + len + PGSIZE <= Z.of_nat (Z.to_nat (len / PGSIZE + 3)) * PGSIZE.
Proof.
  intros Hl. pose proof (Z.mod_pos_bound va PGSIZE ltac:(done)). pose proof (Z.div_mod len PGSIZE ltac:(done)).
  pose proof (Z.mod_pos_bound len PGSIZE ltac:(done)). pose proof (Z.div_pos len PGSIZE ltac:(lia) ltac:(done)). unfold PGSIZE in *. lia.
Qed.

(** The running process's user memory as a source of [writei]. *)
Lemma source_user s0 l T us va len e :
  uvm_ok s0 l T (p_pagetable (get_proc s0 (cur s0))) us -> accessible T us PTE_U va len -> 0 <= len ->
  source s0 (UserSrc va) (ubytes (mem s0) us va (Z.to_nat len)) e.
Proof.
  intros U Ha Hlen s tot m K Q Ht Hm Hle. rewrite length_ubytes in Hle.
  destruct (accessible_va _ _ _ _ _ _ _ _ U Ha Hlen) as [Hv1 Hv2]. cbn [src_add]. rewrite u64_small by lia.
  exists (touch (syn s)). split; [|by right]. unfold either_copyin.
  kstep ltac:(apply myproc_run; auto with xv6). rewrite (thread_ok_cur _ (quiet_thread _ Q)). cbn [deref]. kpure.
  set (s1 := set_syn (touch (syn s)) s). assert (K1 : kq s0 s1) by (etrans; [exact K|]; split; auto).
  change (get_proc s1 (cur s)) with (get_proc s (cur s)).
  assert (Hpt : p_pagetable (get_proc s (cur s)) = p_pagetable (get_proc s0 (cur s0))).
  { rewrite (kq_cur _ _ K). by apply kq_pagetable. }
  rewrite Hpt. pose proof (uvm_ok_kq _ _ _ _ _ _ U K1) as U1. unfold copyin.
  rewrite (copyin_loop_run _ s1 l T _ us [] (va + tot) m e U1).
  - apply Ok_eq; [|done]. cbn [app]. f_equal. rewrite (kq_mem _ _ K1), ubytes_slice by lia. do 2 f_equal. lia.
  - by apply (accessible_sub _ _ _ va len); [|lia..].
  - lia.
  - by apply copy_fuel.
Qed.

(** The running process's user memory after [out] has been stored at [va]. *)
Definition ustored s0 (l : list Z) (T : pgt) (us : list Z) (va : Z) (out : list Z) (m : gmap Z Z) : Prop :=
  uvm_ok (set_mem m s0) l T (p_pagetable (get_proc s0 (cur s0))) us /\ mem_frame us (mem s0) m /\
  forall va', 0 <= va' < Z.of_nat (length us) * PGSIZE ->
    ld8 m (uaddr us va') = if decide (va <= va' < va + Z.of_nat (length out)) then default 0 (out !! Z.to_nat (va' - va))
      else ld8 (mem s0) (uaddr us va').

Lemma ustored_nil s0 l T us va : uvm_ok s0 l T (p_pagetable (get_proc s0 (cur s0))) us -> ustored s0 l T us va [] (mem s0).
Proof. intros U. split; [by rewrite set_mem_id|]. split; [done|]. intros va' _. by rewrite decide_False by (cbn; lia). Qed.

Lemma ustored_bytes s0 l T us va out m : ustored s0 l T us va out m -> 0 <= va -> va + Z.of_nat (length out) <= Z.of_nat (length us) * PGSIZE ->
  ubytes m us va (length out) = out.
Proof.
  intros (_ & _ & H) Hv Hl. apply list_eq. intros i. unfold ubytes. rewrite list_lookup_fmap.
  destruct (decide (i < length out)%nat) as [Hi|Hi]; [|by rewrite lookup_seq_ge, lookup_ge_None_2 by lia].
  rewrite lookup_seq_lt by done. cbn. rewrite H, decide_True by lia. replace (Z.to_nat (va + Z.of_nat i - va)) with i by lia.
  by destruct (lookup_lt_is_Some_2 out i Hi) as [y ->].
Qed.

Lemma memstep_keep s s' l T root us : memstep s s' -> uvm_ok s l T root us -> uvm_ok s' l T root us ->
  exists m y, s' = set_syn y (set_mem m s) /\ (y = syn s \/ y = touch (syn s)).
Proof.
  intros (y & f & m & -> & Hy) U U'. exists m, y. split; [|done].
  destruct (uv_vm _ _ _ _ _ U) as (_ & (H1 & _) & _), (uv_vm _ _ _ _ _ U') as (_ & (H2 & _) & _).
  assert (f = freelist s) as ->; [|by kext]. cbn in H2. destruct l; cbn in H1, H2; [congruence|]. destruct H1, H2. congruence.
Qed.

(** ... and as a destination of [readi]. *)
Lemma sink_user s0 l T us va N e :
  accessible T us PTE_W va N -> sink N (UserDst va) (ustored s0 l T us va) (fun _ => False) s0 e.
Proof.
  intros Ha s out bs K Q (U & Hf & Hst) HN. pose proof (uvm_ok_kq _ _ _ _ _ _ U K) as U0. unfold either_copyout.
  destruct (accessible_va _ _ _ _ _ _ _ _ U Ha ltac:(lia)) as [Hv1 Hv2]. cbn [dst_add]. rewrite u64_small by lia.
  set (s1 := set_syn (touch (syn s)) s). assert (K1 : kq s s1) by (split; auto).
  pose proof (uvm_ok_kq _ _ _ _ _ _ U0 K1) as U1.
  assert (Hpt : p_pagetable (get_proc s (cur s)) = p_pagetable (get_proc s0 (cur s0))).
  { rewrite (kq_cur _ _ K). by apply (kq_pagetable _ _ _ K). }
  destruct (copyout_loop_run (Z.to_nat (Z.of_nat (length bs) / PGSIZE + 3)) s1 l T _ us (va + Z.of_nat (length out)) bs (Z.of_nat (length bs)) e U1)
    as (s' & Hr & Hms & U' & Hf' & Hb'); [by apply (accessible_sub _ _ _ va N); [|lia..]|done|apply copy_fuel; lia|].
  destruct (memstep_keep _ _ _ _ _ _ Hms U1 U') as (m & y & -> & Hy). exists 0, m, y.
  split; [|split; [destruct Hy as [->| ->]; right; [done|]; apply touch_touch|left; split; [done|]]].
  - kstep ltac:(apply myproc_run; auto with xv6). rewrite (thread_ok_cur _ (quiet_thread _ Q)). cbn [deref]. kpure. fold s1.
    change (get_proc s1 (cur s)) with (get_proc s (cur s)). rewrite Hpt. unfold copyout. rewrite Hr. apply Ok_eq; [done|]. by kext.
  - split; [|split].
    + pose proof (uv_vm _ _ _ _ _ U) as (_ & _ & _ & _ & Hwf & Hlk). apply (uvm_ok_keep _ _ _ _ _ _ U'); [done| |done|done].
      symmetry. apply (kq_freelist _ _ K).
    + by apply (mem_frame_trans _ _ (mem s)).
    + intros va' Hva'. rewrite Hb', length_app by done. cbn [mem s1 set_syn]. destruct (decide (va + _ <= _ < _)) as [H|H].
      * rewrite decide_True, lookup_app_r by lia. do 2 f_equal. lia.
      * change (mem s1) with (mem s). rewrite Hst by done. destruct (decide (va <= va' < va + Z.of_nat (length out))) as [H1|H1].
        -- rewrite decide_True by lia. by rewrite lookup_app_l by lia.
        -- by rewrite decide_False by lia.
Qed.

End User.

(** ** Open files *)

Section Rw.
Context {L : Layout} {D : DiskDriver} {DL : DiskLaws} (B : superblock) (Hg : geom B).
Implicit Types (s : kstate) (c : Z -> list Z) (x : inode).

(** No operation is under way, and the disk holds well-formed files. *)
Record fs_ready s : Prop := mkready {
  rd_idle : log_idle (sb_logstart B) (sb_nlog B) s;
  rd_sb : sb s = B;
  rd_panic : panicked s = false;
  rd_inv : fs_inv B (dblock (disk s))
}.

(** The file of inode [i], as it is on the disk. *)
Definition contents s (i : Z) : list Z := file_bytes (dblock (disk s)) (dinode_at B (dblock (disk s)) i).

(** [f] is an open file on the inode [x] of table entry [ip], which nobody has
    locked and which is as on the disk. *)
Record opened s (f ip : nat) x : Prop := mkopened {
  op_file : (f < length (ftable s))%nat;
  op_type : f_type (get_file s f) = FD_INODE;
  op_ip : f_ip (get_file s f) = Some ip;
  op_inode : itable s !! ip = Some x;
  op_bound : (ip < Z.to_nat NINODE)%nat;
  op_ref : 1 <= i_ref x;
  op_valid : i_valid x = true;
  op_on : inode_on B x;
  op_lock : sl_locked (get_slock s (SLinode ip)) = false;
  op_ok : dinode_ok x;
  op_used : i_type x <> 0;
  op_disk : dinode_at B (dblock (disk s)) (i_inum x) = with_dinode x zero_inode
}.

Lemma opened_live s f ip x : opened s f ip x -> live_inum B (dblock (disk s)) (i_inum x).
Proof. intros O. split; [apply O|]. rewrite (op_disk _ _ _ _ O). apply O. Qed.
Lemma opened_contents s f ip x : opened s f ip x -> contents s (i_inum x) = file_bytes (dblock (disk s)) x.
Proof. intros O. unfold contents. rewrite (op_disk _ _ _ _ O). by apply file_bytes_same. Qed.
Lemma opened_file_ok s f ip x : fs_ready s -> opened s f ip x -> file_ok B (dblock (disk s)) x.
Proof.
  intros R O. pose proof (fi_file _ _ (rd_inv _ R) _ (opened_live _ _ _ _ O)) as F. rewrite (op_disk _ _ _ _ O) in F.
  by apply (file_ok_same B _ (with_dinode x zero_inode)).
Qed.

(** Every other file is as it was. *)
Definition others s s' (i : Z) : Prop :=
  forall j, j <> i -> (live_inum B (dblock (disk s')) j <-> live_inum B (dblock (disk s)) j) /\
    (live_inum B (dblock (disk s)) j -> dinode_at B (dblock (disk s')) j = dinode_at B (dblock (disk s)) j /\ contents s' j = contents s j).

Lemma others_refl s i : others s s i.
Proof. by intros j _. Qed.
Lemma others_trans s1 s2 s3 i : others s1 s2 i -> others s2 s3 i -> others s1 s3 i.
Proof.
  intros H1 H2 j Hj. destruct (H1 j Hj) as [A1 B1], (H2 j Hj) as [A2 B2]. split; [by rewrite A2|].
  intros Hl. destruct (B1 Hl), (B2 (proj2 A1 Hl)). split; congruence.
Qed.

(** [r] bytes of [bs] have been written through [f] at [off]. *)
Record wrote s s' (f ip : nat) x x' (off : Z) (bs : list Z) (r : Z) : Prop := mkwrote {
  wr_ready : fs_ready s';
  wr_open : opened s' f ip x';
  wr_inum : i_inum x' = i_inum x;
  wr_size : i_size x' = Z.max (i_size x) (off + r);
  wr_table : ftable s' = alter (set_f_off (off + r)) f (ftable s);
  wr_kq : kq (set_ftable (ftable s') s) s';
  wr_count : 0 <= r <= Z.of_nat (length bs);
  wr_full : r < Z.of_nat (length bs) -> full B (dblock (disk s'));
  wr_bytes : contents s' (i_inum x) = splice (contents s (i_inum x)) (Z.to_nat off) (take (Z.to_nat r) bs);
  wr_others : others s s' (i_inum x)
}.

Lemma get_file_alter (t : list file) f g : (f < length t)%nat -> default zero_file (alter g f t !! f) = g (default zero_file (t !! f)).
Proof. intros [y Hy]%lookup_lt_is_Some_2. by rewrite list_lookup_alter_eq, Hy. Qed.
Lemma wr_off s s' f ip x x' off bs r : opened s f ip x -> wrote s s' f ip x x' off bs r -> get_file s' f = set_f_off (off + r) (get_file s f).
Proof. intros O W. unfold get_file. rewrite (wr_table _ _ _ _ _ _ _ _ _ W). by apply get_file_alter, O. Qed.

(** ** The blocks that an operation may log *)

Definition nbitmap : Z := (sb_size B - 1) / BPB + 1.
(** A write of at most [WRITE_MAX] bytes: the bitmap, the inode, four data blocks
    and the indirect block. *)
Definition log_room : Prop := nbitmap + 6 <= 28 /\ nbitmap + 7 < sb_nlog B.
Definition op_blocks x : gset Z := {[IBLOCK (i_inum x) B]} ∪ list_to_set (seqZ (sb_bmapstart B) nbitmap).

Lemma op_blocks_inode x : IBLOCK (i_inum x) B ∈ op_blocks x.
Proof. unfold op_blocks. set_solver. Qed.
Lemma op_blocks_bitmap x : bitmap_in B (op_blocks x).
Proof.
  intros b Hb. apply elem_of_union_r, elem_of_list_to_set, elem_of_seqZ. unfold BBLOCK, nbitmap.
  pose proof (Z.div_pos b BPB ltac:(lia) ltac:(done)). pose proof (Z.div_le_mono b (sb_size B - 1) BPB ltac:(done) ltac:(lia)). lia.
Qed.
Lemma op_blocks_spare x : log_room -> spare (sb_nlog B) 5 (op_blocks x).
Proof using Hg.
  intros [H1 H2]. pose proof (layout_order B Hg) as Ho. pose proof (Z.div_pos (sb_size B - 1) BPB ltac:(lia) ltac:(done)) as Hp. fold nbitmap in *.
  assert (Hs : (size (op_blocks x) <= 1 + Z.to_nat nbitmap)%nat); [|unfold nbitmap in *; split; lia].
  unfold op_blocks. rewrite size_union_alt, size_singleton. apply le_n_S.
  etrans; [apply (subseteq_size _ (list_to_set (seqZ (sb_bmapstart B) nbitmap))); set_solver|].
  rewrite size_list_to_set by apply NoDup_seqZ. by rewrite length_seqZ.
Qed.

(** ** One transaction of a write *)

Section Commit.
Context (c c1 cd : Z -> list Z) (i : Z) (x x' : inode).
Hypothesis (Hinv : fs_inv B c) (Hi : live_inum B c i) (Hx : dinode_at B c i = with_dinode x zero_inode) (Hev : evolves B c x c1 x').
Hypothesis (F' : file_ok B (set_dinode B c1 i x') x') (Hok : block_ok (c (IBLOCK i B))) (Hd : dinode_ok x') (Hty : i_type x' <> 0).
Hypothesis (Hag : forall b, home B b -> cd b = set_dinode B c1 i x' b).
Notation c' := (set_dinode B c1 i x').

Lemma commit_block : block_ok (c1 (IBLOCK i B)).
Proof.
  destruct Hi as [Hin _]. pose proof (IBLOCK_range B Hg i Hin). pose proof (layout_order B Hg).
  rewrite (ex_rest _ _ _ _ _ _ Hev); [done|unfold is_data; lia|]. intros (b & Hb & E). pose proof (BBLOCK_range B Hg b Hb). lia.
Qed.

Lemma commit_file : file_ok B c1 x'.
Proof.
  destruct Hi as [Hin _]. apply (same_file_ok B c'); [done| |].
  - intros b [Hb [->|(bn & Hbn & <-)]]; symmetry; apply (dinode_data B Hg); try done; by apply F'.
  - intros b Hb Hu. pose proof (data_range B Hg b Hb). by rewrite (dinode_used B Hg) in Hu by (done || lia).
Qed.

Lemma commit_inv : fs_inv B cd.
Proof.
  apply (agree_inv B Hg c'); [done|]. apply (update_inv B Hg c c1 i x x'); try done; [by rewrite Hx|apply commit_file|apply commit_block].
Qed.

Lemma commit_dinode j : is_inum B j -> dinode_at B cd j = if decide (j = i) then with_dinode x' zero_inode else dinode_at B c j.
Proof.
  intros Hj. rewrite (agree_dinode B Hg c') by done. apply (update_dinode B Hg c c1 i x x'); try done. apply commit_block.
Qed.

Lemma commit_bytes : file_bytes cd (dinode_at B cd i) = file_bytes c' x'.
Proof.
  destruct Hi as [Hin _]. rewrite commit_dinode, decide_True by done. rewrite (file_bytes_same cd x') by done. by apply (agree_bytes B Hg).
Qed.

Lemma commit_other j : j <> i ->
  (live_inum B cd j <-> live_inum B c j) /\
  (live_inum B c j -> dinode_at B cd j = dinode_at B c j /\ file_bytes cd (dinode_at B cd j) = file_bytes c (dinode_at B c j)).
Proof.
  intros Hj. split.
  - unfold live_inum. split; intros [Hin Ht]; (split; [done|]); rewrite commit_dinode, decide_False in * by done; done.
  - intros Hl. rewrite commit_dinode, decide_False by (done || apply Hl). split; [done|].
    destruct (update_other B Hg c c1 i x x' Hinv Hi) with (j := j) as (Fo & Hb & _ & _); try done; [by rewrite Hx|apply commit_file|].
    rewrite <- Hb. by apply (agree_bytes B Hg).
Qed.

End Commit.

(** The table of open files is outside the file system. *)
Lemma kq_set_ftable t s s' : kq s s' -> kq (set_ftable t s) (set_ftable t s').
Proof. intros [F Y P]. split; [|done|done]. revert F. unfold fixed. cbn. intros [=]. congruence. Qed.

Lemma fsx_ftable start nlog s0 s T K c H G t :
  fsx start nlog s0 s T K c H G -> fsx start nlog (set_ftable t s0) (set_ftable t s) T K c H G.
Proof.
  intros [[K1 B1 D1 O1] HT HK Hr (L' & bs & R & X & Hc & Hl)].
  split; [split; [by apply kq_set_ftable|done|done|done]|done|done|done|].
  exists L', bs. split_and!; try done. destruct R as [Q O Hn (r & Hp & Hrr) Tb].
  split; [exact Q|by apply (dd_keep s)|exact Hn|exists r; by split|exact Tb].
Qed.

Lemma alter_off_id s f : (f < length (ftable s))%nat -> alter (set_f_off (f_off (get_file s f))) f (ftable s) = ftable s.
Proof.
  intros [y Hy]%lookup_lt_is_Some_2. unfold get_file. rewrite Hy. apply list_eq. intros j. destruct (decide (j = f)) as [->|Hj].
  - rewrite list_lookup_alter_eq, Hy. by destruct y.
  - by rewrite list_lookup_alter_ne.
Qed.
Lemma alter_off_off (t : list file) f a b : alter (set_f_off b) f (alter (set_f_off a) f t) = alter (set_f_off b) f t.
Proof. apply list_eq. intros j. destruct (decide (j = f)) as [->|Hj]; [|by rewrite !list_lookup_alter_ne]. rewrite !list_lookup_alter_eq. by destruct (t !! f). Qed.

(** [fileset f (set_f_off ...)] after an I/O of [r] bytes. *)
Lemma wp_advance {A} start nlog s0 s T K c H G f off r (k : unit -> M A) e Q :
  fsx start nlog s0 s T K c H G -> (f < length (ftable s))%nat -> f_off (get_file s f) = off -> 0 <= r -> 0 <= off -> off + r < 2 ^ 32 ->
  (forall s', let t := alter (set_f_off (off + r)) f (ftable s) in fsx start nlog (set_ftable t s0) s' T K c H G -> runs (k ()) s' e Q) ->
  runs (when (0 <? r) (fileset f (fun g => set_f_off (u32 (f_off g + r)) g)) ≫= k) s e Q.
Proof.
  intros X Hf Hoff Hr Ho Hlt Hk. destruct (lookup_lt_is_Some_2 _ _ Hf) as [g Eg]. destruct (Z.ltb_spec 0 r) as [Hpos|Hz]; cbn [when].
  - apply runs_modify. apply Hk.
    assert (alter (set_f_off (off + r)) f (ftable s) = alter (fun g => set_f_off (u32 (f_off g + r)) g) f (ftable s)) as ->; [|by apply fsx_ftable].
    unfold get_file in *. rewrite Eg in Hoff. cbn in Hoff. apply list_eq. intros j. destruct (decide (j = f)) as [->|Hj].
    + rewrite !list_lookup_alter_eq, Eg. cbn. rewrite Hoff. unfold u32. by rewrite Z.mod_small by lia.
    + by rewrite !list_lookup_alter_ne.
  - replace r with 0 in * by lia. apply runs_bind, runs_ret. apply Hk.
    assert (alter (set_f_off (off + 0)) f (ftable s) = ftable s) as ->; [|rewrite <- (set_ftable_id s) at 2; by apply fsx_ftable].
    rewrite Z.add_0_r, <- Hoff. by apply alter_off_id.
Qed.

Lemma source_kq s s' src bs e : source s src bs e -> kq s s' -> source s' src bs e.
Proof. intros Hs K s1 tot m K1. apply Hs. by etrans. Qed.

Lemma nblk_write off n : 0 <= off -> 0 <= n <= WRITE_MAX -> (nblk off n <= 4)%nat.
Proof.
  change WRITE_MAX with 3072. intros Ho Hn. unfold nblk. destruct (Z.leb_spec n 0); [lia|]. change BSIZE with 1024.
  pose proof (Z.div_mod off 1024 ltac:(lia)). pose proof (Z.mod_pos_bound off 1024 ltac:(lia)).
  assert ((off + n - 1) / 1024 < off / 1024 + 4) by (apply Z.div_lt_upper_bound; lia). lia.
Qed.

Lemma fsx_get_file start nlog s0 s T K c H G f : fsx start nlog s0 s T K c H G -> get_file s f = get_file s0 f.
Proof. intros X. unfold get_file. by rewrite (kq_ftable _ _ (fk_kq _ _ (fx_keep _ _ _ _ _ _ _ _ _ X))). Qed.

(** The end of a round: the transaction commits. *)
Lemma end_write s s0 s2 f ip x off bs r c1 x' G' t e :
  fs_ready s -> opened s f ip x -> kq s s0 -> disk s0 = disk s -> sb s0 = B -> l_outstanding (klog s0) = 1 ->
  let c := dblock (disk s) in let c' := set_dinode B c1 (i_inum x) x' in
  fsx (sb_logstart B) (sb_nlog B) (set_ftable t s0) s2 (<[ip := x']> (itable s))
    (lock_left (lock_taken s0 (fun i => get_slock s (SLinode i)) ip) ip) c' ∅ G' ->
  t = alter (set_f_off (off + r)) f (ftable s) ->
  file_ok B c' x' -> evolves B c x c1 x' -> 0 <= r <= Z.of_nat (length bs) -> (r < Z.of_nat (length bs) -> full B c' /\ between off r) ->
  0 <= off -> off + r <= MAXFILE * BSIZE ->
  x' = sized (Z.max (i_size x) (off + r)) (set_i_addrs (i_addrs x') x) ->
  file_bytes c' x' = splice (file_bytes c x) (Z.to_nat off) (take (Z.to_nat r) bs) ->
  runs end_op s2 e (fun _ s' => wrote s s' f ip x x' off bs r).
Proof.
  intros R O Kq0 Hd0 Hb0 Ho0 c c' X Ht F' Hev Hr Hfull Hoff Hmax Hx' Hbytes.
  pose proof (rd_idle _ R) as I. pose proof (opened_live _ _ _ _ O) as Hlive.
  eapply runs_mono; [eapply (fsx_end _ _ (set_ftable t s0)); [exact X|done|..]|].
  { cbn. rewrite Hd0. apply I. } { cbn. rewrite Hd0. apply I. }
  cbn beta. intros _ s' (I' & Hdisk & HT & HK & [Kq' Hsb']).
  assert (Hag : forall b, home B b -> dblock (disk s') b = c' b) by (intros b [_ Hb]; by apply Hdisk).
  assert (Hinum : i_inum x' = i_inum x) by (by rewrite Hx').
  assert (Hd' : dinode_ok x').
  { destruct (op_ok _ _ _ _ O) as (H1 & H2 & H3 & H4 & H5 & _). pose proof (file_addrs B Hg _ _ F') as Ha. pose proof (fo_len _ _ _ F') as Hl.
    rewrite Hx' in Ha, Hl |- *. change (MAXFILE * BSIZE) with 274432 in Hmax. unfold dinode_ok. cbn in *. split_and!; try done; lia. }
  assert (Ht' : i_type x' <> 0) by (rewrite Hx'; apply O).
  assert (Hbk : block_ok (c (IBLOCK (i_inum x) B))) by (eapply lg_blocks, I).
  pose proof (fun j => commit_dinode c c1 (dblock (disk s')) (i_inum x) x x' Hlive Hev Hbk Hd' Hag j) as Hdin.
  assert (Hft' : ftable s' = t) by (by rewrite (kq_ftable _ _ Kq')).
  assert (Hget : get_file s' f = set_f_off (off + r) (get_file s f)) by (unfold get_file; rewrite Hft', Ht; by apply get_file_alter, O) .
  assert (Hip : itable s' !! ip = Some x').
  { rewrite HT. apply list_lookup_insert_eq. eapply lookup_lt_Some, O. }
  split.
  - split; [exact I'|by rewrite Hsb'|etrans; [apply (kq_panic _ _ Kq')|]; etrans; [apply (kq_panic _ _ Kq0)|apply R]|].
    by apply (commit_inv c c1 _ (i_inum x) x x'); try done; apply R || apply O.
  - split; rewrite ?Hget, ?Hft', ?Ht, ?length_alter, ?Hinum; try done; try apply O.
    + by rewrite Hx'; apply O.
    + by rewrite Hx'; apply O.
    + split; [rewrite Hx'; apply O|rewrite Hinum; apply O].
    + rewrite HK. unfold lock_left, relock. by rewrite decide_True.
    + by rewrite Hdin, decide_True by (done || apply O).
  - done.
  - by rewrite Hx'.
  - by rewrite Hft'.
  - rewrite Hft'. etrans; [by apply kq_set_ftable|exact Kq'].
  - done.
  - intros Hlt b Hb. rewrite (agree_used B Hg c') by done. by apply Hfull.
  - rewrite (opened_contents _ _ _ _ O). unfold contents. fold c. rewrite <- Hbytes.
    apply (commit_bytes c c1 _ (i_inum x) x x'); try done; apply R || apply O.
  - intros j Hj. apply (commit_other c c1 _ (i_inum x) x x'); try done; apply R || apply O.
Qed.

Lemma wp_write_round {A} s f ip x a bs (k : Z -> M A) e Q :
  fs_ready s -> opened s f ip x -> log_room -> let off := f_off (get_file s f) in
  source s (UserSrc a) bs e -> 0 <= a < 2 ^ 64 -> Z.of_nat (length bs) <= WRITE_MAX ->
  0 <= off <= i_size x -> off + Z.of_nat (length bs) <= MAXFILE * BSIZE ->
  (forall r x' s', wrote s s' f ip x x' off bs r -> runs (k r) s' e Q) ->
  runs (begin_op;; g ← fileget f; ilock (f_ip g);; ip ← deref (f_ip g); g ← fileget f;
        r ← writei ip (UserSrc a) (f_off g) (Z.of_nat (length bs));
        when (0 <? r) (fileset f (fun g => set_f_off (u32 (f_off g + r)) g));; iunlock (f_ip g);; end_op;; k r) s e Q.
Proof.
  intros R O Hlog off Hsrc Ha Hlen Hoff Hmax Hk. pose proof (rd_idle _ R) as I. pose proof (op_blocks_spare x Hlog) as Hsp.
  apply runs_bind. eapply runs_mono; [eapply (fsx_begin _ _ s (op_blocks x)); [exact I|by eapply spare_room]|].
  cbn beta. intros _ s0 (X & Fr & Hd0 & Ho0). pose proof (fr_kq _ _ Fr) as Kq0. pose proof (eq_trans (fr_sb _ _ Fr) (rd_sb _ R)) as HB.
  assert (Hpan : panicked s0 = false) by (etrans; [apply (kq_panic _ _ Kq0)|apply R]).
  assert (Hg0 : get_file s0 f = get_file s f) by (unfold get_file; by rewrite (kq_ftable _ _ Kq0)).
  apply runs_gets. cbv beta. rewrite Hg0, (op_ip _ _ _ _ O). apply runs_bind.
  eapply runs_mono; [eapply (ilock_valid_runs B Hg s0 HB); [exact X|..]; apply O|]. cbn beta. intros _ s1 X1.
  cbn [deref]. apply runs_bind, runs_ret, runs_gets. rewrite (fsx_get_file _ _ _ _ _ _ _ _ _ f X1), Hg0. fold off.
  apply runs_bind. eapply runs_mono.
  { apply (writei_runs B Hg s0 HB Hpan Ho0 _ _ ip _ x _ off (UserSrc a) bs e s1 X1); try done; try apply O; try apply R.
    - by apply (opened_file_ok _ f ip).
    - apply op_blocks_bitmap.
    - apply op_blocks_inode.
    - right. eapply spare_le; [|exact Hsp]. apply le_n_S. apply nblk_write; lia.
    - by eapply source_kq.
    - cbn [src_add]. by rewrite Z.add_0_r, u64_small. }
  cbn beta. intros r s2 (c1 & x' & G' & X2 & _ & F' & Hev & Hr & Hfull & Hx' & Hby). cbv zeta in *.
  assert (Hft2 : ftable s2 = ftable s) by (by rewrite (kq_ftable _ _ (fk_kq _ _ (fx_keep _ _ _ _ _ _ _ _ _ X2))), (kq_ftable _ _ Kq0)).
  assert (Hlt : off + r < 2 ^ 32) by (change (MAXFILE * BSIZE) with 274432 in Hmax; lia).
  pose proof (fsx_get_file _ _ _ _ _ _ _ _ _ f X2) as Hg2. rewrite Hg0 in Hg2.
  eapply wp_advance; [exact X2|rewrite Hft2; apply O|by rewrite Hg2|lia|lia|done|]. rewrite Hft2. intros s3 t X3.
  rewrite (op_ip _ _ _ _ O). apply runs_bind.
  eapply runs_mono; [eapply (iunlock_runs B Hg (set_ftable t s0) HB); [exact X3|..]|].
  { apply list_lookup_insert_eq. eapply lookup_lt_Some, O. } { apply O. } { rewrite Hx'. apply O. }
  { unfold lock_mine, lock_taken, relock. rewrite decide_True by done. done. }
  cbn beta. intros _ s4 X4. apply runs_bind. eapply runs_mono; [eapply (end_write s s0 s4 f ip x off bs r c1 x' G' t); done || lia|].
  cbn beta. intros [] s5. apply Hk.
Qed.

(** ** The rounds of a write *)

Lemma splice_app (l a b : list Z) off : (off <= length l)%nat -> splice (splice l off a) (off + length a) b = splice l off (a ++ b).
Proof.
  intros Ho. assert (Ht : length (take off l ++ a) = (off + length a)%nat) by (rewrite length_app, length_take; lia).
  unfold splice. rewrite (app_assoc (take off l) a), length_app. rewrite take_app_length' by done. rewrite <- !app_assoc. do 3 f_equal.
  rewrite app_assoc, drop_app_ge by lia. rewrite Ht, drop_drop. f_equal. lia.
Qed.

Lemma length_contents s f ip x : opened s f ip x -> length (contents s (i_inum x)) = Z.to_nat (i_size x).
Proof. intros O. rewrite (opened_contents _ _ _ _ O). apply length_bytes. Qed.

Lemma wrote_refl s f ip x bs : fs_ready s -> opened s f ip x -> let off := f_off (get_file s f) in 0 <= off <= i_size x -> bs = [] ->
  wrote s s f ip x x off bs 0.
Proof.
  intros R O off Hoff ->. split; try done; rewrite ?Z.add_0_r; try lia.
  - symmetry. apply alter_off_id, O.
  - by rewrite set_ftable_id.
  - unfold splice. cbn [take app]. rewrite firstn_nil. cbn [length app]. rewrite Nat.add_0_r. by rewrite take_drop.
Qed.

Lemma wrote_trans s1 s2 s3 f ip x1 x2 x3 off b1 b2 r :
  opened s1 f ip x1 -> 0 <= off <= i_size x1 -> let n := Z.of_nat (length b1) in
  wrote s1 s2 f ip x1 x2 off b1 n -> wrote s2 s3 f ip x2 x3 (off + n) b2 r -> wrote s1 s3 f ip x1 x3 off (b1 ++ b2) (n + r).
Proof.
  intros O Hoff n [R2 O2 N2 Z2 F2 K2 C2 U2 B2 T2] [R3 O3 N3 Z3 F3 K3 C3 U3 B3 T3].
  split; [done|done|congruence|lia| | |rewrite length_app; lia| | |].
  - rewrite F3, F2, Z.add_assoc. apply alter_off_off.
  - etrans; [exact (kq_set_ftable (ftable s3) _ _ K2)|exact K3].
  - intros Hlt. apply U3. rewrite length_app in Hlt. lia.
  - rewrite <- N2, B3, N2, B2. rewrite take_ge by lia.
    replace (Z.to_nat (off + n)) with (Z.to_nat off + length b1)%nat by lia.
    rewrite splice_app by (rewrite (length_contents _ _ _ _ O); lia). f_equal. rewrite take_app_ge by lia. do 2 f_equal. lia.
  - rewrite N2 in T3. by eapply others_trans.
Qed.

(** A write cut short is one of a longer buffer. *)
Lemma wrote_more s s' f ip x x' off bs more r : wrote s s' f ip x x' off bs r -> r < Z.of_nat (length bs) -> wrote s s' f ip x x' off (bs ++ more) r.
Proof.
  intros [R O N Zz F K C U By T] Hr. split; try done; [rewrite length_app; lia|intros _; by apply U|].
  by rewrite take_app_le by lia.
Qed.

Section Loop.
Context (f ip : nat) (addr n : Z) (l : list Z) (T : pgt) (us : list Z) (e : env).
Hypothesis (Hlog : log_room) (Hn : 0 <= n) (Ha : accessible T us PTE_U addr n).

Lemma uvm_round s s' t : uvm_ok s l T (p_pagetable (get_proc s (cur s))) us -> kq (set_ftable t s) s' ->
  uvm_ok s' l T (p_pagetable (get_proc s' (cur s'))) us.
Proof.
  intros U K. rewrite (kq_cur _ _ K), (kq_pagetable _ _ _ K). eapply (uvm_ok_kq (set_ftable t s)); [|exact K].
  pose proof (uv_vm _ _ _ _ _ U) as (_ & _ & _ & _ & Hwf & Hlk). by apply (uvm_ok_keep s).
Qed.

Definition rounds (d : Z) : nat := Z.to_nat ((d + (WRITE_MAX - 1)) / WRITE_MAX).
Lemma rounds_step d : 0 < d -> rounds d = S (rounds (d - Z.min d WRITE_MAX)).
Proof using.
  intros Hd. unfold rounds. change WRITE_MAX with 3072. destruct (Z.le_gt_cases 3072 d) as [H|H].
  - rewrite Z.min_r by lia. replace (d + (3072 - 1)) with (d - 3072 + (3072 - 1) + 1 * 3072) by lia. rewrite Z.div_add by lia.
    pose proof (Z.div_pos (d - 3072 + (3072 - 1)) 3072 ltac:(lia) ltac:(lia)). lia.
  - rewrite Z.min_l, Z.sub_diag by lia. change ((0 + (3072 - 1)) / 3072) with 0.
    assert ((d + (3072 - 1)) / 3072 = 1) as -> by (symmetry; apply (Z.div_unique _ _ _ (d - 1)); lia). done.
Qed.

Lemma filewrite_loop_runs k : forall s x i,
  fs_ready s -> opened s f ip x -> uvm_ok s l T (p_pagetable (get_proc s (cur s))) us -> 0 <= i <= n ->
  let off := f_off (get_file s f) in 0 <= off <= i_size x -> off + (n - i) <= MAXFILE * BSIZE -> (rounds (n - i) < k)%nat ->
  runs (filewrite_loop k f addr n i) s e (fun r s' => exists x' w,
    wrote s s' f ip x x' off (ubytes (mem s) us (addr + i) (Z.to_nat (n - i))) w /\
    ((w = n - i /\ r = n) \/ (w < n - i /\ r < n))).
Proof.
  induction k as [|k IH]; intros s x i R O U Hi off Hoff Hmax Hk; [lia|]. cbn [filewrite_loop].
  destruct (Z.ltb_spec i n) as [Hlt|Hge]; cbn [negb].
  2: { apply runs_ret. exists x, 0. split; [|left; lia]. apply wrote_refl; try done. replace (n - i) with 0 by lia. done. }
  set (n1 := Z.min (n - i) WRITE_MAX). assert (Hn1 : 0 < n1 <= n - i) by (unfold n1; change WRITE_MAX with 3072; lia).
  destruct (accessible_va _ _ _ _ _ _ _ _ U Ha Hn) as [Hv1 Hv2]. rewrite u64_small by lia.
  set (bs := ubytes (mem s) us (addr + i) (Z.to_nat n1)). assert (Hbl : Z.of_nat (length bs) = n1) by (unfold bs; rewrite length_ubytes; lia).
  rewrite <- Hbl. eapply (wp_write_round s f ip x (addr + i) bs); try done; try lia.
  { apply (source_user s l T us (addr + i) n1); [done|by apply (accessible_sub _ _ _ addr n); [|lia..]|lia]. }
  intros r x' s' W. rewrite Hbl. fold off in W. destruct (Z.eqb_spec r n1) as [->|Hne]; cbn [negb].
  - rewrite rounds_step in Hk by lia. fold n1 in Hk. pose proof (wr_off _ _ _ _ _ _ _ _ _ O W) as Hof. rewrite <- Hbl in W.
    pose proof (wr_size _ _ _ _ _ _ _ _ _ W) as Hsz. assert (Ho' : f_off (get_file s' f) = off + n1) by (by rewrite Hof).
    eapply runs_mono; [apply (IH s' x' (i + n1) (wr_ready _ _ _ _ _ _ _ _ _ W) (wr_open _ _ _ _ _ _ _ _ _ W))|].
    + eapply uvm_round; [exact U|apply W].
    + lia.
    + rewrite Ho', Hsz. lia.
    + rewrite Ho'. lia.
    + replace (n - (i + n1)) with (n - i - n1) by lia. lia.
    + cbn beta. intros r2 s2 (x2 & w & W2 & Hr2). exists x2, (n1 + w). split; [|destruct Hr2; lia].
      rewrite Ho' in W2. rewrite <- Hbl in W2. rewrite <- Hbl at 1.
      replace (Z.to_nat (n - i)) with (Z.to_nat n1 + Z.to_nat (n - (i + Z.of_nat (length bs))))%nat by lia.
      rewrite ubytes_app. fold bs. eapply (wrote_trans s s' s2); [exact O|done|exact W|].
      rewrite (kq_mem _ _ (wr_kq _ _ _ _ _ _ _ _ _ W)) in W2. cbn [mem set_ftable] in W2.
      replace (addr + i + Z.of_nat (Z.to_nat n1)) with (addr + (i + Z.of_nat (length bs))) by lia. exact W2.
  - apply runs_ret. exists x', r. split; [|right; pose proof (wr_count _ _ _ _ _ _ _ _ _ W); lia].
    replace (Z.to_nat (n - i)) with (Z.to_nat n1 + Z.to_nat (n - i - n1))%nat by lia. rewrite ubytes_app.
    apply wrote_more; [exact W|]. pose proof (wr_count _ _ _ _ _ _ _ _ _ W). fold bs. lia.
Qed.

End Loop.

(** ** Reading *)

(** Nothing has been logged and no buffer is held. *)
Lemma fsx_still start nlog s0 s T K c :
  logged start nlog (disk s0) -> dlog start (disk s0) = [] -> l_outstanding (klog s0) = 0 ->
  fsx start nlog s0 s T K c ∅ ∅ -> log_idle start nlog s.
Proof.
  intros Hl Hc Ho [[K1 B1 D1 O1] _ _ _ (L' & bs & R & [] & _ & HG)].
  assert (bs = []) as -> by (destruct bs as [|b bs']; [done|]; by destruct (not_elem_of_empty (C := gset Z) b); apply HG; left).
  assert (L' = ∅) as ->.
  { apply map_empty. intros b. specialize (tx_pt b). destruct (L' !! b); [|done]. rewrite lookup_empty in tx_pt.
    destruct tx_pt as (_ & _ & _ & [Hb|[? Hb]] & _); [by apply elem_of_nil in Hb|done]. }
  split; try done; [by rewrite D1|by rewrite D1|congruence].
Qed.

(** [r] bytes of the file have been read through [f]; only user memory and the
    file's offset have changed. *)
Record was_read s s' (f ip : nat) x (off r : Z) : Prop := mkread {
  re_ready : fs_ready s';
  re_open : opened s' f ip x;
  re_table : ftable s' = alter (set_f_off (off + r)) f (ftable s);
  re_kq : kq (set_ftable (ftable s') (set_mem (mem s') s)) s';
  re_disk : disk s' = disk s
}.

Lemma slice_file_bytes c x off n : 0 <= off -> 0 <= n -> off + n <= i_size x ->
  slice (file_bytes c x) (Z.to_nat off) (Z.to_nat n) = bytes c x off n.
Proof.
  intros Ho Hn Hl. unfold file_bytes, slice.
  replace (i_size x) with (off + (n + (i_size x - (off + n)))) by lia. rewrite !bytes_app, Z.add_0_l by lia.
  rewrite drop_app_length', take_app_length' by (rewrite length_bytes; lia). done.
Qed.

(** Another table of open files with the same files in it. *)
Lemma opened_same s s' f ip x o :
  opened s f ip x -> ftable s' = alter (set_f_off o) f (ftable s) -> itable s' = itable s -> disk s' = disk s ->
  sl_locked (get_slock s' (SLinode ip)) = false -> opened s' f ip x.
Proof.
  intros O Ht HT Hd Hl. destruct O as [Hf ?? Hi]. assert (Ho : get_file s' f = set_f_off o (get_file s f)).
  { unfold get_file at 1. rewrite Ht. by apply get_file_alter. }
  split; rewrite ?Ho, ?HT, ?Hd; try done. by rewrite Ht, length_alter.
Qed.

Lemma fileread_runs s f ip x addr n l T us e :
  fs_ready s -> opened s f ip x -> log_room -> f_readable (get_file s f) = true -> let off := f_off (get_file s f) in
  uvm_ok s l T (p_pagetable (get_proc s (cur s))) us -> accessible T us PTE_W addr (Z.min n (i_size x - off)) ->
  0 <= n < 2 ^ 31 -> 0 <= off <= i_size x -> let r := Z.min n (i_size x - off) in
  runs (fileread f addr n) s e (fun v s' => v = r /\ was_read s s' f ip x off r /\
    ustored s l T us addr (slice (contents s (i_inum x)) (Z.to_nat off) (Z.to_nat r)) (mem s')).
Proof.
  intros R O [_ Hlog] Hrd off U Ha Hn Hoff r. pose proof (rd_idle _ R) as I. pose proof (opened_file_ok _ _ _ _ R O) as Fo.
  assert (Hroom : room (sb_nlog B) ∅).
  { split; [rewrite size_empty; lia|]. rewrite size_empty. pose proof (layout_order B Hg). unfold nbitmap in Hlog.
    pose proof (Z.div_pos (sb_size B - 1) BPB ltac:(lia) ltac:(done)). lia. }
  assert (Hsz : i_size x < 2 ^ 31) by (pose proof (fo_size _ _ _ Fo); change (MAXFILE * BSIZE) with 274432 in *; lia).
  assert (Hr : 0 <= r <= n) by (unfold r; lia).
  pose proof (fsx_idle _ _ s ∅ I Hroom) as X. unfold fileread. apply runs_gets. rewrite Hrd, (op_type _ _ _ _ O), (op_ip _ _ _ _ O). cbn [negb].
  apply runs_bind. eapply runs_mono; [eapply (ilock_valid_runs B Hg s (rd_sb _ R)); [exact X|..]; apply O|]. cbn beta. intros _ s1 X1.
  cbn [deref]. apply runs_bind, runs_ret, runs_gets. rewrite (fsx_get_file _ _ _ _ _ _ _ _ _ f X1). fold off.
  replace (u32 n) with n by (symmetry; apply Z.mod_small; lia). apply runs_bind. eapply runs_mono.
  { eapply (readi_runs B Hg (UserDst addr) (ustored s l T us addr) (fun _ => False) _ _ ip _ x); [by apply sink_user| |exact X1|apply O|apply O|done|lia|lia|lia|].
    - cbn [dst_add]. pose proof (accessible_va _ _ _ _ _ _ _ _ U Ha ltac:(lia)). by rewrite Z.add_0_r, u64_small by lia.
    - by apply ustored_nil. }
  cbn beta. intros v s2 (m & X2 & [[-> Hst]|[_ []]]). 
  assert (Hft2 : ftable s2 = ftable s) by (apply (kq_ftable (set_mem m s)), X2).
  assert (Ho2 : f_off (get_file s2 f) = off) by (unfold off, get_file; by rewrite Hft2).
  eapply (wp_advance _ _ _ _ _ _ _ _ _ f off r); [exact X2|rewrite Hft2; apply O|done|lia|lia|lia|]. rewrite Hft2. intros s3 t X3. rewrite (op_ip _ _ _ _ O). apply runs_bind.
  eapply runs_mono; [eapply (iunlock_runs B Hg (set_ftable t (set_mem m s)) (rd_sb _ R)); [exact X3|..]; try apply O|].
  { unfold lock_mine, lock_taken, relock. rewrite decide_True by done. done. }
  cbn beta. intros _ s4 X4. apply runs_ret. split; [done|]. pose proof (fk_kq _ _ (fx_keep _ _ _ _ _ _ _ _ _ X4)) as Kq4.
  assert (Hm4 : mem s4 = m) by (apply (kq_mem _ _ Kq4)). assert (Ht4 : ftable s4 = t) by (apply (kq_ftable _ _ Kq4)).
  pose proof (fk_disk _ _ (fx_keep _ _ _ _ _ _ _ _ _ X4)) as Hd4. cbn in Hd4. rewrite Hm4.
  split; [|by rewrite (opened_contents _ _ _ _ O), slice_file_bytes by lia]. split.
  - split; [eapply fsx_still; [..|exact X4]; apply I|etrans; [apply X4|apply R]|etrans; [apply (kq_panic _ _ Kq4)|apply R]|by rewrite Hd4; apply R].
  - apply (opened_same s _ _ _ _ (off + r)); try done; [apply X4|].
    rewrite (fx_slocks _ _ _ _ _ _ _ _ _ X4). unfold lock_left, relock. by rewrite decide_True.
  - done.
  - by rewrite Hm4, Ht4.
  - done.
Qed.

(** ** The system calls' view *)

Lemma filewrite_runs s f ip x addr n l T us e :
  fs_ready s -> opened s f ip x -> log_room -> f_writable (get_file s f) = true -> let off := f_off (get_file s f) in
  uvm_ok s l T (p_pagetable (get_proc s (cur s))) us -> accessible T us PTE_U addr n -> 0 <= n ->
  0 <= off <= i_size x -> off + n <= MAXFILE * BSIZE ->
  runs (filewrite f addr n) s e (fun r s' => exists x' w,
    wrote s s' f ip x x' off (ubytes (mem s) us addr (Z.to_nat n)) w /\ r = if w =? n then n else -1).
Proof.
  intros R O Hlog Hw off U Ha Hn Hoff Hmax. unfold filewrite. apply runs_gets. rewrite Hw, (op_type _ _ _ _ O). cbn [negb].
  apply runs_bind. eapply runs_mono; [apply (filewrite_loop_runs f ip addr n l T us e Hlog Hn Ha _ s x 0 R O U); [lia|exact Hoff|fold off; lia|]|].
  - rewrite Z.sub_0_r. unfold rounds. apply Nat.lt_succ_r, Z2Nat.inj_le; [apply Z.div_pos; change WRITE_MAX with 3072; lia|..].
    + pose proof (Z.div_pos n WRITE_MAX ltac:(lia) ltac:(done)). lia.
    + change WRITE_MAX with 3072. pose proof (Z.div_le_mono (n + (3072 - 1)) (n + 1 * 3072) 3072 ltac:(lia) ltac:(lia)) as H.
      rewrite Z.div_add in H by lia. lia.
  - cbn beta. intros r s' (x' & w & W & H). rewrite Z.add_0_r, Z.sub_0_r in *. apply runs_ret. exists x', w. split; [exact W|].
    destruct H as [[-> ->]|[H1 H2]]; [by rewrite Z.eqb_refl|]. by rewrite !(proj2 (Z.eqb_neq _ _)) by lia.
Qed.

(** C4 [filewrite] on an open file: the bytes of the user's buffer replace or
    extend the file's bytes at its offset, on the disk, however many rounds of
    transactions that takes; the offset advances by the bytes written, the result
    is [n], or -1 when no free block was left; the file system stays well formed,
    every other file keeps its inode and its bytes. *)
Theorem filewrite_file s f ip x addr n l T us e :
  fs_ready s -> opened s f ip x -> log_room -> f_writable (get_file s f) = true ->
  uvm_ok s l T (p_pagetable (get_proc s (cur s))) us -> accessible T us PTE_U addr n -> 0 <= n ->
  let off := f_off (get_file s f) in 0 <= off <= i_size x -> off + n <= MAXFILE * BSIZE ->
  exists r s' x' w, filewrite f addr n s e = Ok r s' e /\ r = (if w =? n then n else -1) /\ 0 <= w <= n /\
    (w < n -> full B (dblock (disk s'))) /\
    contents s' (i_inum x) = splice (contents s (i_inum x)) (Z.to_nat off) (take (Z.to_nat w) (ubytes (mem s) us addr (Z.to_nat n))) /\
    others s s' (i_inum x) /\ fs_ready s' /\ opened s' f ip x' /\ i_inum x' = i_inum x /\ i_size x' = Z.max (i_size x) (off + w) /\
    ftable s' = alter (set_f_off (off + w)) f (ftable s) /\ mem s' = mem s.
Proof.
  intros R O Hlog Hw U Ha Hn off Hoff Hmax.
  destruct (filewrite_runs s f ip x addr n l T us e R O Hlog Hw U Ha Hn Hoff Hmax) as (r & s' & Hrun & x' & w & W & Hr).
  exists r, s', x', w. pose proof (kq_mem _ _ (wr_kq _ _ _ _ _ _ _ _ _ W)) as Hm. destruct W as [R' O' N' Z' F' K' C' U' B' T'].
  rewrite length_ubytes in C', U'. rewrite Z2Nat.id in C', U' by lia. split_and!; done || lia || exact Hm.
Qed.

(** C5 [fileread] on an open file: it stores the bytes of the file at the offset in
    the user's buffer, as many as were asked for and exist, and changes no other
    byte of user memory; it returns their number, advances the offset by it, and
    leaves the disk and the inode alone. *)
Theorem fileread_file s f ip x addr n l T us e :
  fs_ready s -> opened s f ip x -> log_room -> f_readable (get_file s f) = true ->
  let off := f_off (get_file s f) in let r := Z.min n (i_size x - off) in
  uvm_ok s l T (p_pagetable (get_proc s (cur s))) us -> accessible T us PTE_W addr r ->
  0 <= n < 2 ^ 31 -> 0 <= off <= i_size x ->
  exists s', fileread f addr n s e = Ok r s' e /\
    ubytes (mem s') us addr (Z.to_nat r) = slice (contents s (i_inum x)) (Z.to_nat off) (Z.to_nat r) /\
    (forall va, 0 <= va < Z.of_nat (length us) * PGSIZE -> ~ (addr <= va < addr + r) ->
      ld8 (mem s') (uaddr us va) = ld8 (mem s) (uaddr us va)) /\
    mem_frame us (mem s) (mem s') /\
    fs_ready s' /\ opened s' f ip x /\ disk s' = disk s /\ ftable s' = alter (set_f_off (off + r)) f (ftable s).
Proof.
  intros R O Hlog Hrd off r U Ha Hn Hoff.
  destruct (fileread_runs s f ip x addr n l T us e R O Hlog Hrd U Ha Hn Hoff) as (v & s' & Hrun & -> & [R' O' F' K' D'] & Hst).
  exists s'. fold off r in Hrun, Hst, F'. pose proof (length_contents _ _ _ _ O) as Hlc. set (out := slice _ _ _) in *.
  assert (Hol : length out = Z.to_nat r) by (unfold out; rewrite length_slice; lia).
  split_and!; try done.
  - rewrite <- Hol. apply (ustored_bytes s l T); [done|apply Ha|]. destruct Ha as (_ & Hl & _). rewrite Hol. lia.
  - intros va Hva Hout. destruct Hst as (_ & _ & Hb). rewrite Hb by done. rewrite decide_False by (rewrite Hol; lia). done.
  - apply Hst.
Qed.

(** Another open file on the same inode. *)
Lemma wrote_opened s s' f g ip x x' off bs r :
  wrote s s' f ip x x' off bs r -> opened s g ip x -> f <> g -> opened s' g ip x' /\ get_file s' g = get_file s g.
Proof.
  intros [R' O' N' Z' F' K' C' U' B' T'] O Hne. assert (Hgf : get_file s' g = get_file s g) by (unfold get_file; by rewrite F', list_lookup_alter_ne).
  split; [|done]. destruct O as [Hf ?? Hi], O'. split; try done; [by rewrite F', length_alter|by rewrite Hgf..].
Qed.

Lemma slice_splice_max (l bs : list Z) off n : (off <= length l)%nat -> n = length bs -> slice (splice l off bs) off n = bs.
Proof.
  intros Ho ->. unfold slice, splice. rewrite drop_app_length' by (rewrite length_take; lia). by rewrite take_app_length.
Qed.

(** C3 what a process writes through one descriptor it reads back through another
    that is open on the same inode at the same offset: unless the disk is full, the
    bytes that [fileread] stores at [dst] are those that [filewrite] took from
    [addr], across all block and page boundaries. *)
Theorem write_read_back s f g ip x addr dst n l T us e :
  fs_ready s -> opened s f ip x -> opened s g ip x -> f <> g -> log_room ->
  f_writable (get_file s f) = true -> f_readable (get_file s g) = true -> f_off (get_file s g) = f_off (get_file s f) ->
  uvm_ok s l T (p_pagetable (get_proc s (cur s))) us -> accessible T us PTE_U addr n -> accessible T us PTE_W dst n -> 0 <= n ->
  let off := f_off (get_file s f) in 0 <= off <= i_size x -> off + n <= MAXFILE * BSIZE ->
  exists r s1, filewrite f addr n s e = Ok r s1 e /\
    ((r = -1 /\ full B (dblock (disk s1))) \/
     (r = n /\ exists s2, fileread g dst n s1 e = Ok n s2 e /\
       ubytes (mem s2) us dst (Z.to_nat n) = ubytes (mem s) us addr (Z.to_nat n))).
Proof.
  intros R O Og Hfg Hlog Hw Hrd Hsame U Ha Hd Hn off Hoff Hmax.
  destruct (filewrite_runs s f ip x addr n l T us e R O Hlog Hw U Ha Hn Hoff Hmax) as (r & s1 & Hrun & x' & w & W & ->).
  eexists _, s1. split; [exact Hrun|]. destruct (Z.eqb_spec w n) as [Hwn|Hne]; [subst w|].
  2: { left. split; [done|]. apply (wr_full _ _ _ _ _ _ _ _ _ W). pose proof (wr_count _ _ _ _ _ _ _ _ _ W). rewrite length_ubytes in *. lia. }
  right. split; [done|]. destruct (wrote_opened _ _ _ g _ _ _ _ _ _ W Og Hfg) as [Og1 Hgf].
  pose proof (wr_size _ _ _ _ _ _ _ _ _ W) as Hsz. fold off in Hsz.
  assert (Hmin : Z.min n (i_size x' - f_off (get_file s1 g)) = n) by (rewrite Hgf, Hsame; fold off; lia).
  destruct (fileread_runs s1 g ip x' dst n l T us e (wr_ready _ _ _ _ _ _ _ _ _ W) Og1 Hlog) as (v & s2 & Hrun2 & -> & _ & Hst).
  { by rewrite Hgf. } { eapply uvm_round; [exact U|apply W]. } { by rewrite Hmin. }
  { change (MAXFILE * BSIZE) with 274432 in Hmax. lia. } { rewrite Hgf, Hsame. fold off. lia. }
  rewrite Hmin in *. exists s2. split; [exact Hrun2|]. rewrite Hgf, Hsame in Hst. fold off in Hst.
  rewrite (wr_inum _ _ _ _ _ _ _ _ _ W), (wr_bytes _ _ _ _ _ _ _ _ _ W) in Hst. fold off in Hst.
  rewrite take_ge in Hst by (rewrite length_ubytes; lia).
  rewrite slice_splice_max in Hst by (by rewrite length_ubytes || rewrite (length_contents _ _ _ _ O); lia).
  rewrite <- (length_ubytes (mem s) us addr (Z.to_nat n)) at 1. apply (ustored_bytes s1 l T); [exact Hst|apply Hd|].
  rewrite length_ubytes. destruct Hd as (_ & Hl & _). lia.
Qed.

End Rw.

(** ** Witnesses *)

Lemma sample_fs_ready root m fl : @fs_ready ram_driver ram_laws sample_sb (sample_fs root m fl).
Proof. split; [apply sample_fs_idle|done|done|apply sample_fs_inv]. Qed.

Lemma sample_opened root m fl f : f = 3%nat \/ f = 4%nat -> opened sample_sb (sample_fs root m fl) f 0 (sample_inode 2 2).
Proof.
  intros Hf. assert (Hfile : (f < 100)%nat /\ get_file (sample_fs root m fl) f = sample_file) by (destruct Hf as [->| ->]; split; try lia; reflexivity).
  destruct Hfile as [Hlt Hfile]. split; rewrite ?Hfile; try done.
  - vm_compute. lia.
  - split_and!; try done. by apply Forall_replicate.
Qed.

Lemma sample_log_room : log_room sample_sb.
Proof. split; vm_compute; done || congruence. Qed.

(** A process with one page of memory and the file open twice. *)
Lemma sample_process : exists s l T, @fs_ready ram_driver ram_laws sample_sb s /\
  (forall f, f = 3%nat \/ f = 4%nat -> opened sample_sb s f 0 (sample_inode 2 2) /\ get_file s f = sample_file) /\
  uvm_ok (L := sample_layout) s l T (p_pagetable (get_proc s (cur s))) [sample_page 1] /\
  forall fl va len, fl = PTE_W \/ fl = PTE_U -> 0 <= va -> 0 <= len -> va + len <= PGSIZE -> accessible T [sample_page 1] fl va len.
Proof.
  destruct sample_uvm1 as (s & l & T & U & Hl). set (s' := sample_fs (sample_page 0) (mem s) (freelist s)).
  assert (U' : uvm_ok (L := sample_layout) s' l T (sample_page 0) [sample_page 1]).
  { apply (uvm_ok_keep s); [exact U|reflexivity|reflexivity|apply sample_quiet|]. apply sample_lfree, sample_lockids_elem. done. }
  exists s', l, T. split; [apply sample_fs_ready|]. split; [|split; [exact U'|]].
  - intros f Hf. split; [by apply sample_opened|]. by destruct Hf as [->| ->].
  - intros fl va len Hfl Hv Hn Hlen. apply (accessible_sub _ _ _ 0 PGSIZE); [|lia..].
    apply (sample_accessible s' l T); [exact U'|exact Hl|exact Hfl|]. unfold PGSIZE. lia.
Qed.

Lemma filewrite_file_witness : exists s r s' w, filewrite (D := ram_driver) 3 0 4096 s [] = Ok r s' [] /\
  r = (if w =? 4096 then 4096 else -1) /\ 0 <= w <= 4096.
Proof.
  destruct sample_process as (s & l & T & R & O & U & Ha). destruct (O 3%nat (or_introl eq_refl)) as [O3 Hf].
  destruct (@filewrite_file sample_layout ram_driver ram_laws sample_sb sample_geom s 3 0 (sample_inode 2 2) 0 4096 l T [sample_page 1] [] R O3 sample_log_room)
    as (r & s' & x' & w & H1 & H2 & H3 & _); rewrite ?Hf; [reflexivity|exact U|apply Ha; [by right|done..]|done|done|done|].
  by exists s, r, s', w.
Defined.

Lemma fileread_file_witness : exists s s', fileread (D := ram_driver) 4 16 100 s [] = Ok 0 s' [] /\ disk s' = disk s.
Proof.
  destruct sample_process as (s & l & T & R & O & U & Ha). destruct (O 4%nat (or_intror eq_refl)) as [O4 Hf].
  destruct (@fileread_file sample_layout ram_driver ram_laws sample_sb sample_geom s 4 0 (sample_inode 2 2) 16 100 l T [sample_page 1] [] R O4 sample_log_room)
    as (s' & H1 & _ & _ & _ & _ & _ & H2 & _); rewrite ?Hf; [reflexivity|exact U|apply Ha; [by left|done..]|done|done|].
  exists s, s'. split; [|exact H2]. by rewrite Hf in H1.
Defined.

Lemma write_read_back_witness : exists s r s1, filewrite (D := ram_driver) 3 0 2000 s [] = Ok r s1 [] /\
  ((r = -1 /\ full sample_sb (dblock (disk s1))) \/
   (r = 2000 /\ exists s2, fileread (D := ram_driver) 4 2048 2000 s1 [] = Ok 2000 s2 [] /\
     ubytes (mem s2) [sample_page 1] 2048 (Z.to_nat 2000) = ubytes (mem s) [sample_page 1] 0 (Z.to_nat 2000))).
Proof.
  destruct sample_process as (s & l & T & R & O & U & Ha).
  destruct (O 3%nat (or_introl eq_refl)) as [O3 Hf3], (O 4%nat (or_intror eq_refl)) as [O4 Hf4].
  destruct (@write_read_back sample_layout ram_driver ram_laws sample_sb sample_geom s 3 4 0 (sample_inode 2 2) 0 2048 2000 l T [sample_page 1] [] R O3 O4)
    as (r & s1 & H); rewrite ?Hf3, ?Hf4; [done|exact sample_log_room|reflexivity|reflexivity|reflexivity|exact U|
      apply Ha; [by right|done..]|apply Ha; [by left|done..]|done|done|done|].
  by exists s, r, s1.
Defined.
