(* ===== verification/FsDir.v ===== *)
(** * kernel/fs.c: directories and path names

    A directory as the list of its entries and a path as the list of its elements:
    [dirlookup] and [dirlink] read and extend the list, [namex] follows the elements
    through the directories of the disk and counts its references to the inode table. *)

From stdpp Require Import base gmap strings numbers list.
From Stdlib Require Import Ascii.
From S2P Require Import Prelude KState Sample StringC Spinlock Sched Sleeplock Quiet Uart Printf Bio BufCache BufRefine Log LogDisk BufWp LogRun LogSafe LogOps Transaction FsWp Fs FsBlocks FsInode FsFile FsData FsOps FileRw.

(** ** Entries *)

(** The name in an array of DIRSIZ characters, which need not be terminated. *)
Definition fname (name : list Z) : list Z := take (Z.to_nat DIRSIZ) (cstr name).

(** The entries of a directory with the contents [bs]. *)
Definition dirents (bs : list Z) : list (list Z) := (fun i => slice bs (16 * i) 16) <$> seq 0 (length bs / 16).

(** The entry is in use and has the name [nm]. *)
Definition is_entry (nm de : list Z) : bool := negb (de_inum de =? 0) && bool_decide (fname (de_name de) = nm).

(** The inode number of the first entry named [nm], and its offset. *)
Fixpoint dir_find (nm : list Z) (des : list (list Z)) (off : Z) : option (Z * Z) :=
  match des with
  | [] => None
  | de :: des' => if is_entry nm de then Some (de_inum de, off) else dir_find nm des' (off + DIRENT_SIZE)
  end.

Lemma namecmp_fname a b : Forall byte_ok a -> Forall byte_ok b -> namecmp a b = 0 <-> fname a = fname b.
Proof. intros. unfold namecmp, strncmp. by apply strncmp_loop_zero. Qed.

Lemma lookup_dirents bs i : dirents bs !! i = if decide (i < length bs / 16)%nat then Some (slice bs (16 * i) 16) else None.
Proof.
  unfold dirents. rewrite list_lookup_fmap. case_decide.
  - by rewrite lookup_seq_lt.
  - by rewrite lookup_seq_ge by lia.
Qed.

Lemma length_dirents bs : length (dirents bs) = (length bs / 16)%nat.
Proof. unfold dirents. by rewrite length_fmap, length_seq. Qed.

Lemma drop_dirents bs i : (16 * i < length bs)%nat -> (length bs mod 16 = 0)%nat ->
  drop i (dirents bs) = slice bs (16 * i) 16 :: drop (S i) (dirents bs).
Proof.
  intros Hi Hm. apply drop_S. rewrite lookup_dirents, decide_True; [done|].
  pose proof (Nat.div_mod (length bs) 16 ltac:(done)). lia.
Qed.

Lemma dirents_cons de bs : length de = 16%nat -> dirents (de ++ bs) = de :: dirents bs.
Proof.
  intros Hl. apply list_eq. intros i. rewrite lookup_dirents, length_app, Hl.
  replace (16 + length bs)%nat with (1 * 16 + length bs)%nat by lia. rewrite Nat.div_add_l by done. destruct i as [|i].
  - rewrite decide_True by lia. change (Some (take 16 (de ++ bs)) = Some de). f_equal. by apply take_app_length'.
  - cbn [lookup list_lookup]. change (list_lookup i (dirents bs)) with (dirents bs !! i). rewrite lookup_dirents. destruct (decide (i < length bs / 16)%nat).
    + rewrite decide_True by lia. f_equal. replace (16 * S i)%nat with (length de + 16 * i)%nat by lia. apply slice_app_r.
    + by rewrite decide_False by lia.
Qed.

Lemma dir_find_app nm a b off : dir_find nm (a ++ b) off =
  match dir_find nm a off with Some r => Some r | None => dir_find nm b (off + DIRENT_SIZE * Z.of_nat (length a)) end.
Proof.
  revert off. induction a as [|de a IH]; intros off; cbn [dir_find app length]; [f_equal; lia|].
  destruct (is_entry nm de); [done|]. rewrite IH. replace (off + DIRENT_SIZE + DIRENT_SIZE * Z.of_nat (length a)) with (off + DIRENT_SIZE * Z.of_nat (S (length a))) by lia. done.
Qed.

Lemma dir_find_in nm des off i o : dir_find nm des off = Some (i, o) -> exists de, de ∈ des /\ de_inum de = i /\ i <> 0 /\ fname (de_name de) = nm.
Proof.
  revert off. induction des as [|de des IH]; intros off; cbn [dir_find]; [done|]. unfold is_entry.
  destruct (negb (de_inum de =? 0)) eqn:E1; [destruct (bool_decide_reflect (fname (de_name de) = nm)) as [E2|E2]|]; cbn [andb].
  - intros [= <- <-]. exists de. split; [by left|]. split; [done|]. split; [|done]. apply negb_true_iff, Z.eqb_neq in E1. done.
  - intros (de' & H & H')%IH. exists de'. split; [by right|done].
  - intros (de' & H & H')%IH. exists de'. split; [by right|done].
Qed.

(** ** Paths *)

Definition SLASH : Z := chr "/".

(** A string cut at its slashes. *)
Fixpoint pieces (p : list Z) : list (list Z) :=
  match p with
  | [] => [[]]
  | c :: p' =>
      if c =? SLASH then [] :: pieces p'
      else match pieces p' with w :: ws => (c :: w) :: ws | [] => [[c]] end
  end.

(** The elements of a path, as directories have them. *)
Definition path_elems (p : list Z) : list (list Z) := take (Z.to_nat DIRSIZ) <$> filter (fun w => w <> []) (pieces (cstr p)).

Lemma pieces_app w p : Forall (fun c => c <> SLASH) w -> pieces (w ++ SLASH :: p) = w :: pieces p.
Proof.
  induction 1 as [|c w Hc _ IH]; [done|]. cbn [app pieces]. rewrite (proj2 (Z.eqb_neq _ _)) by done. by rewrite IH.
Qed.
Lemma pieces_one w : Forall (fun c => c <> SLASH) w -> pieces w = [w].
Proof. induction 1 as [|c w Hc _ IH]; [done|]. cbn [pieces]. rewrite (proj2 (Z.eqb_neq _ _)) by done. by rewrite IH. Qed.

Lemma cstr_app w r : Forall (fun c => c <> 0) w -> cstr (w ++ r) = w ++ cstr r.
Proof. induction 1 as [|c w Hc _ IH]; [done|]. cbn. rewrite (proj2 (Z.eqb_neq _ _)) by done. by rewrite IH. Qed.

Lemma elems_slash p : path_elems (SLASH :: p) = path_elems p.
Proof. unfold path_elems. cbn [cstr pieces]. change (SLASH =? 0) with false. cbn iota. cbn [pieces]. rewrite Z.eqb_refl. by rewrite filter_cons_False by auto. Qed.

Lemma elems_skip p : path_elems (skip_slashes p) = path_elems p.
Proof.
  induction p as [|c p IH]; [done|]. cbn [skip_slashes]. change (chr "/") with SLASH. destruct (Z.eqb_spec c SLASH) as [->|]; [|done].
  by rewrite IH, elems_slash.
Qed.
Lemma skip_ch p : ch (skip_slashes p) <> SLASH.
Proof. induction p as [|c p IH]; [done|]. cbn. change (chr "/") with SLASH. by destruct (Z.eqb_spec c SLASH). Qed.
Lemma length_skip p : (length (skip_slashes p) <= length p)%nat.
Proof. induction p as [|c p IH]; [done|]. cbn. change (chr "/") with SLASH. destruct (c =? SLASH); cbn; lia. Qed.
Lemma bytes_skip p : Forall byte_ok p -> Forall byte_ok (skip_slashes p).
Proof. induction 1 as [|c p Hc Hp IH]; [constructor|]. cbn. destruct (c =? chr "/"); [done|]. by constructor. Qed.

Lemma elem_split_spec p s r : elem_split p = (s, r) ->
  p = s ++ r /\ Forall (fun c => c <> SLASH) s /\ Forall (fun c => c <> 0) s /\ (r = [] \/ ch r = SLASH \/ ch r = 0) /\
  (ch p <> SLASH -> ch p <> 0 -> s <> []).
Proof.
  revert s r. induction p as [|c p IH]; intros s r; cbn [elem_split].
  - intros [= <- <-]. split_and!; [done|by constructor|by constructor|by left|done].
  - change (chr "/") with SLASH. destruct (Z.eqb_spec c SLASH) as [->|H1]; [|destruct (Z.eqb_spec c 0) as [->|H2]]; cbn [orb].
    + intros [= <- <-]. split_and!; [done|by constructor|by constructor|right; by left|done].
    + intros [= <- <-]. split_and!; [done|by constructor|by constructor|right; by right|done].
    + destruct (elem_split p) as [a r'] eqn:E. intros [= <- <-]. destruct (IH a r' eq_refl) as (-> & ? & ? & ? & _).
      split_and!; try done; by constructor.
Qed.

Lemma elems_cons s r : s <> [] -> Forall (fun c => c <> SLASH) s -> Forall (fun c => c <> 0) s -> r = [] \/ ch r = SLASH \/ ch r = 0 ->
  path_elems (s ++ r) = take (Z.to_nat DIRSIZ) s :: path_elems r.
Proof.
  intros Hne Hs Hz Hr. assert (Hend : cstr r = [] \/ exists r', r = SLASH :: r').
  { destruct r as [|c r]; [by left|]. destruct Hr as [?|[H|H]]; [done| |]; cbn in H; subst c; [right; by eexists|by left]. }
  unfold path_elems. rewrite cstr_app by done. destruct Hend as [-> | [r' ->]].
  - rewrite app_nil_r, pieces_one by done. rewrite filter_cons_True by done. done.
  - cbn [cstr]. change (SLASH =? 0) with false. cbn iota. rewrite pieces_app by done. rewrite filter_cons_True by done. cbn [fmap list_fmap pieces].
    rewrite Z.eqb_refl. by rewrite (filter_cons_False _ []) by auto.
Qed.

Lemma elems_nil p : ch p <> SLASH -> path_elems p = [] <-> ch p = 0.
Proof.
  intros Hs. destruct (elem_split p) as [s r] eqn:E. destruct (elem_split_spec _ _ _ E) as (-> & H1 & H2 & H3 & H4). split.
  - intros He. destruct (decide (ch (s ++ r) = 0)); [done|]. rewrite elems_cons in He by auto. done.
  - intros Hc. unfold path_elems. by rewrite (cstr_cons (s ++ r)), Hc.
Qed.

Lemma fname_short s d : Forall (fun c => c <> 0) s -> (length s < 14)%nat -> fname (s ++ 0 :: d) = take (Z.to_nat DIRSIZ) s.
Proof. intros Hs Hl. unfold fname. by rewrite cstr_app_zero. Qed.

Lemma skipelem_none path name : skipelem path name = None -> path_elems path = [].
Proof.
  unfold skipelem. destruct (Z.eqb_spec (ch (skip_slashes path)) 0) as [H|H]; [|by destruct (elem_split _)]. intros _.
  rewrite <- elems_skip. apply elems_nil; [apply skip_ch|done].
Qed.

Lemma skipelem_some path name path' name' : skipelem path name = Some (path', name') -> Forall byte_ok path -> Forall byte_ok name ->
  path_elems path = fname name' :: path_elems path' /\ (length path' < length path)%nat /\ ch path' <> SLASH /\
  Forall byte_ok path' /\ Forall byte_ok name'.
Proof.
  unfold skipelem. destruct (Z.eqb_spec (ch (skip_slashes path)) 0) as [H|H]; [done|]. destruct (elem_split _) as [s r] eqn:E.
  set (nm := if (_ <=? _)%nat then _ else _). intros Heq Hp Hn. destruct (elem_split_spec _ _ _ E) as (Hsr & H1 & H2 & H3 & H4).
  specialize (H4 (skip_ch _) H). pose proof (bytes_skip _ Hp) as Hb. rewrite Hsr in Hb. apply Forall_app in Hb as [Hbs Hbr].
  assert (Hnm : fname nm = take (Z.to_nat DIRSIZ) s /\ Forall byte_ok nm).
  { unfold nm. destruct (Nat.leb_spec (Z.to_nat DIRSIZ) (length s)); split.
    - unfold fname. rewrite cstr_id by (by apply Forall_take). by rewrite take_take, Nat.min_id.
    - by apply Forall_take.
    - by rewrite fname_short.
    - apply Forall_app. split; [done|]. constructor; [unfold byte_ok; lia|]. by apply Forall_drop. }
  clearbody nm. injection Heq as <- <-. destruct Hnm as [Hf Hnb].
  rewrite elems_skip, Hf. rewrite <- (elems_skip path), Hsr, elems_cons by done.
  pose proof (length_skip path) as Hl. rewrite Hsr, length_app in Hl. pose proof (length_skip r).
  assert (length s <> 0%nat) by (by destruct s). split_and!; [done|lia|apply skip_ch|by apply bytes_skip|done].
Qed.

(** ** The inode table *)

Lemma iget_scan_spec l dev inum : forall i empty r em, iget_scan l i dev inum empty = (r, em) ->
  match r with
  | Some j => exists k x, j = (i + k)%nat /\ l !! k = Some x /\ 0 < i_ref x /\ i_dev x = dev /\ i_inum x = inum
  | None => (forall k x, l !! k = Some x -> 0 < i_ref x -> i_dev x = dev -> i_inum x <> inum) /\
      match em with
      | Some j => empty = Some j \/ exists k x, j = (i + k)%nat /\ l !! k = Some x /\ i_ref x = 0
      | None => empty = None /\ forall k x, l !! k = Some x -> i_ref x <> 0
      end
  end.
Proof.
  induction l as [|x l IH]; intros i empty r em; cbn [iget_scan].
  { intros [= <- <-]. split; [done|]. destruct empty; [by left|done]. }
  destruct (_ && _ && _) eqn:E.
  { intros [= <- <-]. apply andb_true_iff in E as [[?%Z.ltb_lt ?%Z.eqb_eq]%andb_true_iff ?%Z.eqb_eq]. exists 0%nat, x. split; [lia|done]. }
  intros H%IH. destruct r as [j|].
  { destruct H as (k & y & -> & Hk & Hy). exists (S k), y. split; [lia|done]. }
  destruct H as [Hno Hem]. split.
  { intros [|k] y Hk; [|by apply (Hno k)]. injection Hk as <-. intros Hr Hd Hi. apply Z.ltb_lt in Hr. apply Z.eqb_eq in Hd, Hi. by rewrite Hr, Hd, Hi in E. }
  destruct em as [j|].
  - destruct Hem as [Hj|(k & y & -> & Hk & Hy)]; [|right; exists (S k), y; split; [lia|done]].
    destruct empty; [by left|]. destruct (Z.eqb_spec (i_ref x) 0); [|done]. injection Hj as <-. right. exists 0%nat, x. split; [lia|done].
  - destruct Hem as [Hem Hall]. destruct empty; [done|]. split; [done|]. destruct (Z.eqb_spec (i_ref x) 0); [done|].
    intros [|k] y Hk; [by injection Hk as <-|by apply (Hall k)].
Qed.

(** References to entry [ip]. *)
Definition refat (T : list inode) (ip : nat) : Z := match T !! ip with Some x => i_ref x | None => 0 end.
Definition one (ip : nat) : nat -> Z := fun i => if decide (i = ip) then 1 else 0.

Section Table.
Context (B : superblock) (c : Z -> list Z).
Implicit Types (T : list inode) (x : inode) (d : nat -> Z).

(** The entry has what the disk has. *)
Definition cached x : Prop := with_dinode (dinode_at B c (i_inum x)) x = x.

(** Entries in use name different inodes of the disk, and those that have been read
    agree with it. *)
Record itab_ok T : Prop := mkitab {
  it_len : length T = Z.to_nat NINODE;
  it_ref : forall ip x, T !! ip = Some x -> 0 <= i_ref x;
  it_on : forall ip x, T !! ip = Some x -> 0 < i_ref x -> i_dev x = ROOTDEV /\ live_inum B c (i_inum x);
  it_valid : forall ip x, T !! ip = Some x -> 0 < i_ref x -> i_valid x = true -> cached x;
  it_one : forall ip jp x y, T !! ip = Some x -> T !! jp = Some y -> 0 < i_ref x -> 0 < i_ref y -> i_inum x = i_inum y -> ip = jp
}.

(** From [T] to [T'] entry [i] got [d i] more references; an entry in use is still
    that of its inode. *)
Record grants T T' d : Prop := mkgrants {
  gr_ref : forall i, refat T' i = refat T i + d i;
  gr_id : forall i x, T !! i = Some x -> 0 < i_ref x -> 0 < refat T' i ->
    exists x', T' !! i = Some x' /\ i_inum x' = i_inum x /\ (i_valid x = true -> i_valid x' = true)
}.

Lemma grants_refl T : grants T T (fun _ => 0).
Proof. split; [lia|]. intros i x Hx _ _. by exists x. Qed.

Lemma refat_lookup T ip x : T !! ip = Some x -> refat T ip = i_ref x.
Proof. unfold refat. by intros ->. Qed.

Lemma grants_trans T T1 T2 d1 d2 : grants T T1 d1 -> grants T1 T2 d2 -> (forall i, 0 <= d1 i) -> grants T T2 (fun i => d1 i + d2 i).
Proof.
  intros [R1 I1] [R2 I2] Hd. split; [intros i; rewrite R2, R1; lia|]. intros i x Hx Hr Hr2.
  pose proof (refat_lookup _ _ _ Hx) as Hri. destruct (I1 i x Hx Hr) as (x1 & H1 & E1 & V1); [rewrite R1; specialize (Hd i); lia|].
  destruct (I2 i x1 H1) as (x2 & H2 & E2 & V2); [|done|].
  - rewrite <- (refat_lookup _ _ _ H1), R1. specialize (Hd i). lia.
  - exists x2. split; [done|]. split; [congruence|auto].
Qed.

Lemma grants_ext T T' d d' : (forall i, d i = d' i) -> grants T T' d -> grants T T' d'.
Proof. intros E [R I]. split; [|done]. intros i. by rewrite R, E. Qed.

Lemma refat_insert T ip x i : (ip < length T)%nat -> refat (<[ip := x]> T) i = if decide (i = ip) then i_ref x else refat T i.
Proof.
  intros Hl. unfold refat. case_decide as E; [subst; by rewrite list_lookup_insert_eq|]. by rewrite list_lookup_insert_ne.
Qed.

(** One entry changed: it is still that of the inode, or was or becomes free. *)
Lemma grants_update T ip x x' : T !! ip = Some x -> 0 <= i_ref x ->
  (0 < i_ref x -> 0 < i_ref x' -> i_inum x' = i_inum x /\ (i_valid x = true -> i_valid x' = true)) ->
  grants T (<[ip := x']> T) (fun i => if decide (i = ip) then i_ref x' - i_ref x else 0).
Proof.
  intros Hx Hr0 Hid. pose proof (lookup_lt_Some _ _ _ Hx) as Hl. split.
  - intros i. rewrite refat_insert by done. case_decide as E; [subst; rewrite (refat_lookup _ _ _ Hx); lia|lia].
  - intros i y Hy Hr. rewrite refat_insert by done. destruct (decide (i = ip)) as [->|E].
    + intros Hr'. replace y with x in * by congruence. exists x'. rewrite list_lookup_insert_eq by done. by destruct (Hid Hr Hr').
    + intros _. exists y. by rewrite list_lookup_insert_ne.
Qed.

Lemma itab_update T ip x x' : itab_ok T -> T !! ip = Some x -> 0 <= i_ref x' ->
  (0 < i_ref x' -> i_dev x' = ROOTDEV /\ live_inum B c (i_inum x') /\ (i_valid x' = true -> cached x') /\
    forall jp y, jp <> ip -> T !! jp = Some y -> 0 < i_ref y -> i_inum y <> i_inum x') -> itab_ok (<[ip := x']> T).
Proof.
  intros [H1 H2 H3 H4 H5] Hx Hr Hnew. pose proof (lookup_lt_Some _ _ _ Hx) as Hl.
  assert (Hlk : forall i y, <[ip := x']> T !! i = Some y -> (i = ip /\ y = x') \/ (i <> ip /\ T !! i = Some y)).
  { intros i y. destruct (decide (i = ip)) as [->|E]; [rewrite list_lookup_insert_eq by done; intros [= <-]; by left|].
    rewrite list_lookup_insert_ne by done. by right. }
  split.
  - by rewrite length_insert.
  - intros i y [[-> ->]|[E Hy]]%Hlk; [done|by eapply H2].
  - intros i y [[-> ->]|[E Hy]]%Hlk Hry; [destruct (Hnew Hry) as (? & ? & _); done|by eapply H3].
  - intros i y [[-> ->]|[E Hy]]%Hlk Hry; [destruct (Hnew Hry) as (_ & _ & ? & _); done|by eapply H4].
  - intros i j y z [[-> ->]|[E Hy]]%Hlk [[-> ->]|[E' Hz]]%Hlk Hry Hrz Hi; [done| | |by eapply H5].
    + destruct (Hnew Hry) as (_ & _ & _ & Hno). by destruct (Hno j z E' Hz Hrz).
    + destruct (Hnew Hrz) as (_ & _ & _ & Hno). by destruct (Hno i y E Hy Hry).
Qed.

(** An entry whose identity and contents are kept. *)
Lemma itab_keep T ip x x' : itab_ok T -> T !! ip = Some x -> 0 < i_ref x -> 0 <= i_ref x' -> i_dev x' = i_dev x -> i_inum x' = i_inum x ->
  (i_valid x' = true -> cached x') -> itab_ok (<[ip := x']> T).
Proof.
  intros Hok Hx Hr Hr' Hd Hi Hv. apply (itab_update T ip x); [done|done|done|]. intros _. rewrite Hd, Hi.
  destruct (it_on _ Hok ip x Hx Hr) as [H1 H2]. split; [done|]. split; [done|]. split; [done|].
  intros jp y Hne Hy Hry E. by apply Hne, (it_one _ Hok jp ip y x).
Qed.

End Table.

(** ** References *)

Section Refs.
Context {L : Layout} {D : DiskDriver} {DL : DiskLaws} (B : superblock) (Hg : geom B).
Context (s0 : kstate) (HB : sb s0 = B).
Implicit Types (c : Z -> list Z) (G : gset Z) (T : list inode) (x : inode).
Notation fsx := (fsx (sb_logstart B) (sb_nlog B) s0).
Notation itab_ok := (itab_ok B).

(** A change of the table under its lock. *)
Lemma itable_locked s s1 T T' K c H G :
  fsx s T K c H G -> syn s1 = acq (syn s) Litable -> itable s1 = T' -> s1 = set_itable T' (set_syn (syn s1) s) ->
  forall e, release Litable s1 e = Ok () (set_syn (touch (syn s)) s1) e /\ fsx (set_syn (touch (syn s)) s1) T' K c H G.
Proof.
  intros X Hs HT E e. pose proof (fsx_quiet _ _ _ _ _ _ _ _ _ X) as Q. split; [apply (quiet_release s); [done|in_static|done]|].
  rewrite E. eapply fsx_other; [exact X|split; [done|by right|done]|done..|]. intros i. apply X.
Qed.

(** An entry that an inode without references gets. *)
Definition new_entry (dev inum : Z) x : inode := set_i_valid false (set_i_ref 1 (set_i_inum inum (set_i_dev dev x))).

Lemma iget_runs s T K c G inum e :
  fsx s T K c ∅ G -> itab_ok c T -> live_inum B c inum -> (exists a y, T !! a = Some y /\ i_ref y = 0) ->
  runs (iget ROOTDEV inum) s e (fun ip s' => exists T' x, fsx s' T' K c ∅ G /\ itab_ok c T' /\ grants T T' (one ip) /\
    T' !! ip = Some x /\ i_inum x = inum /\ 0 < i_ref x).
Proof.
  intros X Hok Hl (a & y0 & Ha & Hy0). pose proof (fsx_quiet _ _ _ _ _ _ _ _ _ X) as Q. pose proof (fx_itable _ _ _ _ _ _ _ _ _ X) as HT. unfold iget.
  eapply runs_step; [apply quiet_acquire; [done|in_static]|]. apply runs_gets. cbn [itable set_syn]. rewrite HT.
  destruct (iget_scan T 0 ROOTDEV inum None) as [r em] eqn:Es. pose proof (iget_scan_spec _ _ _ _ _ _ _ Es) as Hsc. destruct r as [ip|].
  - destruct Hsc as (k & x & -> & Hx & Hr & Hd & Hi). cbn [Nat.add] in *. set (x' := set_i_ref (i_ref x + 1) x). apply runs_modify.
    destruct (itable_locked s (upd_inode k (fun x => set_i_ref (i_ref x + 1) x) (set_syn (acq (syn s) Litable) s)) T (<[k := x']> T) K c ∅ G X) with (e := e) as [Er X'];
      [done|cbn; rewrite HT; by rewrite (list_alter_known _ _ _ _ Hx)|unfold upd_inode; cbn; rewrite HT; by rewrite (list_alter_known _ _ _ _ Hx)|].
    eapply runs_step; [exact Er|]. apply runs_ret. exists (<[k := x']> T), x'. split; [done|]. split; [|split; [|split; [|split]]].
    + apply (itab_keep B c T k x); try done; [unfold x'; cbn; lia|]. intros Hv. exact (f_equal (set_i_ref (i_ref x + 1)) (it_valid _ _ _ Hok k x Hx Hr Hv)).
    + eapply grants_ext; [|apply (grants_update T k x x' Hx); [lia|done]]. intros i. unfold one, x'. cbn. case_decide; lia.
    + apply list_lookup_insert_eq. by eapply lookup_lt_Some.
    + done.
    + unfold x'. cbn. lia.
  - destruct Hsc as [Hno Hem]. destruct em as [ip|].
    2: { destruct Hem as [_ Hall]. by destruct (Hall a y0 Ha). }
    destruct Hem as [?|(k & x & -> & Hx & Hr)]; [done|]. cbn [Nat.add] in *. set (x' := new_entry ROOTDEV inum x). do 4 apply runs_modify.
    match goal with |- runs _ ?t _ _ => destruct (itable_locked s t T (<[k := x']> T) K c ∅ G X) with (e := e) as [Er X'] end;
      [done|..].
    { cbn. rewrite HT. rewrite !list_alter_alter_eq. by rewrite (list_alter_known _ _ _ _ Hx). }
    { unfold upd_inode. cbn. rewrite HT, !list_alter_alter_eq. by rewrite (list_alter_known _ _ _ _ Hx). }
    eapply runs_step; [exact Er|]. apply runs_ret. exists (<[k := x']> T), x'. split; [done|]. split; [|split; [|split; [|split]]].
    + apply (itab_update B c T k x); [done|done|done|]. intros _. split; [done|]. split; [done|]. split; [done|].
      intros jp y Hne Hy Hry. apply (Hno jp y Hy Hry). by apply (it_on _ _ _ Hok jp y).
    + eapply grants_ext; [|apply (grants_update T k x x' Hx); [lia|lia]]. intros i. unfold one, x'. cbn. case_decide; lia.
    + apply list_lookup_insert_eq. by eapply lookup_lt_Some.
    + done.
    + done.
Qed.

Lemma idup_runs s T K c G ip x e :
  fsx s T K c ∅ G -> itab_ok c T -> T !! ip = Some x -> 0 < i_ref x ->
  runs (idup ip) s e (fun r s' => r = ip /\ exists T' x', fsx s' T' K c ∅ G /\ itab_ok c T' /\ grants T T' (one ip) /\
    T' !! ip = Some x' /\ i_inum x' = i_inum x /\ 0 < i_ref x').
Proof.
  intros X Hok Hx Hr. pose proof (fsx_quiet _ _ _ _ _ _ _ _ _ X) as Q. pose proof (fx_itable _ _ _ _ _ _ _ _ _ X) as HT. unfold idup.
  eapply runs_step; [apply quiet_acquire; [done|in_static]|]. set (x' := set_i_ref (i_ref x + 1) x). apply runs_modify.
  match goal with |- runs _ ?t _ _ => destruct (itable_locked s t T (<[ip := x']> T) K c ∅ G X) with (e := e) as [Er X'] end;
    [done|cbn; rewrite HT; by rewrite (list_alter_known _ _ _ _ Hx)|unfold upd_inode; cbn; rewrite HT; by rewrite (list_alter_known _ _ _ _ Hx)|].
  eapply runs_step; [exact Er|]. apply runs_ret. split; [done|]. exists (<[ip := x']> T), x'. split; [done|]. split; [|split; [|split; [|split]]].
  - apply (itab_keep B c T ip x); try done; [unfold x'; cbn; lia|]. intros Hv. exact (f_equal (set_i_ref (i_ref x + 1)) (it_valid _ _ _ Hok ip x Hx Hr Hv)).
  - eapply grants_ext; [|apply (grants_update T ip x x' Hx); [lia|done]]. intros i. unfold one, x'. cbn. case_decide; lia.
  - apply list_lookup_insert_eq. by eapply lookup_lt_Some.
  - done.
  - unfold x'. cbn. lia.
Qed.

(** Giving up a reference that is not the last one to an unlinked inode. *)
Definition drop_ref (ip : nat) : nat -> Z := fun i => if decide (i = ip) then -1 else 0.

Lemma iput_runs s T K c G ip x e :
  fsx s T K c ∅ G -> itab_ok c T -> T !! ip = Some x -> 0 < i_ref x -> i_nlink (dinode_at B c (i_inum x)) <> 0 \/ 1 < i_ref x ->
  runs (iput ip) s e (fun _ s' => exists T', fsx s' T' K c ∅ G /\ itab_ok c T' /\ grants T T' (drop_ref ip)).
Proof.
  intros X Hok Hx Hr Hn. pose proof (fsx_quiet _ _ _ _ _ _ _ _ _ X) as Q. pose proof (fx_itable _ _ _ _ _ _ _ _ _ X) as HT. unfold iput.
  eapply runs_step; [apply quiet_acquire; [done|in_static]|]. set (x' := set_i_ref (i_ref x - 1) x). apply runs_gets.
  unfold get_inode. cbn [itable set_syn]. rewrite HT, Hx. change (default zero_inode (Some x)) with x.
  replace ((i_ref x =? 1) && i_valid x && (i_nlink x =? 0)) with false.
  2: { symmetry. destruct (Z.eqb_spec (i_ref x) 1); [|done]. destruct (i_valid x) eqn:Hv; [|done]. cbn [andb]. apply Z.eqb_neq.
       destruct Hn as [Hn|]; [|lia]. by rewrite <- (it_valid _ _ _ Hok ip x Hx Hr Hv). }
  cbn [when]. eapply runs_step; [reflexivity|]. apply runs_modify.
  match goal with |- runs _ ?t _ _ => destruct (itable_locked s t T (<[ip := x']> T) K c ∅ G X) with (e := e) as [Er X'] end;
    [done|cbn; rewrite HT; by rewrite (list_alter_known _ _ _ _ Hx)|unfold upd_inode; cbn; rewrite HT; by rewrite (list_alter_known _ _ _ _ Hx)|].
  eexists (), _. split; [exact Er|]. exists (<[ip := x']> T). split; [done|]. split.
  - apply (itab_keep B c T ip x); try done; [unfold x'; cbn; lia|]. intros Hv. exact (f_equal (set_i_ref (i_ref x - 1)) (it_valid _ _ _ Hok ip x Hx Hr Hv)).
  - eapply grants_ext; [|apply (grants_update T ip x x' Hx); [lia|done]]. intros i. unfold drop_ref, x'. cbn. case_decide; lia.
Qed.

(** Nobody holds an inode lock. *)
Definition unlocked (K : nat -> sleeplock) : Prop := forall i, sl_locked (K i) = false.

Lemma ilock_runs s T K c G ip x e :
  fsx s T K c ∅ G -> itab_ok c T -> T !! ip = Some x -> 0 < i_ref x -> unlocked K ->
  runs (ilock (Some ip)) s e (fun _ s' => exists T' x', fsx s' T' (lock_taken s0 K ip) c ∅ G /\ itab_ok c T' /\ grants T T' (fun _ => 0) /\
    T' !! ip = Some x' /\ i_inum x' = i_inum x /\ 0 < i_ref x' /\ cached B c x' /\ i_dev x' = ROOTDEV).
Proof.
  intros X Hok Hx Hr Hu. destruct (it_on _ _ _ Hok ip x Hx Hr) as [Hd [Hin Hty]]. pose proof (lookup_lt_Some _ _ _ Hx) as Hlt.
  assert (Hip : (ip < Z.to_nat NINODE)%nat) by (rewrite <- (it_len _ _ _ Hok); done). destruct (i_valid x) eqn:Hv.
  - eapply runs_mono; [apply (ilock_valid_runs B Hg s0 HB s T K c ∅ G ip x e); [done|done|done|lia|done|apply Hu]|]. cbn beta. intros _ s' X'.
    exists T, x. split; [done|]. split; [done|]. split; [apply grants_refl|]. split_and!; try done. by apply (it_valid _ _ _ Hok ip).
  - set (x' := set_i_valid true (with_dinode (dinode_at B c (i_inum x)) x)).
    eapply runs_mono; [apply (ilock_load_runs B Hg s0 HB s T K c ∅ G ip x e);
      [done|done|done|lia|done|apply Hu|done|apply lookup_empty|rewrite map_size_empty; lia|done]|]. cbn beta. fold x'. intros _ s' X'.
    exists (<[ip := x']> T), x'. split; [done|]. split; [by apply (itab_keep B c T ip x); try done; unfold x'; cbn; lia|].
    split; [|split; [by apply list_lookup_insert_eq|done]].
    eapply grants_ext; [|apply (grants_update T ip x x' Hx); [lia|done]]. intros i. unfold x'. cbn. case_decide; lia.
Qed.

Lemma lock_taken_mine K ip : lock_mine s0 (lock_taken s0 K ip) ip.
Proof. unfold lock_mine, lock_taken, relock. by rewrite decide_True. Qed.
Lemma lock_left_unlocked K ip : unlocked K -> unlocked (lock_left (lock_taken s0 K ip) ip).
Proof. intros Hu i. unfold lock_left, lock_taken, relock. case_decide; [done|]. apply Hu. Qed.

Lemma iunlock_back s T K c G ip x e :
  fsx s T (lock_taken s0 K ip) c ∅ G -> itab_ok c T -> T !! ip = Some x -> 0 < i_ref x -> unlocked K ->
  runs (iunlock (Some ip)) s e (fun _ s' => exists K', fsx s' T K' c ∅ G /\ unlocked K').
Proof.
  intros X Hok Hx Hr Hu. pose proof (lookup_lt_Some _ _ _ Hx) as Hlt. rewrite (it_len _ _ _ Hok) in Hlt.
  eapply runs_mono; [apply (iunlock_runs B Hg s0 HB s T (lock_taken s0 K ip) c ∅ G ip x e); [done|done|done|lia|apply lock_taken_mine]|].
  cbn beta. intros _ s' X'. eexists. split; [done|]. by apply lock_left_unlocked.
Qed.

Lemma iunlockput_runs s T K c G ip x e :
  fsx s T (lock_taken s0 K ip) c ∅ G -> itab_ok c T -> T !! ip = Some x -> 0 < i_ref x -> unlocked K ->
  i_nlink (dinode_at B c (i_inum x)) <> 0 \/ 1 < i_ref x ->
  runs (iunlockput ip) s e (fun _ s' => exists T' K', fsx s' T' K' c ∅ G /\ unlocked K' /\ itab_ok c T' /\ grants T T' (drop_ref ip)).
Proof.
  intros X Hok Hx Hr Hu Hn. apply runs_bind. eapply runs_mono; [by apply (iunlock_back s T K c G ip x e)|]. cbn beta. intros _ s1 (K1 & X1 & U1).
  eapply runs_mono; [by apply (iput_runs s1 T K1 c G ip x e)|]. cbn beta. intros _ s2 (T' & X2 & O2 & G2). by exists T', K1.
Qed.

End Refs.

(** ** Looking up a name *)

Section Lookup.
Context {L : Layout} {D : DiskDriver} {DL : DiskLaws} (B : superblock) (Hg : geom B) (s0 : kstate).
Context (T : list inode) (K : nat -> sleeplock) (c : Z -> list Z) (G : gset Z) (dp : nat) (x : inode) (e : env).
Notation fsx := (fsx (sb_logstart B) (sb_nlog B) s0).
Notation des := (dirents (file_bytes c x)).

(** A directory that has been read. *)
Record dir_read : Prop := mkdir_read {
  dr_at : T !! dp = Some x;
  dr_dev : i_dev x = ROOTDEV;
  dr_type : i_type x = T_DIR;
  dr_file : file_ok B c x;
  dr_size : i_size x mod DIRENT_SIZE = 0;
  dr_bytes : Forall byte_ok (file_bytes c x)
}.
Hypothesis (R : dir_read).

Lemma dir_length : length (file_bytes c x) = Z.to_nat (i_size x) /\ (length (file_bytes c x) mod 16 = 0)%nat /\ 0 <= i_size x <= 274432.
Proof using R.
  clear K. pose proof (fo_size _ _ _ (dr_file R)) as Hs. assert (Hl : length (file_bytes c x) = Z.to_nat (i_size x)) by apply length_bytes.
  split; [done|]. split; [|exact Hs]. rewrite Hl. pose proof (dr_size R) as Hm. change DIRENT_SIZE with 16 in Hm.
  pose proof (Z2Nat.inj_mod (i_size x) 16 ltac:(lia) ltac:(lia)) as E. rewrite Hm in E. symmetry. exact E.
Qed.

(** Reading an entry into a local variable. *)
Lemma read_dirent s i : fsx s T K c ∅ G -> (16 * i < length (file_bytes c x))%nat ->
  runs (readi dp LocalDst (DIRENT_SIZE * Z.of_nat i) DIRENT_SIZE) s e
    (fun r s' => r = (DIRENT_SIZE, slice (file_bytes c x) (16 * i) 16) /\ fsx s' T K c ∅ G).
Proof.
  intros X Hi. destruct dir_length as (Hl & Hm & Hs). destruct R as [H1 H2 H3 H4 H5 H6]. change DIRENT_SIZE with 16 in *.
  assert (Hfit : 16 * Z.of_nat i + 16 <= i_size x).
  { pose proof (Nat.div_mod (length (file_bytes c x)) 16 ltac:(done)). lia. }
  eapply runs_mono; [apply (readi_runs B Hg LocalDst (fun _ m => m = mem s0) (fun _ => False) T K dp c x G e s0 s); try done; try lia; by apply sink_local|].
  cbn beta. intros r s' (m & X' & [[-> ->]|[_ []]]). rewrite set_mem_id in X'. split; [|done].
  unfold read_at. rewrite Z.min_l by lia. f_equal. symmetry. etrans; [|apply slice_file_bytes]; [|lia..]. f_equal; lia.
Qed.

Context (name : list Z) (Hname : Forall byte_ok name) (Q : option (nat * Z) -> kstate -> Prop).

(** Where the search ends: the name is missing, or its entry has been read. *)
Definition looked (r : option (Z * Z)) : Prop := forall s', fsx s' T K c ∅ G ->
  match r with
  | None => Q None s'
  | Some (inum, off) => runs (ip ← iget ROOTDEV inum; mret (Some (ip, off))) s' e Q
  end.

Lemma is_entry_code de : Forall byte_ok de ->
  is_entry (fname name) de = negb (de_inum de =? 0) && (namecmp name (de_name de) =? 0).
Proof.
  intros Hde. unfold is_entry. f_equal. assert (Hb : Forall byte_ok (de_name de)) by (by apply Forall_drop).
  destruct (Z.eqb_spec (namecmp name (de_name de)) 0) as [E|E]; [apply bool_decide_eq_true|apply bool_decide_eq_false].
  - symmetry. by apply namecmp_fname.
  - intros E'. by apply E, namecmp_fname.
Qed.

Lemma dirlookup_loop_runs k : forall i s, fsx s T K c ∅ G -> (i <= length des)%nat -> (length des - i < k)%nat ->
  looked (dir_find (fname name) (drop i des) (DIRENT_SIZE * Z.of_nat i)) -> runs (dirlookup_loop k dp name (DIRENT_SIZE * Z.of_nat i)) s e Q.
Proof.
  destruct dir_length as (Hl & Hm & Hs). pose proof (length_dirents (file_bytes c x)) as Hld. pose proof (Nat.div_mod (length (file_bytes c x)) 16 ltac:(done)) as Hdm.
  induction k as [|k IH]; intros i s X Hi Hk HQ; [lia|]. cbn [dirlookup_loop]. eapply wp_inodeget; [exact X|apply R|].
  destruct (Z.ltb_spec (DIRENT_SIZE * Z.of_nat i) (i_size x)) as [Hlt|Hge]; cbn [negb]; change DIRENT_SIZE with 16 in Hk |- *.
  2: { apply runs_ret. change DIRENT_SIZE with 16 in Hge. rewrite drop_ge in HQ by lia. by apply HQ. }
  change DIRENT_SIZE with 16 in Hlt. apply runs_bind. eapply runs_mono; [apply (read_dirent s i X); lia|]. cbn beta. intros r s1 [-> X1].
  change DIRENT_SIZE with 16. change (16 =? 16) with true. cbn [negb]. set (de := slice _ _ _).
  rewrite drop_dirents in HQ by lia. fold de in HQ. cbn [dir_find] in HQ.
  rewrite is_entry_code in HQ by (apply Forall_take, Forall_drop, R).
  assert (Hnext : 16 * Z.of_nat i + 16 = 16 * Z.of_nat (S i)) by lia.
  destruct (de_inum de =? 0) eqn:E0; cbn [negb andb] in HQ.
  - rewrite Hnext. apply IH; [done|lia|lia|]. change DIRENT_SIZE with 16 in *. by rewrite <- Hnext.
  - destruct (namecmp name (de_name de) =? 0).
    + eapply wp_inodeget; [exact X1|apply R|]. rewrite (dr_dev R). by apply HQ.
    + rewrite Hnext. apply IH; [done|lia|lia|]. change DIRENT_SIZE with 16 in *. by rewrite <- Hnext.
Qed.

Lemma dirlookup_runs s : fsx s T K c ∅ G -> looked (dir_find (fname name) des 0) -> runs (dirlookup dp name) s e Q.
Proof.
  intros X HQ. destruct dir_length as (Hl & Hm & Hs). unfold dirlookup. eapply wp_inodeget; [exact X|apply R|].
  rewrite (dr_type R), Z.eqb_refl. cbn [negb]. apply (dirlookup_loop_runs _ 0%nat s X); [lia| |done].
  rewrite length_dirents, Hl. change DIRENT_SIZE with 16. pose proof (Z.div_pos (i_size x) 16 ltac:(lia) ltac:(done)).
  rewrite Z2Nat.inj_add by lia. rewrite Z2Nat.inj_div by lia. change (Z.to_nat 16) with 16%nat. lia.
Qed.

End Lookup.

(** ** Following a path *)

Section Tree.
Context (B : superblock).
Implicit Types (c : Z -> list Z).

(** An inode that directories may name. *)
Definition linked c (i : Z) : Prop := live_inum B c i /\ i_nlink (dinode_at B c i) <> 0.

(** The names in the directory of inode [i]. *)
Definition dir_of c (i : Z) : list (list Z) := dirents (file_bytes c (dinode_at B c i)).

(** Directories consist of whole entries, which name linked inodes. *)
Record tree_ok c : Prop := mktree {
  tr_inv : fs_inv B c;
  tr_size : forall i, linked c i -> i_type (dinode_at B c i) = T_DIR -> i_size (dinode_at B c i) mod DIRENT_SIZE = 0;
  tr_bytes : forall i, linked c i -> i_type (dinode_at B c i) = T_DIR -> Forall byte_ok (file_bytes c (dinode_at B c i));
  tr_entry : forall i de, linked c i -> i_type (dinode_at B c i) = T_DIR -> de ∈ dir_of c i -> de_inum de <> 0 -> linked c (de_inum de)
}.

(** The inode that the elements [es] lead to from inode [i]; with [par], the directory
    of the last element. *)
Fixpoint resolve c (par : bool) (i : Z) (es : list (list Z)) : option Z :=
  match es with
  | [] => if par then None else Some i
  | nm :: es' =>
      if i_type (dinode_at B c i) =? T_DIR then
        if par && bool_decide (es' = []) then Some i
        else match dir_find nm (dir_of c i) 0 with
             | Some (j, _) => resolve c par j es'
             | None => None
             end
      else None
  end.

Lemma cached_dinode c x : cached B c x -> i_type x = i_type (dinode_at B c (i_inum x)) /\ i_size x = i_size (dinode_at B c (i_inum x)) /\
  i_addrs x = i_addrs (dinode_at B c (i_inum x)).
Proof. unfold cached. intros E. split_and!; by rewrite <- E at 1. Qed.

Lemma linked_dir_read c T dp x : tree_ok c -> T !! dp = Some x -> cached B c x -> linked c (i_inum x) -> i_dev x = ROOTDEV -> i_type x = T_DIR ->
  dir_read B T c dp x /\ dirents (file_bytes c x) = dir_of c (i_inum x).
Proof.
  intros Ht Hx Hc Hl Hd Hty. destruct (cached_dinode c x Hc) as (E1 & E2 & E3). rewrite E1 in Hty.
  assert (Hb : file_bytes c x = file_bytes c (dinode_at B c (i_inum x))) by (by apply file_bytes_same).
  split; [|unfold dir_of; by rewrite Hb]. split; try done; [congruence| | |].
  - apply (file_ok_same B c (dinode_at B c (i_inum x))); [done|done|]. apply Ht, Hl.
  - rewrite E2. by apply (tr_size _ Ht).
  - rewrite Hb. by apply (tr_bytes _ Ht).
Qed.

End Tree.

Section Namex.
Context {L : Layout} {D : DiskDriver} {DL : DiskLaws} (B : superblock) (Hg : geom B).
Context (s0 : kstate) (HB : sb s0 = B) (c : Z -> list Z) (Ht : tree_ok B c) (G : gset Z) (T0 : list inode) (e : env).
Notation fsx := (fsx (sb_logstart B) (sb_nlog B) s0).
Notation itab_ok := (itab_ok B c).

(** Two entries of the table are free. *)
Definition two_free (T : list inode) : Prop := exists a b x y, a <> b /\ T !! a = Some x /\ T !! b = Some y /\ i_ref x = 0 /\ i_ref y = 0.
Hypothesis (Hfree : two_free T0).

(** The walk holds one reference, to the entry [ip] of inode [i]. *)
Record at_inode s T K (ip : nat) (i : Z) : Prop := mkat {
  ai_fsx : fsx s T K c ∅ G;
  ai_tab : itab_ok T;
  ai_unlocked : unlocked K;
  ai_refs : grants T0 T (one ip);
  ai_entry : exists x, T !! ip = Some x /\ i_inum x = i /\ 0 < i_ref x
}.

(** What the walk leaves: a reference to the inode it found, or none. *)
Definition walked (par : bool) (es : list (list Z)) (o : option Z) (r : option nat * list Z) (s : kstate) : Prop :=
  exists T K, match o with
  | Some i => exists ip, r.1 = Some ip /\ at_inode s T K ip i /\ (par = true -> last es = Some (fname r.2) /\ Forall byte_ok r.2)
  | None => r.1 = None /\ fsx s T K c ∅ G /\ itab_ok T /\ unlocked K /\ grants T0 T (fun _ => 0)
  end.

Lemma grants_length (T T' : list inode) a : itab_ok T -> itab_ok T' -> forall x, T !! a = Some x -> exists x', T' !! a = Some x'.
Proof. intros H1 H2 x Hx. apply lookup_lt_is_Some. rewrite (it_len _ _ _ H2), <- (it_len _ _ _ H1). by eapply lookup_lt_Some. Qed.

(** One of the free entries is still free. *)
Lemma still_free T ip : itab_ok T0 -> itab_ok T -> grants T0 T (one ip) -> exists a y, T !! a = Some y /\ i_ref y = 0.
Proof.
  intros Hok0 Hok [Hr _]. destruct Hfree as (a & b & x & y & Hne & Ha & Hb & Hx & Hy).
  assert (Hf : forall j z, T0 !! j = Some z -> i_ref z = 0 -> j <> ip -> exists a y, T !! a = Some y /\ i_ref y = 0).
  { intros j z Hj Hz Hn. destruct (grants_length T0 T j Hok0 Hok z Hj) as [z' Hz']. exists j, z'. split; [done|].
    specialize (Hr j). rewrite (refat_lookup _ _ _ Hj), (refat_lookup _ _ _ Hz') in Hr. unfold one in Hr. rewrite decide_False in Hr by done. lia. }
  destruct (decide (a = ip)) as [->|Hn]; [|by apply (Hf a x)]. apply (Hf b y); auto.
Qed.

Hypothesis (Hok0 : itab_ok T0).

Lemma refat_nonneg T i : itab_ok T -> 0 <= refat T i.
Proof. intros Hok. unfold refat. destruct (T !! i) as [x|] eqn:E; [by apply (it_ref _ _ _ Hok i)|done]. Qed.

Lemma one_nonneg ip i : 0 <= one ip i.
Proof. unfold one. by case_decide. Qed.

(** An inode locked by the walk. *)
Record at_locked s T K (ip : nat) x : Prop := mkat_locked {
  al_fsx : fsx s T (lock_taken s0 K ip) c ∅ G;
  al_tab : itab_ok T;
  al_unlocked : unlocked K;
  al_refs : grants T0 T (one ip);
  al_entry : T !! ip = Some x;
  al_ref : 0 < i_ref x;
  al_cached : cached B c x;
  al_dev : i_dev x = ROOTDEV
}.

Lemma walk_lock s T K ip i : at_inode s T K ip i -> runs (ilock (Some ip)) s e (fun _ s' => exists T' x, at_locked s' T' K ip x /\ i_inum x = i).
Proof.
  intros [X Hok Hu Hgr (x & Hx & Hi & Hr)]. eapply runs_mono; [by apply (ilock_runs B Hg s0 HB s T K c G ip x e)|].
  cbn beta. intros _ s1 (T1 & x1 & X1 & O1 & G1 & E1 & I1 & R1 & C1 & D1). exists T1, x1. split; [|congruence]. split; try done.
  eapply grants_ext; [|by apply (grants_trans T0 T T1 _ _ Hgr G1 (one_nonneg ip))]. intros j. cbn. lia.
Qed.

(** The walk gives up: its inode is unlocked and its reference dropped. *)
Lemma walk_give_up s T K ip x par es name : at_locked s T K ip x -> linked B c (i_inum x) ->
  runs (iunlockput ip;; mret (None, name)) s e (walked par es None).
Proof.
  intros [X Hok Hu Hgr Hx Hr Hc Hd] [_ Hn]. apply runs_bind. eapply runs_mono; [apply (iunlockput_runs B Hg s0 HB s T K c G ip x e); auto|].
  cbn beta. intros _ s1 (T1 & K1 & X1 & U1 & O1 & G1). apply runs_ret. exists T1, K1. split_and!; try done.
  eapply grants_ext; [|by apply (grants_trans T0 T T1 _ _ Hgr G1 (one_nonneg ip))]. intros j. unfold one, drop_ref. cbn. case_decide; lia.
Qed.

(** The walk goes on to the inode [j] of an entry. *)
Lemma walk_next s T K ip x j (off : Z) (k : nat -> M (option nat * list Z)) Q :
  at_locked s T K ip x -> linked B c (i_inum x) -> linked B c j ->
  (forall next s' T' K', at_inode s' T' K' next j -> runs (k next) s' e Q) ->
  runs (next ← iget ROOTDEV j; mret (Some (next, off))) s e (fun r s' => exists next : nat, r = Some (next, off) /\ runs (iunlockput ip;; k next) s' e Q).
Proof.
  intros [X Hok Hu Hgr Hx Hr Hc Hd] [_ Hn] [Hl Hjn] Hk. apply runs_bind.
  eapply runs_mono; [apply (iget_runs B s0 s T _ c G j e X Hok Hl); by apply (still_free T ip)|].
  cbn beta. intros next s1 (T1 & y & X1 & O1 & G1 & Hy & Hyi & Hyr). apply runs_ret. exists next. split; [done|].
  destruct (gr_id _ _ _ G1 ip x Hx Hr) as (x1 & Hx1 & Hi1 & _).
  { rewrite (gr_ref _ _ _ G1), (refat_lookup _ _ _ Hx). pose proof (one_nonneg next ip). lia. }
  assert (Hr1 : 0 < i_ref x1).
  { rewrite <- (refat_lookup _ _ _ Hx1), (gr_ref _ _ _ G1), (refat_lookup _ _ _ Hx). pose proof (one_nonneg next ip). lia. }
  apply runs_bind. eapply runs_mono; [apply (iunlockput_runs B Hg s0 HB s1 T1 K c G ip x1 e); try done; left; by rewrite Hi1|].
  cbn beta. intros _ s2 (T2 & K2 & X2 & U2 & O2 & G2).
  pose proof (grants_trans T0 T T1 _ _ Hgr G1 (one_nonneg ip)) as Ga.
  pose proof (grants_trans T0 T1 T2 _ _ Ga G2 ltac:(intros i; pose proof (one_nonneg ip i); pose proof (one_nonneg next i); lia)) as Gb.
  assert (Gc : grants T0 T2 (one next)) by (eapply grants_ext; [|exact Gb]; intros i; unfold one, drop_ref; cbn; do 2 case_decide; lia).
  assert (Hpos : 0 < refat T2 next).
  { rewrite (gr_ref _ _ _ Gc). unfold one. rewrite decide_True by done. pose proof (refat_nonneg T0 next Hok0). lia. }
  apply (Hk next s2 T2 K2). split; try done. destruct (gr_id _ _ _ G2 next y Hy Hyr Hpos) as (z & Hz & Hzi & _).
  exists z. split; [done|]. split; [congruence|]. by rewrite <- (refat_lookup _ _ _ Hz).
Qed.

(** The end of the path: with [par] there is no last element to return. *)
Lemma walk_end s T K ip i par name : at_inode s T K ip i -> linked B c i ->
  runs (if par : bool then iput ip;; mret (None, name) else mret (Some ip, name)) s e (walked par [] (if par then None else Some i)).
Proof.
  intros A [_ Hn]. destruct par.
  - destruct A as [X Hok Hu Hgr (x & Hx & <- & Hr)]. apply runs_bind. eapply runs_mono; [apply (iput_runs B s0 s T K c G ip x e); auto|].
    cbn beta. intros _ s1 (T1 & X1 & O1 & G1). apply runs_ret. exists T1, K. split_and!; try done.
    eapply grants_ext; [|by apply (grants_trans T0 T T1 _ _ Hgr G1 (one_nonneg ip))]. intros j. unfold one, drop_ref. cbn. case_decide; lia.
  - apply runs_ret. exists T, K. exists ip. by split_and!.
Qed.

(** The directory of the last element is found. *)
Lemma walk_parent s T K ip x name : at_locked s T K ip x -> Forall byte_ok name ->
  runs (iunlock (Some ip);; mret (Some ip, name)) s e (walked true [fname name] (Some (i_inum x))).
Proof.
  intros [X Hok Hu Hgr Hx Hr Hc Hd] Hn. apply runs_bind. eapply runs_mono; [by apply (iunlock_back B Hg s0 HB s T K c G ip x e)|].
  cbn beta. intros _ s1 (K1 & X1 & U1). apply runs_ret. exists T, K1. exists ip. split; [done|]. split; [|done]. split; try done. by exists x.
Qed.

Lemma walked_more par nm es o r s : es <> [] -> walked par es o r s -> walked par (nm :: es) o r s.
Proof.
  intros Hne (T & K & H). exists T, K. destruct o; [|done]. destruct H as (ip & H1 & H2 & H3). exists ip. split_and!; try done.
  intros Hp. destruct (H3 Hp) as [H4 H5]. split; [|done]. by destruct es.
Qed.

Lemma namex_loop_runs par k : forall s T K ip i path name, at_inode s T K ip i -> linked B c i -> Forall byte_ok path -> Forall byte_ok name ->
  (length path < k)%nat -> runs (namex_loop k ip path par name) s e (walked par (path_elems path) (resolve B c par i (path_elems path))).
Proof.
  induction k as [|k IH]; intros s T K ip i path name A Hl Hp Hn Hk; [lia|]. cbn [namex_loop].
  destruct (skipelem path name) as [[path' name']|] eqn:E; [|rewrite (skipelem_none _ _ E); by eapply walk_end].
  destruct (skipelem_some _ _ _ _ E Hp Hn) as (-> & Hlen & Hs & Hp' & Hn'). cbn [resolve]. apply runs_bind.
  eapply runs_mono; [by eapply walk_lock|]. cbn beta. intros _ s1 (T1 & x & A1 & <-).
  pose proof (al_fsx _ _ _ _ _ A1) as X1. pose proof (al_entry _ _ _ _ _ A1) as Hx. pose proof (al_cached _ _ _ _ _ A1) as Hc.
  destruct (cached_dinode B c x Hc) as (Ety & _ & _). eapply wp_inodeget; [exact X1|exact Hx|]. rewrite <- Ety.
  destruct (Z.eqb_spec (i_type x) T_DIR) as [Hty|Hty]; cbn [negb]; [|by eapply walk_give_up].
  destruct (linked_dir_read B c T1 ip x Ht Hx Hc Hl (al_dev _ _ _ _ _ A1) Hty) as [R Hdes].
  assert (Hend : (ch path' =? 0) = bool_decide (path_elems path' = [])).
  { destruct (Z.eqb_spec (ch path') 0); symmetry; [apply bool_decide_eq_true|apply bool_decide_eq_false]; by rewrite elems_nil. }
  rewrite Hend. destruct (par && bool_decide (path_elems path' = [])) eqn:Epar.
  { apply andb_true_iff in Epar as [-> Ees%bool_decide_eq_true]. rewrite Ees. by eapply walk_parent. }
  apply runs_bind. eapply (dirlookup_runs B Hg s0 T1 _ c G ip x e R name' Hn'); [exact X1|]. rewrite Hdes. intros s2 X2.
  assert (A2 : at_locked s2 T1 K ip x) by (by destruct A1; split).
  destruct (dir_find (fname name') (dir_of B c (i_inum x)) 0) as [[j off]|] eqn:Ef; [|by eapply walk_give_up].
  destruct (dir_find_in _ _ _ _ _ Ef) as (de & Hde & Hj & Hj0 & _).
  assert (Hlj : linked B c j) by (rewrite <- Hj; apply (tr_entry _ _ Ht (i_inum x)); congruence || done).
  eapply runs_mono; [apply (walk_next s2 T1 K ip x j off (fun next => namex_loop k next path' par name') (walked par (fname name' :: path_elems path') (resolve B c par j (path_elems path'))) A2 Hl Hlj)|].
  2: { cbn beta. by intros r s3 (next & -> & Hr). }
  intros next s3 T3 K3 A3. eapply runs_mono; [apply (IH s3 T3 K3 next j path' name' A3); try done; lia|]. intros r s4 W.
  destruct (decide (path_elems path' = [])) as [Ees|Ees]; [|by apply walked_more].
  destruct par; [by rewrite Ees in Epar|]. rewrite Ees in W |- *. destruct W as (T' & K' & W). exists T', K'. cbn [resolve] in *.
  destruct W as (ip' & H1 & H2 & _). by exists ip'.
Qed.

(** Where a path starts: at the root, or at the directory of the process. *)
Definition starts_at (path : list Z) (i : Z) : Prop :=
  (ch path = SLASH /\ i = ROOTINO) \/
  (ch path <> SLASH /\ exists cwd x, p_cwd (get_proc s0 (cur s0)) = Some cwd /\ T0 !! cwd = Some x /\ 0 < i_ref x /\ i_inum x = i).

Lemma namex_runs par s K path i : fsx s T0 K c ∅ G -> unlocked K -> starts_at path i -> linked B c i -> Forall byte_ok path ->
  runs (namex path par) s e (walked par (path_elems path) (resolve B c par i (path_elems path))).
Proof.
  intros X Hu Hst Hl Hp. unfold namex. change (chr "/") with SLASH. apply runs_bind.
  assert (Hrest : forall ip s', (exists T x, fsx s' T K c ∅ G /\ itab_ok T /\ grants T0 T (one ip) /\ T !! ip = Some x /\ i_inum x = i /\ 0 < i_ref x) ->
    runs (namex_loop (S (length path)) ip path par (replicate (Z.to_nat DIRSIZ) 0)) s' e (walked par (path_elems path) (resolve B c par i (path_elems path)))).
  { intros ip s' (T & x & X' & O' & G' & H'). apply (namex_loop_runs par _ s' T K); try done; [split; try done; by exists x| |lia].
    apply Forall_replicate. unfold byte_ok. lia. }
  destruct Hst as [[Hc ->]|(Hc & cwd & x & Hcwd & Hx & Hr & Hi)].
  - rewrite Hc, Z.eqb_refl. eapply runs_mono; [apply (iget_runs B s0 s T0 K c G ROOTINO e X Hok0); [apply Hl|]|exact Hrest].
    destruct Hfree as (a & _ & y & _ & _ & Ha & _ & Hy & _). by exists a, y.
  - rewrite (proj2 (Z.eqb_neq _ _)) by done. pose proof (fsx_quiet _ _ _ _ _ _ _ _ _ X) as Q. pose proof (fk_kq _ _ (fx_keep _ _ _ _ _ _ _ _ _ X)) as Kq.
    eapply runs_step; [apply myproc_run; by apply quiet_wf|]. pose proof (thread_ok_cur s (quiet_thread _ Q)) as Hcur.
    rewrite Hcur. cbn [deref]. apply runs_bind, runs_ret, runs_gets. cbv beta.
    change (get_proc (set_syn (touch (syn s)) s) (cur s)) with (get_proc s (cur s)).
    assert (Hcwd' : p_cwd (get_proc s (cur s)) = Some cwd).
    { rewrite (kq_cur _ _ Kq), <- Hcwd. exact (f_equal p_cwd (kq_proc _ _ (cur s0) Kq)). }
    rewrite Hcwd'. cbn [deref]. apply runs_bind, runs_ret.
    eapply runs_mono; [apply (idup_runs B s0 _ T0 K c G cwd x e); try done|].
    + eapply fsx_other; [exact X|split; [done|by right|done]|done..| |]; [apply X|]. intros j. apply X.
    + cbn beta. intros r s' (-> & T & x' & H). apply Hrest. exists T, x'. by rewrite Hi in H.
Qed.

End Namex.
