(* ===== verification/DirLink.v ===== *)
(** * kernel/fs.c: adding a name to a directory

    [dirlink]: the search for the name, the search for a free entry, and the write. *)

From stdpp Require Import base gmap strings numbers list.
From Stdlib Require Import Ascii.
From S2P Require Import Prelude KState Sample StringC Spinlock Sched Sleeplock Quiet Uart Printf Bio BufCache BufRefine Log LogDisk BufWp LogRun LogSafe LogOps Transaction FsWp Fs FsBlocks FsInode FsFile FsData FsOps FileRw FsDir.

(** ** Entries *)

(** The first free entry, or the end. *)
Fixpoint free_slot (des : list (list Z)) : nat :=
  match des with
  | [] => 0
  | de :: des' => if de_inum de =? 0 then 0 else S (free_slot des')
  end.

(** The entry for [name]: the name in DIRSIZ characters, filled up with zeros. *)
Definition link_entry (inum : Z) (name : list Z) : list Z :=
  le_bytes 2 inum ++ fname name ++ replicate (Z.to_nat DIRSIZ - length (fname name)) 0.

(** The directory with [de] at [k]. *)
Definition put_entry (des : list (list Z)) (k : nat) (de : list Z) : list (list Z) := take k des ++ de :: drop (S k) des.

Lemma put_entry_in des k e de : de ∈ put_entry des k e -> de = e \/ de ∈ des.
Proof.
  intros [Hde|[->|Hde]%elem_of_cons]%elem_of_app; [right|by left|right].
  - rewrite <- (take_drop k des). apply elem_of_app. by left.
  - rewrite <- (take_drop (S k) des). apply elem_of_app. by right.
Qed.

Lemma free_slot_le des : (free_slot des <= length des)%nat.
Proof. induction des as [|de des IH]; cbn; [lia|]. destruct (de_inum de =? 0); lia. Qed.

Lemma free_slot_free des de : des !! free_slot des = Some de -> de_inum de = 0.
Proof. induction des as [|d des IH]; [done|]. cbn [free_slot]. destruct (Z.eqb_spec (de_inum d) 0) as [E|E]; [by intros [= <-]|exact IH]. Qed.

Lemma length_fname name : (length (fname name) <= Z.to_nat DIRSIZ)%nat.
Proof. unfold fname. rewrite length_take. lia. Qed.

Lemma length_link_entry inum name : length (link_entry inum name) = 16%nat.
Proof. unfold link_entry. pose proof (length_fname name). rewrite !length_app, length_le_bytes, length_replicate. change (Z.to_nat DIRSIZ) with 14%nat in *. lia. Qed.

(** The code's entry, whatever was in the variable before. *)
Lemma link_entry_code inum de name : length de = 16%nat -> le_bytes 2 inum ++ strncpy (de_name de) name DIRSIZ = link_entry inum name.
Proof.
  intros Hl. unfold link_entry, strncpy, de_name, fname. rewrite strncpy_loop_spec by (rewrite length_drop, Hl; done).
  rewrite (drop_ge (drop 2 de)) by (rewrite length_drop, Hl; done). by rewrite app_nil_r.
Qed.

Lemma link_entry_inum inum name : 0 <= inum < 2 ^ 16 -> de_inum (link_entry inum name) = inum.
Proof. intros Hi. unfold de_inum, link_entry. rewrite get_le_here. by apply Z.mod_small. Qed.

Lemma link_entry_fname inum name : fname (de_name (link_entry inum name)) = fname name.
Proof.
  unfold de_name, link_entry. rewrite drop_app_length' by (by rewrite length_le_bytes).
  assert (Hz : Forall (fun c => c <> 0) (fname name)) by (apply Forall_take, cstr_nonzero). pose proof (length_fname name).
  unfold fname at 1. rewrite cstr_app by done. replace (cstr (replicate _ 0)) with (@nil Z) by (by destruct (Z.to_nat DIRSIZ - _)%nat).
  rewrite app_nil_r. by apply take_ge.
Qed.

Lemma dirents_splice bs de : (length bs mod 16 = 0)%nat -> length de = 16%nat -> forall k, (k <= length bs / 16)%nat ->
  dirents (splice bs (16 * k) de) = put_entry (dirents bs) k de.
Proof.
  intros Hm Hd k Hk. pose proof (Nat.div_mod (length bs) 16 ltac:(done)) as Hdm. set (n := (length bs / 16)%nat) in *. unfold put_entry.
  pose proof (length_dirents bs) as Hld. fold n in Hld.
  assert (Hls : length (splice bs (16 * k) de) = (16 * (n `max` S k))%nat).
  { unfold splice. rewrite !length_app, length_take, length_drop, Hd. lia. }
  assert (Hn' : (length (splice bs (16 * k) de) / 16 = n `max` S k)%nat) by (rewrite Hls, Nat.mul_comm; by apply Nat.div_mul).
  apply list_eq. intros i. rewrite lookup_dirents, Hn'. destruct (decide (i < k)%nat) as [Hik|Hik]; [|destruct (decide (i = k)) as [->|Hne]].
  - rewrite decide_True by lia. rewrite lookup_app_l by (rewrite length_take; lia). rewrite lookup_take_lt, lookup_dirents by lia. fold n.
    rewrite decide_True by lia. f_equal. unfold splice. rewrite slice_app_l by (rewrite length_take; lia). unfold slice.
    rewrite take_drop_commute, take_take. rewrite take_drop_commute. do 2 f_equal. lia.
  - rewrite decide_True by lia. rewrite lookup_app_r by (rewrite length_take; lia). rewrite length_take, Hld. replace (k - k `min` n)%nat with 0%nat by lia. cbn [lookup list_lookup].
    f_equal. unfold splice. assert (Hlt : length (take (16 * k) bs) = (16 * k)%nat) by (rewrite length_take; lia).
    pose proof (slice_app_r (take (16 * k) bs) (de ++ drop (16 * k + length de) bs) 0 16) as E.
    rewrite Hlt, Nat.add_0_r in E. rewrite E. unfold slice. rewrite drop_0. by apply take_app_length'.
  - rewrite lookup_app_r by (rewrite length_take; lia). rewrite length_take, Hld. replace (i - k `min` n)%nat with (S (i - S k))%nat by lia.
    change ((de :: drop (S k) (dirents bs)) !! S (i - S k)) with (drop (S k) (dirents bs) !! (i - S k)%nat).
    rewrite lookup_drop, lookup_dirents. fold n. replace (S k + (i - S k))%nat with i by lia.
    destruct (decide (i < n)%nat); [rewrite decide_True by lia|by rewrite decide_False by lia]. f_equal. unfold splice.
    assert (Hlt : length (take (16 * k) bs ++ de) = (16 * S k)%nat) by (rewrite length_app, length_take; lia). rewrite app_assoc.
    replace (16 * i)%nat with (length (take (16 * k) bs ++ de) + 16 * (i - S k))%nat by lia. rewrite slice_app_r. unfold slice.
    rewrite drop_drop. do 2 f_equal. lia.
Qed.

(** The names of the directory with the entry added. *)
Lemma dir_find_put des inum name nm : 0 < inum < 2 ^ 16 -> dir_find (fname name) des 0 = None -> let k := free_slot des in
  dir_find nm (put_entry des k (link_entry inum name)) 0 =
    if decide (nm = fname name) then Some (inum, DIRENT_SIZE * Z.of_nat k) else dir_find nm des 0.
Proof.
  intros Hi Hno k. pose proof (free_slot_le des) as Hk. fold k in Hk. unfold put_entry. rewrite dir_find_app, length_take_le by done. cbn [dir_find].
  assert (Hold : forall nm off, dir_find nm (drop k des) off = dir_find nm (drop (S k) des) (off + DIRENT_SIZE)).
  { intros nm' off. destruct (des !! k) as [de|] eqn:Ek.
    - rewrite (drop_S _ _ _ Ek). cbn [dir_find]. unfold is_entry. by rewrite (free_slot_free des de Ek).
    - apply lookup_ge_None in Ek. by rewrite !drop_ge by lia. }
  assert (He : is_entry nm (link_entry inum name) = bool_decide (nm = fname name)).
  { unfold is_entry. rewrite link_entry_inum, link_entry_fname by lia. rewrite (proj2 (Z.eqb_neq _ _)) by lia. cbn [negb andb].
    apply bool_decide_ext. split; congruence. }
  assert (Hdes : forall nm, dir_find nm des 0 = match dir_find nm (take k des) 0 with Some r => Some r | None => dir_find nm (drop k des) (0 + DIRENT_SIZE * Z.of_nat k) end).
  { intros nm'. rewrite <- (take_drop k des) at 1. by rewrite dir_find_app, length_take_le. }
  rewrite He, link_entry_inum by lia. rewrite Hdes in Hno |- *.
  destruct (decide (nm = fname name)) as [->|Hne].
  - rewrite bool_decide_true by done. by destruct (dir_find (fname name) (take k des) 0).
  - rewrite bool_decide_false by done. by rewrite Hold.
Qed.

(** ** The run *)

Section Link.
Context {L : Layout} {D : DiskDriver} {DL : DiskLaws} (B : superblock) (Hg : geom B) (s0 : kstate).
Context (HB : sb s0 = B) (Hpan : panicked s0 = false) (Hopen : l_outstanding (klog s0) = 1).
Context (T : list inode) (K : nat -> sleeplock) (c : Z -> list Z) (G : gset Z) (dp : nat) (x : inode) (e : env).
Notation fsx := (fsx (sb_logstart B) (sb_nlog B) s0).
Notation des := (dirents (file_bytes c x)).
Hypothesis (R : dir_read B T c dp x).

Lemma dirlink_scan_runs k : forall i s de, fsx s T K c ∅ G -> (i <= length des)%nat -> (length des - i < k)%nat -> length de = 16%nat ->
  runs (dirlink_scan k dp (DIRENT_SIZE * Z.of_nat i) de) s e (fun r s' => fsx s' T K c ∅ G /\
    exists de', r = (DIRENT_SIZE * Z.of_nat (i + free_slot (drop i des)), de') /\ length de' = 16%nat).
Proof using R Hg.
  destruct (dir_length B T c dp x R) as (Hl & Hm & Hs). pose proof (length_dirents (file_bytes c x)) as Hld.
  pose proof (Nat.div_mod (length (file_bytes c x)) 16 ltac:(done)) as Hdm.
  induction k as [|k IH]; intros i s de X Hi Hk Hde; [lia|]. cbn [dirlink_scan]. eapply wp_inodeget; [exact X|apply R|].
  destruct (Z.ltb_spec (DIRENT_SIZE * Z.of_nat i) (i_size x)) as [Hlt|Hge]; cbn [negb].
  2: { apply runs_ret. split; [done|]. change DIRENT_SIZE with 16 in Hge. exists de. rewrite drop_ge by lia. cbn [free_slot]. by rewrite Nat.add_0_r. }
  change DIRENT_SIZE with 16 in Hlt. apply runs_bind. eapply runs_mono; [apply (read_dirent B Hg s0 T K c G dp x e R s i X); lia|].
  cbn beta. intros r s1 [-> X1]. change (DIRENT_SIZE =? DIRENT_SIZE) with true. cbn [negb]. set (d := slice _ _ _).
  assert (Hd : length d = 16%nat) by (apply length_slice; lia). rewrite drop_dirents by lia. fold d. cbn [free_slot].
  destruct (de_inum d =? 0) eqn:E0.
  - apply runs_ret. split; [done|]. exists d. by rewrite Nat.add_0_r.
  - replace (DIRENT_SIZE * Z.of_nat i + DIRENT_SIZE) with (DIRENT_SIZE * Z.of_nat (S i)) by (change DIRENT_SIZE with 16; lia).
    eapply runs_mono; [apply (IH (S i) s1 d X1); lia|]. cbn beta. intros r s2 (X2 & de' & Hr & Hl'). split; [done|]. exists de'.
    replace (i + S (free_slot (drop (S i) des)))%nat with (S i + free_slot (drop (S i) des))%nat by lia. done.
Qed.

Lemma nblk_entry k : 0 <= k -> nblk (DIRENT_SIZE * k) DIRENT_SIZE = 1%nat.
Proof using.
  clear. intros Hk. unfold nblk. change (DIRENT_SIZE <=? 0) with false. cbn iota. change DIRENT_SIZE with 16. change BSIZE with 1024.
  pose proof (Z.div_mod (16 * k) 1024 ltac:(done)). pose proof (Z.mod_pos_bound (16 * k) 1024 ltac:(done)).
  pose proof (Z.div_mod (16 * k + 16 - 1) 1024 ltac:(done)). pose proof (Z.mod_pos_bound (16 * k + 16 - 1) 1024 ltac:(done)). lia.
Qed.

Hypothesis (Hon : inode_on B x) (Hmeta : meta_used B c) (Hbm : bitmap_in B G) (Hib : IBLOCK (i_inum x) B ∈ G) (Hbud : budget B 1 G x).
Hypothesis (Hok : itab_ok B c T) (Hfree : exists a y, T !! a = Some y /\ i_ref y = 0).
Hypothesis (Hent : forall de, de ∈ des -> de_inum de <> 0 -> linked B c (de_inum de)).
Context (name : list Z) (inum : Z) (Hname : Forall byte_ok name) (Hinum : 0 < inum < 2 ^ 16).
Notation slot := (free_slot des).

(** The directory with the new entry: the name leads to [inum], the other names lead
    where they did; nothing else on the disk is touched but free blocks, the bitmap and
    the inode of the directory. *)
Record link_added c' x' G' : Prop := mklink_added {
  la_file : file_ok B c' x';
  la_evolves : exists c1, evolves B c x c1 x' /\ c' = set_dinode B c1 (i_inum x) x';
  la_inode : x' = set_i_size (Z.max (i_size x) (DIRENT_SIZE * Z.of_nat slot + DIRENT_SIZE)) (set_i_addrs (i_addrs x') x);
  la_entries : dirents (file_bytes c' x') = put_entry des slot (link_entry inum name);
  la_bytes : file_bytes c' x' = splice (file_bytes c x) (16 * slot) (link_entry inum name);
  la_logged : G ⊆ G'
}.

(** No room: the directory has its largest size, or no block of the disk is free. *)
Inductive link_full s' : Prop :=
| link_size : fsx s' T K c ∅ G -> i_size x = MAXFILE * BSIZE -> link_full s'
| link_disk c' x' G' c1 : fsx s' (<[dp := x']> T) K c' ∅ G' -> G ⊆ G' -> file_ok B c' x' -> full B c' -> evolves B c x c1 x' -> c' = set_dinode B c1 (i_inum x) x' ->
    x' = set_i_addrs (i_addrs x') x -> file_bytes c' x' = file_bytes c x -> link_full s'.

Definition link_post (r : Z) (s' : kstate) : Prop :=
  match dir_find (fname name) des 0 with
  | Some _ => r = -1 /\ exists T', fsx s' T' K c ∅ G /\ itab_ok B c T' /\ grants T T' (fun _ => 0)
  | None => (r = -1 /\ link_full s') \/ (r = 0 /\ exists c' x' G', fsx s' (<[dp := x']> T) K c' ∅ G' /\ link_added c' x' G')
  end.

Lemma write_entry s : fsx s T K c ∅ G ->
  runs (r ← writei dp (LocalSrc (link_entry inum name)) (DIRENT_SIZE * Z.of_nat slot) DIRENT_SIZE;
        if negb (r =? DIRENT_SIZE) then mret (-1) else mret 0) s e
    (fun r s' => (r = -1 /\ link_full s') \/ (r = 0 /\ exists c' x' G', fsx s' (<[dp := x']> T) K c' ∅ G' /\ link_added c' x' G')).
Proof using R Hg HB Hpan Hopen Hon Hmeta Hbm Hib Hbud Hinum.
  clear Hent Hfree Hname. intros X. destruct (dir_length B T c dp x R) as (Hl & Hm & Hs). pose proof (Nat.div_mod (length (file_bytes c x)) 16 ltac:(done)) as Hdm.
  pose proof (free_slot_le des) as Hk. rewrite length_dirents in Hk. pose proof (length_link_entry inum name) as Hle.
  set (off := DIRENT_SIZE * Z.of_nat slot). assert (Ho : off = 16 * Z.of_nat slot) by done.
  apply runs_bind. destruct (Z.le_gt_cases (off + DIRENT_SIZE) (MAXFILE * BSIZE)) as [Hmax|Hmax].
  2: { unfold writei. eapply wp_inodeget; [exact X|apply R|]. change DIRENT_SIZE with 16 in *. change (MAXFILE * BSIZE) with 274432 in *. unfold u32. rewrite Z.mod_small by lia.
       rewrite !(proj2 (Z.ltb_ge _ _)) by lia. rewrite (proj2 (Z.ltb_lt 274432 (off + 16))) by lia. cbn [orb]. apply runs_ret. change (-1 =? 16) with false. cbn [negb].
       apply runs_ret. left. split; [done|]. apply link_size; [done|]. change (MAXFILE * BSIZE) with 274432. lia. }
  assert (Hsrc : source s0 (LocalSrc (link_entry inum name)) (link_entry inum name) e) by apply source_local.
  replace DIRENT_SIZE with (Z.of_nat (length (link_entry inum name))) at 1 by (by rewrite Hle).
  eapply runs_mono; [apply (writei_runs B Hg s0 HB Hpan Hopen T K dp c x G off (LocalSrc (link_entry inum name)) (link_entry inum name) e s X); try done; try apply R|].
  - rewrite Hle. change (Z.of_nat 16) with DIRENT_SIZE. unfold off. by rewrite nblk_entry by lia.
  - change (MAXFILE * BSIZE) with 274432 in *. lia.
  - by rewrite Hle.
  - cbn beta. intros r s' (c1 & x' & G' & X' & HG & F' & Hev & Hr & Hfu & Hx' & Hby). cbv zeta in *. rewrite Hle in Hr, Hfu. change (Z.of_nat 16) with 16 in *.
    destruct (Z.eqb_spec r DIRENT_SIZE) as [->|Hne]; cbn [negb]; apply runs_ret; [right|left]; (split; [done|]).
    + exists (set_dinode B c1 (i_inum x) x'), x', G'. split; [done|]. rewrite take_ge in Hby by (by rewrite Hle).
      replace (Z.to_nat off) with (16 * slot)%nat in Hby by lia. split; try done; [by exists c1|]. rewrite Hby. by apply dirents_splice.
    + change DIRENT_SIZE with 16 in *. destruct (Hfu ltac:(lia)) as [Hful Hbt]. assert (r = 0) as ->.
      { destruct Hbt as [?|Hbt]; [done|]. change BSIZE with 1024 in Hbt. pose proof (Z.div_mod (off + r) 1024 ltac:(done)). lia. }
      eapply (link_disk s' _ x' G' c1); try done.
      * rewrite Hx' at 1. unfold sized. rewrite Z.max_l by lia. by destruct x.
      * rewrite Hby. change (take (Z.to_nat 0) (link_entry inum name)) with (@nil Z). unfold splice. cbn [length app]. rewrite Nat.add_0_r. apply take_drop.
Qed.

Lemma dirlink_runs s : fsx s T K c ∅ G -> runs (dirlink dp name inum) s e link_post.
Proof.
  intros X. unfold dirlink. apply runs_bind. eapply (dirlookup_runs B Hg s0 T K c G dp x e R name Hname); [exact X|]. intros s1 X1. unfold link_post.
  destruct (dir_find (fname name) des 0) as [[j off]|] eqn:Ef.
  - destruct (dir_find_in _ _ _ _ _ Ef) as (de & Hde & <- & Hj0 & _). destruct (Hent de Hde Hj0) as [Hl Hn]. apply runs_bind.
    eapply runs_mono; [by apply (iget_runs B s0 s1 T K c G _ e X1 Hok)|]. cbn beta. intros ip s2 (T2 & y & X2 & O2 & G2 & Hy & Hyi & Hyr). apply runs_ret.
    apply runs_bind. eapply runs_mono; [apply (iput_runs B s0 s2 T2 K c G ip y e X2 O2 Hy Hyr); left; by rewrite Hyi|].
    cbn beta. intros _ s3 (T3 & X3 & O3 & G3). apply runs_ret. split; [done|]. exists T3. split_and!; try done.
    eapply grants_ext; [|apply (grants_trans _ _ _ _ _ G2 G3 (one_nonneg ip))]. intros i. unfold one, drop_ref. cbn. case_decide; lia.
  - eapply wp_inodeget; [exact X1|apply R|]. apply runs_bind.
    destruct (dir_length B T c dp x R) as (Hl & Hm & Hs). pose proof (Z.div_pos (i_size x) 16 ltac:(lia) ltac:(done)).
    eapply runs_mono; [apply (dirlink_scan_runs (Z.to_nat (i_size x / DIRENT_SIZE + 2)) 0 s1 (replicate (Z.to_nat DIRENT_SIZE) 0) X1); [lia| |done]|].
    { rewrite length_dirents, Hl. change DIRENT_SIZE with 16. rewrite Z2Nat.inj_add, Z2Nat.inj_div by lia. change (Z.to_nat 16) with 16%nat. lia. }
    cbn beta. intros r s2 (X2 & de & -> & Hlde). rewrite drop_0, Nat.add_0_l. cbv zeta. rewrite link_entry_code by done. by apply write_entry.
Qed.

End Link.
