(* ===== verification/TreeUpd.v ===== *)
(** * Changes of the directory tree

    One inode of the disk is rewritten: what that does to the other inodes, to the
    inode table and to the paths. *)

From stdpp Require Import base gmap strings numbers list.
From Stdlib Require Import Ascii.
From S2P Require Import Prelude KState Sample StringC Spinlock Sched Sleeplock Quiet Uart Printf Bio BufCache BufRefine Log LogDisk BufWp LogRun LogSafe LogOps Transaction FsWp Fs FsBlocks FsInode FsFile FsData FsOps FileRw FsDir.

(** ** Paths *)

Section Paths.
Context (B : superblock) (c : Z -> list Z) (Ht : tree_ok B c).

(** The directory that [nameiparent] finds is the one in which [namei] looks last. *)
Lemma resolve_parent es : forall i d, resolve B c true i es = Some d -> exists nm, last es = Some nm /\ i_type (dinode_at B c d) = T_DIR /\
  resolve B c false i es = match dir_find nm (dir_of B c d) 0 with Some (k, _) => Some k | None => None end.
Proof using.
  clear Ht. induction es as [|nm es IH]; intros i d; cbn [resolve]; [done|]. destruct (Z.eqb_spec (i_type (dinode_at B c i)) T_DIR) as [E|E]; [|done].
  cbn [andb]. case_bool_decide as Hes.
  - subst es. intros [= <-]. exists nm. by split_and!.
  - destruct (dir_find nm (dir_of B c i) 0) as [[j off]|]; [|done]. intros (nm' & H1 & H2 & H3)%IH. exists nm'. split_and!; [|done|done]. by destruct es.
Qed.

Lemma resolve_linked par es : forall i k, linked B c i -> resolve B c par i es = Some k -> linked B c k.
Proof using Ht.
  induction es as [|nm es IH]; intros i k Hl; cbn [resolve]; [destruct par; [done|by intros [= <-]]|].
  destruct (Z.eqb_spec (i_type (dinode_at B c i)) T_DIR) as [E|E]; [|done]. destruct (par && _); [by intros [= <-]|].
  destruct (dir_find nm (dir_of B c i) 0) as [[j off]|] eqn:Ef; [|done]. apply IH. destruct (dir_find_in _ _ _ _ _ Ef) as (de & Hde & <- & Hj & _).
  by apply (tr_entry _ _ Ht i).
Qed.

(** A tree in which every name leads where it did. *)
Lemma resolve_mono c' par es : (forall i, linked B c i -> i_type (dinode_at B c i) = T_DIR -> i_type (dinode_at B c' i) = T_DIR /\
    forall nm r, dir_find nm (dir_of B c i) 0 = Some r -> dir_find nm (dir_of B c' i) 0 = Some r) ->
  forall i k, linked B c i -> resolve B c par i es = Some k -> resolve B c' par i es = Some k.
Proof using Ht.
  intros H. induction es as [|nm es IH]; intros i k Hl; cbn [resolve]; [done|].
  destruct (Z.eqb_spec (i_type (dinode_at B c i)) T_DIR) as [E|E]; [|done]. destruct (H i Hl E) as [-> Hf]. rewrite Z.eqb_refl.
  destruct (par && _); [done|]. destruct (dir_find nm (dir_of B c i) 0) as [[j off]|] eqn:Ef; [|done]. rewrite (Hf nm _ Ef). apply IH.
  destruct (dir_find_in _ _ _ _ _ Ef) as (de & Hde & <- & Hj & _). by apply (tr_entry _ _ Ht i).
Qed.

(** The same directories have the same paths. *)
Lemma resolve_same c' par es : (forall i, linked B c i -> i_type (dinode_at B c' i) = i_type (dinode_at B c i) /\
    (i_type (dinode_at B c i) = T_DIR -> dir_of B c' i = dir_of B c i)) ->
  forall i, linked B c i -> resolve B c' par i es = resolve B c par i es.
Proof using Ht.
  intros H. induction es as [|nm es IH]; intros i Hl; cbn [resolve]; [done|]. destruct (H i Hl) as [-> Hd].
  destruct (Z.eqb_spec (i_type (dinode_at B c i)) T_DIR) as [E|E]; [|done]. rewrite (Hd E). destruct (par && _); [done|].
  destruct (dir_find nm (dir_of B c i) 0) as [[j off]|] eqn:Ef; [|done]. apply IH. destruct (dir_find_in _ _ _ _ _ Ef) as (de & Hde & <- & Hj & _).
  by apply (tr_entry _ _ Ht i).
Qed.

End Paths.

(** ** One inode rewritten *)

Section Change.
Context (B : superblock) (Hg : geom B) (c c1 : Z -> list Z) (x x' : inode).
Notation i := (i_inum x).
Notation c' := (set_dinode B c1 i x').
Hypothesis (Ht : tree_ok B c) (Hl : linked B c i) (Hc : cached B c x) (Hev : evolves B c x c1 x') (F' : file_ok B c1 x').
Hypothesis (Hok : block_ok (c1 (IBLOCK i B))) (Hd : dinode_ok x') (Hty : i_type x' = i_type x) (Hnl : i_nlink x' <> 0).

Lemma chg_type : i_type x' <> 0.
Proof using Hc Hl Hty. rewrite Hty, (proj1 (cached_dinode B c x Hc)). apply Hl. Qed.

Lemma chg_addrs : i_addrs (dinode_at B c i) = i_addrs x.
Proof using Hc. symmetry. apply (cached_dinode B c x Hc). Qed.

Lemma chg_dinode j : is_inum B j -> dinode_at B c' j = if decide (j = i) then with_dinode x' zero_inode else dinode_at B c j.
Proof using Hg Hl Hev Hok Hd. apply (update_dinode B Hg c c1 i x x'); try done. apply Hl. Qed.

Lemma chg_live j : live_inum B c' j <-> live_inum B c j.
Proof.
  pose proof chg_type. pose proof Hl as [[Hi Ht0] _]. unfold live_inum. split; intros [Hj Hjt]; (split; [done|]); rewrite chg_dinode in * by done; by destruct (decide (j = i)) as [->|].
Qed.

Lemma chg_linked j : linked B c' j <-> linked B c j.
Proof.
  unfold linked. rewrite chg_live. pose proof Hl as [_ Hn]. split; intros [Hj Hjn]; (split; [done|]); rewrite chg_dinode in * by apply Hj; by destruct (decide (j = i)) as [->|].
Qed.

Lemma chg_inv : fs_inv B c'.
Proof. apply (update_inv B Hg c c1 i x x'); try done; first [apply Ht|apply Hl|apply chg_addrs|apply chg_type]. Qed.

Lemma chg_other j : live_inum B c j -> j <> i -> dinode_at B c' j = dinode_at B c j /\ file_bytes c' (dinode_at B c' j) = file_bytes c (dinode_at B c j).
Proof.
  intros Hj Hne. rewrite chg_dinode, decide_False by (done || apply Hj). split; [done|].
  destruct (update_other B Hg c c1 i x x') with (j := j) as (_ & Hb & _); try done; first [apply Ht|apply Hl|apply chg_addrs|apply chg_type].
Qed.

Lemma chg_self : dinode_at B c' i = with_dinode x' zero_inode /\ file_bytes c' (dinode_at B c' i) = file_bytes c' x'.
Proof.
  pose proof Hl as [[Hi _] _]. rewrite chg_dinode, decide_True by done. split; [done|]. by apply file_bytes_same.
Qed.

(** A file that is not a directory, or a directory with whole entries for linked inodes. *)
Lemma chg_tree :
  (i_type x = T_DIR -> i_size x' mod DIRENT_SIZE = 0 /\ Forall byte_ok (file_bytes c' x') /\
    forall de, de ∈ dirents (file_bytes c' x') -> de_inum de <> 0 -> linked B c (de_inum de)) -> tree_ok B c'.
Proof.
  intros Hdir. destruct chg_self as [E1 E2]. assert (Hcase : forall j, linked B c' j -> i_type (dinode_at B c' j) = T_DIR ->
    (j = i /\ i_type x = T_DIR) \/ (j <> i /\ linked B c j /\ i_type (dinode_at B c j) = T_DIR)).
  { intros j Hj Hjt. apply chg_linked in Hj. destruct (decide (j = i)) as [->|Hne]; [left; split; [done|]; rewrite E1 in Hjt; by rewrite <- Hty|].
    right. destruct (chg_other j (proj1 Hj) Hne) as [Ej _]. by rewrite Ej in Hjt. }
  split; [apply chg_inv|..]; intros j.
  - intros Hj Hjt. destruct (Hcase j Hj Hjt) as [[-> Hx]|(Hne & Hlj & Hdj)]; [rewrite E1; by apply Hdir|].
    rewrite (proj1 (chg_other j (proj1 Hlj) Hne)). by apply (tr_size _ _ Ht).
  - intros Hj Hjt. destruct (Hcase j Hj Hjt) as [[-> Hx]|(Hne & Hlj & Hdj)]; [rewrite E2; by apply Hdir|].
    rewrite (proj2 (chg_other j (proj1 Hlj) Hne)). by apply (tr_bytes _ _ Ht).
  - intros de Hj Hjt Hde Hz. apply chg_linked. unfold dir_of in Hde. destruct (Hcase j Hj Hjt) as [[-> Hx]|(Hne & Hlj & Hdj)]; [rewrite E2 in Hde; by apply Hdir|].
    rewrite (proj2 (chg_other j (proj1 Hlj) Hne)) in Hde. by apply (tr_entry _ _ Ht j).
Qed.

(** The table, with the entry of the inode changed as on the disk. *)
Lemma chg_itab T ip : itab_ok B c T -> T !! ip = Some x -> 0 < i_ref x -> i_ref x' = i_ref x -> i_dev x' = i_dev x -> i_inum x' = i ->
  itab_ok B c' (<[ip := x']> T).
Proof.
  intros [H1 H2 H3 H4 H5] Hx Hr Er Ed Ei. pose proof (lookup_lt_Some _ _ _ Hx) as Hlt.
  assert (Hlk : forall jp y, <[ip := x']> T !! jp = Some y -> 0 < i_ref y -> (jp = ip /\ y = x') \/ (jp <> ip /\ T !! jp = Some y /\ i_inum y <> i)).
  { intros jp y. destruct (decide (jp = ip)) as [->|E]; [rewrite list_lookup_insert_eq by done; intros [= <-]; by left|].
    rewrite list_lookup_insert_ne by done. intros Hy Hry. right. split_and!; try done. intros Ey. by apply E, (H5 jp ip y x). }
  split.
  - by rewrite length_insert.
  - intros jp y. destruct (decide (jp = ip)) as [->|E]; [rewrite list_lookup_insert_eq by done; intros [= <-]; lia|].
    rewrite list_lookup_insert_ne by done. apply H2.
  - intros jp y Hy Hry. destruct (Hlk jp y Hy Hry) as [[-> ->]|(E & Hy' & Hne)].
    + rewrite Ed, Ei. split; [by apply (H3 ip x)|]. apply chg_live. apply Hl.
    + destruct (H3 jp y Hy' Hry) as [? ?]. split; [done|]. by apply chg_live.
  - intros jp y Hy Hry Hv. destruct (Hlk jp y Hy Hry) as [[-> ->]|(E & Hy' & Hne)]; unfold cached.
    + rewrite Ei, (proj1 chg_self). by destruct x'.
    + destruct (H3 jp y Hy' Hry) as [_ Hlv]. rewrite (proj1 (chg_other _ Hlv Hne)). by apply (H4 jp).
  - intros jp kp y z Hy Hz Hry Hrz Eyz. destruct (Hlk jp y Hy Hry) as [[-> ->]|(E & Hy' & Hne)], (Hlk kp z Hz Hrz) as [[-> ->]|(E' & Hz' & Hne')]; try done; try congruence.
    by apply (H5 jp kp y z).
Qed.

End Change.
