(* ===== verification/Mount.v ===== *)
(** * kernel/fs.c, kernel/log.c: mounting a file system

    [fsinit] on a disk that holds a file system: the superblock is read, the log is
    recovered, and the files are those of the disk with its committed transaction
    installed.  Then [fsinit] on the disk that [mkfs] made. *)

From stdpp Require Import base gmap strings numbers list.
From Stdlib Require Import Ascii.
From S2P Require Import Prelude KState Sample StringC Spinlock Sched Sleeplock Quiet Uart Printf Bio BufCache BufRefine Log LogDisk BufWp LogRun LogSafe LogOps Transaction FsWp Fs FsBlocks FsInode FsFile FsData FsOps FsSample Mkfs MkfsOk File FileRw.

(** What [readsb] makes of block 1. *)
Definition sb_read (d : list Z) : superblock :=
  let w i := get_le d (4 * i) 4 in
  mksuperblock (w 0%nat) (w 1%nat) (w 2%nat) (w 3%nat) (w 4%nat) (w 5%nat) (w 6%nat) (w 7%nat).

Section Mount.
Context {D : DiskDriver} {DL : DiskLaws}.
Implicit Types (t : kstate) (d : diskst).

(** The kernel before it mounts: nothing is cached, nothing is logged. *)
Record unmounted t : Prop := mkunmounted {
  um_brep : brep t ∅;
  um_out : l_outstanding (klog t) = 0;
  um_comm : l_committing (klog t) = false;
  um_len : length (lh_block (klog t)) = Z.to_nat LOGSIZE;
  um_panic : panicked t = false
}.

Lemma brep_set_sb t L v : brep t L -> brep (set_sb v t) L.
Proof. intros H. apply (brep_keep t); [done| |done..]. split; auto. Qed.

Lemma readsb_runs t e (Q : unit -> kstate -> Prop) : brep t ∅ ->
  (forall t', cst (set_sb (sb_read (dblock (disk t) 1)) t) t' (klog t) ∅ (disk t) -> Q () t') ->
  runs (readsb ROOTDEV) t e Q.
Proof.
  intros R HQ. unfold readsb. eapply (wp_bread t); [by apply cst_start|vm_compute; lia|done|].
  intros i s1 C1 _. rewrite get_live_fresh in C1 by done. set (x := mklive i 1 true (dblock (disk t) 1)) in *. change i with (lv_buf x).
  eapply wp_bdata; [exact C1|apply lookup_insert_eq|]. cbv zeta. fold (sb_read (lv_data x)). change (lv_data x) with (dblock (disk t) 1).
  set (v := sb_read _) in *. apply runs_modify. apply runs_last.
  assert (C2 : cst (set_sb v t) (set_sb v s1) (klog t) (<[1 := x]> ∅) (disk t)).
  { destruct C1 as [R1 D1 L1 [K1 I1 S1 N1]]. split; [by apply brep_set_sb|done|done|]. split; [|done|done|done]. by destruct K1; split. }
  eapply wp_brelse; [exact C2|apply lookup_insert_eq|done|done|]. intros s3 C3. apply runs_ret, HQ.
  unfold x in C3. by rewrite put_live_fresh in C3.
Qed.

Section On.
Context (B : superblock) (Hg : geom B).

(** A disk with a file system: its files are those of the view with the committed
    transaction of the log, if there is one, installed. *)
Record fs_disk d : Prop := mkfs_disk {
  fd_sb : sb_read (dblock d 1) = B;
  fd_magic : sb_magic B = FSMAGIC;
  fd_log : logged (sb_logstart B) (sb_nlog B) d;
  fd_inv : fs_inv B (logical (sb_logstart B) d)
}.

(** What mounting leaves alone: memory, processes and open files. *)
Definition boot_keeps t t' : Prop := fixed t' = fixed t /\ cur t' = cur t /\ pcore <$> procs t' = pcore <$> procs t.

Lemma fsinit_runs t e : unmounted t -> fs_disk (disk t) -> let c := logical (sb_logstart B) (disk t) in
  runs (fsinit ROOTDEV) t e (fun _ t' => fs_ready B t' /\ (itable t' = itable t /\ (forall i, get_slock t' (SLinode i) = get_slock t (SLinode i)) /\ boot_keeps t t') /\ forall b, home B b -> dblock (disk t') b = c b).
Proof.
  intros [R Ho Hc Hlen Hp] [Hsb Hm Hlog Hinv] c. unfold fsinit. apply runs_bind, readsb_runs; [done|]. rewrite Hsb. intros t1 [R1 D1 L1 F1].
  assert (Hsb1 : sb t1 = B) by apply F1. assert (Hp1 : panicked t1 = false) by (rewrite (kq_panic _ _ (fr_kq _ _ F1)); done).
  apply runs_gets. rewrite Hsb1, Hm. cbn [negb]. rewrite Z.eqb_refl. cbn [negb].
  eapply runs_mono; [apply (initlog_state (sb_logstart B) (sb_nlog B) t1 (disk t)); [|done]|].
  { split; [done|done|by rewrite Hsb1|by rewrite L1]. }
  intros _ t' (blocks & Hbl & [R2 D2 L2 F2]). destruct (recovery_done _ _ _ Hlog) as (H1 & H2 & H3). rewrite <- D2 in H1, H2, H3.
  assert (Hag : forall b, home B b -> dblock (disk t') b = c b).
  { intros b [_ Hb]. apply H3. intros ->. apply Hb. pose proof (lg_start _ _ _ Hlog). unfold in_log. lia. }
  assert (Hl2 : klog t' = mounted_log t1 blocks) by done. unfold mounted_log in Hl2. rewrite Hsb1, L1 in Hl2.
  assert (Kq : boot_keeps t t').
  { pose proof (fr_kq _ _ F1) as K1. pose proof (fr_kq _ _ F2) as K2. split_and!.
    - rewrite (kq_fixed _ _ K2). exact (kq_fixed _ _ K1).
    - rewrite (kq_cur _ _ K2). exact (kq_cur _ _ K1).
    - rewrite (kq_procs _ _ K2). exact (kq_procs _ _ K1). }
  split; [|split; [split_and!; [rewrite (fr_itable _ _ F2); apply F1|intros i; rewrite (fr_inode _ _ F2); apply F1|exact Kq]|done]]. split.
  - split; rewrite ?Hl2; done.
  - rewrite (fr_sb _ _ F2). done.
  - rewrite (kq_panic _ _ (fr_kq _ _ F2)). done.
  - by apply (agree_inv B Hg c).
Qed.

(** C10 mounting recovers the files.  On a disk with a superblock, a log and, once the
    transaction committed to the log is installed, well-formed files, [fsinit] returns
    without a panic; the file system is ready for use, and each file has the contents it
    has with that transaction. *)
Theorem fsinit_mounts t e : unmounted t -> fs_disk (disk t) -> let c := logical (sb_logstart B) (disk t) in
  exists t', fsinit ROOTDEV t e = Ok () t' e /\ fs_ready B t' /\
    forall i, (live_inum B (dblock (disk t')) i <-> live_inum B c i) /\
      (live_inum B c i -> dinode_at B (dblock (disk t')) i = dinode_at B c i /\ contents B t' i = file_bytes c (dinode_at B c i)).
Proof using Hg.
  intros U Fd c. destruct (fsinit_runs t e U Fd) as ([] & t' & Hrun & R & _ & Hag). exists t'. split; [done|]. split; [done|].
  intros i. split; [by apply (agree_live B Hg c)|]. apply (agree_contents B Hg c _ Hag), Fd.
Qed.

End On.
End Mount.

(** ** The disk that mkfs made *)

Lemma sb_block_read : sb_read sb_block = mk_sb.
Proof. vm_compute. reflexivity. Qed.

Lemma image_disk m fs ws : image_of m fs -> fs_disk mk_sb (mkdisk (fs_blk m) ws) /\ forall b, logical (sb_logstart mk_sb) (mkdisk (fs_blk m) ws) b = blk m b.
Proof.
  intros I. set (d := mkdisk (fs_blk m) ws). change (blk m) with (dblock d) in *. 
  assert (Hz : dblock d (sb_logstart mk_sb) = zero_block) by (by apply (io_log _ _ I)).
  assert (Hh : hdr_list (dblock d (sb_logstart mk_sb)) = []) by (rewrite Hz; vm_compute; reflexivity).
  assert (Hlog : forall b, logical (sb_logstart mk_sb) d b = dblock d b) by (intros b; apply logical_out; unfold dlog; rewrite Hh; apply not_elem_of_nil).
  split; [|done]. split.
  - etrans; [|apply sb_block_read]. f_equal. apply (io_sb _ _ I).
  - done.
  - split; [apply (io_ok _ _ I)|done|by rewrite Hz|]. rewrite Hh. split; [cbn; lia|done|apply NoDup_nil_2|done].
  - apply (agree_inv mk_sb mk_geom (dblock d)); [done|]. apply (io_inv _ _ I).
Qed.

Lemma image_blocks host prog img args m :
  Forall (arg_ok host) args -> Z.of_nat (length args) <= 198 -> (Z.of_nat (length args) + 2) mod 64 <> 0 ->
  nmeta + total ((T_DIR, root_dir args) :: MkfsOk.stored host args) <= FSSIZE ->
  main host (prog :: img :: args) true = MOk () m -> forall b, block_ok (blk m b).
Proof.
  intros H1 H2 H3 H4 Hm. destruct (mkfs_built host args H1 H2 H3 H4) as ([] & m' & Hm' & I). 
  rewrite main_mkfs, Hm' in Hm. injection Hm as <-. exact (io_ok _ _ I).
Qed.

Section Boot.
Context {D : DiskDriver} {DL : DiskLaws}.

(** C6 from the build to the running kernel.  Given files that can be read, with names
    that fit a directory entry and contents that fit a file, at most 198 of them, small
    enough together, and not so many that the entries end at a block boundary, [mkfs]
    returns.  Its image has the superblock, an empty log, a bitmap that marks exactly the
    blocks handed out, and well-formed files that share no block.  On a disk with that
    image [fsinit] returns and the file system is ready: inode 1 is a directory that
    holds [.], [..] and the entries of the files, and inode [k + 2] is a file with the
    bytes of the [k]-th file of the command line. *)
Theorem mkfs_mounts host prog img args :
  Forall (arg_ok host) args -> Z.of_nat (length args) <= 198 -> (Z.of_nat (length args) + 2) mod 64 <> 0 ->
  nmeta + total ((T_DIR, root_dir args) :: MkfsOk.stored host args) <= FSSIZE ->
  exists m, main host (prog :: img :: args) true = MOk () m /\
    image_of m ((T_DIR, padded (root_dir args)) :: MkfsOk.stored host args) /\ forall ws t e, unmounted t -> disk t = mkdisk (fs_blk m) ws ->
    exists t', fsinit ROOTDEV t e = Ok () t' e /\ fs_ready mk_sb t' /\
      forall k ty bs, ((T_DIR, padded (root_dir args)) :: MkfsOk.stored host args) !! k = Some (ty, bs) ->
        i_type (dinode_at mk_sb (dblock (disk t')) (Z.of_nat k + 1)) = ty /\ contents mk_sb t' (Z.of_nat k + 1) = bs.
Proof.
  intros H1 H2 H3 H4. destruct (mkfs_built host args H1 H2 H3 H4) as ([] & m & Hm & I). exists m. split; [by rewrite main_mkfs|]. split; [exact I|].
  intros ws t e U Ht. destruct (image_disk m _ ws I) as [Fd Hc]. rewrite <- Ht in Fd, Hc.
  destruct (fsinit_runs mk_sb mk_geom t e U Fd) as ([] & t' & Hrun & R & _ & Hag). exists t'. split; [done|]. split; [done|].
  intros k ty bs Hk. destruct (io_file _ _ I k ty bs Hk) as (Hl & F1 & F2 & F3 & F4).
  assert (Hag' : forall b, home mk_sb b -> dblock (disk t') b = blk m b) by (intros b Hb; rewrite Hag by done; apply Hc).
  destruct (agree_contents mk_sb mk_geom _ _ Hag' (Z.of_nat k + 1) (io_inv _ _ I) Hl) as [E1 E2]. unfold contents. rewrite E2, E1. split; [exact F1|exact F4].
Qed.

End Boot.

(** ** Witnesses *)

(** The machine stopped after the commit of a transaction that wrote the block of the
    inodes, and before its installation. *)
Definition inode_block : list Z := dblock sample_disk 32.
Definition crashed_disk : diskst :=
  mkdisk (<[2 := put_le (put_le zero_block 0 4 1) 4 4 32]> (<[3 := inode_block]> (delete 32 sample_blocks))) [].
Definition unmounted_state (d : diskst) : kstate := set_disk d sample_idle.

Lemma unmounted_quiet d : quiet (unmounted_state d).
Proof.
  destruct sample_quiet as (Ht & Hn & Hp & Hl). split_and!; [|exact Hn|exact Hp|exact Hl].
  apply (thread_ok_keep sample_state); [exact Ht|by right|reflexivity].
Qed.

Lemma unmounted_sample d : (forall b, block_ok (dblock d b)) -> @unmounted ram_driver ram_laws (unmounted_state d).
Proof.
  intros Hd. split; [|reflexivity..]. split; [apply unmounted_quiet|exact I|reflexivity| |].
  - exists (rev (seq 0 HEAD)). split; [by rewrite <- Permutation_rev|]. 
    unfold links, ring, linked. apply (bool_decide_unpack _). vm_compute. exact I.
  - apply empty_tab; [|apply Hd]. intros i Hi.
    do 30 (destruct i as [|i]; [split; reflexivity|]). unfold HEAD in Hi. vm_compute in Hi. lia.
Qed.

Lemma mkfs_mounts_witness :
  exists m, main sample_host (zstr "mkfs" :: zstr "fs.img" :: sample_args) true = MOk () m /\
    exists t', @fsinit ram_driver ROOTDEV (unmounted_state (mkdisk (fs_blk m) [])) [] = Ok () t' [] /\ @fs_ready ram_driver ram_laws mk_sb t' /\
      contents mk_sb t' 2 = zstr "hello world".
Proof.
  destruct (@mkfs_mounts ram_driver ram_laws sample_host (zstr "mkfs") (zstr "fs.img") sample_args) as (m & Hm & _ & H);
    [exact sample_args_ok|done|done|exact sample_room|].
  exists m. split; [exact Hm|]. destruct (H [] (unmounted_state (mkdisk (fs_blk m) [])) []) as (t' & H1 & H2 & H3); [|reflexivity|].
  - apply unmounted_sample. apply (image_blocks _ _ _ _ _ sample_args_ok ltac:(done) ltac:(done) sample_room Hm).
  - exists t'. split; [exact H1|]. split; [exact H2|]. apply (H3 1%nat T_FILE (zstr "hello world")). reflexivity.
Defined.

Lemma crashed_block b : dblock crashed_disk b =
  if decide (b = 2) then put_le (put_le zero_block 0 4 1) 4 4 32
  else if decide (b = 3) then inode_block else if decide (b = 32) then zero_block else dblock sample_disk b.
Proof.
  unfold dblock at 1, crashed_disk. cbn [d_blocks]. destruct (decide (b = 2)) as [->|H2]; [by rewrite lookup_insert_eq|rewrite lookup_insert_ne by done].
  destruct (decide (b = 3)) as [->|H3]; [by rewrite lookup_insert_eq|rewrite lookup_insert_ne by done].
  destruct (decide (b = 32)) as [->|H32]; [by rewrite lookup_delete_eq|by rewrite lookup_delete_ne].
Qed.

Lemma crashed_head : hdr_list (dblock crashed_disk (sb_logstart mk_sb)) = [32].
Proof. vm_compute. reflexivity. Qed.

Lemma crashed_view b : home mk_sb b -> logical (sb_logstart mk_sb) crashed_disk b = dblock sample_disk b.
Proof.
  intros [_ Hb]. pose proof crashed_head as Hh. change (sb_logstart mk_sb) with 2 in *. change (sb_nlog mk_sb) with 30 in *. unfold in_log in Hb.
  destruct (decide (b = 32)) as [->|Hne].
  - apply logical_in; [rewrite dlog_fst, Hh; apply NoDup_singleton|]. unfold dlog. rewrite Hh. apply list_elem_of_singleton. unfold LogDisk.entry. by rewrite crashed_block.
  - rewrite logical_out; [|rewrite dlog_fst, Hh; by rewrite list_elem_of_singleton]. rewrite crashed_block.
    by rewrite (decide_False (P := b = 2)), (decide_False (P := b = 3)), (decide_False (P := b = 32)) by (done || lia).
Qed.

Lemma crashed_fs : fs_disk mk_sb crashed_disk.
Proof.
  split; [vm_compute; reflexivity|done| |by apply (agree_inv mk_sb mk_geom (dblock sample_disk)), sample_fs_inv; exact crashed_view].
  split; [|done|vm_compute; congruence|].
  - intros b. rewrite crashed_block. repeat case_decide; [done|apply sample_block|done|apply sample_block].
  - rewrite crashed_head. split; [vm_compute; lia|done|apply NoDup_singleton|]. constructor; [|done]. split; [done|].
    change (~ (2 <= 32 < 2 + 30)). lia.
Qed.

Lemma crashed_live : live_inum mk_sb (logical (sb_logstart mk_sb) crashed_disk) 2.
Proof.
  apply (agree_live mk_sb mk_geom (dblock sample_disk) _ crashed_view). split; [unfold is_inum; change (sb_ninodes mk_sb) with 200; lia|].
  vm_compute. discriminate.
Qed.

(** Before the recovery inode 2 is free; after it the file is there. *)
Lemma fsinit_mounts_witness :
  i_type (dinode_at mk_sb (dblock crashed_disk) 2) = 0 /\
  exists t', @fsinit ram_driver ROOTDEV (unmounted_state crashed_disk) [] = Ok () t' [] /\ @fs_ready ram_driver ram_laws mk_sb t' /\
    live_inum mk_sb (dblock (disk t')) 2.
Proof.
  split; [vm_compute; reflexivity|].
  destruct (@fsinit_mounts ram_driver ram_laws mk_sb mk_geom (unmounted_state crashed_disk) []) as (t' & H1 & H2 & H3).
  - apply unmounted_sample, (lg_blocks _ _ _ (fd_log _ _ crashed_fs)).
  - exact crashed_fs.
  - exists t'. split; [exact H1|]. split; [exact H2|]. exact (proj2 (proj1 (H3 2)) crashed_live).
Defined.
