(* ===== verification/Paths.v ===== *)
(** * kernel/fs.c: path names on a mounted disk

    [namei] and [nameiparent] as system calls use them, between [begin_op] and
    [end_op], and the names that mkfs gives to the files of the image. *)

From stdpp Require Import base gmap strings numbers list.
From Stdlib Require Import Ascii.
From S2P Require Import Prelude KState Sample StringC Spinlock Sched Sleeplock Quiet Uart Printf Bio BufCache BufRefine Log LogDisk BufWp LogRun LogSafe LogOps Transaction FsWp Fs FsBlocks FsInode FsFile FsData FsOps Mkfs FsSample MkfsOk FileRw FsDir Mount.

Section Names.
Context {L : Layout} {D : DiskDriver} {DL : DiskLaws} (B : superblock) (Hg : geom B).
Implicit Types (s : kstate).

(** The directories of the disk form a tree that can be walked: the inode table agrees
    with the disk, no inode is locked and two entries are free. *)
Record names_ready s : Prop := mknames {
  nr_ready : fs_ready B s;
  nr_tree : tree_ok B (dblock (disk s));
  nr_table : itab_ok B (dblock (disk s)) (itable s);
  nr_free : two_free (itable s);
  nr_unlocked : unlocked (fun i => get_slock s (SLinode i))
}.

(** A path begins at the root or at the current directory, which is inode [i]. *)
Definition begins s (path : list Z) (i : Z) : Prop := starts_at s (itable s) path i /\ linked B (dblock (disk s)) i.

(** The system afterwards: every file and directory is as before. *)
Record names_kept s s' : Prop := mknkept {
  nk_ready : fs_ready B s';
  nk_blocks : forall b, home B b -> dblock (disk s') b = dblock (disk s) b;
  nk_table : itab_ok B (dblock (disk s)) (itable s');
  nk_unlocked : unlocked (fun i => get_slock s' (SLinode i))
}.

Lemma ready_again s s0 s' : fs_ready B s -> frame s s0 -> okeep s0 s' -> log_idle (sb_logstart B) (sb_nlog B) s' ->
  (forall b, home B b -> dblock (disk s') b = dblock (disk s) b) -> fs_ready B s'.
Proof using Hg.
  intros R Fr [Kq Hsb] Hi Hb. split; [done| | |].
  - rewrite Hsb, (fr_sb _ _ Fr). apply R.
  - rewrite (kq_panic _ _ Kq), (kq_panic _ _ (fr_kq _ _ Fr)). apply R.
  - apply (agree_inv B Hg (dblock (disk s))); [done|apply R].
Qed.

(** What a walk along a path returns: the entry of the inode that the path leads to,
    with one more reference than before, or nothing and no reference. *)
Definition name_found s s' (par : bool) (path : list Z) (o : option Z) (r : option nat * list Z) : Prop :=
  match o with
  | Some i => exists ip x, r.1 = Some ip /\ itable s' !! ip = Some x /\ i_inum x = i /\ 0 < i_ref x /\
      grants (itable s) (itable s') (one ip) /\ (par = true -> last (path_elems path) = Some (fname r.2))
  | None => r.1 = None /\ grants (itable s) (itable s') (fun _ => 0)
  end.

Definition name_post s (par : bool) (path : list Z) (i : Z) (r : option nat * list Z) s' : Prop :=
  names_kept s s' /\ name_found s s' par path (resolve B (dblock (disk s)) par i (path_elems path)) r.

Lemma path_op s e path par i : names_ready s -> 1 < sb_nlog B -> begins s path i -> Forall byte_ok path ->
  runs begin_op s e (fun _ s0 => runs (namex path par) s0 e (fun r s1 => runs end_op s1 e (fun _ s' => name_post s par path i r s'))).
Proof using Hg.
  intros [R Ht Hok Hf Hu] Hn [Hst Hl] Hp. pose proof (rd_idle _ _ R) as I.
  assert (Hroom : room (sb_nlog B) ∅) by (split; rewrite size_empty; lia).
  eapply runs_mono; [by apply (fsx_begin (sb_logstart B) (sb_nlog B) s ∅)|]. cbn beta. intros _ s0 (X & Fr & Hd0 & Ho0).
  pose proof (fr_kq _ _ Fr) as Kq0. pose proof (eq_trans (fr_sb _ _ Fr) (rd_sb _ _ R)) as HB.
  eapply runs_mono; [apply (namex_runs B Hg s0 HB _ Ht ∅ (itable s) e Hf Hok par s0 _ path i X Hu); try done|].
  { destruct Hst as [?|(H1 & cwd & x & H2 & H3)]; [by left|right]. split; [done|]. exists cwd, x. split; [|done].
    rewrite (kq_cur _ _ Kq0), <- H2. exact (f_equal p_cwd (kq_proc _ _ (cur s) Kq0)). }
  cbn beta. intros r s1 (T & K & W).
  assert (X1 : fsx (sb_logstart B) (sb_nlog B) s0 s1 T K (dblock (disk s)) ∅ ∅ /\ itab_ok B (dblock (disk s)) T /\ unlocked K).
  { destruct (resolve _ _ _ _ _); [by destruct W as (ip & _ & [] & _)|by destruct W as (_ & ? & ? & ? & _)]. }
  destruct X1 as (X1 & O1 & U1). eapply runs_mono; [apply (fsx_end (sb_logstart B) (sb_nlog B) s0 s1 T K (dblock (disk s)) ∅ e X1 Ho0); rewrite Hd0; apply I|].
  cbn beta. intros _ s' (I' & Hb & HT & HK & Ok').
  assert (Hb' : forall b, home B b -> dblock (disk s') b = dblock (disk s) b) by (intros b [_ Hb']; by apply Hb).
  split.
  - split; [by eapply ready_again|done|by rewrite HT|]. intros j. rewrite HK. apply U1.
  - unfold name_found. rewrite HT. destruct (resolve _ _ _ _ _); [|by destruct W as (? & _ & _ & _ & ?)].
    destruct W as (ip & H1 & [_ _ _ H2 (x & H3 & H4 & H5)] & H6). exists ip, x. split_and!; try done. intros Hpar. by apply H6.
Qed.

(** C8 path resolution.  In a mounted file system whose directories consist of whole
    entries that name linked inodes, with an inode table that agrees with the disk, has
    two free entries and no locked one, [namex] between [begin_op] and [end_op] returns
    on every path.  Its result is the inode that the elements of the path lead to from
    the root or from the current directory, each the first entry of that name in the
    directory before it, or with [nameiparent] the directory of the last element, which
    [name] then holds.  A missing element, or one that is not a directory, gives no
    inode.  The table gained one reference to the result and lost none; no lock is held;
    files and directories are as before. *)
Theorem namex_resolves s e path par i :
  names_ready s -> 1 < sb_nlog B -> begins s path i -> Forall byte_ok path ->
  exists r s', (begin_op;; r ← namex path par; end_op;; mret r) s e = Ok r s' e /\ names_kept s s' /\
    name_found s s' par path (resolve B (dblock (disk s)) par i (path_elems path)) r.
Proof using Hg.
  intros H1 H2 H3 H4. change (runs (begin_op;; r ← namex path par; end_op;; mret r) s e (name_post s par path i)).
  apply runs_bind. eapply runs_mono; [by apply (path_op s e path par i)|]. cbn beta. intros _ s0 H. apply runs_bind. eapply runs_mono; [exact H|].
  cbn beta. intros r s1 H'. apply runs_bind. eapply runs_mono; [exact H'|]. cbn beta. intros _ s' H''. by apply runs_ret.
Qed.

Lemma namei_op s e path i : names_ready s -> 1 < sb_nlog B -> begins s path i -> Forall byte_ok path ->
  runs (begin_op;; r ← namei path; end_op;; mret r) s e (fun r s' => exists nm, name_post s false path i (r, nm) s').
Proof using Hg.
  intros H1 H2 H3 H4. apply runs_bind. eapply runs_mono; [by apply (path_op s e path false i)|]. cbn beta. intros _ s0 H. do 2 apply runs_bind.
  eapply runs_mono; [exact H|]. cbn beta. intros [r nm] s1 H'. apply runs_ret, runs_bind. eapply runs_mono; [exact H'|]. cbn beta.
  intros _ s' H''. apply runs_ret. by exists nm.
Qed.

End Names.

(** ** The names of an image that mkfs made *)

Definition pad_entries (des : list (list Z)) : Prop := forall de, de ∈ des -> de_inum de = 0.

Lemma dirents_pad n : pad_entries (dirents (replicate n 0)).
Proof.
  intros de [i Hi]%list_elem_of_lookup. rewrite lookup_dirents in Hi. case_decide as Hlt; [|done]. apply Some_inj in Hi as <-.
  rewrite length_replicate in Hlt. pose proof (Nat.div_mod n 16 ltac:(done)). unfold slice. rewrite drop_replicate, take_replicate.
  replace (16 `min` (n - 16 * i))%nat with 16%nat by lia. reflexivity.
Qed.
Lemma dir_find_pad nm des off : pad_entries des -> dir_find nm des off = None.
Proof.
  revert off. induction des as [|de des IH]; intros off Hp; [done|]. cbn [dir_find]. unfold is_entry. rewrite (Hp de) by (by left). cbn.
  apply IH. intros de' H. apply Hp. by right.
Qed.

Lemma dirents_concat l bs : Forall (fun de => length de = 16%nat) l -> dirents (concat l ++ bs) = l ++ dirents bs.
Proof. induction 1 as [|de l Hde _ IH]; [done|]. cbn [concat app]. by rewrite <- app_assoc, dirents_cons, IH. Qed.

Fixpoint entry_list (inum : Z) (args : list (list Z)) : list (list Z) :=
  match args with [] => [] | a :: args' => entry inum a :: entry_list (inum + 1) args' end.

Lemma entry_list_concat args : forall inum, entries inum args = concat (entry_list inum args).
Proof. induction args as [|a args IH]; intros inum; [done|]. cbn [entries entry_list concat]. by rewrite IH. Qed.
Lemma entry_list_length args : forall inum, Forall (fun de => length de = 16%nat) (entry_list inum args).
Proof. induction args as [|a args IH]; intros inum; constructor; [apply length_entry|apply IH]. Qed.
Lemma lookup_entry_list args : forall inum k, entry_list inum args !! k = entry (inum + Z.of_nat k) <$> args !! k.
Proof.
  induction args as [|a args IH]; intros inum k; [done|]. destruct k as [|k]; [cbn [lookup list_lookup entry_list fmap option_fmap option_map Z.of_nat]; by rewrite Z.add_0_r|].
  cbn [entry_list lookup list_lookup]. change (list_lookup k (entry_list (inum + 1) args)) with (entry_list (inum + 1) args !! k).
  rewrite IH. change (list_lookup k args) with (args !! k). f_equal. f_equal. lia.
Qed.

Definition dots : list (list Z) := [dirent ROOTINO (zstr "." ++ replicate 13 0); dirent ROOTINO (zstr ".." ++ replicate 12 0)].

Lemma root_dirents args : exists pad, pad_entries pad /\ dirents (padded (root_dir args)) = dots ++ entry_list 2 args ++ pad.
Proof.
  exists (dirents (replicate (pad_len (Z.of_nat (length (root_dir args)))) 0)). split; [apply dirents_pad|].
  unfold padded. replace (root_dir args) with (concat (dots ++ entry_list 2 args)) at 1.
  - rewrite dirents_concat, <- app_assoc; [done|]. apply Forall_app. split; [by repeat constructor|apply entry_list_length].
  - rewrite concat_app, <- entry_list_concat. unfold root_dir, dots. cbn [concat]. by rewrite app_nil_r, <- app_assoc.
Qed.

Lemma entry_inum inum arg : 0 <= inum < 2 ^ 16 -> de_inum (entry inum arg) = inum.
Proof. intros Hi. unfold de_inum, entry, dirent. rewrite get_le_here, xshort_id by done. by apply Z.mod_small. Qed.
Lemma entry_fname inum arg : fname (de_name (entry inum arg)) = fname (stored_name arg).
Proof.
  unfold de_name, entry, dirent. rewrite drop_app_length' by (by rewrite length_le_bytes). unfold strncpy. rewrite strncpy_loop_spec by done.
  set (w := take (Z.to_nat DIRSIZ) (cstr (stored_name arg))). change (fname (stored_name arg)) with w.
  assert (Hz : Forall (fun c => c <> 0) w) by apply Forall_take, cstr_nonzero. assert (Hlw : (length w <= Z.to_nat DIRSIZ)%nat) by (unfold w; rewrite length_take; lia).
  unfold fname. change (replicate 14 0) with (replicate (Z.to_nat DIRSIZ) 0). rewrite drop_replicate, Nat.sub_diag, app_nil_r.
  rewrite cstr_app by done. replace (cstr (replicate _ 0)) with (@nil Z) by (by destruct (Z.to_nat DIRSIZ - length w)%nat). rewrite app_nil_r. by apply take_ge.
Qed.

Lemma dir_find_first nm des k de : forall off, des !! k = Some de -> is_entry nm de = true ->
  (forall j de', (j < k)%nat -> des !! j = Some de' -> is_entry nm de' = false) ->
  dir_find nm des off = Some (de_inum de, off + DIRENT_SIZE * Z.of_nat k).
Proof.
  revert k. induction des as [|d des IH]; intros k off Hk He Hno; [done|]. cbn [dir_find]. destruct k as [|k].
  - apply Some_inj in Hk as ->. rewrite He. do 2 f_equal. lia.
  - rewrite (Hno 0%nat d) by (done || lia). rewrite (IH k); [do 2 f_equal; lia|done|done|]. intros j de' Hj Hd. apply (Hno (S j)); [lia|done].
Qed.

(** Blocks of the log apart, the same disk has the same tree. *)
Section SameTree.
Context (B : superblock) (Hg : geom B) (c c' : Z -> list Z) (Hag : forall b, home B b -> c' b = c b).

Lemma same_linked i : linked B c' i <-> linked B c i.
Proof using Hg Hag.
  unfold linked. rewrite (agree_live B Hg c c' Hag). split; intros [Hl Hn]; (split; [done|]); by rewrite (agree_dinode B Hg c c' Hag) in * by apply Hl.
Qed.
Lemma same_dir i : fs_inv B c -> linked B c i -> dinode_at B c' i = dinode_at B c i /\ file_bytes c' (dinode_at B c' i) = file_bytes c (dinode_at B c i).
Proof using Hg Hag. intros Hi [Hl _]. by apply (agree_contents B Hg c c' Hag). Qed.

Lemma same_tree : tree_ok B c -> tree_ok B c'.
Proof using Hg Hag.
  intros [H1 H2 H3 H4]. split; [by apply (agree_inv B Hg c)|..]; intros i.
  - intros Hl%same_linked. destruct (same_dir i H1 Hl) as [E _]. rewrite E. by apply H2.
  - intros Hl%same_linked. destruct (same_dir i H1 Hl) as [E1 E2]. rewrite E2, E1. by apply H3.
  - intros de Hl%same_linked. unfold dir_of. destruct (same_dir i H1 Hl) as [E1 E2]. rewrite E2, E1. intros Ht Hd Hz. apply same_linked. by apply (H4 i).
Qed.
End SameTree.

Lemma cstr_byte w : Forall byte_ok w -> Forall byte_ok (cstr w).
Proof. induction 1 as [|c w Hc _ IH]; [constructor|]. cbn. destruct (c =? 0); [constructor|by constructor]. Qed.

Lemma stored_suffix (P : Z -> Prop) arg : Forall P (base_name arg) -> Forall P (stored_name arg).
Proof. intros H. unfold stored_name, skip_underscore. destruct (base_name arg) as [|c w]; [done|]. destruct (c =? 95); [by inversion H|done]. Qed.
Lemma base_suffix (P : Z -> Prop) arg : Forall P arg -> Forall P (base_name arg).
Proof. intros H. unfold base_name. case_decide; [by apply Forall_drop|done]. Qed.

Lemma entry_bytes inum arg : Forall byte_ok arg -> Forall byte_ok (entry inum arg).
Proof.
  intros H. unfold entry, dirent, strncpy. rewrite strncpy_loop_spec by done. apply Forall_app. split; [apply le_bytes_ok|].
  apply Forall_app. split; [by apply Forall_take, cstr_byte, stored_suffix, base_suffix|]. change (replicate 14 0) with (replicate (Z.to_nat DIRSIZ) 0).
  rewrite drop_replicate, Nat.sub_diag, app_nil_r. apply Forall_replicate. unfold byte_ok. lia.
Qed.
Lemma root_bytes args : Forall (Forall byte_ok) args -> Forall byte_ok (padded (root_dir args)).
Proof.
  intros Ha. apply Forall_app. split; [|apply Forall_replicate; unfold byte_ok; lia]. unfold root_dir.
  assert (Hd : forall l, forallb (fun c => (0 <=? c) && (c <? 256)) l = true -> Forall byte_ok l).
  { intros l Hl. rewrite forallb_forall in Hl. apply Forall_forall. intros c Hc%list_elem_of_In%Hl. unfold byte_ok. lia. }
  apply Forall_app. split; [apply Hd; reflexivity|]. apply Forall_app. split; [apply Hd; reflexivity|].
  generalize 2. induction Ha as [|a args Hx _ IH]; intros i; [constructor|]. cbn [entries]. apply Forall_app. split; [by apply entry_bytes|apply IH].
Qed.

Lemma padded_size r : exists q, Z.of_nat (length (padded r)) = q * 1024.
Proof.
  exists (Z.of_nat (length r) / 1024 + 1). unfold padded, pad_len. rewrite length_app, length_replicate. change BSIZE with 1024.
  pose proof (Z.div_mod (Z.of_nat (length r)) 1024 ltac:(done)). pose proof (Z.mod_pos_bound (Z.of_nat (length r)) 1024 ltac:(done)). lia.
Qed.

Section Image.
Context (host : list Z -> option (list (list Z))) (m : mkimg) (args : list (list Z)).
Notation B := mk_sb.
Notation files := ((T_DIR, padded (root_dir args)) :: MkfsOk.stored host args).
Hypothesis (I : image_of m files) (Hn : Z.of_nat (length args) <= 198) (Hb : Forall (Forall byte_ok) args).

Lemma files_length : Z.of_nat (length files) = Z.of_nat (length args) + 1.
Proof. cbn [length]. unfold MkfsOk.stored. rewrite length_fmap. lia. Qed.

Lemma image_linked k : (k < length files)%nat -> linked B (blk m) (Z.of_nat k + 1).
Proof using I.
  intros Hk. destruct (lookup_lt_is_Some_2 files k Hk) as [[ty bs] Hf]. destruct (io_file _ _ I k ty bs Hf) as (Hl & _ & H1 & _). split; [done|]. by rewrite H1.
Qed.

(** The root is the only directory. *)
Lemma image_dir i : linked B (blk m) i -> i_type (dinode_at B (blk m) i) = T_DIR -> i = ROOTINO.
Proof using I.
  intros [[Hi Ht] _] Hd. destruct (Z.le_gt_cases i (Z.of_nat (length files))) as [Hle|Hgt]; [|by rewrite (io_rest _ _ I) in Ht].
  unfold is_inum in Hi. destruct (lookup_lt_is_Some_2 files (Z.to_nat (i - 1))) as [[ty bs] Hf]; [lia|].
  destruct (io_file _ _ I _ ty bs Hf) as (_ & H1 & _). replace (Z.of_nat (Z.to_nat (i - 1)) + 1) with i in H1 by lia.
  destruct (Z.to_nat (i - 1)) as [|k] eqn:Ek; [change ROOTINO with 1; lia|]. rewrite Hd in H1. change (MkfsOk.stored host args !! k = Some (ty, bs)) in Hf.
  unfold MkfsOk.stored in Hf. rewrite list_lookup_fmap in Hf. by destruct (args !! k); [injection Hf as <- _|].
Qed.

Lemma image_root : let x := dinode_at B (blk m) ROOTINO in i_type x = T_DIR /\ i_size x = Z.of_nat (length (padded (root_dir args))) /\
  file_bytes (blk m) x = padded (root_dir args).
Proof using I. destruct (io_file _ _ I 0 _ _ eq_refl) as (_ & H1 & _ & H2 & H3). done. Qed.

Lemma image_tree : tree_ok B (blk m).
Proof using I Hn Hb.
  destruct image_root as (Hty & Hsz & Hby). split; [apply I|..]; intros i.
  - intros Hl Hd. rewrite (image_dir i Hl Hd), Hsz. destruct (padded_size (root_dir args)) as [q ->]. change DIRENT_SIZE with 16.
    replace (q * 1024) with (q * 64 * 16) by lia. by apply Z.mod_mul.
  - intros Hl Hd. rewrite (image_dir i Hl Hd), Hby. by apply root_bytes.
  - intros de Hl Hd. unfold dir_of. rewrite (image_dir i Hl Hd), Hby. destruct (root_dirents args) as (pad & Hp & ->). intros Hde Hz.
    pose proof files_length as Hlf. apply elem_of_app in Hde as [Hde|[Hde|Hde]%elem_of_app]; [| |by destruct Hz; apply Hp].
    + assert (E : de_inum de = 1) by (unfold dots in Hde; repeat (apply elem_of_cons in Hde as [->|Hde]; [reflexivity|]); by apply elem_of_nil in Hde).
      rewrite E. apply (image_linked 0). lia.
    + apply list_elem_of_lookup in Hde as [k Hk]. rewrite lookup_entry_list in Hk. destruct (args !! k) as [a|] eqn:Ea; [|done].
      change (Some (entry (2 + Z.of_nat k) a) = Some de) in Hk. apply Some_inj in Hk as <-. apply lookup_lt_Some in Ea. rewrite entry_inum by lia.
      replace (2 + Z.of_nat k) with (Z.of_nat (S k) + 1) by lia. apply image_linked. lia.
Qed.

(** No other file of the command line has the name of the [k]-th one, and neither do
    the entries of the directory itself. *)
Record named_once (k : nat) (arg : list Z) : Prop := mknamed {
  no_at : args !! k = Some arg;
  no_dots : stored_name arg <> zstr "." /\ stored_name arg <> zstr "..";
  no_empty : stored_name arg <> [];
  no_nul : Forall (fun c => c <> 0) (stored_name arg);
  no_other : forall j arg', args !! j = Some arg' -> fname (stored_name arg') = stored_name arg -> j = k
}.

Lemma image_finds k arg : named_once k arg -> fname (stored_name arg) = stored_name arg ->
  exists off, dir_find (stored_name arg) (dir_of B (blk m) ROOTINO) 0 = Some (Z.of_nat k + 2, off).
Proof using I Hn.
  intros [Hk [Hd1 Hd2] _ _ Ho] Hf. destruct image_root as (_ & _ & Hby). pose proof (lookup_lt_Some _ _ _ Hk) as Hlt.
  unfold dir_of. rewrite Hby. destruct (root_dirents args) as (pad & Hp & ->).
  replace (Z.of_nat k + 2) with (de_inum (entry (2 + Z.of_nat k) arg)) by (rewrite entry_inum by lia; lia). eexists.
  apply (dir_find_first _ _ (2 + k)).
  - change (2 + k)%nat with (length dots + k)%nat. rewrite lookup_app_r, Nat.add_comm, Nat.add_sub by lia.
    rewrite lookup_app_l, lookup_entry_list, Hk; [done|]. apply lookup_lt_is_Some. rewrite lookup_entry_list, Hk. by eexists.
  - unfold is_entry. rewrite entry_inum, entry_fname, Hf by lia. rewrite bool_decide_true by done. rewrite (proj2 (Z.eqb_neq _ _)) by lia. done.
  - intros j de Hj Hde. unfold is_entry. apply andb_false_iff. right. apply bool_decide_eq_false. intros E.
    destruct j as [|[|j]].
    + apply Some_inj in Hde as <-. apply Hd1. by rewrite <- E.
    + apply Some_inj in Hde as <-. apply Hd2. by rewrite <- E.
    + change ((entry_list 2 args ++ pad) !! j = Some de) in Hde.
      destruct (lookup_lt_is_Some_2 args j) as [a Ha]; [lia|]. assert (Hel : entry_list 2 args !! j = Some (entry (2 + Z.of_nat j) a)) by (by rewrite lookup_entry_list, Ha).
      rewrite lookup_app_l in Hde by (by eapply lookup_lt_Some). rewrite Hel in Hde. apply Some_inj in Hde as <-. rewrite entry_fname in E.
      specialize (Ho j a Ha E). lia.
Qed.

End Image.

(** ** From the build to a path *)

Section Boot.
Context {L : Layout} {D : DiskDriver} {DL : DiskLaws}.
Notation B := mk_sb.

(** The inode table before the first use. *)
Record no_inodes (t : kstate) : Prop := mkno_inodes {
  ni_len : length (itable t) = Z.to_nat NINODE;
  ni_free : Forall (fun x => i_ref x = 0) (itable t);
  ni_locks : unlocked (fun i => get_slock t (SLinode i))
}.

Lemma no_inodes_ok c T : length T = Z.to_nat NINODE -> Forall (fun x => i_ref x = 0) T -> itab_ok B c T /\ two_free T.
Proof.
  intros Hl Hf. rewrite Forall_lookup in Hf. split.
  - split; [done|..].
    + intros ip x Hx. by rewrite (Hf ip x Hx).
    + intros ip x Hx. rewrite (Hf ip x Hx). lia.
    + intros ip x Hx. rewrite (Hf ip x Hx). lia.
    + intros ip jp x y Hx _. rewrite (Hf ip x Hx). lia.
  - destruct T as [|x [|y T]]; [done|done|]. exists 0%nat, 1%nat, x, y. split_and!; try done; [by apply (Hf 0%nat)|by apply (Hf 1%nat)].
Qed.

Lemma boot_runs host args m ws t e :
  image_of m ((T_DIR, padded (root_dir args)) :: MkfsOk.stored host args) -> Z.of_nat (length args) <= 198 -> Forall (Forall byte_ok) args ->
  unmounted t -> no_inodes t -> disk t = mkdisk (fs_blk m) ws ->
  runs (fsinit ROOTDEV) t e (fun _ t' => names_ready B t' /\ (itable t' = itable t /\ boot_keeps t t') /\ forall b, home B b -> dblock (disk t') b = blk m b).
Proof.
  intros I Hn Hb U [N1 N2 N3] Ht. destruct (image_disk m _ ws I) as [Fd Hc]. rewrite <- Ht in Fd, Hc.
  eapply runs_mono; [apply (fsinit_runs B mk_geom t e U Fd)|]. cbn beta. intros _ t' (R & (HT & HK & Kq) & Hag).
  assert (Hag' : forall b, home B b -> dblock (disk t') b = blk m b) by (intros b Hb'; rewrite Hag by done; apply Hc). split; [|by split].
  destruct (no_inodes_ok (dblock (disk t')) (itable t) N1 N2) as [Hok Hf]. split; [done| |by rewrite HT|by rewrite HT|].
  - apply (same_tree B mk_geom (blk m)); [done|]. by apply (image_tree host m args).
  - intros i. rewrite HK. apply N3.
Qed.

Lemma named_path host args k arg : named_once args k arg -> arg_ok host arg -> Forall byte_ok arg ->
  fname (stored_name arg) = stored_name arg /\ path_elems (SLASH :: stored_name arg) = [stored_name arg] /\ Forall byte_ok (SLASH :: stored_name arg).
Proof.
  intros [_ _ Hne Hz _] (Hs & Hlen & _ & _) Hb. assert (Ht : take (Z.to_nat DIRSIZ) (stored_name arg) = stored_name arg) by (apply take_ge; clear - Hlen; lia).
  split; [unfold fname; by rewrite cstr_id|]. split; [|constructor; [done|by apply stored_suffix, base_suffix]].
  assert (Hsl : Forall (fun c => c <> SLASH) (stored_name arg)) by (apply stored_suffix, Forall_forall; intros c Hc ->; by apply Hs).
  rewrite elems_slash. unfold path_elems. rewrite cstr_id, pieces_one, filter_cons_True by done. change ([take (Z.to_nat DIRSIZ) (stored_name arg)] = [stored_name arg]). by rewrite Ht.
Qed.

Lemma image_resolves host m args c k arg :
  image_of m ((T_DIR, padded (root_dir args)) :: MkfsOk.stored host args) -> Z.of_nat (length args) <= 198 -> (forall b, home B b -> c b = blk m b) ->
  named_once args k arg -> fname (stored_name arg) = stored_name arg -> resolve B c false ROOTINO [stored_name arg] = Some (Z.of_nat k + 2).
Proof.
  intros I Hn Hag Hno Hf. assert (Hroot : linked B (blk m) ROOTINO) by (apply (image_linked host m args I 0); cbn; lia).
  destruct (same_dir B mk_geom _ _ Hag ROOTINO (io_inv _ _ I) Hroot) as [Ed Eb]. destruct (image_finds host m args I Hn k arg Hno Hf) as [off Hfind].
  cbn [resolve]. unfold dir_of. rewrite Eb, Ed, (proj1 (image_root host m args I)). fold (dir_of B (blk m) ROOTINO). by rewrite Hfind.
Qed.

(** C9 names from the build to the running kernel.  Given files that can be read, with
    names that fit a directory entry and contents that fit a file, at most 198 of them,
    small enough together, and not so many that the entries end at a block boundary, a
    file that [mkfs] puts into the image under a name of its own is found under that name: after [fsinit] on a disk with
    the image, [namei] on a slash and the name returns the inode of the file, whose
    contents are those of the file of the build. *)
Theorem mkfs_names host prog img args k arg :
  Forall (arg_ok host) args -> Z.of_nat (length args) <= 198 -> (Z.of_nat (length args) + 2) mod 64 <> 0 ->
  nmeta + total ((T_DIR, root_dir args) :: MkfsOk.stored host args) <= FSSIZE -> Forall (Forall byte_ok) args -> named_once args k arg ->
  exists m, main host (prog :: img :: args) true = MOk () m /\ forall ws t e, unmounted t -> no_inodes t -> disk t = mkdisk (fs_blk m) ws ->
    exists t1 t2 ip x, fsinit ROOTDEV t e = Ok () t1 e /\
      (begin_op;; r ← namei (SLASH :: stored_name arg); end_op;; mret r) t1 e = Ok (Some ip) t2 e /\
      itable t2 !! ip = Some x /\ refat (itable t2) ip = 1 /\ i_inum x = Z.of_nat k + 2 /\ contents B t2 (i_inum x) = file_of host arg.
Proof.
  intros H1 H2 H3 H4 H5 Hno. destruct (mkfs_built host args H1 H2 H3 H4) as ([] & m & Hm & I). exists m. split; [by rewrite main_mkfs|].
  clear H3 H4. intros ws t e U N Ht. destruct (boot_runs host args m ws t e I H2 H5 U N Ht) as ([] & t1 & E1 & R1 & [HT _] & Hag). exists t1.
  pose proof (no_at _ _ _ Hno) as Hk. pose proof (proj1 (Forall_lookup _ _) H1 k arg Hk) as Hok.
  destruct (named_path host args k arg Hno Hok (proj1 (Forall_lookup _ _) H5 k arg Hk)) as (Hf & Hel & Hby).
  pose proof (image_resolves host m args _ k arg I H2 Hag Hno Hf) as Hres.
  assert (Hst : begins B t1 (SLASH :: stored_name arg) ROOTINO).
  { split; [left; split; reflexivity|]. apply (same_linked B mk_geom _ _ Hag), (image_linked host m args I 0). cbn. clear. lia. }
  destruct (namei_op B mk_geom t1 e _ ROOTINO R1 ltac:(done) Hst Hby) as (r & t2 & E2 & nm & K2 & F2).
  unfold name_found in F2. rewrite Hel, Hres in F2. destruct F2 as (ip & x & F1 & Hx & Hi & Hr & Hgr & _). cbn in F1. subst r.
  exists t2, ip, x. split_and!; [exact E1|exact E2|exact Hx| |exact Hi|].
  - rewrite (gr_ref _ _ _ Hgr), HT. unfold one. rewrite decide_True by reflexivity. unfold refat. destruct (itable t !! ip) as [y|] eqn:Ey; [|reflexivity].
    by rewrite (proj1 (Forall_lookup _ _) (ni_free _ N) ip y Ey).
  - assert (Hag2 : forall b, home B b -> dblock (disk t2) b = blk m b) by (intros b Hb; rewrite (nk_blocks _ _ _ K2 b Hb); by apply Hag).
    rewrite Hi. replace (Z.of_nat k + 2) with (Z.of_nat (S k) + 1) by (clear; lia).
    destruct (io_file _ _ I (S k) T_FILE (file_of host arg)) as (Hl & _ & _ & _ & Hbs).
    { change (MkfsOk.stored host args !! k = Some (T_FILE, file_of host arg)). unfold MkfsOk.stored. by rewrite list_lookup_fmap, Hk. }
    rewrite <- Hbs. by apply (agree_contents B mk_geom _ _ Hag2 _ (io_inv _ _ I) Hl).
Qed.
End Boot.

(** ** Witnesses *)

Lemma unmounted_no_inodes d : no_inodes (unmounted_state d).
Proof.
  split; [reflexivity|apply Forall_lookup; intros i x Hx; by apply lookup_replicate in Hx as [-> _]|].
  intros i. unfold get_slock. cbn. done.
Qed.

Lemma sample_bytes : Forall (Forall byte_ok) sample_args.
Proof. repeat constructor; unfold byte_ok; vm_compute; congruence. Qed.

Lemma sample_named : named_once sample_args 1 (zstr "user/_cat").
Proof.
  split; [reflexivity|split; vm_compute; congruence|vm_compute; congruence|repeat constructor; vm_compute; congruence|].
  intros [|[|j]] arg' Hj; [|done|done]. apply Some_inj in Hj as <-. vm_compute. congruence.
Qed.

Lemma mkfs_names_witness :
  exists m t1 t2 ip x, main sample_host (zstr "mkfs" :: zstr "fs.img" :: sample_args) true = MOk () m /\
    @fsinit ram_driver ROOTDEV (unmounted_state (mkdisk (fs_blk m) [])) [] = Ok () t1 [] /\
    (begin_op;; r ← @namei ram_driver (zstr "/cat"); @end_op ram_driver;; mret r) t1 [] = Ok (Some ip) t2 [] /\
    itable t2 !! ip = Some x /\ i_inum x = 3 /\ contents mk_sb t2 3 = replicate 1024 7 ++ replicate 1024 8 ++ replicate 3 9.
Proof.
  destruct (@mkfs_names ram_driver ram_laws sample_host (zstr "mkfs") (zstr "fs.img") sample_args 1 (zstr "user/_cat")) as (m & Hm & H);
    [exact sample_args_ok|done|done|exact sample_room|exact sample_bytes|exact sample_named|].
  destruct (H [] (unmounted_state (mkdisk (fs_blk m) [])) []) as (t1 & t2 & ip & x & H1 & H2 & H3 & H4 & H5 & H6); [|apply unmounted_no_inodes|reflexivity|].
  - apply unmounted_sample. apply (image_blocks _ _ _ _ _ sample_args_ok ltac:(done) ltac:(done) sample_room Hm).
  - exists m, t1, t2, ip, x. split; [exact Hm|]. split; [exact H1|]. split; [exact H2|]. split; [exact H3|]. split; [exact H5|]. rewrite H5 in H6. exact H6.
Defined.

Lemma namex_resolves_witness :
  exists s r s' ip, (begin_op;; r ← @namex ram_driver (zstr "//cat") true; @end_op ram_driver;; mret r) s [] = Ok r s' [] /\
    r.1 = Some ip /\ fname r.2 = zstr "cat" /\ refat (itable s') ip = refat (itable s) ip + 1.
Proof.
  destruct (mkfs_built sample_host sample_args sample_args_ok ltac:(done) ltac:(done) sample_room) as ([] & m & Hm & I).
  assert (Hm' : main sample_host (zstr "mkfs" :: zstr "fs.img" :: sample_args) true = MOk () m) by (by rewrite main_mkfs).
  destruct (boot_runs (D := ram_driver) (DL := ram_laws) sample_host sample_args m [] (unmounted_state (mkdisk (fs_blk m) [])) [] I ltac:(done) sample_bytes) as ([] & t1 & _ & R1 & _ & Hag);
    [|apply unmounted_no_inodes|reflexivity|].
  { apply unmounted_sample. apply (image_blocks _ _ _ _ _ sample_args_ok ltac:(done) ltac:(done) sample_room Hm'). }
  pose proof (image_linked sample_host m sample_args I 0 ltac:(cbn; lia)) as Hroot. change (Z.of_nat 0 + 1) with ROOTINO in Hroot.
  destruct (@namex_resolves ram_driver ram_laws mk_sb mk_geom t1 [] (zstr "//cat") true ROOTINO R1 ltac:(done)) as (r & s' & E & K & F).
  - split; [left; split; reflexivity|]. by apply (same_linked mk_sb mk_geom _ _ Hag).
  - repeat constructor; unfold byte_ok; vm_compute; congruence.
  - assert (Hel : path_elems (zstr "//cat") = [zstr "cat"]) by (vm_compute; reflexivity). rewrite Hel in F. cbn [resolve] in F.
    destruct (same_dir mk_sb mk_geom _ _ Hag ROOTINO (io_inv _ _ I) Hroot) as [Ed _]. rewrite Ed, (proj1 (image_root sample_host m sample_args I)) in F.
    change (T_DIR =? T_DIR) with true in F. cbn [andb] in F. rewrite bool_decide_true in F by reflexivity.
    destruct F as (ip & x & F1 & _ & _ & _ & F4 & F5). exists t1, r, s', ip. split; [exact E|]. split; [exact F1|]. specialize (F5 eq_refl). rewrite Hel in F5.
    split; [by injection F5|]. rewrite (gr_ref _ _ _ F4). unfold one. by rewrite decide_True.
Defined.
