(* ===== verification/PipeRing.v ===== *)
(** * The pipe as a queue of bytes

    The ring of 512 bytes with its two 32-bit counters is a bounded queue, and a
    pipe carries a stream: a writer that sleeps when the ring is full and is woken
    by readers loses, repeats and reorders nothing. *)

From stdpp Require Import base gmap strings numbers list.
From S2P Require Import Prelude KState Sample StringC Spinlock Sched Sleeplock Quiet Switch Uart Printf Pages Kalloc Vm PageTable UserVm UserSpace Copy ForkVm Bio BufCache BufRefine Log LogDisk BufWp LogRun LogSafe LogOps Transaction FsWp Fs FsBlocks FsInode FsFile FsData FsOps FsSample Pipe Console File FileRw.

(** ** The ring *)

(** How many bytes are in the pipe, and which. *)
Definition plen (p : pipe) : Z := u32 (pi_nwrite p - pi_nread p).
Definition pslot (p : pipe) (k : Z) : Z := nth (Z.to_nat ((pi_nread p + k) mod PIPESIZE)) (pi_data p) 0.
Definition pq (p : pipe) : list Z := pslot p <$> seqZ 0 (plen p).

Record pipe_ok (p : pipe) : Prop := mkpipe_ok {
  po_data : length (pi_data p) = Z.to_nat PIPESIZE;
  po_read : 0 <= pi_nread p < 2 ^ 32;
  po_write : 0 <= pi_nwrite p < 2 ^ 32;
  po_len : plen p <= PIPESIZE
}.

Lemma length_pq p : length (pq p) = Z.to_nat (plen p).
Proof. unfold pq. by rewrite length_fmap, length_seqZ. Qed.
Lemma plen_nonneg p : 0 <= plen p < 2 ^ 32.
Proof. unfold plen, u32. by apply Z.mod_pos_bound. Qed.

(** The counters wrap at a multiple of the ring's size. *)
Lemma u32_mod_size x : u32 x mod PIPESIZE = x mod PIPESIZE.
Proof.
  unfold u32, PIPESIZE. rewrite <- (Z.mod_mod_divide x (2 ^ 32) 512); [done|]. by exists (2 ^ 23).
Qed.

Lemma plen_write p : pipe_ok p -> pi_nwrite p = u32 (pi_nread p + plen p).
Proof.
  intros [_ Hr Hw _]. unfold plen, u32. rewrite Zplus_mod_idemp_r. replace (pi_nread p + (pi_nwrite p - pi_nread p)) with (pi_nwrite p) by lia.
  by rewrite Z.mod_small.
Qed.

Lemma u32_plus_inj r a b : 0 <= a < 2 ^ 32 -> 0 <= b < 2 ^ 32 -> u32 (r + a) = u32 (r + b) -> a = b.
Proof.
  intros Ha Hb H. assert (E : u32 (u32 (r + a) - r) = u32 (u32 (r + b) - r)) by congruence.
  unfold u32 in E. rewrite !Zminus_mod_idemp_l in E. replace (r + a - r) with a in E by lia. replace (r + b - r) with b in E by lia.
  by rewrite !Z.mod_small in E.
Qed.

Lemma pipe_full_spec p : pipe_ok p -> pipe_full p = (plen p =? PIPESIZE).
Proof.
  intros H. unfold pipe_full. rewrite (plen_write p H). pose proof (plen_nonneg p). destruct (Z.eqb_spec (plen p) PIPESIZE) as [->|Hne].
  - by rewrite Z.eqb_refl.
  - apply Z.eqb_neq. intros E. apply u32_plus_inj in E; [done|lia|done].
Qed.
Lemma pipe_empty_spec p : pipe_ok p -> pipe_empty p = (plen p =? 0).
Proof.
  intros H. unfold pipe_empty. pose proof (plen_write p H) as Hw. pose proof (plen_nonneg p) as Hp.
  assert (Hr : pi_nread p = u32 (pi_nread p + 0)) by (rewrite Z.add_0_r; symmetry; apply Z.mod_small, H).
  destruct (Z.eqb_spec (plen p) 0) as [E|Hne].
  - apply Z.eqb_eq. by rewrite Hw, E, <- Hr.
  - apply Z.eqb_neq. rewrite Hw. intros E. rewrite Hr in E at 1. apply u32_plus_inj in E; [lia|lia|done].
Qed.

Lemma pslot_ne p j k : 0 <= j < PIPESIZE -> 0 <= k < PIPESIZE -> j <> k ->
  Z.to_nat ((pi_nread p + j) mod PIPESIZE) <> Z.to_nat ((pi_nread p + k) mod PIPESIZE).
Proof.
  intros Hj Hk Hne E. pose proof (Z.mod_pos_bound (pi_nread p + j) PIPESIZE ltac:(done)). pose proof (Z.mod_pos_bound (pi_nread p + k) PIPESIZE ltac:(done)).
  assert (E' : (pi_nread p + j) mod PIPESIZE = (pi_nread p + k) mod PIPESIZE) by lia.
  assert (Hz : ((pi_nread p + j) - (pi_nread p + k)) mod PIPESIZE = 0) by (rewrite Zminus_mod, E', Z.sub_diag; done).
  replace (pi_nread p + j - (pi_nread p + k)) with (j - k) in Hz by lia. apply Z.mod_divide in Hz as [q Hq]; [|done]. unfold PIPESIZE in *. lia.
Qed.

Lemma pipe_put_queue c p : pipe_ok p -> plen p < PIPESIZE -> pipe_ok (pipe_put c p) /\ pq (pipe_put c p) = pq p ++ [c].
Proof.
  intros H Hlt. pose proof H as [Hd Hr Hw Hl]. pose proof (plen_nonneg p) as Hp.
  assert (Hlen : plen (pipe_put c p) = plen p + 1).
  { unfold plen, pipe_put, u32 in *. cbn. rewrite Zminus_mod_idemp_l. replace (pi_nwrite p + 1 - pi_nread p) with (pi_nwrite p - pi_nread p + 1) by lia.
    rewrite <- Zplus_mod_idemp_l. apply Z.mod_small. unfold PIPESIZE in *. lia. }
  assert (Hslot : Z.to_nat (pi_nwrite p mod PIPESIZE) = Z.to_nat ((pi_nread p + plen p) mod PIPESIZE)) by (rewrite (plen_write p H) at 1; by rewrite u32_mod_size).
  pose proof (Z.mod_pos_bound (pi_nread p + plen p) PIPESIZE ltac:(done)) as Hb.
  split; [split; [cbn; by rewrite length_insert|done|cbn; by apply Z.mod_pos_bound|lia]|].
  unfold pq. rewrite Hlen, seqZ_app, fmap_app by lia. f_equal.
  - apply list_fmap_ext. intros i k Hk. apply lookup_seqZ in Hk as [-> Hk]. unfold pslot, pipe_put. cbn. rewrite Hslot, !nth_lookup, list_lookup_insert_ne; [done|].
    apply pslot_ne; lia.
  - change (seqZ (0 + plen p) 1) with [0 + (0 + plen p)]. rewrite !Z.add_0_l. cbn [fmap list_fmap]. f_equal. unfold pslot, pipe_put. cbn. rewrite Hslot, nth_lookup, list_lookup_insert_eq; [done|]. rewrite Hd. lia.
Qed.

Lemma pipe_drop_queue p : pipe_ok p -> 0 < plen p -> pipe_ok (pipe_drop p) /\ pq p = pipe_front p :: pq (pipe_drop p).
Proof.
  intros H Hlt. pose proof H as [Hd Hr Hw Hl]. pose proof (plen_nonneg p) as Hp.
  assert (Hlen : plen (pipe_drop p) = plen p - 1).
  { unfold plen, pipe_drop, u32 in *. cbn. rewrite Zminus_mod_idemp_r. replace (pi_nwrite p - (pi_nread p + 1)) with (pi_nwrite p - pi_nread p - 1) by lia.
    rewrite <- Zminus_mod_idemp_l. apply Z.mod_small. lia. }
  split; [split; [done|cbn; by apply Z.mod_pos_bound|done|lia]|].
  unfold pq. rewrite Hlen. replace (plen p) with (1 + (plen p - 1)) at 1 by lia. rewrite seqZ_app by lia. change (seqZ 0 1) with [0]. rewrite fmap_app. change (pslot p <$> [0]) with [pslot p 0]. cbn [app]. f_equal.
  - unfold pslot, pipe_front. by rewrite Z.add_0_r.
  - apply list_eq. intros i. rewrite !list_lookup_fmap. destruct (decide (Z.of_nat i < plen p - 1)) as [Hi|Hi].
    + rewrite !lookup_seqZ_lt by lia. cbn. f_equal. unfold pslot, pipe_drop. cbn. rewrite <- (Zplus_mod_idemp_l (u32 _)), u32_mod_size, Zplus_mod_idemp_l. do 3 f_equal. lia.
    + by rewrite !lookup_seqZ_ge by lia.
Qed.

(** ** The writer *)

Section Writer.
Context {L : Layout} (s0 : kstate) (Q : quiet s0) (pi : Z) (Hpi : lfree (syn s0) (Lpipe pi)).
Context (root : Z) (T : pgt) (us : list Z) (addr n : Z) (bs : list Z).
Notation y := (syn s0).
Notation p := (cur s0).
Implicit Types (s : kstate) (q : list Z).

(** The pipe holds [q] and can be read; the writer lives, and [bs] is in its buffer. *)
Record wst s q : Prop := mkwst {
  ws_len : length (procs s) = length (procs s0);
  ws_root : p_pagetable (get_proc s p) = root;
  ws_alive : p_killed (get_proc s p) = false;
  ws_pipe : pipe_ok (get_pipe s pi);
  ws_open : pi_readopen (get_pipe s pi) = true;
  ws_q : pq (get_pipe s pi) = q;
  ws_uvm : exists l, uvm_ok (set_syn y s) l T root us;
  ws_bytes : ubytes (mem s) us addr (Z.to_nat n) = bs
}.

(** What the writer leaves alone: memory and the processes that do not sleep. *)
Record wframe s s' : Prop := mkwframe {
  wf_mem : mem s' = mem s;
  wf_free : freelist s' = freelist s;
  wf_len : length (procs s') = length (procs s);
  wf_procs : forall i, i <> p -> p_state (get_proc s i) <> SLEEPING -> get_proc s' i = get_proc s i
}.

Hypothesis (Hacc : accessible T us PTE_U addr n) (Hn : 0 <= n < 2 ^ 31).

Lemma uvm_same s s' : (exists l, uvm_ok (set_syn y s) l T root us) -> mem s' = mem s -> freelist s' = freelist s ->
  exists l, uvm_ok (set_syn y s') l T root us.
Proof. intros [l U] Hm Hf. exists l. pose proof (uv_vm _ _ _ _ _ U) as (_ & _ & _ & _ & Hwf & Hlk). by apply (uvm_ok_keep _ _ _ _ _ _ U). Qed.
Lemma wst_syn s q y' : wst s q -> wst (set_syn y' s) q.
Proof. by intros []. Qed.
Lemma wst_procs s q ps : wst s q -> pcore <$> ps = pcore <$> procs s -> wst (set_procs ps s) q.
Proof.
  intros [W1 W2 W3 W4 W5 W6 W7 W8] H. assert (Hp : pcore (get_proc (set_procs ps s) p) = pcore (get_proc s p)).
  { apply (f_equal (fun l => l !! p)) in H. rewrite !list_lookup_fmap in H. unfold get_proc. cbn. destruct (ps !! p) as [a|], (procs s !! p) as [b|]; cbn in *; congruence. }
  split; try done.
  - apply (f_equal length) in H. rewrite !length_fmap in H. cbn. congruence.
  - rewrite <- W2. change (p_pagetable (pcore (get_proc (set_procs ps s) p)) = p_pagetable (pcore (get_proc s p))). by rewrite Hp.
  - rewrite <- W3. change (p_killed (pcore (get_proc (set_procs ps s) p)) = p_killed (pcore (get_proc s p))). by rewrite Hp.
  - by apply (uvm_same s).
Qed.

Lemma get_upd_pipe s f : get_pipe (upd_pipe pi f s) pi = f (get_pipe s pi).
Proof. unfold get_pipe, upd_pipe. cbn. by rewrite lookup_insert_eq. Qed.

Lemma full_len s q : wst s q -> plen (get_pipe s pi) = Z.of_nat (length q).
Proof. intros W. rewrite <- (ws_q _ _ W), length_pq. pose proof (plen_nonneg (get_pipe s pi)). lia. Qed.

(** A byte goes into the ring. *)
Lemma put_round k i s q e : syn s = acq y (Lpipe pi) -> wst s q -> 0 <= i < n -> Z.of_nat (length q) < PIPESIZE ->
  exists c s', pipewrite_loop (S k) pi p addr n i s e = pipewrite_loop k pi p addr n (i + 1) s' e /\
    bs !! Z.to_nat i = Some c /\ syn s' = acq y (Lpipe pi) /\ wst s' (q ++ [c]) /\ wframe s s'.
Proof using Q Hpi Hacc Hn.
  intros Hs W Hi Hq. pose proof W as [W1 W2 W3 W4 W5 W6 [l W7] W8]. pose proof (full_len _ _ W) as Hlen. pose proof (quiet_wf _ Q) as Hwf.
  cbn [pipewrite_loop]. rewrite (proj2 (Z.ltb_lt _ _)) by lia. cbn [negb]. kpure. rewrite W5. cbn [negb].
  erewrite bind_ok; [|apply (held_killed y _ (Lpipe pi)); [done|apply Q|done|done]]. rewrite W3. kpure.
  rewrite pipe_full_spec, (proj2 (Z.eqb_neq _ _)) by (done || lia). kpure. rewrite W2.
  assert (U : uvm_ok s l T root us).
  { apply (uvm_ok_keep _ s _ _ _ _ W7); [done|done|rewrite Hs; auto with xv6|]. rewrite Hs. apply lfree_acq; [done|]. apply quiet_lfree; [exact Q|in_static]. }
  destruct (accessible_va _ _ _ _ _ _ _ _ U Hacc ltac:(lia)) as [Hv1 Hv2]. rewrite u64_small by lia. unfold copyin.
  erewrite bind_ok; [|apply (copyin_loop_run _ s l T root us [] (addr + i) 1 e U)]; [|by apply (accessible_sub _ _ _ addr n); [|lia..]|lia|by apply copy_fuel].
  kpure. change (Z.to_nat 1) with 1%nat.
  assert (Hc : exists c, bs !! Z.to_nat i = Some c /\ ubytes (mem s) us (addr + i) 1 = [c]).
  { rewrite <- W8. replace (addr + i) with (addr + Z.of_nat (Z.to_nat i)) by lia. rewrite <- (ubytes_slice (mem s) us addr (Z.to_nat n) (Z.to_nat i) 1) by lia.
    destruct (lookup_lt_is_Some_2 (ubytes (mem s) us addr (Z.to_nat n)) (Z.to_nat i)) as [c Hc]; [rewrite length_ubytes; lia|].
    exists c. split; [done|]. unfold slice. by rewrite (drop_S _ c). }
  destruct Hc as (c & Hc1 & Hc2). rewrite Hc2. cbn [app ch]. exists c, (upd_pipe pi (pipe_put c) s).
  destruct (pipe_put_queue c (get_pipe s pi) W4 ltac:(lia)) as [Hok Hpq].
  split; [done|]. split; [done|]. split; [done|]. split; [|by split]. split; try done; rewrite ?get_upd_pipe; try done; [by rewrite Hpq, W6|].
  apply (uvm_same s); [by exists l|done|done].
Qed.

(** What the other processes are in between the turns, and what they have read; the
    writer's steps keep it. *)
Context (J : nat -> kstate -> Prop) (got : nat -> gmap Z Z -> list Z) (least : Z).
Hypothesis (HJ : forall k s s', wframe s s' -> J k s -> J k s') (Hleast : 0 < least).

(** The [k]-th turn of the others: when the pipe is full and the writer sleeps, they
    take at least [least] bytes from its front and wake the writer. *)
Definition drains (k : nat) (between : M unit) : Prop := forall s q,
  syn s = idle y -> wst s q -> Z.of_nat (length q) = PIPESIZE -> J k s ->
  p_state (get_proc s p) = SLEEPING -> p_chan (get_proc s p) = Some (Ch_nwrite pi) ->
  exists s2 b q' taken, between s [] = Ok () s2 [] /\ syn s2 = with_intena b (idle y) /\
    p_state (get_proc s2 p) = RUNNABLE /\ wst s2 q' /\ q = taken ++ q' /\ least <= Z.of_nat (length taken) /\
    J (S k) s2 /\ got (S k) (mem s2) = got k (mem s) ++ taken.

Lemma proc_lt s q : wst s q -> (p < length (procs s))%nat.
Proof using Q.
  intros W. rewrite (ws_len _ _ W). destruct Q as (((_ & Hlen & _) & _) & _). rewrite Hlen. apply thread_ok_lt, Q.
Qed.

Lemma wframe_procs s ps : length ps = length (procs s) ->
  (forall i, i <> p -> p_state (get_proc s i) <> SLEEPING -> ps !! i = procs s !! i) -> wframe s (set_procs ps s).
Proof. intros H1 H2. split; [done|done|done|]. intros i Hi Hst. unfold get_proc. cbn. by rewrite H2. Qed.

Lemma wframe_trans s1 s2 s3 : wframe s1 s2 -> wframe s2 s3 -> wframe s1 s3.
Proof.
  intros [A1 A2 A3 A4] [B1 B2 B3 B4]. split; [congruence..|]. intros i Hi Hst. rewrite B4; [by apply A4|done|by rewrite A4].
Qed.
Lemma wframe_syn s y' : wframe s (set_syn y' s).
Proof. by split. Qed.

(** Waking the readers and going to sleep. *)
Lemma wframe_wake s ch : wframe s (set_procs (wake_procs ch (Some p) (procs s)) s).
Proof.
  apply wframe_procs; [by rewrite length_wake_procs|]. intros i Hi Hst. rewrite lookup_wake_procs. unfold get_proc in Hst.
  destruct (procs s !! i) as [x|]; [|done]. cbn in *. f_equal. rewrite decide_False by congruence. unfold wake, sleeping_on. by rewrite bool_decide_false.
Qed.
Lemma wframe_self s f : wframe s (upd_proc p f s).
Proof. apply wframe_procs; [by rewrite length_alter|]. intros i Hi _. by rewrite list_lookup_alter_ne. Qed.

(** The ring is full: the writer sleeps until the others have had their turn. *)
Lemma sleep_round k i s q turn between e : syn s = acq y (Lpipe pi) -> wst s q -> 0 <= i < n -> Z.of_nat (length q) = PIPESIZE ->
  J turn s -> drains turn between ->
  exists s' q' taken, pipewrite_loop (S k) pi p addr n i s (swtch_away between :: e) = pipewrite_loop k pi p addr n i s' e /\
    syn s' = acq y (Lpipe pi) /\ wst s' q' /\ q = taken ++ q' /\ least <= Z.of_nat (length taken) /\
    J (S turn) s' /\ got (S turn) (mem s') = got turn (mem s) ++ taken.
Proof using Q Hpi Hacc Hn HJ Hleast.
  intros Hs W Hi Hq HJs Hd. pose proof W as [W1 W2 W3 W4 W5 W6 W7 W8]. pose proof (full_len _ _ W) as Hlen. pose proof (quiet_wf _ Q) as Hwf.
  set (s1 := set_procs (wake_procs (Ch_nread pi) (Some p) (procs s)) s).
  assert (Hw1 : wst s1 q) by (apply wst_procs; [done|apply pcore_wake_procs]).
  set (sA := set_syn (idle y) (upd_proc p (asleep (Ch_nwrite pi)) s1)). pose proof (proc_lt _ _ Hw1) as Hlt.
  destruct (lookup_lt_is_Some_2 (procs s1) p Hlt) as [x Hx].
  assert (HpA : get_proc sA p = asleep (Ch_nwrite pi) x).
  { unfold get_proc, sA. cbn. change (procs s1) with (wake_procs (Ch_nread pi) (Some p) (procs s)) in Hx. by rewrite list_lookup_alter_eq, Hx. }
  assert (HwA : wst sA q) by (apply wst_syn, wst_procs; [done|by apply pcore_alter]).
  assert (HfA : wframe s sA) by (eapply wframe_trans; [apply (wframe_wake s (Ch_nread pi))|]; eapply wframe_trans; [apply (wframe_self s1)|apply wframe_syn]).
  destruct (Hd sA q eq_refl HwA Hq (HJ _ _ _ HfA HJs)) as (s2 & b & q' & taken & Hrun & Hs2 & Hst & W2' & Hq' & Htk & HJ2 & Hgot); [by rewrite HpA|by rewrite HpA|].
  exists (set_syn (acq y (Lpipe pi)) (upd_proc p awake s2)), q', taken. split; [|split; [done|]].
  - cbn [pipewrite_loop]. rewrite (proj2 (Z.ltb_lt _ _)) by lia. cbn [negb]. kpure. rewrite W5. cbn [negb].
    erewrite bind_ok; [|apply (held_killed y _ (Lpipe pi)); [done|apply Q|done|done]]. rewrite W3. kpure.
    rewrite pipe_full_spec, (proj2 (Z.eqb_eq _ _)) by (done || lia).
    erewrite bind_ok; [|by apply (held_wakeup s0 s _ (Lpipe pi))]. fold s1.
    erewrite bind_ok; [reflexivity|]. apply (sleep_resumed s0 Q (Ch_nwrite pi) (Lpipe pi) between _ s2 b); [done|done|done| |done|done].
    exact Hrun.
  - split; [apply wst_syn, wst_procs; [done|by apply pcore_alter]|]. split; [done|]. split; [done|]. split; [|done].
    apply (HJ _ s2); [|done]. eapply wframe_trans; [apply (wframe_self s2)|apply wframe_syn].
Qed.

Lemma length_bs s q : wst s q -> length bs = Z.to_nat n.
Proof. intros W. rewrite <- (ws_bytes _ _ W). apply length_ubytes. Qed.

Lemma pipewrite_loop_runs fuel : forall rounds turn i s q e,
  syn s = acq y (Lpipe pi) -> wst s q -> J turn s -> 0 <= i <= n ->
  (forall k between, rounds !! k = Some between -> drains (turn + k) between) ->
  n - i <= PIPESIZE - Z.of_nat (length q) + least * Z.of_nat (length rounds) -> (Z.to_nat (n - i) + length rounds < fuel)%nat ->
  exists s' q' k, pipewrite_loop fuel pi p addr n i s ((swtch_away <$> rounds) ++ e) = Ok (Some n) s' ((swtch_away <$> drop k rounds) ++ e) /\
    (k <= length rounds)%nat /\ syn s' = acq y (Lpipe pi) /\ wst s' q' /\ J (turn + k) s' /\
    got (turn + k) (mem s') ++ q' = got turn (mem s) ++ q ++ drop (Z.to_nat i) bs.
Proof using Q Hpi Hacc Hn HJ Hleast.
  induction fuel as [|fuel IH]; intros rounds turn i s q e Hs W HJs Hi Hd Hcap Hf; [lia|]. pose proof (length_bs _ _ W) as Hbs.
  destruct (decide (i = n)) as [->|Hne].
  { exists s, q, 0%nat. rewrite drop_0, Nat.add_0_r, (drop_ge bs), app_nil_r by lia. cbn [pipewrite_loop]. rewrite Z.ltb_irrefl. cbn [negb]. by split_and!; [|lia|..]. }
  pose proof (full_len _ _ W) as Hlen. pose proof (po_len _ (ws_pipe _ _ W)) as Hle. destruct (decide (Z.of_nat (length q) = PIPESIZE)) as [Hfull|Hroom].
  - destruct rounds as [|between rounds]; [cbn in Hcap; lia|]. rewrite fmap_cons, <- app_comm_cons. cbn [length] in *.
    destruct (sleep_round fuel i s q turn between ((swtch_away <$> rounds) ++ e) Hs W ltac:(lia) Hfull HJs) as (s1 & q1 & taken & -> & Hs1 & W1 & Hq1 & Htk & HJ1 & Hg1).
    { specialize (Hd 0%nat between eq_refl). by rewrite Nat.add_0_r in Hd. }
    assert (Hl1 : Z.of_nat (length q) = Z.of_nat (length taken) + Z.of_nat (length q1)) by (rewrite Hq1, length_app; lia).
    destruct (IH rounds (S turn) i s1 q1 e Hs1 W1 HJ1 Hi) as (s' & q' & k & Hrun & Hk & Hs' & W' & HJ' & Hg'); [|lia|lia|].
    { intros k b Hb. specialize (Hd (S k) b Hb). by rewrite Nat.add_succ_r in Hd. }
    exists s', q', (S k). rewrite Hrun. cbn [Nat.add] in HJ', Hg'. cbn [drop]. rewrite Nat.add_succ_r. split_and!; try done; [lia|].
    rewrite Hg', Hg1, Hq1. by rewrite <- !app_assoc.
  - destruct (put_round fuel i s q ((swtch_away <$> rounds) ++ e) Hs W ltac:(lia) ltac:(lia)) as (c & s1 & -> & Hc & Hs1 & W1 & F1).
    destruct (IH rounds turn (i + 1) s1 (q ++ [c]) e Hs1 W1 (HJ _ _ _ F1 HJs) ltac:(lia) Hd) as (s' & q' & k & Hrun & Hk & Hs' & W' & HJ' & Hg');
      [rewrite length_app; cbn; lia|lia|].
    exists s', q', k. split_and!; try done. rewrite Hg', (wf_mem _ _ F1). f_equal. rewrite <- app_assoc. f_equal. cbn [app].
    rewrite (drop_S bs c (Z.to_nat i)) by done. do 2 f_equal. lia.
Qed.

(** A pipe is a stream.  A write of any size into a pipe that other processes empty
    in their turns returns the number of bytes asked for; what the others have read and
    what is left in the pipe together are what was there before, followed by the bytes
    of the writer's buffer: nothing is lost, repeated or reordered, however often the
    writer had to sleep. *)
Lemma pipewrite_stream q rounds e :
  wst s0 q -> J 0%nat s0 -> (forall k between, rounds !! k = Some between -> drains k between) ->
  n <= PIPESIZE - Z.of_nat (length q) + least * Z.of_nat (length rounds) ->
  exists s' q' k, pipewrite pi addr n s0 ((swtch_away <$> rounds) ++ e) = Ok n s' ((swtch_away <$> drop k rounds) ++ e) /\
    wst s' q' /\ J k s' /\ got k (mem s') ++ q' = got 0%nat (mem s0) ++ q ++ bs.
Proof using Q Hpi Hacc Hn HJ Hleast.
  intros W HJ0 Hd Hcap. pose proof (quiet_wf _ Q) as Hwf. unfold pipewrite. set (e1 := (swtch_away <$> rounds) ++ e).
  kstep ltac:(apply myproc_run; exact Hwf). rewrite (thread_ok_cur _ (quiet_thread _ Q)). cbn [deref]. kpure.
  kstep ltac:(apply acquire_free; cbn; [auto with xv6|by apply lfree_touch]). cbn [syn set_syn]. rewrite acq_touch by done.
  set (s1 := set_syn (acq y (Lpipe pi)) (set_syn (touch y) s0)). assert (W1 : wst s1 q) by (by apply wst_syn, wst_syn).
  assert (F1 : wframe s0 s1) by (eapply wframe_trans; apply wframe_syn).
  destruct (pipewrite_loop_runs (S (Z.to_nat n + length e1)) rounds 0 0 s1 q e eq_refl W1 (HJ _ _ _ F1 HJ0) ltac:(lia) Hd ltac:(lia))
    as (s2 & q2 & k & Hrun & Hk & Hs2 & W2 & HJ2 & Hg2); [unfold e1; rewrite length_app, length_fmap; lia|].
  erewrite bind_ok; [|exact Hrun]. cbn [Nat.add] in *.
  erewrite bind_ok; [|apply (held_wakeup s0 s2 _ (Lpipe pi)); [done|done|done|apply W2]].
  erewrite bind_ok; [|apply (release_acq _ _ y); [done|done|reflexivity]]. eexists _, q2, k. split; [reflexivity|].
  set (s3 := set_procs (wake_procs (Ch_nread pi) (Some p) (procs s2)) s2).
  split; [apply wst_syn; apply (wst_syn s3); apply wst_procs; [done|apply pcore_wake_procs]|].
  split; [|exact Hg2]. apply (HJ _ s2); [|done]. eapply wframe_trans; [apply (wframe_wake s2 (Ch_nread pi))|]. by split.
Qed.

End Writer.

(** ** The reader *)

Section Reader.
Context {L : Layout} (s0 : kstate) (Q : quiet s0) (pi : Z) (Hpi : lfree (syn s0) (Lpipe pi)).
Context (root : Z) (l : list Z) (T : pgt) (us : list Z) (addr n : Z).
Hypothesis (Hacc : accessible T us PTE_W addr n) (Hn : 0 <= n).
Notation y := (syn s0).
Notation p := (cur s0).

(** The bytes of [out] have been stored at [addr]; nothing else of memory has changed
    since it was [m0]. *)
Definition got_bytes (m0 : gmap Z Z) (out : list Z) (m : gmap Z Z) : Prop :=
  mem_frame us m0 m /\ forall va, 0 <= va < Z.of_nat (length us) * PGSIZE ->
    ld8 m (uaddr us va) = if decide (addr <= va < addr + Z.of_nat (length out)) then default 0 (out !! Z.to_nat (va - addr))
      else ld8 m0 (uaddr us va).

Lemma got_bytes_nil m : got_bytes m [] m.
Proof. split; [done|]. intros va _. by rewrite decide_False by (cbn; lia). Qed.

Lemma got_bytes_snoc m0 out m c m' : got_bytes m0 out m -> mem_frame us m m' ->
  (forall va, 0 <= va < Z.of_nat (length us) * PGSIZE -> ld8 m' (uaddr us va) =
    if decide (addr + Z.of_nat (length out) <= va < addr + Z.of_nat (length out) + 1) then c else ld8 m (uaddr us va)) ->
  got_bytes m0 (out ++ [c]) m'.
Proof.
  intros [F H] F' H'. split; [by apply (mem_frame_trans _ _ m)|]. intros va Hva. rewrite H', length_app by done. cbn [length]. destruct (decide (_ <= va < _)) as [Hc|Hc].
  - rewrite decide_True by lia. rewrite lookup_app_r by lia. replace (Z.to_nat (va - addr) - length out)%nat with 0%nat by lia. done.
  - rewrite H by done. destruct (decide (addr <= va < addr + Z.of_nat (length out))) as [Hi|Hi].
    + rewrite decide_True by lia. by rewrite lookup_app_l by lia.
    + by rewrite decide_False by lia.
Qed.

Lemma got_bytes_read m0 out m : got_bytes m0 out m -> 0 <= addr -> addr + Z.of_nat (length out) <= Z.of_nat (length us) * PGSIZE ->
  ubytes m us addr (length out) = out.
Proof.
  intros [_ H] Hv Hl. apply list_eq. intros i. unfold ubytes. rewrite list_lookup_fmap.
  destruct (decide (i < length out)%nat) as [Hi|Hi]; [|by rewrite lookup_seq_ge, lookup_ge_None_2 by lia].
  rewrite lookup_seq_lt by done. cbn. rewrite H, decide_True by lia. replace (Z.to_nat (addr + Z.of_nat i - addr)) with i by lia.
  by destruct (lookup_lt_is_Some_2 out i Hi) as [x ->].
Qed.

(** The state of the reader's loop over the state [sB] in which it began. *)
Record rst (sB s : kstate) (out q : list Z) : Prop := mkrst {
  rs_state : exists m P, s = set_mem m (set_pipes P sB);
  rs_uvm : uvm_ok s l T root us;
  rs_got : got_bytes (mem sB) out (mem s);
  rs_pipe : pipe_ok (get_pipe s pi);
  rs_q : pq (get_pipe s pi) = q;
  rs_open : pi_readopen (get_pipe s pi) = pi_readopen (get_pipe sB pi) /\ pi_writeopen (get_pipe s pi) = pi_writeopen (get_pipe sB pi);
  rs_others : forall pi', pi' <> pi -> get_pipe s pi' = get_pipe sB pi'
}.

Lemma piperead_copy_runs k : forall sB s out q e,
  syn sB = acq y (Lpipe pi) -> p_pagetable (get_proc sB p) = root -> rst sB s out q ->
  Z.of_nat (length out) + Z.of_nat k <= n ->
  exists s', piperead_copy k pi p addr (Z.of_nat (length out)) s e = Ok (Z.of_nat (length (out ++ take k q))) s' e /\ rst sB s' (out ++ take k q) (drop k q).
Proof using Q Hacc Hn.
  induction k as [|k IH]; intros sB s out q e Hs Hroot R Hk.
  { exists s. by rewrite take_0, drop_0, app_nil_r. }
  pose proof R as [(m & P & ->) U G Po Hq [Ho1 Ho2] Hoth]. set (s := set_mem m (set_pipes P sB)) in *.
  assert (Hlen : plen (get_pipe s pi) = Z.of_nat (length q)) by (rewrite <- Hq, length_pq; pose proof (plen_nonneg (get_pipe s pi)); lia).
  cbn [piperead_copy]. kpure. rewrite pipe_empty_spec by done. destruct q as [|c q].
  { rewrite Hlen. cbn [length Z.of_nat Z.eqb]. exists s. cbn [take drop]. by rewrite app_nil_r. }
  assert (Hpos : 0 < plen (get_pipe s pi)) by (rewrite Hlen; cbn [length]; lia). rewrite (proj2 (Z.eqb_neq _ _)) by lia. kpure.
  destruct (pipe_drop_queue _ Po Hpos) as [Po1 Hq1]. rewrite Hq in Hq1. injection Hq1 as Hc Hq1. rewrite <- Hc.
  set (s1 := upd_pipe pi pipe_drop s). change (get_proc s1 p) with (get_proc sB p). rewrite Hroot.
  destruct (accessible_va _ _ _ _ _ _ _ _ U Hacc Hn) as [Hv1 Hv2]. rewrite u64_small by lia.
  assert (U1 : uvm_ok s1 l T root us).
  { pose proof (uv_vm _ _ _ _ _ U) as (_ & _ & _ & _ & Hwf & Hlk). by apply (uvm_ok_keep s). }
  destruct (copyout_loop_run (Z.to_nat (1 / PGSIZE + 3)) s1 l T root us (addr + Z.of_nat (length out)) [c] 1 e U1)
    as (s2 & Hr & Hms & U2 & Hf2 & Hb2); [by apply (accessible_sub _ _ _ addr n); [|lia..]|done|by apply copy_fuel|].
  destruct (memstep_keep _ _ _ _ _ _ Hms U1 U2) as (m2 & y2 & -> & Hy2).
  assert (y2 = syn s1) as ->. { destruct Hy2 as [->| ->]; [done|]. change (syn s1) with (syn sB). rewrite Hs. apply touch_acq. by apply quiet_wf. }
  assert (E : set_syn (syn s1) (set_mem m2 s1) = set_mem m2 (set_pipes (pipes s1) sB)) by (by kext).
  unfold copyout. erewrite bind_ok; [|exact Hr]. cbn [Z.eqb]. rewrite E in U2 |- *. set (s3 := set_mem m2 (set_pipes (pipes s1) sB)) in *.
  assert (Hp3 : forall pi', get_pipe s3 pi' = get_pipe s1 pi') by done.
  destruct (IH sB s3 (out ++ [c]) q e Hs Hroot) as (s' & Hrun & R'); [|rewrite length_app; cbn; lia|].
  - split; rewrite ?Hp3; [by exists m2, (pipes s1)|exact U2| | | | |].
    + apply (got_bytes_snoc _ _ (mem s) c); [done|done|]. intros va Hva. etrans; [exact (Hb2 va Hva)|]. destruct (decide (_ <= va < _)) as [Hi|Hi]; [|done].
      replace (Z.to_nat (va - (addr + Z.of_nat (length out)))) with 0%nat by lia. done.
    + unfold s1. by rewrite get_upd_pipe.
    + unfold s1. by rewrite get_upd_pipe.
    + unfold s1. rewrite get_upd_pipe. done.
    + intros pi' Hne. rewrite Hp3. rewrite <- Hoth by done. unfold s1, get_pipe, upd_pipe. cbn. by rewrite lookup_insert_ne.
  - exists s'. rewrite length_app in Hrun. cbn [length] in Hrun. replace (Z.of_nat (length out) + 1) with (Z.of_nat (length out + 1)) by lia.
    rewrite Hrun. cbn [take drop]. by rewrite <- !app_assoc in *.
Qed.

(** The effect of a read that began in [sB] with [q] in the pipe. *)
Record took (sB : kstate) (q : list Z) (s' : kstate) : Prop := mktook {
  tk_state : exists m P, s' = set_syn (touch y) (set_procs (wake_procs (Ch_nwrite pi) (Some p) (procs sB)) (set_mem m (set_pipes P sB)));
  tk_uvm : uvm_ok s' l T root us;
  tk_got : got_bytes (mem sB) (take (Z.to_nat n) q) (mem s');
  tk_pipe : pipe_ok (get_pipe s' pi);
  tk_q : pq (get_pipe s' pi) = drop (Z.to_nat n) q;
  tk_open : pi_readopen (get_pipe s' pi) = pi_readopen (get_pipe sB pi) /\ pi_writeopen (get_pipe s' pi) = pi_writeopen (get_pipe sB pi);
  tk_others : forall pi', pi' <> pi -> get_pipe s' pi' = get_pipe sB pi'
}.

(** The second half of [piperead]. *)
Definition read_rest : M Z :=
  i ← piperead_copy (Z.to_nat n) pi p addr 0;
  wakeup (Ch_nwrite pi);;
  release (Lpipe pi);;
  mret i.

Lemma read_rest_runs sB q e :
  syn sB = acq y (Lpipe pi) -> length (procs sB) = length (procs s0) -> p_pagetable (get_proc sB p) = root ->
  uvm_ok sB l T root us -> pipe_ok (get_pipe sB pi) -> pq (get_pipe sB pi) = q ->
  exists s', read_rest sB e = Ok (Z.min n (Z.of_nat (length q))) s' e /\ took sB q s'.
Proof using Q Hpi Hacc Hn.
  intros Hs Hlen Hroot U Po Hq. destruct (piperead_copy_runs (Z.to_nat n) sB sB [] q e Hs Hroot) as (s1 & Hrun & R1); [|cbn; lia|].
  { split; try done; [by exists (mem sB), (pipes sB); kext|apply got_bytes_nil]. }
  cbn [app length Z.of_nat] in Hrun, R1. pose proof R1 as [(m & P & ->) U1 G1 Po1 Hq1 Ho1 Hoth1].
  unfold read_rest. erewrite bind_ok; [|exact Hrun]. erewrite bind_ok; [|by apply (held_wakeup s0 _ _ (Lpipe pi))].
  erewrite bind_ok; [|apply (release_acq _ _ y); [by apply quiet_wf|done|reflexivity]]. eexists. split.
  { unfold mret, KM_ret. apply Ok_eq; [|reflexivity]. rewrite length_take. lia. }
  split; try done.
  - exists m, P. by kext.
  - apply (uvm_ok_keep _ _ _ _ _ _ U1); [done|done|apply cpu_wf_touch, quiet_wf, Q|]. cbn. apply lfree_touch, quiet_lfree; [exact Q|in_static].
Qed.

End Reader.

Section Read.
Context {L : Layout} (s0 : kstate) (Q : quiet s0) (pi : Z) (Hpi : lfree (syn s0) (Lpipe pi)).
Context (root : Z) (T : pgt) (us : list Z) (addr n : Z).
Hypothesis (Hacc : accessible T us PTE_W addr n) (Hn : 0 <= n).
Notation y := (syn s0).
Notation p := (cur s0).

(** The pipe holds [q]; the reader lives and owns its buffer. *)
Record rdy (s : kstate) (l : list Z) (q : list Z) : Prop := mkrdy {
  rd_len : length (procs s) = length (procs s0);
  rd_root : p_pagetable (get_proc s p) = root;
  rd_alive : p_killed (get_proc s p) = false;
  rd_pipe : pipe_ok (get_pipe s pi);
  rd_q : pq (get_pipe s pi) = q;
  rd_uvm : uvm_ok (set_syn y s) l T root us
}.

(** A read does not wait. *)
Definition readable (s : kstate) (q : list Z) : Prop := q <> [] \/ pi_writeopen (get_pipe s pi) = false.

(** The turn of the others, while the reader sleeps on an empty pipe, ends in [s2]:
    they leave bytes in the pipe or close it, and wake the reader. *)
Definition reader_asleep : kstate := set_syn (idle y) (upd_proc p (asleep (Ch_nread pi)) s0).
Definition fills (between : M unit) (s2 : kstate) (l2 q2 : list Z) : Prop :=
  exists b, between reader_asleep [] = Ok () s2 [] /\ syn s2 = with_intena b (idle y) /\
    p_state (get_proc s2 p) = RUNNABLE /\ rdy s2 l2 q2 /\ readable s2 q2.

Lemma rdy_empty s l q : rdy s l q -> (pipe_empty (get_pipe s pi) && pi_writeopen (get_pipe s pi) = false <-> readable s q).
Proof.
  intros R. pose proof (rd_q _ _ _ R) as Hq. rewrite pipe_empty_spec by apply R. pose proof (length_pq (get_pipe s pi)) as Hl. rewrite Hq in Hl.
  pose proof (plen_nonneg (get_pipe s pi)) as Hp. unfold readable. destruct q as [|c q]; cbn [length] in Hl.
  - rewrite (proj2 (Z.eqb_eq _ _)) by lia. cbn. naive_solver.
  - rewrite (proj2 (Z.eqb_neq _ _)) by lia. cbn. naive_solver.
Qed.

Lemma piperead_start e : piperead pi addr n s0 e =
  (alive ← piperead_wait (S (length e)) pi p;
   if negb alive then release (Lpipe pi);; mret (-1) else read_rest s0 pi addr n) (set_syn (acq y (Lpipe pi)) s0) e.
Proof using Q Hpi.
  pose proof (quiet_wf _ Q) as Hwf. unfold piperead. kstep ltac:(apply myproc_run; exact Hwf).
  rewrite (thread_ok_cur _ (quiet_thread _ Q)). cbn [deref]. kpure.
  kstep ltac:(apply acquire_free; cbn; [auto with xv6|by apply lfree_touch]). cbn [syn set_syn]. rewrite acq_touch by done. done.
Qed.

Lemma rdy_rest s l q e : syn s = acq y (Lpipe pi) -> rdy s l q ->
  exists s', read_rest s0 pi addr n s e = Ok (Z.min n (Z.of_nat (length q))) s' e /\ took s0 pi root l T us addr n s q s'.
Proof using Q Hpi Hacc Hn.
  intros Hs [R1 R2 R3 R4 R5 R6]. apply (read_rest_runs s0 Q pi Hpi); try done.
  apply (uvm_ok_keep _ _ _ _ _ _ R6); [done|done|rewrite Hs; apply cpu_wf_acq, quiet_wf, Q|]. rewrite Hs. apply lfree_acq; [done|]. apply quiet_lfree; [exact Q|in_static].
Qed.

Lemma piperead_ready l q e : rdy s0 l q -> readable s0 q ->
  exists s', piperead pi addr n s0 e = Ok (Z.min n (Z.of_nat (length q))) s' e /\
    took s0 pi root l T us addr n (set_syn (acq y (Lpipe pi)) s0) q s'.
Proof using Q Hpi Hacc Hn.
  intros R Hr. rewrite piperead_start. pose proof (proj2 (rdy_empty _ _ _ R) Hr) as He. cbn [piperead_wait]. kpure.
  change (get_pipe (set_syn _ s0) pi) with (get_pipe s0 pi). rewrite He. kpure. cbn [negb]. apply rdy_rest; [done|]. by destruct R.
Qed.

Lemma piperead_blocked l between s2 l2 q2 e : rdy s0 l [] -> ~ readable s0 [] -> fills between s2 l2 q2 ->
  exists s', piperead pi addr n s0 (swtch_away between :: e) = Ok (Z.min n (Z.of_nat (length q2))) s' e /\
    took s0 pi root l2 T us addr n (set_syn (acq y (Lpipe pi)) (upd_proc p awake s2)) q2 s'.
Proof using Q Hpi Hacc Hn.
  intros R Hnr Hf. rewrite piperead_start. set (s1 := set_syn (acq y (Lpipe pi)) s0). pose proof (quiet_wf _ Q) as Hwf.
  assert (He : pipe_empty (get_pipe s0 pi) && pi_writeopen (get_pipe s0 pi) = true).
  { apply not_false_iff_true. by rewrite (rdy_empty _ _ _ R). }
  destruct Hf as (b & Hrun & Hs2 & Hst & R2 & Hr2). assert (Hlk : lfree y Lkmem) by (apply quiet_lfree; [exact Q|in_static]).
  set (s3 := set_syn (acq y (Lpipe pi)) (upd_proc p awake s2)).
  assert (R3 : rdy s3 l2 q2).
  { destruct R2 as [A1 A2 A3 A4 A5 A6]. assert (Hcore : pcore (get_proc s3 p) = pcore (get_proc s2 p)).
    { unfold get_proc, s3. cbn. rewrite list_lookup_alter_eq. by destruct (procs s2 !! p). }
    split; try done; [cbn; by rewrite length_alter| | |].
    - rewrite <- A2. change (p_pagetable (pcore (get_proc s3 p)) = p_pagetable (pcore (get_proc s2 p))). by rewrite Hcore.
    - rewrite <- A3. change (p_killed (pcore (get_proc s3 p)) = p_killed (pcore (get_proc s2 p))). by rewrite Hcore.
    - by apply (uvm_ok_keep _ _ _ _ _ _ A6). }
  cbn [length piperead_wait]. rewrite bind_assoc. kpure. change (get_pipe s1 pi) with (get_pipe s0 pi). rewrite He. rewrite !bind_assoc.
  erewrite bind_ok; [|apply (held_killed y _ (Lpipe pi)); [done|apply Q|done|done]]. change (get_proc s1 p) with (get_proc s0 p). rewrite (rd_alive _ _ _ R).
  rewrite bind_assoc. erewrite bind_ok; [|by apply (sleep_resumed s0 Q (Ch_nread pi) (Lpipe pi) between s1 s2 b)]. fold s3.
  cbn [piperead_wait]. rewrite bind_assoc. kpure. rewrite (proj2 (rdy_empty _ _ _ R3)) by done. kpure. cbn [negb]. by apply rdy_rest.
Qed.

(** C26 a read takes bytes from the front of the pipe.  It returns the smaller of the
    number asked for and the number there is, 0 if the pipe is empty and closed; the
    bytes are in the buffer in the order of the pipe, the rest stays, no other byte of
    memory changes, and sleeping writers are woken.  On an empty pipe that can be
    written the reader sleeps, and the same holds of the bytes it finds when the others
    have left some and woken it. *)
Theorem piperead_takes l q e : rdy s0 l q ->
  (readable s0 q -> exists s', piperead pi addr n s0 e = Ok (Z.min n (Z.of_nat (length q))) s' e /\
     took s0 pi root l T us addr n (set_syn (acq y (Lpipe pi)) s0) q s') /\
  (~ readable s0 q -> forall between s2 l2 q2, fills between s2 l2 q2 ->
     exists s', piperead pi addr n s0 (swtch_away between :: e) = Ok (Z.min n (Z.of_nat (length q2))) s' e /\
       took s0 pi root l2 T us addr n (set_syn (acq y (Lpipe pi)) (upd_proc p awake s2)) q2 s').
Proof using Q Hpi Hacc Hn.
  intros R. split; [by apply piperead_ready|]. intros Hnr between s2 l2 q2 Hf. assert (q = []) as -> by (destruct q; [done|]; destruct Hnr; by left).
  by apply (piperead_blocked l between).
Qed.

End Read.

(** ** Two processes and a pipe *)

Section Frames.
Context {L : Layout}.

Lemma fl_rep_inj m l : layout_ok -> forall h l', fl_rep m h l -> fl_rep m h l' -> Forall page_ok l -> Forall page_ok l' -> l = l'.
Proof.
  intros HL. induction l as [|a l IH]; intros h [|b l'] H H' F F'; cbn in *; [done|..].
  - destruct H' as [-> _]. apply Forall_cons in F' as [[_ ?] _]. unfold layout_ok in HL. lia.
  - destruct H as [-> _]. apply Forall_cons in F as [[_ ?] _]. unfold layout_ok in HL. lia.
  - destruct H as [-> H], H' as [-> H']. f_equal. apply Forall_cons in F as [_ F], F' as [_ F']. by apply (IH (ld64 m b)).
Qed.
Lemma kmem_inj s l l' : layout_ok -> kmem_inv s l -> kmem_inv s l' -> l = l'.
Proof. intros HL (H1 & _ & H2) (H3 & _ & H4). by apply (fl_rep_inj (mem s) l HL (freelist s)). Qed.

(** Writing to pages that are not an address space's leaves it as it was. *)
Lemma uvm_ok_frame s l T root us fs m :
  uvm_ok s l T root us -> Forall page_ok fs -> (forall f, f ∈ fs -> f ∉ pt_tab_pages T /\ f ∉ l) -> mem_frame fs (mem s) m ->
  uvm_ok (set_mem m s) l T root us.
Proof.
  intros [(HL & Hk & HT & Hd & Hwf & Hlk) Hroot Hm Hf Hsz Hnd Hkeys] Hok Hn Hfr.
  split; try done. refine (conj HL (conj _ (conj _ (conj Hd (conj Hwf Hlk))))).
  - refine (kmem_frame fs s l m Hfr _ _ Hk); [done|]. intros x Hx. by apply Hn.
  - split; try apply HT. intros q pg i Hq Hi. rewrite <- (rep_word _ _ HT _ _ _ Hq Hi).
    refine (frame_word fs _ _ _ _ Hfr _ (proj1 (rep_page _ _ HT _ _ Hq)) _ Hi); [done|].
    intros Hin. destruct (Hn _ Hin) as [Hn1 _]. apply Hn1. by eapply tab_page_in.
Qed.

Lemma ubytes_frame s l T root us fs m va k :
  uvm_ok s l T root us -> Forall page_ok fs -> (forall f, f ∈ fs -> f ∉ us) -> mem_frame fs (mem s) m ->
  0 <= va -> va + Z.of_nat k <= Z.of_nat (length us) * PGSIZE -> ubytes m us va k = ubytes (mem s) us va k.
Proof.
  intros U Hok Hn Hfr Hva Hle. unfold ubytes. apply list_fmap_ext. intros i j Hj. apply lookup_seq in Hj as [-> Hj]. apply Hfr. intros q Hq Hin. cbn in *.
  set (a := va + Z.of_nat i) in *. pose proof (Z.mod_pos_bound a PGSIZE ltac:(done)) as Hmod. pose proof (Z.div_mod a PGSIZE ltac:(done)) as Hdm.
  assert (Hlt : (Z.to_nat (a / PGSIZE) < length us)%nat).
  { pose proof (Z.div_lt_upper_bound a PGSIZE (Z.of_nat (length us)) ltac:(done) ltac:(lia)). pose proof (Z.div_pos a PGSIZE ltac:(lia) ltac:(done)). lia. }
  destruct (lookup_lt_is_Some_2 us _ Hlt) as [f Hf]. destruct (uv_maps _ _ _ _ _ U _ _ Hf) as (_ & _ & _ & _ & Hpok).
  unfold uaddr in Hin. rewrite Hf in Hin. cbn in Hin. rewrite list.Forall_forall in Hok.
  assert (q = f) as -> by (apply (page_ok_disj q f (f + a mod PGSIZE)); [by apply Hok|done|done|unfold in_page; lia]).
  apply (Hn f Hq). by eapply list_elem_of_lookup_2.
Qed.

End Frames.

Section Transfer.
Context {L : Layout} (s0 : kstate) (Q : quiet s0) (pi : Z) (Hpi : lfree (syn s0) (Lpipe pi)).
Notation y := (syn s0).
Notation p := (cur s0).

(** The writer is the running process, with [n] bytes at [addr]. *)
Context (root : Z) (T : pgt) (us : list Z) (addr n : Z) (bs : list Z).
Hypothesis (Hacc : accessible T us PTE_U addr n) (Hn : 0 <= n < 2 ^ 31).

(** The reader is process [r]; in its turns it reads [m] bytes each, one after the
    other, into the buffer at [a], which has room for [N] turns. *)
Context (r : nat) (root' : Z) (T' : pgt) (us' : list Z) (a m : Z) (N : nat).
Hypothesis (Hr : (r < Z.to_nat NPROC)%nat) (Hrp : r <> p) (Hm : 0 < m <= PIPESIZE).
Hypothesis (Hacc' : accessible T' us' PTE_W a (m * Z.of_nat N)).
(** The two have no page in common. *)
Hypothesis (Hdis : forall f, f ∈ us' -> f ∉ us /\ f ∉ pt_tab_pages T).

Record reading (s : kstate) : Prop := mkreading {
  rg_state : p_state (get_proc s r) = RUNNABLE;
  rg_root : p_pagetable (get_proc s r) = root';
  rg_alive : p_killed (get_proc s r) = false;
  rg_uvm : exists l, uvm_ok (set_syn y s) l T' root' us'
}.
Definition received (k : nat) (mm : gmap Z Z) : list Z := ubytes mm us' a (Z.to_nat m * k).
Definition read_turn (k : nat) : M unit := turn r (piperead pi (a + m * Z.of_nat k) m;; mret ()).

Lemma reading_keep s s' : wframe s0 s s' -> reading s -> reading s'.
Proof using Hrp.
  intros [F1 F2 F3 F4] [R1 R2 R3 R4]. assert (E : get_proc s' r = get_proc s r) by (apply F4; [done|by rewrite R1]).
  split; rewrite ?E; try done. by apply (uvm_same s0 root' T' us' s).
Qed.

Lemma user_page_ok s l (T1 : pgt) root1 us1 : uvm_ok s l T1 root1 us1 -> Forall page_ok us1.
Proof.
  intros U. apply Forall_lookup. intros i f Hf. by destruct (uv_maps _ _ _ _ _ U _ _ Hf) as (_ & _ & _ & _ & Hok).
Qed.

(** The reader's pages are not the writer's, nor free. *)
Lemma reader_pages s l l' : uvm_ok s l T root us -> uvm_ok s l' T' root' us' -> l' = l /\ forall f, f ∈ us' -> f ∉ pt_tab_pages T /\ f ∉ l.
Proof using Hdis.
  intros U U'. assert (l' = l) as ->.
  { destruct (uv_vm _ _ _ _ _ U) as (HL & Hk & _), (uv_vm _ _ _ _ _ U') as (_ & Hk' & _). by apply (kmem_inj s). }
  split; [done|]. intros f Hf. split; [by apply Hdis|]. pose proof (uv_pages _ _ _ _ _ U') as Hnd. apply NoDup_app in Hnd as (_ & Hnd & _).
  specialize (Hnd f Hf). by apply not_elem_of_app in Hnd as [_ ?].
Qed.

Lemma received_next k mm0 mm out : got_bytes us' (a + m * Z.of_nat k) mm0 out mm -> Z.of_nat (length out) = m -> 0 <= a ->
  a + m * (Z.of_nat k + 1) <= Z.of_nat (length us') * PGSIZE -> received (S k) mm = received k mm0 ++ out.
Proof using Hm.
  clear Hn Hr Hrp. intros G Hout Ha Hle. unfold received. replace (Z.to_nat m * S k)%nat with (Z.to_nat m * k + Z.to_nat m)%nat by lia. rewrite ubytes_app. f_equal.
  - unfold ubytes. apply list_fmap_ext. intros i j Hj. apply lookup_seq in Hj as [-> Hj]. cbn. destruct G as [_ G]. rewrite G by lia.
    by rewrite decide_False by lia.
  - replace (a + Z.of_nat (Z.to_nat m * k)) with (a + m * Z.of_nat k) by lia. replace (Z.to_nat m) with (length out) by lia.
    apply (got_bytes_read _ _ mm0); [done|lia|lia].
Qed.

(** The turn of the reader, on a full pipe. *)
Lemma read_turn_drains k : (k < N)%nat -> drains s0 pi root T us addr n bs (fun k s => reading s /\ (k <= N)%nat) received m k (read_turn k).
Proof using Q Hpi Hr Hrp Hm Hacc Hacc' Hn Hdis.
  intros Hk s q Hs W Hq [[R1 R2 R3 [l' R4]] _] Hst Hch. pose proof W as [W1 W2 W3 W4 W5 W6 [l W7] W8].
  destruct (reader_pages _ _ _ W7 R4) as [-> Hpg]. pose proof (user_page_ok _ _ _ _ _ R4) as Hok'. destruct (quiet_procs _ Q) as [Hps _].
  set (sB := set_syn (running r y) (upd_proc r (set_p_state RUNNING) s)).
  destruct (running_quiet s0 Q r Hr sB eq_refl) as [QB HcB]; [cbn; by rewrite length_alter|].
  destruct (lookup_lt_is_Some_2 (procs s) r) as [x Hx]; [lia|]. assert (Hgx : get_proc s r = x) by (unfold get_proc; by rewrite Hx).
  assert (HB : get_proc sB r = set_p_state RUNNING x) by (unfold get_proc, sB; cbn; by rewrite list_lookup_alter_eq, Hx).
  assert (Rdy : rdy sB pi root' T' us' sB l q).
  { split; rewrite ?HcB, ?HB, <- ?Hgx; try done. apply (uvm_ok_keep _ _ _ _ _ _ R4); [done|done|by apply quiet_wf|]. apply quiet_lfree; [exact QB|in_static]. }
  assert (Ha' : accessible T' us' PTE_W (a + m * Z.of_nat k) m) by (apply (accessible_sub _ _ _ a (m * Z.of_nat N)); [done|nia|lia|nia]).
  destruct (piperead_ready sB QB pi Hpi root' T' us' (a + m * Z.of_nat k) m Ha' ltac:(lia) l q [] Rdy) as (sC & Hrun & Tk); [left; intros ->; done|].
  destruct Tk as [(mm & P & EC) UC GC PoC HqC HoC _]. change (syn sB) with (running r y) in *. rewrite HcB, (running_touch s0 Q r) in EC.
  set (s2 := set_syn (with_intena true (idle y)) (upd_proc r (set_p_state RUNNABLE) sC)).
  pose proof (thread_ok_lt _ (quiet_thread _ Q)) as Hplt. destruct (lookup_lt_is_Some_2 (procs s) p) as [xp Hxp]; [lia|].
  assert (Hgp : get_proc s p = xp) by (unfold get_proc; by rewrite Hxp). rewrite Hgp in *.
  assert (Hps2 : procs s2 = alter (set_p_state RUNNABLE) r (wake_procs (Ch_nwrite pi) (Some r) (alter (set_p_state RUNNING) r (procs s)))) by (unfold s2; by rewrite EC).
  assert (Hp2 : get_proc s2 p = set_p_state RUNNABLE xp).
  { unfold get_proc. rewrite Hps2, list_lookup_alter_ne, lookup_wake_procs, list_lookup_alter_ne, Hxp by done. cbn.
    rewrite decide_False by congruence. unfold wake, sleeping_on. by rewrite !bool_decide_true. }
  assert (Hr2 : get_proc s2 r = set_p_state RUNNABLE x).
  { unfold get_proc. rewrite Hps2, list_lookup_alter_eq, lookup_wake_procs, list_lookup_alter_eq, Hx. cbn. by rewrite decide_True. }
  assert (Hm2 : mem s2 = mem sC) by done. assert (Hf2 : freelist s2 = freelist s) by (unfold s2; by rewrite EC).
  pose proof (uv_vm _ _ _ _ _ W7) as (_ & _ & _ & _ & Hwf & Hlk). destruct Ha' as (Ha1 & Ha2 & _).
  assert (Hout : Z.of_nat (length (take (Z.to_nat m) q)) = m) by (rewrite length_take; lia).
  exists s2, true, (drop (Z.to_nat m) q), (take (Z.to_nat m) q). split_and!; try done.
  - unfold read_turn. apply (turn_run s0 Q r Hr); [done|exact R1| |by rewrite EC]. fold sB. by rewrite (bind_ok _ _ _ _ _ _ _ Hrun).
  - by rewrite Hp2.
  - split; rewrite ?Hp2; try done.
    + by rewrite Hps2, length_alter, length_wake_procs, length_alter.
    + etrans; [apply HoC|done].
    + exists l. pose proof (uvm_ok_frame _ _ _ _ _ us' (mem sC) W7 Hok' Hpg (proj1 GC)) as U2. by apply (uvm_ok_keep _ _ _ _ _ _ U2).
    + rewrite Hm2, <- W8. destruct Hacc as (Hac1 & Hac2 & _).
      apply (ubytes_frame (set_syn y s) l T root us us' (mem sC)); [done|done|intros f Hf; by apply Hdis|apply GC|done|lia].
  - by rewrite take_drop.
  - lia.
  - split; rewrite ?Hr2, <- ?Hgx; try done. exists l. by apply (uvm_ok_keep _ _ _ _ _ _ UC).
  - rewrite Hm2. apply (received_next k (mem s)); [exact GC|done| |]; destruct Hacc' as (Hb1 & _); lia.
Qed.

(** C13 a pipe carries a stream from one process to another.  While the running process
    writes [n] bytes, any number, into a pipe of 512, the scheduler gives its turns to a
    process that reads [m] bytes at a time.  The write returns [n]; what the reader has
    in its memory, followed by what is still in the pipe, is what was in the pipe before,
    followed by the writer's bytes: nothing is lost, repeated or reordered, however often
    the writer slept and was woken. *)
Theorem pipe_transfer q e :
  wst s0 pi root T us addr n bs s0 q -> reading s0 -> n <= PIPESIZE - Z.of_nat (length q) + m * Z.of_nat N ->
  let turns := read_turn <$> seq 0 N in
  exists s' k, pipewrite pi addr n s0 ((swtch_away <$> turns) ++ e) = Ok n s' ((swtch_away <$> drop k turns) ++ e) /\
    received k (mem s') ++ pq (get_pipe s' pi) = q ++ bs.
Proof using Q Hpi Hacc Hn Hr Hrp Hm Hacc' Hdis.
  intros W Rg Hcap turns.
  destruct (pipewrite_stream s0 Q pi Hpi root T us addr n bs Hacc Hn (fun k s => reading s /\ (k <= N)%nat) received m) with (q := q) (rounds := turns) (e := e)
    as (s' & q' & k & Hrun & W' & _ & Hg); [|lia|done|split; [done|lia]| |unfold turns; by rewrite length_fmap, length_seq|].
  - intros k s s' F [H1 H2]. split; [|done]. by apply (reading_keep s).
  - intros k b Hb. unfold turns in Hb. rewrite list_lookup_fmap in Hb. destruct (seq 0 N !! k) as [j|] eqn:Ej; [|done]. apply lookup_seq in Ej as [-> Hk]. injection Hb as <-.
    by apply read_turn_drains.
  - exists s', k. split; [exact Hrun|]. rewrite (ws_q _ _ _ _ _ _ _ _ _ _ W'), Hg. unfold received. by rewrite Nat.mul_0_r.
Qed.

End Transfer.

(** ** Witnesses *)

Definition sample_pi : Z := 4096.
Definition sample_pipe (bs : list Z) : pipe :=
  foldl (fun p c => pipe_put c p) (mkpipe (replicate (Z.to_nat PIPESIZE) 0) 0 0 true true) bs.

(** Processes 0, which runs, and 1, which may run, and a pipe that holds [bs]. *)
Definition sample_piped (s : kstate) (bs : list Z) : kstate :=
  set_mem (mem s) (set_freelist (freelist s) (set_pipes {[ sample_pi := sample_pipe bs ]}
    (set_procs (set_p_pagetable (sample_page 0) sample_proc ::
        set_p_pagetable (sample_page 1) (set_p_state RUNNABLE zero_proc) :: replicate 62 zero_proc)
      (set_syn (mksync 0 true (cpus sample_sync) (<[Lpipe sample_pi := zero_lock]> (locks sample_sync)))
        sample_state)))).

Lemma sample_piped_lfree s bs l : lfree (syn sample_state) l \/ l = Lpipe sample_pi -> lfree (syn (sample_piped s bs)) l.
Proof.
  intros H. unfold lfree. cbn [sample_piped syn set_mem set_freelist set_pipes set_procs set_syn locks].
  destruct (decide (l = Lpipe sample_pi)) as [->|Hne]; [exists ""; by rewrite lookup_insert_eq|].
  rewrite lookup_insert_ne by done. by destruct H.
Qed.

Lemma sample_piped_quiet s bs : quiet (sample_piped s bs).
Proof.
  destruct sample_quiet as (((Hw & Hlen & Hpl) & Hc & Hsl) & Hn & Hp & Hl).
  assert (F : forall l, lfree (syn sample_state) l -> lfree (syn (sample_piped s bs)) l)
    by (intros; apply sample_piped_lfree; by left).
  split; [split; [split; [|split]|split]|split; [|split]].
  - exists (mkcpu (Some 0%nat) 0 false). split; [done|]. cbn. lia.
  - done.
  - intros i Hi Hne. by apply F, Hpl.
  - exists 0%nat. split; [done|]. vm_compute. lia.
  - intros l Hl'. by apply F, Hsl.
  - done.
  - by apply (F (Lproc 0)).
  - eapply Forall_impl; [exact Hl|exact F].
Qed.

Lemma sample_piped_uvm s l T root us bs :
  uvm_ok (L := sample_layout) s l T root us ->
  uvm_ok (L := sample_layout) (set_syn (syn (sample_piped s bs)) (sample_piped s bs)) l T root us.
Proof.
  intros U. pose proof (sample_piped_quiet s bs) as Q. pose proof (quiet_wf _ Q) as Hwf.
  assert (Hlk : lfree (syn (sample_piped s bs)) Lkmem) by (apply quiet_lfree; [exact Q|in_static]).
  assert (Hm : mem (sample_piped s bs) = mem s) by reflexivity.
  assert (Hf : freelist (sample_piped s bs) = freelist s) by reflexivity. clear Q.
  generalize dependent (sample_piped s bs). intros s1 Hwf Hlk Hm Hf. by apply (uvm_ok_keep s).
Qed.

Lemma sample_pipe_ok s bs : (length bs <= 2)%nat -> pipe_ok (get_pipe (sample_piped s bs) sample_pi).
Proof.
  intros Hlen. assert (E : get_pipe (sample_piped s bs) sample_pi = sample_pipe bs) by done. rewrite E.
  destruct bs as [|c [|d [|? ?]]]; cbn in Hlen; try lia; (split; [done|done|done|by vm_compute]).
Qed.

(** 600 bytes through the ring of 512, the reader taking 100 in its turn. *)
Lemma pipe_transfer_witness : exists s0 s' k g,
  pipewrite sample_pi 0 600 s0 (swtch_away <$> [read_turn sample_pi 1 0 100 0]) = 
    Ok 600 s' (swtch_away <$> drop k [read_turn sample_pi 1 0 100 0]) /\
  received [g] 0 100 k (mem s') ++ pq (get_pipe s' sample_pi) = ubytes (mem s0) [sample_page 2] 0 600.
Proof.
  destruct sample_forked as (s & l & T & T' & g & U & U' & Hd & Hf & Hf'). set (s0 := sample_piped s []).
  set (bs := ubytes (mem s0) [sample_page 2] 0 600).
  destruct (pipe_transfer (L := sample_layout) s0 (sample_piped_quiet s []) sample_pi) with
    (root := sample_page 0) (T := T) (us := [sample_page 2]) (addr := 0) (n := 600) (bs := bs)
    (r := 1%nat) (root' := sample_page 1) (T' := T') (us' := [g]) (a := 0) (m := 100) (N := 1%nat)
    (q := @nil Z) (e := @nil (kstate -> kstate)) as (s' & k & Hr & Hq).
  - apply sample_piped_lfree. by right.
  - apply one_page_accessible; [exact Hf|by right|unfold PGSIZE; lia].
  - lia.
  - vm_compute. lia.
  - vm_compute. lia.
  - unfold PIPESIZE. lia.
  - apply one_page_accessible; [exact Hf'|by left|unfold PGSIZE; lia].
  - exact Hd.
  - split; [done|done|done|apply sample_pipe_ok; cbn; lia|done|done| |done]. exists l. apply sample_piped_uvm. exact U.
  - split; try done. exists l. apply sample_piped_uvm. exact U'.
  - cbn. unfold PIPESIZE. lia.
  - exists s0, s', k, g. rewrite !app_nil_r in Hr. split; [exact Hr|exact Hq].
Defined.

Lemma piperead_takes_witness : exists s0 s' us,
  piperead sample_pi 0 16 s0 [] = Ok 2 s' [] /\ pq (get_pipe s' sample_pi) = [] /\
  ubytes (mem s') us 0 2 = [104; 105].
Proof.
  destruct sample_forked as (s & l & T & T' & g & U & _ & _ & Hf & _). set (s0 := sample_piped s [104; 105]).
  destruct (piperead_takes (L := sample_layout) s0 (sample_piped_quiet s _) sample_pi) with
    (root := sample_page 0) (T := T) (us := [sample_page 2]) (addr := 0) (n := 16) (l := l)
    (q := [104; 105]) (e := @nil (kstate -> kstate)) as [H _].
  - apply sample_piped_lfree. by right.
  - apply one_page_accessible; [exact Hf|by left|unfold PGSIZE; lia].
  - lia.
  - split; [done|done|done|apply (sample_pipe_ok s [104; 105]); cbn; lia|done|apply sample_piped_uvm; exact U].
  - destruct H as (s' & Hr & Tk); [by left|]. exists s0, s', [sample_page 2].
    split; [exact Hr|]. split; [exact (tk_q _ _ _ _ _ _ _ _ _ _ _ Tk)|].
    apply (got_bytes_read _ 0 (mem s0) [104; 105]); [exact (tk_got _ _ _ _ _ _ _ _ _ _ _ Tk)|lia|cbn; unfold PGSIZE; lia].
Defined.
