(* ===== verification/Proc.v ===== *)
(** * kernel/proc.c: the process table

    Creation, growth, exit and reaping of processes.  A process's trap frame
    is the page at [p_trapframe], read and written at the offsets of
    [struct trapframe]. *)

From stdpp Require Import base gmap strings numbers list.
From S2P Require Import Prelude KState Sample StringC Spinlock Sched Sleeplock Uart Printf Pages Kalloc Vm Bio Log Fs Pipe Console File.

(** Offsets in [struct trapframe]. *)
Definition TF_kernel_satp : Z := 0.
Definition TF_kernel_sp : Z := 8.
Definition TF_kernel_trap : Z := 16.
Definition TF_epc : Z := 24.
Definition TF_kernel_hartid : Z := 32.
Definition TF_sp : Z := 48.
Definition TF_a (n : Z) : Z := 112 + 8 * n.
Definition TRAPFRAME_SIZE : Z := 288.

(** The assembled user/initcode.S *)
Definition initcode : list Z :=
  [0x17; 0x05; 0x00; 0x00; 0x13; 0x05; 0x45; 0x02;
   0x97; 0x05; 0x00; 0x00; 0x93; 0x85; 0x35; 0x02;
   0x93; 0x08; 0x70; 0x00; 0x73; 0x00; 0x00; 0x00;
   0x93; 0x08; 0x20; 0x00; 0x73; 0x00; 0x00; 0x00;
   0xef; 0xf0; 0x9f; 0xff; 0x2f; 0x69; 0x6e; 0x69;
   0x74; 0x00; 0x00; 0x24; 0x00; 0x00; 0x00; 0x00;
   0x00; 0x00; 0x00; 0x00].

Definition procget (p : nat) : M proc := gets (fun s => get_proc s p).
Definition procset (p : nat) (f : proc -> proc) : M unit := modify (upd_proc p f).
Definition tf_get (p : nat) (off : Z) : M Z :=
  pr ← procget p;
  rd64 (p_trapframe pr + off).
Definition tf_set (p : nat) (off v : Z) : M unit :=
  pr ← procget p;
  wr64 (p_trapframe pr + off) (u64 v).

Section Proc.
Context {L : Layout} {D : DiskDriver}.

Definition procinit : M unit :=
  initlock Lpid "nextpid";;
  initlock Lwait "wait_lock";;
  for_each proc_ids (fun p =>
    initlock (Lproc p) "proc";;
    procset p (set_p_state UNUSED);;
    procset p (set_p_kstack (KSTACK (Z.of_nat p)))).

Definition allocpid : M Z :=
  acquire Lpid;;
  pid ← gets nextpid;
  modify (set_nextpid (i32 (pid + 1)));;
  release Lpid;;
  mret pid.

Definition proc_pagetable (p : nat) : M Z :=
  pagetable ← uvmcreate;
  if pagetable =? 0 then mret 0 else
  r ← mappages pagetable TRAMPOLINE PGSIZE trampoline (Z.lor PTE_R PTE_X);
  if r <? 0 then uvmfree pagetable 0;; mret 0 else
  pr ← procget p;
  r ← mappages pagetable TRAPFRAME PGSIZE (p_trapframe pr) (Z.lor PTE_R PTE_W);
  if r <? 0 then
    uvmunmap pagetable TRAMPOLINE 1 false;;
    uvmfree pagetable 0;;
    mret 0
  else mret pagetable.

Definition proc_freepagetable (pagetable sz : Z) : M unit :=
  uvmunmap pagetable TRAMPOLINE 1 false;;
  uvmunmap pagetable TRAPFRAME 1 false;;
  uvmfree pagetable sz.

Definition freeproc (p : nat) : M unit :=
  pr ← procget p;
  when (negb (p_trapframe pr =? 0)) (kfree (p_trapframe pr));;
  procset p (set_p_trapframe 0);;
  when (negb (p_pagetable pr =? 0)) (proc_freepagetable (p_pagetable pr) (p_sz pr));;
  procset p (set_p_pagetable 0);;
  procset p (set_p_sz 0);;
  procset p (set_p_pid 0);;
  procset p (set_p_parent None);;
  procset p (fun x => set_p_name (<[0%nat := 0]> (p_name x)) x);;
  procset p (set_p_chan None);;
  procset p (set_p_killed false);;
  procset p (set_p_xstate 0);;
  procset p (set_p_state UNUSED).

(** for(p = proc; p < &proc[NPROC]; p++): an unused slot, its lock held. *)
Fixpoint find_unused (ids : list nat) : M (option nat) :=
  match ids with
  | [] => mret None
  | p :: ids' =>
      acquire (Lproc p);;
      pr ← procget p;
      if decide (p_state pr = UNUSED) then mret (Some p) else
      release (Lproc p);;
      find_unused ids'
  end.

Definition allocproc : M (option nat) :=
  found ← find_unused proc_ids;
  match found with
  | None => mret None
  | Some p =>
      pid ← allocpid;
      procset p (set_p_pid pid);;
      procset p (set_p_state USED);;
      tf ← kalloc;
      procset p (set_p_trapframe tf);;
      if tf =? 0 then
        freeproc p;;
        release (Lproc p);;
        mret None
      else
      pt ← proc_pagetable p;
      procset p (set_p_pagetable pt);;
      if pt =? 0 then
        freeproc p;;
        release (Lproc p);;
        mret None
      else
      pr ← procget p;
      procset p (set_p_context zero_context);;
      procset p (fun x => set_p_context (set_ctx_ra forkret_addr (p_context x)) x);;
      procset p (fun x => set_p_context (set_ctx_sp (p_kstack pr + PGSIZE) (p_context x)) x);;
      mret (Some p)
  end.

Definition userinit : M unit :=
  np ← allocproc;
  modify (set_initproc np);;
  p ← deref np;
  pr ← procget p;
  uvmfirst (p_pagetable pr) initcode (Z.of_nat (length initcode));;
  procset p (set_p_sz PGSIZE);;
  tf_set p TF_epc 0;;
  tf_set p TF_sp PGSIZE;;
  procset p (fun x => set_p_name (safestrcpy (p_name x) (zstr "initcode" ++ [0]) 16) x);;
  ip ← namei (zstr "/");
  procset p (set_p_cwd ip);;
  procset p (set_p_state RUNNABLE);;
  release (Lproc p).

Definition growproc (n : Z) : M Z :=
  me ← myproc;
  p ← deref me;
  pr ← procget p;
  let sz := p_sz pr in
  if 0 <? n then
    sz' ← uvmalloc (p_pagetable pr) sz (u64 (sz + n)) PTE_W;
    if sz' =? 0 then mret (-1) else
    procset p (set_p_sz sz');; mret 0
  else if n <? 0 then
    sz' ← uvmdealloc (p_pagetable pr) sz (u64 (sz + n));
    procset p (set_p_sz sz');; mret 0
  else
    procset p (set_p_sz sz);; mret 0.

Definition fork : M Z :=
  me ← myproc;
  p ← deref me;
  np ← allocproc;
  match np with
  | None => mret (-1)
  | Some np =>
      pr ← procget p;
      cr ← procget np;
      r ← uvmcopy (p_pagetable pr) (p_pagetable cr) (p_sz pr);
      if r <? 0 then
        freeproc np;;
        release (Lproc np);;
        mret (-1)
      else
      procset np (set_p_sz (p_sz pr));;
      modify (upd_mem (fun m => st_bytes m (p_trapframe cr)
        (ld_bytes m (p_trapframe pr) (Z.to_nat TRAPFRAME_SIZE))));;
      tf_set np (TF_a 0) 0;;
      for_each (seq 0 (Z.to_nat NOFILE)) (fun i =>
        match default None (p_ofile pr !! i) with
        | None => mret ()
        | Some f =>
            f' ← filedup f;
            procset np (fun x => set_p_ofile (<[i := Some f']> (p_ofile x)) x)
        end);;
      cwd ← deref (p_cwd pr);
      cwd ← idup cwd;
      procset np (set_p_cwd (Some cwd));;
      procset np (fun x => set_p_name (safestrcpy (p_name x) (p_name pr) 16) x);;
      cr ← procget np;
      let pid := p_pid cr in
      release (Lproc np);;
      acquire Lwait;;
      procset np (set_p_parent (Some p));;
      release Lwait;;
      acquire (Lproc np);;
      procset np (set_p_state RUNNABLE);;
      release (Lproc np);;
      mret pid
  end.

(** [wakeup(p)] for a [p] that may be null: then the channel is the null
    address, on which nobody sleeps. *)
Definition wakeup_null : M unit :=
  for_each proc_ids (fun i =>
    me ← myproc;
    if decide (me = Some i) then mret () else
    acquire (Lproc i);;
    p ← procget i;
    when (bool_decide (p_state p = SLEEPING) && bool_decide (p_chan p = None))
      (procset i (set_p_state RUNNABLE));;
    release (Lproc i)).
Definition wakeup_proc (p : option nat) : M unit :=
  match p with
  | Some p => wakeup (Ch_proc p)
  | None => wakeup_null
  end.

Definition reparent (p : nat) : M unit :=
  for_each proc_ids (fun pp =>
    x ← procget pp;
    if decide (p_parent x = Some p) then
      ini ← gets initproc;
      procset pp (set_p_parent ini);;
      wakeup_proc ini
    else mret ()).

(** Does not return; the state it stops in is the last one of the process. *)
Definition exit (status : Z) : M unit :=
  me ← myproc;
  ini ← gets initproc;
  if decide (me = ini) then kpanic "init exiting" else
  p ← deref me;
  for_each (seq 0 (Z.to_nat NOFILE)) (fun fd =>
    x ← procget p;
    match default None (p_ofile x !! fd) with
    | None => mret ()
    | Some f =>
        fileclose f;;
        procset p (fun x => set_p_ofile (<[fd := None]> (p_ofile x)) x)
    end);;
  begin_op;;
  x ← procget p;
  cwd ← deref (p_cwd x);
  iput cwd;;
  end_op;;
  procset p (set_p_cwd None);;
  acquire Lwait;;
  reparent p;;
  x ← procget p;
  wakeup_proc (p_parent x);;
  acquire (Lproc p);;
  procset p (set_p_xstate status);;
  procset p (set_p_state ZOMBIE);;
  release Lwait;;
  sched;;
  kpanic "zombie exit".

(** One scan of the table: [inl r] when [wait] returns [r], [inr havekids]
    otherwise.  The lock is released when it returns. *)
Fixpoint wait_scan (ids : list nat) (p : nat) (addr : Z) (havekids : bool) : M (Z + bool) :=
  match ids with
  | [] => mret (inr havekids)
  | pp :: ids' =>
      x ← procget pp;
      if decide (p_parent x = Some p) then
        acquire (Lproc pp);;
        x ← procget pp;
        if decide (p_state x = ZOMBIE) then
          let pid := p_pid x in
          pr ← procget p;
          r ← (if negb (addr =? 0) then copyout (p_pagetable pr) addr (le_bytes 4 (p_xstate x)) 4
               else mret 0);
          if r <? 0 then
            release (Lproc pp);;
            release Lwait;;
            mret (inl (-1))
          else
          freeproc pp;;
          release (Lproc pp);;
          release Lwait;;
          mret (inl pid)
        else
          release (Lproc pp);;
          wait_scan ids' p addr true
      else wait_scan ids' p addr havekids
  end.

(** for(;;): every round but the last sleeps. *)
Fixpoint wait_loop (k : nat) (p : nat) (addr : Z) : M Z :=
  match k with
  | O => kspin
  | S k' =>
      r ← wait_scan proc_ids p addr false;
      match r with
      | inl v => mret v
      | inr havekids =>
          stop ← (if negb havekids then mret true else killed p);
          if stop : bool then
            release Lwait;;
            mret (-1)
          else
          sleep (Ch_proc p) Lwait;;
          wait_loop k' p addr
      end
  end.

Definition wait (addr : Z) : M Z :=
  me ← myproc;
  p ← deref me;
  acquire Lwait;;
  ((fun s e => wait_loop (S (length e)) p addr s e) : M Z).

(** One pass of [scheduler] over the table.  [swtch] to a process is
    [yield_env]: the process runs until it switches back. *)
Fixpoint scheduler_pass (ids : list nat) (found : bool) : M bool :=
  match ids with
  | [] => mret found
  | p :: ids' =>
      acquire (Lproc p);;
      pr ← procget p;
      found ← (if decide (p_state pr = RUNNABLE) then
                 procset p (set_p_state RUNNING);;
                 modify (upd_cpu (set_c_proc (Some p)));;
                 yield_env;;
                 modify (upd_cpu (set_c_proc None));;
                 mret true
               else mret found);
      release (Lproc p);;
      scheduler_pass ids' found
  end.

(** The rounds of [scheduler], which never returns: a round that found nothing
    to run waits for an interrupt ([wfi]). *)
Fixpoint scheduler_rounds (k : nat) : M unit :=
  match k with
  | O => kspin
  | S k' =>
      intr_on;;
      found ← scheduler_pass proc_ids false;
      when (negb found) (intr_on;; yield_env);;
      scheduler_rounds k'
  end.
Definition scheduler : M unit :=
  modify (upd_cpu (set_c_proc None));;
  ((fun s e => scheduler_rounds (S (length e)) s e) : M unit).

End Proc.
