(* ===== verification/ProcVm.v ===== *)
(** * The address space of a process

    [proc_pagetable], [proc_freepagetable] and [freeproc]: a process's page
    table maps the trampoline and the trap frame above its memory, and its
    pages come from and go back to the free list. *)

From stdpp Require Import base gmap strings numbers list.
From S2P Require Import Prelude KState Sample StringC Spinlock Sched Sleeplock Uart Printf Pages Kalloc Vm PageTable UserVm UserSpace Copy ForkVm Bio Log Fs Pipe Console File Proc.

Ltac Zify.zify_post_hook ::= Z.to_euclidean_division_equations.

Section ProcVm.
Context {L : Layout}.

(** The linker puts the trampoline on a page of its own. *)
Definition tramp_ok : Prop := aligned trampoline /\ 0 <= trampoline /\ trampoline + PGSIZE <= 2 ^ 56.

Definition tramp_pte : Z := mk_pte trampoline (Z.lor PTE_R PTE_X).
Definition frame_pte (tf : Z) : Z := mk_pte tf (Z.lor PTE_R PTE_W).

(** The page table of a process: its memory [us], the trap frame [tf] and the
    trampoline, and nothing else. *)
Record proc_space (s : kstate) (l : list Z) (T : pgt) (root : Z) (us : list Z) (tf : Z) : Prop := {
  ps_uvm : uvm_ok s l T root us;
  ps_tramp : pt_leaf T !! pt_path TRAMPOLINE = Some tramp_pte;
  ps_frame : pt_leaf T !! pt_path TRAPFRAME = Some (frame_pte tf)
}.

Lemma top_pages va : aligned va -> TRAPFRAME <= va < MAXVA -> va = TRAPFRAME \/ va = TRAMPOLINE.
Proof.
  destruct TRAPFRAME_lt as (_ & H1 & H2). change TRAMPOLINE with (MAXVA - PGSIZE). unfold aligned, PGSIZE in *. lia.
Qed.

Lemma top_range va : va = TRAPFRAME \/ va = TRAMPOLINE -> aligned va /\ 0 <= va /\ va + PGSIZE <= MAXVA /\ TRAPFRAME <= va.
Proof. intros [->| ->]; vm_compute; split_and!; congruence. Qed.

(** ** Unmapping without freeing *)

Lemma uvmunmap_keep T root va pte s l e :
  vm_ok s l T -> pt_tabs T !! [] = Some root -> va = TRAPFRAME \/ va = TRAMPOLINE ->
  pt_leaf T !! pt_path va = Some pte -> PTE_FLAGS pte <> PTE_V ->
  exists s', uvmunmap root va 1 false s e = Ok () s' e /\
    vm_ok s' l (mkpgt (pt_tabs T) (delete (pt_path va) (pt_leaf T))) /\ memstep s s' /\
    mem_frame (pt_tab_pages T) (mem s) (mem s').
Proof.
  intros Hok Hroot Hva Hl Hfl. destruct (top_range va Hva) as (Hal & Hpos & Htop & _).
  assert (Hr : 0 <= va < MAXVA) by (unfold PGSIZE in *; lia). change MAXVA with (2 ^ 38) in Htop.
  pose proof Hok as (HL & _ & HT & _). destruct (leaf_tab _ _ _ _ HT Hl) as [pg Hpg].
  pose proof (walk_entry _ _ _ _ HT Hpg) as Hw. rewrite Hl in Hw. cbn in Hw.
  pose proof (pt_walk_pos _ _ _ _ HL HT Hpg) as Hwp.
  destruct (rep_leaf _ _ HT _ _ Hl) as ((_ & HV) & _).
  set (lf := delete (pt_path va) (pt_leaf T)).
  assert (G : grows s l T (upd_mem (fun m => st64 m (pt_walk T va) 0) s) l (mkpgt (pt_tabs T) lf)).
  { apply (grows_leaf _ _ _ _ pg); [exact Hok|exact Hpg|..]; unfold lf.
    - intros p Hp. by rewrite lookup_delete_ne.
    - by rewrite lookup_delete_eq. }
  exists (upd_mem (fun m => st64 m (pt_walk T va) 0) s). split_and!.
  - unfold uvmunmap. rewrite (proj2 (Z.eqb_eq _ _)) by exact Hal. cbn [negb].
    assert (Hb : u64 (va + u64 (1 * PGSIZE)) = va + PGSIZE)
      by (unfold u64; rewrite !Z.mod_small; unfold PGSIZE in *; lia). rewrite Hb.
    replace (Z.to_nat ((va + PGSIZE - va) / PGSIZE + 1)) with 2%nat by (unfold PGSIZE; lia).
    cbn [uvmunmap_loop]. rewrite (proj2 (Z.ltb_lt va _)) by (unfold PGSIZE; lia). cbn [negb].
    kstep ltac:(by apply (walk_noalloc T)). rewrite (proj2 (Z.eqb_neq _ _)) by lia.
    unfold rd64, wr64. kpure. rewrite Hw, HV. cbn [negb].
    rewrite (proj2 (Z.eqb_neq (PTE_FLAGS pte) PTE_V)) by done. cbn [when]. kpure.
    replace (u64 (va + PGSIZE)) with (va + PGSIZE) by (unfold u64; rewrite Z.mod_small; unfold PGSIZE in *; lia).
    rewrite Z.ltb_irrefl. done.
  - exact (gr_ok _ _ _ _ _ _ G).
  - exact (gr_step _ _ _ _ _ _ G).
  - exact (mem_frame_leaf _ T va pg 0 Hpg).
Qed.

Lemma uvm_ok_untop s s' l T root us va :
  uvm_ok s l T root us -> va = TRAPFRAME \/ va = TRAMPOLINE ->
  vm_ok s' l (mkpgt (pt_tabs T) (delete (pt_path va) (pt_leaf T))) ->
  uvm_ok s' l (mkpgt (pt_tabs T) (delete (pt_path va) (pt_leaf T))) root us.
Proof.
  intros [Hok Hroot Hm Hf Hsz Hnd Hkeys] Hva Hok'. destruct (top_range va Hva) as (Hal & Hpos & Htop & Hge).
  destruct TRAPFRAME_lt as (HT1 & HT2 & _). split; try done.
  - intros k f Hk. eapply maps_mono; [|by apply Hm]. cbn [pt_leaf]. apply lookup_delete_ne.
    apply lookup_lt_Some in Hk. intros Heq%pt_path_inj; unfold aligned, PGSIZE in *; lia.
  - intros va' Hal' Hr. cbn [pt_leaf]. rewrite lookup_delete_ne; [by apply Hf|].
    intros Heq%pt_path_inj; try done; unfold PGSIZE in *; lia.
  - intros p Hp. cbn [pt_leaf] in Hp. apply Hkeys. destruct Hp as [x Hx].
    apply lookup_delete_Some in Hx as [_ Hx]. eauto.
Qed.

Lemma top_flags : tramp_ok -> PTE_FLAGS tramp_pte <> PTE_V.
Proof.
  intros (Ha & H1 & H2). unfold tramp_pte. destruct (mk_pte_spec trampoline (Z.lor PTE_R PTE_X)) as (_ & _ & ->);
    [unfold PGSIZE in *; lia|done|vm_compute; split; congruence|]. by vm_compute.
Qed.
Lemma frame_flags tf : layout_ok -> page_ok tf -> PTE_FLAGS (frame_pte tf) <> PTE_V.
Proof.
  intros HL Hp. pose proof (page_ok_pos _ HL Hp) as [H1 H2]. unfold PHYSTOP, KERNBASE in H2.
  unfold frame_pte. destruct (mk_pte_spec tf (Z.lor PTE_R PTE_W)) as (_ & _ & ->);
    [lia|apply Hp|vm_compute; split; congruence|]. by vm_compute.
Qed.

(** ** Freeing *)

Lemma proc_freepagetable_run s l T root us tf sz e :
  tramp_ok -> page_ok tf -> proc_space s l T root us tf ->
  0 <= sz <= TRAPFRAME -> PGROUNDUP sz = Z.of_nat (length us) * PGSIZE ->
  exists s' l', proc_freepagetable root sz s e = Ok () s' e /\ alloc_ok s' l' /\ memstep s s' /\
    l' ≡ₚ us ++ pt_tab_pages T ++ l /\ mem_frame (us ++ pt_tab_pages T) (mem s) (mem s').
Proof.
  intros Htr Htf [U H1 H2] Hsz Hus. pose proof (uv_vm _ _ _ _ _ U) as Hok. pose proof (uv_root _ _ _ _ _ U) as Hroot.
  pose proof Hok as (HL & _).
  destruct (uvmunmap_keep T root TRAMPOLINE tramp_pte s l e Hok Hroot ltac:(by right) H1 (top_flags Htr))
    as (s1 & Hr1 & Hok1 & Hms1 & Hfr1).
  pose proof (uvm_ok_untop _ _ _ _ _ _ _ U ltac:(by right) Hok1) as U1.
  set (T1 := mkpgt (pt_tabs T) (delete (pt_path TRAMPOLINE) (pt_leaf T))) in *.
  assert (H2' : pt_leaf T1 !! pt_path TRAPFRAME = Some (frame_pte tf)) by (unfold T1; cbn [pt_leaf]; by rewrite lookup_delete_ne).
  destruct (uvmunmap_keep T1 root TRAPFRAME (frame_pte tf) s1 l e Hok1 Hroot ltac:(by left) H2' (frame_flags tf HL Htf))
    as (s2 & Hr2 & Hok2 & Hms2 & Hfr2).
  pose proof (uvm_ok_untop _ _ _ _ _ _ _ U1 ltac:(by left) Hok2) as U2.
  destruct (uvmfree_run s2 l _ root us sz e U2 Hsz Hus) as (s3 & l3 & Hr3 & Hal3 & Hms3 & Hp3 & Hfr3).
  { intros va Hva Hr. cbn [pt_leaf T1]. destruct (top_pages va Hva Hr) as [->| ->].
    - by rewrite lookup_delete_eq.
    - rewrite lookup_delete_ne by done. by rewrite lookup_delete_eq. }
  exists s3, l3. split_and!.
  - unfold proc_freepagetable. kstep_with Hr1. kstep_with Hr2. exact Hr3.
  - exact Hal3.
  - etransitivity; [exact Hms1|]. etransitivity; [exact Hms2|exact Hms3].
  - exact Hp3.
  - eapply mem_frame_trans; [eapply mem_frame_mono; [|exact Hfr1]|eapply mem_frame_trans; [eapply mem_frame_mono; [|exact Hfr2]|exact Hfr3]];
      intros x Hx; apply elem_of_app; by right.
Qed.

(** ** Creation *)

(** One of the two pages above the memory. *)
Lemma map_top va pa perm T root s l e :
  vm_ok s l T -> pt_tabs T !! [] = Some root -> va = TRAPFRAME \/ va = TRAMPOLINE ->
  aligned pa -> 0 <= pa -> pa + PGSIZE <= 2 ^ 56 -> 0 <= perm < 1024 -> pt_leaf T !! pt_path va = None ->
  exists s' l' T' r, mappages root va PGSIZE pa perm s e = Ok r s' e /\ grows s l T s' l' T' /\
    pt_tabs T' !! [] = Some root /\
    ((r = 0 /\ (length l <= length l' + 2)%nat /\ pt_leaf T' = <[pt_path va := mk_pte pa perm]> (pt_leaf T)) \/
     (r = -1 /\ (length l < 2)%nat /\ pt_leaf T' = pt_leaf T)).
Proof.
  intros Hok Hroot Hva Ha H0 H1 Hperm Hnone. destruct (top_range va Hva) as (Hal & Hpos & Htop & _).
  destruct (mappages_run 0 T root va pa perm s l e Hok Hroot) as (s' & l' & T' & r & G & Hr & Hc);
    try done; try (unfold PGSIZE in *; lia).
  { intros k Hk. assert (k = 0) as -> by lia. by rewrite Z.add_0_r. }
  exists s', l', T', r. split; [exact Hr|]. split; [exact G|].
  split; [eapply lookup_weaken; [exact Hroot|exact (gr_tabs _ _ _ _ _ _ G)]|].
  destruct Hc as [(-> & Hn & E)|(-> & _ & Hn & k & Hk & E)]; [left; split_and!; done || lia|right].
  assert (k = 0%nat) as -> by lia. split_and!; done || lia.
Qed.

Lemma get_proc_memstep s s' i : memstep s s' -> get_proc s' i = get_proc s i.
Proof. by intros (y & f & m & -> & _). Qed.

(** Giving up: the tables made so far are freed. *)
Lemma undo_pagetable T root s0 l0 s l e :
  vm_ok s l T -> pt_tabs T !! [] = Some root -> pt_leaf T = ∅ ->
  pt_tab_pages T ++ l ≡ₚ l0 -> memstep s0 s -> mem_frame l0 (mem s0) (mem s) ->
  exists s' l', (uvmfree root 0;; mret 0) s e = Ok 0 s' e /\ memstep s0 s' /\
    mem_frame l0 (mem s0) (mem s') /\ alloc_ok s' l' /\ l' ≡ₚ l0.
Proof.
  intros Hok Hroot Hl Hp Hms Hfr.
  destruct (freewalk_run T root s l e Hok Hroot Hl) as (s' & l' & Hr & Hms' & Hal & Hp' & Hfr').
  exists s', l'. split_and!.
  - unfold uvmfree. cbn [Z.ltb Z.compare when]. kpure. by kstep_with Hr.
  - by etransitivity.
  - eapply mem_frame_trans; [exact Hfr|]. eapply mem_frame_mono; [|exact Hfr'].
    intros x Hx. rewrite <- Hp. apply elem_of_app. by left.
  - exact Hal.
  - by rewrite Hp'.
Qed.

Lemma grows_frame s l T s' l' T' l0 m0 :
  grows s l T s' l' T' -> pt_tab_pages T ++ l ≡ₚ l0 -> mem_frame l0 m0 (mem s) ->
  pt_tab_pages T' ++ l' ≡ₚ l0 /\ mem_frame l0 m0 (mem s').
Proof.
  intros G Hp Hfr. split; [by rewrite (gr_pages _ _ _ _ _ _ G)|].
  eapply mem_frame_trans; [exact Hfr|]. eapply mem_frame_mono; [|exact (gr_frame _ _ _ _ _ _ G)].
  intros x Hx. by rewrite <- Hp.
Qed.

(** A table with the two upper pages and nothing else. *)
Lemma top_space s l T root tf l0 :
  vm_ok s l T -> pt_tabs T !! [] = Some root -> NoDup l0 -> pt_tab_pages T ++ l ≡ₚ l0 ->
  pt_leaf T = <[pt_path TRAPFRAME := frame_pte tf]> (<[pt_path TRAMPOLINE := tramp_pte]> ∅) ->
  proc_space s l T root [] tf.
Proof.
  intros Hok Hroot Hnd Hp Hl.
  assert (Hother : forall q, is_Some (pt_leaf T !! q) -> q = pt_path TRAPFRAME \/ q = pt_path TRAMPOLINE).
  { intros q [x Hx]. rewrite Hl in Hx. apply lookup_insert_Some in Hx as [[<- _]|[_ Hx]]; [by left|].
    apply lookup_insert_Some in Hx as [[<- _]|[_ Hx]]; [by right|]. by rewrite lookup_empty in Hx. }
  destruct (top_range TRAPFRAME ltac:(by left)) as (A1 & A2 & A3 & A4).
  destruct (top_range TRAMPOLINE ltac:(by right)) as (B1 & B2 & B3 & B4).
  split; [split; try done|rewrite Hl, lookup_insert_ne by done; apply lookup_insert_eq|rewrite Hl; apply lookup_insert_eq].
  - intros va Hva Hr. destruct (pt_leaf T !! pt_path va) eqn:E; [|done]. cbn in Hr.
    destruct (Hother _ ltac:(eauto)) as [Heq|Heq]; apply pt_path_inj in Heq; try done; unfold PGSIZE in *; lia.
  - cbn [app]. by rewrite Hp.
  - intros q Hq. destruct (Hother _ Hq) as [->| ->]; eexists; (split; [|split; [|reflexivity]]); try done; unfold PGSIZE in *; lia.
Qed.

(** [proc_pagetable] makes the page table of an empty process, or gives back
    what it took. *)
Lemma proc_pagetable_run p tf s l e :
  tramp_ok -> alloc_ok s l -> p_trapframe (get_proc s p) = tf -> page_ok tf ->
  exists r s' l', proc_pagetable p s e = Ok r s' e /\ memstep s s' /\ mem_frame l (mem s) (mem s') /\
    ((0 < r /\ (length l <= length l' + 5)%nat /\ exists T, proc_space s' l' T r [] tf /\ pt_tab_pages T ++ l' ≡ₚ l) \/
     (r = 0 /\ (length l < 5)%nat /\ alloc_ok s' l' /\ l' ≡ₚ l)).
Proof.
  intros Htr (HL & Hk & Hwf & Hlk) Htf Hpf. unfold proc_pagetable. destruct l as [|root l].
  { exists 0, (set_syn (touch (syn s)) s), []. unfold uvmcreate. rewrite bind_assoc.
    kstep ltac:(by apply kalloc_empty). cbn [Z.eqb]. split_and!; [done|apply memstep_touch|done|].
    right. split; [done|]. split; [cbn; lia|]. split; [|done].
    exact (conj HL (conj Hk (conj (cpu_wf_touch _ Hwf) (lfree_touch _ _ Hlk)))). }
  destruct (uvmcreate_run root l s e HL Hk Hwf Hlk) as (s1 & Hr1 & Hms1 & Hok1 & Hfr1).
  kstep_with Hr1. pose proof Hk as (_ & Hnd & Hpok). apply Forall_cons in Hpok as [Hpok _].
  pose proof (page_ok_pos _ HL Hpok) as [Hpos _]. rewrite (proj2 (Z.eqb_neq root 0)) by lia.
  assert (Hp1 : pt_tab_pages (pt_empty root) ++ l ≡ₚ root :: l) by (by rewrite tab_pages_empty).
  assert (Hf1 : mem_frame (root :: l) (mem s) (mem s1)).
  { eapply mem_frame_mono; [|exact Hfr1]. intros x ->%list_elem_of_singleton. by left. }
  destruct Htr as (Ht1 & Ht2 & Ht3).
  destruct (map_top TRAMPOLINE trampoline (Z.lor PTE_R PTE_X) _ root s1 l e Hok1 eq_refl ltac:(by right) Ht1 Ht2 Ht3)
    as (s2 & l2 & T2 & r2 & Hr2 & G2 & Hroot2 & Hc2); [vm_compute; split; congruence|done|].
  destruct (grows_frame _ _ _ _ _ _ _ _ G2 Hp1 Hf1) as [Hp2 Hf2].
  assert (Hms2 : memstep s s2) by (etransitivity; [exact Hms1|exact (gr_step _ _ _ _ _ _ G2)]).
  kstep_with Hr2. destruct Hc2 as [(-> & N2 & E2)|(-> & N2 & E2)]; cbn [Z.ltb Z.compare].
  2: { destruct (undo_pagetable T2 root s (root :: l) s2 l2 e (gr_ok _ _ _ _ _ _ G2) Hroot2 E2 Hp2 Hms2 Hf2)
         as (s' & l' & Hr & Hms & Hf & Hal & Hp). exists 0, s', l'. split_and!; [exact Hr|done|done|right; split_and!; done || (cbn; lia)]. }
  unfold procget. kpure. rewrite (get_proc_memstep _ _ p Hms2), Htf.
  pose proof (page_ok_pos _ HL Hpf) as [Hq1 Hq2]. unfold PHYSTOP, KERNBASE in Hq2.
  destruct (map_top TRAPFRAME tf (Z.lor PTE_R PTE_W) _ root s2 l2 e (gr_ok _ _ _ _ _ _ G2) Hroot2 ltac:(by left) (proj1 Hpf))
    as (s3 & l3 & T3 & r3 & Hr3 & G3 & Hroot3 & Hc3); [lia|lia|vm_compute; split; congruence| |].
  { rewrite E2, lookup_insert_ne by done. done. }
  destruct (grows_frame _ _ _ _ _ _ _ _ G3 Hp2 Hf2) as [Hp3 Hf3]. pose proof (gr_ok _ _ _ _ _ _ G3) as Hok3.
  assert (Hms3 : memstep s s3) by (etransitivity; [exact Hms2|exact (gr_step _ _ _ _ _ _ G3)]).
  kstep_with Hr3. destruct Hc3 as [(-> & N3 & E3)|(-> & N3 & E3)]; cbn [Z.ltb Z.compare].
  - exists root, s3, l3. split_and!; [done|done|done|]. left. split; [lia|]. split; [cbn; lia|]. exists T3. split; [|exact Hp3].
    rewrite E2 in E3. by apply (top_space s3 l3 T3 root tf (root :: l)).
  - rewrite E2 in E3. destruct (uvmunmap_keep T3 root TRAMPOLINE tramp_pte s3 l3 e Hok3 Hroot3 ltac:(by right))
      as (s4 & Hr4 & Hok4 & Hms4 & Hf4); [rewrite E3; apply lookup_insert_eq|by apply top_flags|].
    kstep_with Hr4. set (T4 := mkpgt _ _) in *.
    destruct (undo_pagetable T4 root s (root :: l) s4 l3 e Hok4 Hroot3) as (s' & l' & Hr & Hms & Hf & Hal & Hp).
    + unfold T4. cbn [pt_leaf]. rewrite E3. by rewrite delete_insert_eq.
    + exact Hp3.
    + by etransitivity.
    + eapply mem_frame_trans; [exact Hf3|]. eapply mem_frame_mono; [|exact Hf4].
      intros x Hx. rewrite <- Hp3. apply elem_of_app. by left.
    + exists 0, s', l'. split_and!; [exact Hr|done|done|right; split_and!; done || (cbn; lia)].
Qed.

End ProcVm.
