(* ===== verification/AllocProc.v ===== *)
(** * Slots of the process table

    [allocproc] takes a free slot and gives it a trap frame and a page table;
    [freeproc] gives back what a slot holds. *)

From stdpp Require Import base gmap strings numbers list.
From S2P Require Import Prelude KState Sample StringC Spinlock Sched Sleeplock Quiet Uart Printf Pages Kalloc Vm PageTable UserVm UserSpace Copy ForkVm Bio BufCache BufRefine Log LogDisk BufWp LogRun LogSafe LogOps Transaction FsWp Fs FsBlocks FsInode FsFile FsData FsOps FsSample Pipe Console File FileRw Proc ProcVm.

Ltac Zify.zify_post_hook ::= Z.to_euclidean_division_equations.

Section AllocProc.
Context {L : Layout}.

(** ** Memory and process table do not meet *)

Lemma memstep_upd i f s s' : memstep s s' -> memstep (upd_proc i f s) (upd_proc i f s').
Proof. intros (y & fl & m & -> & Hy). exists y, fl, m. by split. Qed.

Lemma upd_proc_twice i f g s : upd_proc i f (upd_proc i g s) = upd_proc i (fun x => f (g x)) s.
Proof. unfold upd_proc. kext. by rewrite list_alter_alter_eq. Qed.

Lemma get_upd_proc i f s : (i < length (procs s))%nat -> get_proc (upd_proc i f s) i = f (get_proc s i).
Proof.
  intros Hi. unfold get_proc, upd_proc. cbn. rewrite list_lookup_alter_eq.
  by destruct (lookup_lt_is_Some_2 _ _ Hi) as [x ->].
Qed.
Lemma get_upd_other i j f s : i <> j -> get_proc (upd_proc i f s) j = get_proc s j.
Proof. intros Hi. unfold get_proc, upd_proc. cbn. by rewrite list_lookup_alter_ne. Qed.

Lemma uvm_ok_upd i f s l T root us : uvm_ok s l T root us -> uvm_ok (upd_proc i f s) l T root us.
Proof.
  intros U. pose proof (uv_vm _ _ _ _ _ U) as (_ & _ & _ & _ & Hwf & Hlk). by apply (uvm_ok_keep s).
Qed.
Lemma proc_space_upd i f s l T root us tf : proc_space s l T root us tf -> proc_space (upd_proc i f s) l T root us tf.
Proof. intros [U H1 H2]. split; [by apply uvm_ok_upd|done|done]. Qed.

(** A page from the free list. *)
Lemma kalloc_step p l s e :
  alloc_ok s (p :: l) ->
  kalloc s e = Ok p (kalloced p s) e /\ alloc_ok (kalloced p s) l /\ memstep s (kalloced p s) /\
  mem_frame [p] (mem s) (mem (kalloced p s)) /\ 0 < p /\ page_ok p /\ p ∉ l.
Proof.
  intros (HL & Hk & Hwf & Hlk). pose proof Hk as (_ & Hnd & Hok). apply NoDup_cons in Hnd as [Hnin _].
  apply Forall_cons in Hok as [Hp _]. pose proof (page_ok_pos _ HL Hp).
  split_and!; [by apply (kalloc_run p l)| | |apply mem_frame_memset|lia|done|done].
  - exact (conj HL (conj (kalloced_inv _ _ _ Hk) (conj (cpu_wf_touch _ Hwf) (lfree_touch _ _ Hlk)))).
  - exists (touch (syn s)), (ld64 (mem s) p), (mem (kalloced p s)). split; [by kext|by right].
Qed.

(** ** [freeproc] *)

(** What a free slot looks like. *)
Definition cleared (x : proc) : proc :=
  set_p_state UNUSED (set_p_xstate 0 (set_p_killed false (set_p_chan None
    (set_p_name (<[0%nat := 0]> (p_name x)) (set_p_parent None (set_p_pid 0
      (set_p_sz 0 (set_p_pagetable 0 (set_p_trapframe 0 x))))))))).

(** The pages that a slot owns: none, a trap frame, or a whole address space. *)
Inductive slot_pages (s : kstate) (l : list Z) (x : proc) : list Z -> Prop :=
| slot_none : p_trapframe x = 0 -> p_pagetable x = 0 -> slot_pages s l x []
| slot_frame : page_ok (p_trapframe x) -> p_pagetable x = 0 -> slot_pages s l x [p_trapframe x]
| slot_space T us : page_ok (p_trapframe x) -> 0 < p_pagetable x ->
    proc_space s l T (p_pagetable x) us (p_trapframe x) -> 0 <= p_sz x <= TRAPFRAME ->
    PGROUNDUP (p_sz x) = Z.of_nat (length us) * PGSIZE ->
    slot_pages s l x (p_trapframe x :: us ++ pt_tab_pages T).

Lemma memstep_upd_inv i f s s1 : memstep (upd_proc i f s) s1 -> exists s2, s1 = upd_proc i f s2 /\ memstep s s2.
Proof.
  intros (y & fl & m & -> & Hy). exists (set_syn y (set_freelist fl (set_mem m s))).
  split; [by kext|]. exists y, fl, m. by split.
Qed.

Lemma kfree_step p l s e :
  alloc_ok s l -> page_ok p -> p ∉ l ->
  kfree p s e = Ok () (freed p s) e /\ alloc_ok (freed p s) (p :: l) /\ memstep s (freed p s) /\
  mem_frame [p] (mem s) (mem (freed p s)).
Proof.
  intros (HL & Hk & Hwf & Hlk) Hp Hn. split_and!; [by apply kfree_run| |apply memstep_freed|apply mem_frame_freed].
  exact (conj HL (conj (freed_inv _ _ _ HL Hp Hn Hk) (conj (cpu_wf_touch _ Hwf) (lfree_touch _ _ Hlk)))).
Qed.

(** The pages that are not an address space's do not matter to it. *)
Lemma proc_space_other s l T root us tf s' l' C :
  proc_space s l T root us tf -> alloc_ok s' l' -> Forall page_ok C ->
  (forall x, x ∈ us ++ pt_tab_pages T -> x ∉ C) -> l' ⊆ C -> mem_frame C (mem s) (mem s') ->
  proc_space s' l' T root us tf.
Proof.
  intros [U H1 H2] (_ & Hk & Hwf & Hlk) HC Hd Hsub Hfr. split; [|done|done]. by apply (uvm_ok_other s l T root us s' l' C).
Qed.

(** Consecutive stores into a slot. *)
Ltac slot_stores := unfold procset; kpure; unfold modify; rewrite ?upd_proc_twice.

Lemma freeproc_run i s l ps e :
  tramp_ok -> alloc_ok s l -> slot_pages s l (get_proc s i) ps -> NoDup (ps ++ l) ->
  exists s' l', freeproc i s e = Ok () s' e /\ alloc_ok s' l' /\ memstep (upd_proc i cleared s) s' /\
    l' ≡ₚ ps ++ l /\ mem_frame ps (mem s) (mem s').
Proof.
  intros Htr Hal Hs Hnd. pose proof Hal as (HL & (_ & _ & Hlok) & _). unfold freeproc. unfold procget at 1. kpure.
  destruct Hs as [Ht Hp|Ht Hp|T us Ht Hp Hsp Hsz Hus].
  - rewrite Ht, Hp. cbn [Z.eqb negb when]. slot_stores.
    exists (upd_proc i cleared s), l. by split_and!.
  - pose proof (page_ok_pos _ HL Ht). rewrite Hp, (proj2 (Z.eqb_neq (p_trapframe _) 0)) by lia. cbn [Z.eqb negb when].
    cbn [app] in Hnd. apply NoDup_cons in Hnd as [Hn _].
    destruct (kfree_step _ l s e Hal Ht Hn) as (Hr & Hal1 & Hms & Hfr). kstep_with Hr.
    slot_stores. exists (upd_proc i cleared (freed (p_trapframe (get_proc s i)) s)), (p_trapframe (get_proc s i) :: l).
    split; [done|]. split; [exact Hal1|]. split; [by apply memstep_upd|]. by split.
  - set (tf := p_trapframe (get_proc s i)) in *. set (root := p_pagetable (get_proc s i)) in *.
    pose proof (page_ok_pos _ HL Ht). rewrite !(proj2 (Z.eqb_neq _ 0)) by lia. cbn [negb when].
    cbn [app] in Hnd. apply NoDup_cons in Hnd as [Hn Hnd]. rewrite !not_elem_of_app in Hn. destruct Hn as ((Hn1 & Hn2) & Hn3).
    destruct (kfree_step tf l s e Hal Ht Hn3) as (Hr & Hal1 & Hms & Hfr). kstep_with Hr.
    unfold procset. rewrite bind_modify. set (sB := upd_proc i (set_p_trapframe 0) (freed tf s)).
    assert (HspB : proc_space sB (tf :: l) T root us tf).
    { apply proc_space_upd. apply (proc_space_other s l T root us tf (freed tf s) (tf :: l) (tf :: l)); try done.
      - by constructor.
      - intros x Hx. apply not_elem_of_cons. split; [intros ->; by apply elem_of_app in Hx as [?|?]|].
        apply NoDup_app in Hnd as (_ & Hnd & _). by apply Hnd.
      - eapply mem_frame_mono; [|exact Hfr]. intros x ->%list_elem_of_singleton. by left. }
    destruct (proc_freepagetable_run sB (tf :: l) T root us tf (p_sz (get_proc s i)) e Htr Ht HspB Hsz Hus)
      as (s1 & l1 & Hr1 & Hal2 & Hms1 & Hp1 & Hfr1).
    destruct (memstep_upd_inv _ _ _ _ Hms1) as (s2 & -> & Hms2). kstep_with Hr1. slot_stores.
    exists (upd_proc i cleared s2), l1. split_and!; [done|exact Hal2| | |].
    + apply memstep_upd. by etransitivity.
    + rewrite Hp1. cbn [app]. by rewrite <- app_assoc, !Permutation_middle.
    + eapply mem_frame_trans; [eapply mem_frame_mono; [|exact Hfr]|eapply mem_frame_mono; [|exact Hfr1]].
      * intros x ->%list_elem_of_singleton. by left.
      * intros x Hx. by right.
Qed.

(** ** [allocproc] *)

Lemma find_unused_run ids y s e :
  cpu_wf y -> (forall i, i ∈ ids -> lfree y (Lproc i)) -> syn s = y ->
  exists r y', find_unused ids s e = Ok r (set_syn y' s) e /\
    match r with
    | Some i => i ∈ ids /\ p_state (get_proc s i) = UNUSED /\ y' = acq y (Lproc i)
    | None => (forall i, i ∈ ids -> p_state (get_proc s i) <> UNUSED) /\ (ids = [] /\ y' = y \/ y' = touch y)
    end.
Proof.
  intros Hwf. revert y s Hwf. induction ids as [|i ids IH]; intros y s Hwf Hl Hs; cbn [find_unused].
  { exists None, y. split; [unfold mret, KM_ret; apply Ok_eq; [done|by kext]|]. split; [|left; done]. intros i Hi. by apply elem_of_nil in Hi. }
  assert (Hi : lfree y (Lproc i)) by (apply Hl; by left).
  kstep ltac:(by apply acquire_free; rewrite Hs). unfold procget. kpure.
  change (get_proc (set_syn _ s) i) with (get_proc s i). destruct (decide (p_state (get_proc s i) = UNUSED)) as [Hu|Hu].
  { exists (Some i), (acq y (Lproc i)). rewrite Hs. split; [done|]. split_and!; [by left|done|done]. }
  erewrite bind_ok; [|apply (release_acq _ _ y); [done|done|by rewrite Hs]].
  destruct (IH (touch y) (set_syn (touch y) s)) as (r & y' & Hr & Hc); [auto with xv6| |done|].
  { intros j Hj. apply lfree_touch, Hl. by right. }
  exists r, y'. split; [exact Hr|]. destruct r as [j|].
  - destruct Hc as (H1 & H2 & ->). split_and!; [by right|done|by apply acq_touch].
  - destruct Hc as (H1 & H2). split; [|rewrite touch_touch in H2; right; tauto].
    intros j [->|Hj]%elem_of_cons; [done|by apply H1].
Qed.

Lemma allocpid_run y i s e :
  cpu_wf y -> lfree y Lpid -> syn s = acq y (Lproc i) ->
  allocpid s e = Ok (nextpid s) (set_nextpid (i32 (nextpid s + 1)) s) e.
Proof.
  intros Hwf Hl Hs. unfold allocpid. assert (Hl' : lfree (syn s) Lpid) by (rewrite Hs; by apply lfree_acq).
  assert (Hw' : cpu_wf (syn s)) by (rewrite Hs; auto with xv6).
  kstep ltac:(by apply acquire_free). kpure. cbn [set_syn nextpid].
  kstep ltac:(by apply (release_acq _ _ (syn s))). unfold mret, KM_ret. apply Ok_eq; [done|].
  kext. by rewrite Hs, touch_acq.
Qed.

(** With a lock held, work on memory leaves the interrupt state alone. *)
Lemma memstep_held y lk s s' :
  cpu_wf y -> syn s = acq y lk -> memstep s s' -> exists f m, s' = set_freelist f (set_mem m s).
Proof.
  intros Hwf Hs (y' & f & m & -> & Hy). exists f, m.
  assert (y' = syn s) as -> by (destruct Hy as [->| ->]; [done|by rewrite Hs, touch_acq]). by kext.
Qed.

(** A slot that [freeproc] and [exit] have left. *)
Record clean (x : proc) : Prop := {
  cl_frame : p_trapframe x = 0;
  cl_table : p_pagetable x = 0;
  cl_size : p_sz x = 0;
  cl_alive : p_killed x = false;
  cl_files : p_ofile x = replicate (Z.to_nat NOFILE) None
}.

(** The slot of a new process. *)
Definition born (pid tf root : Z) (x : proc) : proc :=
  let x := set_p_pagetable root (set_p_trapframe tf (set_p_state USED (set_p_pid pid x))) in
  set_p_context (set_ctx_sp (p_kstack x + PGSIZE) (set_ctx_ra forkret_addr zero_context)) x.

(** No process has been made: apart from the free list's pages only the next pid
    and an unused slot may have been written. *)
Definition no_child (s s' : kstate) : Prop :=
  exists ps f m n, s' = set_syn (touch (syn s)) (set_freelist f (set_mem m (set_nextpid n (set_procs ps s)))) /\
    (ps = procs s \/ exists i ctx, p_state (get_proc s i) = UNUSED /\
      ps = alter (fun x => set_p_context ctx (cleared x)) i (procs s)).

Lemma alloc_quiet s s' l : quiet s -> layout_ok -> kmem_inv s' l -> syn s' = touch (syn s) -> alloc_ok s' l.
Proof.
  intros Q HL Hk Hs. refine (conj HL (conj Hk (conj _ _))); rewrite Hs; [auto with xv6|].
  apply lfree_touch, quiet_lfree; [exact Q|in_static].
Qed.

(** In between: slot [i] has its lock held and has been changed by [g]. *)
Definition staged (s : kstate) (i : nat) (g : proc -> proc) (s1 : kstate) : Prop :=
  exists f m n, s1 = set_syn (acq (syn s) (Lproc i)) (set_freelist f (set_mem m (set_nextpid n (upd_proc i g s)))).

Section Staged.
Context (s : kstate) (Q : quiet s) (i : nat) (Hi : (i < Z.to_nat NPROC)%nat).

Lemma staged_syn g s1 : staged s i g s1 -> syn s1 = acq (syn s) (Lproc i).
Proof. by intros (f & m & n & ->). Qed.

Lemma staged_wf g s1 : staged s i g s1 -> cpu_wf (syn s1) /\ lfree (syn s1) Lkmem.
Proof using Q.
  intros H. rewrite (staged_syn _ _ H). split; [auto with xv6|]. apply lfree_acq; [done|]. apply quiet_lfree; [exact Q|in_static].
Qed.

Lemma staged_memstep g s1 s2 : staged s i g s1 -> memstep s1 s2 -> staged s i g s2.
Proof using Q.
  intros H Hms. destruct (memstep_held (syn s) (Lproc i) s1 s2) as (f' & m' & ->); [auto with xv6|by apply (staged_syn g)|done|].
  destruct H as (f & m & n & ->). exists f', m', n. by kext.
Qed.

Lemma staged_upd g h s1 : staged s i g s1 -> staged s i (fun x => h (g x)) (upd_proc i h s1).
Proof.
  intros (f & m & n & ->). exists f, m, n. rewrite <- (upd_proc_twice i h g s). by kext.
Qed.

Lemma staged_get g s1 : staged s i g s1 -> get_proc s1 i = g (get_proc s i).
Proof using Q Hi.
  intros (f & m & n & ->). apply (get_upd_proc i g s). destruct (quiet_procs s Q) as [-> _]. done.
Qed.

Lemma staged_ext g h s1 : staged s i g s1 -> g (get_proc s i) = h (get_proc s i) -> staged s i h s1.
Proof.
  intros (f & m & n & ->) E. exists f, m, n. unfold upd_proc. do 5 f_equal.
  apply list_alter_ext; [|done]. intros x Hx. unfold get_proc in E. by rewrite Hx in E.
Qed.

(** Giving the slot back. *)
Lemma alloc_undo {A} (a : A) g ctx s1 l0 l1 ps e :
  tramp_ok -> staged s i g s1 -> cleared (g (get_proc s i)) = set_p_context ctx (cleared (get_proc s i)) -> p_state (get_proc s i) = UNUSED ->
  alloc_ok s1 l1 -> slot_pages s1 l1 (get_proc s1 i) ps -> NoDup l0 -> ps ++ l1 ≡ₚ l0 -> mem_frame l0 (mem s) (mem s1) ->
  exists s' l', (freeproc i;; release (Lproc i);; mret a) s1 e = Ok a s' e /\
    alloc_ok s' l' /\ l' ≡ₚ l0 /\ mem_frame l0 (mem s) (mem s') /\ no_child s s'.
Proof using Q Hi.
  intros Htr St Hg Hu Hal Hsl Hnd Hp Hfr.
  destruct (freeproc_run i s1 l1 ps e Htr Hal Hsl) as (s2 & l2 & Hr & Hal2 & Hms & Hp2 & Hfr2); [by rewrite Hp|].
  pose proof (staged_memstep _ _ _ (staged_upd g cleared s1 St) Hms) as St2.
  pose proof (staged_syn _ _ St2) as Hs2. destruct (quiet_procs s Q) as [_ Hl]. kstep_with Hr.
  erewrite bind_ok; [|apply (release_acq _ _ (syn s)); [auto with xv6|by apply Hl|exact Hs2]].
  exists (set_syn (touch (syn s)) s2), l2. split; [done|]. split_and!.
  - destruct Hal2 as (HL & Hk & _). by apply (alloc_quiet s).
  - by rewrite Hp2.
  - eapply mem_frame_trans; [exact Hfr|]. eapply mem_frame_mono; [|exact Hfr2].
    intros x Hx. rewrite <- Hp. apply elem_of_app. by left.
  - destruct (staged_ext _ (fun x => set_p_context ctx (cleared x)) _ St2 Hg) as (f & m & n & ->).
    exists (alter (fun x => set_p_context ctx (cleared x)) i (procs s)), f, m, n. split; [|right; by exists i, ctx]. by kext.
Qed.

(** The part of [allocproc] that needs memory. *)
Definition allocproc_fill : M (option nat) :=
  tf ← kalloc;
  procset i (set_p_trapframe tf);;
  if tf =? 0 then
    freeproc i;;
    release (Lproc i);;
    mret None
  else
  pt ← proc_pagetable i;
  procset i (set_p_pagetable pt);;
  if pt =? 0 then
    freeproc i;;
    release (Lproc i);;
    mret None
  else
  pr ← procget i;
  procset i (set_p_context zero_context);;
  procset i (fun x => set_p_context (set_ctx_ra forkret_addr (p_context x)) x);;
  procset i (fun x => set_p_context (set_ctx_sp (p_kstack pr + PGSIZE) (p_context x)) x);;
  mret (Some i).

Lemma allocproc_fill_run pid s2 l e :
  tramp_ok -> staged s i (fun x => set_p_state USED (set_p_pid pid x)) s2 -> alloc_ok s2 l -> mem s2 = mem s ->
  p_state (get_proc s i) = UNUSED -> clean (get_proc s i) ->
  exists r s' l', allocproc_fill s2 e = Ok r s' e /\ mem_frame l (mem s) (mem s') /\
    match r with
    | None => alloc_ok s' l' /\ l' ≡ₚ l /\ no_child s s' /\ (length l < 6)%nat
    | Some j => j = i /\ (length l <= length l' + 6)%nat /\ exists T root tf, page_ok tf /\ 0 < root /\ proc_space s' l' T root [] tf /\
        tf :: pt_tab_pages T ++ l' ≡ₚ l /\ staged s i (born pid tf root) s'
    end.
Proof using Q Hi.
  intros Htr St Hal Hm Hu [Hc1 Hc2 Hc3 _ _]. pose proof Hal as (HL & Hk & Hwf & Hlk). pose proof Hk as (_ & Hnd & _).
  unfold allocproc_fill. destruct l as [|tf l].
  { kstep ltac:(by apply kalloc_empty). unfold procset. rewrite bind_modify. cbn [Z.eqb].
    set (s3 := set_syn (touch (syn s2)) s2).
    pose proof (staged_upd _ (set_p_trapframe 0) _ (staged_memstep _ _ _ St (memstep_touch s2))) as St3. fold s3 in St3.
    destruct (alloc_undo (@None nat) _ (p_context (get_proc s i)) _ [] [] [] e Htr St3) as (s' & l' & Hr & Hal' & Hp & Hfr & Hno); try done.
    - destruct (staged_wf _ _ St3) as [Hw3 Hl3]. exact (conj HL (conj Hk (conj Hw3 Hl3))).
    - rewrite (staged_get _ _ St3). by constructor.
    - by rewrite <- Hm.
    - exists None, s', l'. split_and!; done || (cbn; lia). }
  destruct (kalloc_step tf l s2 e Hal) as (Hr1 & Hal3 & Hms3 & Hfr3 & Hpos & Hpok & Hnin). rewrite Hm in Hfr3.
  kstep_with Hr1. unfold procset at 1. unfold procset. rewrite bind_modify. rewrite (proj2 (Z.eqb_neq tf 0)) by lia.
  pose proof (staged_upd _ (set_p_trapframe tf) _ (staged_memstep _ _ _ St Hms3)) as St3.
  set (s3 := upd_proc i (set_p_trapframe tf) (kalloced tf s2)) in *. change (alloc_ok s3 l) in Hal3.
  assert (Hfr3' : mem_frame (tf :: l) (mem s) (mem s3)).
  { eapply mem_frame_mono; [|exact Hfr3]. intros x ->%list_elem_of_singleton. by left. }
  assert (Htf : p_trapframe (get_proc s3 i) = tf) by (by rewrite (staged_get _ _ St3)). clearbody s3.
  destruct (proc_pagetable_run i tf s3 l e Htr Hal3 Htf Hpok) as (root & s4 & l4 & Hr4 & Hms4 & Hfr4 & Hc).
  assert (Hfr4' : mem_frame (tf :: l) (mem s) (mem s4)).
  { eapply mem_frame_trans; [exact Hfr3'|]. eapply mem_frame_mono; [|exact Hfr4]. intros x Hx. by right. }
  kstep_with Hr4. rewrite bind_modify. pose proof (staged_upd _ (set_p_pagetable root) _ (staged_memstep _ _ _ St3 Hms4)) as St4.
  destruct Hc as [(Hroot & Hn4 & T & Hsp & Hp4)|(-> & Hn4 & Hal4 & Hp4)].
  - rewrite (proj2 (Z.eqb_neq root 0)) by lia. unfold procget. kpure.
    eexists (Some i), _, l4. split; [reflexivity|]. split; [exact Hfr4'|]. split; [done|]. split; [cbn; lia|]. exists T, root, tf.
    split_and!; [done|done|by do 4 apply proc_space_upd|by rewrite Hp4|].
    eapply staged_ext; [apply staged_upd, staged_upd, staged_upd, St4|].
    rewrite (staged_get _ _ St4). done.
  - cbn [Z.eqb]. destruct (alloc_undo (@None nat) _ (p_context (get_proc s i)) _ (tf :: l) l4 [tf] e Htr St4) as (s' & l' & Hr & Hal' & Hp & Hfr & Hno); try done.
    + assert (E : p_trapframe (get_proc (upd_proc i (set_p_pagetable 0) s4) i) = tf) by (by rewrite (staged_get _ _ St4)).
      rewrite <- E. apply slot_frame; rewrite (staged_get _ _ St4); done.
    + cbn [app]. by rewrite Hp4.
    + exists None, s', l'. split_and!; done || (cbn; lia).
Qed.

End Staged.

(** [allocproc] finds an unused slot and makes an empty process of it, or has no
    effect when there is no slot or no memory. *)
Lemma allocproc_run s l e :
  quiet s -> tramp_ok -> layout_ok -> kmem_inv s l ->
  (forall i, (i < Z.to_nat NPROC)%nat -> p_state (get_proc s i) = UNUSED -> clean (get_proc s i)) ->
  exists r s' l', allocproc s e = Ok r s' e /\ mem_frame l (mem s) (mem s') /\
    match r with
    | None => alloc_ok s' l' /\ l' ≡ₚ l /\ no_child s s' /\
        ((length l < 6)%nat \/ forall i, (i < Z.to_nat NPROC)%nat -> p_state (get_proc s i) <> UNUSED)
    | Some i => (length l <= length l' + 6)%nat /\ (i < Z.to_nat NPROC)%nat /\ p_state (get_proc s i) = UNUSED /\
        exists T root tf, page_ok tf /\ 0 < root /\ proc_space s' l' T root [] tf /\
          tf :: pt_tab_pages T ++ l' ≡ₚ l /\ staged s i (born (nextpid s) tf root) s'
    end.
Proof.
  intros Q Htr HL Hk Hcl. destruct (quiet_procs s Q) as [Hlen Hl]. pose proof Hk as (_ & Hnd & _).
  unfold allocproc. destruct (find_unused_run proc_ids (syn s) s e) as (r & y' & Hr & Hc); [auto with xv6| |done|].
  { intros i Hi. apply Hl. apply elem_of_seq in Hi. lia. }
  kstep_with Hr. destruct r as [i|].
  2: { exists None, (set_syn y' s), l. destruct Hc as [Hno [[? _]| ->]]; [done|].
       split_and!; [done|done|by apply (alloc_quiet s)|done| |right; intros i Hi; apply Hno, elem_of_seq; lia].
       exists (procs s), (freelist s), (mem s), (nextpid s). split; [by kext|by left]. }
  destruct Hc as (Hin & Hu & ->). apply elem_of_seq in Hin as Hin'. assert (Hi : (i < Z.to_nat NPROC)%nat) by lia. clear Hin Hin'.
  set (s1 := set_syn (acq (syn s) (Lproc i)) s).
  kstep ltac:(apply (allocpid_run (syn s) i); [auto with xv6|apply quiet_lfree; [exact Q|in_static]|done]).
  change (nextpid s1) with (nextpid s). set (pid := nextpid s). unfold procset. kpure. rewrite upd_proc_twice.
  set (g := fun x => set_p_state USED (set_p_pid pid x)).
  set (s2 := upd_proc i g (set_nextpid (i32 (pid + 1)) s1)).
  assert (St2 : staged s i g s2) by (exists (freelist s), (mem s), (i32 (pid + 1)); by kext).
  destruct (staged_wf s Q i g s2 St2) as [Hw2 Hl2].
  destruct (allocproc_fill_run s Q i Hi pid s2 l e Htr St2 (conj HL (conj Hk (conj Hw2 Hl2))) eq_refl Hu (Hcl i Hi Hu))
    as (r & s' & l' & Hrun & Hfr & Hc).
  exists r, s', l'. split; [exact Hrun|]. split; [exact Hfr|]. destruct r as [j|].
  - destruct Hc as (-> & Hn & Hc). by split_and!.
  - destruct Hc as (H1 & H2 & H3 & H4). split_and!; try done. by left.
Qed.

End AllocProc.
