(* ===== verification/Fork.v ===== *)
(** * fork

    [fork] as a whole: a child with a copy of the parent's memory, registers,
    open files and directory, or no child and nothing lost. *)

From stdpp Require Import base gmap strings numbers list.
From S2P Require Import Prelude KState Sample StringC Spinlock Sched Sleeplock Quiet Uart Printf Pages Kalloc Vm PageTable UserVm UserSpace Copy ForkVm Bio BufCache BufRefine Log LogDisk BufWp LogRun LogSafe LogOps Transaction FsWp Fs FsBlocks FsInode FsFile FsData FsOps FsSample Pipe Console File FileRw Proc ProcVm AllocProc.

Ltac Zify.zify_post_hook ::= Z.to_euclidean_division_equations.

(** ** The open files *)

Definition bump (x : file) : file := set_f_ref (f_ref x + 1) x.

(** The file table and the child's descriptors after those of [ids] have been
    taken over from [po]. *)
Definition dup_files (po : list (option nat)) (ids : list nat) (ft : list file) : list file :=
  foldl (fun ft i => match default None (po !! i) with Some f => alter bump f ft | None => ft end) ft ids.
Definition copy_slots (po : list (option nat)) (ids : list nat) (o : list (option nat)) : list (option nat) :=
  foldl (fun o i => match default None (po !! i) with Some f => <[i := Some f]> o | None => o end) o ids.

(** How many descriptors of [os] are open on file [f]. *)
Definition open_on (f : nat) (os : list (option nat)) : nat := length (filter (fun o => o = Some f) os).

Lemma open_on_snoc f os o : open_on f (os ++ [o]) = (open_on f os + if decide (o = Some f) then 1 else 0)%nat.
Proof. unfold open_on. rewrite filter_app, length_app. cbn. by destruct (decide (o = Some f)). Qed.

Definition file_at (ft : list file) (f : nat) : file := default zero_file (ft !! f).

Lemma file_at_bump ft g f : 1 <= f_ref (file_at ft g) ->
  file_at (alter bump g ft) f = if decide (g = f) then bump (file_at ft f) else file_at ft f.
Proof.
  intros Hg. unfold file_at in *. destruct (decide (g = f)) as [<-|Hne].
  - rewrite list_lookup_alter_eq. by destruct (ft !! g).
  - by rewrite list_lookup_alter_ne.
Qed.

Lemma dup_files_at po n ft f :
  (forall i g, po !! i = Some (Some g) -> 1 <= f_ref (file_at ft g)) -> (n <= length po)%nat ->
  file_at (dup_files po (seq 0 n) ft) f =
    set_f_ref (f_ref (file_at ft f) + Z.of_nat (open_on f (take n po))) (file_at ft f).
Proof.
  intros Hpo. revert f. induction n as [|n IH]; intros f Hn.
  { cbn. rewrite Z.add_0_r. by destruct (file_at ft f). }
  destruct (lookup_lt_is_Some_2 po n) as [o Ho]; [lia|].
  rewrite seq_S. unfold dup_files. rewrite foldl_snoc. fold (dup_files po (seq 0 n) ft). cbn [Nat.add].
  rewrite Ho, (take_S_r _ _ o Ho), open_on_snoc. cbn [from_option id]. destruct o as [g|].
  - rewrite file_at_bump.
    + destruct (decide (g = f)) as [->|Hne]; [rewrite decide_True by done|rewrite decide_False by congruence].
      * rewrite IH by lia. unfold bump, set_f_ref. cbn. f_equal; lia.
      * rewrite IH by lia. f_equal; lia.
    + rewrite IH by lia. cbn. specialize (Hpo n g Ho). lia.
  - rewrite decide_False by done. rewrite IH by lia. f_equal; lia.
Qed.

Lemma lookup_copy_slots po n o k :
  copy_slots po (seq 0 n) o !! k =
    if decide (k < n)%nat then match default None (po !! k) with Some f => (fun _ => Some f) <$> o !! k | None => o !! k end
    else o !! k.
Proof.
  induction n as [|n IH]; [done|]. rewrite seq_S. unfold copy_slots. rewrite foldl_snoc.
  fold (copy_slots po (seq 0 n) o). cbn [Nat.add]. destruct (decide (k = n)) as [->|Hne].
  - rewrite decide_True by lia. rewrite decide_False in IH by lia.
    destruct (default None (po !! n)) as [f|]; [|done].
    destruct (o !! n) as [x|] eqn:E.
    + rewrite list_lookup_insert_eq; [done|]. apply lookup_lt_is_Some. rewrite IH. eauto.
    + cbn. apply lookup_ge_None. rewrite length_insert. apply lookup_ge_None. by rewrite IH.
  - replace (match default None (po !! n) with Some f => <[n:=Some f]> (copy_slots po (seq 0 n) o) | None => copy_slots po (seq 0 n) o end !! k)
      with (copy_slots po (seq 0 n) o !! k)
      by (destruct (default None (po !! n)); [by rewrite list_lookup_insert_ne|done]).
    rewrite IH. destruct (decide (k < n)%nat); [rewrite decide_True by lia|rewrite decide_False by lia]; done.
Qed.

Lemma copy_slots_all po n : length po = n -> copy_slots po (seq 0 n) (replicate n None) = po.
Proof.
  intros Hl. apply list_eq. intros k. rewrite lookup_copy_slots. destruct (decide (k < n)%nat) as [Hk|Hk].
  - rewrite lookup_replicate_2 by done. destruct (lookup_lt_is_Some_2 po k) as [o Ho]; [lia|]. rewrite Ho. by destruct o.
  - rewrite !lookup_ge_None_2; [done|lia|rewrite length_replicate; lia].
Qed.

(** Running the loop of [fork]. *)
Definition dup_fd (np : nat) (po : list (option nat)) (i : nat) : M unit :=
  match default None (po !! i) with
  | None => mret ()
  | Some f =>
      f' ← filedup f;
      procset np (fun x => set_p_ofile (<[i := Some f']> (p_ofile x)) x)
  end.

Lemma filedup_held y lk f s e :
  cpu_wf y -> lfree y Lftable -> lk <> Lftable -> syn s = acq y lk -> 1 <= f_ref (get_file s f) ->
  filedup f s e = Ok f (upd_file f bump s) e.
Proof.
  intros Hwf Hl Hlk Hs Hr. unfold filedup. assert (Hl' : lfree (syn s) Lftable) by (rewrite Hs; by apply lfree_acq).
  assert (Hw' : cpu_wf (syn s)) by (rewrite Hs; auto with xv6).
  kstep ltac:(by apply acquire_free). unfold fileget, fileset. kpure. change (get_file (set_syn _ s) f) with (get_file s f).
  rewrite (proj2 (Z.ltb_ge _ _)) by lia. kpure.
  kstep ltac:(by apply (release_acq _ _ (syn s))). unfold mret, KM_ret. apply Ok_eq; [done|].
  kext. by rewrite Hs, touch_acq.
Qed.

Lemma dup_loop_run y np po ids s e :
  cpu_wf y -> lfree y Lftable -> syn s = acq y (Lproc np) ->
  (forall i f, i ∈ ids -> default None (po !! i) = Some f -> 1 <= f_ref (get_file s f)) ->
  for_each ids (dup_fd np po) s e =
    Ok () (set_ftable (dup_files po ids (ftable s)) (upd_proc np (fun x => set_p_ofile (copy_slots po ids (p_ofile x)) x) s)) e.
Proof.
  intros Hwf Hl. revert s. induction ids as [|i ids IH]; intros s Hs Hr.
  { cbn. apply Ok_eq; [done|]. kext. symmetry. apply list_alter_id. by intros []. }
  cbn [for_each]. unfold dup_files, copy_slots. cbn [foldl].
  pose proof (eq_refl : dup_fd np po i = match default None (po !! i) with None => _ | Some f => _ end) as E.
  destruct (default None (po !! i)) as [f|] eqn:Ef; rewrite E.
  - rewrite bind_assoc. erewrite bind_ok; [|apply (filedup_held y (Lproc np)); [done|done|done|done|apply (Hr i); [by left|done]]].
    unfold procset. kpure. rewrite IH.
    + apply Ok_eq; [done|]. unfold upd_file, upd_proc. kext. by rewrite list_alter_alter_eq.
    + done.
    + intros j g Hj Hg. pose proof Hr as Hr0. specialize (Hr j g ltac:(by right) Hg).
      change (1 <= f_ref (file_at (alter bump f (ftable s)) g)).
      rewrite file_at_bump by (apply (Hr0 i); [by left|done]). unfold get_file in Hr. fold (file_at (ftable s) g) in Hr.
      destruct (decide (f = g)); cbn; lia.
  - kpure. rewrite IH; [done|done|]. intros j g Hj. apply Hr. by right.
Qed.

(** ** The part of [fork] after the memory *)

Definition iref (x : inode) : inode := set_i_ref (i_ref x + 1) x.

Lemma idup_held y lk ip s e :
  cpu_wf y -> lfree y Litable -> lk <> Litable -> syn s = acq y lk ->
  idup ip s e = Ok ip (upd_inode ip iref s) e.
Proof.
  intros Hwf Hl Hlk Hs. unfold idup. assert (Hl' : lfree (syn s) Litable) by (rewrite Hs; by apply lfree_acq).
  assert (Hw' : cpu_wf (syn s)) by (rewrite Hs; auto with xv6).
  kstep ltac:(by apply acquire_free). unfold inodeset. kpure.
  kstep ltac:(by apply (release_acq _ _ (syn s))). unfold mret, KM_ret. apply Ok_eq; [done|].
  kext. by rewrite Hs, touch_acq.
Qed.

(** The slot of the child, and its trap frame. *)
Definition adopt (p : nat) (pr : proc) (c : nat) (x : proc) : proc :=
  set_p_state RUNNABLE (set_p_parent (Some p) (set_p_name (safestrcpy (p_name x) (p_name pr) 16)
    (set_p_cwd (Some c) (set_p_ofile (copy_slots (p_ofile pr) (seq 0 (Z.to_nat NOFILE)) (p_ofile x))
      (set_p_sz (p_sz pr) x))))).
Definition frame_copy (tf tf' : Z) (m : gmap Z Z) : gmap Z Z :=
  st64 (st_bytes m tf' (ld_bytes m tf (Z.to_nat TRAPFRAME_SIZE))) (tf' + TF_a 0) 0.

Section ForkRest.
Context {L : Layout}.

Definition fork_rest (p np : nat) (pr cr : proc) : M Z :=
  procset np (set_p_sz (p_sz pr));;
  modify (upd_mem (fun m => st_bytes m (p_trapframe cr)
    (ld_bytes m (p_trapframe pr) (Z.to_nat TRAPFRAME_SIZE))));;
  tf_set np (TF_a 0) 0;;
  for_each (seq 0 (Z.to_nat NOFILE)) (dup_fd np (p_ofile pr));;
  cwd ← deref (p_cwd pr);
  cwd ← idup cwd;
  procset np (set_p_cwd (Some cwd));;
  procset np (fun x => set_p_name (safestrcpy (p_name x) (p_name pr) 16) x);;
  cr ← procget np;
  let pid := p_pid cr in
  release (Lproc np);;
  acquire Lwait;;
  procset np (set_p_parent (Some p));;
  release Lwait;;
  acquire (Lproc np);;
  procset np (set_p_state RUNNABLE);;
  release (Lproc np);;
  mret pid.

Lemma fork_rest_run y p np pr c s e :
  cpu_wf y -> lfree y (Lproc np) -> (forall l, l ∈ static_locks -> lfree y l) -> syn s = acq y (Lproc np) ->
  (np < length (procs s))%nat -> p_cwd pr = Some c ->
  (forall i f, p_ofile pr !! i = Some (Some f) -> 1 <= f_ref (get_file s f)) ->
  fork_rest p np pr (get_proc s np) s e =
    Ok (p_pid (get_proc s np)) (set_syn (touch y) (upd_inode c iref
      (set_ftable (dup_files (p_ofile pr) (seq 0 (Z.to_nat NOFILE)) (ftable s))
        (upd_mem (frame_copy (p_trapframe pr) (p_trapframe (get_proc s np))) (upd_proc np (adopt p pr c) s))))) e.
Proof.
  intros Hwf Hl Hst Hs Hnp Hc Hf. unfold fork_rest, procset, tf_set, procget, wr64. rewrite !bind_modify.
  rewrite bind_assoc, bind_gets, bind_modify.
  change (get_proc (upd_mem _ (upd_proc np (set_p_sz (p_sz pr)) s)) np) with (get_proc (upd_proc np (set_p_sz (p_sz pr)) s) np).
  rewrite get_upd_proc by done. cbn [p_trapframe set_p_sz]. set (s1 := upd_mem _ _).
  erewrite bind_ok; [|apply (dup_loop_run y); [done|apply Hst; in_static|done|]].
  2: { intros i f _ Hd. destruct (p_ofile pr !! i) as [o|] eqn:Eo; [|done]. cbn in Hd. subst o. by apply (Hf i). }
  set (s2 := set_ftable _ _). rewrite Hc. cbn [deref]. rewrite bind_ret.
  erewrite bind_ok; [|apply (idup_held y (Lproc np)); [done|apply Hst; in_static|done|done]].
  rewrite !bind_modify, bind_gets. set (s3 := upd_proc np _ (upd_proc np _ _)).
  assert (Hpid : p_pid (get_proc s3 np) = p_pid (get_proc s np)).
  { unfold s3, s2, s1. unfold get_proc, upd_proc, upd_inode, upd_mem. cbn [procs set_procs set_itable set_ftable set_mem].
    rewrite !list_lookup_alter_eq. by destruct (procs s !! np). }
  rewrite Hpid. erewrite bind_ok; [|by apply (release_acq _ _ y)].
  assert (Hwf1 : cpu_wf (touch y)) by auto with xv6. assert (Hlw : lfree (touch y) Lwait) by (apply lfree_touch, Hst; in_static).
  erewrite bind_ok; [|by apply acquire_free]. rewrite bind_modify. erewrite bind_ok; [|by apply (release_acq _ _ (touch y))].
  rewrite touch_touch. erewrite bind_ok; [|apply acquire_free; [done|by apply lfree_touch]]. rewrite bind_modify.
  erewrite bind_ok; [|apply (release_acq _ _ (touch y)); [done|by apply lfree_touch|done]]. rewrite touch_touch.
  unfold mret, KM_ret. apply Ok_eq; [done|]. unfold s3, s2, s1, upd_inode, upd_proc, upd_mem. kext.
  rewrite !list_alter_alter_eq. done.
Qed.

End ForkRest.

(** ** The trap frame *)

Lemma frame_copy_frame tf tf' m : mem_frame [tf'] m (frame_copy tf tf' m).
Proof.
  intros a Ha. assert (Hn : ~ in_page tf' a) by (apply Ha; by left). unfold in_page, PGSIZE in Hn. unfold frame_copy.
  rewrite ld8_st64_other by (unfold TF_a; lia). rewrite ld8_st_bytes, length_ld_bytes, decide_False; [done|].
  change (Z.of_nat (Z.to_nat TRAPFRAME_SIZE)) with 288. lia.
Qed.

Lemma frame_copy_a0 tf tf' m : ld64 (frame_copy tf tf' m) (tf' + TF_a 0) = 0.
Proof. unfold frame_copy. by rewrite ld64_st64. Qed.

Lemma frame_copy_regs tf tf' m i : 0 <= i < TRAPFRAME_SIZE -> ~ (TF_a 0 <= i < TF_a 0 + 8) ->
  ld8 (frame_copy tf tf' m) (tf' + i) = ld8 m (tf + i).
Proof.
  intros Hi Hn. unfold TRAPFRAME_SIZE in Hi. unfold frame_copy. rewrite ld8_st64_other by lia.
  rewrite ld8_st_bytes, length_ld_bytes, decide_True by (change (Z.of_nat (Z.to_nat TRAPFRAME_SIZE)) with 288; lia).
  replace (tf' + i - tf') with i by lia. rewrite lookup_ld_bytes by (unfold TRAPFRAME_SIZE; lia).
  cbn. f_equal. lia.
Qed.

Section Fork.
Context {L : Layout}.

(** The process [p] that calls [fork], with memory [us] and directory [c]. *)
Record parent_ok (s : kstate) (p : nat) (l : list Z) (T : pgt) (us : list Z) (c : nat) : Prop := {
  pa_running : p_state (get_proc s p) = RUNNING;
  pa_space : uvm_ok s l T (p_pagetable (get_proc s p)) us;
  pa_frame : page_ok (p_trapframe (get_proc s p));
  pa_frame_used : p_trapframe (get_proc s p) ∉ l;
  pa_size : 0 <= p_sz (get_proc s p) <= TRAPFRAME;
  pa_pages : PGROUNDUP (p_sz (get_proc s p)) = Z.of_nat (length us) * PGSIZE;
  pa_slots i : (i < Z.to_nat NPROC)%nat -> p_state (get_proc s i) = UNUSED -> clean (get_proc s i);
  pa_files : length (p_ofile (get_proc s p)) = Z.to_nat NOFILE;
  pa_open i f : p_ofile (get_proc s p) !! i = Some (Some f) -> 1 <= f_ref (get_file s f);
  pa_cwd : p_cwd (get_proc s p) = Some c;
  pa_inode : (c < length (itable s))%nat
}.

(** The child in slot [np], with memory [us']. *)
Record forked (s : kstate) (p : nat) (l : list Z) (T : pgt) (us : list Z) (c : nat)
    (s' : kstate) (l' : list Z) (np : nat) (T' : pgt) (us' : list Z) : Prop := {
  fk_slot : (np < Z.to_nat NPROC)%nat /\ p_state (get_proc s np) = UNUSED;
  fk_run : p_state (get_proc s' np) = RUNNABLE /\ p_killed (get_proc s' np) = false /\
    ctx_ra (p_context (get_proc s' np)) = forkret_addr;
  fk_family : p_pid (get_proc s' np) = nextpid s /\ p_parent (get_proc s' np) = Some p;
  fk_name : p_name (get_proc s' np) = safestrcpy (p_name (get_proc s np)) (p_name (get_proc s p)) 16;
  fk_space : proc_space s' l' T' (p_pagetable (get_proc s' np)) us' (p_trapframe (get_proc s' np));
  fk_pages : p_trapframe (get_proc s' np) :: us' ++ pt_tab_pages T' ++ l' ≡ₚ l;
  fk_size : p_sz (get_proc s' np) = p_sz (get_proc s p) /\ length us' = length us;
  fk_bytes va n : 0 <= va -> va + Z.of_nat n <= Z.of_nat (length us) * PGSIZE ->
    ubytes (mem s') us' va n = ubytes (mem s) us va n;
  fk_flags k : (k < length us)%nat ->
    PTE_FLAGS (pte_of T' (Z.of_nat k * PGSIZE)) = PTE_FLAGS (pte_of T (Z.of_nat k * PGSIZE));
  fk_a0 : ld64 (mem s') (p_trapframe (get_proc s' np) + TF_a 0) = 0;
  fk_regs i : 0 <= i < TRAPFRAME_SIZE -> ~ (TF_a 0 <= i < TF_a 0 + 8) ->
    ld8 (mem s') (p_trapframe (get_proc s' np) + i) = ld8 (mem s) (p_trapframe (get_proc s p) + i);
  fk_ofile : p_ofile (get_proc s' np) = p_ofile (get_proc s p);
  fk_refs f : get_file s' f =
    set_f_ref (f_ref (get_file s f) + Z.of_nat (open_on f (p_ofile (get_proc s p)))) (get_file s f);
  fk_cwd : p_cwd (get_proc s' np) = Some c;
  fk_inode j : get_inode s' j = if decide (j = c) then iref (get_inode s j) else get_inode s j;
  fk_others i : i <> np -> get_proc s' i = get_proc s i
}.

(** What the parent sees of it. *)
Record parent_kept (s : kstate) (p : nat) (T : pgt) (us : list Z) (s' : kstate) (l' : list Z) : Prop := {
  pk_space : uvm_ok s' l' T (p_pagetable (get_proc s p)) us;
  pk_bytes va n : 0 <= va -> va + Z.of_nat n <= Z.of_nat (length us) * PGSIZE ->
    ubytes (mem s') us va n = ubytes (mem s) us va n;
  pk_regs i : 0 <= i < PGSIZE ->
    ld8 (mem s') (p_trapframe (get_proc s p) + i) = ld8 (mem s) (p_trapframe (get_proc s p) + i)
}.

Lemma parent_keep s p l T us c s' l' :
  parent_ok s p l T us c -> alloc_ok s' l' -> l' ⊆ l -> mem_frame l (mem s) (mem s') -> parent_kept s p T us s' l'.
Proof.
  intros P (HL & Hk & Hwf & Hlk) Hsub Hfr. pose proof (pa_space _ _ _ _ _ _ P) as U.
  pose proof (uv_vm _ _ _ _ _ U) as (_ & (_ & _ & Hlok) & _). pose proof (uv_pages _ _ _ _ _ U) as Hnd.
  rewrite app_assoc in Hnd. apply NoDup_app in Hnd as (_ & Hd & _). split.
  - by apply (uvm_ok_other s l T _ us s' l' l).
  - intros va n Hva Hvn. apply ubytes_pagewise; try done. intros k f g i Hf Hg Hi.
    assert (f = g) as <- by congruence. apply list_elem_of_lookup_2 in Hf as Hfu.
    destruct (uv_maps _ _ _ _ _ U _ _ Hf) as (_ & _ & _ & _ & Hfok).
    apply (other_frame l _ _ f); try done; [apply Hd, elem_of_app; by left|unfold in_page; lia].
  - intros i Hi. apply (other_frame l _ _ (p_trapframe (get_proc s p))); try done; try apply P. unfold in_page. lia.
Qed.

Section Steps.
Context (s : kstate) (Q : quiet s) (p : nat) (l : list Z) (T : pgt) (us : list Z) (c : nat).
Context (Htr : tramp_ok) (P : parent_ok s p l T us c).

(** The new slot as [allocproc] left it. *)
Context (np : nat) (s1 : kstate) (l1 : list Z) (T0 : pgt) (root' tf' : Z).
Context (Hnp : (np < Z.to_nat NPROC)%nat) (Hu : p_state (get_proc s np) = UNUSED).
Context (Htf : page_ok tf') (Hroot : 0 < root') (Hsp : proc_space s1 l1 T0 root' [] tf').
Context (Hpg : tf' :: pt_tab_pages T0 ++ l1 ≡ₚ l) (St : staged s np (born (nextpid s) tf' root') s1).
Context (Hfr : mem_frame l (mem s) (mem s1)).

Notation pr := (get_proc s p).

Lemma list_pages : NoDup l /\ Forall page_ok l /\ layout_ok.
Proof using P.
  destruct (uv_vm _ _ _ _ _ (pa_space _ _ _ _ _ _ P)) as (HL & (_ & Hnd & Hok) & _). done.
Qed.

Lemma space_alloc s' l' T' r us' t : proc_space s' l' T' r us' t -> alloc_ok s' l'.
Proof. intros [U _ _]. destruct (uv_vm _ _ _ _ _ U) as (HL & Hk & _ & _ & Hwf & Hlk). exact (conj HL (conj Hk (conj Hwf Hlk))). Qed.

Lemma parent_at : parent_kept s p T us s1 l1.
Proof using P Hsp Hpg Hfr.
  apply (parent_keep s p l T us c); [done|by eapply space_alloc| |done].
  intros x Hx. rewrite <- Hpg. right. apply elem_of_app. by right.
Qed.

Lemma spaces_apart x : x ∈ us ++ pt_tab_pages T -> x ∉ pt_tab_pages T0.
Proof using P Hpg.
  intros Hx Hin. pose proof (uv_pages _ _ _ _ _ (pa_space _ _ _ _ _ _ P)) as Hnd. rewrite app_assoc in Hnd.
  apply NoDup_app in Hnd as (_ & Hnd & _). apply (Hnd x Hx). rewrite <- Hpg. right. apply elem_of_app. by left.
Qed.

Notation copy := (copying s1 l1 T us T0 root').

Lemma copy_pages s2 l2 T2 us2 : copy s2 l2 T2 us2 -> tf' :: us2 ++ pt_tab_pages T2 ++ l2 ≡ₚ l.
Proof using Hpg. intros C. by rewrite <- Hpg, <- (cp_pages _ _ _ _ _ _ _ _ _ _ C). Qed.

Lemma copy_mem s2 l2 T2 us2 : copy s2 l2 T2 us2 -> mem_frame l (mem s) (mem s2).
Proof using Hpg Hfr.
  intros C. eapply mem_frame_trans; [exact Hfr|]. eapply mem_frame_mono; [|apply C].
  intros x Hx. rewrite <- Hpg. by right.
Qed.

Lemma copy_space s2 l2 T2 us2 : copy s2 l2 T2 us2 -> proc_space s2 l2 T2 root' us2 tf'.
Proof using Hsp.
  clear Hnp Hroot. intros C. pose proof (uv_size _ _ _ _ _ (cp_child _ _ _ _ _ _ _ _ _ _ C)) as Hsz. destruct TRAPFRAME_lt as (_ & H & _).
  assert (HTR : TRAMPOLINE = TRAPFRAME + PGSIZE) by done.
  split; [apply C|..]; (rewrite (cp_above _ _ _ _ _ _ _ _ _ _ C); [apply Hsp|done|unfold PGSIZE in *; lia]).
Qed.

Lemma fork_err s2 l2 T2 e : copy s2 l2 T2 [] ->
  exists s' l', (freeproc np;; release (Lproc np);; mret (-1)) s2 e = Ok (-1) s' e /\
    alloc_ok s' l' /\ l' ≡ₚ l /\ mem_frame l (mem s) (mem s') /\ no_child s s'.
Proof using Q P Htr Hnp Hu Htf Hroot Hsp Hpg St Hfr.
  intros C. destruct list_pages as (Hnd & _). pose proof (copy_space _ _ _ _ C) as Hsp2.
  pose proof (staged_memstep s Q np _ _ _ St (cp_step _ _ _ _ _ _ _ _ _ _ C)) as St2.
  destruct (pa_slots _ _ _ _ _ _ P np Hnp Hu) as [_ _ Hc3 _ _].
  pose proof (staged_get s Q np Hnp _ _ St2) as Hg.
  assert (E1 : p_trapframe (get_proc s2 np) = tf') by (by rewrite Hg).
  assert (E2 : p_pagetable (get_proc s2 np) = root') by (by rewrite Hg).
  assert (E3 : p_sz (get_proc s2 np) = 0) by (by rewrite Hg).
  apply (alloc_undo s Q np Hnp (-1) _ (p_context (get_proc s2 np)) s2 l l2 (tf' :: [] ++ pt_tab_pages T2) e Htr St2); try done.
  - by rewrite Hg.
  - by eapply space_alloc.
  - rewrite <- E1. apply slot_space; rewrite ?E1, ?E2, ?E3; done.
  - by apply copy_pages in C.
  - by eapply copy_mem.
Qed.

(** The parent in the state after the copy. *)
Lemma staged_fields g s2 : staged s np g s2 ->
  ftable s2 = ftable s /\ itable s2 = itable s /\ length (procs s2) = length (procs s) /\
  forall i, i <> np -> get_proc s2 i = get_proc s i.
Proof.
  intros (f & m & n & ->). split_and!; [done|done|cbn; by rewrite length_alter|]. intros i Hi. by apply (get_upd_other np i g s).
Qed.

(** The state in which [fork] returns to the parent. *)
Definition fork_state (s2 : kstate) : kstate :=
  set_syn (touch (syn s)) (upd_inode c iref
    (set_ftable (dup_files (p_ofile pr) (seq 0 (Z.to_nat NOFILE)) (ftable s2))
      (upd_mem (frame_copy (p_trapframe pr) tf') (upd_proc np (adopt p pr c) s2)))).

Lemma fork_state_alloc s2 l2 T2 us2 : copy s2 l2 T2 us2 ->
  alloc_ok (fork_state s2) l2 /\ mem_frame l (mem s) (mem (fork_state s2)) /\
  proc_space (fork_state s2) l2 T2 root' us2 tf' /\ tf' ∉ us2 ++ pt_tab_pages T2 ++ l2.
Proof using Q P Htf Hsp Hpg Hfr.
  intros C. destruct list_pages as (Hnd & Hok & HL). pose proof (copy_pages _ _ _ _ C) as Hp.
  assert (Hn : tf' ∉ us2 ++ pt_tab_pages T2 ++ l2) by (rewrite <- Hp in Hnd; by apply NoDup_cons in Hnd as [? _]).
  pose proof (copy_space _ _ _ _ C) as Hsp2. pose proof (space_alloc _ _ _ _ _ _ Hsp2) as (_ & Hk2 & _).
  pose proof (frame_copy_frame (p_trapframe pr) tf' (mem s2)) as Hf.
  assert (Hal : alloc_ok (fork_state s2) l2).
  { apply (alloc_quiet s); [done|done| |done]. refine (kmem_frame [tf'] s2 l2 _ Hf _ _ Hk2); [forall_list|].
    intros x ->%list_elem_of_singleton Hin. apply Hn. rewrite !elem_of_app. tauto. }
  split_and!; [exact Hal| | |exact Hn].
  - eapply mem_frame_trans; [by eapply copy_mem|]. eapply mem_frame_mono; [|exact Hf].
    intros x ->%list_elem_of_singleton. rewrite <- Hp. by left.
  - pose proof (uv_pages _ _ _ _ _ (ps_uvm _ _ _ _ _ _ Hsp2)) as Hnd2. rewrite app_assoc in Hnd2.
    apply NoDup_app in Hnd2 as (_ & Hd2 & _).
    apply (proc_space_other s2 l2 T2 root' us2 tf' _ l2 (tf' :: l2)); [done|done| | | |].
    + constructor; [done|]. apply Hk2.
    + intros x Hx. apply not_elem_of_cons. split; [|by apply Hd2]. intros ->. apply Hn. rewrite app_assoc. apply elem_of_app. by left.
    + intros x Hx. by right.
    + eapply mem_frame_mono; [|exact Hf]. intros x ->%list_elem_of_singleton. by left.
Qed.

Lemma fork_bytes s2 l2 T2 us2 va n : copy s2 l2 T2 us2 -> length us2 = length us ->
  0 <= va -> va + Z.of_nat n <= Z.of_nat (length us) * PGSIZE ->
  ubytes (mem (fork_state s2)) us2 va n = ubytes (mem s) us va n.
Proof using Q P Hnp Htf Hroot Hsp Hpg Hfr.
  intros C Hlen Hva Hvn. destruct (fork_state_alloc _ _ _ _ C) as (_ & _ & Hsp2 & Hn).
  rewrite <- (pk_bytes _ _ _ _ _ _ parent_at va n Hva Hvn). apply ubytes_pagewise; try done.
  intros k f g i Hf Hg Hi. rewrite <- (cp_copied _ _ _ _ _ _ _ _ _ _ C k f g Hf Hg i Hi).
  destruct (uv_maps _ _ _ _ _ (ps_uvm _ _ _ _ _ _ Hsp2) _ _ Hg) as (_ & _ & _ & _ & Hgok).
  apply (other_frame [tf'] _ _ g); [forall_list|done| |apply frame_copy_frame|unfold in_page; lia].
  intros ->%list_elem_of_singleton. apply Hn, elem_of_app. left. by eapply list_elem_of_lookup_2.
Qed.

Lemma fork_ok s2 l2 T2 us2 e : copy s2 l2 T2 us2 -> length us2 = length us ->
  fork_rest p np pr (get_proc s1 np) s2 e = Ok (nextpid s) (fork_state s2) e /\
  forked s p l T us c (fork_state s2) l2 np T2 us2.
Proof using Q P Hnp Hu Htf Hroot Hsp Hpg St Hfr.
  intros C Hlen. destruct (quiet_procs s Q) as [Hps Hlp].
  pose proof (staged_memstep s Q np _ _ _ St (cp_step _ _ _ _ _ _ _ _ _ _ C)) as St2.
  pose proof (staged_get s Q np Hnp _ _ St2) as Hg. destruct (staged_fields _ _ St2) as (Eft & Eit & Elen & Eo).
  destruct (pa_slots _ _ _ _ _ _ P np Hnp Hu) as [_ _ _ Hc4 Hc5].
  destruct (fork_state_alloc _ _ _ _ C) as (Hal & HfrF & HspF & _).
  assert (HgF : get_proc (fork_state s2) np = adopt p pr c (get_proc s2 np))
    by (apply (get_upd_proc np (adopt p pr c) s2); lia).
  assert (HtF : p_trapframe (get_proc (fork_state s2) np) = tf') by (by rewrite HgF, Hg).
  split.
  - rewrite (staged_get s Q np Hnp _ _ St), <- Hg.
    rewrite (fork_rest_run (syn s) p np pr c s2 e); [unfold fork_state; by rewrite Hg|auto with xv6|by apply Hlp|
      intros lk Hlk; by apply quiet_lfree|by eapply staged_syn|lia|apply P|].
    intros i f Hf. unfold get_file. rewrite Eft. by apply (pa_open _ _ _ _ _ _ P i).
  - split; rewrite ?HtF.
    + done.
    + rewrite HgF, Hg. split_and!; [done|exact Hc4|done].
    + by rewrite HgF, Hg.
    + by rewrite HgF, Hg.
    + replace (p_pagetable _) with root' by (by rewrite HgF, Hg). exact HspF.
    + by apply copy_pages in C.
    + by rewrite HgF.
    + intros va n Hva Hvn. by apply (fork_bytes s2 l2 T2 us2).
    + intros k Hk. apply (cp_flags _ _ _ _ _ _ _ _ _ _ C). lia.
    + apply frame_copy_a0.
    + intros i Hi Hn. etransitivity; [by apply frame_copy_regs|].
      pose proof (pa_frame _ _ _ _ _ _ P) as Hpf. destruct list_pages as (_ & Hok & _).
      apply (other_frame l _ _ (p_trapframe pr)); [done|done|apply P|exact (copy_mem _ _ _ _ C)|].
      unfold in_page, TRAPFRAME_SIZE, PGSIZE in *. lia.
    + rewrite HgF, Hg. cbn [adopt born p_ofile set_p_state set_p_parent set_p_name set_p_cwd set_p_ofile set_p_sz set_p_context set_p_pagetable set_p_trapframe set_p_pid].
      rewrite Hc5. apply copy_slots_all, P.
    + intros f. unfold get_file at 1. change (ftable (fork_state s2)) with (dup_files (p_ofile pr) (seq 0 (Z.to_nat NOFILE)) (ftable s2)).
      fold (file_at (dup_files (p_ofile pr) (seq 0 (Z.to_nat NOFILE)) (ftable s2)) f). rewrite Eft.
      pose proof (pa_files _ _ _ _ _ _ P) as Hlf. rewrite dup_files_at, take_ge; [done|lia|apply P|lia].
    + by rewrite HgF.
    + intros j. unfold get_inode. change (itable (fork_state s2)) with (alter iref c (itable s2)). rewrite Eit.
      destruct (decide (j = c)) as [->|Hne]; [|by rewrite list_lookup_alter_ne].
      rewrite list_lookup_alter_eq. by destruct (lookup_lt_is_Some_2 _ _ (pa_inode _ _ _ _ _ _ P)) as [x ->].
    + intros i Hi. etransitivity; [|by apply Eo]. apply (get_upd_other np i (adopt p pr c) s2). done.
Qed.

End Steps.

(** Reading the hart's current process leaves everything as it is. *)
Lemma parent_ok_touch s p l T us c : parent_ok s p l T us c -> parent_ok (set_syn (touch (syn s)) s) p l T us c.
Proof. intros P. split; try apply P. apply uvm_ok_touch, P. Qed.

Lemma forked_touch s p l T us c s' l' np T' us' :
  forked (set_syn (touch (syn s)) s) p l T us c s' l' np T' us' -> forked s p l T us c s' l' np T' us'.
Proof. intros F. split; apply F. Qed.

Lemma kept_touch s p T us s' l' : parent_kept (set_syn (touch (syn s)) s) p T us s' l' -> parent_kept s p T us s' l'.
Proof. intros F. split; apply F. Qed.

Lemma no_child_touch s s' : no_child (set_syn (touch (syn s)) s) s' -> no_child s s'.
Proof.
  intros (ps & f & m & n & -> & H). exists ps, f, m, n. split; [|exact H]. kext. apply touch_touch.
Qed.

(** ** Properties *)

(** C12 [fork] makes a child that is a copy of its parent, or has no effect.
    It never panics.  If it returns a pid, an unused slot holds a runnable
    process with that pid, whose parent is the caller: every byte and every
    permission of its memory is the parent's, in pages of its own; its saved
    registers are the parent's except that [a0], the value [fork] returns in the
    child, is 0; it has the parent's descriptors, directory and name, and the
    reference counts of open files and of the directory's inode are raised to
    match.  If it returns -1, there was no slot or not enough memory, the free
    list has the pages it had, and no process, file or inode has changed but for
    an unused slot.  The parent's memory and registers are unchanged in both
    cases, and so are all other processes. *)
Theorem fork_copies s l T us c e :
  quiet s -> tramp_ok -> parent_ok s (cur s) l T us c ->
  exists r s' l', fork s e = Ok r s' e /\ parent_kept s (cur s) T us s' l' /\
    ((r = nextpid s /\ exists np T' us', forked s (cur s) l T us c s' l' np T' us') \/
     (r = -1 /\ l' ≡ₚ l /\ no_child s s' /\
      ((length l < 6 + 3 * length us)%nat \/
       forall i, (i < Z.to_nat NPROC)%nat -> p_state (get_proc s i) <> UNUSED))).
Proof.
  intros Q Htr P. pose proof (quiet_wf _ Q) as Hwf. unfold fork.
  kstep ltac:(apply myproc_run; exact Hwf). rewrite (thread_ok_cur _ (quiet_thread _ Q)). cbn [deref]. rewrite bind_ret.
  set (b := set_syn (touch (syn s)) s). set (p := cur s) in *.
  assert (Qb : quiet b) by (apply (kq_quiet s); [split; [done|by right|done]|exact Q]).
  pose proof (parent_ok_touch _ _ _ _ _ _ P) as Pb. fold b in Pb.
  pose proof (uv_vm _ _ _ _ _ (pa_space _ _ _ _ _ _ Pb)) as (HL & Hk & _).
  destruct (allocproc_run b l e Qb Htr HL Hk (pa_slots _ _ _ _ _ _ Pb)) as (r & s1 & l1 & Hr & Hfr & Hc). kstep_with Hr.
  destruct r as [np|].
  2: { destruct Hc as (Hal & Hp & Hno & Hwhy). exists (-1), s1, l1. split; [done|].
       split; [apply kept_touch, (parent_keep b p l T us c); try done; intros x Hx; by rewrite <- Hp|].
       right. split_and!; [done|done|by apply no_child_touch|]. destruct Hwhy as [?|?]; [left; lia|by right]. }
  destruct Hc as (Hn & Hnp & Hu & T0 & root' & tf' & Htf & Hroot & Hsp & Hpg & St).
  unfold procget. rewrite !bind_gets.
  assert (Hpn : p <> np) by (intros ->; rewrite (pa_running _ _ _ _ _ _ Pb) in Hu; done).
  destruct (staged_fields b np _ _ St) as (_ & _ & _ & Eo). rewrite (Eo p Hpn).
  assert (Ept : p_pagetable (get_proc s1 np) = root') by (by rewrite (staged_get b Qb np Hnp _ _ St)). rewrite Ept.
  pose proof (pk_space _ _ _ _ _ _ (parent_at b p l T us c Pb s1 l1 T0 root' tf' Hsp Hpg Hfr)) as Up.
  pose proof (pa_size _ _ _ _ _ _ Pb) as Hsz. pose proof (pa_pages _ _ _ _ _ _ Pb) as Hus.
  destruct (uvmcopy_loop_run s1 l1 T _ us T0 root' _ e Up (ps_uvm _ _ _ _ _ _ Hsp)
    (spaces_apart b p l T us c Pb l1 T0 tf' Hpg) (proj1 Hsz) Hus (proj2 Hsz)
    (Z.to_nat (p_sz (get_proc b p) / PGSIZE + 2)) [] s1 l1 T0 (copying_start s1 l1 T us T0 root' (ps_uvm _ _ _ _ _ _ Hsp)))
    as (r & s2 & l2 & T2 & us2 & Hr2 & C & Hcase).
  { pose proof (PGROUNDUP_bounds (p_sz (get_proc b p)) (proj1 Hsz)) as Hb. destruct TRAPFRAME_lt as (_ & HT2 & _).
    change MAXVA with (2 ^ 38) in HT2. cbn. unfold PGSIZE in *. lia. }
  erewrite bind_ok; [|exact Hr2]. destruct Hcase as [(-> & Hlen)|(-> & -> & Hlt)]; cbn [Z.ltb Z.compare].
  - destruct (fork_ok b Qb p l T us c Pb np s1 l1 T0 root' tf' Hnp Hu Htf Hroot Hsp Hpg St Hfr s2 l2 T2 us2 e C Hlen) as [Hrun F].
    destruct (fork_state_alloc b Qb p l T us c Pb np s1 l1 T0 root' tf' Htf Hsp Hpg Hfr s2 l2 T2 us2 C) as (Hal & Hfr2 & _).
    eexists _, _, l2. split; [exact Hrun|]. split.
    + apply kept_touch, (parent_keep b p l T us c); try done. intros x Hx. rewrite <- (fk_pages _ _ _ _ _ _ _ _ _ _ _ F).
      right. rewrite !elem_of_app. tauto.
    + left. split; [done|]. exists np, T2, us2. by apply forked_touch.
  - destruct (fork_err b Qb p l T us c Htr Pb np s1 l1 T0 root' tf' Hnp Hu Htf Hroot Hsp Hpg St Hfr s2 l2 T2 e C)
      as (s' & l' & Hrun & Hal & Hp & Hfr2 & Hno).
    exists (-1), s', l'. split; [exact Hrun|]. split; [apply kept_touch, (parent_keep b p l T us c); try done; intros x Hx; by rewrite <- Hp|].
    right. split_and!; [done|done|by apply no_child_touch|]. left. cbn in Hlt. lia.
Qed.

End Fork.

(** ** Witness *)

(** A machine with 16 free pages. *)
Definition big_layout : Layout :=
  {| kend := PHYSTOP - 16 * PGSIZE; etext := @etext sample_layout; trampoline := @trampoline sample_layout;
     uservec := @uservec sample_layout; userret := @userret sample_layout; kernelvec := @kernelvec sample_layout;
     usertrap_addr := @usertrap_addr sample_layout; forkret_addr := @forkret_addr sample_layout;
     stat_pad := @stat_pad sample_layout |}.
Definition big_ids : list Z := [-8; -7; -6; -5; -4; -3; -2; -1; 0; 1; 2; 3; 4; 5; 6; 7].
Definition big_free : kstate := fold_left (fun s i => freed (sample_page i) s) (reverse big_ids) sample_state.

Lemma big_page_ok i : -8 <= i < 8 -> page_ok (L := big_layout) (sample_page i).
Proof.
  intros. unfold page_ok, aligned, sample_page. cbn [kend big_layout].
  unfold PHYSTOP, KERNBASE, PGSIZE in *. lia.
Qed.

Lemma big_alloc_ok : alloc_ok (L := big_layout) big_free (sample_page <$> big_ids).
Proof.
  assert (HL : layout_ok (L := big_layout)) by (vm_compute; split; congruence).
  assert (H : forall ids s l, alloc_ok (L := big_layout) s (sample_page <$> l) -> Forall (fun i => -8 <= i < 8) ids ->
    NoDup (ids ++ l) ->
    alloc_ok (L := big_layout) (fold_left (fun s i => freed (sample_page i) s) ids s) (sample_page <$> (reverse ids ++ l))).
  { induction ids as [|i ids IH]; intros s l Hal Hr Hnd; [done|]. cbn [fold_left]. apply Forall_cons in Hr as [Hi Hr].
    cbn [app] in Hnd. apply NoDup_cons in Hnd as [Hn Hnd]. rewrite reverse_cons, <- app_assoc. apply IH; [|done|].
    - refine (proj1 (proj2 (kfree_step (L := big_layout) (sample_page i) (sample_page <$> l) s [] Hal (big_page_ok i Hi) _))).
      intros Hin. apply list_elem_of_fmap in Hin as (j & Heq & Hj). apply Hn, elem_of_app. right.
      unfold sample_page, PGSIZE in Heq. assert (i = j) as -> by lia. done.
    - cbn [app]. rewrite <- Permutation_middle. by apply NoDup_cons. }
  specialize (H (reverse big_ids) sample_state []). rewrite reverse_involutive in H. apply H.
  - refine (conj HL (conj _ (conj _ _))); [by split_and!; [|constructor|constructor]|apply sample_cpu_wf|].
    apply sample_lfree, sample_lockids_elem. exact I.
  - repeat constructor; lia.
  - apply (bool_decide_unpack _). by vm_compute.
Qed.

(** A process with one page of memory, a trap frame and a descriptor. *)
Lemma big_space : exists s l T tf,
  uvm_ok (L := big_layout) s l T (sample_page (-8)) [sample_page (-7)] /\ page_ok (L := big_layout) tf /\ tf ∉ l /\
  (9 <= length l)%nat /\ (forall x, x ∈ [sample_page (-7)] ++ pt_tab_pages T -> x ∉ tf :: l) /\
  PTE_FLAGS (pte_of T 0) = Z.lor sample_perm PTE_V.
Proof.
  pose proof big_alloc_ok as (HL & Hk & Hwf & Hlk). set (l0 := sample_page <$> big_ids) in Hk.
  assert (Hnd : NoDup l0) by apply Hk. unfold l0, big_ids in *. cbn [fmap list_fmap] in *.
  destruct (uvmcreate_run (L := big_layout) _ _ big_free [] HL Hk Hwf Hlk) as (s1 & _ & _ & Hok & _).
  pose proof (uvm_ok_empty (L := big_layout) s1 _ _ Hok Hnd) as U1.
  pose proof Hok as (_ & Hk1 & _ & _ & Hwf1 & Hlk1).
  destruct (kalloc_zeroed (L := big_layout) _ _ s1 [] HL Hk1 Hwf1 Hlk1) as (_ & _ & _ & Hms & Hk' & _ & Hfr & _).
  destruct (uvm_map (L := big_layout) s1 _ _ _ _ _ [] sample_perm [] U1 Hms Hk' Hfr)
    as (s2 & l2 & T2 & r & _ & _ & _ & _ & _ & _ & Hcase); [by vm_compute| |done|].
  { split; vm_compute; congruence. }
  destruct Hcase as [(_ & Hn & U2 & HT2)|(_ & _ & Hlen & _)]; [|cbn in Hlen; lia].
  cbn [length] in Hn. destruct l2 as [|tf l2]; [cbn in Hn; lia|]. cbn [length] in Hn.
  pose proof (uv_vm _ _ _ _ _ U2) as (_ & Hk2 & _ & _ & Hwf2 & Hlk2).
  destruct (kalloc_step (L := big_layout) tf l2 s2 [] (conj HL (conj Hk2 (conj Hwf2 Hlk2))))
    as (_ & (_ & Hk3 & Hwf3 & Hlk3) & _ & Hfr3 & _ & Htf & Hnin).
  pose proof (uv_pages _ _ _ _ _ U2) as Hnd2. rewrite app_assoc in Hnd2. apply NoDup_app in Hnd2 as (_ & Hd2 & _).
  exists (kalloced tf s2), l2, T2, tf. split_and!; [|done|done|lia|exact Hd2|].
  2: { unfold pte_of. rewrite HT2. change (Z.of_nat (length []) * PGSIZE) with 0. rewrite lookup_insert_eq. by vm_compute. }
  apply (uvm_ok_other (L := big_layout) s2 (tf :: l2) T2 _ _ _ l2 (tf :: l2)); try done.
  - apply Hk2.
  - intros x Hx. by right.
  - eapply mem_frame_mono; [|exact Hfr3]. intros x ->%list_elem_of_singleton. by left.
Qed.

Definition sample_parent (s : kstate) (tf : Z) : kstate :=
  set_mem (mem s) (set_freelist (freelist s)
    (set_ftable (<[3%nat := set_f_ref 1 zero_file]> (ftable sample_state))
      (set_procs (set_p_sz PGSIZE (set_p_pagetable (sample_page (-8)) (set_p_trapframe tf
          (set_p_ofile (Some 3%nat :: replicate 15 None) (set_p_cwd (Some 0%nat) sample_proc)))) :: replicate 63 zero_proc)
        sample_state))).

Lemma quiet_keep s s' : syn s' = syn s -> length (procs s') = length (procs s) -> quiet s -> quiet s'.
Proof. intros Hs Hl. unfold quiet, thread_ok, proc_ok, cur. by rewrite Hs, Hl. Qed.

Lemma sample_parent_quiet s tf : quiet (sample_parent s tf).
Proof. apply (quiet_keep sample_state); [reflexivity|reflexivity|apply sample_quiet]. Qed.

Lemma sample_parent_ok s l T tf :
  uvm_ok (L := big_layout) s l T (sample_page (-8)) [sample_page (-7)] -> page_ok (L := big_layout) tf -> tf ∉ l ->
  parent_ok (L := big_layout) (sample_parent s tf) 0 l T [sample_page (-7)] 0.
Proof.
  intros U Htf Hn. split; try done.
  - apply (uvm_ok_keep s); [exact U|done|done|apply sample_cpu_wf|]. apply sample_lfree, sample_lockids_elem. exact I.
  - intros i _. unfold get_proc. cbn [sample_parent procs set_mem set_freelist set_ftable set_procs].
    destruct i as [|i]; [done|]. cbn [lookup list_lookup].
    destruct (replicate 63 zero_proc !! i) as [x|] eqn:E; [apply lookup_replicate in E as [-> _]|]; by split.
  - intros [|i] f Hf; [by injection Hf as <-|]. change (replicate 15 None !! i = Some (Some f)) in Hf.
    by apply lookup_replicate in Hf as [? _].
  - vm_compute. lia.
Qed.

Lemma fork_copies_witness : exists s s' np tf,
  fork (L := big_layout) s [] = Ok 2 s' [] /\ p_parent (get_proc s' np) = Some 0%nat /\
  f_ref (get_file s' 3) = 2 /\ ld64 (mem s') (tf + TF_a 0) = 0.
Proof.
  destruct big_space as (s & l & T & tf & U & Htf & Hn & Hlen & _).
  destruct (fork_copies (L := big_layout) (sample_parent s tf) l T [sample_page (-7)] 0 []) as (r & s' & l' & Hr & _ & Hc).
  - apply sample_parent_quiet.
  - split_and!; vm_compute; congruence.
  - apply sample_parent_ok; assumption.
  - destruct Hc as [(-> & np & T' & us' & F)|(_ & _ & _ & Hwhy)].
    + exists (sample_parent s tf), s', np, (p_trapframe (get_proc s' np)). split_and!.
      * exact Hr.
      * exact (proj2 (fk_family _ _ _ _ _ _ _ _ _ _ _ F)).
      * rewrite (fk_refs _ _ _ _ _ _ _ _ _ _ _ F 3%nat). reflexivity.
      * exact (fk_a0 _ _ _ _ _ _ _ _ _ _ _ F).
    + exfalso. destruct Hwhy as [Hlt|Hfull]; [cbn in Hlt; lia|]. apply (Hfull 1%nat); [vm_compute; lia|reflexivity].
Defined.
