(* ===== verification/Reap.v ===== *)
(** * wait

    [wait] finds a child that has exited, stores its exit status in the
    parent's memory and gives everything the child owned back; without one it
    sleeps until a child has exited. *)

From stdpp Require Import base gmap strings numbers list.
From S2P Require Import Prelude KState Sample StringC Spinlock Sched Sleeplock Quiet Switch Uart Printf Pages Kalloc Vm PageTable UserVm UserSpace Copy ForkVm Bio BufCache BufRefine Log LogDisk BufWp LogRun LogSafe LogOps Transaction FsWp Fs FsBlocks FsInode FsFile FsData FsOps FsSample Pipe Console File FileRw Proc ProcVm AllocProc Fork.

Ltac Zify.zify_post_hook ::= Z.to_euclidean_division_equations.

Section Reap.
Context {L : Layout} (s0 : kstate) (Q : quiet s0) (Htr : tramp_ok) (addr : Z).
Notation y := (syn s0).
Notation p := (cur s0).

(** Slot [i] is an exited child of the process. *)
Definition exited (s : kstate) (i : nat) : Prop := p_parent (get_proc s i) = Some p /\ p_state (get_proc s i) = ZOMBIE.

(** [z] is the first of them, owns the pages [ps], and the process has memory [us]. *)
Record reapable (s : kstate) (l : list Z) (T : pgt) (us : list Z) (z : nat) (ps : list Z) : Prop := {
  rp_space : uvm_ok (set_syn y s) l T (p_pagetable (get_proc s p)) us;
  rp_addr : addr = 0 \/ accessible T us PTE_W addr 4;
  rp_len : length (procs s) = length (procs s0);
  rp_slot : (z < Z.to_nat NPROC)%nat;
  rp_zombie : exited s z;
  rp_first i : (i < z)%nat -> ~ exited s i;
  rp_self : z <> p;
  rp_owns : slot_pages (set_syn y s) l (get_proc s z) ps;
  rp_nodup : NoDup (ps ++ l);
  rp_apart x : x ∈ ps -> x ∉ us ++ pt_tab_pages T
}.

(** The child is gone: its pages are free, its slot is unused, and its status is in
    the parent's memory at [addr]. *)
Record reaped (s : kstate) (l : list Z) (T : pgt) (us : list Z) (z : nat) (ps : list Z) (s' : kstate) (l' : list Z) : Prop := {
  rd_alloc : alloc_ok s' l';
  rd_pages : l' ≡ₚ ps ++ l;
  rd_state : exists f m, s' = set_syn (touch y) (set_freelist f (set_mem m (upd_proc z cleared s)));
  rd_space : uvm_ok s' l' T (p_pagetable (get_proc s p)) us;
  rd_status va : 0 <= va < Z.of_nat (length us) * PGSIZE ->
    ld8 (mem s') (uaddr us va) =
      if decide (addr <> 0 /\ addr <= va < addr + 4) then default 0 (le_bytes 4 (p_xstate (get_proc s z)) !! Z.to_nat (va - addr))
      else ld8 (mem s) (uaddr us va);
  rd_frame : mem_frame (us ++ ps) (mem s) (mem s')
}.

Lemma wait_lock_wf : cpu_wf y /\ lfree y Lwait /\ lfree (acq y Lwait) Lkmem /\ forall i, (i < Z.to_nat NPROC)%nat -> lfree (acq y Lwait) (Lproc i).
Proof using Q.
  split_and!; [auto with xv6|apply quiet_lfree; [exact Q|in_static]|apply lfree_acq; [done|apply quiet_lfree; [exact Q|in_static]]|].
  intros i Hi. apply lfree_acq; [done|]. by apply quiet_procs.
Qed.

(** Children that have not exited are passed over. *)
Lemma wait_scan_skip ids ids' hk s e :
  syn s = acq y Lwait -> (forall i, i ∈ ids -> (i < Z.to_nat NPROC)%nat /\ ~ exited s i) ->
  wait_scan (ids ++ ids') p addr hk s e =
    wait_scan ids' p addr (hk || existsb (fun i => bool_decide (p_parent (get_proc s i) = Some p)) ids) s e.
Proof using Q.
  intros Hs. destruct wait_lock_wf as (Hwf & _ & _ & Hl). revert hk. induction ids as [|i ids IH]; intros hk Hi; [by rewrite orb_false_r|].
  destruct (Hi i ltac:(by left)) as [Hlt Hne]. assert (IH' := fun hk => IH hk (fun j Hj => Hi j ltac:(by right))). clear IH.
  cbn [app wait_scan existsb]. unfold procget. kpure. unfold exited in Hne.
  destruct (decide (p_parent (get_proc s i) = Some p)) as [Hc|Hc].
  - kstep ltac:(apply acquire_free; rewrite Hs; [auto with xv6|by apply Hl]). kpure.
    change (get_proc (set_syn _ s) i) with (get_proc s i). rewrite decide_False by tauto.
    erewrite bind_ok; [|apply (release_acq _ _ (acq y Lwait)); [auto with xv6|by apply Hl|by rewrite Hs]].
    assert (E : set_syn (touch (acq y Lwait)) (set_syn (acq (syn s) (Lproc i)) s) = s).
    { rewrite touch_acq by done. rewrite <- Hs. kext. }
    rewrite E, IH', bool_decide_true by done. by rewrite orb_true_r, orb_true_l.
  - rewrite IH', bool_decide_false by done. done.
Qed.

(** Storing the status. *)
Lemma store_status s l T root us x e :
  uvm_ok s l T root us -> addr = 0 \/ accessible T us PTE_W addr 4 ->
  exists s', (if negb (addr =? 0) then copyout root addr (le_bytes 4 x) 4 else mret 0) s e = Ok 0 s' e /\
    memstep s s' /\ uvm_ok s' l T root us /\ mem_frame us (mem s) (mem s') /\
    forall va, 0 <= va < Z.of_nat (length us) * PGSIZE ->
      ld8 (mem s') (uaddr us va) =
        if decide (addr <> 0 /\ addr <= va < addr + 4) then default 0 (le_bytes 4 x !! Z.to_nat (va - addr))
        else ld8 (mem s) (uaddr us va).
Proof.
  intros U Ha. destruct (Z.eqb_spec addr 0) as [E|E]; cbn [negb].
  - exists s. split_and!; [done|reflexivity|done|done|]. intros va _. by rewrite decide_False by tauto.
  - destruct Ha as [?|Ha]; [done|].
    destruct (copyout_loop_run (Z.to_nat (4 / PGSIZE + 3)) s l T root us addr (le_bytes 4 x) 4 e U Ha) as (s' & Hr & Hms & U' & Hfr & Hb);
      [done|unfold PGSIZE; lia|].
    exists s'. split_and!; try done. intros va Hva. rewrite Hb by done.
    destruct (decide (addr <= va < addr + 4)); [rewrite decide_True by tauto|rewrite decide_False by tauto]; done.
Qed.

(** What a slot owns is not touched by writes to other pages. *)
Lemma slot_pages_other s l x ps s' C :
  slot_pages s l x ps -> alloc_ok s' l -> Forall page_ok C -> (forall q, q ∈ ps -> q ∉ C) -> l ⊆ C ->
  mem_frame C (mem s) (mem s') -> slot_pages s' l x ps.
Proof.
  intros Hs Hal HC Hd Hsub Hfr. destruct Hs as [H1 H2|H1 H2|T us H1 H2 Hsp H3 H4]; [by constructor..|].
  apply slot_space; try done. apply (proc_space_other s l T _ us _ s' l C); try done.
  intros q Hq. apply Hd. by right.
Qed.

Lemma uvm_frames_ok s l T root us : uvm_ok s l T root us -> Forall page_ok us.
Proof.
  intros U. apply Forall_lookup. intros i f Hf. by destruct (uv_maps _ _ _ _ _ U _ _ Hf) as (_ & _ & _ & _ & Hok).
Qed.

Lemma slot_pages_ok s l x ps : slot_pages s l x ps -> Forall page_ok ps.
Proof.
  intros [H1 H2|H1 H2|T us H1 H2 [U _ _] H3 H4]; [constructor|by constructor|]. constructor; [done|]. apply Forall_app.
  split; [by eapply uvm_frames_ok|]. eapply tab_pages_ok. apply (uv_vm _ _ _ _ _ U).
Qed.

(** User memory whose frames are not among the pages written. *)
Lemma user_other s l T root us C m va :
  uvm_ok s l T root us -> Forall page_ok C -> (forall x, x ∈ us -> x ∉ C) -> mem_frame C (mem s) m ->
  0 <= va < Z.of_nat (length us) * PGSIZE -> ld8 m (uaddr us va) = ld8 (mem s) (uaddr us va).
Proof.
  intros U HC Hd Hfr Hva. destruct (frame_at _ _ _ _ _ (va / PGSIZE) U) as (f & Hf & Hfok & _); [unfold PGSIZE in *; lia|].
  rewrite (uaddr_page _ _ _ Hf). apply (other_frame C _ _ f); try done; [|unfold in_page, PGSIZE; lia].
  apply Hd. by eapply list_elem_of_lookup_2.
Qed.

Lemma wait_found ids hk s l T us z ps e :
  syn s = acq y Lwait -> reapable s l T us z ps ->
  exists s' l', wait_scan (z :: ids) p addr hk s e = Ok (inl (p_pid (get_proc s z))) s' e /\ reaped s l T us z ps s' l'.
Proof using Q Htr.
  intros Hs [U Ha Hlen Hz [Hpar Hzom] _ Hself Hown Hnd Hap]. destruct wait_lock_wf as (Hwf & Hlw & Hlk & Hlp).
  set (y1 := acq y Lwait) in *. assert (Hwf1 : cpu_wf y1) by (unfold y1; auto with xv6).
  cbn [wait_scan]. unfold procget. kpure. rewrite decide_True by done.
  kstep ltac:(apply acquire_free; rewrite Hs; [done|by apply Hlp]). kpure. rewrite Hs.
  set (sA := set_syn (acq y1 (Lproc z)) s). change (get_proc sA z) with (get_proc s z). rewrite decide_True by done. kpure.
  change (get_proc sA p) with (get_proc s p).
  assert (UA : uvm_ok sA l T (p_pagetable (get_proc s p)) us).
  { apply (uvm_ok_keep _ _ _ _ _ _ U); [done|done|by apply cpu_wf_acq|by apply lfree_acq]. }
  destruct (store_status sA l T _ us (p_xstate (get_proc s z)) e UA Ha) as (sB & Hr & Hms & UB & HfrB & Hst).
  erewrite bind_ok; [|exact Hr]. cbn [Z.ltb Z.compare].
  destruct (memstep_held y1 (Lproc z) sA sB Hwf1 eq_refl Hms) as (f & m & EB).
  assert (HgB : get_proc sB z = get_proc s z) by (by rewrite EB).
  pose proof (uv_vm _ _ _ _ _ UB) as (HL & HkB & _ & _ & HwB & HlB). pose proof HkB as (_ & _ & Hlok).
  pose proof (conj HL (conj HkB (conj HwB HlB)) : alloc_ok sB l) as HalB.
  assert (HownB : slot_pages sB l (get_proc sB z) ps).
  { rewrite HgB. apply (slot_pages_other (set_syn y s) l _ ps sB (us ++ l)); [done|done| | | |].
    - apply Forall_app. split; [by eapply uvm_frames_ok|done].
    - intros q Hq. apply not_elem_of_app. split; [specialize (Hap q Hq); rewrite not_elem_of_app in Hap; tauto|].
      apply NoDup_app in Hnd as (_ & Hnd & _). by apply Hnd.
    - intros q Hq. apply elem_of_app. by right.
    - eapply mem_frame_mono; [|exact HfrB]. intros q Hq. apply elem_of_app. by left. }
  destruct (freeproc_run z sB l ps e Htr HalB HownB Hnd) as (sC & lC & HrC & HalC & HmsC & HpC & HfrC).
  destruct (memstep_held y1 (Lproc z) (upd_proc z cleared sB) sC Hwf1) as (f' & m' & EC); [by rewrite EB|done|].
  assert (HsC : syn sC = acq y1 (Lproc z)) by (by rewrite EC, EB).
  kstep_with HrC. erewrite bind_ok; [|apply (release_acq _ _ y1); [done|by apply Hlp|exact HsC]].
  assert (Ht : touch y1 = y1) by (by apply touch_acq). rewrite Ht. erewrite bind_ok; [|apply (release_acq _ _ y); [done|done|reflexivity]].
  set (s' := set_syn (touch y) (set_syn y1 sC)). exists s', lC. split; [done|].
  destruct HalC as (_ & HkC & _). assert (Hal : alloc_ok s' lC) by (by apply (alloc_quiet s0)).
  assert (Hus : forall x, x ∈ us ++ pt_tab_pages T -> x ∉ ps ++ l).
  { intros x Hx. apply not_elem_of_app. split; [intros Hin; by apply (Hap x)|].
    pose proof (uv_pages _ _ _ _ _ U) as HndU. rewrite app_assoc in HndU. apply NoDup_app in HndU as (_ & HndU & _). by apply HndU. }
  pose proof (slot_pages_ok _ _ _ _ Hown) as Hpok. split.
  - exact Hal.
  - exact HpC.
  - exists f', m'. unfold s'. rewrite EC, EB. by kext.
  - destruct Hal as (_ & Hk' & Hw' & Hl'). apply (uvm_ok_other sB l T _ us s' lC (ps ++ l)); try done.
    + by apply Forall_app.
    + intros x Hx. by rewrite <- HpC.
    + eapply mem_frame_mono; [|exact HfrC]. intros x Hx. apply elem_of_app. by left.
  - intros va Hva. etransitivity; [|exact (Hst va Hva)]. apply (user_other sB l T _ us ps _ va UB); [done| |exact HfrC|done].
    intros x Hx Hin. apply (Hap x Hin), elem_of_app. by left.
  - eapply mem_frame_trans; [eapply mem_frame_mono; [|exact HfrB]|eapply mem_frame_mono; [|exact HfrC]]; intros x Hx; apply elem_of_app; tauto.
Qed.

(** A whole scan of the table. *)
Lemma wait_scan_found s l T us z ps e :
  syn s = acq y Lwait -> reapable s l T us z ps ->
  exists s' l', wait_scan proc_ids p addr false s e = Ok (inl (p_pid (get_proc s z))) s' e /\ reaped s l T us z ps s' l'.
Proof using Q Htr.
  intros Hs R. pose proof (rp_slot _ _ _ _ _ _ R) as Hz.
  assert (E : proc_ids = seq 0 z ++ z :: seq (S z) (Z.to_nat NPROC - S z)).
  { unfold proc_ids. replace (Z.to_nat NPROC) with (z + S (Z.to_nat NPROC - S z))%nat at 1 by lia. by rewrite seq_app. }
  rewrite E, wait_scan_skip; [by apply wait_found|done|].
  intros i Hi. apply elem_of_seq in Hi. split; [lia|]. apply (rp_first _ _ _ _ _ _ R). lia.
Qed.

Lemma wait_scan_none s e :
  syn s = acq y Lwait -> (forall i, (i < Z.to_nat NPROC)%nat -> ~ exited s i) ->
  wait_scan proc_ids p addr false s e =
    Ok (inr (existsb (fun i => bool_decide (p_parent (get_proc s i) = Some p)) proc_ids)) s e.
Proof using Q.
  intros Hs Hn. rewrite <- (app_nil_r proc_ids) at 1. rewrite wait_scan_skip; [done|done|].
  intros i Hi. apply elem_of_seq in Hi. split; [lia|]. apply Hn. lia.
Qed.

Lemma reapable_syn s l T us z ps y' : reapable s l T us z ps -> reapable (set_syn y' s) l T us z ps.
Proof. intros R. split; apply R. Qed.
Lemma reaped_syn s l T us z ps y' s' l' : reaped (set_syn y' s) l T us z ps s' l' -> reaped s l T us z ps s' l'.
Proof. intros R. split; apply R. Qed.

(** The turn of the others while the process sleeps in [wait] ends in [s2], in which
    it has been woken. *)
Definition wait_asleep : kstate := set_syn (idle y) (upd_proc p (asleep (Ch_proc p)) s0).
Definition wait_woken (between : M unit) (s2 : kstate) : Prop :=
  exists b, between wait_asleep [] = Ok () s2 [] /\ syn s2 = with_intena b (idle y) /\ p_state (get_proc s2 p) = RUNNABLE.

Lemma wait_start e : wait addr s0 e = wait_loop (S (length e)) p addr (set_syn (acq y Lwait) s0) e.
Proof using Q.
  destruct wait_lock_wf as (Hwf & Hlw & _). unfold wait. kstep ltac:(apply myproc_run; exact Hwf).
  rewrite (thread_ok_cur _ (quiet_thread _ Q)). cbn [deref]. kpure.
  kstep ltac:(apply acquire_free; cbn; [auto with xv6|by apply lfree_touch]). cbn [syn set_syn]. rewrite acq_touch by done. done.
Qed.

(** ** Properties *)

(** C24 [wait] reaps a child that has exited.  If there is one, [wait] returns the pid
    of the first, the child's exit status is in the parent's memory at the address
    given, all pages the child owned are free again, each once, and its slot is
    unused; no other process, page or byte of the parent changes.  If no child has
    exited, [wait] returns -1 and changes nothing when the process has no children
    or has been killed; otherwise it sleeps, and when a child has exited and woken it,
    it reaps that child. *)
Theorem wait_reaps e :
  (forall l T us z ps, reapable s0 l T us z ps ->
     exists s' l', wait addr s0 e = Ok (p_pid (get_proc s0 z)) s' e /\ reaped s0 l T us z ps s' l') /\
  ((forall i, (i < Z.to_nat NPROC)%nat -> ~ exited s0 i) ->
   let kids := existsb (fun i => bool_decide (p_parent (get_proc s0 i) = Some p)) proc_ids in
   (kids = false \/ p_killed (get_proc s0 p) = true -> wait addr s0 e = Ok (-1) (set_syn (touch y) s0) e) /\
   (kids = true -> p_killed (get_proc s0 p) = false -> forall between s2 l T us z ps,
      wait_woken between s2 -> reapable (upd_proc p awake s2) l T us z ps ->
      exists s' l', wait addr s0 (swtch_away between :: e) = Ok (p_pid (get_proc (upd_proc p awake s2) z)) s' e /\
        reaped (upd_proc p awake s2) l T us z ps s' l')).
Proof using Q Htr.
  destruct wait_lock_wf as (Hwf & Hlw & _). split.
  - intros l T us z ps R. rewrite wait_start. cbn [wait_loop].
    destruct (wait_scan_found _ _ _ _ _ _ e (eq_refl : syn (set_syn (acq y Lwait) s0) = _) (reapable_syn _ _ _ _ _ _ _ R)) as (s' & l' & Hr & H).
    erewrite bind_ok; [|exact Hr]. exists s', l'. split; [done|]. by apply reaped_syn in H.
  - intros Hn kids. set (s1 := set_syn (acq y Lwait) s0).
    assert (Hscan : forall e, wait_scan proc_ids p addr false s1 e = Ok (inr kids) s1 e) by (intros e'; by apply wait_scan_none).
    assert (Hkill : forall e, killed p s1 e = Ok (p_killed (get_proc s0 p)) s1 e).
    { intros e'. exact (held_killed y s1 Lwait p e' Hwf (proj1 (proj2 (proj2 Q))) ltac:(done) eq_refl). }
    split.
    + intros Hstop. rewrite wait_start. cbn [wait_loop]. erewrite bind_ok; [|apply Hscan]. cbn beta iota.
      assert (Hs : (if negb kids then mret true else killed p) s1 e = Ok true s1 e).
      { destruct Hstop as [->|Hk]; [done|]. destruct kids; [|done]. cbn [negb]. by rewrite Hkill, Hk. }
      erewrite bind_ok; [|exact Hs]. cbn beta iota. erewrite bind_ok; [|by apply (release_acq _ _ y)]. done.
    + intros Hk Hal between s2 l T us z ps (b & Hb & Hs2 & Hrun) R. rewrite wait_start. cbn [length].
      cbn [wait_loop]. fold s1. erewrite bind_ok; [|apply Hscan]. cbn beta iota. rewrite Hk. cbn [negb]. erewrite bind_ok; [|apply Hkill]. rewrite Hal. cbn beta iota.
      erewrite bind_ok; [|by apply (sleep_resumed s0 Q (Ch_proc p) Lwait between s1 s2 b)].
      destruct (wait_scan_found _ _ _ _ _ _ e (eq_refl : syn (set_syn (acq y Lwait) (upd_proc p awake s2)) = _) (reapable_syn _ _ _ _ _ _ _ R)) as (s' & l' & Hr & H).
      erewrite bind_ok; [|exact Hr]. exists s', l'. split; [done|]. by apply reaped_syn in H.
Qed.

End Reap.

(** ** Witness *)

(** A parent that runs, in slot 0, and its child in slot 1, which has exited with 7. *)
Definition sample_child (tf r : Z) : proc :=
  set_p_pid 2 (set_p_xstate 7 (set_p_parent (Some 0%nat) (set_p_state ZOMBIE
    (set_p_pagetable r (set_p_trapframe tf zero_proc))))).
Definition sample_family (s : kstate) (tf r : Z) : kstate :=
  set_mem (mem s) (set_freelist (freelist s)
    (set_procs (set_p_sz PGSIZE (set_p_pagetable (sample_page (-8)) sample_proc) :: sample_child tf r :: replicate 62 zero_proc)
      sample_state)).

Lemma sample_family_quiet s tf r : quiet (sample_family s tf r).
Proof. apply (quiet_keep sample_state); [reflexivity|reflexivity|apply sample_quiet]. Qed.

Lemma sample_family_uvm s l T root us tf r :
  uvm_ok (L := big_layout) s l T root us ->
  uvm_ok (L := big_layout) (set_syn (syn sample_state) (sample_family s tf r)) l T root us.
Proof.
  intros U. pose proof sample_cpu_wf as Hwf. assert (Hlk : lfree (syn sample_state) Lkmem) by (apply sample_lfree, sample_lockids_elem; exact I).
  generalize dependent (syn sample_state). intros y Hwf Hlk. by apply (uvm_ok_keep s).
Qed.

Lemma sample_reapable : exists s tf r l T ps,
  reapable (L := big_layout) (sample_family s tf r) 16 (sample_family s tf r) l T [sample_page (-7)] 1 ps.
Proof.
  destruct big_space as (s & l & T & tf & U & Htf & Hn & Hlen & Hd & Hfl).
  pose proof (uv_vm _ _ _ _ _ U) as (HL & Hk & _ & _ & Hwf & Hlk). pose proof Hk as (_ & Hnd & Hlok).
  set (sX := set_procs [zero_proc; set_p_trapframe tf zero_proc] s).
  destruct (proc_pagetable_run (L := big_layout) 1 tf sX l []) as (r & s2 & l2 & _ & _ & Hfr & Hc);
    [split_and!; vm_compute; congruence|exact (conj HL (conj Hk (conj Hwf Hlk)))|done|done|].
  destruct Hc as [(Hr & _ & T' & Hsp & Hp)|(_ & Hlt & _)]; [|lia].
  destruct (space_alloc (L := big_layout) _ _ _ _ _ _ Hsp) as (_ & Hk2 & Hwf2 & Hlk2).
  exists s2, tf, r, l2, T, (tf :: [] ++ pt_tab_pages T'). split.
  - apply sample_family_uvm. apply (uvm_ok_other (L := big_layout) s l T _ _ s2 l2 l); try done.
    + intros x Hx. specialize (Hd x Hx). by apply not_elem_of_cons in Hd as [_ ?].
    + intros x Hx. rewrite <- Hp. apply elem_of_app. by right.
  - right. apply (accessible_sub _ _ _ 0 64); [apply one_page_accessible; [exact Hfl|by left|unfold PGSIZE; lia]|lia..].
  - done.
  - vm_compute. lia.
  - done.
  - intros i Hi. assert (i = 0%nat) as -> by lia. by intros [? _].
  - done.
  - apply (slot_space (L := big_layout) _ l2 (sample_child tf r) T' []); try done.
    destruct Hsp as [U' H1 H2]. split; [by apply sample_family_uvm|done|done].
  - cbn [app]. rewrite Hp. by apply NoDup_cons.
  - intros x Hx Hin. apply (Hd x Hin). cbn [app] in Hx. apply elem_of_cons in Hx as [->|Hx]; [by left|right].
    rewrite <- Hp. apply elem_of_app. by left.
Qed.

Lemma wait_reaps_witness : exists s s' (l l' ps : list Z),
  wait (L := big_layout) 16 s [] = Ok 2 s' [] /\ l' ≡ₚ ps ++ l /\
  ubytes (mem s') [sample_page (-7)] 16 4 = [7; 0; 0; 0].
Proof.
  destruct sample_reapable as (s & tf & r & l & T & ps & R).
  destruct (wait_reaps (L := big_layout) (sample_family s tf r) (sample_family_quiet s tf r)) with (addr := 16) (e := @nil (kstate -> kstate)) as [H _].
  { split_and!; vm_compute; congruence. }
  destruct (H l T _ _ ps R) as (s' & l' & Hr & Hd). exists (sample_family s tf r), s', l, l', ps.
  split; [exact Hr|]. split; [exact (rd_pages _ _ _ _ _ _ _ _ _ _ Hd)|].
  pose proof (rd_status _ _ _ _ _ _ _ _ _ _ Hd) as Hs. unfold ubytes. cbn [seq fmap list_fmap].
  pose proof (Hs 16 ltac:(vm_compute; split; congruence)) as H0. pose proof (Hs 17 ltac:(vm_compute; split; congruence)) as H1.
  pose proof (Hs 18 ltac:(vm_compute; split; congruence)) as H2. pose proof (Hs 19 ltac:(vm_compute; split; congruence)) as H3.
  rewrite decide_True in H0 by lia. rewrite decide_True in H1 by lia. rewrite decide_True in H2 by lia. rewrite decide_True in H3 by lia.
  change (16 + Z.of_nat 0) with 16. change (16 + Z.of_nat 1) with 17. change (16 + Z.of_nat 2) with 18. change (16 + Z.of_nat 3) with 19.
  rewrite H0, H1, H2, H3. reflexivity.
Defined.
