(* ===== verification/Exec.v ===== *)
(** * kernel/exec.c

    [argv] is the list of addresses of the kernel pages that hold the argument
    strings.  The ELF headers are byte lists read at the offsets of
    [struct elfhdr] and [struct proghdr]. *)

From stdpp Require Import base gmap strings numbers list.
From Stdlib Require Import Ascii.
From S2P Require Import Prelude KState Sample StringC Spinlock Sched Sleeplock Uart Printf Pages Kalloc Vm Bio Log Fs Pipe Console File Proc.

Definition ELF_MAGIC : Z := 0x464C457F.
Definition ELF_PROG_LOAD : Z := 1.
Definition ELFHDR_SIZE : Z := 64.
Definition PROGHDR_SIZE : Z := 56.

Definition elf_magic (h : list Z) : Z := get_le h 0 4.
Definition elf_entry (h : list Z) : Z := get_le h 24 8.
Definition elf_phoff (h : list Z) : Z := get_le h 32 8.
Definition elf_phnum (h : list Z) : Z := get_le h 56 2.
Definition ph_type (h : list Z) : Z := get_le h 0 4.
Definition ph_flags (h : list Z) : Z := get_le h 4 4.
Definition ph_off (h : list Z) : Z := get_le h 8 8.
Definition ph_vaddr (h : list Z) : Z := get_le h 16 8.
Definition ph_filesz (h : list Z) : Z := get_le h 32 8.
Definition ph_memsz (h : list Z) : Z := get_le h 40 8.

Definition flags2perm (flags : Z) : Z :=
  let perm := if has flags 1 then PTE_X else 0 in
  if has flags 2 then Z.lor perm PTE_W else perm.

(** The last component of a path. *)
Fixpoint path_last (last s : list Z) : list Z :=
  match s with
  | [] => last
  | c :: s' =>
      if c =? 0 then last
      else path_last (if c =? chr "/" then s' else last) s'
  end.

Section Exec.
Context {L : Layout} {D : DiskDriver}.

(** for(i = 0; i < sz; i += PGSIZE) *)
Fixpoint loadseg_loop (k : nat) (pagetable va : Z) (ip : nat) (offset sz i : Z) : M Z :=
  match k with
  | O => kspin
  | S k' =>
      if negb (i <? sz) then mret 0 else
      pa ← walkaddr pagetable (u64 (va + i));
      if pa =? 0 then kpanic "loadseg: address should exist" else
      let n := if sz - i <? PGSIZE then sz - i else PGSIZE in
      '(r, _) ← readi ip (PhysDst pa) (u32 (offset + i)) n;
      if negb (r =? n) then mret (-1) else
      loadseg_loop k' pagetable va ip offset sz (u32 (i + PGSIZE))
  end.
Definition loadseg (pagetable va : Z) (ip : nat) (offset sz : Z) : M Z :=
  loadseg_loop (Z.to_nat (sz / PGSIZE + 2)) pagetable va ip offset sz 0.

(** The label [bad]. *)
Definition exec_bad (pagetable sz : Z) (ip : option nat) : M Z :=
  when (negb (pagetable =? 0)) (proc_freepagetable pagetable sz);;
  match ip with
  | Some ip => iunlockput ip;; end_op
  | None => mret ()
  end;;
  mret (-1).

(** Load the program headers from [off] on: the size reached, and whether all
    of them were loaded. *)
Fixpoint exec_load (n : nat) (ip : nat) (pagetable off sz : Z) : M (bool * Z) :=
  match n with
  | O => mret (true, sz)
  | S n' =>
      '(r, ph) ← readi ip LocalDst (u32 off) PROGHDR_SIZE;
      if negb (r =? PROGHDR_SIZE) then mret (false, sz) else
      if negb (ph_type ph =? ELF_PROG_LOAD) then
        exec_load n' ip pagetable (i32 (off + PROGHDR_SIZE)) sz
      else
      if ph_memsz ph <? ph_filesz ph then mret (false, sz) else
      if u64 (ph_vaddr ph + ph_memsz ph) <? ph_vaddr ph then mret (false, sz) else
      if negb (ph_vaddr ph mod PGSIZE =? 0) then mret (false, sz) else
      sz1 ← uvmalloc pagetable sz (u64 (ph_vaddr ph + ph_memsz ph)) (flags2perm (ph_flags ph));
      if sz1 =? 0 then mret (false, sz) else
      r ← loadseg pagetable (ph_vaddr ph) ip (u32 (ph_off ph)) (u32 (ph_filesz ph));
      if r <? 0 then mret (false, sz1) else
      exec_load n' ip pagetable (i32 (off + PROGHDR_SIZE)) sz1
  end.

(** Push the argument strings: the stack pointer and [ustack], or [None]. *)
Fixpoint exec_args (argv : list Z) (pagetable sp stackbase : Z) (ustack : list Z) :
    M (option (Z * list Z)) :=
  match argv with
  | [] => mret (Some (sp, ustack))
  | a :: argv' =>
      if (Z.to_nat MAXARG <=? length ustack)%nat then mret None else
      arg ← gets (fun s => ld_bytes (mem s) a (Z.to_nat PGSIZE));
      let sp := u64 (sp - (strlen arg + 1)) in
      let sp := sp - sp mod 16 in
      if sp <? stackbase then mret None else
      r ← copyout pagetable sp arg (strlen arg + 1);
      if r <? 0 then mret None else
      exec_args argv' pagetable sp stackbase (ustack ++ [sp])
  end.

(** From the loaded segments to the new image. *)
Definition exec_stack (p : nat) (path argv : list Z) (entry pagetable sz : Z) : M Z :=
  pr ← procget p;
  let oldsz := p_sz pr in
  let sz := PGROUNDUP sz in
  sz1 ← uvmalloc pagetable sz (u64 (sz + (USERSTACK + 1) * PGSIZE)) PTE_W;
  if sz1 =? 0 then exec_bad pagetable sz None else
  let sz := sz1 in
  uvmclear pagetable (sz - (USERSTACK + 1) * PGSIZE);;
  let stackbase := sz - USERSTACK * PGSIZE in
  args ← exec_args argv pagetable sz stackbase [];
  match args with
  | None => exec_bad pagetable sz None
  | Some (sp, ustack) =>
      let argc := Z.of_nat (length ustack) in
      if MAXARG <=? argc then kpanic "ustack out of bounds" else
      let sp := u64 (sp - (argc + 1) * 8) in
      let sp := sp - sp mod 16 in
      if sp <? stackbase then exec_bad pagetable sz None else
      r ← copyout pagetable sp (mjoin (le_bytes 8 <$> (ustack ++ [0]))) ((argc + 1) * 8);
      if r <? 0 then exec_bad pagetable sz None else
      tf_set p (TF_a 1) sp;;
      procset p (fun x => set_p_name (safestrcpy (p_name x) (path_last path path) 16) x);;
      pr ← procget p;
      let oldpagetable := p_pagetable pr in
      procset p (set_p_pagetable pagetable);;
      procset p (set_p_sz sz);;
      tf_set p TF_epc entry;;
      tf_set p TF_sp sp;;
      proc_freepagetable oldpagetable oldsz;;
      mret argc
  end.

Definition exec (path argv : list Z) : M Z :=
  me ← myproc;
  p ← deref me;
  begin_op;;
  found ← namei path;
  match found with
  | None => end_op;; mret (-1)
  | Some ip =>
      ilock (Some ip);;
      '(r, elf) ← readi ip LocalDst 0 ELFHDR_SIZE;
      if negb (r =? ELFHDR_SIZE) then exec_bad 0 0 (Some ip) else
      if negb (elf_magic elf =? ELF_MAGIC) then exec_bad 0 0 (Some ip) else
      pagetable ← proc_pagetable p;
      if pagetable =? 0 then exec_bad 0 0 (Some ip) else
      '(ok, sz) ← exec_load (Z.to_nat (elf_phnum elf)) ip pagetable (i32 (elf_phoff elf)) 0;
      if negb ok then exec_bad pagetable sz (Some ip) else
      iunlockput ip;;
      end_op;;
      me ← myproc;
      p ← deref me;
      exec_stack p path argv (elf_entry elf) pagetable sz
  end.

End Exec.
