(* ===== verification/Virtio.v ===== *)
(** * kernel/virtio_disk.c and kernel/plic.c

    The driver of the virtio disk.  Its queue pages are the fields of [vdsk],
    with descriptor addresses given by what they point to.  A store to a device
    register is recorded in [mmio]; what a load gives is the device's business,
    [mmio_read], which sees the stores made so far. *)

From stdpp Require Import base gmap strings numbers list.
From S2P Require Import Prelude KState Sample StringC Spinlock Sched Sleeplock Uart Printf Kalloc Vm.

Class Mmio : Type := { mmio_read : list (Z * Z) -> Z -> Z }.

Definition NUM : Z := 8.
Definition VRING_DESC_F_NEXT : Z := 1.
Definition VRING_DESC_F_WRITE : Z := 2.
Definition VIRTIO_BLK_T_IN : Z := 0.
Definition VIRTIO_BLK_T_OUT : Z := 1.
Definition VIRTIO_MMIO_MAGIC_VALUE : Z := 0x000.
Definition VIRTIO_MMIO_VERSION : Z := 0x004.
Definition VIRTIO_MMIO_DEVICE_ID : Z := 0x008.
Definition VIRTIO_MMIO_VENDOR_ID : Z := 0x00c.
Definition VIRTIO_MMIO_DEVICE_FEATURES : Z := 0x010.
Definition VIRTIO_MMIO_DRIVER_FEATURES : Z := 0x020.
Definition VIRTIO_MMIO_QUEUE_SEL : Z := 0x030.
Definition VIRTIO_MMIO_QUEUE_NUM_MAX : Z := 0x034.
Definition VIRTIO_MMIO_QUEUE_NUM : Z := 0x038.
Definition VIRTIO_MMIO_QUEUE_READY : Z := 0x044.
Definition VIRTIO_MMIO_QUEUE_NOTIFY : Z := 0x050.
Definition VIRTIO_MMIO_INTERRUPT_STATUS : Z := 0x060.
Definition VIRTIO_MMIO_INTERRUPT_ACK : Z := 0x064.
Definition VIRTIO_MMIO_STATUS : Z := 0x070.
Definition VIRTIO_MMIO_QUEUE_DESC_LOW : Z := 0x080.
Definition VIRTIO_MMIO_QUEUE_DESC_HIGH : Z := 0x084.
Definition VIRTIO_MMIO_DRIVER_DESC_LOW : Z := 0x090.
Definition VIRTIO_MMIO_DRIVER_DESC_HIGH : Z := 0x094.
Definition VIRTIO_MMIO_DEVICE_DESC_LOW : Z := 0x0a0.
Definition VIRTIO_MMIO_DEVICE_DESC_HIGH : Z := 0x0a4.
Definition VIRTIO_CONFIG_S_ACKNOWLEDGE : Z := 1.
Definition VIRTIO_CONFIG_S_DRIVER : Z := 2.
Definition VIRTIO_CONFIG_S_DRIVER_OK : Z := 4.
Definition VIRTIO_CONFIG_S_FEATURES_OK : Z := 8.
(** VIRTIO_BLK_F_RO, _SCSI, _CONFIG_WCE, _MQ, VIRTIO_F_ANY_LAYOUT,
    VIRTIO_RING_F_EVENT_IDX and _INDIRECT_DESC, in the order they are cleared *)
Definition declined_features : list Z := [5; 7; 11; 12; 27; 29; 28].

Definition upd_vdsk (f : vdisk -> vdisk) (s : kstate) : kstate := set_vdsk (f (vdsk s)) s.
Definition get_desc (v : vdisk) (i : Z) : vdesc := default zero_vdesc (v_desc v !! Z.to_nat i).
Definition upd_desc (i : Z) (f : vdesc -> vdesc) : M unit :=
  modify (upd_vdsk (fun v => set_v_desc (alter f (Z.to_nat i) (v_desc v)) v)).
Definition upd_info (i : Z) (f : vinfo -> vinfo) : M unit :=
  modify (upd_vdsk (fun v => set_v_info (alter f (Z.to_nat i) (v_info v)) v)).
Definition upd_op (i : Z) (f : vreq -> vreq) : M unit :=
  modify (upd_vdsk (fun v => set_v_ops (alter f (Z.to_nat i) (v_ops v)) v)).
Definition set_free (i : Z) (b : bool) : M unit :=
  modify (upd_vdsk (fun v => set_v_free (<[Z.to_nat i := b]> (v_free v)) v)).

Section Virtio.
Context {IO : Mmio}.

Definition rd_reg (a : Z) : M Z := gets (fun s => u32 (mmio_read (mmio s) a)).
Definition wr_reg (a v : Z) : M unit := modify (fun s => set_mmio (mmio s ++ [(a, u32 v)]) s).
(** [*R(r)] *)
Definition R_read (r : Z) : M Z := rd_reg (VIRTIO0 + r).
Definition R_write (r v : Z) : M unit := wr_reg (VIRTIO0 + r) v.

Definition virtio_disk_init : M unit :=
  initlock Lvdisk "virtio_disk";;
  magic ← R_read VIRTIO_MMIO_MAGIC_VALUE;
  version ← R_read VIRTIO_MMIO_VERSION;
  id ← R_read VIRTIO_MMIO_DEVICE_ID;
  vendor ← R_read VIRTIO_MMIO_VENDOR_ID;
  if negb (magic =? 0x74726976) || negb (version =? 2) || negb (id =? 2)
     || negb (vendor =? 0x554d4551) then kpanic "could not find virtio disk" else
  R_write VIRTIO_MMIO_STATUS 0;;
  let status := VIRTIO_CONFIG_S_ACKNOWLEDGE in
  R_write VIRTIO_MMIO_STATUS status;;
  let status := Z.lor status VIRTIO_CONFIG_S_DRIVER in
  R_write VIRTIO_MMIO_STATUS status;;
  features ← R_read VIRTIO_MMIO_DEVICE_FEATURES;
  let features := fold_left (fun f bit => Z.land f (u64 (Z.lnot (Z.shiftl 1 bit))))
    declined_features features in
  R_write VIRTIO_MMIO_DRIVER_FEATURES features;;
  let status := Z.lor status VIRTIO_CONFIG_S_FEATURES_OK in
  R_write VIRTIO_MMIO_STATUS status;;
  status ← R_read VIRTIO_MMIO_STATUS;
  if negb (has status VIRTIO_CONFIG_S_FEATURES_OK) then kpanic "virtio disk FEATURES_OK unset" else
  R_write VIRTIO_MMIO_QUEUE_SEL 0;;
  ready ← R_read VIRTIO_MMIO_QUEUE_READY;
  if negb (ready =? 0) then kpanic "virtio disk should not be ready" else
  max ← R_read VIRTIO_MMIO_QUEUE_NUM_MAX;
  if max =? 0 then kpanic "virtio disk has no queue 0" else
  if max <? NUM then kpanic "virtio disk max queue too short" else
  desc ← kalloc;
  avail ← kalloc;
  used ← kalloc;
  modify (upd_vdsk (set_v_pages (desc, avail, used)));;
  if (desc =? 0) || (avail =? 0) || (used =? 0) then kpanic "virtio disk kalloc" else
  kmemset desc 0 PGSIZE;;
  kmemset avail 0 PGSIZE;;
  kmemset used 0 PGSIZE;;
  modify (upd_vdsk (fun v =>
    set_v_desc (replicate (Z.to_nat NUM) zero_vdesc)
      (set_v_avail_idx 0 (set_v_avail_ring (replicate (Z.to_nat NUM) 0)
        (set_v_used 0 (set_v_used_ring (replicate (Z.to_nat NUM) 0) v))))));;
  R_write VIRTIO_MMIO_QUEUE_NUM NUM;;
  R_write VIRTIO_MMIO_QUEUE_DESC_LOW desc;;
  R_write VIRTIO_MMIO_QUEUE_DESC_HIGH (Z.shiftr desc 32);;
  R_write VIRTIO_MMIO_DRIVER_DESC_LOW avail;;
  R_write VIRTIO_MMIO_DRIVER_DESC_HIGH (Z.shiftr avail 32);;
  R_write VIRTIO_MMIO_DEVICE_DESC_LOW used;;
  R_write VIRTIO_MMIO_DEVICE_DESC_HIGH (Z.shiftr used 32);;
  R_write VIRTIO_MMIO_QUEUE_READY 1;;
  for_each (seqZ 0 NUM) (fun i => set_free i true);;
  R_write VIRTIO_MMIO_STATUS (Z.lor status VIRTIO_CONFIG_S_DRIVER_OK).

(** The index of the first free descriptor. *)
Fixpoint first_free (l : list bool) (i : Z) : Z :=
  match l with
  | [] => -1
  | b :: l' => if b : bool then i else first_free l' (i + 1)
  end.

Definition alloc_desc : M Z :=
  fr ← gets (fun s => v_free (vdsk s));
  let i := first_free fr 0 in
  if i =? -1 then mret (-1) else
  set_free i false;;
  mret i.

Definition free_desc (i : Z) : M unit :=
  if NUM <=? i then kpanic "free_desc 1" else
  fr ← gets (fun s => default false (v_free (vdsk s) !! Z.to_nat i));
  if fr : bool then kpanic "free_desc 2" else
  upd_desc i (set_vd_addr A_null);;
  upd_desc i (set_vd_len 0);;
  upd_desc i (set_vd_flags 0);;
  upd_desc i (set_vd_next 0);;
  set_free i true;;
  wakeup Ch_disk_free.

(** while(1): a round frees a descriptor that was not free. *)
Fixpoint free_chain_loop (k : nat) (i : Z) : M unit :=
  match k with
  | O => kspin
  | S k' =>
      d ← gets (fun s => get_desc (vdsk s) i);
      let flag := vd_flags d in
      let nxt := vd_next d in
      free_desc i;;
      if has flag VRING_DESC_F_NEXT then free_chain_loop k' nxt else mret ()
  end.
Definition free_chain (i : Z) : M unit := free_chain_loop (S (Z.to_nat NUM)) i.

(** for(int i = 0; i < 3; i++), giving back what was taken on failure. *)
Fixpoint alloc3_loop (k : nat) (idx : list Z) : M (option (list Z)) :=
  match k with
  | O => mret (Some idx)
  | S k' =>
      i ← alloc_desc;
      if i <? 0 then for_each idx free_desc;; mret None
      else alloc3_loop k' (idx ++ [i])
  end.
Definition alloc3_desc : M (option (list Z)) := alloc3_loop 3 [].

(** while(1) around [alloc3_desc]: every round but the last sleeps. *)
Fixpoint alloc3_wait (k : nat) : M (list Z) :=
  match k with
  | O => kspin
  | S k' =>
      r ← alloc3_desc;
      match r with
      | Some idx => mret idx
      | None =>
          sleep Ch_disk_free Lvdisk;;
          alloc3_wait k'
      end
  end.

Definition virtio_disk_rw (b : nat) (write : bool) : M unit :=
  x ← gets (fun s => get_buf s b);
  let sector := u32 (b_blockno x * (BSIZE / 512)) in
  acquire Lvdisk;;
  idx ← ((fun s e => alloc3_wait (S (length e)) s e) : M (list Z));
  let i0 := nth 0 idx 0 in
  let i1 := nth 1 idx 0 in
  let i2 := nth 2 idx 0 in
  upd_op i0 (set_req_type (if write then VIRTIO_BLK_T_OUT else VIRTIO_BLK_T_IN));;
  upd_op i0 (set_req_reserved 0);;
  upd_op i0 (set_req_sector sector);;
  upd_desc i0 (set_vd_addr (A_op (Z.to_nat i0)));;
  upd_desc i0 (set_vd_len 16);;
  upd_desc i0 (set_vd_flags VRING_DESC_F_NEXT);;
  upd_desc i0 (set_vd_next i1);;
  upd_desc i1 (set_vd_addr (A_data b));;
  upd_desc i1 (set_vd_len BSIZE);;
  upd_desc i1 (set_vd_flags (if write then 0 else VRING_DESC_F_WRITE));;
  upd_desc i1 (fun d => set_vd_flags (Z.lor (vd_flags d) VRING_DESC_F_NEXT) d);;
  upd_desc i1 (set_vd_next i2);;
  upd_info i0 (set_info_status 0xff);;
  upd_desc i2 (set_vd_addr (A_status (Z.to_nat i0)));;
  upd_desc i2 (set_vd_len 1);;
  upd_desc i2 (set_vd_flags VRING_DESC_F_WRITE);;
  upd_desc i2 (set_vd_next 0);;
  modify (upd_buf b (set_b_disk true));;
  upd_info i0 (set_info_b (Some b));;
  modify (upd_vdsk (fun v =>
    set_v_avail_ring (<[Z.to_nat (v_avail_idx v mod NUM) := i0]> (v_avail_ring v)) v));;
  modify (upd_vdsk (fun v => set_v_avail_idx (u16 (v_avail_idx v + 1)) v));;
  R_write VIRTIO_MMIO_QUEUE_NOTIFY 0;;
  while_wait (gets (fun s => b_disk (get_buf s b))) (sleep (Ch_buf b) Lvdisk);;
  upd_info i0 (set_info_b None);;
  free_chain i0;;
  release Lvdisk.

(** while(disk.used_idx != disk.used->idx): one round per completed request. *)
Fixpoint intr_loop (k : nat) : M unit :=
  match k with
  | O => kspin
  | S k' =>
      v ← gets vdsk;
      if v_used_idx v =? v_used v then mret () else
      let id := nth (Z.to_nat (v_used_idx v mod NUM)) (v_used_ring v) 0 in
      let info := default zero_vinfo (v_info v !! Z.to_nat id) in
      if negb (info_status info =? 0) then kpanic "virtio_disk_intr status" else
      b ← deref (info_b info);
      modify (upd_buf b (set_b_disk false));;
      wakeup (Ch_buf b);;
      modify (upd_vdsk (fun v => set_v_used_idx (u16 (v_used_idx v + 1)) v));;
      intr_loop k'
  end.

Definition virtio_disk_intr : M unit :=
  acquire Lvdisk;;
  st ← R_read VIRTIO_MMIO_INTERRUPT_STATUS;
  R_write VIRTIO_MMIO_INTERRUPT_ACK (Z.land st 0x3);;
  v ← gets vdsk;
  intr_loop (S (Z.to_nat (u16 (v_used v - v_used_idx v))));;
  release Lvdisk.

(** ** The interrupt controller *)

Definition PLIC_SENABLE (hart : Z) : Z := PLIC + 0x2080 + hart * 0x100.
Definition PLIC_SPRIORITY (hart : Z) : Z := PLIC + 0x201000 + hart * 0x2000.
Definition PLIC_SCLAIM (hart : Z) : Z := PLIC + 0x201004 + hart * 0x2000.

Definition plicinit : M unit :=
  wr_reg (PLIC + UART0_IRQ * 4) 1;;
  wr_reg (PLIC + VIRTIO0_IRQ * 4) 1.

Definition plicinithart : M unit :=
  h ← cpuid;
  wr_reg (PLIC_SENABLE (Z.of_nat h)) (Z.lor (Z.shiftl 1 UART0_IRQ) (Z.shiftl 1 VIRTIO0_IRQ));;
  wr_reg (PLIC_SPRIORITY (Z.of_nat h)) 0.

Definition plic_claim : M Z :=
  h ← cpuid;
  irq ← rd_reg (PLIC_SCLAIM (Z.of_nat h));
  mret (i32 irq).

Definition plic_complete (irq : Z) : M unit :=
  h ← cpuid;
  wr_reg (PLIC_SCLAIM (Z.of_nat h)) irq.

End Virtio.
