(* ===== verification/VirtioDisk.v ===== *)
(** * The virtio disk driver as the disk of the buffer cache

    The cache is verified against the interface [DiskLaws]; this file discharges it
    for [virtio_disk_rw].  The request sleeps; while it does, the scheduler has the
    hart, the device serves the request and raises its interrupt, and
    [virtio_disk_intr] wakes the process.  What the device does is a parameter with
    the virtio specification's account of one request as its law. *)

From stdpp Require Import base gmap strings numbers list.
From S2P Require Import Prelude KState Sample StringC Spinlock Sched Sleeplock Quiet Switch Uart Printf Kalloc Vm Bio BufCache BufRefine Log LogDisk BufWp LogRun LogSafe LogOps Transaction Virtio.

(** ** The device *)

(** The queue holds one request that has not been served: descriptors [i0], [i1]
    and [i2] are the chain of a block request for [sector] and the data of buffer [b]. *)
Record posted (v : vdisk) (i0 i1 i2 : nat) (b : nat) (w : bool) (sector : Z) : Prop := mkposted {
  po_idx : v_avail_idx v = u16 (v_used v + 1);
  po_head : v_avail_ring v !! Z.to_nat (v_used v mod NUM) = Some (Z.of_nat i0);
  po_op : v_ops v !! i0 = Some (mkvreq (if w then VIRTIO_BLK_T_OUT else VIRTIO_BLK_T_IN) 0 sector);
  po_d0 : v_desc v !! i0 = Some (mkvdesc (A_op i0) 16 VRING_DESC_F_NEXT (Z.of_nat i1));
  po_d1 : v_desc v !! i1 = Some (mkvdesc (A_data b) BSIZE
    (Z.lor (if w then 0 else VRING_DESC_F_WRITE) VRING_DESC_F_NEXT) (Z.of_nat i2));
  po_d2 : v_desc v !! i2 = Some (mkvdesc (A_status i0) 1 VRING_DESC_F_WRITE 0)
}.

(** The request's status byte is set and its head put on the used ring. *)
Definition used_up (i0 : nat) (v : vdisk) : vdisk :=
  set_v_used (u16 (v_used v + 1))
    (set_v_used_ring (<[Z.to_nat (v_used v mod NUM) := Z.of_nat i0]> (v_used_ring v))
      (set_v_info (alter (set_info_status 0) i0 (v_info v)) v)).

(** The state after the request has been served: the data has been written to the
    two sectors of the block, or read from them. *)
Definition served (i0 b : nat) (w : bool) (sector : Z) (s : kstate) : kstate :=
  set_vdsk (used_up i0 (vdsk s))
    (if w then set_disk (dwrite (sector / 2) (b_data (get_buf s b)) (disk s)) s
     else upd_buf b (set_b_data (dblock (disk s) (sector / 2))) s).

Class VirtioDevice : Type := {
  serve : kstate -> kstate;
  serve_request s i0 i1 i2 b w sector :
    posted (vdsk s) i0 i1 i2 b w sector -> is_Some (bufs s !! b) -> serve s = served i0 b w sector s
}.

Section Driver.
Context {IO : Mmio} {V : VirtioDevice}.

(** The device serves the request and interrupts the idle hart. *)
Definition disk_irq : M unit :=
  modify serve;;
  intr_off;;
  virtio_disk_intr;;
  intr_on.

#[local] Instance virtio_driver : DiskDriver :=
  {| disk_rw b w := fun s e => virtio_disk_rw b w s (swtch_away disk_irq :: e) |}.

(** No request is outstanding and every descriptor is free. *)
Record virtio_ok (v : vdisk) : Prop := mkvirtio_ok {
  vo_free : v_free v = replicate 8 true;
  vo_desc : length (v_desc v) = 8%nat;
  vo_info : length (v_info v) = 8%nat;
  vo_ops : length (v_ops v) = 8%nat;
  vo_avail : length (v_avail_ring v) = 8%nat;
  vo_ring : length (v_used_ring v) = 8%nat;
  vo_used : 0 <= v_used v < 2 ^ 16;
  vo_seen : v_used_idx v = v_used v;
  vo_idx : v_avail_idx v = v_used v
}.

(** ** The run of a request *)

Section Run.
Context (s : kstate) (Q : quiet s).
Notation y := (syn s).
Notation p := (cur s).

(** The states of the run: [s] with other values in the fields that it changes. *)
Definition st (y : sync) (ps : list proc) (v : vdisk) (bf : list buf) (d : diskst) (m : list (Z * Z)) : kstate :=
  set_syn y (set_procs ps (set_vdsk v (set_bufs bf (set_disk d (set_mmio m s))))).

(** The request as [virtio_disk_rw] sets it up in descriptors 0, 1 and 2. *)
Definition request (b : nat) (w : bool) (sector : Z) (v : vdisk) : vdisk :=
  let i := Z.to_nat (v_avail_idx v mod NUM) in
  mkvdisk (v_pages v)
    (<[0%nat := mkvdesc (A_op 0) 16 VRING_DESC_F_NEXT 1]>
      (<[1%nat := mkvdesc (A_data b) BSIZE (Z.lor (if w then 0 else VRING_DESC_F_WRITE) VRING_DESC_F_NEXT) 2]>
        (<[2%nat := mkvdesc (A_status 0) 1 VRING_DESC_F_WRITE 0]> (v_desc v))))
    (u16 (v_avail_idx v + 1)) (<[i := 0]> (v_avail_ring v)) (v_used v) (v_used_ring v)
    (false :: false :: false :: replicate 5 true) (v_used_idx v)
    (<[0%nat := mkvinfo (Some b) 0xff]> (v_info v))
    (<[0%nat := mkvreq (if w then VIRTIO_BLK_T_OUT else VIRTIO_BLK_T_IN) 0 sector]> (v_ops v)).

Lemma request_posted b w sector v : virtio_ok v -> posted (request b w sector v) 0 1 2 b w sector.
Proof.
  intros [Hf Hd Hi Ho Ha Hr Hu Hs Hx]. unfold request. split; cbn [v_avail_idx v_used v_avail_ring v_ops v_desc].
  - by rewrite Hx.
  - rewrite Hx. pose proof (Z.mod_pos_bound (v_used v) NUM ltac:(done)). change NUM with 8 in *. apply list_lookup_insert_eq. lia.
  - apply list_lookup_insert_eq. lia.
  - apply list_lookup_insert_eq. rewrite !length_insert. lia.
  - rewrite list_lookup_insert_ne by done. apply list_lookup_insert_eq. rewrite !length_insert. lia.
  - rewrite !list_lookup_insert_ne by done. apply list_lookup_insert_eq. lia.
Qed.

Lemma alloc3_free n s1 e : v_free (vdsk s1) = replicate 8 true ->
  alloc3_wait (S n) s1 e = Ok [0; 1; 2] (upd_vdsk (set_v_free (false :: false :: false :: replicate 5 true)) s1) e.
Proof.
  intros Hf. cbn [alloc3_wait]. cbv [alloc3_desc alloc3_loop alloc_desc set_free gets modify upd_vdsk mbind KM_bind mret KM_ret].
  rewrite Hf. cbn. rewrite Hf. cbn. apply Ok_eq; [done|]. kext.
Qed.

Lemma list8 {A} (l : list A) : length l = 8%nat -> exists a0 a1 a2 a3 a4 a5 a6 a7, l = [a0; a1; a2; a3; a4; a5; a6; a7].
Proof. intros H. do 8 (destruct l as [|? l]; [done|]). destruct l; [|done]. by repeat eexists. Qed.

(** The part of [virtio_disk_rw] after the notification. *)
Definition rw_finish (b : nat) : M unit :=
  while_wait (gets (fun s => b_disk (get_buf s b))) (sleep (Ch_buf b) Lvdisk);;
  upd_info 0 (set_info_b None);;
  free_chain 0;;
  release Lvdisk.

Definition notified : list (Z * Z) := mmio s ++ [(VIRTIO0 + VIRTIO_MMIO_QUEUE_NOTIFY, 0)].

Lemma rw_posts b w e x : virtio_ok (vdsk s) -> bufs s !! b = Some x ->
  virtio_disk_rw b w s e = rw_finish b (st (acq y Lvdisk) (procs s) (request b w (u32 (b_blockno x * 2)) (vdsk s))
    (alter (set_b_disk true) b (bufs s)) (disk s) notified) e.
Proof using Q.
  intros [Hf Hd Hi Ho Ha Hr Hu Hsn Hx] Hb. unfold virtio_disk_rw. kpure. assert (Hg : get_buf s b = x) by (unfold get_buf; by rewrite Hb). rewrite Hg.
  kstep ltac:(apply quiet_acquire; [exact Q|in_static]). erewrite bind_ok by (by apply alloc3_free).
  cbv zeta. cbn [nth]. unfold upd_op, upd_desc, upd_info, R_write, wr_reg. kpure. unfold rw_finish, upd_info. f_equal.
  unfold st, notified, request. kext.
  destruct (list8 _ Hd) as (d0 & d1 & d2 & d3 & d4 & d5 & d6 & d7 & Ed). destruct (list8 _ Ho) as (o0 & o1 & o2 & o3 & o4 & o5 & o6 & o7 & Eo).
  destruct (list8 _ Hi) as (n0 & n1 & n2 & n3 & n4 & n5 & n6 & n7 & En). by rewrite Ed, Eo, En.
Qed.

(** ** The interrupt, on the idle hart *)

Lemma irq_sync c : cpus y !! hart y = Some c -> c_noff c = 0 ->
  set_intr true (touch (set_intr false (idle y))) = with_intena false (idle y).
Proof.
  intros Hc Hn. unfold touch, with_intena, idle, set_intr, set_cpus. cbn. apply sync_eq; try done.
  rewrite !list_alter_alter_eq, !(list_alter_known _ _ _ _ Hc). f_equal. destruct c; cbn in *; by subst.
Qed.

Lemma u16_succ u : 0 <= u < 2 ^ 16 -> (u =? u16 (u + 1)) = false /\ u16 (u16 (u + 1) - u) = 1.
Proof.
  intros Hu. unfold u16. destruct (Z.eq_dec u (2 ^ 16 - 1)) as [->|Hne]; [done|].
  rewrite (Z.mod_small (u + 1)) by lia. split; [lia|]. replace (u + 1 - u) with 1 by lia. done.
Qed.

(** The queue after the driver has seen the completion. *)
Definition seen (v : vdisk) : vdisk := set_v_used_idx (u16 (v_used_idx v + 1)) (used_up 0 v).

(** The buffers and the disk after the transfer. *)
Definition moved (b : nat) (w : bool) (sector : Z) (bf : list buf) (d : diskst) : list buf * diskst :=
  if w then (bf, dwrite (sector / 2) (b_data (default zero_buf (bf !! b))) d)
  else (alter (set_b_data (dblock d (sector / 2))) b bf, d).

Lemma intr_loop_run y2 b w sector v ps bf d m :
  virtio_ok v -> length ps = length (procs s) -> cpu_wf y2 -> (forall l, lfree y l -> lfree y2 l) -> c_proc (cpu_of y2) = None ->
  let v1 := used_up 0 (request b w sector v) in
  intr_loop 2 (st (acq y2 Lvdisk) ps v1 bf d m) [] =
    Ok () (st (acq y2 Lvdisk) (wake_procs (Ch_buf b) None ps) (seen (request b w sector v)) (alter (set_b_disk false) b bf) d m) [].
Proof using Q.
  intros [Hf Hd Hi Ho Ha Hr Hu Hsn Hx] Hlen Hwf Hfr Hnone v1. destruct (u16_succ _ Hu) as [Hne _]. destruct (quiet_procs s Q) as [Hps Hpl].
  assert (Hi1 : (Z.to_nat (v_used v mod NUM) < 8)%nat) by (pose proof (Z.mod_pos_bound (v_used v) NUM ltac:(done)); change NUM with 8 in *; lia).
  cbn [intr_loop]. kpure. change (vdsk (st _ _ v1 _ _ _)) with v1.
  assert (Hu1 : v_used_idx v1 = v_used v /\ v_used v1 = u16 (v_used v + 1)) by (split; [exact Hsn|reflexivity]). destruct Hu1 as [-> ->].
  rewrite Hne. assert (Hid : nth (Z.to_nat (v_used v mod NUM)) (v_used_ring v1) 0 = 0).
  { apply nth_lookup_Some. cbn. apply list_lookup_insert_eq. lia. }
  rewrite Hid. destruct (list8 _ Hi) as (n0 & n1 & n2 & n3 & n4 & n5 & n6 & n7 & En).
  assert (Hinfo : default zero_vinfo (v_info v1 !! Z.to_nat 0) = mkvinfo (Some b) 0) by (cbn; by rewrite En).
  rewrite Hinfo. cbn [info_status info_b Z.eqb negb deref]. kpure.
  set (s1 := upd_buf b _ _). erewrite (bind_ok (wakeup _)); [|apply wakeup_run].
  2: { split_and!; [by apply cpu_wf_acq|by cbn; rewrite Hlen|]. intros i Hi' _. apply lfree_acq; [done|]. by apply Hfr, Hpl. }
  kpure. cbn [syn s1 upd_buf set_bufs st set_syn]. rewrite cproc_acq, Hnone, touch_acq by done.
  set (s2 := upd_vdsk _ _). assert (E : s2 = st (acq y2 Lvdisk) (wake_procs (Ch_buf b) None ps) (seen (request b w sector v)) (alter (set_b_disk false) b bf) d m) by (by kext).
  rewrite E. cbn [intr_loop]. kpure. change (vdsk (st _ _ ?v _ _ _)) with v.
  assert (Hz : (v_used_idx (seen (request b w sector v)) =? v_used (seen (request b w sector v))) = true) by (cbn; rewrite Hsn; apply Z.eqb_refl).
  by rewrite Hz.
Qed.

Lemma disk_irq_run b w sector v ps bf d m :
  virtio_ok v -> is_Some (bf !! b) -> length ps = length (procs s) ->
  exists m', disk_irq (st (idle y) ps (request b w sector v) bf d m) [] =
    Ok () (st (with_intena false (idle y)) (wake_procs (Ch_buf b) None ps) (seen (request b w sector v))
      (alter (set_b_disk false) b (moved b w sector bf d).1) (moved b w sector bf d).2 m') [].
Proof using Q.
  intros Hv Hb Hlen. destruct (quiet_cpu s Q) as (c & Hc & Hn & Hp). pose proof (request_posted b w sector v Hv) as Hpo.
  destruct Hv as [Hf Hd Hi Ho Ha Hr Hu Hsn Hx]. destruct (u16_succ _ Hu) as [Hne Hone].
  unfold disk_irq. kpure. rewrite (serve_request _ 0 1 2 b w sector) by done. unfold intr_off. kpure.
  set (v1 := used_up 0 (request b w sector v)).
  assert (E : set_syn (set_intr false (idle y)) (served 0 b w sector (st (idle y) ps (request b w sector v) bf d m)) =
    st (set_intr false (idle y)) ps v1 (moved b w sector bf d).1 (moved b w sector bf d).2 m).
  { unfold served, moved, st. destruct w; by kext. }
  assert (Es : syn (served 0 b w sector (st (idle y) ps (request b w sector v) bf d m)) = idle y) by (by destruct w).
  rewrite Es, E. clear E Es. set (y2 := set_intr false (idle y)). set (bd := moved b w sector bf d).
  assert (Hwf : cpu_wf y2).
  { destruct (idle_wf y c Hc Hn) as (c' & Hc' & Hn' & _). exists c'. done. }
  assert (Hlv : lfree y2 Lvdisk) by (apply lfree_idle, quiet_lfree; [exact Q|in_static]).
  unfold virtio_disk_intr, R_read, R_write, rd_reg, wr_reg. rewrite bind_assoc. kstep ltac:(apply acquire_free; [exact Hwf|exact Hlv]). kpure.
  set (m1 := _ ++ [_]). eexists.
  assert (E1 : set_mmio m1 (set_syn (acq y2 Lvdisk) (st y2 ps v1 bd.1 bd.2 m)) = st (acq y2 Lvdisk) ps v1 bd.1 bd.2 m1) by done.
  cbn [syn st set_syn] in *. rewrite E1. clear E1.
  replace (v_used (vdsk (st (acq y2 Lvdisk) ps v1 bd.1 bd.2 m1)) - v_used_idx (vdsk (st (acq y2 Lvdisk) ps v1 bd.1 bd.2 m1)))
    with (u16 (v_used v + 1) - v_used v) by (cbn; by rewrite Hsn).
  rewrite Hone. change (S (Z.to_nat 1)) with 2%nat.
  erewrite bind_ok; [|apply intr_loop_run; [by split|done|done|done|apply cproc_idle]].
  erewrite bind_ok; [|apply (release_acq _ _ y2); [done|done|reflexivity]].
  unfold intr_on, modify. apply Ok_eq; [done|]. unfold st. kext. apply (irq_sync c); done.
Qed.

(** ** Freeing the chain *)

Definition freed_desc (i : nat) (v : vdisk) : vdisk :=
  set_v_free (<[i := true]> (v_free v)) (set_v_desc (<[i := mkvdesc A_null 0 0 0]> (v_desc v)) v).

Lemma free_desc_run i ps v bf d m e :
  (i < 8)%nat -> length (v_desc v) = 8%nat -> v_free v !! i = Some false -> length ps = length (procs s) ->
  free_desc (Z.of_nat i) (st (acq y Lvdisk) ps v bf d m) e =
    Ok () (st (acq y Lvdisk) (wake_procs Ch_disk_free (Some p) ps) (freed_desc i v) bf d m) e.
Proof using Q.
  intros Hi Hd Hf Hlen. unfold free_desc. rewrite (proj2 (Z.leb_gt _ _)) by (change NUM with 8; lia). kpure.
  change (vdsk (st _ _ v _ _ _)) with v. rewrite Nat2Z.id, Hf. cbn [default id]. unfold upd_desc, set_free. rewrite ?Nat2Z.id. kpure.
  match goal with |- wakeup _ ?x _ = _ => set (s1 := x) end. assert (E : s1 = st (acq y Lvdisk) ps (freed_desc i v) bf d m).
  { unfold s1, st, freed_desc, upd_vdsk. kext. destruct (lookup_lt_is_Some_2 (v_desc v) i) as [x Hx]; [lia|].
    rewrite !list_alter_alter_eq, (list_alter_known _ _ _ _ Hx). by destruct v. }
  rewrite E. rewrite (quiet_wakeup s _ _ Lvdisk) by (done || in_static). done.
Qed.

Lemma free_chain_run ps v bf d m e d0 d1 d2 dr :
  v_desc v = d0 :: d1 :: d2 :: dr -> length dr = 5%nat -> v_free v = false :: false :: false :: replicate 5 true ->
  vd_next d0 = 1 -> vd_next d1 = 2 -> has (vd_flags d0) VRING_DESC_F_NEXT = true -> has (vd_flags d1) VRING_DESC_F_NEXT = true ->
  has (vd_flags d2) VRING_DESC_F_NEXT = false -> length ps = length (procs s) ->
  exists ps', free_chain 0 (st (acq y Lvdisk) ps v bf d m) e =
      Ok () (st (acq y Lvdisk) ps' (freed_desc 2 (freed_desc 1 (freed_desc 0 v))) bf d m) e /\
    pcore <$> ps' = pcore <$> ps.
Proof using Q.
  intros Hd Hdr Hf Hn0 Hn1 Hf0 Hf1 Hf2 Hlen. eexists. split.
  - unfold free_chain. change (S (Z.to_nat NUM)) with 9%nat. cbn [free_chain_loop]. kpure.
    unfold get_desc. change (vdsk (st _ _ ?w _ _ _)) with w. rewrite Hd. change (Z.to_nat 0) with 0%nat. cbn [lookup list_lookup default from_option id].
    rewrite Hf0, Hn0. erewrite bind_ok; [|apply (free_desc_run 0); [lia|rewrite Hd; cbn; lia|by rewrite Hf|done]].
    kpure. change (vdsk (st _ _ ?w _ _ _)) with w. cbn [freed_desc v_desc set_v_free set_v_desc]. rewrite Hd.
    change (Z.to_nat 1) with 1%nat. cbn [insert list_insert lookup list_lookup default from_option id].
    rewrite Hf1, Hn1. erewrite bind_ok; [|apply (free_desc_run 1); [lia|cbn; rewrite Hd; cbn; lia|cbn; by rewrite Hf|by rewrite length_wake_procs]].
    kpure. change (vdsk (st _ _ ?w _ _ _)) with w. cbn [freed_desc v_desc set_v_free set_v_desc]. rewrite Hd.
    change (Z.to_nat 2) with 2%nat. cbn [insert list_insert lookup list_lookup default from_option id].
    rewrite Hf2. erewrite bind_ok; [|apply (free_desc_run 2); [lia|cbn; rewrite Hd; cbn; lia|cbn; by rewrite Hf|by rewrite !length_wake_procs]].
    reflexivity.
  - by rewrite !pcore_wake_procs.
Qed.

(** ** The whole request *)

(** The process is awake when the interrupt has run. *)
Lemma woken ch : p_state (default zero_proc (wake_procs ch None (alter (asleep ch) p (procs s)) !! p)) = RUNNABLE.
Proof using Q.
  destruct (quiet_procs s Q) as [Hps _]. pose proof (thread_ok_lt _ (quiet_thread _ Q)) as Hp.
  destruct (lookup_lt_is_Some_2 (procs s) p) as [q Hq]; [lia|].
  rewrite lookup_wake_procs, list_lookup_alter_eq, Hq. cbn. unfold wake, sleeping_on. by rewrite !bool_decide_true.
Qed.

Lemma moved_lookup b w sector bf d x : bf !! b = Some x -> exists x', (moved b w sector bf d).1 !! b = Some x'.
Proof. intros Hb. unfold moved. destruct w; [by eexists|]. cbn. rewrite list_lookup_alter_eq, Hb. by eexists. Qed.

Lemma rw_sleeps b w sector e x :
  virtio_ok (vdsk s) -> bufs s !! b = Some x ->
  let bf := alter (set_b_disk true) b (bufs s) in let v := request b w sector (vdsk s) in
  exists ps m, pcore <$> ps = pcore <$> procs s /\
    while_wait (gets (fun s => b_disk (get_buf s b))) (sleep (Ch_buf b) Lvdisk)
      (st (acq y Lvdisk) (procs s) v bf (disk s) notified) (swtch_away disk_irq :: e) =
    Ok () (st (acq y Lvdisk) ps (seen v) (alter (set_b_disk false) b (moved b w sector bf (disk s)).1)
      (moved b w sector bf (disk s)).2 m) e.
Proof using Q.
  intros Hv Hb bf v. assert (Hbf : bf !! b = Some (set_b_disk true x)) by (unfold bf; by rewrite list_lookup_alter_eq, Hb).
  destruct (disk_irq_run b w sector (vdsk s) (alter (asleep (Ch_buf b)) p (procs s)) bf (disk s) notified Hv) as [m' Hirq];
    [by eexists|by rewrite length_alter|].
  exists (alter awake p (wake_procs (Ch_buf b) None (alter (asleep (Ch_buf b)) p (procs s)))), m'. split.
  { by rewrite pcore_alter, pcore_wake_procs, pcore_alter. }
  set (s1 := st _ _ v _ _ _). set (cond := gets _).
  assert (Hc1 : forall e', cond s1 e' = Ok true s1 e') by (intros e'; unfold cond, gets, get_buf, s1; cbn; by rewrite Hbf).
  assert (Hs : sleep (Ch_buf b) Lvdisk s1 (swtch_away disk_irq :: e) = Ok () (set_syn (acq y Lvdisk) (upd_proc p awake (st (with_intena false (idle y))
    (wake_procs (Ch_buf b) None (alter (asleep (Ch_buf b)) p (procs s))) (seen v) (alter (set_b_disk false) b (moved b w sector bf (disk s)).1)
    (moved b w sector bf (disk s)).2 m'))) e).
  { apply (sleep_resumed s Q _ _ _ _ _ false); [apply quiet_lfree; [exact Q|in_static]|done|reflexivity|exact Hirq|reflexivity|apply woken]. }
  erewrite (while_wait_true cond); [|by intros ? ? ? ? ? [= _ _ ->]|apply consumes_sleep|apply Hc1|exact Hs].
  destruct (moved_lookup b w sector bf (disk s) _ Hbf) as [x' Hx'].
  apply while_wait_false. unfold cond, gets, get_buf. cbn. rewrite list_lookup_alter_eq, Hx'. done.
Qed.

(** The buffers and the disk, as the interface has them. *)
Lemma moved_result b w x : bufs s !! b = Some x -> b_disk x = false -> blockno_ok (b_blockno x) ->
  let r := moved b w (u32 (b_blockno x * 2)) (alter (set_b_disk true) b (bufs s)) (disk s) in
  if w then alter (set_b_disk false) b r.1 = bufs s /\ r.2 = dwrite (b_blockno x) (b_data x) (disk s)
  else r.2 = disk s /\ alter (set_b_disk false) b r.1 = <[b := set_b_data (dblock (disk s) (b_blockno x)) x]> (bufs s).
Proof.
  intros Hb Hd Hn r. unfold r, moved, blockno_ok in *.
  assert (Hsec : u32 (b_blockno x * 2) / 2 = b_blockno x) by (unfold u32; rewrite Z.mod_small by lia; by apply Z.div_mul).
  rewrite Hsec. destruct w; cbn [fst snd].
  - rewrite list_alter_alter_eq, list_lookup_alter_eq, Hb. cbn. split; [|done].
    rewrite (list_alter_known _ _ _ _ Hb). apply list_insert_id. rewrite Hb. f_equal. destruct x. cbn in *. by subst.
  - split; [done|]. rewrite !list_alter_alter_eq, (list_alter_known _ _ _ _ Hb). f_equal. destruct x. cbn in *. by subst.
Qed.

(** The queue is at rest again. *)
Lemma served_ok b w sector v : virtio_ok v ->
  let v1 := seen (request b w sector v) in
  let v2 := set_v_info (alter (set_info_b None) (Z.to_nat 0) (v_info v1)) v1 in
  (exists d0 d1 d2 dr, v_desc v2 = d0 :: d1 :: d2 :: dr /\ length dr = 5%nat /\ vd_next d0 = 1 /\ vd_next d1 = 2 /\
    has (vd_flags d0) VRING_DESC_F_NEXT = true /\ has (vd_flags d1) VRING_DESC_F_NEXT = true /\ has (vd_flags d2) VRING_DESC_F_NEXT = false) /\
  v_free v2 = false :: false :: false :: replicate 5 true /\ virtio_ok (freed_desc 2 (freed_desc 1 (freed_desc 0 v2))).
Proof.
  intros [Hf Hd Hi Ho Ha Hr Hu Hs Hx] v1 v2. destruct (list8 _ Hd) as (d0 & d1 & d2 & d3 & d4 & d5 & d6 & d7 & Ed).
  split; [|split; [done|]].
  - unfold v2, v1, seen, request. cbn. rewrite Ed. repeat eexists. by destruct w.
  - split; unfold v2, v1, seen, request; cbn; rewrite ?length_insert, ?length_alter, ?length_insert; try done.
    + by apply Z.mod_pos_bound.
    + by rewrite Hs.
    + by rewrite Hx.
Qed.

Lemma virtio_rw_run b w e x :
  virtio_ok (vdsk s) -> bufs s !! b = Some x -> b_disk x = false -> blockno_ok (b_blockno x) ->
  exists s', virtio_disk_rw b w s (swtch_away disk_irq :: e) = Ok () s' e /\ virtio_ok (vdsk s') /\ kq s s' /\
    upper s' = upper s /\ slocks s' = slocks s /\
    (if w then bufs s' = bufs s /\ disk s' = dwrite (b_blockno x) (b_data x) (disk s)
     else disk s' = disk s /\ bufs s' = <[b := set_b_data (dblock (disk s) (b_blockno x)) x]> (bufs s)).
Proof using Q.
  intros Hv Hb Hd Hn. rewrite (rw_posts b w _ x Hv Hb). unfold rw_finish. set (sector := u32 _).
  destruct (rw_sleeps b w sector e x Hv Hb) as (ps & m & Hps & Hw). rewrite (bind_ok _ _ _ _ _ _ _ Hw). clear Hw. unfold upd_info. kpure.
  destruct (served_ok b w sector (vdsk s) Hv) as ((d0 & d1 & d2 & dr & H1 & H2 & H3 & H4 & H5 & H6 & H7) & H8 & H9).
  set (v2 := set_v_info _ _) in *. pose proof (moved_result b w x Hb Hd Hn) as Hmv. cbv zeta in Hmv. fold sector in Hmv.
  set (r := moved _ _ _ _ _) in *. set (bf := alter (set_b_disk false) b r.1) in *.
  assert (Hlen : length ps = length (procs s)) by (apply (f_equal length) in Hps; by rewrite !length_fmap in Hps).
  destruct (free_chain_run ps v2 bf r.2 m e d0 d1 d2 dr H1 H2 H8 H3 H4 H5 H6 H7 Hlen) as (ps' & Hfc & Hps').
  erewrite (bind_ok (free_chain 0)); [|exact Hfc].
  rewrite (quiet_release s) by (done || in_static). eexists. split; [reflexivity|]. split; [exact H9|].
  split; [|split; [done|split; [done|exact Hmv]]]. split; [done|by right|]. cbn. by rewrite Hps', Hps.
Qed.

End Run.

(** C11 the driver implements the interface of the buffer cache: a request that
    sleeps while the device serves it and its interrupt is handled transfers the
    buffer to or from its block, returns with the driver's queue and descriptors
    at rest, and changes nothing else that the file system relies on. *)
Theorem virtio_disk_rw_transfers b w s e x :
  quiet s -> virtio_ok (vdsk s) -> bufs s !! b = Some x -> b_disk x = false -> blockno_ok (b_blockno x) ->
  exists s', virtio_disk_rw b w s (swtch_away disk_irq :: e) = Ok () s' e /\ virtio_ok (vdsk s') /\ kq s s' /\
    upper s' = upper s /\ slocks s' = slocks s /\
    (if w then bufs s' = bufs s /\ disk s' = dwrite (b_blockno x) (b_data x) (disk s)
     else disk s' = disk s /\ bufs s' = <[b := set_b_data (dblock (disk s) (b_blockno x)) x]> (bufs s)).
Proof. intros Q. by apply virtio_rw_run. Qed.

#[local] Instance virtio_laws : DiskLaws.
Proof.
  refine {| dd_ok s := virtio_ok (vdsk s) |}.
  - intros s s' ->. done.
  - intros b w s e x Q Hv Hb _ Hd Hn _. by apply virtio_rw_run.
Defined.

End Driver.

(** ** A device *)

(** It follows the chain of the next request of the available ring. *)
Definition ring_serve (s : kstate) : kstate :=
  let v := vdsk s in
  let i0 := Z.to_nat (default 0 (v_avail_ring v !! Z.to_nat (v_used v mod NUM))) in
  let d0 := default zero_vdesc (v_desc v !! i0) in
  let d1 := default zero_vdesc (v_desc v !! Z.to_nat (vd_next d0)) in
  let op := default zero_vreq (v_ops v !! i0) in
  match vd_addr d1 with
  | A_data b => served i0 b (req_type op =? VIRTIO_BLK_T_OUT) (req_sector op) s
  | _ => s
  end.

Definition ring_device : VirtioDevice.
Proof.
  refine {| serve := ring_serve |}. intros s i0 i1 i2 b w sector [H1 H2 H3 H4 H5 H6] _. unfold ring_serve.
  rewrite H2. cbn [default from_option id]. rewrite Nat2Z.id, H4, H3. cbn [default from_option id vd_next].
  rewrite Nat2Z.id, H5. cbn. by destruct w.
Defined.

Definition sample_mmio : Mmio := {| mmio_read _ _ := 0 |}.
Definition sample_virtio : kstate := set_vdsk (set_v_free (replicate 8 true) zero_vdisk) sample_idle.

Lemma virtio_disk_rw_transfers_witness :
  exists s', virtio_disk_rw 3 true sample_virtio [swtch_away (@disk_irq sample_mmio ring_device)] = Ok () s' [] /\
    disk s' = dwrite 0 zero_block (disk sample_virtio).
Proof.
  destruct (@virtio_disk_rw_transfers sample_mmio ring_device 3 true sample_virtio [] (get_buf sample_virtio 3)) as (s' & H1 & _ & _ & _ & _ & _ & H2).
  - exact sample_quiet.
  - by split.
  - reflexivity.
  - reflexivity.
  - done.
  - exists s'. split; [exact H1|exact H2].
Defined.
