(* ===== verification/Syscall.v ===== *)
(** * kernel/syscall.c (arguments), kernel/sysproc.c and kernel/sysfile.c

    The system calls.  Results are the C integers they return; [syscall] in
    [Trap] stores them in the caller's [a0].  A path or string argument is the
    byte list that [copyinstr] stored, its NUL included. *)

From stdpp Require Import base gmap strings numbers list.
From Stdlib Require Import Ascii.
From S2P Require Import Prelude KState Sample StringC Spinlock Sched Sleeplock Uart Printf Pages Kalloc Vm Bio Log Fs Pipe Console File Proc Exec.

Section Syscall.
Context {L : Layout} {D : DiskDriver}.

(** The current process, which these routines dereference. *)
Definition self : M nat :=
  me ← myproc;
  deref me.

(** ** Arguments *)

Definition fetchaddr (addr : Z) : M (Z * Z) :=
  p ← self;
  pr ← procget p;
  if (p_sz pr <=? addr) || (p_sz pr <? u64 (addr + 8)) then mret (-1, 0) else
  '(r, bs) ← copyin (p_pagetable pr) addr 8;
  if negb (r =? 0) then mret (-1, 0) else mret (0, le_val bs).

(** The length and the contents of [buf]. *)
Definition fetchstr (addr max : Z) : M (Z * list Z) :=
  p ← self;
  pr ← procget p;
  '(r, bs) ← copyinstr (p_pagetable pr) addr max;
  if r <? 0 then mret (-1, bs) else mret (strlen bs, bs).

Definition argraw (n : Z) : M Z :=
  p ← self;
  if (0 <=? n) && (n <=? 5) then tf_get p (TF_a n) else kpanic "argraw".

Definition argint (n : Z) : M Z :=
  v ← argraw n;
  mret (i32 v).
Definition argaddr (n : Z) : M Z := argraw n.

Definition argstr (n max : Z) : M (Z * list Z) :=
  addr ← argaddr n;
  fetchstr addr max.

(** ** kernel/sysproc.c *)

Definition sys_exit : M Z :=
  n ← argint 0;
  exit n;;
  mret 0.

Definition sys_getpid : M Z :=
  p ← self;
  pr ← procget p;
  mret (p_pid pr).

Definition sys_fork : M Z := fork.

Definition sys_wait : M Z :=
  p ← argaddr 0;
  wait p.

Definition sys_sbrk : M Z :=
  n ← argint 0;
  p ← self;
  pr ← procget p;
  let addr := p_sz pr in
  r ← growproc n;
  if r <? 0 then mret (-1) else mret addr.

(** while(ticks - ticks0 < n): [false] if killed. *)
Fixpoint sleep_ticks (k : nat) (ticks0 n : Z) : M bool :=
  match k with
  | O => kspin
  | S k' =>
      t ← gets ticks;
      if u32 (t - ticks0) <? n then
        p ← self;
        dead ← killed p;
        if dead : bool then mret false else
        sleep Ch_ticks Ltick;;
        sleep_ticks k' ticks0 n
      else mret true
  end.

Definition sys_sleep : M Z :=
  n ← argint 0;
  let n := if n <? 0 then 0 else n in
  acquire Ltick;;
  ticks0 ← gets ticks;
  r ← ((fun s e => sleep_ticks (S (length e)) ticks0 n s e) : M bool);
  release Ltick;;
  mret (if r : bool then 0 else -1).

Definition sys_kill : M Z :=
  pid ← argint 0;
  kill pid.

Definition sys_uptime : M Z :=
  acquire Ltick;;
  xticks ← gets ticks;
  release Ltick;;
  mret xticks.

(** ** kernel/sysfile.c *)

(** The descriptor and its file, if it is open. *)
Definition argfd (n : Z) : M (option (Z * nat)) :=
  fd ← argint n;
  if (fd <? 0) || (NOFILE <=? fd) then mret None else
  p ← self;
  pr ← procget p;
  mret (match default None (p_ofile pr !! Z.to_nat fd) with
        | None => None
        | Some f => Some (fd, f)
        end).

Definition set_fd (p : nat) (fd : Z) (f : option nat) : M unit :=
  procset p (fun x => set_p_ofile (<[Z.to_nat fd := f]> (p_ofile x)) x).

Fixpoint fdalloc_scan (fds : list Z) (p f : nat) : M Z :=
  match fds with
  | [] => mret (-1)
  | fd :: fds' =>
      pr ← procget p;
      match default None (p_ofile pr !! Z.to_nat fd) with
      | None => set_fd p fd (Some f);; mret fd
      | Some _ => fdalloc_scan fds' p f
      end
  end.
Definition fdalloc (f : nat) : M Z :=
  p ← self;
  fdalloc_scan (seqZ 0 NOFILE) p f.

Definition sys_dup : M Z :=
  a ← argfd 0;
  match a with
  | None => mret (-1)
  | Some (_, f) =>
      fd ← fdalloc f;
      if fd <? 0 then mret (-1) else
      filedup f;;
      mret fd
  end.

Definition sys_read : M Z :=
  p ← argaddr 1;
  n ← argint 2;
  a ← argfd 0;
  match a with
  | None => mret (-1)
  | Some (_, f) => fileread f p n
  end.

Definition sys_write : M Z :=
  p ← argaddr 1;
  n ← argint 2;
  a ← argfd 0;
  match a with
  | None => mret (-1)
  | Some (_, f) => filewrite f p n
  end.

Definition sys_close : M Z :=
  a ← argfd 0;
  match a with
  | None => mret (-1)
  | Some (fd, f) =>
      p ← self;
      set_fd p fd None;;
      fileclose f;;
      mret 0
  end.

Definition sys_fstat : M Z :=
  st ← argaddr 1;
  a ← argfd 0;
  match a with
  | None => mret (-1)
  | Some (_, f) => filestat f st
  end.

(** ip->nlink += d, a [short] *)
Definition add_nlink (ip : nat) (d : Z) : M unit :=
  inodeset ip (fun x => set_i_nlink (i16 (i_nlink x + d)) x).

(** The label [bad] of [sys_link]. *)
Definition link_bad (ip : nat) : M Z :=
  ilock (Some ip);;
  add_nlink ip (-1);;
  iupdate ip;;
  iunlockput ip;;
  end_op;;
  mret (-1).

Definition sys_link : M Z :=
  '(n, old) ← argstr 0 MAXPATH;
  if n <? 0 then mret (-1) else
  '(n, new) ← argstr 1 MAXPATH;
  if n <? 0 then mret (-1) else
  begin_op;;
  found ← namei old;
  match found with
  | None => end_op;; mret (-1)
  | Some ip =>
      ilock (Some ip);;
      x ← inodeget ip;
      if i_type x =? T_DIR then iunlockput ip;; end_op;; mret (-1) else
      add_nlink ip 1;;
      iupdate ip;;
      iunlock (Some ip);;
      '(dp, name) ← nameiparent new;
      match dp with
      | None => link_bad ip
      | Some dp =>
          ilock (Some dp);;
          d ← inodeget dp;
          x ← inodeget ip;
          r ← (if negb (i_dev d =? i_dev x) then mret (-1) else dirlink dp name (i_inum x));
          if r <? 0 then iunlockput dp;; link_bad ip else
          iunlockput dp;;
          iput ip;;
          end_op;;
          mret 0
      end
  end.

(** for(off=2*sizeof(de); off<dp->size; off+=sizeof(de)) *)
Fixpoint isdirempty_loop (k : nat) (dp : nat) (off : Z) : M bool :=
  match k with
  | O => kspin
  | S k' =>
      x ← inodeget dp;
      if negb (off <? i_size x) then mret true else
      '(r, de) ← readi dp LocalDst off DIRENT_SIZE;
      if negb (r =? DIRENT_SIZE) then kpanic "isdirempty: readi" else
      if negb (de_inum de =? 0) then mret false else
      isdirempty_loop k' dp (off + DIRENT_SIZE)
  end.
Definition isdirempty (dp : nat) : M bool :=
  x ← inodeget dp;
  isdirempty_loop (Z.to_nat (i_size x / DIRENT_SIZE + 1)) dp (2 * DIRENT_SIZE).

Definition unlink_bad (dp : nat) : M Z :=
  iunlockput dp;;
  end_op;;
  mret (-1).

Definition sys_unlink : M Z :=
  '(n, path) ← argstr 0 MAXPATH;
  if n <? 0 then mret (-1) else
  begin_op;;
  '(dp, name) ← nameiparent path;
  match dp with
  | None => end_op;; mret (-1)
  | Some dp =>
      ilock (Some dp);;
      if (namecmp name (zstr ".") =? 0) || (namecmp name (zstr "..") =? 0) then unlink_bad dp else
      found ← dirlookup dp name;
      match found with
      | None => unlink_bad dp
      | Some (ip, off) =>
          ilock (Some ip);;
          x ← inodeget ip;
          if i_nlink x <? 1 then kpanic "unlink: nlink < 1" else
          full ← (if i_type x =? T_DIR then e ← isdirempty ip; mret (negb e) else mret false);
          if full : bool then iunlockput ip;; unlink_bad dp else
          r ← writei dp (LocalSrc (replicate (Z.to_nat DIRENT_SIZE) 0)) off DIRENT_SIZE;
          if negb (r =? DIRENT_SIZE) then kpanic "unlink: writei" else
          x ← inodeget ip;
          when (i_type x =? T_DIR) (add_nlink dp (-1);; iupdate dp);;
          iunlockput dp;;
          add_nlink ip (-1);;
          iupdate ip;;
          iunlockput ip;;
          end_op;;
          mret 0
      end
  end.

(** The label [fail] of [create]. *)
Definition create_fail (ip dp : nat) : M (option nat) :=
  inodeset ip (set_i_nlink 0);;
  iupdate ip;;
  iunlockput ip;;
  iunlockput dp;;
  mret None.

Definition create (path : list Z) (type major minor : Z) : M (option nat) :=
  '(dp, name) ← nameiparent path;
  match dp with
  | None => mret None
  | Some dp =>
      ilock (Some dp);;
      found ← dirlookup dp name;
      match found with
      | Some (ip, _) =>
          iunlockput dp;;
          ilock (Some ip);;
          x ← inodeget ip;
          if (type =? T_FILE) && ((i_type x =? T_FILE) || (i_type x =? T_DEVICE)) then
            mret (Some ip)
          else iunlockput ip;; mret None
      | None =>
          d ← inodeget dp;
          new ← ialloc (i_dev d) type;
          match new with
          | None => iunlockput dp;; mret None
          | Some ip =>
              ilock (Some ip);;
              inodeset ip (set_i_major major);;
              inodeset ip (set_i_minor minor);;
              inodeset ip (set_i_nlink 1);;
              iupdate ip;;
              x ← inodeget ip;
              d ← inodeget dp;
              r ← (if negb (type =? T_DIR) then mret 0 else
                   r ← dirlink ip (zstr ".") (i_inum x);
                   if r <? 0 then mret r else dirlink ip (zstr "..") (i_inum d));
              if r <? 0 then create_fail ip dp else
              r ← dirlink dp name (i_inum x);
              if r <? 0 then create_fail ip dp else
              when (type =? T_DIR) (add_nlink dp 1;; iupdate dp);;
              iunlockput dp;;
              mret (Some ip)
          end
      end
  end.

(** From the locked inode of [sys_open] to the descriptor. *)
Definition open_file (ip : nat) (omode : Z) : M Z :=
  x ← inodeget ip;
  if (i_type x =? T_DEVICE) && ((i_major x <? 0) || (NDEV <=? i_major x)) then
    iunlockput ip;; end_op;; mret (-1)
  else
  fa ← filealloc;
  match fa with
  | None => iunlockput ip;; end_op;; mret (-1)
  | Some f =>
      fd ← fdalloc f;
      if fd <? 0 then fileclose f;; iunlockput ip;; end_op;; mret (-1) else
      x ← inodeget ip;
      (if i_type x =? T_DEVICE then
         fileset f (set_f_type FD_DEVICE);;
         fileset f (set_f_major (i_major x))
       else
         fileset f (set_f_type FD_INODE);;
         fileset f (set_f_off 0));;
      fileset f (set_f_ip (Some ip));;
      fileset f (set_f_readable (negb (has omode O_WRONLY)));;
      fileset f (set_f_writable (has omode O_WRONLY || has omode O_RDWR));;
      when (has omode O_TRUNC && (i_type x =? T_FILE)) (itrunc ip);;
      iunlock (Some ip);;
      end_op;;
      mret fd
  end.

Definition sys_open : M Z :=
  omode ← argint 1;
  '(n, path) ← argstr 0 MAXPATH;
  if n <? 0 then mret (-1) else
  begin_op;;
  if has omode O_CREATE then
    found ← create path T_FILE 0 0;
    match found with
    | None => end_op;; mret (-1)
    | Some ip => open_file ip omode
    end
  else
    found ← namei path;
    match found with
    | None => end_op;; mret (-1)
    | Some ip =>
        ilock (Some ip);;
        x ← inodeget ip;
        if (i_type x =? T_DIR) && negb (omode =? O_RDONLY) then
          iunlockput ip;; end_op;; mret (-1)
        else open_file ip omode
    end.

(** The end that [sys_mkdir] and [sys_mknod] share. *)
Definition created (found : option nat) : M Z :=
  match found with
  | None => end_op;; mret (-1)
  | Some ip =>
      iunlockput ip;;
      end_op;;
      mret 0
  end.

Definition sys_mkdir : M Z :=
  begin_op;;
  '(n, path) ← argstr 0 MAXPATH;
  found ← (if n <? 0 then mret None else create path T_DIR 0 0);
  created found.

Definition sys_mknod : M Z :=
  begin_op;;
  major ← argint 1;
  minor ← argint 2;
  '(n, path) ← argstr 0 MAXPATH;
  found ← (if n <? 0 then mret None else create path T_DEVICE (i16 major) (i16 minor));
  created found.

Definition sys_chdir : M Z :=
  p ← self;
  begin_op;;
  '(n, path) ← argstr 0 MAXPATH;
  found ← (if n <? 0 then mret None else namei path);
  match found with
  | None => end_op;; mret (-1)
  | Some ip =>
      ilock (Some ip);;
      x ← inodeget ip;
      if negb (i_type x =? T_DIR) then iunlockput ip;; end_op;; mret (-1) else
      iunlock (Some ip);;
      pr ← procget p;
      cwd ← deref (p_cwd pr);
      iput cwd;;
      end_op;;
      procset p (set_p_cwd (Some ip));;
      mret 0
  end.

(** for(i=0;; i++): whether all arguments were fetched, and the pages. *)
Fixpoint exec_fetch (k : nat) (uargv : Z) (argv : list Z) : M (bool * list Z) :=
  match k with
  | O => mret (false, argv)
  | S k' =>
      '(r, uarg) ← fetchaddr (u64 (uargv + 8 * Z.of_nat (length argv)));
      if r <? 0 then mret (false, argv) else
      if uarg =? 0 then mret (true, argv) else
      pg ← kalloc;
      if pg =? 0 then mret (false, argv) else
      '(n, str) ← fetchstr uarg PGSIZE;
      modify (upd_mem (fun m => st_bytes m pg str));;
      if n <? 0 then mret (false, argv ++ [pg]) else
      exec_fetch k' uargv (argv ++ [pg])
  end.

Definition sys_exec : M Z :=
  uargv ← argaddr 1;
  '(n, path) ← argstr 0 MAXPATH;
  if n <? 0 then mret (-1) else
  '(ok, argv) ← exec_fetch (Z.to_nat MAXARG) uargv [];
  if negb ok then for_each argv kfree;; mret (-1) else
  ret ← exec path argv;
  for_each argv kfree;;
  mret ret.

Definition sys_pipe : M Z :=
  p ← self;
  fdarray ← argaddr 0;
  pp ← pipealloc;
  match pp with
  | None => mret (-1)
  | Some (rf, wf) =>
      fd0 ← fdalloc rf;
      fd1 ← (if fd0 <? 0 then mret (-1) else fdalloc wf);
      if fd1 <? 0 then
        when (0 <=? fd0) (set_fd p fd0 None);;
        fileclose rf;;
        fileclose wf;;
        mret (-1)
      else
      pr ← procget p;
      r ← copyout (p_pagetable pr) fdarray (le_bytes 4 fd0) 4;
      r ← (if r <? 0 then mret r else
           copyout (p_pagetable pr) (u64 (fdarray + 4)) (le_bytes 4 fd1) 4);
      if r <? 0 then
        set_fd p fd0 None;;
        set_fd p fd1 None;;
        fileclose rf;;
        fileclose wf;;
        mret (-1)
      else mret 0
  end.

End Syscall.
