(* ===== verification/SysLink.v ===== *)
(** * kernel/sysfile.c: link

    [sys_link] from its arguments in user memory to the transaction on the disk: two
    paths are followed, an inode and a directory are written, and on every failure the
    link count is put back. *)

From stdpp Require Import base gmap strings numbers list.
From Stdlib Require Import Ascii.
From S2P Require Import Prelude KState Sample StringC Spinlock Sched Sleeplock Quiet Uart Printf Pages Kalloc Vm PageTable UserVm UserSpace Copy Bio BufCache BufRefine Log LogDisk BufWp LogRun LogSafe LogOps Transaction FsWp Fs FsBlocks FsInode FsFile FsData FsOps FileRw FsDir DirLink TreeUpd Mkfs FsSample MkfsOk Mount Paths Pipe Console File Proc Exec Syscall.

(** ** Arguments *)

Section Args.
Context {L : Layout}.

(** Argument [n] of the system call is the address of the string [w] in user memory. *)
Record user_string (s : kstate) (n : Z) (w : list Z) : Prop := mkustring {
  us_range : 0 <= n <= 5;
  us_len : Z.of_nat (length w) + 1 <= MAXPATH;
  us_bytes : Forall byte_ok w;
  us_nul : Forall (fun b => b <> 0) w;
  us_memory : let p := get_proc s (cur s) in exists l T us, let va := ld64 (mem s) (p_trapframe p + TF_a n) in
    uvm_ok s l T (p_pagetable p) us /\ accessible T us PTE_U va (Z.of_nat (length w) + 1) /\
    ubytes (mem s) us va (S (length w)) = w ++ [0]
}.

Lemma self_run s e : quiet s -> self s e = Ok (cur s) (set_syn (touch (syn s)) s) e.
Proof.
  intros Q. unfold self. kstep ltac:(apply myproc_run; by apply quiet_wf). rewrite (thread_ok_cur s (quiet_thread _ Q)). reflexivity.
Qed.

Lemma argstr_run s n w e : quiet s -> user_string s n w ->
  argstr n MAXPATH s e = Ok (Z.of_nat (length w), w ++ [0]) (set_syn (touch (syn s)) s) e.
Proof.
  intros Q [Hn Hlen Hb Hz (l & T & us & Hok & Hacc & Hub)]. set (s1 := set_syn (touch (syn s)) s).
  assert (Kq : kq s s1) by (split; [done|by right|done]). assert (Q1 : quiet s1) by (by eapply kq_quiet).
  assert (Hc : cur s1 = cur s) by (by apply kq_cur). unfold argstr, argaddr, argraw. rewrite bind_assoc. kstep ltac:(by apply self_run).
  fold s1. rewrite (proj2 (Z.leb_le 0 n)), (proj2 (Z.leb_le n 5)) by lia. cbn [andb]. unfold tf_get, procget, rd64. rewrite bind_assoc, !bind_gets.
  unfold fetchstr. kstep ltac:(by apply self_run). unfold procget. rewrite bind_gets. rewrite Hc.
  replace (set_syn (touch (syn s1)) s1) with s1 by (unfold s1; cbn; by rewrite touch_touch).
  change (get_proc s1 (cur s)) with (get_proc s (cur s)). change (mem s1) with (mem s).
  set (va := ld64 (mem s) _) in *. assert (Hok1 : uvm_ok s1 l T (p_pagetable (get_proc s (cur s))) us) by (by apply (uvm_ok_kq s)).
  assert (Hrun : copyinstr (p_pagetable (get_proc s (cur s))) va MAXPATH s1 e = Ok (0, w ++ [0]) s1 e).
  { pose proof (copyinstr_loop_run (Z.to_nat (MAXPATH / PGSIZE + 3)) s1 l T _ us [] va (Z.of_nat (length w) + 1) MAXPATH e Hok1 Hacc) as H.
    replace (Z.to_nat (Z.of_nat (length w) + 1)) with (S (length w)) in H by lia. change (mem s1) with (mem s) in H. rewrite Hub in H.
    rewrite cstr_app_zero in H by done. unfold copyinstr. apply H; [lia|apply elem_of_app; right; by left|].
    destruct Hacc as (Hva & _). unfold PGSIZE, MAXPATH in *. lia. }
  erewrite bind_ok; [|exact Hrun]. cbn beta iota. change (0 <? 0) with false. cbn iota. rewrite strlen_cstr, cstr_app_zero by done. reflexivity.
Qed.

End Args.

(** ** References held by an operation *)

Definition free_at (T : list inode) (a : nat) : Prop := exists x, T !! a = Some x /\ i_ref x = 0.
Definition three_free (T : list inode) : Prop := exists a b c, a <> b /\ b <> c /\ a <> c /\ free_at T a /\ free_at T b /\ free_at T c.

(** References to table entries, each with the inode it is for. *)
Definition cnt (H : list (nat * Z)) (j : nat) : Z := foldr (fun h n => one h.1 j + n) 0 H.

Lemma cnt_cons h H j : cnt (h :: H) j = one h.1 j + cnt H j.
Proof. done. Qed.
Lemma cnt_nonneg H j : 0 <= cnt H j.
Proof. induction H as [|h H IH]; [done|]. rewrite cnt_cons. pose proof (one_nonneg h.1 j). lia. Qed.
Lemma cnt_pos H ip i : (ip, i) ∈ H -> 0 < cnt H ip.
Proof.
  induction H as [|h H IH]; [by intros ?%elem_of_nil|]. intros [<-|Hin]%elem_of_cons; rewrite cnt_cons; cbn [fst].
  - unfold one. rewrite decide_True by done. pose proof (cnt_nonneg H ip). lia.
  - specialize (IH Hin). pose proof (one_nonneg h.1 ip). lia.
Qed.
Lemma cnt_zero H j : (forall i, (j, i) ∉ H) -> cnt H j = 0.
Proof.
  induction H as [|[a i] H IH]; intros Hn; [done|]. rewrite cnt_cons, IH by (intros k Hk; apply (Hn k); by right).
  unfold one. cbn [fst]. rewrite decide_False; [done|]. intros ->. apply (Hn i). by left.
Qed.

Section Tran.
Context {L : Layout} {D : DiskDriver} {DL : DiskLaws} (B : superblock) (Hg : geom B).
Context (s0 : kstate) (HB : sb s0 = B) (Hpan : panicked s0 = false) (Hopen : l_outstanding (klog s0) = 1).
Context (c0 : Z -> list Z) (T0 : list inode) (Hok0 : itab_ok B c0 T0) (e : env).
Notation fsx := (fsx (sb_logstart B) (sb_nlog B) s0).

(** The operation holds the references [H] and, with [lk], the lock of one inode. *)
Record busy s T K c G (H : list (nat * Z)) (lk : option nat) : Prop := mkbusy {
  bz_fsx : fsx s T (match lk with Some ip => lock_taken s0 K ip | None => K end) c ∅ G;
  bz_tree : tree_ok B c;
  bz_tab : itab_ok B c T;
  bz_unlocked : unlocked K;
  bz_refs : grants T0 T (cnt H);
  bz_held : forall ip i, (ip, i) ∈ H -> exists x, T !! ip = Some x /\ i_inum x = i
}.

Lemma busy_entry s T K c G H lk ip i : busy s T K c G H lk -> (ip, i) ∈ H -> exists x, T !! ip = Some x /\ i_inum x = i /\ 0 < i_ref x /\ live_inum B c i.
Proof using Hok0.
  intros [X Ht Hok Hu Hr Hh] Hin. destruct (Hh ip i Hin) as (x & Hx & Hi). exists x. assert (Hpos : 0 < i_ref x).
  { rewrite <- (refat_lookup _ _ _ Hx), (gr_ref _ _ _ Hr). pose proof (cnt_pos _ _ _ Hin). pose proof (refat_nonneg B c0 T0 ip Hok0). lia. }
  split_and!; try done. rewrite <- Hi. by apply (it_on _ _ _ Hok ip x).
Qed.

(** A step that changes references by [d]. *)
Lemma busy_move s T K c G H lk s' T' K' c' G' H' lk' d :
  busy s T K c G H lk -> fsx s' T' (match lk' with Some ip => lock_taken s0 K' ip | None => K' end) c' ∅ G' -> tree_ok B c' -> itab_ok B c' T' -> unlocked K' ->
  grants T T' d -> (forall j, cnt H' j = cnt H j + d j) ->
  (forall ip i, (ip, i) ∈ H' -> (ip, i) ∈ H \/ exists x, T' !! ip = Some x /\ i_inum x = i) -> busy s' T' K' c' G' H' lk'.
Proof using Hok0.
  intros Bz X' Ht' Hok' Hu' Hgr Hcnt Hin. assert (G0 : grants T0 T' (cnt H')).
  { eapply grants_ext; [|apply (grants_trans _ _ _ _ _ (bz_refs _ _ _ _ _ _ _ Bz) Hgr (cnt_nonneg H))]. intros j. by rewrite Hcnt. }
  split; try done. intros ip i Hi. destruct (Hin ip i Hi) as [Hold|]; [|done].
  destruct (busy_entry _ _ _ _ _ _ _ ip i Bz Hold) as (x & Hx & Hxi & Hr & _).
  destruct (gr_id _ _ _ Hgr ip x Hx Hr) as (x' & Hx' & Hi' & _); [|exists x'; split; [done|congruence]].
  rewrite (gr_ref _ _ _ G0). pose proof (cnt_pos _ _ _ Hi). pose proof (refat_nonneg B c0 T0 ip Hok0). lia.
Qed.

Lemma busy_free s T K c G H lk a : busy s T K c G H lk -> free_at T0 a -> (forall i, (a, i) ∉ H) -> free_at T a.
Proof using Hok0.
  intros Bz (x & Hx & Hr) Hn. assert (Hlt : (a < length T)%nat).
  { rewrite (it_len _ _ _ (bz_tab _ _ _ _ _ _ _ Bz)), <- (it_len _ _ _ Hok0). by eapply lookup_lt_Some. }
  destruct (lookup_lt_is_Some_2 _ _ Hlt) as [y Hy]. exists y. split; [done|].
  rewrite <- (refat_lookup _ _ _ Hy), (gr_ref _ _ _ (bz_refs _ _ _ _ _ _ _ Bz)), (refat_lookup _ _ _ Hx), cnt_zero; [lia|done].
Qed.

Lemma two_left s T K c G ip i lk : three_free T0 -> busy s T K c G [(ip, i)] lk -> two_free T.
Proof using Hok0.
  intros (a1 & a2 & a3 & N1 & N2 & N3 & F1 & F2 & F3) Bz.
  assert (Hf : forall a, free_at T0 a -> a <> ip -> free_at T a).
  { intros a Ha Hn. eapply busy_free; [exact Bz|done|]. intros j [=]%list_elem_of_singleton. done. }
  assert (Hp : forall a b, a <> b -> free_at T0 a -> free_at T0 b -> a <> ip -> b <> ip -> two_free T).
  { intros a b Hab Ha Hb Hna Hnb. destruct (Hf a Ha Hna) as (x & ? & ?), (Hf b Hb Hnb) as (y & ? & ?). by exists a, b, x, y. }
  destruct (decide (a1 = ip)) as [->|]; [by apply (Hp a2 a3)|]. destruct (decide (a2 = ip)) as [->|]; [by apply (Hp a1 a3)|]. by apply (Hp a1 a2).
Qed.

Lemma one_left s T K c G h1 h2 lk : three_free T0 -> busy s T K c G [h1; h2] lk -> exists a y, T !! a = Some y /\ i_ref y = 0.
Proof using Hok0.
  intros (a1 & a2 & a3 & N1 & N2 & N3 & F1 & F2 & F3) Bz.
  assert (Hf : forall a, free_at T0 a -> a <> h1.1 -> a <> h2.1 -> exists a y, T !! a = Some y /\ i_ref y = 0).
  { intros a Ha Hn1 Hn2. exists a. eapply busy_free; [exact Bz|done|]. intros j [<-|[<-|[]%elem_of_nil]%elem_of_cons]%elem_of_cons; done. }
  destruct (decide (a1 = h1.1)), (decide (a1 = h2.1)), (decide (a2 = h1.1)), (decide (a2 = h2.1)); try (apply (Hf a1); done); try (apply (Hf a2); done);
    apply (Hf a3); congruence || done.
Qed.

(** ** Steps of an operation *)

Lemma busy_walk s T K c G H par path i0 : busy s T K c G H None -> two_free T -> starts_at s0 T0 path i0 -> linked B c i0 -> Forall byte_ok path ->
  runs (namex path par) s e (fun r s' => match resolve B c par i0 (path_elems path) with
    | Some i => exists ip T' K', r.1 = Some ip /\ busy s' T' K' c G ((ip, i) :: H) None /\ (par = true -> last (path_elems path) = Some (fname r.2) /\ Forall byte_ok r.2)
    | None => r.1 = None /\ exists T' K', busy s' T' K' c G H None
    end).
Proof.
  intros Bz Hf Hst Hl Hp. assert (Hst' : starts_at s0 T path i0).
  { destruct Hst as [?|(H1 & cwd & x & H2 & H3 & H4 & H5)]; [by left|right]. split; [done|]. pose proof (bz_refs _ _ _ _ _ _ _ Bz) as [Hr Hi].
    assert (Hpos : 0 < refat T cwd) by (rewrite Hr, (refat_lookup _ _ _ H3); pose proof (cnt_nonneg H cwd); lia).
    destruct (Hi cwd x H3 H4 Hpos) as (x' & Hx' & Ei & _). exists cwd, x'. split_and!; try done; [|congruence].
    by rewrite <- (refat_lookup _ _ _ Hx'). }
  pose proof (bz_tree _ _ _ _ _ _ _ Bz) as Ht. pose proof (bz_tab _ _ _ _ _ _ _ Bz) as Hok. pose proof (bz_unlocked _ _ _ _ _ _ _ Bz) as Hu.
  eapply runs_mono; [apply (namex_runs B Hg s0 HB c Ht G T e Hf Hok par s K path i0 (bz_fsx _ _ _ _ _ _ _ Bz) Hu Hst' Hl Hp)|].
  intros r s' (T' & K' & W). destruct (resolve B c par i0 (path_elems path)) as [i|].
  - destruct W as (ip & H1 & [X' Ok' U' G' (x & Hx & Hxi & Hxr)] & H3). exists ip, T', K'. split_and!; try done.
    apply (busy_move s T K c G H None _ _ _ _ _ _ None (one ip) Bz); try done.
    + intros j. rewrite cnt_cons. cbn [fst]. lia.
    + intros ip' i' [[= -> ->]|Hin]%elem_of_cons; [right; by exists x|by left].
  - destruct W as (H1 & X' & Ok' & U' & G'). split; [done|]. exists T', K'. apply (busy_move s T K c G H None _ _ _ _ _ _ None (fun _ => 0) Bz); try done.
    + intros j. lia.
    + intros ip' i' Hin. by left.
Qed.

Lemma busy_lock s T K c G H ip i : busy s T K c G H None -> (ip, i) ∈ H ->
  runs (ilock (Some ip)) s e (fun _ s' => exists T' x, busy s' T' K c G H (Some ip) /\ T' !! ip = Some x /\ i_inum x = i /\ 0 < i_ref x /\ cached B c x /\ i_dev x = ROOTDEV).
Proof.
  intros Bz Hin. destruct (busy_entry _ _ _ _ _ _ _ _ _ Bz Hin) as (x & Hx & Hi & Hr & _).
  eapply runs_mono; [apply (ilock_runs B Hg s0 HB s T K c G ip x e); try done; apply Bz|].
  cbn beta. intros _ s' (T' & x' & X' & Ok' & G' & Hx' & Hi' & Hr' & Hc' & Hd'). exists T', x'. split_and!; try done; [|congruence].
  apply (busy_move s T K c G H None _ _ _ _ _ _ (Some ip) (fun _ => 0) Bz); try done; [apply Bz|apply Bz|intros; lia|]. intros ip' i' ?. by left.
Qed.

Lemma busy_unlock s T K c G H ip i : busy s T K c G H (Some ip) -> (ip, i) ∈ H ->
  runs (iunlock (Some ip)) s e (fun _ s' => exists K', busy s' T K' c G H None).
Proof.
  intros Bz Hin. destruct (busy_entry _ _ _ _ _ _ _ _ _ Bz Hin) as (x & Hx & Hi & Hr & _).
  eapply runs_mono; [apply (iunlock_back B Hg s0 HB s T K c G ip x e); try done; apply Bz|]. cbn beta. intros _ s' (K' & X' & U').
  exists K'. apply (busy_move s T K c G H (Some ip) _ _ _ _ _ _ None (fun _ => 0) Bz); try done; [apply Bz..|apply grants_refl|intros; lia|]. intros ip' i' ?. by left.
Qed.

Lemma drop_cnt H ip i j : cnt H j = cnt ((ip, i) :: H) j + drop_ref ip j.
Proof. rewrite cnt_cons. unfold one, drop_ref. cbn [fst]. case_decide; lia. Qed.

Lemma busy_put s T K c G H ip i : busy s T K c G ((ip, i) :: H) None -> linked B c i ->
  runs (iput ip) s e (fun _ s' => exists T', busy s' T' K c G H None).
Proof.
  intros Bz [_ Hn]. destruct (busy_entry _ _ _ _ _ _ _ ip i Bz ltac:(by left)) as (x & Hx & Hi & Hr & _).
  eapply runs_mono; [apply (iput_runs B s0 s T K c G ip x e); try done; [apply Bz..|left; by rewrite Hi]|]. cbn beta. intros _ s' (T' & X' & Ok' & G').
  exists T'. apply (busy_move s T K c G ((ip, i) :: H) None _ _ _ _ _ _ None (drop_ref ip) Bz); try done; [apply Bz..|apply drop_cnt|]. intros ip' i' ?. left. by right.
Qed.

Lemma busy_unlockput s T K c G H ip i : busy s T K c G ((ip, i) :: H) (Some ip) -> linked B c i ->
  runs (iunlockput ip) s e (fun _ s' => exists T' K', busy s' T' K' c G H None).
Proof.
  intros Bz Hl. apply runs_bind. eapply runs_mono; [eapply busy_unlock; [exact Bz|by left]|]. cbn beta. intros _ s1 (K1 & B1).
  eapply runs_mono; [by eapply busy_put|]. cbn beta. intros _ s2 (T2 & B2). by exists T2, K1.
Qed.

(** The same files and directories, with [d j] more links to inode [j]. *)
Record same_files c c' (d : Z -> Z) : Prop := mksame {
  sf_live : forall j, live_inum B c' j <-> live_inum B c j;
  sf_file : forall j, live_inum B c j -> i_type (dinode_at B c' j) = i_type (dinode_at B c j) /\
    file_bytes c' (dinode_at B c' j) = file_bytes c (dinode_at B c j) /\ i_nlink (dinode_at B c' j) = i_nlink (dinode_at B c j) + d j
}.

Lemma same_files_refl c : same_files c c (fun _ => 0).
Proof. split; [done|]. intros j _. split_and!; try done. lia. Qed.
Lemma same_files_trans c1 c2 c3 d1 d2 d : same_files c1 c2 d1 -> same_files c2 c3 d2 -> (forall j, d j = d1 j + d2 j) -> same_files c1 c3 d.
Proof.
  intros [L1 F1] [L2 F2] Hd. split; [intros j; by rewrite L2|]. intros j Hj. destruct (F1 j Hj) as (A1 & A2 & A3). apply L1 in Hj.
  destruct (F2 j Hj) as (B1 & B2 & B3). rewrite Hd. split_and!; [congruence|congruence|lia].
Qed.

Definition one_more (i v : Z) : Z -> Z := fun j => if decide (j = i) then v else 0.

Lemma i16_id v : short_ok v -> i16 v = v.
Proof.
  intros Hv. rewrite <- (i16_mod v Hv) at 2. unfold i16, signed. change (256 ^ Z.of_nat 2) with (2 ^ 16). by rewrite Z.mod_mod by lia.
Qed.

Lemma cached_short c x : cached B c x -> short_ok (i_type x) /\ short_ok (i_major x) /\ short_ok (i_minor x) /\ short_ok (i_nlink x).
Proof. intros <-. split_and!; apply i16_short. Qed.

Lemma cached_file_ok c x : tree_ok B c -> cached B c x -> live_inum B c (i_inum x) -> file_ok B c x.
Proof.
  intros Ht Hc Hl. destruct (cached_dinode B c x Hc) as (_ & E2 & E3). apply (file_ok_same B c (dinode_at B c (i_inum x))); [done|done|]. by apply Ht.
Qed.

(** The inode [x] of [c] with another link count. *)
Section Relink.
Context (c : Z -> list Z) (x : inode) (v : Z).
Notation i := (i_inum x).
Notation x' := (set_i_nlink v x).
Notation c' := (set_dinode B c i x').
Hypothesis (Ht : tree_ok B c) (Hl : linked B c i) (Hc : cached B c x) (Hnd : i_type x <> T_DIR).
Hypothesis (Hok : block_ok (c (IBLOCK i B))) (Hv : short_ok v) (Hv0 : v <> 0).

Lemma relink_ok : file_ok B c x' /\ dinode_ok x' /\ evolves B c x c x'.
Proof using Hg Ht Hl Hc Hv.
  pose proof (cached_file_ok c x Ht Hc (proj1 Hl)) as F. assert (F' : file_ok B c x') by (by apply (file_ok_same B c x)).
  split; [done|]. split; [|by destruct (evolves_refl B c x)].
  destruct (cached_short c x Hc) as (H1 & H2 & H3 & _). pose proof (fo_size _ _ _ F) as Hs. change (MAXFILE * BSIZE) with 274432 in Hs.
  unfold dinode_ok. split_and!; try done; [apply Hs|cbn; lia|apply F|by apply (file_addrs B Hg c)].
Qed.

Lemma relink_tree : tree_ok B c'.
Proof using Hg Ht Hl Hc Hnd Hok Hv Hv0. destruct relink_ok as (F & Hd & Hev). apply (chg_tree B Hg c c x x'); done. Qed.

Lemma relink_itab T ip : itab_ok B c T -> T !! ip = Some x -> 0 < i_ref x -> itab_ok B c' (<[ip := x']> T).
Proof using Hg Ht Hl Hc Hok Hv Hv0. destruct relink_ok as (F & Hd & Hev). intros. by apply (chg_itab B Hg c c x x'). Qed.

Lemma relink_same : same_files c c' (one_more i (v - i_nlink x)).
Proof using Hg Ht Hl Hc Hok Hv Hv0.
  destruct relink_ok as (F & Hd & Hev). split; [intros j; by apply (chg_live B Hg c c x x')|]. intros j Hj. unfold one_more.
  destruct (decide (j = i)) as [->|Hne].
  - destruct (chg_self B Hg c c x x') as [E1 E2]; try done. destruct (cached_dinode B c x Hc) as (C1 & C2 & C3). rewrite E2, E1. cbn [i_type i_nlink with_dinode set_i_nlink].
    assert (Hn : i_nlink x = i_nlink (dinode_at B c i)) by (by rewrite <- Hc at 1). split_and!; [done| |lia].
    etrans; [apply (same_bytes B c c' x' F)|by apply file_bytes_same]. intros b [Hb [->|(bn & Hbn & <-)]]; apply (dinode_data B Hg); try apply Hl; by apply F.
  - destruct (chg_other B Hg c c x x') with (j := j) as [E1 E2]; try done. rewrite E2, E1. split_and!; try done. lia.
Qed.

End Relink.

Lemma busy_nlink s T K c G H ip x v : busy s T K c G H (Some ip) -> T !! ip = Some x -> (ip, i_inum x) ∈ H -> cached B c x -> i_dev x = ROOTDEV ->
  linked B c (i_inum x) -> i_type x <> T_DIR -> short_ok (i_nlink x + v) -> i_nlink x + v <> 0 -> IBLOCK (i_inum x) B ∈ G ->
  runs (add_nlink ip v) s e (fun _ s1 => runs (iupdate ip) s1 e (fun _ s' => exists T' c', busy s' T' K c' G H (Some ip) /\
    same_files c c' (one_more (i_inum x) v) /\ forall b, 0 <= b < sb_size B -> used B c' b = used B c b)).
Proof.
  intros Bz Hx Hin Hc Hd Hl Hnd Hv Hv0 HG. destruct (busy_entry _ _ _ _ _ _ _ _ _ Bz Hin) as (y & Hy & _ & Hr & _). replace y with x in * by congruence. clear Hy.
  pose proof (bz_fsx _ _ _ _ _ _ _ Bz) as X. pose proof (bz_tree _ _ _ _ _ _ _ Bz) as Ht. pose proof (lookup_lt_Some _ _ _ Hx) as Hlt.
  set (x' := set_i_nlink (i_nlink x + v) x). assert (Hset : <[ip := set_i_nlink (i16 (i_nlink x + v)) x]> T = <[ip := x']> T) by (by rewrite i16_id).
  unfold add_nlink. eapply runs_mono; [by apply (inodeset_runs B s0 s T _ c ∅ G ip x _ e X Hx)|]. cbn beta. rewrite Hset. intros _ s1 X1.
  assert (HGi : {[IBLOCK (i_inum x') B]} ∪ G = G) by (change (i_inum x') with (i_inum x); set_solver).
  eapply runs_mono; [apply (iupdate_runs B Hg s0 HB s1 (<[ip := x']> T) _ c ∅ G ip x' e X1); try done|].
  - by apply list_lookup_insert_eq.
  - split; [done|]. apply Hl.
  - apply (fo_len _ _ _ (cached_file_ok c x Ht Hc (proj1 Hl))).
  - rewrite map_size_empty. lia.
  - rewrite HGi. apply X1.
  - cbn beta. rewrite HGi. change (i_inum x') with (i_inum x). intros _ s' X'. assert (Hbk : block_ok (c (IBLOCK (i_inum x) B))) by (by eapply fsx_block).
    exists (<[ip := x']> T), (set_dinode B c (i_inum x) x'). split_and!.
    + eapply (busy_move s T K c G H (Some ip) s' _ K _ G H (Some ip) (fun j => if decide (j = ip) then i_ref x' - i_ref x else 0) Bz X').
      * by apply relink_tree.
      * apply relink_itab; try done. apply Bz.
      * apply Bz.
      * apply grants_update; [done|lia|done].
      * intros j. change (i_ref x') with (i_ref x). case_decide; lia.
      * intros ip' i' ?. by left.
    + pose proof (relink_same c x (i_nlink x + v) Ht Hl Hc Hbk Hv Hv0) as Hs. by replace (i_nlink x + v - i_nlink x) with v in Hs by lia.
    + intros b Hb. apply (dinode_used B Hg); [apply Hl|done].
Qed.

(** ** A directory rewritten *)

Lemma undo_dinode c1 i y x' : is_inum B i -> file_ok B (set_dinode B c1 i y) x' -> file_ok B c1 x'.
Proof.
  intros Hi F. assert (Ha : forall bn, addr c1 x' bn = addr (set_dinode B c1 i y) x' bn).
  { intros bn. apply addr_ext; [done|done|]. intros H. symmetry. apply (dinode_data B Hg); [done|]. by apply F. }
  apply (file_ok_ext B (set_dinode B c1 i y) x'); [done|apply F|apply F|done|intros; apply Ha|apply F|].
  intros b Hb Hu. pose proof (data_range B Hg b Hb). by rewrite (dinode_used B Hg) in Hu by (done || lia).
Qed.

Lemma evolves_iblock c x c1 x' i : is_inum B i -> evolves B c x c1 x' -> c1 (IBLOCK i B) = c (IBLOCK i B).
Proof.
  intros Hi Hev. pose proof (IBLOCK_range B Hg i Hi). pose proof (layout_order B Hg). apply (ex_rest _ _ _ _ _ _ Hev).
  - unfold is_data. lia.
  - intros (b & Hb & E). pose proof (BBLOCK_range B Hg b Hb). lia.
Qed.

Section Redir.
Context (c c1 : Z -> list Z) (x x' : inode).
Notation i := (i_inum x).
Notation c' := (set_dinode B c1 i x').
Hypothesis (Ht : tree_ok B c) (Hl : linked B c i) (Hc : cached B c x) (Hev : evolves B c x c1 x') (F' : file_ok B c' x').
Hypothesis (Hok : block_ok (c (IBLOCK i B))) (Hx' : exists n a, x' = set_i_size n (set_i_addrs a x)).
Hypothesis (Hsz : i_size x' mod DIRENT_SIZE = 0) (Hby : Forall byte_ok (file_bytes c' x')).
Hypothesis (Hde : forall de, de ∈ dirents (file_bytes c' x') -> de_inum de <> 0 -> linked B c (de_inum de)).

Lemma redir_ok : file_ok B c1 x' /\ block_ok (c1 (IBLOCK i B)) /\ dinode_ok x' /\ i_type x' = i_type x /\ i_nlink x' = i_nlink x /\ i_nlink x' <> 0.
Proof using Hg Hl Hc Hev F' Hok Hx'.
  pose proof (undo_dinode c1 i x' x' (proj1 (proj1 Hl)) F') as F1. split; [done|]. split; [by rewrite (evolves_iblock c x c1 x') by (done || apply Hl)|].
  destruct (cached_short c x Hc) as (H1 & H2 & H3 & H4). pose proof (fo_size _ _ _ F1) as Hs. change (MAXFILE * BSIZE) with 274432 in Hs.
  pose proof (file_addrs B Hg c1 x' F1) as Ha. pose proof (fo_len _ _ _ F1) as Hlen. destruct Hl as [_ Hn].
  assert (Hnl : i_nlink x = i_nlink (dinode_at B c i)) by (by rewrite <- Hc at 1). destruct Hx' as (n & a & E). rewrite E in Hs, Ha, Hlen |- *.
  split; [|split; [done|]; split; [done|]; cbn; congruence]. unfold dinode_ok. cbn in *. split_and!; try done; lia.
Qed.

Lemma redir_tree : tree_ok B c'.
Proof using Hg Ht Hl Hc Hev F' Hok Hx' Hsz Hby Hde. destruct redir_ok as (F1 & Hb & Hd & E1 & E2 & E3). by apply (chg_tree B Hg c c1 x x'). Qed.

Lemma redir_itab T ip : itab_ok B c T -> T !! ip = Some x -> 0 < i_ref x -> itab_ok B c' (<[ip := x']> T).
Proof using Hg Ht Hl Hc Hev F' Hok Hx'.
  destruct redir_ok as (F1 & Hb & Hd & E1 & E2 & E3). intros. apply (chg_itab B Hg c c1 x x'); try done; clear Hsz Hby Hde; destruct Hx' as (n & a & E); by rewrite E.
Qed.

Lemma redir_live j : live_inum B c' j <-> live_inum B c j.
Proof using Hg Hl Hc Hev F' Hok Hx'. destruct redir_ok as (F1 & Hb & Hd & E1 & E2 & E3). by apply (chg_live B Hg c c1 x x'). Qed.

Lemma redir_file j : live_inum B c j -> i_type (dinode_at B c' j) = i_type (dinode_at B c j) /\ i_nlink (dinode_at B c' j) = i_nlink (dinode_at B c j) /\
  (j <> i -> file_bytes c' (dinode_at B c' j) = file_bytes c (dinode_at B c j)).
Proof using Hg Ht Hl Hc Hev F' Hok Hx'.
  destruct redir_ok as (F1 & Hb & Hd & E1 & E2 & E3). intros Hj. destruct (decide (j = i)) as [->|Hne].
  - destruct (chg_self B Hg c c1 x x') as [-> _]; try done. cbn [i_type i_nlink with_dinode]. rewrite E1, E2.
    destruct (cached_dinode B c x Hc) as (<- & _ & _). assert (Hn : i_nlink x = i_nlink (dinode_at B c i)) by (by rewrite <- Hc at 1). by rewrite <- Hn.
  - destruct (chg_other B Hg c c1 x x') with (j := j) as [-> Hbs]; try done.
Qed.

Lemma redir_bytes : file_bytes c' (dinode_at B c' i) = file_bytes c' x'.
Proof using Hg Ht Hl Hc Hev F' Hok Hx'. destruct redir_ok as (F1 & Hb & Hd & E1 & E2 & E3). by apply (chg_self B Hg c c1 x x'). Qed.

End Redir.

(** The directory [d] has got the name [nm], for inode [i]; nothing else changed. *)
Record added c c' (d : Z) (nm : list Z) (i : Z) : Prop := mkadded {
  ad_absent : dir_find nm (dir_of B c d) 0 = None;
  ad_live : forall j, live_inum B c' j <-> live_inum B c j;
  ad_file : forall j, live_inum B c j -> i_type (dinode_at B c' j) = i_type (dinode_at B c j) /\ i_nlink (dinode_at B c' j) = i_nlink (dinode_at B c j) /\
    (j <> d -> file_bytes c' (dinode_at B c' j) = file_bytes c (dinode_at B c j));
  ad_dir : exists off, forall nm', dir_find nm' (dir_of B c' d) 0 = if decide (nm' = nm) then Some (i, off) else dir_find nm' (dir_of B c d) 0
}.

(** Why a name cannot be added. *)
Definition no_entry c c' (d : Z) (nm : list Z) : Prop :=
  dir_find nm (dir_of B c d) 0 <> None \/ Z.of_nat (length (file_bytes c (dinode_at B c d))) = MAXFILE * BSIZE \/ full B c'.

Section DirlinkStep.
Context (s : kstate) (T : list inode) (K : nat -> sleeplock) (c : Z -> list Z) (G : gset Z) (H : list (nat * Z)) (dp : nat) (x : inode) (name : list Z) (inum : Z).
Notation d := (i_inum x).
Hypothesis (Bz : busy s T K c G H (Some dp)) (Hx : T !! dp = Some x) (Hin : (dp, d) ∈ H) (Hc : cached B c x) (Hd : i_dev x = ROOTDEV).
Hypothesis (Hl : linked B c d) (Hty : i_type x = T_DIR) (HG : IBLOCK d B ∈ G) (Hbm : bitmap_in B G) (Hbud : budget B 1 G x).
Hypothesis (Hfree : exists a y, T !! a = Some y /\ i_ref y = 0) (Hname : Forall byte_ok name) (Hinum : linked B c inum).

Lemma step_ref : 0 < i_ref x.
Proof using Hok0 Bz Hin Hx. destruct (busy_entry _ _ _ _ _ _ _ _ _ Bz Hin) as (y & Hy & _ & Hr & _). by replace x with y by congruence. Qed.

Lemma step_block : block_ok (c (IBLOCK d B)).
Proof using Bz. eapply fsx_block, Bz. Qed.

(** The table and the tree after a write of the directory. *)
Lemma step_busy s' c1 x' G' : fsx s' (<[dp := x']> T) (lock_taken s0 K dp) (set_dinode B c1 d x') ∅ G' -> evolves B c x c1 x' -> file_ok B (set_dinode B c1 d x') x' ->
  (exists n a, x' = set_i_size n (set_i_addrs a x)) -> i_size x' mod DIRENT_SIZE = 0 -> Forall byte_ok (file_bytes (set_dinode B c1 d x') x') ->
  (forall de, de ∈ dirents (file_bytes (set_dinode B c1 d x') x') -> de_inum de <> 0 -> linked B c (de_inum de)) ->
  busy s' (<[dp := x']> T) K (set_dinode B c1 d x') G' H (Some dp).
Proof using Hg Hok0 Bz Hx Hin Hc Hl.
  intros X' Hev F' Hx' Hsz Hby Hde. pose proof step_ref as Hr. pose proof (bz_tree _ _ _ _ _ _ _ Bz) as Ht. pose proof step_block as Hbk.
  assert (Eref : i_ref x' = i_ref x /\ i_inum x' = d) by (by destruct Hx' as (n & a & ->)). destruct Eref as [Eref Einum].
  eapply (busy_move s T K c G H (Some dp) s' _ K _ G' H (Some dp) (fun j => if decide (j = dp) then i_ref x' - i_ref x else 0) Bz X').
  - by apply (redir_tree c c1 x x').
  - apply (redir_itab c c1 x x'); try done. apply Bz.
  - apply Bz.
  - apply grants_update; [done|lia|]. intros _ _. split; [done|]. by destruct Hx' as (n & a & ->).
  - intros j. case_decide; lia.
  - intros ip' i' ?. by left.
Qed.

Definition step_failed (s' : kstate) : Prop := exists T' c' G', busy s' T' K c' G' H (Some dp) /\ G ⊆ G' /\ same_files c c' (fun _ => 0) /\ no_entry c c' d (fname name).
Definition step_added (s' : kstate) : Prop := exists T' c' G', busy s' T' K c' G' H (Some dp) /\ G ⊆ G' /\ added c c' d (fname name) inum.

Lemma step_read : dir_read B T c dp x /\ dirents (file_bytes c x) = dir_of B c d /\ file_bytes c x = file_bytes c (dinode_at B c d).
Proof using Bz Hx Hc Hd Hl Hty.
  destruct (linked_dir_read B c T dp x (bz_tree _ _ _ _ _ _ _ Bz) Hx Hc Hl Hd Hty) as [R E]. split_and!; try done.
  destruct (cached_dinode B c x Hc) as (_ & E2 & E3). by apply file_bytes_same.
Qed.

Lemma step_full s' : link_full B s0 T (lock_taken s0 K dp) c G dp x s' -> step_failed s'.
Proof using Hg Hok0 Bz Hx Hin Hc Hd Hl Hty HG Hbud.
  destruct step_read as (R & Edes & Eby). pose proof (bz_tree _ _ _ _ _ _ _ Bz) as Ht. destruct (cached_dinode B c x Hc) as (Ety & Esz & _).
  intros [X' Hsz|c' x' G' c1 X' Hsub F' Hfull Hev -> Hx' Hby].
  - exists T, c, G. split; [|split; [done|split; [apply same_files_refl|right; left]]].
    + by destruct Bz; split.
    + rewrite <- Eby, (proj1 (dir_length B T c dp x R)), Hsz. by apply Z2Nat.id.
  - exists (<[dp := x']> T), (set_dinode B c1 d x'), G'. assert (Hex : exists n a, x' = set_i_size n (set_i_addrs a x)).
    { exists (i_size x), (i_addrs x'). rewrite Hx' at 1. by destruct x. }
    assert (Hbx : Forall byte_ok (file_bytes (set_dinode B c1 d x') x')) by (rewrite Hby; apply R).
    split; [|split; [done|split; [|right; by right]]].
    + apply step_busy; try done; [rewrite Hx'; exact (dr_size _ _ _ _ _ R)|]. rewrite Hby, Edes. intros de Hde. by apply (tr_entry _ _ Ht d); [|congruence|].
    + split; [intros j; by apply (redir_live c c1 x x' Hl Hc Hev F' step_block Hex)|]. intros j Hj.
      destruct (redir_file c c1 x x' Ht Hl Hc Hev F' step_block Hex j Hj) as (E1 & E2 & E3). split_and!; [done| |lia].
      destruct (decide (j = d)) as [->|Hne]; [|by apply E3]. rewrite (redir_bytes c c1 x x' Ht Hl Hc Hev F' step_block Hex), Hby. done.
Qed.

Lemma step_link s' c' x' G' : fsx s' (<[dp := x']> T) (lock_taken s0 K dp) c' ∅ G' -> link_added B c G x name inum c' x' G' ->
  dir_find (fname name) (dir_of B c d) 0 = None -> step_added s'.
Proof using Hg Hok0 Bz Hx Hin Hc Hd Hl Hty Hname Hinum.
  destruct step_read as (R & Edes & Eby). pose proof (bz_tree _ _ _ _ _ _ _ Bz) as Ht. intros X' [F' (c1 & Hev & ->) Hx' Hent Hby Hsub] Hno.
  assert (Hi : 0 < inum < 2 ^ 16) by (destruct Hinum as [[Hi _] _]; unfold is_inum in Hi; pose proof (g_ninodes _ Hg); lia).
  exists (<[dp := x']> T), (set_dinode B c1 d x'), G'. assert (Hex : exists n a, x' = set_i_size n (set_i_addrs a x)) by (eexists _, _; exact Hx').
  split; [|split; [done|split]].
  - apply step_busy; try done.
    + rewrite Hx'. cbn [i_size set_i_size]. pose proof (dr_size _ _ _ _ _ R) as Hm. change DIRENT_SIZE with 16 in *.
      rewrite Z.max_comm. pose proof (Z.div_mod (i_size x) 16 ltac:(done)) as Hdm. rewrite Hm in Hdm.
      destruct (Z.max_spec (16 * Z.of_nat (free_slot (dirents (file_bytes c x))) + 16) (i_size x)) as [[_ ->]|[_ ->]]; [done|].
      replace (16 * _ + 16) with ((Z.of_nat (free_slot (dirents (file_bytes c x))) + 1) * 16) by lia. by apply Z.mod_mul.
    + rewrite Hby. unfold splice. repeat (apply Forall_app; split); [apply Forall_take, R|apply le_bytes_ok|apply Forall_take, cstr_byte, Hname|apply Forall_replicate; unfold byte_ok; lia|apply Forall_drop, R].
    + rewrite Hent, Edes. intros de [->|Hde]%put_entry_in Hz; [by rewrite link_entry_inum by lia|].
      apply (tr_entry _ _ Ht d); try done. by rewrite <- (proj1 (cached_dinode B c x Hc)).
  - done.
  - intros j. by apply (redir_live c c1 x x' Hl Hc Hev F' step_block Hex).
  - intros j Hj. by apply (redir_file c c1 x x' Ht Hl Hc Hev F' step_block Hex).
  - exists (DIRENT_SIZE * Z.of_nat (free_slot (dir_of B c d))). intros nm'. unfold dir_of at 1.
    rewrite (redir_bytes c c1 x x' Ht Hl Hc Hev F' step_block Hex), Hent, Edes. apply dir_find_put; [lia|done].
Qed.

Lemma busy_dirlink : runs (dirlink dp name inum) s e (fun r s' => (r = -1 /\ step_failed s') \/ (r = 0 /\ step_added s')).
Proof.
  destruct step_read as (R & Edes & Eby). pose proof (bz_tree _ _ _ _ _ _ _ Bz) as Ht. destruct (cached_dinode B c x Hc) as (Ety & _ & _).
  assert (Hi : 0 < inum < 2 ^ 16) by (destruct Hinum as [[Hi _] _]; unfold is_inum in Hi; pose proof (g_ninodes _ Hg); lia).
  eapply runs_mono; [apply (dirlink_runs B Hg s0 HB Hpan Hopen T (lock_taken s0 K dp) c G dp x e R) with (name := name) (inum := inum); try done|].
  - split; [done|apply Hl].
  - apply Ht.
  - apply Bz.
  - rewrite Edes. intros de Hde. by apply (tr_entry _ _ Ht d); [|congruence|].
  - apply Bz.
  - unfold link_post. rewrite Edes. intros r s'. destruct (dir_find (fname name) (dir_of B c d) 0) as [q|] eqn:Ef.
    + intros (-> & T' & X' & Ok' & G'). left. split; [done|]. exists T', c, G. split; [|split; [done|split; [apply same_files_refl|left; by rewrite Ef]]].
      eapply (busy_move s T K c G H (Some dp) s' _ K _ G H (Some dp) (fun _ => 0) Bz X'); try done; [apply Bz|intros; lia|]. intros ip' i' ?. by left.
    + intros [[-> Hf]|(-> & c' & x' & G' & X' & Ha)]; [left|right]; (split; [done|]); [by apply step_full|by eapply step_link].
Qed.

End DirlinkStep.

Lemma same_linked_files c c' d j : same_files c c' d -> linked B c j -> i_nlink (dinode_at B c j) + d j <> 0 -> linked B c' j.
Proof. intros [Hl Hf] [Hj _] Hn. destruct (Hf j Hj) as (_ & _ & E). split; [by apply Hl|]. by rewrite E. Qed.

(** ** The paths of [sys_link] *)

(** The link count is put back. *)
Lemma link_bad_runs s T K c G ip i Q : busy s T K c G [(ip, i)] None -> linked B c i -> i_type (dinode_at B c i) <> T_DIR ->
  1 < i_nlink (dinode_at B c i) -> IBLOCK i B ∈ G ->
  (forall s' T' K' c', busy s' T' K' c' G [] None -> same_files c c' (one_more i (-1)) -> (forall b, 0 <= b < sb_size B -> used B c' b = used B c b) ->
    runs (end_op;; mret (-1)) s' e Q) -> runs (link_bad ip) s e Q.
Proof.
  intros Bz Hl Hty Hn HG Hend. unfold link_bad. apply runs_bind. eapply runs_mono; [eapply busy_lock; [exact Bz|by left]|].
  cbn beta. intros _ s1 (T1 & x & B1 & Hx & Hi & Hr & Hc & Hd). subst i. destruct (cached_dinode B c x Hc) as (Ety & _ & _).
  assert (En : i_nlink x = i_nlink (dinode_at B c (i_inum x))) by (by rewrite <- Hc at 1). destruct (cached_short c x Hc) as (_ & _ & _ & Hsh).
  apply runs_bind. eapply runs_mono; [apply (busy_nlink s1 T1 K c G _ ip x (-1) B1 Hx); try done; [by left|congruence|unfold short_ok in *; lia|lia]|].
  cbn beta. intros _ s2 H2. apply runs_bind. eapply runs_mono; [exact H2|]. cbn beta. intros _ s3 (T3 & c3 & B3 & S3 & U3).
  apply runs_bind. eapply runs_mono; [apply (busy_unlockput s3 T3 K c3 G [] ip (i_inum x) B3)|].
  { apply (same_linked_files c c3 _ _ S3 Hl). unfold one_more. rewrite decide_True by done. lia. }
  cbn beta. intros _ s4 (T4 & K4 & B4). by apply (Hend s4 T4 K4 c3).
Qed.

(** What [link] did: directory [d] has the new name [nm], inode [i] one more link. *)
Record link_made c c' (d : Z) (nm : list Z) (i : Z) : Prop := mklink_made {
  lm_absent : dir_find nm (dir_of B c d) 0 = None;
  lm_live : forall j, live_inum B c' j <-> live_inum B c j;
  lm_file : forall j, live_inum B c j -> i_type (dinode_at B c' j) = i_type (dinode_at B c j) /\ i_nlink (dinode_at B c' j) = i_nlink (dinode_at B c j) + one_more i 1 j /\
    (j <> d -> file_bytes c' (dinode_at B c' j) = file_bytes c (dinode_at B c j));
  lm_dir : exists off, forall nm', dir_find nm' (dir_of B c' d) 0 = if decide (nm' = nm) then Some (i, off) else dir_find nm' (dir_of B c d) 0
}.

Section Body.
Context (c : Z -> list Z) (Ht : tree_ok B c) (Hfree : three_free T0) (old new : list Z) (i0 i1 : Z) (G : gset Z).
Hypothesis (Ho : starts_at s0 T0 old i0) (Hn : starts_at s0 T0 new i1) (Hl0 : linked B c i0) (Hl1 : linked B c i1).
Hypothesis (Hbo : Forall byte_ok old) (Hbn : Forall byte_ok new).
Notation eo := (path_elems old).
Notation en := (path_elems new).

(** Why [link] fails: the file is missing or a directory, the new directory is missing,
    or the name cannot be added. *)
Definition link_fails c' : Prop :=
  resolve B c false i0 eo = None \/ (exists i, resolve B c false i0 eo = Some i /\ i_type (dinode_at B c i) = T_DIR) \/
  resolve B c true i1 en = None \/ (exists d nm, resolve B c true i1 en = Some d /\ last en = Some nm /\ no_entry c c' d nm).

Definition link_outcome (r : Z) c' : Prop :=
  (r = -1 /\ same_files c c' (fun _ => 0) /\ link_fails c') \/
  (r = 0 /\ exists i d nm, resolve B c false i0 eo = Some i /\ i_type (dinode_at B c i) <> T_DIR /\ resolve B c true i1 en = Some d /\ last en = Some nm /\ link_made c c' d nm i).

Context (Q : Z -> kstate -> Prop).
Hypothesis (Hend : forall r s' T' K' c' G', busy s' T' K' c' G' [] None -> link_outcome r c' -> runs (end_op;; mret r) s' e Q).

(** The blocks that may be logged: the bitmap, the two inodes, and two more. *)
Hypothesis (Hbm : bitmap_in B G) (Hsp : spare (sb_nlog B) 2 G).

Lemma same_resolve c1 d par es : same_files c c1 d -> forall j, linked B c j -> resolve B c1 par j es = resolve B c par j es.
Proof using Ht.
  intros [_ Hf]. apply resolve_same; [done|]. intros j [Hj _]. destruct (Hf j Hj) as (E1 & E2 & _). split; [done|]. intros _. unfold dir_of. by rewrite E2.
Qed.

(** After the count of inode [i] was raised. *)
Section Raised.
Context (s : kstate) (T : list inode) (K : nat -> sleeplock) (c1 : Z -> list Z) (ip : nat) (i : Z).
Hypothesis (Bz : busy s T K c1 G [(ip, i)] None) (S1 : same_files c c1 (one_more i 1)) (Hi : resolve B c false i0 eo = Some i).
Hypothesis (Hli : linked B c i) (Hty : i_type (dinode_at B c i) <> T_DIR) (Hnl : 0 < i_nlink (dinode_at B c i)) (HGi : IBLOCK i B ∈ G).

(** A view with the count of [i] raised and the tree as it was. *)
Definition raised c2 : Prop := same_files c c2 (one_more i 1).

Lemma raised_facts c2 : raised c2 -> linked B c2 i /\ i_type (dinode_at B c2 i) <> T_DIR /\ 1 < i_nlink (dinode_at B c2 i).
Proof using Hli Hty Hnl.
  intros R. destruct (sf_file _ _ _ R i (proj1 Hli)) as (E1 & _ & E3). unfold one_more in E3. rewrite decide_True in E3 by done.
  split; [apply (same_linked_files c c2 _ i R Hli); unfold one_more; rewrite decide_True by done; lia|]. split; [by rewrite E1|lia].
Qed.

Lemma fail_back s2 T2 K2 c2 G2 : busy s2 T2 K2 c2 G2 [(ip, i)] None -> raised c2 -> G ⊆ G2 ->
  (forall c3, (forall b, 0 <= b < sb_size B -> used B c3 b = used B c2 b) -> link_fails c3) -> runs (link_bad ip) s2 e Q.
Proof using Hg HB Hpan Hopen Hok0 Hend Hli Hty Hnl HGi.
  intros B2 R2 Hsub Hf. destruct (raised_facts c2 R2) as (H1 & H2 & H3). apply (link_bad_runs s2 T2 K2 c2 G2 ip i Q B2 H1 H2 H3); [exact (Hsub _ HGi)|].
  intros s3 T3 K3 c3 B3 S3 U3. eapply Hend; [exact B3|]. left. split; [done|]. split; [|by apply Hf].
  eapply same_files_trans; [exact R2|exact S3|]. intros j. unfold one_more. case_decide; lia.
Qed.

Lemma no_entry_back c2 c3 d nm : linked B c d -> no_entry c1 c2 d nm -> (forall b, 0 <= b < sb_size B -> used B c3 b = used B c2 b) -> no_entry c c3 d nm.
Proof using S1.
  intros Hd Hne Hu. destruct (sf_file _ _ _ S1 d (proj1 Hd)) as (_ & E & _). unfold no_entry, dir_of in *. rewrite E in Hne.
  destruct Hne as [?|[?|Hfu]]; [by left|right; by left|right; right]. intros b Hb. rewrite Hu by done. by apply Hfu.
Qed.

Lemma made_from c2 d nm : linked B c d -> added c1 c2 d nm i -> link_made c c2 d nm i.
Proof using S1.
  intros Hd [A1 A2 A3 A4]. destruct (sf_file _ _ _ S1 d (proj1 Hd)) as (_ & E & _). assert (Ed : dir_of B c1 d = dir_of B c d) by (unfold dir_of; by rewrite E).
  rewrite Ed in A1. split; [done| | |destruct A4 as [off A4]; exists off; intros nm'; by rewrite A4, Ed].
  - intros j. rewrite A2. apply (sf_live _ _ _ S1).
  - intros j Hj. destruct (sf_file _ _ _ S1 j Hj) as (E1 & E2 & E3). destruct (A3 j) as (F1 & F2 & F3); [by apply (sf_live _ _ _ S1)|].
    split_and!; [congruence|congruence|]. intros Hne. rewrite F3 by done. done.
Qed.

(** With the directory [d] of the new name locked. *)
Lemma link_locked s2 T2 K2 dp x nm name : busy s2 T2 K2 c1 G [(dp, i_inum x); (ip, i)] (Some dp) -> T2 !! dp = Some x -> cached B c1 x -> i_dev x = ROOTDEV ->
  resolve B c true i1 en = Some (i_inum x) -> last en = Some nm -> fname name = nm -> Forall byte_ok name -> IBLOCK (i_inum x) B ∈ G ->
  runs (d ← inodeget dp; y ← inodeget ip; r ← (if negb (i_dev d =? i_dev y) then mret (-1) else dirlink dp name (i_inum y));
        if r <? 0 then iunlockput dp;; link_bad ip else iunlockput dp;; iput ip;; end_op;; mret 0) s2 e Q.
Proof.
  intros B2 Hx Hc Hd Hres Hlast Hfn Hby HG. pose proof (resolve_linked B c Ht true en i1 _ Hl1 Hres) as Hld. destruct (resolve_parent B c en i1 _ Hres) as (_ & _ & Hdt & _).
  set (d := i_inum x) in *. pose proof (raised_facts c1 S1) as (Hli1 & _ & _).
  assert (Hne : d <> i) by (intros E; rewrite E in Hdt; done).
  assert (Hld1 : linked B c1 d) by (apply (same_linked_files c c1 _ d S1 Hld); unfold one_more; rewrite decide_False by done; rewrite Z.add_0_r; apply Hld).
  destruct (busy_entry _ _ _ _ _ _ _ ip i B2 ltac:(right; by left)) as (y & Hy & Hyi & Hyr & _). destruct (it_on _ _ _ (bz_tab _ _ _ _ _ _ _ B2) ip y Hy Hyr) as [Hyd _].
  eapply wp_inodeget; [apply (bz_fsx _ _ _ _ _ _ _ B2)|exact Hx|]. eapply wp_inodeget; [apply (bz_fsx _ _ _ _ _ _ _ B2)|exact Hy|].
  rewrite Hd, Hyd, Z.eqb_refl, Hyi. cbn [negb]. apply runs_bind.
  assert (Hdx : i_type x = T_DIR) by (rewrite (proj1 (cached_dinode B c1 x Hc)); destruct (sf_file _ _ _ S1 d (proj1 Hld)) as (E & _); fold d; congruence).
  eapply runs_mono; [apply (busy_dirlink s2 T2 K2 c1 G _ dp x name i B2 Hx); try done; [by left|by right|by eapply one_left]|].
  cbn beta. intros r s3 [(-> & T3 & c3 & G3 & B3 & HG3 & S3 & Hno)|(-> & T3 & c3 & G3 & B3 & HG3 & A3)].
  - change (-1 <? 0) with true. cbn iota. assert (R3 : raised c3) by (eapply same_files_trans; [exact S1|exact S3|]; intros j; cbv beta; lia).
    assert (Hld3 : linked B c3 d) by (apply (same_linked_files c1 c3 _ d S3 Hld1); rewrite Z.add_0_r; apply Hld1).
    apply runs_bind. eapply runs_mono; [by eapply busy_unlockput|]. cbn beta. intros _ s4 (T4 & K4 & B4).
    apply (fail_back s4 T4 K4 c3 G3 B4 R3 HG3). intros c4 U4. right. right. right. exists d, nm. split_and!; try done. rewrite <- Hfn. by apply (no_entry_back c3).
  - change (0 <? 0) with false. cbn iota. assert (Hl3 : forall j, linked B c1 j -> linked B c3 j).
    { intros j [Hj Hjn]. destruct (ad_file _ _ _ _ _ A3 j Hj) as (_ & E & _). split; [by apply (ad_live _ _ _ _ _ A3)|by rewrite E]. }
    apply runs_bind. eapply runs_mono; [eapply busy_unlockput; [exact B3|by apply Hl3]|]. cbn beta. intros _ s4 (T4 & K4 & B4).
    apply runs_bind. eapply runs_mono; [eapply busy_put; [exact B4|by apply Hl3]|]. cbn beta. intros _ s5 (T5 & B5).
    eapply Hend; [exact B5|]. right. split; [done|]. exists i, d, nm. rewrite Hfn in A3. split_and!; try done. by apply made_from.
Qed.

Lemma link_raised : (forall d, resolve B c true i1 en = Some d -> IBLOCK d B ∈ G) ->
  runs ('(dp, name) ← nameiparent new;
        match dp with
        | None => link_bad ip
        | Some dp =>
            ilock (Some dp);; d ← inodeget dp; y ← inodeget ip; r ← (if negb (i_dev d =? i_dev y) then mret (-1) else dirlink dp name (i_inum y));
            if r <? 0 then iunlockput dp;; link_bad ip else iunlockput dp;; iput ip;; end_op;; mret 0
        end) s e Q.
Proof.
  intros HGd. apply runs_bind. assert (Hl1' : linked B c1 i1).
  { apply (same_linked_files c c1 _ i1 S1 Hl1). destruct Hl1 as [_ H]. unfold one_more. case_decide as E; [subst; lia|lia]. }
  eapply runs_mono; [apply (busy_walk s T K c1 G _ true new i1 Bz); try done; by eapply two_left|]. rewrite (same_resolve c1 _ true en S1 i1 Hl1).
  cbn beta. intros [dp name] s2 W. destruct (resolve B c true i1 en) as [d|] eqn:Er.
  - destruct W as (dp' & T2 & K2 & E & B2 & Hnm). cbn [fst snd] in *. subst dp. destruct (Hnm eq_refl) as [Hlast Hby].
    apply runs_bind. eapply runs_mono; [eapply busy_lock; [exact B2|by left]|]. cbn beta. intros _ s3 (T3 & x & B3 & Hx & Hi' & Hr & Hc & Hd). subst d.
    by eapply (link_locked s3 T3 K2 dp' x (fname name)); eauto.
  - destruct W as (E & T2 & K2 & B2). cbn [fst] in E. subst dp. apply (fail_back s2 T2 K2 c1 G B2 S1); [done|]. intros c3 _. right. right. by left.
Qed.

End Raised.

(** [sys_link] after [begin_op]. *)
Lemma link_body s T K : busy s T K c G [] None -> two_free T ->
  (forall i, resolve B c false i0 eo = Some i -> IBLOCK i B ∈ G /\ 0 < i_nlink (dinode_at B c i) < 32767) ->
  (forall d, resolve B c true i1 en = Some d -> IBLOCK d B ∈ G) ->
  runs (found ← namei old;
        match found with
        | None => end_op;; mret (-1)
        | Some ip =>
            ilock (Some ip);; x ← inodeget ip;
            if i_type x =? T_DIR then iunlockput ip;; end_op;; mret (-1) else
            add_nlink ip 1;; iupdate ip;; iunlock (Some ip);;
            '(dp, name) ← nameiparent new;
            match dp with
            | None => link_bad ip
            | Some dp =>
                ilock (Some dp);; d ← inodeget dp; x ← inodeget ip;
                r ← (if negb (i_dev d =? i_dev x) then mret (-1) else dirlink dp name (i_inum x));
                if r <? 0 then iunlockput dp;; link_bad ip else iunlockput dp;; iput ip;; end_op;; mret 0
            end
        end) s e Q.
Proof.
  intros Bz Hf2 HGi HGd. apply runs_bind. unfold namei. apply runs_bind. eapply runs_mono; [by apply (busy_walk s T K c G [] false old i0 Bz)|].
  cbn beta. intros [o nm] s1 W. apply runs_ret. destruct (resolve B c false i0 eo) as [i|] eqn:Er; cbn [fst] in W.
  2: { destruct W as (-> & T1 & K1 & B1). eapply Hend; [exact B1|]. left. split; [done|]. split; [apply same_files_refl|by left]. }
  destruct W as (ip & T1 & K1 & -> & B1 & _). pose proof (resolve_linked B c Ht false eo i0 i Hl0 Er) as Hli. destruct (HGi i eq_refl) as [HG Hnl].
  apply runs_bind. eapply runs_mono; [eapply busy_lock; [exact B1|by left]|]. cbn beta. intros _ s2 (T2 & x & B2 & Hx & Hi & Hr & Hc & Hd). subst i.
  eapply wp_inodeget; [apply (bz_fsx _ _ _ _ _ _ _ B2)|exact Hx|]. destruct (cached_dinode B c x Hc) as (Ety & _ & _).
  destruct (Z.eqb_spec (i_type x) T_DIR) as [Hdir|Hndir].
  - apply runs_bind. eapply runs_mono; [by eapply busy_unlockput|]. cbn beta. intros _ s3 (T3 & K3 & B3). eapply Hend; [exact B3|]. left.
    split; [done|]. split; [apply same_files_refl|]. right. left. exists (i_inum x). split; [done|]. by rewrite <- Ety.
  - assert (En : i_nlink x = i_nlink (dinode_at B c (i_inum x))) by (by rewrite <- Hc at 1).
    apply runs_bind. eapply runs_mono; [apply (busy_nlink s2 T2 K1 c G _ ip x 1 B2 Hx); try done; [by left|unfold short_ok; lia|lia]|].
    cbn beta. intros _ s3 H3. apply runs_bind. eapply runs_mono; [exact H3|]. cbn beta. intros _ s4 (T4 & c4 & B4 & S4 & _).
    apply runs_bind. eapply runs_mono; [eapply busy_unlock; [exact B4|by left]|]. cbn beta. intros _ s5 (K5 & B5).
    eapply (link_raised s5 T4 K5 c4 ip (i_inum x)); try done; [congruence|lia].
Qed.

End Body.

End Tran.

(** ** The disk after the transaction *)

Section Agreeing.
Context (B : superblock) (Hg : geom B) (c c1 c2 : Z -> list Z) (Hag : forall b, home B b -> c2 b = c1 b) (Hinv : fs_inv B c1).

Lemma agree_files d : same_files B c c1 d -> same_files B c c2 d.
Proof using Hg Hag Hinv.
  intros [Hl Hf]. split; [intros j; rewrite (agree_live B Hg c1 c2 Hag); apply Hl|]. intros j Hj.
  destruct (agree_contents B Hg c1 c2 Hag j Hinv (proj2 (Hl j) Hj)) as [E1 E2]. rewrite E2, E1. by apply Hf.
Qed.

Lemma agree_dir j : live_inum B c1 j -> dir_of B c2 j = dir_of B c1 j.
Proof using Hg Hag Hinv. intros Hj. unfold dir_of. by rewrite (proj2 (agree_contents B Hg c1 c2 Hag j Hinv Hj)). Qed.

Lemma agree_made d nm i : live_inum B c d -> link_made B c c1 d nm i -> link_made B c c2 d nm i.
Proof using Hg Hag Hinv.
  intros Hd [M1 M2 M3 M4]. split; [done|intros j; rewrite (agree_live B Hg c1 c2 Hag); apply M2| |].
  - intros j Hj. destruct (agree_contents B Hg c1 c2 Hag j Hinv (proj2 (M2 j) Hj)) as [E1 E2]. rewrite E2, E1. by apply M3.
  - rewrite agree_dir by (by apply M2). done.
Qed.

Lemma agree_itab T : itab_ok B c1 T -> itab_ok B c2 T.
Proof using Hg Hag.
  intros [H1 H2 H3 H4 H5]. split; try done.
  - intros ip x Hx Hr. rewrite (agree_live B Hg c1 c2 Hag). by apply (H3 ip).
  - intros ip x Hx Hr Hv. unfold cached. rewrite (agree_dinode B Hg c1 c2 Hag) by apply (H3 ip x Hx Hr). by apply (H4 ip).
Qed.

Lemma agree_fails old new i0 i1 : link_fails B c old new i0 i1 c1 -> link_fails B c old new i0 i1 c2.
Proof using Hg Hag.
  intros [?|[?|[?|(d & nm & H1 & H2 & H3)]]]; [by left|right; by left|right; right; by left|right; right; right]. exists d, nm. split_and!; try done.
  destruct H3 as [?|[?|Hf]]; [by left|right; by left|right; right]. intros b Hb. rewrite (agree_used B Hg c1 c2 Hag) by done. by apply Hf.
Qed.

Lemma agree_outcome old new i0 i1 r : tree_ok B c -> linked B c i1 -> link_outcome B c old new i0 i1 r c1 -> link_outcome B c old new i0 i1 r c2.
Proof using Hg Hag Hinv.
  intros Ht Hl1 [(-> & H1 & H2)|(-> & i & d & nm & H1 & H2 & H3 & H4 & H5)]; [left|right]; (split; [done|]).
  - split; [by apply agree_files|by apply agree_fails].
  - exists i, d, nm. split_and!; try done. apply agree_made; [|done]. by apply (resolve_linked B c Ht true (path_elems new) i1).
Qed.

End Agreeing.

(** ** Paths after a link *)

Section Made.
Context (B : superblock) (c c' : Z -> list Z) (Ht : tree_ok B c) (d : Z) (nm : list Z) (i : Z).
Hypothesis (M : link_made B c c' d nm i).

(** Every path that led to an inode still leads there. *)
Lemma made_mono par es j k : linked B c j -> resolve B c par j es = Some k -> resolve B c' par j es = Some k.
Proof using Ht M.
  destruct M as [M1 _ M3 [off M4]]. apply resolve_mono; [done|]. intros a [Ha _] Hty. destruct (M3 a Ha) as (E1 & _ & E3). split; [congruence|].
  intros nm' r Hf. destruct (decide (a = d)) as [->|Hne].
  - rewrite M4, decide_False; [done|]. intros ->. by rewrite M1 in Hf.
  - unfold dir_of in *. by rewrite E3.
Qed.

(** The new path leads to the inode. *)
Lemma made_new es j : linked B c j -> resolve B c true j es = Some d -> last es = Some nm -> resolve B c' false j es = Some i.
Proof using Ht M.
  intros Hj Hr Hl. pose proof (made_mono true es j d Hj Hr) as Hr'. destruct (resolve_parent B c' es j d Hr') as (nm' & Hl' & _ & ->).
  replace nm' with nm by congruence. destruct (lm_dir _ _ _ _ _ _ M) as [off ->]. by rewrite decide_True.
Qed.

End Made.

(** ** The system call *)

Section Call.
Context {L : Layout} {D : DiskDriver} {DL : DiskLaws} (B : superblock) (Hg : geom B).
Implicit Types (s : kstate).

Lemma touch_kq s : kq s (set_syn (touch (syn s)) s).
Proof. split; [done|by right|done]. Qed.

Lemma names_ready_touch s : names_ready B s -> names_ready B (set_syn (touch (syn s)) s).
Proof.
  intros [[[R H1 H2 H3 H4 H5 H6 H7 H8 H9] Hsb Hp Hi] Ht Hok Hf Hu]. split; try done. split; try done. split; try done.
  apply (brep_keep s); try done. apply touch_kq.
Qed.

Lemma user_string_touch s n w : quiet s -> user_string s n w -> user_string (set_syn (touch (syn s)) s) n w.
Proof.
  intros Q [H1 H2 H3 H4 (l & T & us & H5 & H6 & H7)]. split; try done. rewrite (kq_cur _ _ (touch_kq s)).
  exists l, T, us. split_and!; try done. by apply (uvm_ok_kq s); [|apply touch_kq].
Qed.

Lemma begins_touch s path i : begins B s path i -> begins B (set_syn (touch (syn s)) s) path i.
Proof.
  intros [[?|(H1 & cwd & x & H2 & H3)] Hl]; (split; [|done]); [by left|right]. split; [done|]. exists cwd, x. by rewrite (kq_cur _ _ (touch_kq s)).
Qed.

(** A path with its terminator. *)
Lemma elems_nul w : Forall (fun b => b <> 0) w -> path_elems (w ++ [0]) = path_elems w.
Proof. intros Hw. unfold path_elems. by rewrite cstr_app_zero, cstr_id. Qed.
Lemma starts_nul s T w i : starts_at s T w i -> starts_at s T (w ++ [0]) i.
Proof. assert (E : ch (w ++ [0]) = ch w) by (by destruct w). unfold starts_at. by rewrite E. Qed.

Definition link_blocks (a b : Z) : gset Z := {[IBLOCK b B]} ∪ op_blocks B (set_i_inum a zero_inode).

Lemma link_blocks_spare a b : log_room B -> spare (sb_nlog B) 2 (link_blocks a b).
Proof using Hg. intros H. apply (spare_le _ 4); [lia|]. by apply spare_add, op_blocks_spare. Qed.
Lemma link_blocks_in a b : bitmap_in B (link_blocks a b) /\ IBLOCK a B ∈ link_blocks a b /\ IBLOCK b B ∈ link_blocks a b.
Proof.
  unfold link_blocks. pose proof (op_blocks_inode B Hg (set_i_inum a zero_inode)) as Hi. pose proof (op_blocks_bitmap B (set_i_inum a zero_inode)) as Hb.
  change (i_inum (set_i_inum a zero_inode)) with a in Hi. split; [|split; [by apply elem_of_union_r|by apply elem_of_union_l, elem_of_singleton_2]].
  intros x Hx. by apply elem_of_union_r, Hb.
Qed.

(** The kernel after the call. *)
Record link_ready s s' : Prop := mklink_ready {
  lr_ready : fs_ready B s';
  lr_tree : tree_ok B (dblock (disk s'));
  lr_table : itab_ok B (dblock (disk s')) (itable s');
  lr_refs : grants (itable s) (itable s') (fun _ => 0);
  lr_unlocked : unlocked (fun i => get_slock s' (SLinode i))
}.

Lemma link_end s s0 s1 T K c G (r : Z) e : fs_ready B s -> frame s s0 -> disk s0 = disk s -> l_outstanding (klog s0) = 1 ->
  busy B s0 (itable s) s1 T K c G [] None ->
  runs (end_op;; mret r) s1 e (fun r' s' => r' = r /\ link_ready s s' /\ forall b, home B b -> dblock (disk s') b = c b).
Proof using Hg.
  intros R Fr Hd Ho [X Ht Hok Hu Hr _]. pose proof (rd_idle _ _ R) as I. apply runs_bind.
  eapply runs_mono; [apply (fsx_end (sb_logstart B) (sb_nlog B) s0 s1 T K c G e X Ho); rewrite Hd; apply I|].
  cbn beta. intros _ s' (I' & Hb & HT & HK & [Kq Hsb]). apply runs_ret.
  assert (Hag : forall b, home B b -> dblock (disk s') b = c b) by (intros b [_ Hb']; by apply Hb). split; [done|]. split; [|done].
  split.
  - split; [done|by rewrite Hsb, (fr_sb _ _ Fr), (rd_sb _ _ R)|by rewrite (kq_panic _ _ Kq), (kq_panic _ _ (fr_kq _ _ Fr)), (rd_panic _ _ R)|].
    apply (agree_inv B Hg c); [done|apply Ht].
  - by apply (same_tree B Hg c).
  - rewrite HT. by apply (agree_itab B Hg c).
  - rewrite HT. eapply grants_ext; [|exact Hr]. done.
  - intros j. rewrite HK. apply Hu.
Qed.

Lemma outcome_nul c old new i0 i1 r c' : Forall (fun b => b <> 0) old -> Forall (fun b => b <> 0) new ->
  link_outcome B c (old ++ [0]) (new ++ [0]) i0 i1 r c' <-> link_outcome B c old new i0 i1 r c'.
Proof. intros Ho Hn. unfold link_outcome, link_fails. by rewrite !elems_nul. Qed.

Lemma sys_link_run s e old new i0 i1 : let c := dblock (disk s) in
  names_ready B s -> three_free (itable s) -> log_room B -> user_string s 0 old -> user_string s 1 new -> begins B s old i0 -> begins B s new i1 ->
  (forall i, resolve B c false i0 (path_elems old) = Some i -> 0 < i_nlink (dinode_at B c i) < 32767) ->
  runs sys_link s e (fun r s' => link_ready s s' /\ link_outcome B c old new i0 i1 r (dblock (disk s'))).
Proof using Hg.
  intros c N0 H3 Hlog U0 U1 Bo0 Bn0 Hnl. set (s1 := set_syn (touch (syn s)) s). assert (Q : quiet s) by (apply (rd_idle _ _ (nr_ready _ _ N0))).
  assert (Q1 : quiet s1) by (by apply (kq_quiet s), Q; apply touch_kq). unfold sys_link.
  eapply runs_step; [by apply argstr_run|]. cbn beta iota. rewrite (proj2 (Z.ltb_ge _ _)) by lia. fold s1.
  eapply runs_step; [apply argstr_run; [done|by apply user_string_touch]|]. cbn beta iota. rewrite (proj2 (Z.ltb_ge _ _)) by lia.
  replace (set_syn (touch (syn s1)) s1) with s1 by (unfold s1; cbn; by rewrite touch_touch).
  destruct (names_ready_touch s N0) as [R Ht Hok Hf Hu]. fold s1 in R, Ht, Hok, Hf, Hu. destruct (begins_touch s old i0 Bo0) as [Ho Hl0], (begins_touch s new i1 Bn0) as [Hn Hl1]. fold s1 in Ho, Hn, Hl0, Hl1.
  change (dblock (disk s1)) with c in *. change (itable s1) with (itable s) in *. destruct U0 as [_ _ Hbo Hzo _], U1 as [_ _ Hbn Hzn _].
  set (a := default 0 (resolve B c false i0 (path_elems old))). set (b := default 0 (resolve B c true i1 (path_elems new))). set (G := link_blocks a b).
  pose proof (link_blocks_spare a b Hlog) as Hsp. destruct (link_blocks_in a b) as (Hbm & HGa & HGb).
  apply runs_bind. eapply runs_mono; [apply (fsx_begin (sb_logstart B) (sb_nlog B) s1 G); [apply R|by eapply spare_room]|].
  cbn beta. intros _ s0 (X & Fr & Hd0 & Ho0). pose proof (fr_kq _ _ Fr) as Kq0. pose proof (eq_trans (fr_sb _ _ Fr) (rd_sb _ _ R)) as HB.
  assert (Hpan : panicked s0 = false) by (rewrite (kq_panic _ _ Kq0); apply R).
  assert (Hst : forall w i, starts_at s1 (itable s) w i -> starts_at s0 (itable s) (w ++ [0]) i).
  { intros w i Hw. apply starts_nul. destruct Hw as [?|(K1 & cwd & x & K2 & K3)]; [by left|right]. split; [done|]. exists cwd, x. split; [|done].
    rewrite (kq_cur _ _ Kq0), <- K2. exact (f_equal p_cwd (kq_proc _ _ (cur s1) Kq0)). }
  eapply (link_body B Hg s0 HB Hpan Ho0 c (itable s) Hok e c Ht H3 (old ++ [0]) (new ++ [0]) i0 i1 G (Hst _ _ Ho) (Hst _ _ Hn) Hl0 Hl1).
  - apply Forall_app. split; [done|]. by repeat constructor.
  - apply Forall_app. split; [done|]. by repeat constructor.
  - intros r s2 T2 K2 c2 G2 B2 O2. eapply runs_mono; [by apply (link_end s1 s0 s2 T2 K2 c2 G2 r e R Fr Hd0 Ho0)|].
    cbn beta. intros r' s' (-> & [E1 E2 E3 E4 E5] & Hag). split; [done|]. apply (agree_outcome B Hg c c2 _ Hag); [apply B2|done|done|]. by rewrite <- (outcome_nul c old new).
  - done.
  - done.
  - split; [exact X|done|done|done|apply grants_refl|]. intros ip i []%elem_of_nil.
  - done.
  - rewrite elems_nul by done. intros i Hi. split; [|by apply Hnl]. assert (Ea : a = i) by (unfold a; by rewrite Hi). by rewrite <- Ea.
  - rewrite elems_nul by done. intros d Hd. assert (Eb : b = d) by (unfold b; by rewrite Hd). by rewrite <- Eb.
Qed.

(** C7 [link] as a system call.  In a mounted file system with a sound directory tree,
    an inode table that agrees with the disk and has three free entries, and two paths
    in user memory, [sys_link] returns; the tree and the table are sound again, no lock
    is held and no reference gained or lost.  It returns 0 when the file exists and is
    not a directory, the directory of the new path exists, and the name could be added:
    then the new path leads to the inode of the old one, whose link count is one higher,
    every path still leads where it did, and every file has its contents.  Otherwise it
    returns -1 for a missing file or directory, a name that exists, a directory of the
    largest size or a full disk, and all files, directories and link counts are as
    before. *)
Theorem sys_link_links s e old new i0 i1 : let c := dblock (disk s) in
  names_ready B s -> three_free (itable s) -> log_room B -> user_string s 0 old -> user_string s 1 new -> begins B s old i0 -> begins B s new i1 ->
  (forall i, resolve B c false i0 (path_elems old) = Some i -> 0 < i_nlink (dinode_at B c i) < 32767) ->
  exists r s', sys_link s e = Ok r s' e /\ link_ready s s' /\ let c' := dblock (disk s') in
    ((r = -1 /\ same_files B c c' (fun _ => 0) /\ link_fails B c old new i0 i1 c') \/
     (r = 0 /\ exists i, resolve B c false i0 (path_elems old) = Some i /\ i_type (dinode_at B c i) <> T_DIR /\
        resolve B c' false i1 (path_elems new) = Some i /\
        (forall par j es k, linked B c j -> resolve B c par j es = Some k -> resolve B c' par j es = Some k) /\
        forall j, live_inum B c j -> i_nlink (dinode_at B c' j) = i_nlink (dinode_at B c j) + one_more i 1 j /\
          (i_type (dinode_at B c j) <> T_DIR -> file_bytes c' (dinode_at B c' j) = file_bytes c (dinode_at B c j)))).
Proof using Hg.
  intros c N H3 Hlog U0 U1 Bo Bn Hnl. destruct (sys_link_run s e old new i0 i1 N H3 Hlog U0 U1 Bo Bn Hnl) as (r & s' & E & R & O).
  exists r, s'. split; [done|]. split; [done|]. cbv zeta. fold c in O |- *. pose proof (nr_tree _ _ N) as Ht. fold c in Ht.
  destruct O as [O|(-> & i & d & nm & H1 & H2 & H4 & H5 & M)]; [by left|right]. split; [done|]. exists i. destruct Bn as [_ Hl1].
  split_and!; try done.
  - by apply (made_new B c _ Ht d nm i M _ i1).
  - intros par j es k Hj. by apply (made_mono B c _ Ht d nm i M).
  - intros j Hj. destruct (lm_file _ _ _ _ _ _ M j Hj) as (E1 & E2 & E3). split; [done|]. intros Hty. apply E3. intros ->.
    apply Hty. by destruct (resolve_parent B c _ _ _ H4) as (_ & _ & ? & _).
Qed.

End Call.

(** ** Witness *)

(** A process whose arguments are the addresses 0 and 8 in its page, where two paths are;
    its trap frame is in the same page. *)
Definition caller : proc := set_p_trapframe (sample_page 1) (set_p_pagetable (sample_page 0) sample_proc).
Definition calling (d : diskst) (m : gmap Z Z) (fl : Z) : kstate :=
  set_mem m (set_freelist fl (set_procs (caller :: replicate 63 zero_proc) (unmounted_state d))).
Definition arg_bytes : list Z := zstr "/README" ++ [0] ++ zstr "/b" ++ [0] ++ replicate 101 0 ++ le_bytes 8 0 ++ le_bytes 8 8.

Lemma calling_quiet d m fl : quiet (calling d m fl).
Proof.
  destruct sample_quiet as (Ht & Hn & Hp & Hl). split_and!; [|exact Hn|exact Hp|exact Hl].
  apply (thread_ok_keep sample_state); [exact Ht|by right|reflexivity].
Qed.

Lemma calling_unmounted d m fl : (forall b, block_ok (dblock d b)) -> @unmounted ram_driver ram_laws (calling d m fl).
Proof.
  intros Hd. split; [|reflexivity..]. split; [apply calling_quiet|exact I|reflexivity| |].
  - exists (rev (seq 0 HEAD)). split; [by rewrite <- Permutation_rev|].
    unfold links, ring, linked. apply (bool_decide_unpack _). vm_compute. exact I.
  - apply empty_tab; [|apply Hd]. intros i Hi.
    do 30 (destruct i as [|i]; [split; reflexivity|]). unfold HEAD in Hi. vm_compute in Hi. lia.
Qed.

Lemma arg_memory : exists m fl l T, (forall s, mem s = m -> freelist s = fl -> quiet s -> uvm_ok (L := sample_layout) s l T (sample_page 0) [sample_page 1]) /\
  accessible T [sample_page 1] PTE_U 0 PGSIZE /\ forall k, 0 <= k < 128 -> ld8 m (sample_page 1 + k) = default 0 (arg_bytes !! Z.to_nat k).
Proof.
  destruct sample_uvm1 as (s & l & T & U & Hl).
  destruct (copyout_loop_run (L := sample_layout) 2 s l T (sample_page 0) [sample_page 1] 0 arg_bytes 128 [] U) as (s' & _ & _ & U' & _ & Hm).
  - apply (sample_accessible s l T); [exact U|exact Hl|by left|unfold PGSIZE; lia].
  - reflexivity.
  - vm_compute. congruence.
  - exists (mem s'), (freelist s'), l, T. split; [|split].
    + intros t Ht Hf Q. apply (uvm_ok_keep s'); [exact U'|exact Ht|exact Hf|by apply quiet_wf|apply quiet_lfree; [done|in_static]].
    + apply (sample_accessible s' l T); [exact U'|exact Hl|by right|unfold PGSIZE; lia].
    + intros k Hk. assert (E : sample_page 1 + k = uaddr [sample_page 1] k).
      { unfold uaddr, PGSIZE. rewrite Z.div_small, Z.mod_small by lia. reflexivity. }
      rewrite E, Hm by (cbn [length]; unfold PGSIZE; lia). rewrite decide_True by lia. by rewrite Z.sub_0_r.
Qed.

Section Memory.
Context (m : gmap Z Z) (Hm : forall k, 0 <= k < 128 -> ld8 m (sample_page 1 + k) = default 0 (arg_bytes !! Z.to_nat k)).

Lemma arg_ubytes va (n : nat) : 0 <= va -> va + Z.of_nat n <= 128 -> ubytes m [sample_page 1] va n = (fun i => default 0 (arg_bytes !! Z.to_nat (va + Z.of_nat i))) <$> seq 0 n.
Proof using Hm.
  intros Hv Hn. unfold ubytes. apply list_fmap_ext. intros j k Hk. apply lookup_seq in Hk as [-> Hk]. rewrite <- Hm by lia. f_equal.
  unfold uaddr, PGSIZE. rewrite Z.div_small, Z.mod_small by lia. reflexivity.
Qed.
#[local] Transparent ld64 ld_bytes.
Lemma arg_ld64 k : 0 <= k -> k + 8 <= 128 -> ld64 m (sample_page 1 + k) = le_val ((fun i => default 0 (arg_bytes !! Z.to_nat (k + Z.of_nat i))) <$> seq 0 8).
Proof using Hm.
  intros Hk H8. unfold ld64, ld_bytes. f_equal. apply list_fmap_ext. intros j i Hi. apply lookup_seq in Hi as [-> Hi]. rewrite <- Hm by lia. f_equal. lia.
Qed.
#[local] Opaque ld64 ld_bytes.

(** What a byte of the page holds, and the string argument the bytes make. *)
Definition arg_at (va : Z) (n : nat) : list Z := (fun i => default 0 (arg_bytes !! Z.to_nat (va + Z.of_nat i))) <$> seq 0 n.

Lemma caller_string s l T n va w :
  uvm_ok (L := sample_layout) s l T (sample_page 0) [sample_page 1] -> accessible T [sample_page 1] PTE_U 0 PGSIZE ->
  p_pagetable (get_proc s (cur s)) = sample_page 0 -> p_trapframe (get_proc s (cur s)) = sample_page 1 -> mem s = m ->
  0 <= n <= 1 -> Forall byte_ok w -> Forall (fun b => b <> 0) w ->
  le_val (arg_at (TF_a n) 8) = va -> 0 <= va -> va + Z.of_nat (S (length w)) <= 100 -> arg_at va (S (length w)) = w ++ [0] ->
  user_string (L := sample_layout) s n w.
Proof using Hm.
  intros U Ha Hpt Htf Hmem Hn Hw Hz Hld Hv Hlen Hat. split; [lia|unfold MAXPATH; lia|done|done|].
  cbv zeta. rewrite Hpt, Htf, Hmem. exists l, T, [sample_page 1].
  assert (E : ld64 m (sample_page 1 + TF_a n) = va) by (rewrite arg_ld64 by (unfold TF_a; lia); exact Hld).
  rewrite E. split; [exact U|]. split; [|rewrite arg_ubytes by lia; exact Hat].
  apply (accessible_sub _ _ _ 0 PGSIZE _ _ Ha); unfold PGSIZE; lia.
Qed.
End Memory.

(** The machine has booted from the disk of mkfs, with that process running. *)
Lemma booted_caller : exists s m, names_ready (D := ram_driver) (DL := ram_laws) mk_sb s /\ Forall (fun x => i_ref x = 0) (itable s) /\
  image_of m ((T_DIR, padded (root_dir sample_args)) :: MkfsOk.stored sample_host sample_args) /\
  (forall b, home mk_sb b -> dblock (disk s) b = blk m b) /\ user_string (L := sample_layout) s 0 (zstr "/README") /\ user_string (L := sample_layout) s 1 (zstr "/b").
Proof.
  destruct (mkfs_built sample_host sample_args sample_args_ok ltac:(done) ltac:(done) sample_room) as ([] & m & Hm & I).
  assert (Hm' : main sample_host (zstr "mkfs" :: zstr "fs.img" :: sample_args) true = MOk () m) by (by rewrite main_mkfs).
  destruct arg_memory as (mm & fl & l & T & HU & Ha & Hb). set (t := calling (mkdisk (fs_blk m) []) mm fl).
  destruct (boot_runs (D := ram_driver) (DL := ram_laws) sample_host sample_args m [] t [] I ltac:(done) sample_bytes) as ([] & s & _ & R & (HT & Hf & Hcur & Hpr) & Hag);
    [apply calling_unmounted; apply (image_blocks _ _ _ _ _ sample_args_ok ltac:(done) ltac:(done) sample_room Hm')| |reflexivity|].
  { split; [reflexivity|apply Forall_lookup; intros i x Hx; by apply lookup_replicate in Hx as [-> _]|]. intros i. reflexivity. }
  assert (Hmem : mem s = mm) by (by injection Hf). assert (Hfl : freelist s = fl) by (by injection Hf).
  assert (Q : quiet s) by apply (rd_idle _ _ (nr_ready _ _ R)). specialize (HU s Hmem Hfl Q).
  assert (Hp : pcore (get_proc s (cur s)) = pcore caller).
  { rewrite Hcur. change (cur t) with 0%nat. apply (f_equal (fun l => l !! 0%nat)) in Hpr. rewrite !list_lookup_fmap in Hpr. unfold get_proc.
    assert (Ht0 : procs t !! 0%nat = Some caller) by reflexivity. rewrite Ht0 in Hpr. destruct (procs s !! 0%nat) as [p|]; [|discriminate Hpr]. exact (Some_inj _ _ Hpr). }
  assert (Hpt : p_pagetable (get_proc s (cur s)) = sample_page 0) by exact (f_equal p_pagetable Hp).
  assert (Htf : p_trapframe (get_proc s (cur s)) = sample_page 1) by exact (f_equal p_trapframe Hp).
  exists s, m. split; [exact R|]. split; [rewrite HT; apply Forall_lookup; intros i x Hx; by apply lookup_replicate in Hx as [-> _]|]. split; [exact I|]. split; [exact Hag|].
  split; [apply (caller_string mm Hb s l T 0 0)|apply (caller_string mm Hb s l T 1 8)]; try assumption; clear;
    first [lia|vm_compute; reflexivity|vm_compute; congruence|vm_compute; repeat constructor; congruence].
Qed.

Lemma sys_link_links_witness : exists s r s', sys_link (D := ram_driver) s [] = Ok r s' [] /\
  (r = -1 \/ (r = 0 /\ resolve mk_sb (dblock (disk s')) false ROOTINO [zstr "b"] = Some 2)).
Proof.
  destruct booted_caller as (s & m & R & Hfree & I & Hag & U0 & U1).
  assert (Hroot : linked mk_sb (dblock (disk s)) ROOTINO) by (apply (same_linked mk_sb mk_geom _ _ Hag), (image_linked sample_host m sample_args I 0); cbn; lia).
  assert (Hno : named_once sample_args 0 (zstr "README")).
  { split; [reflexivity|split; vm_compute; congruence|vm_compute; congruence|repeat constructor; vm_compute; congruence|].
    intros [|[|j]] arg' Hj; [done| |done]. apply Some_inj in Hj as <-. vm_compute. congruence. }
  pose proof (image_resolves sample_host m sample_args (dblock (disk s)) 0 (zstr "README") I ltac:(done) Hag Hno ltac:(vm_compute; reflexivity)) as Hres.
  change (stored_name (zstr "README")) with (zstr "README") in Hres. change (Z.of_nat 0 + 2) with 2 in Hres.
  assert (He0 : path_elems (zstr "/README") = [zstr "README"]) by (vm_compute; reflexivity). assert (He1 : path_elems (zstr "/b") = [zstr "b"]) by (vm_compute; reflexivity).
  destruct (@sys_link_links sample_layout ram_driver ram_laws mk_sb mk_geom s [] (zstr "/README") (zstr "/b") ROOTINO ROOTINO R) as (r & s' & E & _ & O).
  - rewrite Forall_lookup in Hfree. pose proof (it_len _ _ _ (nr_table _ _ R)) as Hlen. change (Z.to_nat NINODE) with 50%nat in Hlen.
    assert (Hf : forall a, (a < 50)%nat -> free_at (itable s) a) by (intros a Ha; destruct (lookup_lt_is_Some_2 (itable s) a ltac:(lia)) as [x Hx]; exists x; eauto).
    exists 0%nat, 1%nat, 2%nat. split_and!; try done; apply Hf; lia.
  - split; vm_compute; done || congruence.
  - exact U0.
  - exact U1.
  - split; [left; split; reflexivity|exact Hroot].
  - split; [left; split; reflexivity|exact Hroot].
  - rewrite He0. intros i Hi. assert (i = 2) as -> by congruence.
    destruct (io_file _ _ I 1 T_FILE (file_of sample_host (zstr "README")) eq_refl) as (Hl & _ & Hn & _).
    destruct (agree_contents mk_sb mk_geom _ _ Hag 2 (io_inv _ _ I) Hl) as [-> _].
    assert (Hn2 : i_nlink (dinode_at mk_sb (blk m) 2) = 1) by exact Hn. rewrite Hn2. clear. lia.
  - exists s, r, s'. split; [exact E|]. destruct O as [(-> & _)|(-> & i & H1 & _ & H2 & _)]; [by left|right]. split; [done|].
    rewrite He0 in H1. rewrite He1 in H2. rewrite Hres in H1. injection H1 as <-. exact H2.
Defined.
