(* ===== verification/Trap.v ===== *)
(** * kernel/trap.c, [syscall] of kernel/syscall.c, [forkret] of kernel/proc.c,
    kernel/main.c and kernel/start.c

    Entry to the kernel from user space, from interrupts, and at boot. *)

From stdpp Require Import base gmap strings numbers list.
From S2P Require Import Prelude KState Sample StringC Spinlock Sched Sleeplock Uart Printf Pages Kalloc Vm Bio Log Fs Pipe Console File Proc Exec Virtio Syscall.

Definition upd_csr (f : csrs -> csrs) (s : kstate) : kstate := set_csr (f (csr s)) s.

Section Trap.
Context {L : Layout} {D : DiskDriver} {IO : Mmio}.

(** The table [syscalls], indexed by the numbers of syscall.h. *)
Definition syscalls (num : Z) : option (M Z) :=
  match num with
  | 1 => Some sys_fork | 2 => Some sys_exit | 3 => Some sys_wait | 4 => Some sys_pipe
  | 5 => Some sys_read | 6 => Some sys_kill | 7 => Some sys_exec | 8 => Some sys_fstat
  | 9 => Some sys_chdir | 10 => Some sys_dup | 11 => Some sys_getpid | 12 => Some sys_sbrk
  | 13 => Some sys_sleep | 14 => Some sys_uptime | 15 => Some sys_open | 16 => Some sys_write
  | 17 => Some sys_mknod | 18 => Some sys_unlink | 19 => Some sys_link | 20 => Some sys_mkdir
  | 21 => Some sys_close
  | _ => None
  end.

Definition syscall : M unit :=
  p ← self;
  a7 ← tf_get p (TF_a 7);
  let num := i32 a7 in
  match syscalls num with
  | Some call =>
      r ← call;
      tf_set p (TF_a 0) r
  | None =>
      pr ← procget p;
      printf (zstr "%d %s: unknown sys call %d" ++ [10])
        [AInt (p_pid pr); AStr (Some (p_name pr)); AInt num];;
      tf_set p (TF_a 0) (-1)
  end.

Definition trapinit : M unit := initlock Ltick "time".

Definition trapinithart : M unit := modify (upd_csr (set_stvec kernelvec)).

Definition usertrapret : M unit :=
  p ← self;
  intr_off;;
  modify (upd_csr (set_stvec (TRAMPOLINE + (uservec - trampoline))));;
  c ← gets csr;
  pr ← procget p;
  tf_set p TF_kernel_satp (satp c);;
  tf_set p TF_kernel_sp (p_kstack pr + PGSIZE);;
  tf_set p TF_kernel_trap usertrap_addr;;
  h ← cpuid;
  tf_set p TF_kernel_hartid (Z.of_nat h);;
  modify (upd_csr (fun c => set_sstatus_spie true (set_sstatus_spp false c)));;
  epc ← tf_get p TF_epc;
  modify (upd_csr (set_sepc epc));;
  (** [userret] in trampoline.S installs the user page table and executes
      [sret]. *)
  modify (upd_csr (set_satp (MAKE_SATP (p_pagetable pr)))).

Definition clockintr : M unit :=
  h ← cpuid;
  when (h =? 0)%nat
    (acquire Ltick;;
     modify (fun s => set_ticks (u32 (ticks s + 1)) s);;
     wakeup Ch_ticks;;
     release Ltick);;
  modify (upd_csr (fun c => set_stimecmp (u64 (rtime c + 1000000)) c)).

Definition devintr : M Z :=
  c ← gets csr;
  if scause c =? 0x8000000000000009 then
    irq ← plic_claim;
    (if irq =? UART0_IRQ then uartintr
     else if irq =? VIRTIO0_IRQ then virtio_disk_intr
     else when (negb (irq =? 0)) (printf (zstr "unexpected interrupt irq=%d" ++ [10]) [AInt irq]));;
    when (negb (irq =? 0)) (plic_complete irq);;
    mret 1
  else if scause c =? 0x8000000000000005 then
    clockintr;;
    mret 2
  else mret 0.

Definition usertrap : M unit :=
  c ← gets csr;
  if sstatus_spp c then kpanic "usertrap: not from user mode" else
  modify (upd_csr (set_stvec kernelvec));;
  p ← self;
  tf_set p TF_epc (sepc c);;
  which_dev ←
    (if scause c =? 8 then
       dead ← killed p;
       when dead (exit (-1));;
       epc ← tf_get p TF_epc;
       tf_set p TF_epc (epc + 4);;
       intr_on;;
       syscall;;
       mret 0
     else
       which_dev ← devintr;
       when (which_dev =? 0)
         (pr ← procget p;
          printf (zstr "usertrap(): unexpected scause 0x%lx pid=%d" ++ [10])
            [AInt (scause c); AInt (p_pid pr)];;
          printf (zstr "            sepc=0x%lx stval=0x%lx" ++ [10])
            [AInt (sepc c); AInt (stval c)];;
          setkilled p);;
       mret which_dev);
  dead ← killed p;
  when dead (exit (-1));;
  when (which_dev =? 2) yield;;
  usertrapret.

Definition kerneltrap : M unit :=
  c ← gets csr;
  if negb (sstatus_spp c) then kpanic "kerneltrap: not from supervisor mode" else
  on ← intr_get;
  if on : bool then kpanic "kerneltrap: interrupts enabled" else
  which_dev ← devintr;
  if which_dev =? 0 then
    printf (zstr "scause=0x%lx sepc=0x%lx stval=0x%lx" ++ [10])
      [AInt (scause c); AInt (sepc c); AInt (stval c)];;
    panic (zstr "kerneltrap")
  else
  (if which_dev =? 2 then
     me ← myproc;
     when (bool_decide (me <> None)) yield
   else mret ());;
  modify (upd_csr (set_sepc (sepc c)));;
  modify (upd_csr (fun c' => set_sstatus_spp (sstatus_spp c) (set_sstatus_spie (sstatus_spie c) c')));;
  intr_off.

(** A new process's first steps in the kernel. *)
Definition forkret : M unit :=
  p ← self;
  release (Lproc p);;
  first ← gets forkret_first;
  when first
    (fsinit ROOTDEV;;
     modify (set_forkret_first false));;
  usertrapret.

(** [main] on hart 0, up to [scheduler]. *)
Definition main_boot : M unit :=
  consoleinit;;
  printfinit;;
  printf [10] [];;
  printf (zstr "xv6 kernel is booting" ++ [10]) [];;
  printf [10] [];;
  kinit;;
  kvminit;;
  kvminithart;;
  procinit;;
  trapinit;;
  trapinithart;;
  plicinit;;
  plicinithart;;
  binit;;
  iinit;;
  fileinit;;
  virtio_disk_init;;
  userinit.

(** [main] on the other harts, after [started]. *)
Definition main_other : M unit :=
  h ← cpuid;
  printf (zstr "hart %d starting" ++ [10]) [AInt (Z.of_nat h)];;
  kvminithart;;
  trapinithart;;
  plicinithart.

Definition main : M unit :=
  h ← cpuid;
  (if (h =? 0)%nat then main_boot else main_other);;
  scheduler.

End Trap.

(** ** Machine mode *)

(** The machine-mode registers that [start] and [timerinit] set up. *)
Record mregs : Type := mkmregs {
  m_mstatus : Z; m_mepc : Z; m_satp : Z; m_medeleg : Z; m_mideleg : Z; m_sie : Z;
  m_pmpaddr0 : Z; m_pmpcfg0 : Z; m_mie : Z; m_menvcfg : Z; m_mcounteren : Z;
  m_stimecmp : Z; m_tp : Z
}.

Definition MSTATUS_MPP_MASK : Z := Z.shiftl 3 11.
Definition MSTATUS_MPP_S : Z := Z.shiftl 1 11.
Definition SIE_SEIE : Z := Z.shiftl 1 9.
Definition SIE_STIE : Z := Z.shiftl 1 5.
Definition SIE_SSIE : Z := Z.shiftl 1 1.
Definition MIE_STIE : Z := Z.shiftl 1 5.

Definition timerinit (time : Z) (m : mregs) : mregs :=
  mkmregs (m_mstatus m) (m_mepc m) (m_satp m) (m_medeleg m) (m_mideleg m) (m_sie m)
    (m_pmpaddr0 m) (m_pmpcfg0 m) (Z.lor (m_mie m) MIE_STIE)
    (Z.lor (m_menvcfg m) (Z.shiftl 1 63)) (Z.lor (m_mcounteren m) 2)
    (u64 (time + 1000000)) (m_tp m).

(** The registers when [mret] jumps to [main], at address [main_addr]. *)
Definition start (main_addr mhartid time : Z) (m : mregs) : mregs :=
  let x := Z.land (m_mstatus m) (u64 (Z.lnot MSTATUS_MPP_MASK)) in
  let x := Z.lor x MSTATUS_MPP_S in
  let m := mkmregs x main_addr 0 0xffff 0xffff
    (Z.lor (Z.lor (Z.lor (m_sie m) SIE_SEIE) SIE_STIE) SIE_SSIE)
    0x3fffffffffffff 0xf (m_mie m) (m_menvcfg m) (m_mcounteren m) (m_stimecmp m) (m_tp m) in
  let m := timerinit time m in
  mkmregs (m_mstatus m) (m_mepc m) (m_satp m) (m_medeleg m) (m_mideleg m) (m_sie m)
    (m_pmpaddr0 m) (m_pmpcfg0 m) (m_mie m) (m_menvcfg m) (m_mcounteren m) (m_stimecmp m)
    mhartid.
