(* ===== verification/UserOS.v ===== *)
(** * The system calls as a user program sees them

    A user program is a computation over a world it reaches only through system
    calls.  [UserOS] is the interface of user/user.h; [StreamOS] states what the
    kernel promises of the calls that move bytes: reads from a descriptor that can be
    read return a non-empty part of what is left until there is nothing left, writes to
    one that can be written append, and no call disturbs the other descriptors.  A run ends by
    returning, in [exit], in a successful [exec], out of fuel in a loop, or in a
    fault where the C program has undefined behaviour.  [fork] returns in both
    processes: the world of a run says which of the two it follows. *)

From stdpp Require Import base gmap strings numbers list.
From S2P Require Import Prelude KState StringC Spinlock Printf.

Inductive ures (W A : Type) : Type :=
| UOk (a : A) (w : W)
| UExit (status : Z) (w : W)
| UExec (path : list Z) (argv : list (list Z)) (w : W)
| USpin (w : W)
| UFault (msg : string) (w : W).
Arguments UOk {W A} a w.
Arguments UExit {W A} status w.
Arguments UExec {W A} path argv w.
Arguments USpin {W A} w.
Arguments UFault {W A} msg w.

(** [struct stat] and [struct dirent] as user programs use them. *)
Record ustat : Type := mkustat { us_type : Z; us_ino : Z; us_size : Z }.
Record udirent : Type := mkudirent { ud_inum : Z; ud_name : list Z }.

Class UserOS : Type := {
  world : Type;
  sys_read : Z -> Z -> world -> (Z * list Z) * world;
  sys_write : Z -> list Z -> world -> Z * world;
  sys_open : list Z -> Z -> world -> Z * world;
  sys_close : Z -> world -> Z * world;
  sys_fstat : Z -> world -> (Z * ustat) * world;
  sys_mkdir : list Z -> world -> Z * world;
  sys_mknod : list Z -> Z -> Z -> world -> Z * world;
  sys_link : list Z -> list Z -> world -> Z * world;
  sys_unlink : list Z -> world -> Z * world;
  sys_chdir : list Z -> world -> Z * world;
  sys_dup : Z -> world -> Z * world;
  sys_pipe : world -> (Z * (Z * Z)) * world;
  sys_fork : world -> Z * world;
  sys_wait : world -> (Z * Z) * world;
  sys_kill : Z -> world -> Z * world;
  sys_exec : list Z -> list (list Z) -> world -> option Z * world;
  sys_sbrk : Z -> world -> Z * world;
  sys_sleep : Z -> world -> Z * world;
  sys_getpid : world -> Z * world
}.

Definition U `{UserOS} (A : Type) : Type := world -> ures world A.

Section Calls.
Context {Sys : UserOS}.

#[export] Instance U_ret : MRet U := fun A a w => UOk a w.
#[export] Instance U_bind : MBind U := fun A B f m w =>
  match m w with
  | UOk a w' => f a w'
  | UExit n w' => UExit n w'
  | UExec p v w' => UExec p v w'
  | USpin w' => USpin w'
  | UFault msg w' => UFault msg w'
  end.

Definition ucall {A} (f : world -> A * world) : U A := fun w => let '(a, w') := f w in UOk a w'.
Definition uexit {A} (status : Z) : U A := fun w => UExit status w.
Definition ufault {A} (msg : string) : U A := fun w => UFault msg w.
Definition uspin {A} : U A := fun w => USpin w.

Definition uread (fd n : Z) : U (Z * list Z) := ucall (sys_read fd n).
Definition uwrite (fd : Z) (bs : list Z) : U Z := ucall (sys_write fd bs).
Definition uopen (path : list Z) (flags : Z) : U Z := ucall (sys_open path flags).
Definition uclose (fd : Z) : U Z := ucall (sys_close fd).
Definition ufstat (fd : Z) : U (Z * ustat) := ucall (sys_fstat fd).
Definition umkdir (path : list Z) : U Z := ucall (sys_mkdir path).
Definition umknod (path : list Z) (major minor : Z) : U Z := ucall (sys_mknod path major minor).
Definition ulink (old new : list Z) : U Z := ucall (sys_link old new).
Definition uunlink (path : list Z) : U Z := ucall (sys_unlink path).
Definition uchdir (path : list Z) : U Z := ucall (sys_chdir path).
Definition udup (fd : Z) : U Z := ucall (sys_dup fd).
Definition upipe : U (Z * (Z * Z)) := ucall sys_pipe.
Definition ufork : U Z := ucall sys_fork.
Definition uwait : U (Z * Z) := ucall sys_wait.
Definition ukill (pid : Z) : U Z := ucall (sys_kill pid).
Definition usbrk (n : Z) : U Z := ucall (sys_sbrk n).
Definition usleep (n : Z) : U Z := ucall (sys_sleep n).
Definition ugetpid : U Z := ucall sys_getpid.

(** [exec] returns only when it fails. *)
Definition uexec (path : list Z) (argv : list (list Z)) : U Z := fun w =>
  match sys_exec path argv w with
  | (Some r, w') => UOk r w'
  | (None, w') => UExec path argv w'
  end.

Definition uwhen (b : bool) (m : U unit) : U unit := if b then m else mret ().
Fixpoint ufor {A} (l : list A) (f : A -> U unit) : U unit :=
  match l with
  | [] => mret ()
  | x :: l' => f x;; ufor l' f
  end.

Lemma ubind_ok {A B} (m : U A) (f : A -> U B) w a w' : m w = UOk a w' -> (m ≫= f) w = f a w'.
Proof. intros H. unfold mbind, U_bind. by rewrite H. Qed.

Lemma ubind_assoc {A B C} (m : U A) (f : A -> U B) (g : B -> U C) w :
  ((m ≫= f) ≫= g) w = (m ≫= (fun a => f a ≫= g)) w.
Proof. unfold mbind, U_bind. by destruct (m w). Qed.

Lemma ufor_app {A} (l1 l2 : list A) f w :
  ufor (l1 ++ l2) f w = (ufor l1 f;; ufor l2 f) w.
Proof.
  revert w. induction l1 as [|x l1 IH]; intros w; [done|]. cbn [ufor app].
  unfold mbind, U_bind in *. destruct (f x w); first [apply IH|done].
Qed.

End Calls.

(** What is promised of the calls that move bytes.  A descriptor is readable or
    writable when it is open for that; nothing is promised of what a read from another
    one returns, nor of what becomes of bytes written to it. *)
Class StreamOS `{O : UserOS} : Type := {
  inp : world -> Z -> list Z;
  outp : world -> Z -> list Z;
  readable : world -> Z -> bool;
  writable : world -> Z -> bool;
  sys_read_spec fd n w :
    0 <= n -> readable w fd = true -> exists k w', sys_read fd n w = ((Z.of_nat (length k), k), w') /\
      inp w fd = k ++ inp w' fd /\ Z.of_nat (length k) <= n /\ (0 < n -> inp w fd <> [] -> k <> []) /\
      (forall fd', fd' <> fd -> inp w' fd' = inp w fd') /\ (forall fd', outp w' fd' = outp w fd') /\
      (forall fd', readable w' fd' = readable w fd') /\ (forall fd', writable w' fd' = writable w fd');
  sys_write_spec fd bs w :
    exists r w', sys_write fd bs w = (r, w') /\
      (writable w fd = true -> r = Z.of_nat (length bs) /\ outp w' fd = outp w fd ++ bs) /\
      (forall fd', fd' <> fd -> outp w' fd' = outp w fd') /\ (forall fd', inp w' fd' = inp w fd') /\
      (forall fd', readable w' fd' = readable w fd') /\ (forall fd', writable w' fd' = writable w fd')
}.
Arguments inp {_ _} w fd.
Arguments outp {_ _} w fd.
Arguments readable {_ _} w fd.
Arguments writable {_ _} w fd.

(** The worlds [w] and [w'] have the same streams, open in the same way. *)
Record same_streams `{StreamOS} (w w' : world) : Prop := mksame {
  ss_inp fd : inp w' fd = inp w fd;
  ss_outp fd : outp w' fd = outp w fd;
  ss_readable fd : readable w' fd = readable w fd;
  ss_writable fd : writable w' fd = writable w fd
}.

(** What is promised of the calls on processes: [forks w] are the results of the
    forks to come in the processes that the run follows; [exec] replaces the program
    or returns with nothing changed. *)
Class ProcOS `{S : StreamOS} : Type := {
  forks : world -> list Z;
  sys_fork_spec w r rs : forks w = r :: rs ->
    exists w', sys_fork w = (r, w') /\ forks w' = rs /\ same_streams w w';
  sys_wait_spec w : exists r w', sys_wait w = (r, w') /\ forks w' = forks w /\ same_streams w w';
  sys_exec_spec p v w : exists r w', sys_exec p v w = (r, w') /\ same_streams w w';
  sys_read_forks fd n w r w' : sys_read fd n w = (r, w') -> forks w' = forks w
}.
Arguments forks {_ _ _} w.

(** One call of [write]. *)
Definition wrote `{UserOS} (w w' : world) : Prop := exists fd bs r, sys_write fd bs w = (r, w').

(** From [w] to [w'] exactly [bs] was written, to [fd], and no other call made; it
    arrived if the descriptor can be written. *)
Record emitted `{StreamOS} (fd : Z) (bs : list Z) (w w' : world) : Prop := mkemitted {
  em_here : writable w fd = true -> outp w' fd = outp w fd ++ bs;
  em_other fd' : fd' <> fd -> outp w' fd' = outp w fd';
  em_inp fd' : inp w' fd' = inp w fd';
  em_readable fd' : readable w' fd' = readable w fd';
  em_writable fd' : writable w' fd' = writable w fd';
  em_wrote : rtc wrote w w'
}.

Section Emit.
Context `{StreamOS}.

Lemma emitted_nil fd w : emitted fd [] w w.
Proof. split; try done. intros _. by rewrite app_nil_r. Qed.

Lemma emitted_app fd b1 b2 w w1 w2 :
  emitted fd b1 w w1 -> emitted fd b2 w1 w2 -> emitted fd (b1 ++ b2) w w2.
Proof.
  intros [H1 O1 I1 R1 V1 W1] [H2 O2 I2 R2 V2 W2]. split.
  - intros Hw. by rewrite H2, H1, app_assoc by congruence.
  - intros fd' Hne. by rewrite O2, O1.
  - intros fd'. by rewrite I2.
  - intros fd'. by rewrite R2.
  - intros fd'. by rewrite V2.
  - by etransitivity.
Qed.

(** All descriptors at once, when the bytes arrive. *)
Lemma emitted_outp fd bs w w' : emitted fd bs w w' -> writable w fd = true ->
  forall fd', outp w' fd' = if decide (fd' = fd) then outp w fd ++ bs else outp w fd'.
Proof. intros E Hw fd'. case_decide as Hd; [subst; by apply E|by apply E]. Qed.

Lemma uwrite_run fd bs w : exists r w', uwrite fd bs w = UOk r w' /\ emitted fd bs w w' /\
  (writable w fd = true -> r = Z.of_nat (length bs)).
Proof.
  destruct (sys_write_spec fd bs w) as (r & w' & Hw & Hh & Ho & Hi & Hr & Hv). exists r, w'.
  split; [unfold uwrite, ucall; by rewrite Hw|]. split; [|by intros [? _]%Hh]. split; try done; [by intros [_ ?]%Hh|].
  apply rtc_once. by eexists _, _, _.
Qed.

End Emit.

(** ** A small system

    Input streams by descriptor, delivered in pieces of at most [dm_chunk] bytes, from
    the descriptors that have one; output collected for standard output and standard
    error; the results of the forks to come; [exec] of any command but [none]; the
    other calls fail. *)
Record demo : Type := mkdemo {
  dm_in : gmap Z (list Z);
  dm_out : gmap Z (list Z);
  dm_chunk : positive;
  dm_forks : list Z
}.

Definition demo_read (fd n : Z) (w : demo) : (Z * list Z) * demo :=
  match dm_in w !! fd with
  | None => ((-1, []), w)
  | Some l =>
      let k := take (Z.to_nat (Z.min n (Z.pos (dm_chunk w)))) l in
      ((Z.of_nat (length k), k),
       mkdemo (<[fd := drop (length k) l]> (dm_in w)) (dm_out w) (dm_chunk w) (dm_forks w))
  end.
Definition demo_writable (fd : Z) : bool := (fd =? 1) || (fd =? 2).
Definition demo_write (fd : Z) (bs : list Z) (w : demo) : Z * demo :=
  if demo_writable fd then
    (Z.of_nat (length bs),
     mkdemo (dm_in w) (<[fd := default [] (dm_out w !! fd) ++ bs]> (dm_out w)) (dm_chunk w) (dm_forks w))
  else (-1, w).
Definition demo_fork (w : demo) : Z * demo :=
  match dm_forks w with
  | [] => (-1, w)
  | r :: rs => (r, mkdemo (dm_in w) (dm_out w) (dm_chunk w) rs)
  end.

#[export] Instance demo_os : UserOS := {|
  world := demo; sys_read := demo_read; sys_write := demo_write; sys_fork := demo_fork;
  sys_open := fun _ _ w => (-1, w); sys_close := fun _ w => (0, w);
  sys_fstat := fun _ w => ((-1, mkustat 0 0 0), w); sys_mkdir := fun _ w => (-1, w);
  sys_mknod := fun _ _ _ w => (-1, w); sys_link := fun _ _ w => (-1, w); sys_unlink := fun _ w => (-1, w);
  sys_chdir := fun _ w => (-1, w); sys_dup := fun _ w => (-1, w); sys_pipe := fun w => ((-1, (0, 0)), w);
  sys_wait := fun w => ((1, 0), w); sys_kill := fun _ w => (-1, w); sys_exec := fun p _ w => (if bool_decide (p = zstr "none") then Some (-1) else None, w);
  sys_sbrk := fun _ w => (-1, w); sys_sleep := fun _ w => (0, w); sys_getpid := fun w => (1, w)
|}.

#[export] Instance demo_streams : @StreamOS demo_os.
Proof.
  unshelve refine (@Build_StreamOS demo_os (fun w fd => default [] (dm_in w !! fd))
    (fun w fd => default [] (dm_out w !! fd)) (fun w fd => bool_decide (is_Some (dm_in w !! fd))) (fun _ => demo_writable) _ _).
  - intros fd n w Hn Hr. cbn in *. unfold demo_read. apply bool_decide_eq_true in Hr as [l Hl]. rewrite Hl.
    eexists _, _. split; [reflexivity|]. cbn [dm_in dm_out from_option id]. set (m := Z.to_nat _).
    rewrite lookup_insert_eq. cbn [from_option id]. split_and!; try done.
    + rewrite length_take. destruct (Nat.le_ge_cases m (length l)).
      * by rewrite Nat.min_l, take_drop by done.
      * by rewrite Nat.min_r, drop_all, take_ge, app_nil_r by done.
    + rewrite length_take. lia.
    + intros Hn' Hne Hk. apply (f_equal length) in Hk. rewrite length_take in Hk. destruct l; [done|]. cbn in Hk. lia.
    + intros fd' Hne. by rewrite lookup_insert_ne.
    + intros fd'. destruct (decide (fd' = fd)) as [->|]; [by rewrite lookup_insert_eq, Hl|by rewrite lookup_insert_ne].
  - intros fd bs w. cbn. unfold demo_write. destruct (demo_writable fd) eqn:E; eexists _, _; (split; [reflexivity|]); cbn [dm_in dm_out];
      split_and!; try done; [by rewrite lookup_insert_eq|]. intros fd' Hne. by rewrite lookup_insert_ne.
Defined.

#[export] Instance demo_procs : @ProcOS demo_os demo_streams.
Proof.
  unshelve refine (@Build_ProcOS demo_os demo_streams dm_forks _ _ _ _).
  - intros w r rs Hf. cbn in *. unfold demo_fork. rewrite Hf. by eexists.
  - intros w. by eexists _, _.
  - intros p v w. by eexists _, _.
  - intros fd n w r w' H. cbn in H. unfold demo_read in H. destruct (dm_in w !! fd); by injection H as <- <-.
Defined.
