(* ===== verification/Ulib.v ===== *)
(** * user/ulib.c and user/printf.c

    The C library of the user programs.  The string functions work on character
    arrays given from the pointer on, as in [StringC]; a store beyond the array
    is a fault.  Formatted output is a sequence of one-byte writes. *)

From stdpp Require Import base gmap strings numbers list.
From Stdlib Require Import Ascii.
From S2P Require Import Prelude KState StringC Spinlock Printf UserOS.

(** ** ulib.c: strings and memory *)

(** The loop copies up to and including the NUL. *)
Fixpoint strcpy (s t : list Z) : option (list Z) :=
  match s with
  | [] => None
  | _ :: s' => if ch t =? 0 then Some (0 :: s') else (fun l => ch t :: l) <$> strcpy s' (tail t)
  end.

(** while(p[0] && p[0] == q[0]) p++, q++; *)
Fixpoint strcmp (p q : list Z) : Z :=
  match p with
  | [] => 0 - ch q
  | c :: p' => if negb (c =? 0) && (c =? ch q) then strcmp p' (tail q) else c - ch q
  end.

Fixpoint ulib_strlen (s : list Z) : Z :=
  match s with
  | [] => 0
  | c :: s' => if c =? 0 then 0 else 1 + ulib_strlen s'
  end.

Fixpoint ulib_memset_loop (k : nat) (m : gmap Z Z) (cdst c i : Z) : gmap Z Z :=
  match k with
  | O => m
  | S k' => ulib_memset_loop k' (st8 m (cdst + i) (u8 c)) cdst c (i + 1)
  end.
Definition ulib_memset (m : gmap Z Z) (dst c n : Z) : gmap Z Z := ulib_memset_loop (Z.to_nat n) m dst c 0.

(** The pointer to the first [c], as the array from there on. *)
Fixpoint strchr (s : list Z) (c : Z) : option (list Z) :=
  match s with
  | [] => None
  | x :: s' => if x =? 0 then None else if x =? c then Some s else strchr s' c
  end.

Fixpoint atoi_loop (s : list Z) (n : Z) : Z :=
  match s with
  | [] => n
  | c :: s' => if (48 <=? c) && (c <=? 57) then atoi_loop s' (i32 (n * 10 + c - 48)) else n
  end.
Definition atoi (s : list Z) : Z := atoi_loop s 0.

Definition ulib_memmove (m : gmap Z Z) (vdst vsrc n : Z) : gmap Z Z :=
  if vdst <? vsrc then copy_fwd (Z.to_nat n) m vdst vsrc
  else copy_bwd (Z.to_nat n) m (vdst + n) (vsrc + n).

Fixpoint ulib_memcmp_loop (k : nat) (m : gmap Z Z) (p1 p2 : Z) : Z :=
  match k with
  | O => 0
  | S k' =>
      if negb (ld8 m p1 =? ld8 m p2) then ld8 m p1 - ld8 m p2
      else ulib_memcmp_loop k' m (p1 + 1) (p2 + 1)
  end.
Definition ulib_memcmp (m : gmap Z Z) (s1 s2 n : Z) : Z := ulib_memcmp_loop (Z.to_nat n) m s1 s2.

(** ** printf.c *)

Definition udigits : list Z := zstr "0123456789ABCDEF".

Fixpoint udigits_loop (n : nat) (x base : Z) : list Z :=
  match n with
  | O => []
  | S n' =>
      nth (Z.to_nat (x mod base)) udigits 0
        :: (if x / base =? 0 then [] else udigits_loop n' (x / base) base)
  end.

Section Ulib.
Context {Sys : UserOS}.

(** for(i=0; i+1 < max; ) { cc = read(0, &c, 1); ... }, [acc] the characters read. *)
Fixpoint gets_loop (k : nat) (acc : list Z) : U (list Z) :=
  match k with
  | O => mret acc
  | S k' =>
      '(cc, cs) ← uread 0 1;
      if cc <? 1 then mret acc else
      let c := ch cs in
      if (c =? 10) || (c =? 13) then mret (acc ++ [c]) else gets_loop k' (acc ++ [c])
  end.
(** What [gets] leaves in [buf], before what [buf] held behind it. *)
Definition ulib_gets (max : Z) : U (list Z) :=
  l ← gets_loop (Z.to_nat (max - 1)) [];
  mret (l ++ [0]).

Definition ulib_stat (n : list Z) : U (Z * ustat) :=
  fd ← uopen n 0;
  if fd <? 0 then mret (-1, mkustat 0 0 0) else
  '(r, st) ← ufstat fd;
  uclose fd;;
  mret (r, st).

Definition putc (fd c : Z) : U unit := uwrite fd [c];; mret ().

(** [printint]'s [xx] is an [int], its [x] a [uint]. *)
Definition uprintint (fd xx base : Z) (sgn : bool) : U unit :=
  let xx := i32 xx in
  let neg := sgn && (xx <? 0) in
  let x := if neg then u32 (- xx) else u32 xx in
  let buf := udigits_loop 32 x base ++ (if neg then zstr "-" else []) in
  if (16 <? length buf)%nat then ufault "printint: buf overrun"
  else ufor (reverse buf) (putc fd).

Fixpoint uprintptr_loop (n : nat) (fd x : Z) : U unit :=
  match n with
  | O => mret ()
  | S n' => putc fd (nth (Z.to_nat (Z.shiftr x 60)) udigits 0);; uprintptr_loop n' fd (u64 (Z.shiftl x 4))
  end.
Definition uprintptr (fd x : Z) : U unit :=
  putc fd (chr "0");; putc fd (chr "x");; uprintptr_loop 16 fd x.

Definition uva_num (ap : list parg) : U (Z * list parg) :=
  match ap with
  | AInt z :: ap' => mret (z, ap')
  | _ => ufault "va_arg"
  end.
Definition uva_str (ap : list parg) : U (option (list Z) * list parg) :=
  match ap with
  | AStr s :: ap' => mret (s, ap')
  | _ => ufault "va_arg"
  end.

(** The loop over the format from [i] on; [pct] is [state == '%'], [skip] the
    characters that [i += 1] and [i += 2] jump over. *)
Fixpoint vprintf_loop (fd : Z) (fmt : list Z) (skip : nat) (pct : bool) (ap : list parg) : U unit :=
  match fmt with
  | [] => mret ()
  | c0 :: f =>
      if c0 =? 0 then mret () else
      match skip with
      | S skip' => vprintf_loop fd f skip' pct ap
      | O =>
          if negb pct then
            if c0 =? chr "%" then vprintf_loop fd f 0 true ap
            else putc fd c0;; vprintf_loop fd f 0 false ap
          else
          let c1 := ch f in
          let c2 := if c1 =? 0 then 0 else ch (tail f) in
          let num base sgn k :=
            '(z, ap') ← uva_num ap;
            uprintint fd z base sgn;;
            vprintf_loop fd f k false ap' in
          if c0 =? chr "d" then num 10 true 0%nat
          else if (c0 =? chr "l") && (c1 =? chr "d") then num 10 true 1%nat
          else if (c0 =? chr "l") && (c1 =? chr "l") && (c2 =? chr "d") then num 10 true 2%nat
          else if c0 =? chr "u" then num 10 false 0%nat
          else if (c0 =? chr "l") && (c1 =? chr "u") then num 10 false 1%nat
          else if (c0 =? chr "l") && (c1 =? chr "l") && (c2 =? chr "u") then num 10 false 2%nat
          else if c0 =? chr "x" then num 16 false 0%nat
          else if (c0 =? chr "l") && (c1 =? chr "x") then num 16 false 1%nat
          else if (c0 =? chr "l") && (c1 =? chr "l") && (c2 =? chr "x") then num 16 false 2%nat
          else if c0 =? chr "p" then
            '(z, ap') ← uva_num ap;
            uprintptr fd (u64 z);;
            vprintf_loop fd f 0 false ap'
          else if c0 =? chr "s" then
            '(s, ap') ← uva_str ap;
            ufor (cstr (default (zstr "(null)") s)) (putc fd);;
            vprintf_loop fd f 0 false ap'
          else if c0 =? chr "%" then putc fd (chr "%");; vprintf_loop fd f 0 false ap
          else putc fd (chr "%");; putc fd c0;; vprintf_loop fd f 0 false ap
      end
  end.

Definition vprintf (fd : Z) (fmt : list Z) (ap : list parg) : U unit := vprintf_loop fd fmt 0 false ap.
Definition ufprintf (fd : Z) (fmt : list Z) (ap : list parg) : U unit := vprintf fd fmt ap.
Definition uprintf (fmt : list Z) (ap : list parg) : U unit := vprintf 1 fmt ap.

End Ulib.

(** ** Strings *)

Lemma strcmp_eq p q : strcmp p q = 0 <-> cstr p = cstr q.
Proof.
  revert q. induction p as [|c p IH]; intros q; cbn.
  - destruct q as [|d q]; cbn; [done|]. destruct (Z.eqb_spec d 0); [by subst|]. split; [lia|done].
  - destruct (Z.eqb_spec c 0) as [->|Hc]; cbn.
    + destruct q as [|d q]; cbn; [done|]. destruct (Z.eqb_spec d 0); [by subst|]. split; [lia|done].
    + destruct q as [|d q]; cbn.
      * rewrite (proj2 (Z.eqb_neq _ _)) by done. split; [lia|done].
      * destruct (Z.eqb_spec c d) as [->|Hne].
        { rewrite IH, (proj2 (Z.eqb_neq _ _)) by done. split; [by intros ->|by intros [= ->]]. }
        split; [lia|]. destruct (d =? 0); [done|]. by intros [= ? ?].
Qed.

Lemma strcpy_spec s t :
  (length (cstr t) < length s)%nat ->
  strcpy s t = Some (cstr t ++ 0 :: drop (S (length (cstr t))) s).
Proof.
  revert t. induction s as [|x s IH]; intros t Hl; [cbn in Hl; lia|]. cbn [strcpy].
  destruct t as [|c t]; cbn in *; [done|]. destruct (Z.eqb_spec c 0) as [->|Hc]; cbn in *; [done|].
  rewrite IH by lia. done.
Qed.

Lemma strcpy_overruns s t : (length s <= length (cstr t))%nat -> strcpy s t = None.
Proof.
  revert t. induction s as [|x s IH]; intros t Hl; [done|]. cbn [strcpy].
  destruct t as [|c t]; cbn in *; [lia|]. destruct (Z.eqb_spec c 0); cbn in *; [lia|].
  by rewrite IH by lia.
Qed.

Lemma strchr_split s c :
  c <> 0 -> match strchr s c with
  | Some q => exists u q', s = u ++ q /\ q = c :: q' /\ c ∉ u /\ 0 ∉ u
  | None => c ∉ cstr s
  end.
Proof.
  intros Hc. induction s as [|x s IH]; cbn; [apply not_elem_of_nil|].
  destruct (Z.eqb_spec x 0) as [->|Hx]; [apply not_elem_of_nil|].
  destruct (Z.eqb_spec x c) as [->|Hxc].
  - exists [], s. split_and!; [done..|apply not_elem_of_nil|apply not_elem_of_nil].
  - destruct (strchr s c) as [q|].
    + destruct IH as (u & q' & -> & -> & Hu & H0). exists (x :: u), q'.
      split_and!; [done..| |]; rewrite not_elem_of_cons; auto.
    + rewrite not_elem_of_cons. auto.
Qed.

(** ** Numbers *)

Lemma udigit_nth d : 0 <= d < 10 -> nth (Z.to_nat d) udigits 0 = 48 + d.
Proof.
  intros Hd. assert (H : Forall (fun i => nth i udigits 0 = 48 + Z.of_nat i) (seq 0 10))
    by (apply (bool_decide_unpack _); vm_compute; exact I).
  rewrite list.Forall_forall in H. rewrite H by (apply elem_of_seq; lia). lia.
Qed.

(** The decimal digits of [x] are digit characters. *)
Lemma udigits_decimal n x : 0 <= x -> Forall (fun c => 48 <= c <= 57) (udigits_loop n x 10).
Proof.
  revert x. induction n as [|n IH]; intros x Hx; cbn [udigits_loop]; [done|].
  pose proof (Z.mod_pos_bound x 10 ltac:(lia)). rewrite udigit_nth by lia.
  constructor; [lia|]. destruct (_ =? 0); [done|]. apply IH. apply Z.div_pos; lia.
Qed.

Lemma atoi_loop_app l1 l2 n :
  Forall (fun c => 48 <= c <= 57) l1 -> atoi_loop (l1 ++ l2) n = atoi_loop l2 (atoi_loop l1 n).
Proof.
  intros H. revert n. induction H as [|c l1 Hc H IH]; intros n; [done|]. cbn.
  rewrite (proj2 (Z.leb_le _ _)), (proj2 (Z.leb_le _ _)) by lia. cbn. apply IH.
Qed.

(** Reading back the digits of [x], most significant first. *)
Lemma atoi_udigits n x :
  0 <= x < 2 ^ 31 -> x < 10 ^ Z.of_nat n -> (0 < n)%nat ->
  atoi_loop (reverse (udigits_loop n x 10)) 0 = x.
Proof.
  revert x. induction n as [|n IH]; intros x Hx Hlt Hn; [lia|].
  pose proof (Z.mod_pos_bound x 10 ltac:(lia)) as Hm. pose proof (Z.div_mod x 10 ltac:(lia)) as Hdm.
  cbn [udigits_loop]. rewrite udigit_nth, reverse_cons by lia.
  assert (Hlast : forall v, 0 <= v -> v * 10 + x mod 10 = x -> atoi_loop [48 + x mod 10] v = x).
  { intros v Hv Heq. cbn. rewrite !(proj2 (Z.leb_le _ _)) by lia. cbn. rewrite i32_id; lia. }
  rewrite atoi_loop_app.
  2: { rewrite Forall_reverse. destruct (_ =? 0); [done|]. apply udigits_decimal. apply Z.div_pos; lia. }
  destruct (Z.eqb_spec (x / 10) 0) as [H0|H0].
  - apply Hlast; cbn; lia.
  - assert (Hd : x / 10 < 10 ^ Z.of_nat n).
    { apply Z.div_lt_upper_bound; [lia|]. rewrite Nat2Z.inj_succ, Z.pow_succ_r in Hlt by lia. lia. }
    assert (0 <= x / 10) by (apply Z.div_pos; lia).
    rewrite IH; [apply Hlast; lia|lia|done|]. destruct n; [cbn in Hd; lia|lia].
Qed.

Lemma udigits_length n m x base :
  2 <= base -> 0 <= x < base ^ Z.of_nat m -> (0 < m)%nat ->
  (length (udigits_loop n x base) <= m)%nat.
Proof.
  revert m x. induction n as [|n IH]; intros m x Hb Hx Hm; cbn [udigits_loop length]; [lia|].
  destruct (Z.eqb_spec (x / base) 0) as [H0|H0]; [cbn; lia|].
  destruct m as [|m]; [lia|].
  assert (Hlt : x / base < base ^ Z.of_nat m).
  { apply Z.div_lt_upper_bound; [lia|]. rewrite Nat2Z.inj_succ, Z.pow_succ_r in Hx by lia. lia. }
  assert (0 <= x / base) by (apply Z.div_pos; lia).
  assert (0 < m)%nat by (destruct m; [cbn in Hlt; lia|lia]).
  specialize (IH m (x / base) Hb ltac:(lia) ltac:(lia)). lia.
Qed.

(** ** Output *)

Section Output.
Context `{StreamOS}.

Lemma putc_run fd c w : exists w', putc fd c w = UOk () w' /\ emitted fd [c] w w'.
Proof.
  destruct (uwrite_run fd [c] w) as (r & w' & Hw & He & _). exists w'. split; [|done].
  unfold putc. by rewrite (ubind_ok _ _ _ _ _ Hw).
Qed.

Lemma uputs_run fd l w : exists w', ufor l (putc fd) w = UOk () w' /\ emitted fd l w w'.
Proof.
  revert w. induction l as [|c l IH]; intros w; [exists w; split; [done|apply emitted_nil]|].
  destruct (putc_run fd c w) as (w1 & H1 & E1). destruct (IH w1) as (w2 & H2 & E2).
  exists w2. cbn [ufor]. rewrite (ubind_ok _ _ _ _ _ H1). split; [done|].
  apply (emitted_app fd [c] l _ _ _ E1 E2).
Qed.

(** The bytes of a formatted number. *)
Definition num_bytes (xx base : Z) (sgn : bool) : list Z :=
  let xx := i32 xx in
  let neg := sgn && (xx <? 0) in
  reverse (udigits_loop 32 (if neg then u32 (- xx) else u32 xx) base ++ (if neg then zstr "-" else [])).

Lemma num_bytes_length xx base sgn : 10 <= base <= 16 -> (length (num_bytes xx base sgn) <= 11)%nat.
Proof.
  intros Hb. unfold num_bytes. cbv zeta. set (neg := sgn && _). set (x := if neg then _ else _).
  assert (Hxr : 0 <= x < 2 ^ 32) by (unfold x, u32; destruct neg; apply Z.mod_pos_bound; lia).
  assert (Hpow : 10 ^ Z.of_nat 10 <= base ^ Z.of_nat 10) by (apply Z.pow_le_mono_l; lia).
  assert (Hlen : (length (udigits_loop 32 x base) <= 10)%nat).
  { apply udigits_length; [lia| |lia]. change (10 ^ Z.of_nat 10) with 10000000000 in Hpow. lia. }
  rewrite length_reverse, length_app.
  destruct neg; [change (length (zstr "-")) with 1%nat|change (length []) with 0%nat]; lia.
Qed.

Lemma uprintint_run fd xx base sgn w :
  10 <= base <= 16 ->
  exists w', uprintint fd xx base sgn w = UOk () w' /\ emitted fd (num_bytes xx base sgn) w w'.
Proof.
  intros Hb. pose proof (num_bytes_length xx base sgn Hb) as Hl. unfold num_bytes in *. unfold uprintint.
  cbv zeta in *. rewrite length_reverse in Hl. rewrite (proj2 (Nat.ltb_ge _ _)) by lia. apply uputs_run.
Qed.

Fixpoint ptr_bytes (n : nat) (x : Z) : list Z :=
  match n with
  | O => []
  | S n' => nth (Z.to_nat (Z.shiftr x 60)) udigits 0 :: ptr_bytes n' (u64 (Z.shiftl x 4))
  end.

Lemma uprintptr_run fd x w :
  exists w', uprintptr fd x w = UOk () w' /\ emitted fd (zstr "0x" ++ ptr_bytes 16 x) w w'.
Proof.
  assert (Hloop : forall n x w, exists w', uprintptr_loop n fd x w = UOk () w' /\ emitted fd (ptr_bytes n x) w w').
  { clear x w. induction n as [|n IH]; intros x w; [exists w; split; [done|apply emitted_nil]|].
    destruct (putc_run fd (nth (Z.to_nat (Z.shiftr x 60)) udigits 0) w) as (w1 & H1 & E1).
    destruct (IH (u64 (Z.shiftl x 4)) w1) as (w2 & H2 & E2). exists w2. cbn [uprintptr_loop].
    rewrite (ubind_ok _ _ _ _ _ H1). split; [done|]. apply (emitted_app _ [_] _ _ _ _ E1 E2). }
  destruct (putc_run fd (chr "0") w) as (w1 & H1 & E1). destruct (putc_run fd (chr "x") w1) as (w2 & H2 & E2).
  destruct (Hloop 16%nat x w2) as (w3 & H3 & E3). exists w3. unfold uprintptr.
  rewrite (ubind_ok _ _ _ _ _ H1), (ubind_ok _ _ _ _ _ H2). split; [done|].
  apply (emitted_app _ [_] _ _ _ _ E1). apply (emitted_app _ [_] _ _ _ _ E2 E3).
Qed.

(** What [vprintf] prints: the conversion at the beginning of [c0 :: f], with the
    bytes, the characters it takes beyond [c0], and the arguments left. *)
Definition conv (c0 : Z) (f : list Z) (ap : list parg) : option (list Z * nat * list parg) :=
  let c1 := ch f in
  let c2 := if c1 =? 0 then 0 else ch (tail f) in
  let num base sgn (k : nat) :=
    match ap with AInt z :: ap' => Some (num_bytes z base sgn, k, ap') | _ => None end in
  if c0 =? chr "d" then num 10 true 0%nat
  else if (c0 =? chr "l") && (c1 =? chr "d") then num 10 true 1%nat
  else if (c0 =? chr "l") && (c1 =? chr "l") && (c2 =? chr "d") then num 10 true 2%nat
  else if c0 =? chr "u" then num 10 false 0%nat
  else if (c0 =? chr "l") && (c1 =? chr "u") then num 10 false 1%nat
  else if (c0 =? chr "l") && (c1 =? chr "l") && (c2 =? chr "u") then num 10 false 2%nat
  else if c0 =? chr "x" then num 16 false 0%nat
  else if (c0 =? chr "l") && (c1 =? chr "x") then num 16 false 1%nat
  else if (c0 =? chr "l") && (c1 =? chr "l") && (c2 =? chr "x") then num 16 false 2%nat
  else if c0 =? chr "p" then
    match ap with AInt z :: ap' => Some (zstr "0x" ++ ptr_bytes 16 (u64 z), 0%nat, ap') | _ => None end
  else if c0 =? chr "s" then
    match ap with AStr s :: ap' => Some (cstr (default (zstr "(null)") s), 0%nat, ap') | _ => None end
  else if c0 =? chr "%" then Some (zstr "%", 0%nat, ap)
  else Some ([chr "%"; c0], 0%nat, ap).

Fixpoint render (fmt : list Z) (skip : nat) (pct : bool) (ap : list parg) : option (list Z) :=
  match fmt with
  | [] => Some []
  | c0 :: f =>
      if c0 =? 0 then Some [] else
      match skip with
      | S skip' => render f skip' pct ap
      | O =>
          if negb pct then
            if c0 =? chr "%" then render f 0 true ap else (fun r => c0 :: r) <$> render f 0 false ap
          else '(bs, k, ap') ← conv c0 f ap; r ← render f k false ap'; Some (bs ++ r)
      end
  end.

Lemma some_triple {A B C} (a a' : A) (b b' : B) (c c' : C) :
  Some (a, b, c) = Some (a', b', c') -> a = a' /\ b = b' /\ c = c'.
Proof. by intros [= -> -> ->]. Qed.

(** The step of [vprintf_loop] at a conversion. *)
Lemma conv_step fd c0 f ap bs k ap' w :
  conv c0 f ap = Some (bs, k, ap') -> c0 <> 0 ->
  exists w', vprintf_loop fd (c0 :: f) 0 true ap w = vprintf_loop fd f k false ap' w' /\ emitted fd bs w w'.
Proof.
  intros Hc H0.
  assert (Hnum : forall base sgn k0, 10 <= base <= 16 ->
    match ap with AInt z :: ap1 => Some (num_bytes z base sgn, k0, ap1) | _ => None end = Some (bs, k, ap') ->
    exists w', ('(z, ap') ← uva_num ap; uprintint fd z base sgn;; vprintf_loop fd f k0 false ap') w
      = vprintf_loop fd f k false ap' w' /\ emitted fd bs w w').
  { intros base sgn k0 Hb Hn. destruct ap as [|[z|] ap1]; try done. injection Hn as <- <- <-.
    destruct (uprintint_run fd z base sgn w Hb) as (w1 & H1 & E1). exists w1. split; [|done].
    unfold uva_num. rewrite (ubind_ok _ _ w (z, ap1) w) by done. by rewrite (ubind_ok _ _ _ _ _ H1). }
  cbn [vprintf_loop negb]. rewrite (proj2 (Z.eqb_neq _ _)) by done. unfold conv in Hc. cbv zeta in Hc |- *.
  do 9 (match type of Hc with (if ?b then _ else _) = _ => destruct b end; [apply Hnum; [lia|exact Hc]|]).
  clear Hnum. match type of Hc with (if ?b then _ else _) = _ => destruct b end.
  { destruct ap as [|[z|] ap1]; try done. apply some_triple in Hc as (<- & <- & <-).
    destruct (uprintptr_run fd (u64 z) w) as (w1 & H1 & E1). exists w1. split; [|done].
    unfold uva_num. rewrite (ubind_ok _ _ w (z, ap1) w) by done. by rewrite (ubind_ok _ _ _ _ _ H1). }
  match type of Hc with (if ?b then _ else _) = _ => destruct b end.
  { destruct ap as [|[|s] ap1]; try done. apply some_triple in Hc as (<- & <- & <-).
    destruct (uputs_run fd (cstr (default (zstr "(null)") s)) w) as (w1 & H1 & E1). exists w1. split; [|done].
    unfold uva_str. rewrite (ubind_ok _ _ w (s, ap1) w) by done. by rewrite (ubind_ok _ _ _ _ _ H1). }
  destruct (putc_run fd (chr "%") w) as (w1 & H1 & E1).
  destruct (c0 =? chr "%"); apply some_triple in Hc as (<- & <- & <-).
  - exists w1. by rewrite (ubind_ok _ _ _ _ _ H1).
  - destruct (putc_run fd c0 w1) as (w2 & H2 & E2). exists w2.
    rewrite (ubind_ok _ _ _ _ _ H1), (ubind_ok _ _ _ _ _ H2). split; [done|].
    apply (emitted_app _ [_] _ _ _ _ E1 E2).
Qed.

Lemma vprintf_run fd fmt skip pct ap bs w :
  render fmt skip pct ap = Some bs ->
  exists w', vprintf_loop fd fmt skip pct ap w = UOk () w' /\ emitted fd bs w w'.
Proof.
  revert skip pct ap bs w. induction fmt as [|c0 f IH]; intros skip pct ap bs w Hr; cbn [render] in Hr.
  - injection Hr as <-. exists w. split; [done|apply emitted_nil].
  - destruct (Z.eqb_spec c0 0) as [->|H0]; [injection Hr as <-; exists w; split; [done|apply emitted_nil]|].
    destruct skip as [|skip].
    + destruct pct; cbn [negb] in Hr.
      * destruct (conv c0 f ap) as [[[bs1 k] ap']|] eqn:Hc; [|done]. cbn in Hr.
        destruct (render f k false ap') as [r|] eqn:Hr'; [|done]. injection Hr as <-.
        destruct (conv_step fd c0 f ap bs1 k ap' w Hc H0) as (w1 & -> & E1).
        destruct (IH _ _ _ _ w1 Hr') as (w2 & H2 & E2). exists w2. split; [done|by eapply emitted_app].
      * cbn [vprintf_loop negb]. rewrite (proj2 (Z.eqb_neq _ _)) by done.
        destruct (c0 =? chr "%"); [by apply IH|].
        destruct (render f 0 false ap) as [r|] eqn:Hr'; [|done]. injection Hr as <-.
        destruct (putc_run fd c0 w) as (w1 & H1 & E1). destruct (IH _ _ _ _ w1 Hr') as (w2 & H2 & E2).
        exists w2. rewrite (ubind_ok _ _ _ _ _ H1). split; [done|]. apply (emitted_app _ [_] _ _ _ _ E1 E2).
    + cbn [vprintf_loop]. rewrite (proj2 (Z.eqb_neq _ _)) by done. by apply IH.
Qed.

(** The user library's [printint] prints every [int] within its 16-byte
    buffer, in every base from 10 to 16, by one-byte writes to the descriptor
    and nothing else; and [atoi] reads back what it prints in base 10 of a
    number that is not negative. *)
Theorem printint_atoi fd xx base sgn w :
  10 <= base <= 16 -> - 2 ^ 31 <= xx < 2 ^ 31 ->
  exists w' ds, uprintint fd xx base sgn w = UOk () w' /\ emitted fd ds w w' /\
    (length ds <= 11)%nat /\ (0 <= xx -> base = 10 -> forall rest, (ch rest < 48 \/ 57 < ch rest) -> atoi (ds ++ rest) = xx).
Proof.
  intros Hb Hx. destruct (uprintint_run fd xx base sgn w Hb) as (w' & Hw & He).
  exists w', (num_bytes xx base sgn). split_and!; [done|done|by apply num_bytes_length|].
  intros Hpos -> rest Hrest. unfold num_bytes. rewrite i32_id by done. cbv zeta.
  replace (sgn && (xx <? 0)) with false by (destruct (Z.ltb_spec xx 0); [lia|by rewrite andb_false_r]).
  unfold u32. rewrite app_nil_r, Z.mod_small by lia. unfold atoi. rewrite atoi_loop_app
    by (rewrite Forall_reverse; apply udigits_decimal; lia).
  rewrite atoi_udigits; [|lia| |lia].
  - destruct rest as [|c rest]; [done|]. cbn in *. replace ((48 <=? c) && (c <=? 57)) with false; [done|].
    symmetry. apply andb_false_iff. rewrite !Z.leb_gt. lia.
  - change (10 ^ Z.of_nat 32) with 100000000000000000000000000000000. lia.
Qed.

End Output.

Lemma printint_atoi_witness :
  exists w' ds, @uprintint demo_os 1 280 10 true (mkdemo ∅ ∅ 3 []) = UOk () w' /\
    @emitted demo_os demo_streams 1 ds (mkdemo ∅ ∅ 3 []) w' /\ (length ds <= 11)%nat /\ atoi (ds ++ [10]) = 280.
Proof.
  destruct (@printint_atoi demo_os demo_streams 1 280 10 true (mkdemo ∅ ∅ 3 [])) as (w' & ds & H1 & H2 & H3 & H4); [lia|lia|].
  exists w', ds. split_and!; [done..|]. apply H4; [lia|done|]. left. cbn. lia.
Defined.

Arguments vprintf : simpl never.
Arguments ufprintf : simpl never.
Arguments uprintf : simpl never.
Arguments num_bytes : simpl never.
