(* ===== verification/Grep.v ===== *)
(** * user/grep.c

    The Kernighan-Pike matcher, proved equal to a declarative semantics of its
    patterns, and the line loop, proved to print exactly the matching lines, up to the
    first that does not fit the buffer, however the input is cut into reads. *)

From stdpp Require Import base gmap strings numbers list.
From Stdlib Require Import Ascii.
From S2P Require Import Prelude KState StringC Spinlock Printf UserOS Ulib.

(** ** The matcher *)

(** matchstar: search for c*re at beginning of text; [mh] is [matchhere(re, .)]. *)
Fixpoint matchstar (mh : list Z -> bool) (c : Z) (text : list Z) : bool :=
  if mh text then true else
  match text with
  | [] => false
  | x :: text' => if (x =? c) || (c =? chr ".") then matchstar mh c text' else false
  end.

(** matchhere: search for re at beginning of text *)
Fixpoint matchhere (re text : list Z) {struct re} : bool :=
  match re with
  | [] => true
  | c :: re1 =>
      let step :=
        if (c =? chr "$") && (match re1 with [] => true | _ => false end)
        then match text with [] => true | _ => false end
        else match text with
        | [] => false
        | x :: text' => if (c =? chr ".") || (c =? x) then matchhere re1 text' else false
        end in
      match re1 with
      | d :: re2 => if d =? chr "*" then matchstar (matchhere re2) c text else step
      | [] => step
      end
  end.

Fixpoint match_loop (re text : list Z) : bool :=
  if matchhere re text then true else
  match text with
  | [] => false
  | _ :: text' => match_loop re text'
  end.

Definition grep_match (re text : list Z) : bool :=
  match re with
  | c :: re1 => if c =? chr "^" then matchhere re1 text else match_loop re text
  | [] => match_loop re text
  end.

(** ** The line loop

    [b] is what [buf] holds before the NUL that [grep] stores behind it. *)

Section Grep.
Context {Sys : UserOS}.

(** while((q = strchr(p, '\n')) != 0) ...; the result is [p] after the loop. *)
Fixpoint grep_lines (k : nat) (pattern p : list Z) : U (list Z) :=
  match k with
  | O => uspin
  | S k' =>
      match strchr p 10 with
      | None => mret p
      | Some q =>
          let line := take (length p - length q) p in
          uwhen (grep_match pattern line) (uwrite 1 (line ++ [10]);; mret ());;
          grep_lines k' pattern (tail q)
      end
  end.

(** while((n = read(fd, buf+m, sizeof(buf)-m-1)) > 0) ..., at most [k] rounds. *)
Fixpoint grep (k : nat) (pattern : list Z) (fd : Z) (b : list Z) : U unit :=
  match k with
  | O => uspin
  | S k' =>
      '(n, bs) ← uread fd (1024 - Z.of_nat (length b) - 1);
      if n <=? 0 then mret () else
      let b := b ++ bs in
      p ← grep_lines (S (length b)) pattern b;
      grep k' pattern fd p
  end.

Fixpoint grep_files (k : nat) (pattern : list Z) (files : list (list Z)) : U unit :=
  match files with
  | [] => uexit 0
  | f :: files' =>
      fd ← uopen f 0;
      if fd <? 0 then uprintf (zstr "grep: cannot open %s" ++ [10]) [AStr (Some f)];; uexit 1 else
      grep k pattern fd [];;
      uclose fd;;
      grep_files k pattern files'
  end.

Definition grep_main (k : nat) (argv : list (list Z)) : U unit :=
  match argv with
  | _ :: pattern :: files =>
      match files with
      | [] => grep k pattern 0 [];; uexit 0
      | _ => grep_files k pattern files
      end
  | _ => ufprintf 2 (zstr "usage: grep pattern [file ...]" ++ [10]) [];; uexit 1
  end.

End Grep.

(** ** What a pattern means *)

Inductive item : Type := IChar (c : Z) | IStar (c : Z) | IEnd.

(** [c*] is a repetition; [$] is the end at the end of the pattern, a character
    elsewhere. *)
Fixpoint items (re : list Z) : list item :=
  match re with
  | [] => []
  | c :: re1 =>
      match re1 with
      | d :: re2 => if d =? chr "*" then IStar c :: items re2 else IChar c :: items re1
      | [] => if c =? chr "$" then [IEnd] else [IChar c]
      end
  end.

Definition char_ok (c x : Z) : Prop := c = chr "." \/ x = c.

(** The items match exactly [u], when [rest] follows it in the text. *)
Fixpoint lang (its : list item) (u rest : list Z) : Prop :=
  match its with
  | [] => u = []
  | IChar c :: its' => exists x u', u = x :: u' /\ char_ok c x /\ lang its' u' rest
  | IStar c :: its' => exists xs u', u = xs ++ u' /\ Forall (char_ok c) xs /\ lang its' u' rest
  | IEnd :: its' => u = [] /\ rest = [] /\ lang its' u rest
  end.

(** The pattern matches somewhere in the text, with [^] at its beginning. *)
Definition pattern_matches (re text : list Z) : Prop :=
  exists pre u rest, text = pre ++ u ++ rest /\
    match re with
    | c :: re1 => if c =? chr "^" then pre = [] /\ lang (items re1) u rest else lang (items re) u rest
    | [] => True
    end.

Lemma char_ok_b c x : (c =? chr ".") || (c =? x) = true <-> char_ok c x.
Proof. unfold char_ok. rewrite orb_true_iff, !Z.eqb_eq. intuition congruence. Qed.

Lemma star_ok_b c x : (x =? c) || (c =? chr ".") = true <-> char_ok c x.
Proof. unfold char_ok. rewrite orb_true_iff, !Z.eqb_eq. intuition congruence. Qed.

Lemma matchstar_spec (P : list Z -> Prop) mh c text :
  (forall t, mh t = true <-> P t) ->
  matchstar mh c text = true <-> exists xs t, text = xs ++ t /\ Forall (char_ok c) xs /\ P t.
Proof.
  intros HP. induction text as [|x text IH]; cbn [matchstar].
  - destruct (mh []) eqn:E.
    + split; [|done]. intros _. exists [], []. split_and!; [done..|by apply HP].
    + split; [done|]. intros (xs & t & Hn & _ & Ht). symmetry in Hn. apply app_eq_nil in Hn as [-> ->].
      apply HP in Ht. congruence.
  - destruct (mh (x :: text)) eqn:E.
    + split; [|done]. intros _. exists [], (x :: text). split_and!; [done..|by apply HP].
    + assert (Hstep : (exists xs t, x :: text = xs ++ t /\ Forall (char_ok c) xs /\ P t) <->
        char_ok c x /\ exists xs t, text = xs ++ t /\ Forall (char_ok c) xs /\ P t).
      { split.
        - intros ([|y xs] & t & Heq & Hxs & Ht); cbn in Heq; [subst t; apply HP in Ht; congruence|].
          injection Heq as -> ->. apply Forall_cons in Hxs as [Hy Hxs]. split; [done|]. by exists xs, t.
        - intros (Hx & xs & t & -> & Hxs & Ht). exists (x :: xs), t. split_and!; [done| |done]. by constructor. }
      rewrite Hstep, <- IH. destruct ((x =? c) || (c =? chr ".")) eqn:B.
      * apply star_ok_b in B. tauto.
      * split; [done|]. intros [Hx _]. apply star_ok_b in Hx. congruence.
Qed.

(** The text begins with a match of the items. *)
Definition begins (its : list item) (text : list Z) : Prop :=
  exists u rest, text = u ++ rest /\ lang its u rest.

Lemma begins_char c its text :
  begins (IChar c :: its) text <-> exists x text', text = x :: text' /\ char_ok c x /\ begins its text'.
Proof.
  split.
  - intros (u & rest & -> & x & u' & -> & Hx & Hl). exists x, (u' ++ rest). split_and!; [done..|]. by exists u', rest.
  - intros (x & text' & -> & Hx & u & rest & -> & Hl). exists (x :: u), rest. split; [done|]. by exists x, u.
Qed.

Lemma begins_star c its text :
  begins (IStar c :: its) text <-> exists xs t, text = xs ++ t /\ Forall (char_ok c) xs /\ begins its t.
Proof.
  split.
  - intros (u & rest & -> & xs & u' & -> & Hx & Hl). exists xs, (u' ++ rest).
    split_and!; [by rewrite app_assoc|done|]. by exists u', rest.
  - intros (xs & t & -> & Hx & u & rest & -> & Hl). exists (xs ++ u), rest.
    split; [by rewrite app_assoc|]. by exists xs, u.
Qed.

Lemma begins_end text : begins [IEnd] text <-> text = [].
Proof.
  split; [by intros (u & rest & -> & -> & -> & _)|]. intros ->. by exists [], [].
Qed.

Lemma step_spec c re1 text its :
  (forall t, matchhere re1 t = true <-> begins its t) ->
  (match text with
   | [] => false
   | x :: text' => if (c =? chr ".") || (c =? x) then matchhere re1 text' else false
   end) = true <-> begins (IChar c :: its) text.
Proof.
  intros IH. rewrite begins_char. destruct text as [|x text].
  - split; [done|]. by intros (x & t & ? & _).
  - destruct ((c =? chr ".") || (c =? x)) eqn:B.
    + rewrite IH. apply char_ok_b in B. split; [eauto|]. by intros (y & t & [= -> ->] & _ & H).
    + split; [done|]. intros (y & t & [= -> ->] & Hy & _). apply char_ok_b in Hy. congruence.
Qed.

Lemma matchhere_spec re text : matchhere re text = true <-> begins (items re) text.
Proof.
  revert text. induction re as [re IH] using (induction_ltof1 _ length). intros text. unfold ltof in IH.
  destruct re as [|c re1]; [split; [intros _; by exists [], text|done]|].
  destruct re1 as [|d re2].
  - cbn [matchhere items]. rewrite andb_true_r. destruct (Z.eqb_spec c (chr "$")).
    + rewrite begins_end. by destruct text.
    + apply (step_spec c [] text []). intros t. apply (IH []). cbn. lia.
  - cbn [items]. change (matchhere (c :: d :: re2) text) with
      (if d =? chr "*" then matchstar (matchhere re2) c text
       else if (c =? chr "$") && false then match text with [] => true | _ => false end
       else match text with [] => false
       | x :: text' => if (c =? chr ".") || (c =? x) then matchhere (d :: re2) text' else false end).
    destruct (d =? chr "*").
    + rewrite begins_star. apply matchstar_spec. intros t. apply IH. cbn. lia.
    + rewrite andb_false_r. apply step_spec. intros t. apply IH. cbn. lia.
Qed.

Lemma match_loop_spec re text :
  match_loop re text = true <-> exists pre t, text = pre ++ t /\ begins (items re) t.
Proof.
  induction text as [|x text IH]; cbn [match_loop].
  - destruct (matchhere re []) eqn:E.
    + split; [|done]. intros _. exists [], []. split; [done|]. by apply matchhere_spec.
    + split; [done|]. intros (pre & t & Hn & Ht). symmetry in Hn. apply app_eq_nil in Hn as [-> ->].
      apply matchhere_spec in Ht. congruence.
  - destruct (matchhere re (x :: text)) eqn:E.
    + split; [|done]. intros _. exists [], (x :: text). split; [done|]. by apply matchhere_spec.
    + rewrite IH. split.
      * intros (pre & t & -> & Ht). by exists (x :: pre), t.
      * intros ([|y pre] & t & Heq & Ht); cbn in Heq.
        -- subst t. apply matchhere_spec in Ht. congruence.
        -- injection Heq as -> ->. eauto.
Qed.

(** C32 grep's matcher is right: for every pattern and text it returns 1 exactly
    when the text contains a substring in the pattern's language, where a
    character stands for itself, [.] for any character, [c*] for any number of
    [c], [$] at the end of the pattern for the end of the text and [^] at its
    beginning for the beginning of the text. *)
Theorem grep_match_correct re text : grep_match re text = true <-> pattern_matches re text.
Proof.
  assert (Hloop : forall re, match_loop re text = true <->
    exists pre u rest, text = pre ++ u ++ rest /\ lang (items re) u rest).
  { intros re'. rewrite match_loop_spec. split.
    - intros (pre & t & -> & u & rest & -> & Hl). by exists pre, u, rest.
    - intros (pre & u & rest & -> & Hl). exists pre, (u ++ rest). split; [done|]. by exists u, rest. }
  unfold grep_match, pattern_matches. destruct re as [|c re1].
  - rewrite Hloop. split; intros (pre & u & rest & -> & _); [by exists pre, u, rest|].
    exists pre, [], (u ++ rest). done.
  - destruct (c =? chr "^"); [|apply Hloop]. rewrite matchhere_spec. split.
    + intros (u & rest & -> & Hl). by exists [], u, rest.
    + intros (pre & u & rest & -> & -> & Hl). by exists u, rest.
Qed.

(** ** Lines *)

(** The complete lines of [pend ++ data], and what is left behind the last newline. *)
Fixpoint split_lines (pend data : list Z) : list (list Z) * list Z :=
  match data with
  | [] => ([], pend)
  | c :: data' =>
      if c =? 10 then let '(ls, r) := split_lines [] data' in (pend :: ls, r)
      else split_lines (pend ++ [c]) data'
  end.

Definition grep_output (pattern : list Z) (ls : list (list Z)) : list Z :=
  concat ((fun l => if grep_match pattern l then l ++ [10] else []) <$> ls).

Lemma split_lines_app pend d1 d2 ls r :
  split_lines pend d1 = (ls, r) ->
  split_lines pend (d1 ++ d2) = let '(ls2, r2) := split_lines r d2 in (ls ++ ls2, r2).
Proof.
  revert pend ls. induction d1 as [|c d1 IH]; intros pend ls; cbn.
  - intros [= <- <-]. by destruct (split_lines pend d2).
  - destruct (c =? 10); [|apply IH]. destruct (split_lines [] d1) as [ls1 r1] eqn:E.
    intros [= <- <-]. rewrite (IH _ _ E). by destruct (split_lines r1 d2).
Qed.

Lemma split_lines_none pend d : 10 ∉ d -> split_lines pend d = ([], pend ++ d).
Proof.
  revert pend. induction d as [|c d IH]; intros pend Hd; cbn; [by rewrite app_nil_r|].
  apply not_elem_of_cons in Hd as [Hc Hd]. rewrite (proj2 (Z.eqb_neq _ _)) by done.
  rewrite IH, <- app_assoc by done. done.
Qed.

Lemma split_lines_first u d : 10 ∉ u ->
  split_lines [] (u ++ 10 :: d) = let '(ls, r) := split_lines [] d in (u :: ls, r).
Proof.
  intros Hu. rewrite (split_lines_app _ _ _ _ _ (split_lines_none [] u Hu)). cbn.
  by destruct (split_lines [] d).
Qed.

Lemma split_lines_pend p d : 10 ∉ p -> split_lines p d = split_lines [] (p ++ d).
Proof.
  intros Hp. rewrite (split_lines_app _ _ _ _ _ (split_lines_none [] p Hp)). cbn.
  by destruct (split_lines p d).
Qed.

Lemma split_pend_len p d ls r :
  split_lines p d = (ls, r) -> exists l, l ∈ r :: ls /\ (length p <= length l)%nat.
Proof.
  revert p ls. induction d as [|c d IH]; intros p ls; cbn.
  - intros [= <- <-]. exists p. split; [by left|done].
  - destruct (c =? 10).
    + destruct (split_lines [] d) as [ls1 r1]. intros [= <- <-]. exists p. split; [right; by left|done].
    + intros Hs. destruct (IH _ _ Hs) as (l & Hl & Hlen). exists l. split; [done|].
      rewrite length_app in Hlen. cbn in Hlen. lia.
Qed.

(** A line fits when [buf] has room for it, its newline and the NUL. *)
Definition short (l : list Z) : Prop := (length l <= 1022)%nat.

(** The lines before the first one that does not fit. *)
Fixpoint fitting (ls : list (list Z)) : list (list Z) :=
  match ls with
  | [] => []
  | l :: ls' => if (length l <=? 1022)%nat then l :: fitting ls' else []
  end.

Lemma fitting_app ls1 ls2 : Forall short ls1 -> fitting (ls1 ++ ls2) = ls1 ++ fitting ls2.
Proof. induction 1 as [|l ls1 Hl _ IH]; [done|]. cbn. by rewrite (proj2 (Nat.leb_le _ _)), IH by done. Qed.

Lemma fitting_all ls : Forall short ls -> fitting ls = ls.
Proof. intros Hl. rewrite <- (app_nil_r ls), fitting_app by done. done. Qed.

Lemma split_lines_len p d ls r :
  split_lines p d = (ls, r) -> Forall (fun l => (length l < length p + length d)%nat) ls.
Proof.
  revert p ls. induction d as [|c d IH]; intros p ls; cbn; [by intros [= <- <-]|]. destruct (c =? 10).
  - destruct (split_lines [] d) as [ls1 r1] eqn:E. intros [= <- <-]. constructor; [lia|].
    eapply Forall_impl; [by apply (IH [])|]. cbn. lia.
  - intros Hs. eapply Forall_impl; [by apply (IH (p ++ [c]))|]. cbn. rewrite length_app. cbn. lia.
Qed.

(** Once the buffer is full without a newline, the line in it does not fit. *)
Lemma fitting_full p d ls r : split_lines p d = (ls, r) -> (1023 <= length p)%nat -> fitting ls = [].
Proof.
  revert p ls. induction d as [|c d IH]; intros p ls; cbn; [by intros [= <- <-]|]. destruct (c =? 10).
  - destruct (split_lines [] d) as [ls1 r1]. intros [= <- <-] Hp. cbn. by rewrite (proj2 (Nat.leb_gt _ _)) by lia.
  - intros Hs Hp. apply (IH _ _ Hs). rewrite length_app. lia.
Qed.

Section Lines.
Context `{StreamOS}.

Lemma emitted_when pattern line w :
  exists w', uwhen (grep_match pattern line) (uwrite 1 (line ++ [10]);; mret ()) w = UOk () w' /\
    emitted 1 (if grep_match pattern line then line ++ [10] else []) w w'.
Proof.
  destruct (grep_match pattern line); cbn [uwhen].
  - destruct (uwrite_run 1 (line ++ [10]) w) as (r & w' & Hw & He & _). exists w'. split; [|done].
    by rewrite (ubind_ok _ _ _ _ _ Hw).
  - exists w. split; [done|apply emitted_nil].
Qed.

Lemma grep_lines_run k pattern p w ls r :
  0 ∉ p -> (length p < k)%nat -> split_lines [] p = (ls, r) ->
  exists w', grep_lines k pattern p w = UOk r w' /\ emitted 1 (grep_output pattern ls) w w' /\ 10 ∉ r /\ 0 ∉ r /\
    (length r <= length p)%nat.
Proof.
  revert p w ls. induction k as [|k IH]; intros p w ls H0 Hk Hs; [lia|]. cbn [grep_lines].
  pose proof (strchr_split p 10 ltac:(lia)) as Hsp. destruct (strchr p 10) as [q|].
  - destruct Hsp as (u & q' & -> & -> & Hu & _).
    apply not_elem_of_app in H0 as [Hu0 Hq0]. apply not_elem_of_cons in Hq0 as [_ Hq0].
    rewrite split_lines_first in Hs by done. destruct (split_lines [] q') as [ls' r'] eqn:E. injection Hs as <- <-.
    rewrite length_app. rewrite Nat.add_sub.
    rewrite take_app_length. destruct (emitted_when pattern u w) as (w1 & H1 & E1).
    rewrite (ubind_ok _ _ _ _ _ H1). cbn [tail].
    rewrite length_app in Hk. cbn in Hk.
    destruct (IH q' w1 ls' Hq0 ltac:(lia) E) as (w2 & H2 & E2 & Hr).
    exists w2. split; [done|]. split; [apply (emitted_app _ _ _ _ _ _ E1 E2)|]. cbn. naive_solver lia.
  - rewrite (cstr_id p) in Hsp by (apply Forall_forall; intros x Hx ->; done).
    rewrite split_lines_none in Hs by done. injection Hs as <- <-. exists w.
    split; [done|]. split; [apply emitted_nil|]. done.
Qed.

Lemma grep_run k pattern fd b w ls r :
  10 ∉ b -> 0 ∉ b -> (length b <= 1023)%nat -> 0 ∉ inp w fd -> split_lines b (inp w fd) = (ls, r) ->
  readable w fd = true -> writable w 1 = true -> (length (inp w fd) < k)%nat ->
  exists w', grep k pattern fd b w = UOk () w' /\ (Forall short (r :: ls) -> inp w' fd = []) /\
    forall fd', outp w' fd' = if decide (fd' = 1) then outp w 1 ++ grep_output pattern (fitting ls) else outp w fd'.
Proof.
  revert b w ls. induction k as [|k IH]; intros b w ls Hb Hb0 Hbl Hd0 Hs Hrd Hwr Hk; [lia|]. cbn [grep].
  destruct (sys_read_spec fd (1024 - Z.of_nat (length b) - 1) w ltac:(lia) Hrd)
    as (c & w1 & Hr & Hi & Hcl & Hne & _ & Ho & Hr1 & Hw1).
  rewrite (ubind_ok _ _ _ (Z.of_nat (length c), c) w1) by (unfold uread, ucall; by rewrite Hr).
  destruct c as [|x c].
  - cbn in *. exists w1. split; [done|].
    assert (Hend : inp w fd = [] \/ (1023 <= length b)%nat).
    { destruct (decide (1023 <= length b)%nat); [by right|left]. destruct (inp w fd); [done|]. by destruct Hne; [lia|..]. }
    assert (Hf : fitting ls = []).
    { destruct Hend as [Hn|Hn]; [|by eapply fitting_full]. rewrite Hn in Hs. by injection Hs as <- <-. }
    rewrite Hf. split.
    + intros Hall. rewrite <- Hi. destruct Hend as [|Hn]; [done|].
      destruct (split_pend_len _ _ _ _ Hs) as (l0 & Hl0 & Hlen). rewrite Forall_forall in Hall.
      specialize (Hall _ Hl0). unfold short in Hall. lia.
    + intros fd'. rewrite Ho. cbn. case_decide; [subst; by rewrite app_nil_r|done].
  - rewrite (proj2 (Z.leb_gt _ _)) by (cbn; lia). set (c' := x :: c) in *.
    rewrite Hi in Hd0. apply not_elem_of_app in Hd0 as [Hc0 Hd0].
    destruct (split_lines [] (b ++ c')) as [ls1 r1] eqn:E1.
    rewrite split_lines_pend, Hi, app_assoc, (split_lines_app _ _ _ _ _ E1) in Hs by done.
    destruct (split_lines r1 (inp w1 fd)) as [ls2 r2] eqn:E2. injection Hs as <- <-.
    assert (Hbc : (length (b ++ c') <= 1023)%nat) by (rewrite length_app; lia).
    assert (Hs1 : Forall short ls1).
    { eapply Forall_impl; [exact (split_lines_len _ _ _ _ E1)|]. cbn [length Nat.add]. unfold short. lia. }
    destruct (grep_lines_run (S (length (b ++ c'))) pattern (b ++ c') w1 ls1 r1) as (w2 & H2 & E & Hr10 & Hr0 & Hrl).
    { rewrite not_elem_of_app. auto. } { lia. } { done. }
    rewrite (ubind_ok _ _ _ _ _ H2). rewrite <- Hw1 in Hwr. pose proof (emitted_outp _ _ _ _ E Hwr) as Eo.
    destruct (IH r1 w2 ls2) as (w3 & H3 & Hi3 & Ho3); [done|done|lia|by rewrite (em_inp _ _ _ _ E)|
      by rewrite (em_inp _ _ _ _ E)|by rewrite (em_readable _ _ _ _ E), Hr1|by rewrite (em_writable _ _ _ _ E)| |].
    + rewrite (em_inp _ _ _ _ E). apply (f_equal length) in Hi. rewrite length_app in Hi. cbn in Hi. lia.
    + exists w3. split; [done|]. split.
      * intros Hall. apply Hi3. apply Forall_cons in Hall as [? Hall]. apply Forall_app in Hall as [_ ?]. by constructor.
      * intros fd'. rewrite Ho3, fitting_app by done. destruct (decide (fd' = 1)) as [->|]; rewrite Eo; [|by rewrite decide_False, Ho].
        rewrite decide_True, Ho by done. unfold grep_output. by rewrite fmap_app, concat_app, app_assoc.
Qed.

(** C33 grep prints the matching lines: on an input without NUL from a descriptor that
    can be read, [grep] stops, having written to standard output, in order, each
    complete line that matches, with its newline, and nothing else, however the input
    is cut into reads, up to the first line that does not fit the buffer, which has
    room for 1022 characters and a newline; this line and all that follow are dropped.
    When every line fits, the whole input is read.  A last line without newline is
    not considered. *)
Theorem grep_prints_matches pattern fd w k ls r :
  split_lines [] (inp w fd) = (ls, r) -> 0 ∉ inp w fd -> readable w fd = true -> writable w 1 = true ->
  (length (inp w fd) < k)%nat ->
  exists w', grep k pattern fd [] w = UOk () w' /\
    (forall fd', outp w' fd' = if decide (fd' = 1) then outp w 1 ++ grep_output pattern (fitting ls) else outp w fd') /\
    (Forall short (r :: ls) -> fitting ls = ls /\ inp w' fd = []).
Proof.
  intros Hs H0 Hr Hw Hk. destruct (grep_run k pattern fd [] w ls r) as (w' & H1 & H2 & H3); auto using not_elem_of_nil; [cbn; lia|].
  exists w'. split; [done|]. split; [done|]. intros Hall. split; [|by apply H2]. apply Forall_cons in Hall as [_ ?]. by apply fitting_all.
Qed.

End Lines.

Definition sample_text : list Z :=
  zstr "the cat" ++ [10] ++ zstr "a dog" ++ [10] ++ zstr "scatter" ++ [10] ++ replicate 1100 (chr "c") ++ [10] ++ zstr "cot" ++ [10].

Lemma grep_prints_matches_witness :
  let w := mkdemo {[0 := sample_text]} ∅ 500 [] in
  exists w', @grep demo_os 2000 (zstr "c.t") 0 [] w = UOk () w' /\
    @outp demo_os demo_streams w' 1 = zstr "the cat" ++ [10] ++ zstr "scatter" ++ [10].
Proof.
  intros w. destruct (@grep_prints_matches demo_os demo_streams (zstr "c.t") 0 w 2000
    [zstr "the cat"; zstr "a dog"; zstr "scatter"; replicate 1100 (chr "c"); zstr "cot"] []) as (w' & H1 & H2 & _).
  - vm_compute. reflexivity.
  - apply (bool_decide_unpack _). vm_compute. exact I.
  - reflexivity.
  - reflexivity.
  - apply Nat.ltb_lt. vm_compute. reflexivity.
  - exists w'. split; [exact H1|]. rewrite H2. vm_compute. reflexivity.
Defined.
