(* ===== verification/UserProgs.v ===== *)
(** * The small user programs: cat, echo, wc, ls, kill, ln, mkdir, rm, zombie, init

    Each [main] and each of its functions; loops that run as long as their input
    take a bound on the rounds, and the theorems show how many are enough. *)

From stdpp Require Import base gmap strings numbers list.
From Stdlib Require Import Ascii.
From S2P Require Import Prelude KState StringC Spinlock Printf UserOS Ulib.

Definition nl (s : list Z) : list Z := s ++ [10].
Definition astr (s : list Z) : parg := AStr (Some s).

(** [struct dirent] from its 16 bytes. *)
Definition dirent_of (bs : list Z) : udirent := mkudirent (get_le bs 0 2) (slice bs 2 14).

Section Progs.
Context {Sys : UserOS}.

(** ** cat.c *)

Fixpoint cat (k : nat) (fd : Z) : U unit :=
  match k with
  | O => uspin
  | S k' =>
      '(n, buf) ← uread fd 512;
      if 0 <? n then
        m ← uwrite 1 buf;
        if negb (m =? n) then ufprintf 2 (nl (zstr "cat: write error")) [];; uexit 1
        else cat k' fd
      else if n <? 0 then ufprintf 2 (nl (zstr "cat: read error")) [];; uexit 1
      else mret ()
  end.

Fixpoint cat_files (k : nat) (files : list (list Z)) : U unit :=
  match files with
  | [] => uexit 0
  | f :: files' =>
      fd ← uopen f 0;
      if fd <? 0 then ufprintf 2 (nl (zstr "cat: cannot open %s")) [astr f];; uexit 1 else
      cat k fd;;
      uclose fd;;
      cat_files k files'
  end.

Definition cat_main (k : nat) (argv : list (list Z)) : U unit :=
  match tail argv with
  | [] => cat k 0;; uexit 0
  | files => cat_files k files
  end.

(** ** wc.c *)

Record wcount : Type := mkwc { wc_l : Z; wc_w : Z; wc_c : Z; wc_in : bool }.

Definition wc_space : list Z := [32; 13; 9; 10; 11].

Definition wc_char (s : wcount) (ch : Z) : wcount :=
  let l := if ch =? 10 then i32 (wc_l s + 1) else wc_l s in
  let c := i32 (wc_c s + 1) in
  match strchr wc_space ch with
  | Some _ => mkwc l (wc_w s) c false
  | None => if wc_in s then mkwc l (wc_w s) c true else mkwc l (i32 (wc_w s + 1)) c true
  end.

Fixpoint wc (k : nat) (fd : Z) (name : list Z) (s : wcount) : U unit :=
  match k with
  | O => uspin
  | S k' =>
      '(n, buf) ← uread fd 512;
      if 0 <? n then wc k' fd name (foldl wc_char s buf)
      else if n <? 0 then uprintf (nl (zstr "wc: read error")) [];; uexit 1
      else uprintf (nl (zstr "%d %d %d %s")) [AInt (wc_l s); AInt (wc_w s); AInt (wc_c s); astr name]
  end.

Fixpoint wc_files (k : nat) (files : list (list Z)) : U unit :=
  match files with
  | [] => uexit 0
  | f :: files' =>
      fd ← uopen f 0;
      if fd <? 0 then uprintf (nl (zstr "wc: cannot open %s")) [astr f];; uexit 1 else
      wc k fd f (mkwc 0 0 0 false);;
      uclose fd;;
      wc_files k files'
  end.

Definition wc_main (k : nat) (argv : list (list Z)) : U unit :=
  match tail argv with
  | [] => wc k 0 [] (mkwc 0 0 0 false);; uexit 0
  | files => wc_files k files
  end.

(** ** echo.c *)

Fixpoint echo_args (args : list (list Z)) : U unit :=
  match args with
  | [] => mret ()
  | a :: args' =>
      uwrite 1 (cstr a);;
      uwrite 1 (match args' with [] => [10] | _ => [32] end);;
      echo_args args'
  end.
Definition echo_main (argv : list (list Z)) : U unit := echo_args (tail argv);; uexit 0.

(** ** kill.c, ln.c, mkdir.c, rm.c, zombie.c *)

Definition kill_main (argv : list (list Z)) : U unit :=
  match tail argv with
  | [] => ufprintf 2 (nl (zstr "usage: kill pid...")) [];; uexit 1
  | args => ufor args (fun a => ukill (atoi a);; mret ());; uexit 0
  end.

Definition ln_main (argv : list (list Z)) : U unit :=
  match argv with
  | [_; old; new] =>
      r ← ulink old new;
      uwhen (r <? 0) (ufprintf 2 (nl (zstr "link %s %s: failed")) [astr old; astr new]);;
      uexit 0
  | _ => ufprintf 2 (nl (zstr "Usage: ln old new")) [];; uexit 1
  end.

Fixpoint mkdir_args (args : list (list Z)) : U unit :=
  match args with
  | [] => mret ()
  | a :: args' =>
      r ← umkdir a;
      if r <? 0 then ufprintf 2 (nl (zstr "mkdir: %s failed to create")) [astr a]
      else mkdir_args args'
  end.
Definition mkdir_main (argv : list (list Z)) : U unit :=
  match tail argv with
  | [] => ufprintf 2 (nl (zstr "Usage: mkdir files...")) [];; uexit 1
  | args => mkdir_args args;; uexit 0
  end.

Fixpoint rm_args (args : list (list Z)) : U unit :=
  match args with
  | [] => mret ()
  | a :: args' =>
      r ← uunlink a;
      if r <? 0 then ufprintf 2 (nl (zstr "rm: %s failed to delete")) [astr a]
      else rm_args args'
  end.
Definition rm_main (argv : list (list Z)) : U unit :=
  match tail argv with
  | [] => ufprintf 2 (nl (zstr "Usage: rm files...")) [];; uexit 1
  | args => rm_args args;; uexit 0
  end.

Definition zombie_main : U unit :=
  pid ← ufork;
  uwhen (0 <? pid) (usleep 5;; mret ());;
  uexit 0.

(** ** pingpong.c *)

(** [buff0] is what the uninitialised [buff] holds. *)
Definition pingpong_main (buff0 : Z) : U unit :=
  '(_, (fd0, fd1)) ← upipe;
  ufprintf 1 (nl (zstr "Create pipe successfully")) [];;
  pid ← ufork;
  if pid =? 0 then
    '(n, buff) ← uread fd0 1;
    uwhen (n =? 1) (p ← ugetpid; ufprintf 1 (nl (zstr "%d: received ping")) [AInt p]);;
    m ← uwrite fd1 (take 1 (buff ++ [buff0]));
    uwhen (m <? 1) (ufprintf 2 (nl (zstr "Error: child write failed")) []);;
    uexit 0
  else
    m ← uwrite fd1 [buff0];
    uwhen (m <? 1) (ufprintf 2 (nl (zstr "Error: parent write failed")) []);;
    uwait;;
    '(n, _) ← uread fd0 1;
    uwhen (n =? 1) (p ← ugetpid; ufprintf 1 (nl (zstr "%d: received pong")) [AInt p]);;
    uexit 0.

(** ** init.c *)

(** for(;;) { wpid = wait(0); ... } *)
Fixpoint init_wait (k : nat) (pid : Z) : U unit :=
  match k with
  | O => uspin
  | S k' =>
      '(wpid, _) ← uwait;
      if wpid =? pid then mret ()
      else if wpid <? 0 then uprintf (nl (zstr "init: wait returned an error")) [];; uexit 1
      else init_wait k' pid
  end.

Fixpoint init_loop (k : nat) : U unit :=
  match k with
  | O => uspin
  | S k' =>
      uprintf (nl (zstr "init: starting sh")) [];;
      pid ← ufork;
      if pid <? 0 then uprintf (nl (zstr "init: fork failed")) [];; uexit 1 else
      if pid =? 0 then
        uexec (zstr "sh") [zstr "sh"];;
        uprintf (nl (zstr "init: exec sh failed")) [];; uexit 1
      else
      init_wait k' pid;;
      init_loop k'
  end.

Definition init_main (k : nat) : U unit :=
  fd ← uopen (zstr "console") 2;
  uwhen (fd <? 0) (umknod (zstr "console") 1 0;; uopen (zstr "console") 2;; mret ());;
  udup 0;;
  udup 0;;
  init_loop k.

(** ** ls.c *)

(** for(p=path+strlen(path); p >= path && *p != '/'; p--) ; p++; *)
Fixpoint after_slash (path : list Z) (last : list Z) : list Z :=
  match path with
  | [] => last
  | c :: path' => if c =? 0 then last else after_slash path' (if c =? 47 then path' else last)
  end.
Definition fmtname (path : list Z) : list Z :=
  let p := cstr (after_slash path path) in
  if DIRSIZ <=? ulib_strlen p then p
  else p ++ replicate (Z.to_nat (DIRSIZ - ulib_strlen p)) 32.

Definition ls_line (name : list Z) (st : ustat) : U unit :=
  uprintf (nl (zstr "%s %d %d %d")) [astr (fmtname name); AInt (us_type st); AInt (us_ino st); AInt (us_size st)].

(** while(read(fd, &de, sizeof(de)) == sizeof(de)) ...; [buf] is the path with its slash. *)
Fixpoint ls_dir (k : nat) (fd : Z) (buf : list Z) : U unit :=
  match k with
  | O => uspin
  | S k' =>
      '(n, bs) ← uread fd 16;
      if negb (n =? 16) then mret () else
      let de := dirent_of bs in
      if ud_inum de =? 0 then ls_dir k' fd buf else
      let name := buf ++ ud_name de ++ [0] in
      '(r, st) ← ulib_stat name;
      (if r <? 0 then uprintf (nl (zstr "ls: cannot stat %s")) [astr name] else ls_line name st);;
      ls_dir k' fd buf
  end.

Definition ls (k : nat) (path : list Z) : U unit :=
  fd ← uopen path 0;
  if fd <? 0 then ufprintf 2 (nl (zstr "ls: cannot open %s")) [astr path] else
  '(r, st) ← ufstat fd;
  if r <? 0 then ufprintf 2 (nl (zstr "ls: cannot stat %s")) [astr path];; uclose fd;; mret () else
  (if (us_type st =? 3) || (us_type st =? 2) then ls_line path st
   else if us_type st =? 1 then
     if 512 <? ulib_strlen path + 1 + DIRSIZ + 1 then uprintf (nl (zstr "ls: path too long")) []
     else ls_dir k fd (cstr path ++ [47])
   else mret ());;
  uclose fd;;
  mret ().

Definition ls_main (k : nat) (argv : list (list Z)) : U unit :=
  match tail argv with
  | [] => ls k (zstr ".");; uexit 0
  | paths => ufor paths (ls k);; uexit 0
  end.

End Progs.

(** ** Properties *)

(** The number of words: of characters that are not white space and do not
    follow one that is not. *)
Definition is_space (c : Z) : bool := bool_decide (c ∈ wc_space).
Fixpoint word_count (inword : bool) (data : list Z) : Z :=
  match data with
  | [] => 0
  | c :: data' =>
      if is_space c then word_count false data'
      else (if inword then 0 else 1) + word_count true data'
  end.
Definition line_count (data : list Z) : Z := Z.of_nat (length (filter (fun c => c = 10) data)).

Lemma strchr_mem s c : 0 ∉ s ->
  match strchr s c with Some _ => true | None => false end = bool_decide (c ∈ s).
Proof.
  induction s as [|x s IH]; intros H0; cbn [strchr].
  - symmetry. apply bool_decide_eq_false. apply not_elem_of_nil.
  - apply not_elem_of_cons in H0 as [Hx H0]. rewrite (proj2 (Z.eqb_neq x 0)) by congruence.
    destruct (Z.eqb_spec x c) as [->|Hne].
    + symmetry. apply bool_decide_eq_true. by left.
    + rewrite IH by done. apply bool_decide_ext. rewrite elem_of_cons. intuition congruence.
Qed.

Lemma strchr_space c : match strchr wc_space c with Some _ => true | None => false end = is_space c.
Proof. apply strchr_mem. by apply (bool_decide_unpack _). Qed.

Lemma word_count_bounds b data : 0 <= word_count b data <= Z.of_nat (length data).
Proof. revert b. induction data as [|c data IH]; intros b; cbn; [lia|]. case_match; [specialize (IH false)|specialize (IH true); destruct b]; lia. Qed.

Lemma line_count_cons c data : line_count (c :: data) = (if c =? 10 then 1 else 0) + line_count data.
Proof.
  unfold line_count. rewrite filter_cons. destruct (Z.eqb_spec c 10).
  - rewrite decide_True by done. cbn. lia.
  - rewrite decide_False by done. lia.
Qed.

Lemma line_count_bounds data : 0 <= line_count data <= Z.of_nat (length data).
Proof. unfold line_count. split; [lia|]. pose proof (length_filter (fun c => c = 10) data). lia. Qed.

Lemma wc_fold s data :
  0 <= wc_l s -> 0 <= wc_w s -> 0 <= wc_c s ->
  wc_l s + Z.of_nat (length data) < 2 ^ 31 -> wc_w s + Z.of_nat (length data) < 2 ^ 31 ->
  wc_c s + Z.of_nat (length data) < 2 ^ 31 ->
  let s' := foldl wc_char s data in
  wc_l s' = wc_l s + line_count data /\ wc_w s' = wc_w s + word_count (wc_in s) data /\
  wc_c s' = wc_c s + Z.of_nat (length data).
Proof.
  revert s. induction data as [|c data IH]; intros s Hl Hw Hc Hl' Hw' Hc'.
  - cbn. unfold line_count. cbn. lia.
  - cbn [foldl length word_count] in *. rewrite line_count_cons.
    rewrite Nat2Z.inj_succ in *.
    assert (Hi : forall v, 0 <= v < 2 ^ 31 - 1 -> i32 (v + 1) = v + 1) by (intros; apply i32_id; lia).
    assert (Hstep : wc_char s c = mkwc (wc_l s + (if c =? 10 then 1 else 0))
      (wc_w s + (if is_space c then 0 else if wc_in s then 0 else 1)) (wc_c s + 1) (negb (is_space c))).
    { unfold wc_char. rewrite !Hi by lia. rewrite <- strchr_space.
      destruct (strchr wc_space c), (wc_in s), (c =? 10); cbn; f_equal; lia. }
    rewrite Hstep.
    specialize (IH (mkwc (wc_l s + (if c =? 10 then 1 else 0))
      (wc_w s + (if is_space c then 0 else if wc_in s then 0 else 1)) (wc_c s + 1) (negb (is_space c)))).
    cbn [wc_l wc_w wc_c wc_in] in IH. cbv zeta in IH.
    destruct IH as (-> & -> & ->); [destruct (c =? 10), (is_space c), (wc_in s); lia..|].
    destruct (is_space c), (wc_in s), (c =? 10); cbn [negb]; lia.
Qed.

Section Props.
Context `{StreamOS}.

(** A read of the rest of the input, or its end. *)
Lemma read_cases fd n w : 0 < n -> readable w fd = true ->
  exists k w', uread fd n w = UOk (Z.of_nat (length k), k) w' /\ inp w fd = k ++ inp w' fd /\
    (k = [] -> inp w fd = []) /\ (forall fd', outp w' fd' = outp w fd') /\
    (forall fd', readable w' fd' = readable w fd') /\ (forall fd', writable w' fd' = writable w fd').
Proof.
  intros Hn Hrd. destruct (sys_read_spec fd n w ltac:(lia) Hrd) as (k & w' & Hr & Hi & _ & Hne & _ & Ho & Hr' & Hw').
  exists k, w'. split_and!; [unfold uread, ucall; by rewrite Hr|done| |done..].
  intros ->. destruct (inp w fd); [done|]. by destruct Hne.
Qed.

(** [cat] copies: it stops at the end of its input, having written to standard
    output exactly the input's bytes in order, however they are cut into reads. *)
Theorem cat_copies k fd w :
  readable w fd = true -> writable w 1 = true -> (length (inp w fd) < k)%nat ->
  exists w', cat k fd w = UOk () w' /\ inp w' fd = [] /\
    forall fd', outp w' fd' = if decide (fd' = 1) then outp w 1 ++ inp w fd else outp w fd'.
Proof.
  revert w. induction k as [|k IH]; intros w Hrd Hwr Hk; [lia|]. cbn [cat].
  destruct (read_cases fd 512 w ltac:(lia) Hrd) as (c & w1 & Hr & Hi & He & Ho & Hr1 & Hw1). rewrite (ubind_ok _ _ _ _ _ Hr).
  destruct c as [|x c].
  - cbn. exists w1. rewrite He by done. cbn in Hi. rewrite He in Hi by done. split_and!; [done|done|].
    intros fd'. rewrite Ho, app_nil_r. by case_decide; subst.
  - rewrite (proj2 (Z.ltb_lt _ _)) by (cbn; lia). set (b := x :: c) in *.
    destruct (uwrite_run 1 b w1) as (n & w2 & H2 & E & Hn). rewrite <- Hw1 in Hwr. rewrite (ubind_ok _ _ _ _ _ H2), Hn, Z.eqb_refl by done. cbn [negb].
    pose proof (emitted_outp _ _ _ _ E Hwr) as Eo. pose proof (em_inp _ _ _ _ E) as Ei.
    assert (Hlen : (length (inp w2 fd) < k)%nat).
    { rewrite Ei. apply (f_equal length) in Hi. rewrite length_app in Hi. cbn in Hi. lia. }
    destruct (IH w2) as (w3 & H3 & Hi3 & Ho3); [by rewrite (em_readable _ _ _ _ E), Hr1|by rewrite (em_writable _ _ _ _ E)|done|].
    exists w3. split_and!; [done..|]. intros fd'. rewrite Ho3, Ei.
    destruct (decide (fd' = 1)) as [->|]; rewrite Eo, ?decide_True, ?decide_False, Ho by done; [|done].
    by rewrite Hi, app_assoc.
Qed.

Lemma wc_run k fd name s w :
  readable w fd = true -> (length (inp w fd) < k)%nat ->
  exists w1 w', wc k fd name s w = UOk () w' /\ (forall fd', outp w1 fd' = outp w fd') /\ writable w1 1 = writable w 1 /\
    let s' := foldl wc_char s (inp w fd) in
    emitted 1 (num_bytes (wc_l s') 10 true ++ [32] ++ num_bytes (wc_w s') 10 true ++ [32] ++
               num_bytes (wc_c s') 10 true ++ [32] ++ cstr name ++ [10]) w1 w'.
Proof.
  revert s w. induction k as [|k IH]; intros s w Hrd Hk; [lia|]. cbn [wc].
  destruct (read_cases fd 512 w ltac:(lia) Hrd) as (c & w1 & Hr & Hi & He & Ho & Hr1 & Hw1). rewrite (ubind_ok _ _ _ _ _ Hr).
  destruct c as [|x c].
  - rewrite He by done. cbn [length Z.of_nat Z.ltb Z.compare foldl].
    destruct (vprintf_run 1 (nl (zstr "%d %d %d %s")) 0 false
      [AInt (wc_l s); AInt (wc_w s); AInt (wc_c s); astr name]
      (num_bytes (wc_l s) 10 true ++ [32] ++ num_bytes (wc_w s) 10 true ++ [32] ++
       num_bytes (wc_c s) 10 true ++ [32] ++ cstr name ++ [10]) w1) as (w2 & H2 & E2); [reflexivity|].
    exists w1, w2. split_and!; [exact H2|done|done|exact E2].
  - rewrite (proj2 (Z.ltb_lt _ _)) by (cbn; lia). set (b := x :: c) in *.
    assert (Hlen : (length (inp w1 fd) < k)%nat).
    { apply (f_equal length) in Hi. rewrite length_app in Hi. cbn in Hi. lia. }
    destruct (IH (foldl wc_char s b) w1) as (w2 & w' & H2 & Ho2 & Hw2 & E2); [by rewrite Hr1|done|]. exists w2, w'.
    split_and!; [done|intros; by rewrite Ho2, Ho|by rewrite Hw2, Hw1|]. by rewrite Hi, foldl_app.
Qed.

(** [wc] counts: for an input of fewer than 2^31 bytes it prints the number of
    newlines, of words and of bytes, in decimal, and the name, and nothing else. *)
Theorem wc_counts k fd name w :
  readable w fd = true -> writable w 1 = true -> (length (inp w fd) < k)%nat -> Z.of_nat (length (inp w fd)) < 2 ^ 31 ->
  exists w', wc k fd name (mkwc 0 0 0 false) w = UOk () w' /\
    forall fd', outp w' fd' = if decide (fd' = 1) then
      outp w 1 ++ num_bytes (line_count (inp w fd)) 10 true ++ [32] ++
      num_bytes (word_count false (inp w fd)) 10 true ++ [32] ++
      num_bytes (Z.of_nat (length (inp w fd))) 10 true ++ [32] ++ cstr name ++ [10]
    else outp w fd'.
Proof.
  intros Hrd Hwr Hk Hlen. destruct (wc_run k fd name (mkwc 0 0 0 false) w Hrd Hk) as (w1 & w' & Hw & Ho & Hw1 & E).
  rewrite <- Hw1 in Hwr. pose proof (emitted_outp _ _ _ _ E Hwr) as Eo.
  destruct (wc_fold (mkwc 0 0 0 false) (inp w fd)) as (-> & -> & ->) in Eo; try (cbn; lia).
  exists w'. split; [done|]. intros fd'. rewrite Eo, !Ho. cbn [wc_l wc_w wc_c wc_in]. by rewrite !Z.add_0_l.
Qed.

End Props.

Lemma cat_copies_witness :
  exists w', @cat demo_os 20 0 (mkdemo {[0 := zstr "hello world"]} ∅ 4 []) = UOk () w' /\
    @outp demo_os demo_streams w' 1 = zstr "hello world".
Proof.
  destruct (@cat_copies demo_os demo_streams 20 0 (mkdemo {[0 := zstr "hello world"]} ∅ 4 [])) as (w' & H1 & _ & H3).
  - reflexivity.
  - reflexivity.
  - vm_compute. lia.
  - exists w'. split; [exact H1|]. rewrite H3. vm_compute. reflexivity.
Defined.

Lemma wc_counts_witness :
  let w := mkdemo {[0 := zstr "hello wide world" ++ [10]]} ∅ 4 [] in
  exists w', @wc demo_os 20 0 (zstr "f") (mkwc 0 0 0 false) w = UOk () w' /\
    @outp demo_os demo_streams w' 1 = zstr "1 3 17 f" ++ [10].
Proof.
  intros w. destruct (@wc_counts demo_os demo_streams 20 0 (zstr "f") w) as (w' & H1 & H2).
  - reflexivity.
  - reflexivity.
  - vm_compute. lia.
  - vm_compute. reflexivity.
  - exists w'. split; [exact H1|]. rewrite H2. vm_compute. reflexivity.
Defined.
