(* ===== verification/Xargs.v ===== *)
(** * user/xargs.c

    [arg] is what [buf] holds from [arg_s] (always [buf]) to [arg_e]. *)

From stdpp Require Import base gmap strings numbers list.
From Stdlib Require Import Ascii.
From S2P Require Import Prelude KState StringC Spinlock Printf UserOS Ulib UserProgs.

Definition BUF_SIZE : Z := 512.

(** The command and its arguments, without [-n 1]. *)
Fixpoint base_args (argv : list (list Z)) : list (list Z) :=
  match argv with
  | [] => []
  | a :: rest =>
      match rest with
      | b :: rest' =>
          if (strcmp a (zstr "-n") =? 0) && (strcmp b (zstr "1") =? 0) then base_args rest'
          else a :: base_args rest
      | [] => a :: base_args rest
      end
  end.

Section Xargs.
Context {Sys : UserOS}.

(** Prepare the arguments, fork and execute; [x_argv] has [MAXARG] entries, and its
    last one is what is in [buf] up to the first NUL. *)
Definition xargs_run (base : list (list Z)) (arg : list Z) : U unit :=
  if (32 <=? length base + 1)%nat then ufault "x_argv overrun" else
  let x_argv := base ++ [cstr arg] in
  child_pid ← ufork;
  if child_pid <? 0 then ufprintf 2 (nl (zstr "xargs: fork failed")) [];; uexit 1
  else if child_pid =? 0 then
    uexec (hd [] x_argv) x_argv;;
    ufprintf 2 (nl (zstr "xargs: exec failed (command: %s)")) [astr (hd [] x_argv)];; uexit 1
  else uwait;; mret ().

(** while ((read_bytes = read(0, &ch, sizeof(char))) == 1), at most [k] rounds;
    the result is the argument left and whether there is one. *)
Fixpoint xargs_loop (k : nat) (base : list (list Z)) (arg : list Z) (has_arg : bool) : U (list Z * bool) :=
  match k with
  | O => uspin
  | S k' =>
      '(n, bs) ← uread 0 1;
      if negb (n =? 1) then mret (arg, has_arg) else
      if BUF_SIZE - 1 <=? Z.of_nat (length arg) then
        ufprintf 2 (nl (zstr "xargs: argument too long")) [];;
        xargs_loop k' base [] has_arg
      else
      let c := ch bs in
      if (c =? 10) || (c =? 32) then
        uwhen has_arg (xargs_run base arg);;
        xargs_loop k' base [] false
      else xargs_loop k' base (arg ++ [c]) true
  end.

Definition xargs_main (k : nat) (argv : list (list Z)) : U unit :=
  let base := base_args (tail argv) in
  match base with
  | [] => ufprintf 2 (nl (zstr "xargs: missing command")) [];; uexit 1
  | _ =>
      '(arg, has_arg) ← xargs_loop k base [] false;
      uwhen has_arg (xargs_run base arg);;
      uexit 0
  end.

End Xargs.

(** ** The words of the input *)




Section Props.
Context `{ProcOS}.

(** The worlds after a part of the run that wrote nothing. *)
Record silent (w w' : world) : Prop := mksilent {
  si_outp fd : outp w' fd = outp w fd;
  si_writable fd : writable w' fd = writable w fd
}.

#[export] Instance silent_trans : Transitive silent.
Proof. intros w w1 w2 [O1 W1] [O2 W2]. split; intros fd; congruence. Qed.









End Props.

Section Main.
Context `{ProcOS}.


End Main.

Definition xargs_argv : list (list Z) := [zstr "xargs"; zstr "-n"; zstr "1"; zstr "echo"; zstr "hi"].


Definition exec_args {W A} (r : ures W A) : option (list (list Z)) :=
  match r with UExec _ v _ => Some v | _ => None end.

(** The tail of a word that is too long becomes an argument of its own: on a
    word of 520 characters the command is run with the last 8 of them. *)
Theorem xargs_splits_long_word :
  exec_args (@xargs_main demo_os 600 xargs_argv
    (mkdemo {[0 := replicate 520 (chr "a") ++ [10]]} ∅ 1 [0]))
  = Some [zstr "echo"; zstr "hi"; replicate 8 (chr "a")].
Proof. vm_compute. reflexivity. Qed.
