(* ===== verification/Find.v ===== *)
(** * user/find.c

    The recursive search, over the system-call interface.  [buf] is the array of
    512 bytes of each activation; building a path that does not fit, or from a
    directory entry whose name fills its 14 bytes and so has no NUL, is a fault.
    [TreeOS] states what the kernel promises of [open], [fstat], [read] and
    [close] on a file tree that nobody changes, with a table of at most [NOFILE]
    descriptors per process. *)

From stdpp Require Import base gmap strings numbers list.
From Stdlib Require Import Ascii.
From S2P Require Import Prelude KState StringC Spinlock Printf UserOS Ulib UserProgs.

(** strcpy(buf, path); p = buf + strlen(buf); *p++ = '/'; strcpy(p, de.name); *)
Definition find_buf (path name : list Z) : option (list Z) :=
  if bool_decide (0 ∉ name) then None else
  buf ← strcpy (replicate 512 0) path;
  let n := Z.to_nat (ulib_strlen buf) in
  let buf := <[n := chr "/"]> buf in
  t ← strcpy (drop (S n) buf) name;
  Some (take (S n) buf ++ t).

Section Find.
Context {Sys : UserOS}.

(** [k] bounds the depth of the calls and the rounds of the loops. *)
Fixpoint find (k : nat) (path target : list Z) : U unit :=
  match k with
  | O => uspin
  | S k' =>
      fd ← uopen path 0;
      if fd <? 0 then ufprintf 2 (nl (zstr "find: cannot open %s")) [astr path] else
      '(r, st) ← ufstat fd;
      if r <? 0 then
        ufprintf 2 (nl (zstr "find: cannot stat %s")) [astr path];; uclose fd;; mret ()
      else if negb (us_type st =? T_DIR) then
        ufprintf 2 (nl (zstr "find: %s is not a directory")) [astr path];; uclose fd;; mret ()
      else
        find_loop k' fd path target;;
        uclose fd;;
        mret ()
  end
(** while (read(fd, &de, sizeof(de)) == sizeof(de)) *)
with find_loop (k : nat) (fd : Z) (path target : list Z) : U unit :=
  match k with
  | O => uspin
  | S k' =>
      '(n, bs) ← uread fd 16;
      if negb (n =? 16) then mret () else
      let de := dirent_of bs in
      if (ud_inum de =? 0) || (strcmp (ud_name de) (zstr ".") =? 0) || (strcmp (ud_name de) (zstr "..") =? 0)
      then find_loop k' fd path target else
      match find_buf path (ud_name de) with
      | None => ufault "find: path"
      | Some buf =>
          fd_stat ← uopen buf 0;
          if fd_stat <? 0 then
            ufprintf 2 (nl (zstr "find: cannot open %s")) [astr buf];; find_loop k' fd path target else
          '(r, st) ← ufstat fd_stat;
          if r <? 0 then
            ufprintf 2 (nl (zstr "find: cannot stat %s")) [astr buf];; find_loop k' fd path target else
          (if us_type st =? T_DIR then find k' buf target
           else if (us_type st =? T_FILE) && (strcmp (ud_name de) target =? 0) then
             uprintf (nl (zstr "%s")) [astr buf]
           else mret ());;
          uclose fd_stat;;
          find_loop k' fd path target
      end
  end.

Definition find_main (k : nat) (argv : list (list Z)) : U unit :=
  match argv with
  | [_; path; target] => find k path target;; uexit 0
  | _ => ufprintf 2 (nl (zstr "Usage: find <path> <file>")) [];; uexit 1
  end.

End Find.

(** ** What the kernel promises *)

Class TreeOS `{S : StreamOS} : Type := {
  (** The type and, of a directory, the records of the file at a path. *)
  look : list Z -> option (Z * list (list Z));
  (** The open descriptors: type and records not yet read. *)
  otab : world -> gmap Z (Z * list (list Z));
  sys_open_ok path w f : look (cstr path) = Some f -> (size (otab w) < Z.to_nat NOFILE)%nat ->
    exists fd w', sys_open path 0 w = (fd, w') /\ 0 <= fd /\ otab w !! fd = None /\
      otab w' = <[fd := f]> (otab w) /\ forall x, outp w' x = outp w x;
  sys_open_full path w : (Z.to_nat NOFILE <= size (otab w))%nat ->
    exists w', sys_open path 0 w = (-1, w') /\ otab w' = otab w /\ forall x, outp w' x = outp w x;
  sys_fstat_ok fd w f : otab w !! fd = Some f ->
    exists st w', sys_fstat fd w = ((0, st), w') /\ us_type st = f.1 /\ otab w' = otab w /\
      forall x, outp w' x = outp w x;
  sys_read_record fd w ty r rs : otab w !! fd = Some (ty, r :: rs) -> length r = 16%nat ->
    exists w', sys_read fd 16 w = ((16, r), w') /\ otab w' = <[fd := (ty, rs)]> (otab w) /\
      forall x, outp w' x = outp w x;
  sys_read_end fd w ty : otab w !! fd = Some (ty, []) ->
    exists w', sys_read fd 16 w = ((0, []), w') /\ otab w' = otab w /\ forall x, outp w' x = outp w x;
  sys_close_ok fd w f : otab w !! fd = Some f ->
    exists r w', sys_close fd w = (r, w') /\ otab w' = delete fd (otab w) /\ forall x, outp w' x = outp w x;
  sys_write_otab fd bs w r w' : sys_write fd bs w = (r, w') -> otab w' = otab w;
  (** The process runs with a standard output that can be written. *)
  stdout_writable w : writable w 1 = true
}.
Arguments look {_ _ _} p.
Arguments otab {_ _ _} w.

(** ** File trees *)

Inductive node : Type :=
| NLeaf (ty : Z)
| NDir (es : list (list Z * node)).

Definition rec_name (r : list Z) : list Z := cstr (ud_name (dirent_of r)).
Definition skipped (r : list Z) : bool :=
  (ud_inum (dirent_of r) =? 0) || bool_decide (rec_name r = zstr ".") || bool_decide (rec_name r = zstr "..").
Definition under (p : list Z) (r : list Z) : list Z := p ++ chr "/" :: rec_name r.

(** The paths of the files of the tree at [p] whose name is [target], in the
    order of the directories. *)
Fixpoint found (target p : list Z) (nd : node) : list (list Z) :=
  match nd with
  | NLeaf _ => []
  | NDir es =>
      (fix go es := match es with
       | [] => []
       | (r, nd) :: es =>
           (if skipped r then [] else
            match nd with
            | NDir _ => found target (under p r) nd
            | NLeaf ty => if (ty =? T_FILE) && bool_decide (rec_name r = target) then [under p r] else []
            end) ++ go es
       end) es
  end.

(** Rounds and calls that the search needs, and descriptors it opens. *)
Fixpoint rounds (nd : node) : nat :=
  match nd with
  | NLeaf _ => 0
  | NDir es => S ((fix go es := match es with [] => 1%nat | (_, nd) :: es => S (Nat.max (rounds nd) (go es)) end) es)
  end.
Fixpoint descriptors (nd : node) : nat :=
  match nd with
  | NLeaf _ => 0
  | NDir es => S ((fix go es := match es with
      | [] => 0%nat
      | (r, nd) :: es => Nat.max (if skipped r then 0%nat else S (descriptors nd)) (go es)
      end) es)
  end.

Section Search.
Context `{TreeOS}.

(** The tree at [p] is [nd], every name fits its entry and every path [buf]. *)
Fixpoint tree_at (p : list Z) (nd : node) : Prop :=
  match nd with
  | NLeaf ty => look p = Some (ty, []) /\ ty <> T_DIR
  | NDir es => look p = Some (T_DIR, es.*1) /\
      (fix go es := match es with
       | [] => True
       | (r, nd) :: es =>
           length r = 16%nat /\
           (skipped r = true \/
            (0 ∈ ud_name (dirent_of r) /\ (length (under p r) < 512)%nat /\ tree_at (under p r) nd)) /\ go es
       end) es
  end.

(** Nothing but [bs] was written, to standard output. *)
Definition printed_out (bs : list Z) (w w' : world) : Prop :=
  forall fd, outp w' fd = if decide (fd = 1) then outp w 1 ++ bs else outp w fd.

Lemma printed_nil w w' : (forall x, outp w' x = outp w x) -> printed_out [] w w'.
Proof. intros Ho fd. rewrite Ho. case_decide; [subst; by rewrite app_nil_r|done]. Qed.

Lemma printed_app b1 b2 w w1 w2 : printed_out b1 w w1 -> printed_out b2 w1 w2 -> printed_out (b1 ++ b2) w w2.
Proof. intros H1 H2 fd. rewrite H2, !H1. case_decide; [|done]. by rewrite decide_True, app_assoc. Qed.

Lemma printed_then bs w w1 w2 : printed_out bs w w1 -> (forall x, outp w2 x = outp w1 x) -> printed_out bs w w2.
Proof. intros H1 Ho fd. by rewrite Ho. Qed.
Lemma printed_before bs w w1 w2 : (forall x, outp w1 x = outp w x) -> printed_out bs w1 w2 -> printed_out bs w w2.
Proof. intros Ho H1 fd. by rewrite H1, !Ho. Qed.

Lemma wrote_otab w w' : rtc wrote w w' -> otab w' = otab w.
Proof.
  induction 1 as [|w w1 w' (fd & bs & r & Hw) _ IH]; [done|]. rewrite IH. by eapply sys_write_otab.
Qed.

Lemma ulib_strlen_cstr s : ulib_strlen s = Z.of_nat (length (cstr s)).
Proof. induction s as [|c s IH]; [done|]. cbn [ulib_strlen cstr]. destruct (c =? 0); [done|]. cbn. lia. Qed.

Lemma find_buf_spec path r :
  0 ∈ ud_name (dirent_of r) -> (length (under (cstr path) r) < 512)%nat ->
  exists buf, find_buf path (ud_name (dirent_of r)) = Some buf /\ cstr buf = under (cstr path) r.
Proof.
  intros H0 Hl. unfold under in *. rewrite length_app in Hl. cbn [length] in Hl.
  unfold find_buf. rewrite bool_decide_false by tauto.
  set (l := cstr path) in *. set (nm := ud_name (dirent_of r)) in *. change (rec_name r) with (cstr nm) in *.
  rewrite strcpy_spec by (rewrite length_replicate; fold l; lia). fold l. cbn [mbind option_bind].
  rewrite drop_replicate. set (q := replicate (512 - S (length l)) 0).
  assert (Hn : Z.to_nat (ulib_strlen (l ++ 0 :: q)) = length l).
  { rewrite ulib_strlen_cstr, cstr_app_zero by apply cstr_nonzero. lia. }
  rewrite Hn, insert_app_r_alt, Nat.sub_diag by lia. cbn [insert list_insert].
  replace (drop (S (length l)) (l ++ chr "/" :: q)) with q
    by (change (chr "/" :: q) with ([chr "/"] ++ q); rewrite app_assoc, drop_app_length' by (rewrite length_app; cbn; lia); done).
  rewrite strcpy_spec by (unfold q; rewrite length_replicate; lia). cbn [mbind option_bind].
  eexists. split; [reflexivity|].
  replace (take (S (length l)) (l ++ chr "/" :: q)) with (l ++ [chr "/"])
    by (change (chr "/" :: q) with ([chr "/"] ++ q); rewrite app_assoc, take_app_length' by (rewrite length_app; cbn; lia); done).
  rewrite app_assoc, cstr_app_zero; [by rewrite <- app_assoc|].
  rewrite !Forall_app. split_and!; [apply cstr_nonzero|by repeat constructor|apply cstr_nonzero].
Qed.

(** ** The trees, an entry at a time *)

Definition found_entry (target p : list Z) (e : list Z * node) : list (list Z) :=
  if skipped e.1 then [] else
  match e.2 with
  | NDir _ => found target (under p e.1) e.2
  | NLeaf ty => if (ty =? T_FILE) && bool_decide (rec_name e.1 = target) then [under p e.1] else []
  end.
Definition entry_ok (p : list Z) (e : list Z * node) : Prop :=
  length e.1 = 16%nat /\
  (skipped e.1 = true \/
   (0 ∈ ud_name (dirent_of e.1) /\ (length (under p e.1) < 512)%nat /\ tree_at (under p e.1) e.2)).
Definition entry_rounds (es : list (list Z * node)) : nat :=
  foldr (fun e m => S (Nat.max (rounds e.2) m)) 1%nat es.
Definition entry_descriptors (es : list (list Z * node)) : nat :=
  foldr (fun e m => Nat.max (if skipped e.1 then 0%nat else S (descriptors e.2)) m) 0%nat es.

Lemma found_dir target p es : found target p (NDir es) = concat (found_entry target p <$> es).
Proof. induction es as [|[r nd] es IH]; [done|]. cbn in *. by rewrite <- IH. Qed.
Lemma tree_dir p es : tree_at p (NDir es) <-> look p = Some (T_DIR, es.*1) /\ Forall (entry_ok p) es.
Proof.
  cbn [tree_at]. apply and_iff_compat_l. induction es as [|[r nd] es IH]; [done|].
  rewrite Forall_cons, <- IH. unfold entry_ok. cbn. tauto.
Qed.
Lemma rounds_dir es : rounds (NDir es) = S (entry_rounds es).
Proof. cbn. f_equal. induction es as [|[r nd] es IH]; [done|]. cbn. by rewrite IH. Qed.
Lemma descriptors_dir es : descriptors (NDir es) = S (entry_descriptors es).
Proof. cbn. f_equal. induction es as [|[r nd] es IH]; [done|]. cbn. by rewrite IH. Qed.

Lemma strcmp_name r q : Forall (fun c => c <> 0) q ->
  (strcmp (ud_name (dirent_of r)) q =? 0) = bool_decide (rec_name r = q).
Proof.
  intros Hq. apply eq_bool_prop_intro. rewrite bool_decide_spec, Is_true_true, Z.eqb_eq, strcmp_eq.
  by rewrite (cstr_id q).
Qed.
Lemma skipped_test r :
  (ud_inum (dirent_of r) =? 0) || (strcmp (ud_name (dirent_of r)) (zstr ".") =? 0) ||
  (strcmp (ud_name (dirent_of r)) (zstr "..") =? 0) = skipped r.
Proof. unfold skipped. by rewrite !strcmp_name by (repeat constructor; done). Qed.

Definition lines (l : list (list Z)) : list Z := concat ((fun q => q ++ [10]) <$> l).

Lemma lines_app l1 l2 : lines (l1 ++ l2) = lines l1 ++ lines l2.
Proof. unfold lines. by rewrite fmap_app, concat_app. Qed.

(** ** The search *)

(** [find k] does its work on the trees that need at most [k] rounds. *)
Definition searches (k : nat) (target : list Z) : Prop :=
  forall path es w, tree_at (cstr path) (NDir es) -> (rounds (NDir es) <= k)%nat ->
    (size (otab w) + descriptors (NDir es) <= Z.to_nat NOFILE)%nat ->
    exists w', find k path target w = UOk () w' /\ otab w' = otab w /\
      printed_out (lines (found (cstr target) (cstr path) (NDir es))) w w'.

(** What is done with an entry, once [buf] is open and its type known. *)
Definition visit (k : nat) (ty : Z) (r buf target : list Z) : U unit :=
  if ty =? T_DIR then find k buf target
  else if (ty =? T_FILE) && (strcmp (ud_name (dirent_of r)) target =? 0) then
    uprintf (nl (zstr "%s")) [astr buf]
  else mret ().

Lemma visit_run k target p r nd buf w :
  searches k target -> skipped r = false -> cstr buf = under p r -> tree_at (under p r) nd ->
  (rounds nd <= k)%nat -> (size (otab w) + descriptors nd <= Z.to_nat NOFILE)%nat ->
  exists f, look (under p r) = Some f /\
    exists w', visit k f.1 r buf target w = UOk () w' /\ otab w' = otab w /\
      printed_out (lines (found_entry (cstr target) p (r, nd))) w w'.
Proof.
  intros Hs Hsk Hb Ht Hr Hd. unfold found_entry, visit. cbn [fst snd]. rewrite Hsk. destruct nd as [ty|es].
  - destruct Ht as [Hl Hty]. exists (ty, []). split; [done|]. cbn [fst].
    rewrite (proj2 (Z.eqb_neq _ _)) by done.
    replace (strcmp (ud_name (dirent_of r)) target =? 0) with (bool_decide (rec_name r = cstr target))
      by (apply eq_bool_prop_intro; rewrite bool_decide_spec, Is_true_true, Z.eqb_eq, strcmp_eq; done).
    destruct ((ty =? T_FILE) && bool_decide (rec_name r = cstr target)).
    + destruct (vprintf_run 1 (nl (zstr "%s")) 0 false [astr buf] (cstr buf ++ [10]) w) as (w' & Hw & E); [reflexivity|].
      exists w'. split; [exact Hw|]. split; [by apply wrote_otab, E|]. rewrite <- Hb. unfold lines. cbn.
      rewrite app_nil_r. exact (emitted_outp _ _ _ _ E (stdout_writable w)).
    + exists w. split; [done|]. split; [done|]. by apply printed_nil.
  - exists (T_DIR, es.*1). split; [by apply tree_dir in Ht as [? _]|]. cbn [fst]. rewrite Z.eqb_refl.
    rewrite <- Hb in *. by apply Hs.
Qed.

Lemma ucall_ok {A} (f : world -> A * world) w a w' : f w = (a, w') -> ucall f w = UOk a w'.
Proof. unfold ucall. by intros ->. Qed.

Definition scans (k : nat) (target : list Z) : Prop :=
  forall fd path es w, otab w !! fd = Some (T_DIR, es.*1) -> Forall (entry_ok (cstr path)) es ->
    (entry_rounds es <= k)%nat -> (size (otab w) + entry_descriptors es <= Z.to_nat NOFILE)%nat ->
    exists w', find_loop k fd path target w = UOk () w' /\ otab w' = <[fd := (T_DIR, [])]> (otab w) /\
      printed_out (lines (concat (found_entry (cstr target) (cstr path) <$> es))) w w'.

Lemma scans_step k target : searches k target -> scans k target -> scans (S k) target.
Proof.
  intros Hs Hl fd path es w Hfd Hok Hr Hd. cbn [find_loop]. destruct es as [|[r nd] es].
  { destruct (sys_read_end fd w T_DIR Hfd) as (w' & Hrd & Ht & Ho). unfold uread.
    rewrite (ubind_ok _ _ _ _ _ (ucall_ok _ _ _ _ Hrd)). cbn. exists w'. split; [done|].
    split; [by rewrite Ht, insert_id|]. by apply printed_nil. }
  apply Forall_cons in Hok as [[Hlen Hent] Hok]. cbn [fst snd fmap list_fmap entry_rounds entry_descriptors foldr concat] in *.
  destruct (sys_read_record fd w T_DIR r es.*1 Hfd Hlen) as (w1 & Hrd & Ht1 & Ho1). unfold uread.
  rewrite (ubind_ok _ _ _ _ _ (ucall_ok _ _ _ _ Hrd)). cbn [negb Z.eqb Pos.eqb]. cbv zeta. rewrite skipped_test.
  fold (entry_descriptors es) (entry_rounds es) in *. rewrite lines_app.
  assert (Hfd1 : otab w1 !! fd = Some (T_DIR, es.*1)) by (by rewrite Ht1, lookup_insert_eq).
  assert (Hsz : size (otab w1) = size (otab w)) by (by rewrite Ht1, map_size_insert_Some).
  destruct (skipped r) eqn:Hsk.
  { destruct (Hl fd path es w1 Hfd1 Hok) as (w2 & H2 & Ht2 & Ho2); [lia|lia|]. exists w2. split; [exact H2|].
    split; [by rewrite Ht2, Ht1, insert_insert_eq|]. unfold found_entry at 1. cbn [fst]. rewrite Hsk.
    by eapply printed_before. }
  destruct Hent as [|(H0 & Hpl & Ht)]; [done|].
  destruct (find_buf_spec path r H0 Hpl) as (buf & -> & Hb).
  destruct (visit_run k target (cstr path) r nd buf w1 Hs Hsk Hb Ht) as (f & Hf & _); [lia|lia|].
  rewrite <- Hb in Hf. destruct (sys_open_ok buf w1 f Hf) as (fd2 & w2 & Hop & Hfd2 & Hfree & Ht2 & Ho2); [lia|].
  unfold uopen. rewrite (ubind_ok _ _ _ _ _ (ucall_ok _ _ _ _ Hop)), (proj2 (Z.ltb_ge _ _)) by done.
  destruct (sys_fstat_ok fd2 w2 f) as (st & w3 & Hst & Hty & Ht3 & Ho3); [by rewrite Ht2, lookup_insert_eq|].
  unfold ufstat. rewrite (ubind_ok _ _ _ _ _ (ucall_ok _ _ _ _ Hst)). cbn [Z.ltb Z.compare]. rewrite Hty.
  destruct (visit_run k target (cstr path) r nd buf w3 Hs Hsk Hb Ht) as (f' & Hf' & w4 & H4 & Ht4 & Ho4);
    [lia|rewrite Ht3, Ht2, map_size_insert_None by done; lia|].
  assert (f' = f) as -> by congruence. fold (visit k f.1 r buf target). rewrite (ubind_ok _ _ _ _ _ H4).
  destruct (sys_close_ok fd2 w4 f) as (rc & w5 & Hcl & Ht5 & Ho5); [by rewrite Ht4, Ht3, Ht2, lookup_insert_eq|].
  unfold uclose. rewrite (ubind_ok _ _ _ _ _ (ucall_ok _ _ _ _ Hcl)).
  assert (Ht51 : otab w5 = otab w1) by (by rewrite Ht5, Ht4, Ht3, Ht2, delete_insert_id).
  destruct (Hl fd path es w5) as (w6 & H6 & Ht6 & Ho6); [by rewrite Ht51|done|lia|rewrite Ht51; lia|].
  exists w6. split; [exact H6|]. split; [by rewrite Ht6, Ht51, Ht1, insert_insert_eq|].
  eapply printed_app; [|exact Ho6]. eapply printed_then; [|exact Ho5]. eapply printed_before; [|exact Ho4].
  intros x. by rewrite Ho3, Ho2, Ho1.
Qed.

Lemma searches_step k target : scans k target -> searches (S k) target.
Proof.
  intros Hl path es w Ht Hr Hd. rewrite rounds_dir, descriptors_dir, found_dir in *.
  apply tree_dir in Ht as [Hlook Hok]. cbn [find].
  destruct (sys_open_ok path w _ Hlook) as (fd & w1 & Hop & Hfd & Hfree & Ht1 & Ho1); [lia|].
  unfold uopen. rewrite (ubind_ok _ _ _ _ _ (ucall_ok _ _ _ _ Hop)), (proj2 (Z.ltb_ge _ _)) by done.
  assert (Hfd1 : otab w1 !! fd = Some (T_DIR, es.*1)) by (by rewrite Ht1, lookup_insert_eq).
  destruct (sys_fstat_ok fd w1 _ Hfd1) as (st & w2 & Hst & Hty & Ht2 & Ho2).
  unfold ufstat. rewrite (ubind_ok _ _ _ _ _ (ucall_ok _ _ _ _ Hst)), Hty. cbn [Z.ltb Z.compare fst]. rewrite Z.eqb_refl.
  cbn [negb]. destruct (Hl fd path es w2) as (w3 & H3 & Ht3 & Ho3);
    [by rewrite Ht2|done|lia|rewrite Ht2, Ht1, map_size_insert_None by done; lia|].
  rewrite (ubind_ok _ _ _ _ _ H3).
  destruct (sys_close_ok fd w3 (T_DIR, [])) as (rc & w4 & Hcl & Ht4 & Ho4); [by rewrite Ht3, lookup_insert_eq|].
  unfold uclose. rewrite (ubind_ok _ _ _ _ _ (ucall_ok _ _ _ _ Hcl)). exists w4. split; [done|]. split.
  - by rewrite Ht4, Ht3, Ht2, Ht1, insert_insert_eq, delete_insert_id.
  - eapply printed_then; [|exact Ho4]. eapply printed_before; [|exact Ho3]. intros x. by rewrite Ho2, Ho1.
Qed.

Lemma search_run k target : searches k target /\ scans k target.
Proof.
  induction k as [|k [IHs IHl]].
  - split; [intros path es w _ Hr; rewrite rounds_dir in Hr; lia|].
    intros fd path es w _ _ Hr. destruct es; cbn in Hr; lia.
  - split; [by apply searches_step|by apply scans_step].
Qed.

(** C34 [find] prints the path of every file of the tree whose name is the target,
    in the order of the directory entries, and nothing else; it terminates, and
    leaves every descriptor closed that it opened.  The tree's names have at most
    13 characters, its paths fit in [buf], and the search opens two descriptors
    per level of the tree, which the process must have free. *)
Theorem find_prints k path target es w :
  tree_at (cstr path) (NDir es) -> (rounds (NDir es) <= k)%nat ->
  (size (otab w) + descriptors (NDir es) <= Z.to_nat NOFILE)%nat ->
  exists w', find k path target w = UOk () w' /\ otab w' = otab w /\
    printed_out (lines (found (cstr target) (cstr path) (NDir es))) w w'.
Proof. apply (search_run k target). Qed.

End Search.

(** ** A system with a file tree

    [ft] gives the type and the records of every path; descriptors are the lowest
    free ones of the process. *)

Record tworld : Type := mktw { tw_tab : gmap Z (Z * list (list Z)); tw_out : gmap Z (list Z) }.

Fixpoint lowest (n : nat) (fd : Z) (tab : gmap Z (Z * list (list Z))) : Z :=
  match n with
  | O => fd
  | S n' => match tab !! fd with None => fd | Some _ => lowest n' (fd + 1) tab end
  end.

(** At most [n] bytes of the first record that is not empty. *)
Fixpoint take_record (rs : list (list Z)) (n : nat) : list Z * list (list Z) :=
  match rs with
  | [] => ([], [])
  | [] :: rs' => take_record rs' n
  | r :: rs' => if (length r <=? n)%nat then (r, rs') else (take n r, drop n r :: rs')
  end.

Definition tab_inp (w : tworld) (fd : Z) : list Z := concat (default (0, []) (tw_tab w !! fd)).2.
Definition tab_read (fd n : Z) (w : tworld) : (Z * list Z) * tworld :=
  match tw_tab w !! fd with
  | None => ((-1, []), w)
  | Some (ty, rs) =>
      let '(k, rs') := take_record rs (Z.to_nat n) in
      ((Z.of_nat (length k), k), mktw (<[fd := (ty, rs')]> (tw_tab w)) (tw_out w))
  end.
Definition tab_write (fd : Z) (bs : list Z) (w : tworld) : Z * tworld :=
  (Z.of_nat (length bs), mktw (tw_tab w) (<[fd := default [] (tw_out w !! fd) ++ bs]> (tw_out w))).

Section TreeInstance.
Variable ft : gmap (list Z) (Z * list (list Z)).

Definition tab_open (path : list Z) (flags : Z) (w : tworld) : Z * tworld :=
  match ft !! cstr path with
  | Some f =>
      if (size (tw_tab w) <? Z.to_nat NOFILE)%nat then
        let fd := lowest (Z.to_nat NOFILE) 0 (tw_tab w) in
        (fd, mktw (<[fd := f]> (tw_tab w)) (tw_out w))
      else (-1, w)
  | None => (-1, w)
  end.

Definition tree_os : UserOS := {|
  world := tworld; sys_read := tab_read; sys_write := tab_write; sys_open := tab_open;
  sys_close := fun fd w => (0, mktw (delete fd (tw_tab w)) (tw_out w));
  sys_fstat := fun fd w => match tw_tab w !! fd with
    | Some f => ((0, mkustat f.1 0 0), w) | None => ((-1, mkustat 0 0 0), w) end;
  sys_fork := fun w => (-1, w); sys_mkdir := fun _ w => (-1, w);
  sys_mknod := fun _ _ _ w => (-1, w); sys_link := fun _ _ w => (-1, w); sys_unlink := fun _ w => (-1, w);
  sys_chdir := fun _ w => (-1, w); sys_dup := fun _ w => (-1, w); sys_pipe := fun w => ((-1, (0, 0)), w);
  sys_wait := fun w => ((-1, 0), w); sys_kill := fun _ w => (-1, w); sys_exec := fun _ _ w => (Some (-1), w);
  sys_sbrk := fun _ w => (-1, w); sys_sleep := fun _ w => (0, w); sys_getpid := fun w => (1, w)
|}.

Lemma take_record_spec rs n :
  let '(k, rs') := take_record rs n in
  concat rs = k ++ concat rs' /\ (length k <= n)%nat /\ ((0 < n)%nat -> concat rs <> [] -> k <> []).
Proof.
  induction rs as [|[|x r] rs IH]; [cbn; split_and!; [done|lia|done]|exact IH|]. cbn [take_record].
  destruct (Nat.leb_spec (length (x :: r)) n); cbn [concat].
  - split_and!; [done|done|]. done.
  - rewrite app_assoc, take_drop. split_and!; [done|rewrite length_take; lia|]. intros Hn _. destruct n; [lia|done].
Qed.

Lemma lowest_spec n fd tab : tab !! lowest n fd tab = None \/ forall i, fd <= i < fd + Z.of_nat n -> is_Some (tab !! i).
Proof.
  revert fd. induction n as [|n IH]; intros fd; [right; lia|]. cbn [lowest].
  destruct (tab !! fd) eqn:E; [|by left]. destruct (IH (fd + 1)) as [|Hall]; [by left|right].
  intros i Hi. destruct (decide (i = fd)) as [->|]; [by rewrite E|]. apply Hall. lia.
Qed.
Lemma lowest_ge n fd tab : fd <= lowest n fd tab.
Proof. revert fd. induction n as [|n IH]; intros fd; cbn; [done|]. destruct (tab !! fd); [|done]. specialize (IH (fd + 1)). lia. Qed.

Lemma lowest_free n tab : (size tab < n)%nat -> tab !! lowest n 0 tab = None.
Proof.
  intros Hs. destruct (lowest_spec n 0 tab) as [|Hall]; [done|exfalso].
  assert (Hsub : list_to_set (seqZ 0 (Z.of_nat n)) ⊆ dom tab).
  { intros i Hi%elem_of_list_to_set%elem_of_seqZ. apply elem_of_dom, Hall. lia. }
  apply subseteq_size in Hsub. rewrite size_list_to_set in Hsub by apply NoDup_seqZ.
  rewrite length_seqZ, size_dom in Hsub. lia.
Qed.

#[export] Instance tree_streams : @StreamOS tree_os.
Proof.
  unshelve refine (@Build_StreamOS tree_os tab_inp (fun w fd => default [] (tw_out w !! fd))
    (fun w fd => bool_decide (is_Some (tw_tab w !! fd))) (fun _ _ => true) _ _).
  - intros fd n w Hn Hr. cbn in *. unfold tab_read, tab_inp. apply bool_decide_eq_true in Hr as [[ty rs] E]. rewrite E.
    pose proof (take_record_spec rs (Z.to_nat n)) as Ht. destruct (take_record rs (Z.to_nat n)) as [k rs'].
    destruct Ht as (H1 & H2 & H3). eexists _, _. split; [done|]. cbn. rewrite lookup_insert_eq. cbn.
    split_and!; [done|lia|intros; apply H3; [lia|done]| |done| |done].
    + intros fd' Hne. by rewrite lookup_insert_ne.
    + intros fd'. destruct (decide (fd' = fd)) as [->|]; [by rewrite lookup_insert_eq, E|by rewrite lookup_insert_ne].
  - intros fd bs w. eexists _, _. split; [reflexivity|]. cbn. split_and!; try done; [by rewrite lookup_insert_eq|].
    intros fd' Hne. by rewrite lookup_insert_ne.
Defined.

#[export] Instance tree_files : @TreeOS tree_os tree_streams.
Proof.
  unshelve refine (@Build_TreeOS tree_os tree_streams (fun p => ft !! p) tw_tab _ _ _ _ _ _ _ _).
  - intros path w f Hf Hs. cbn. unfold tab_open. rewrite Hf, (proj2 (Nat.ltb_lt _ _)) by done.
    eexists _, _. split; [done|]. split; [apply lowest_ge|]. split; [by apply lowest_free|]. done.
  - intros path w Hs. exists w. cbn. unfold tab_open. rewrite (proj2 (Nat.ltb_ge _ _)) by done.
    by destruct (ft !! cstr path).
  - intros fd w f Hf. cbn. rewrite Hf. by eexists _, _.
  - intros fd w ty r rs Hf Hr. cbn. unfold tab_read. rewrite Hf. destruct r as [|x r]; [done|]. cbn [take_record].
    rewrite (proj2 (Nat.leb_le _ _)) by (rewrite Hr; lia). rewrite Hr. by eexists.
  - intros fd w ty Hf. cbn. unfold tab_read. rewrite Hf. cbn. eexists. split; [done|]. cbn. split; [by apply insert_id|done].
  - intros fd w f Hf. by eexists _, _.
  - intros fd bs w r w' Hw. by injection Hw as <- <-.
  - done.
Defined.

End TreeInstance.

(** ** Sample trees *)

Definition record (inum : Z) (name : list Z) : list Z :=
  le_bytes 2 inum ++ name ++ replicate (14 - length name) 0.

(** The table of a tree. *)
Fixpoint table (p : list Z) (nd : node) : list (list Z * (Z * list (list Z))) :=
  match nd with
  | NLeaf ty => [(p, (ty, []))]
  | NDir es =>
      (p, (T_DIR, es.*1)) ::
      (fix go es := match es with
       | [] => []
       | (r, nd) :: es => (if skipped r then [] else table (under p r) nd) ++ go es
       end) es
  end.
Definition tree_table (p : list Z) (nd : node) : gmap (list Z) (Z * list (list Z)) := list_to_map (table p nd).

Definition dots (es : list (list Z * node)) : node :=
  NDir ((record 1 (zstr "."), NLeaf 0) :: (record 1 (zstr ".."), NLeaf 0) :: es).
Definition sample_tree : node :=
  dots [(record 2 (zstr "b"), NLeaf T_FILE);
        (record 3 (zstr "a"), dots [(record 0 (zstr "b"), NLeaf 0); (record 4 (zstr "b"), NLeaf T_FILE)]);
        (record 5 (zstr "c"), NLeaf T_FILE)].
Definition std_files : gmap Z (Z * list (list Z)) := list_to_map ((fun fd => (fd, (T_DEVICE, []))) <$> [0; 1; 2]).

(** The search for [b] in the sample tree prints [./b] and [./a/b]. *)
Lemma find_prints_witness :
  exists w', @find (tree_os (tree_table (zstr ".") sample_tree)) 20 (zstr ".") (zstr "b") (mktw std_files ∅) = UOk () w' /\
    default [] (tw_out w' !! 1) = nl (zstr "./b") ++ nl (zstr "./a/b").
Proof.
  set (ft := tree_table (zstr ".") sample_tree).
  destruct (@find_prints (tree_os ft) (tree_streams ft) (tree_files ft) 20 (zstr ".") (zstr "b")
    ((record 1 (zstr "."), NLeaf 0) :: (record 1 (zstr ".."), NLeaf 0) ::
     [(record 2 (zstr "b"), NLeaf T_FILE);
      (record 3 (zstr "a"), dots [(record 0 (zstr "b"), NLeaf 0); (record 4 (zstr "b"), NLeaf T_FILE)]);
      (record 5 (zstr "c"), NLeaf T_FILE)]) (mktw std_files ∅)) as (w' & H1 & _ & H2).
  - cbn [tree_at dots]. repeat match goal with
    | |- _ /\ _ => split
    | |- skipped _ = true \/ _ => first [left; vm_compute; reflexivity|right]
    | |- True => exact I
    | |- _ ∈ _ => apply (bool_decide_unpack _); vm_compute; exact I
    | |- (_ < _)%nat => apply Nat.ltb_lt; vm_compute; reflexivity
    | |- _ <> _ => vm_compute; congruence
    | |- _ = _ => vm_compute; reflexivity
    end.
  - apply Nat.leb_le. vm_compute. reflexivity.
  - apply Nat.leb_le. vm_compute. reflexivity.
  - exists w'. split; [exact H1|]. transitivity (@outp _ (tree_streams ft) w' 1); [reflexivity|].
    rewrite (H2 1). vm_compute. reflexivity.
Defined.

(** A chain of directories [d], each with a file [f]. *)
Fixpoint chain (n : nat) : node :=
  match n with
  | O => dots [(record 7 (zstr "f"), NLeaf T_FILE)]
  | S n' => dots [(record 7 (zstr "f"), NLeaf T_FILE); (record 8 (zstr "d"), chain n')]
  end.

Definition out_of {A} (fd : Z) (r : ures tworld A) : option (list Z) :=
  match r with UOk _ w => Some (default [] (tw_out w !! fd)) | _ => None end.

(** Every level of the search keeps two descriptors open, so that with the three
    standard ones open a process with [NOFILE] descriptors finds the files of the
    first six levels only; the seventh is reported as an open that fails. *)
Theorem find_depth_limit :
  let r := @find (tree_os (tree_table (zstr ".") (chain 6))) 100 (zstr ".") (zstr "f") (mktw std_files ∅) in
  out_of 1 r = Some (lines (take 6 (found (zstr "f") (zstr ".") (chain 6)))) /\
  length (found (zstr "f") (zstr ".") (chain 6)) = 7%nat /\
  out_of 2 r = Some (nl (zstr "find: cannot open ./d/d/d/d/d/d/f")).
Proof. vm_compute. done. Qed.
