(* ===== verification/Umalloc.v ===== *)
(** * user/umalloc.c

    The allocator of Kernighan and Ritchie over [sbrk].  The heap is what the
    program keeps in headers, [ptr] and [size] by address, and the static [freep];
    [base] is the address of the static header.  A block is its address and its
    size in units of [sizeof(Header)], 16 bytes. *)

From stdpp Require Import base gmap strings numbers list.
From S2P Require Import Prelude KState UserOS.

Record heap : Type := mkheap { hp_ptr : gmap Z Z; hp_size : gmap Z Z; freep : Z }.

Definition hptr (h : heap) (p : Z) : Z := default 0 (hp_ptr h !! p).
Definition hsize (h : heap) (p : Z) : Z := default 0 (hp_size h !! p).
Definition put_ptr (p v : Z) (h : heap) : heap := mkheap (<[p := v]> (hp_ptr h)) (hp_size h) (freep h).
Definition put_size (p v : Z) (h : heap) : heap := mkheap (hp_ptr h) (<[p := u32 v]> (hp_size h)) (freep h).
Definition put_freep (v : Z) (h : heap) : heap := mkheap (hp_ptr h) (hp_size h) v.

(** sizeof(Header) *)
Definition HDR : Z := 16.

Section Umalloc.
Context {Sys : UserOS}.
Variable base : Z.

(** for(p = freep; !(bp > p && bp < p->s.ptr); p = p->s.ptr), at most [k] rounds. *)
Fixpoint free_find (k : nat) (h : heap) (bp p : Z) : option Z :=
  match k with
  | O => None
  | S k' =>
      let q := hptr h p in
      if (p <? bp) && (bp <? q) then Some p else
      if (q <=? p) && ((p <? bp) || (bp <? q)) then Some p else
      free_find k' h bp q
  end.

Definition free (k : nat) (ap : Z) (h : heap) : option heap :=
  let bp := ap - HDR in
  p ← free_find k h bp (freep h);
  let q := hptr h p in
  let h :=
    if bp + HDR * hsize h bp =? q
    then
      let h := put_size bp (hsize h bp + hsize h q) h in
      put_ptr bp (hptr h q) h
    else put_ptr bp q h in
  let h :=
    if p + HDR * hsize h p =? bp
    then
      let h := put_size p (hsize h p + hsize h bp) h in
      put_ptr p (hptr h bp) h
    else put_ptr p bp h in
  Some (put_freep p h).

(** The result and the heap afterwards. *)
Definition morecore (k : nat) (nu : Z) (h : heap) : U (Z * heap) :=
  let nu := if nu <? 4096 then 4096 else nu in
  p ← usbrk (i32 (nu * HDR));
  if p =? -1 then mret (0, h) else
  match free k (p + HDR) (put_size p nu h) with
  | None => uspin
  | Some h => mret (freep h, h)
  end.

(** Take [nunits] from the block at [p]. *)
Definition malloc_take (h : heap) (nunits prevp p : Z) : Z * heap :=
  let '(p, h) :=
    if hsize h p =? nunits then (p, put_ptr prevp (hptr h p) h)
    else
      let h := put_size p (hsize h p - nunits) h in
      let p := p + HDR * hsize h p in
      (p, put_size p nunits h) in
  (p + HDR, put_freep prevp h).

(** for(p = prevp->s.ptr; ; prevp = p, p = p->s.ptr), at most [k] rounds. *)
Fixpoint malloc_loop (k : nat) (h : heap) (nunits prevp p : Z) : U (Z * heap) :=
  match k with
  | O => uspin
  | S k' =>
      if nunits <=? hsize h p then mret (malloc_take h nunits prevp p) else
      if p =? freep h then
        '(p, h) ← morecore k' nunits h;
        if p =? 0 then mret (0, h) else malloc_loop k' h nunits p (hptr h p)
      else malloc_loop k' h nunits p (hptr h p)
  end.

Definition units (nbytes : Z) : Z := u32 ((nbytes + HDR - 1) / HDR + 1).

Definition malloc (k : nat) (nbytes : Z) (h : heap) : U (Z * heap) :=
  let nunits := units nbytes in
  let h := if freep h =? 0 then put_size base 0 (put_ptr base base (put_freep base h)) else h in
  malloc_loop k h nunits (freep h) (hptr h (freep h)).

End Umalloc.

(** ** Blocks *)

Notation blk := (Z * Z)%type.
Definition bend (b : blk) : Z := b.1 + HDR * b.2.

(** How many of the blocks the byte at [x] is in. *)
Definition cov1 (b : blk) (x : Z) : Z := if (b.1 <=? x) && (x <? bend b) then 1 else 0.
Definition cov (l : list blk) (x : Z) : Z := foldr (fun b n => cov1 b x + n) 0 l.

(** In increasing order between [lo] and [hi], no two adjacent. *)
Fixpoint sorted (lo : Z) (F : list blk) (hi : Z) : Prop :=
  match F with
  | [] => True
  | b :: F' => lo <= b.1 /\ 1 <= b.2 /\ bend b <= hi /\ sorted (bend b + 1) F' hi
  end.

(** The blocks of [F] linked one after the other behind [p]. *)
Fixpoint seg (h : heap) (p : Z) (F : list blk) : Prop :=
  match F with
  | [] => True
  | b :: F' => hptr h p = b.1 /\ hsize h b.1 = b.2 /\ seg h b.1 F'
  end.
(** The same, the last of them linked to [q]. *)
Fixpoint ring (h : heap) (p : Z) (F : list blk) (q : Z) : Prop :=
  match F with
  | [] => hptr h p = q
  | b :: F' => hptr h p = b.1 /\ hsize h b.1 = b.2 /\ ring h b.1 F' q
  end.
Definition lastp (p : Z) (F : list blk) : Z := default p (last F.*1).

Lemma cov1_bounds b x : 0 <= cov1 b x <= 1.
Proof. unfold cov1. by destruct (_ && _). Qed.
Lemma cov1_in b x : b.1 <= x < bend b -> cov1 b x = 1.
Proof. intros H. unfold cov1. by rewrite (proj2 (Z.leb_le _ _)), (proj2 (Z.ltb_lt _ _)) by lia. Qed.
Lemma cov1_out b x : x < b.1 \/ bend b <= x -> cov1 b x = 0.
Proof.
  intros H. unfold cov1. destruct (Z.leb_spec b.1 x); [|done]. by rewrite (proj2 (Z.ltb_ge _ _)) by lia.
Qed.
Lemma cov_app l1 l2 x : cov (l1 ++ l2) x = cov l1 x + cov l2 x.
Proof. induction l1 as [|b l1 IH]; [done|]. cbn. unfold cov in *. lia. Qed.
Lemma cov_nonneg l x : 0 <= cov l x.
Proof. induction l as [|b l IH]; cbn; [done|]. unfold cov in *. pose proof (cov1_bounds b x). lia. Qed.
Lemma cov_elem b l x : b ∈ l -> cov1 b x <= cov l x.
Proof.
  induction 1 as [b l|b c l _ IH]; cbn; [pose proof (cov_nonneg l x)|pose proof (cov1_bounds c x)]; unfold cov in *; lia.
Qed.
Lemma cov_two_at l i j b c x : l !! i = Some b -> l !! j = Some c -> i <> j -> cov1 b x + cov1 c x <= cov l x.
Proof.
  revert i j. induction l as [|d l IH]; intros i j Hi Hj Hne; [done|]. cbn.
  destruct i as [|i], j as [|j]; cbn in *; simplify_eq.
  - pose proof (cov_elem c l x (list_elem_of_lookup_2 _ _ _ Hj)). unfold cov in *. lia.
  - pose proof (cov_elem b l x (list_elem_of_lookup_2 _ _ _ Hi)). unfold cov in *. lia.
  - specialize (IH i j Hi Hj ltac:(congruence)). pose proof (cov1_bounds d x). unfold cov in *. lia.
Qed.
Lemma cov_two l b c x : b ∈ l -> c ∈ l -> b <> c -> cov1 b x + cov1 c x <= cov l x.
Proof.
  intros [i Hi]%list_elem_of_lookup_1 [j Hj]%list_elem_of_lookup_1 Hne.
  apply (cov_two_at l i j); [done|done|]. intros ->. congruence.
Qed.
Lemma cov1_join a n m x : 0 <= n -> 0 <= m -> cov1 (a, n + m) x = cov1 (a, n) x + cov1 (a + HDR * n, m) x.
Proof.
  intros Hn Hm. unfold cov1, bend, HDR. cbn [fst snd].
  repeat match goal with |- context [?u <=? ?v] => destruct (Z.leb_spec u v) | |- context [?u <? ?v] => destruct (Z.ltb_spec u v) end;
  cbn; lia.
Qed.

Lemma lastp_app p F1 F2 : lastp p (F1 ++ F2) = lastp (lastp p F1) F2.
Proof. unfold lastp. rewrite fmap_app, last_app. by destruct (last F2.*1), (last F1.*1). Qed.
Lemma lastp_cons p b F : lastp p (b :: F) = lastp b.1 F.
Proof. apply (lastp_app p [b] F). Qed.
Lemma lastp_elem p F : lastp p F = p \/ exists n, (lastp p F, n) ∈ F.
Proof.
  destruct F as [|b F _] using rev_ind; [by left|]. right. rewrite lastp_app. exists b.2. rewrite elem_of_app.
  right. destruct b. cbn. by left.
Qed.
Lemma seg_app h p F1 F2 : seg h p (F1 ++ F2) <-> seg h p F1 /\ seg h (lastp p F1) F2.
Proof.
  revert p. induction F1 as [|b F1 IH]; intros p; cbn [seg app]; [tauto|]. rewrite IH, lastp_cons. tauto.
Qed.
Lemma ring_app h p F1 F2 q : ring h p (F1 ++ F2) q <-> seg h p F1 /\ ring h (lastp p F1) F2 q.
Proof.
  revert p. induction F1 as [|b F1 IH]; intros p; cbn [seg ring app]; [tauto|]. rewrite IH, lastp_cons. tauto.
Qed.
Lemma ring_next h p F b F' q : ring h p (F ++ b :: F') q -> hptr h (lastp p F) = b.1.
Proof. intros (_ & H & _)%ring_app. exact H. Qed.
Lemma ring_size h p F b q : ring h p F q -> b ∈ F -> hsize h b.1 = b.2.
Proof.
  intros Hr (F1 & F2 & ->)%list_elem_of_split. apply ring_app in Hr as (_ & _ & H & _). exact H.
Qed.

(** The blocks behind [p] are behind [p'] in a heap that has the same headers there. *)
Lemma ring_move h h' p p' F q :
  hptr h' p' = hptr h p -> (forall x, x ∈ F.*1 -> hptr h' x = hptr h x /\ hsize h' x = hsize h x) ->
  ring h p F q -> ring h' p' F q.
Proof.
  revert p p'. induction F as [|b F IH]; intros p p' Hp HF; [by cbn; intros <-|].
  destruct (HF b.1 ltac:(left)) as [Hb1 Hb2]. intros (H1 & H2 & H3). split_and!; [congruence|congruence|].
  apply (IH b.1 b.1); [done| |done]. intros x Hx. apply HF. by right.
Qed.

(** A segment depends only on the headers in it. *)
Lemma seg_frame h h' p F :
  (forall x, x ∈ p :: F.*1 -> x <> lastp p F -> hptr h' x = hptr h x) ->
  (forall x, x ∈ F.*1 -> hsize h' x = hsize h x) -> NoDup (p :: F.*1) -> seg h p F -> seg h' p F.
Proof.
  revert p. induction F as [|b F IH]; intros p Hp Hz Hnd Hs; [done|]. destruct Hs as (H1 & H2 & H3).
  rewrite lastp_cons in Hp. apply NoDup_cons in Hnd as [Hni Hnd].
  split; [|split; [rewrite Hz; [done|left]|]].
  - rewrite Hp; [done|left|]. intros ->. apply Hni. destruct (lastp_elem b.1 F) as [->|[n Hn]]; [left|].
    right. apply list_elem_of_fmap. by exists (lastp b.1 F, n).
  - apply IH; [intros x Hx; apply Hp; by right|intros x Hx; apply Hz; by right|done|done].
Qed.

Lemma sorted_app lo F1 F2 hi :
  sorted lo (F1 ++ F2) hi <-> sorted lo F1 hi /\ sorted (foldl (fun _ b => bend b + 1) lo F1) F2 hi.
Proof. revert lo. induction F1 as [|b F1 IH]; intros lo; cbn; [tauto|]. rewrite IH. tauto. Qed.
Lemma sorted_mono lo lo' F hi hi' : lo' <= lo -> hi <= hi' -> sorted lo F hi -> sorted lo' F hi'.
Proof.
  revert lo lo'. induction F as [|b F IH]; intros lo lo' Hl Hh; [done|]. cbn. intros (? & ? & ? & Hs).
  split_and!; [lia|lia|lia|]. by apply (IH (bend b + 1)); [lia|lia|].
Qed.
Lemma sorted_prefix lo F1 F2 hi : sorted lo (F1 ++ F2) hi -> sorted lo F1 hi.
Proof. by intros [? _]%sorted_app. Qed.
Lemma sorted_in lo F hi b : sorted lo F hi -> b ∈ F -> lo <= b.1 /\ 1 <= b.2 /\ bend b <= hi.
Proof.
  revert lo. induction F as [|c F IH]; intros lo Hs Hb; [by apply elem_of_nil in Hb|].
  destruct Hs as (H1 & H2 & H3 & Hs). apply elem_of_cons in Hb as [->|Hb]; [done|].
  destruct (IH _ Hs Hb) as (? & ? & ?). unfold bend, HDR in *. lia.
Qed.
Lemma sorted_lt lo F1 b F2 hi c : sorted lo (F1 ++ b :: F2) hi ->
  (c ∈ F1 -> bend c < b.1) /\ (c ∈ F2 -> bend b < c.1).
Proof.
  intros Hs. split; intros Hc.
  - apply list_elem_of_split in Hc as (l1 & l2 & ->). rewrite <- app_assoc in Hs. apply sorted_app in Hs as [_ Hs].
    cbn in Hs. destruct Hs as (_ & _ & _ & Hs). destruct (sorted_in _ _ _ b Hs) as (? & ? & ?); [|lia].
    apply elem_of_app. right. left.
  - apply sorted_app in Hs as [_ Hs]. cbn in Hs. destruct Hs as (_ & _ & _ & Hs).
    pose proof (sorted_in _ _ _ c Hs Hc). lia.
Qed.
Lemma sorted_NoDup lo F hi base : base < lo -> sorted lo F hi -> NoDup (base :: F.*1).
Proof.
  revert lo base. induction F as [|b F IH]; intros lo base Hb Hs; [apply NoDup_singleton|].
  constructor; [|destruct Hs as (_ & H2 & _ & Hs); apply (IH (bend b + 1)); [unfold bend, HDR; lia|done]].
  intros Hin. apply list_elem_of_fmap in Hin as (c & -> & Hc). pose proof (sorted_in _ _ _ _ Hs Hc). lia.
Qed.

(** ** The free list *)

Record flist (base lo hi : Z) (h : heap) (F : list blk) : Prop := mkflist {
  fl_ring : ring h base F base;
  fl_base : hsize h base = 0;
  fl_sorted : sorted lo F hi;
  fl_freep : freep h ∈ base :: F.*1;
  fl_lo : 0 < base < lo;
  fl_hi : hi < 2 ^ 31
}.

Lemma flist_end base lo hi h F : flist base lo hi h F -> hptr h (lastp base F) = base.
Proof. intros Hf. pose proof (fl_ring _ _ _ _ _ Hf) as Hr. rewrite <- (app_nil_r F) in Hr at 1. by apply ring_app in Hr as [_ Hr]. Qed.

Lemma lastp_lt base lo G b F hi : base < lo -> sorted lo (G ++ b :: F) hi -> lastp base G < b.1.
Proof.
  intros Hb Hs. destruct (lastp_elem base G) as [->|[n Hn]].
  - destruct (sorted_in _ _ _ b Hs) as (? & _); [apply elem_of_app; right; left|lia].
  - pose proof (sorted_lt _ _ _ _ _ (lastp base G, n) Hs) as [H1 _]. specialize (H1 Hn).
    destruct (sorted_in _ _ _ _ Hs (proj2 (elem_of_app _ _ _) (or_introl Hn))) as (_ & H2 & _).
    unfold bend, HDR in H1. cbn in *. lia.
Qed.

(** The end of a part of the list, compared with a block behind or before it. *)
Lemma lastp_before base lo G H b T hi : base < lo -> sorted lo (G ++ H ++ b :: T) hi -> lastp base G < b.1.
Proof.
  intros Hb Hs. destruct (lastp_elem base G) as [->|[n Hn]].
  - destruct (sorted_in _ _ _ b Hs) as (? & _); [rewrite !elem_of_app; right; right; left|lia].
  - rewrite app_assoc in Hs. pose proof (proj1 (sorted_lt _ _ _ _ _ (lastp base G, n) Hs)) as H1.
    specialize (H1 (proj2 (elem_of_app _ _ _) (or_introl Hn))). rewrite <- app_assoc in Hs.
    destruct (sorted_in _ _ _ _ Hs (proj2 (elem_of_app _ _ _) (or_introl Hn))) as (_ & H2 & _).
    unfold bend, HDR in H1. cbn [fst snd] in *. lia.
Qed.
Lemma lastp_after base lo G b T hi : T <> [] -> sorted lo (G ++ b :: T) hi -> b.1 < lastp base T.
Proof.
  intros HT Hs. destruct T as [|[c n] T _] using rev_ind; [done|]. rewrite lastp_app. cbn.
  pose proof (proj2 (sorted_lt _ _ _ _ _ (c, n) Hs)) as H1. specialize (H1 ltac:(apply elem_of_app; right; left)).
  destruct (sorted_in _ _ _ b Hs) as (_ & H2 & _); [apply elem_of_app; right; left|].
  unfold bend, HDR in H1. cbn [fst snd] in *. lia.
Qed.
Lemma lastp_snoc p F b : lastp p (F ++ [b]) = b.1.
Proof. by rewrite lastp_app. Qed.

Lemma lastp_bound base F x : base < x -> (forall c, c ∈ F -> c.1 < x) -> lastp base F < x.
Proof. intros Hb HF. destruct (lastp_elem base F) as [->|[n Hn]]; [done|]. apply (HF _ Hn). Qed.

(** The search of [free] from a block before the place of [bp] ... *)
Lemma free_find_up k h bp base lo hi G G2 F2 :
  flist base lo hi h ((G ++ G2) ++ F2) -> base < bp ->
  (forall c, c ∈ G ++ G2 -> c.1 < bp) -> (forall c, c ∈ F2 -> bp < c.1) -> (length G2 < k)%nat ->
  free_find k h bp (lastp base G) = Some (lastp base (G ++ G2)).
Proof.
  intros Hf Hb H1 H2. revert k G Hf H1. induction G2 as [|x G2 IH]; intros [|k] G Hf H1 Hk; cbn in Hk; try lia.
  - rewrite app_nil_r in *. cbn [free_find].
    assert (Hp : lastp base G < bp) by (by apply lastp_bound). rewrite (proj2 (Z.ltb_lt _ bp)) by done. cbn [andb orb].
    destruct F2 as [|y F2].
    + rewrite app_nil_r in Hf. rewrite (flist_end _ _ _ _ _ Hf), (proj2 (Z.ltb_ge bp base)) by lia. cbn [orb].
      rewrite (proj2 (Z.leb_le _ _)); [done|]. destruct (lastp_elem base G) as [->|[n Hn]]; [done|].
      pose proof (sorted_in _ _ _ _ (fl_sorted _ _ _ _ _ Hf) Hn). pose proof (fl_lo _ _ _ _ _ Hf). cbn in *. lia.
    + rewrite (ring_next _ _ _ _ _ _ (fl_ring _ _ _ _ _ Hf)), (proj2 (Z.ltb_lt bp y.1)); [done|]. apply H2. left.
  - cbn [free_find]. pose proof (fl_ring _ _ _ _ _ Hf) as Hs. rewrite <- app_assoc in Hs. cbn in Hs.
    rewrite (ring_next _ _ _ _ _ _ Hs). assert (Hx : x.1 < bp) by (apply H1, elem_of_app; right; left).
    rewrite (proj2 (Z.ltb_ge bp x.1)), andb_false_r by lia.
    pose proof (fl_sorted _ _ _ _ _ Hf) as Hso. rewrite <- app_assoc in Hso. cbn in Hso.
    pose proof (lastp_lt base _ _ _ _ _ ltac:(apply (fl_lo _ _ _ _ _ Hf)) Hso).
    rewrite (proj2 (Z.leb_gt _ _)) by lia. cbn [andb].
    change (x :: G2) with ([x] ++ G2) in *. rewrite app_assoc in *.
    rewrite <- (IH k (G ++ [x])); [by rewrite lastp_app|done|done|lia].
Qed.

(** ... and from one behind it. *)
Lemma free_find_around k h bp base lo hi F1 G G2 :
  flist base lo hi h (F1 ++ G ++ G2) -> base < bp ->
  (forall c, c ∈ F1 -> c.1 < bp) -> (forall c, c ∈ G ++ G2 -> bp < c.1) -> G <> [] ->
  (length G2 + 1 + length F1 < k)%nat ->
  free_find k h bp (lastp base (F1 ++ G)) = Some (lastp base F1).
Proof.
  intros Hf Hb H1 H2 HG. revert k G HG Hf H2. induction G2 as [|x G2 IH]; intros [|k] G HG Hf H2 Hk; cbn in Hk; try lia.
  all: cbn [free_find]; assert (Hp : bp < lastp base (F1 ++ G)) by
    (rewrite lastp_app; destruct G as [|g G _] using rev_ind; [done|];
     rewrite lastp_app; destruct g as [g n]; cbn; apply (H2 (g, n)); rewrite !elem_of_app; left; right; left).
  all: rewrite (proj2 (Z.ltb_ge _ bp)) by lia; cbn [andb orb].
  - rewrite app_nil_r in *. rewrite (flist_end _ _ _ _ _ Hf). rewrite (proj2 (Z.ltb_ge bp base)), andb_false_r by lia.
    apply (free_find_up k h bp base lo hi [] F1 G Hf Hb); [done|done|lia].
  - pose proof (fl_ring _ _ _ _ _ Hf) as Hs. rewrite app_assoc in Hs. rewrite (ring_next _ _ _ _ _ _ Hs).
    pose proof (fl_sorted _ _ _ _ _ Hf) as Hso. rewrite app_assoc in Hso.
    pose proof (lastp_lt base _ _ _ _ _ ltac:(apply (fl_lo _ _ _ _ _ Hf)) Hso).
    rewrite (proj2 (Z.leb_gt _ _)) by lia. cbn [andb].
    change (x :: G2) with ([x] ++ G2) in *. rewrite (app_assoc G) in *.
    rewrite <- (IH k (G ++ [x])); [by rewrite app_assoc, lastp_app|by destruct G|done|done|lia].
Qed.

Lemma free_find_run k h bp base lo hi F1 F2 :
  flist base lo hi h (F1 ++ F2) -> base < bp ->
  (forall c, c ∈ F1 -> c.1 < bp) -> (forall c, c ∈ F2 -> bp < c.1) -> (length (F1 ++ F2) + 1 < k)%nat ->
  free_find k h bp (freep h) = Some (lastp base F1).
Proof.
  intros Hf Hb H1 H2 Hk. rewrite length_app in Hk.
  assert (Hp : exists G G', F1 ++ F2 = G ++ G' /\ freep h = lastp base G).
  { pose proof (fl_freep _ _ _ _ _ Hf) as [->|Hin]%elem_of_cons; [by exists [], (F1 ++ F2)|].
    apply list_elem_of_fmap in Hin as (c & -> & (l1 & l2 & ->)%list_elem_of_split).
    exists (l1 ++ [c]), l2. rewrite <- app_assoc. split; [done|]. by rewrite lastp_app. }
  destruct Hp as (G & G' & Heq & ->). destruct (decide (length G <= length F1)%nat) as [Hl|Hl].
  - assert (exists G2, F1 = G ++ G2) as [G2 ->].
    { exists (drop (length G) F1). rewrite <- (take_drop (length G) F1) at 1. f_equal.
      apply (f_equal (take (length G))) in Heq. rewrite take_app_le, take_app_length in Heq by done. done. }
    apply (free_find_up k h bp base lo hi G G2 F2); try done. rewrite length_app in Hk. lia.
  - assert (exists G1, G = F1 ++ G1 /\ F2 = G1 ++ G') as (G1 & -> & ->).
    { exists (drop (length F1) G). split.
      - rewrite <- (take_drop (length F1) G) at 1. f_equal.
        apply (f_equal (take (length F1))) in Heq. rewrite take_app_length, take_app_le in Heq by lia. done.
      - apply (f_equal (drop (length F1))) in Heq. rewrite drop_app_length, drop_app_le in Heq by lia. done. }
    apply (free_find_around k h bp base lo hi F1 G1 G'); try done.
    + intros ->. rewrite app_nil_r in Hl. lia.
    + rewrite !length_app in Hk, Hl. lia.
Qed.

(** ** [free] *)

Lemma hptr_put_ptr h p v x : hptr (put_ptr p v h) x = if decide (x = p) then v else hptr h x.
Proof. unfold hptr, put_ptr. cbn. case_decide; [subst; by rewrite lookup_insert_eq|by rewrite lookup_insert_ne]. Qed.
Lemma hptr_put_size h p v x : hptr (put_size p v h) x = hptr h x.
Proof. done. Qed.
Lemma hsize_put_ptr h p v x : hsize (put_ptr p v h) x = hsize h x.
Proof. done. Qed.
Lemma hsize_put_size h p v x : 0 <= v < 2 ^ 32 -> hsize (put_size p v h) x = if decide (x = p) then v else hsize h x.
Proof.
  intros Hv. unfold hsize, put_size. cbn. case_decide; [subst|by rewrite lookup_insert_ne].
  rewrite lookup_insert_eq. cbn. unfold u32. by rewrite Z.mod_small.
Qed.

Lemma sorted_glue lo F1 b R hi :
  sorted lo F1 hi -> lo <= b.1 -> (forall c, c ∈ F1 -> bend c < b.1) -> 1 <= b.2 -> bend b <= hi ->
  sorted (bend b + 1) R hi -> sorted lo (F1 ++ b :: R) hi.
Proof.
  revert lo. induction F1 as [|c F1 IH]; intros lo Hs Hl Hc Hn Hb HR; [done|].
  destruct Hs as (? & ? & ? & Hs). cbn. split_and!; [done|done|done|]. apply IH; [done| |intros d Hd; apply Hc; by right|done..].
  specialize (Hc c ltac:(left)). lia.
Qed.

Definition join_right (h : heap) (bp q : Z) : heap :=
  if bp + HDR * hsize h bp =? q then
    let h := put_size bp (hsize h bp + hsize h q) h in put_ptr bp (hptr h q) h
  else put_ptr bp q h.
Definition join_left (h : heap) (p bp : Z) : heap :=
  if p + HDR * hsize h p =? bp then
    let h := put_size p (hsize h p + hsize h bp) h in put_ptr p (hptr h bp) h
  else put_ptr p bp h.

Section FreeList.
Variables base lo hi : Z.

(** The block [(a, n)] joined with the block behind it. *)
Lemma join_right_run h p F2 a n :
  ring h p F2 base -> sorted (bend (a, n)) F2 hi -> hsize h a = n -> 1 <= n -> base < a -> p <> a ->
  bend (a, n) <= hi -> 0 < base -> hi < 2 ^ 31 ->
  let h' := join_right h a (hptr h p) in
  exists N R, hsize h' a = N /\ n <= N /\ bend (a, N) <= hi /\ sorted (bend (a, N) + 1) R hi /\
    ring h' a R base /\ (length R <= length F2)%nat /\
    (forall x, cov1 (a, N) x + cov R x = cov1 (a, n) x + cov F2 x) /\
    (forall x, x <> a -> hptr h' x = hptr h x /\ hsize h' x = hsize h x).
Proof.
  intros Hr Hso Hn Hn1 Hla Hpa Hbe Hb0 Hhi h'. unfold h', join_right. rewrite Hn.
  change (bend (a, n)) with (a + HDR * n) in *.
  assert (Ha2 : forall b, b ∈ F2 -> b.1 <> a).
  { intros b Hb. destruct (sorted_in _ _ _ _ Hso Hb). unfold HDR in *. lia. }
  destruct (Z.eqb_spec (a + HDR * n) (hptr h p)) as [Hj|Hj].
  - destruct F2 as [|[q m] F2]; [cbn in Hr; unfold HDR in *; lia|].
    destruct Hr as (Hq & Hm & Hr), Hso as (Hq0 & Hm1 & Hq1 & Hso). cbn [fst snd] in *.
    change (bend (q, m)) with (q + HDR * m) in *. rewrite Hq in *. rewrite Hm.
    exists (n + m), F2. rewrite hsize_put_ptr, hsize_put_size, decide_True by (done || unfold HDR in *; lia).
    change (bend (a, n + m)) with (a + HDR * (n + m)). replace (a + HDR * (n + m)) with (q + HDR * m) by (unfold HDR in *; lia).
    split_and!; [done|lia|done|done| |cbn; lia| |].
    + eapply ring_move; [|..|exact Hr]; [by rewrite hptr_put_ptr, decide_True|].
      intros x (b & -> & Hb)%list_elem_of_fmap. assert (b.1 <> a) by (apply Ha2; by right).
      rewrite hptr_put_ptr, hsize_put_ptr, hsize_put_size, !decide_False by (done || unfold HDR in *; lia). done.
    + intros x. rewrite cov1_join, Hj by lia. cbn. unfold cov. lia.
    + intros x Hx. rewrite hptr_put_ptr, hsize_put_ptr, hsize_put_size, !decide_False by (done || unfold HDR in *; lia). done.
  - exists n, F2. rewrite hsize_put_ptr. change (bend (a, n)) with (a + HDR * n). split_and!; try done; try lia.
    + destruct F2 as [|[q m] F2]; [done|]. destruct Hr as (Hq & _), Hso as (H1 & H2 & H3 & H4). cbn [fst snd] in *.
      split_and!; [cbn [fst]; lia|done|done|done].
    + eapply ring_move; [|..|exact Hr]; [by rewrite hptr_put_ptr, decide_True|].
      intros x (b & -> & Hb)%list_elem_of_fmap. rewrite hptr_put_ptr, decide_False; [done|]. by apply Ha2.
    + intros x Hx. by rewrite hptr_put_ptr, decide_False.
Qed.

(** What [free] makes of the list around the block [(a, N)]. *)
Definition joined (h h' : heap) (F1 R : list blk) (a N p : Z) : Prop :=
  exists F', ring h' base F' base /\ sorted lo F' hi /\ hsize h' base = 0 /\ p ∈ base :: F'.*1 /\
    (exists b, b ∈ F' /\ N <= b.2) /\ (length F' <= S (length F1 + length R))%nat /\
    (forall x, cov F' x = cov F1 x + cov1 (a, N) x + cov R x) /\
    (forall x, x ∉ F1.*1 -> hsize h' x = hsize h x).

Lemma lastp_in F : lastp base F ∈ base :: F.*1.
Proof. destruct (lastp_elem base F) as [->|[m Hm]]; [left|right]. apply list_elem_of_fmap. by exists (lastp base F, m). Qed.

Context (Hbase : 0 < base < lo) (Hhi : hi < 2 ^ 31).

(** The block before ends where [(a, N)] starts. *)
Lemma join_left_merge h F1 R a N p s :
  seg h base (F1 ++ [(p, s)]) -> sorted lo (F1 ++ [(p, s)]) a -> hsize h base = 0 ->
  1 <= N -> bend (a, N) <= hi -> sorted (bend (a, N) + 1) R hi -> ring h a R base -> p + HDR * s = a ->
  joined h (put_ptr p (hptr h a) (put_size p (s + N) h)) (F1 ++ [(p, s)]) R a N p.
Proof.
  intros Hs Hso Hb0 HN1 Hbe HsoR Hr Hj. set (h' := put_ptr _ _ _).
  pose proof (sorted_NoDup lo _ _ base ltac:(lia) Hso) as Hnd.
  destruct (sorted_in _ _ _ (p, s) Hso) as (Hp1 & Hs1 & _); [apply elem_of_app; right; left|].
  apply seg_app in Hs as (Hsg & Hp0 & Hps & _). destruct (proj1 (sorted_app _ _ _ _) Hso) as [Hso1 _].
  rewrite fmap_app in Hnd. apply (NoDup_app (base :: F1.*1)) in Hnd as (Hnd & Hdj & _).
  assert (Hne : forall x, x ∈ base :: F1.*1 -> x <> p) by (intros x Hx ->; apply (Hdj p Hx); left).
  unfold bend in *. cbn [fst snd] in *. assert (HN : 0 <= s + N < 2 ^ 32) by (unfold HDR in *; lia).
  assert (Hfr : forall x, x <> p -> hptr h' x = hptr h x /\ hsize h' x = hsize h x).
  { intros x Hx. unfold h'. rewrite hptr_put_ptr, hsize_put_ptr, hsize_put_size, !decide_False by done. done. }
  exists (F1 ++ (p, s + N) :: R). split_and!.
  - apply ring_app. split; [|split; [|split]]; cbn [fst snd].
    + eapply seg_frame; [| |exact Hnd|exact Hsg]; [intros x Hx _|intros x Hx]; apply Hfr, Hne; [done|by right].
    + rewrite (proj1 (Hfr _ (Hne _ (lastp_in F1)))). done.
    + unfold h'. by rewrite hsize_put_ptr, hsize_put_size, decide_True.
    + eapply ring_move; [|..|exact Hr]; [unfold h'; by rewrite hptr_put_ptr, decide_True|].
      intros x (b & -> & Hin)%list_elem_of_fmap. destruct (sorted_in _ _ _ _ HsoR Hin). apply Hfr. unfold HDR in *. lia.
  - apply sorted_glue; [eapply sorted_mono; [| |exact Hso1]; unfold HDR in *; lia|done| | | |]; unfold bend; cbn [fst snd].
    + intros c Hc. apply (sorted_lt _ _ _ _ _ c Hso). done.
    + lia.
    + unfold HDR in *; lia.
    + replace (p + HDR * (s + N)) with (a + HDR * N) by (unfold HDR in *; lia). done.
  - rewrite (proj2 (Hfr _ (Hne base ltac:(left)))). done.
  - right. rewrite fmap_app. apply elem_of_app. right. left.
  - exists (p, s + N). split; [apply elem_of_app; right; left|]. cbn. lia.
  - rewrite !length_app. cbn. lia.
  - intros x. rewrite !cov_app. cbn. rewrite cov1_join, Hj by lia. unfold cov. lia.
  - intros x Hx. apply Hfr. intros ->. apply Hx. rewrite fmap_app. apply elem_of_app. right. left.
Qed.

(** It ends before. *)
Lemma join_left_link h F1 R a N :
  seg h base F1 -> sorted lo F1 a -> hsize h base = 0 -> lo <= a -> hsize h a = N ->
  1 <= N -> bend (a, N) <= hi -> sorted (bend (a, N) + 1) R hi -> ring h a R base ->
  (forall c, c ∈ F1 -> bend c < a) -> joined h (put_ptr (lastp base F1) a h) F1 R a N (lastp base F1).
Proof.
  intros Hs Hso Hb0 Hla HN HN1 Hbe HsoR Hr Hlt. set (h' := put_ptr _ _ _).
  pose proof (sorted_NoDup lo _ _ base ltac:(lia) Hso) as Hnd.
  assert (Hpa : lastp base F1 < a).
  { apply lastp_bound; [lia|]. intros c Hc. destruct (sorted_in _ _ _ _ Hso Hc) as (_ & ? & ?). unfold bend, HDR in *. lia. }
  assert (Hfr : forall x, x <> lastp base F1 -> hptr h' x = hptr h x).
  { intros x Hx. unfold h'. by rewrite hptr_put_ptr, decide_False. }
  exists (F1 ++ (a, N) :: R). split_and!.
  - apply ring_app. split; [|split; [|split]]; cbn [fst snd].
    + eapply seg_frame; [| |exact Hnd|exact Hs]; [|done]. intros x _ Hx. by apply Hfr.
    + unfold h'. by rewrite hptr_put_ptr, decide_True.
    + done.
    + eapply ring_move; [|..|exact Hr]; [apply Hfr; lia|].
      intros x (b & -> & Hin)%list_elem_of_fmap. destruct (sorted_in _ _ _ _ HsoR Hin). split; [|done]. apply Hfr.
      unfold bend, HDR in *. cbn [fst snd] in *. lia.
  - apply sorted_glue; [eapply sorted_mono; [| |exact Hso]; unfold bend, HDR in *; cbn [fst snd] in *; lia|done..].
  - done.
  - pose proof (lastp_in F1) as [->|Hin]%elem_of_cons; [left|right]. rewrite fmap_app. apply elem_of_app. by left.
  - exists (a, N). split; [apply elem_of_app; right; left|]. done.
  - rewrite length_app. cbn. lia.
  - intros x. rewrite cov_app. cbn. unfold cov. lia.
  - done.
Qed.

Lemma join_left_run h F1 R a N :
  seg h base F1 -> sorted lo F1 a -> hsize h base = 0 -> lo <= a ->
  hsize h a = N -> 1 <= N -> bend (a, N) <= hi -> sorted (bend (a, N) + 1) R hi -> ring h a R base ->
  joined h (join_left h (lastp base F1) a) F1 R a N (lastp base F1).
Proof.
  intros Hs Hso Hb0 Hla HN HN1 Hbe HsoR Hr. unfold join_left. rewrite HN.
  destruct F1 as [|[p s] F1 _] using rev_ind.
  { change (lastp base []) with base. rewrite Hb0, (proj2 (Z.eqb_neq _ _)) by lia.
    apply (join_left_link h []); try done. intros c Hc. by apply elem_of_nil in Hc. }
  assert (Hp : lastp base (F1 ++ [(p, s)]) = p) by (by rewrite lastp_app). rewrite !Hp.
  assert (Hps : hsize h p = s) by (apply seg_app in Hs as (_ & _ & ? & _); done). rewrite Hps.
  destruct (Z.eqb_spec (p + HDR * s) a) as [Hj|Hj]; [cbv zeta; rewrite hptr_put_size; by apply join_left_merge|].
  pose proof (join_left_link h (F1 ++ [(p, s)]) R a N) as Hlink. rewrite Hp in Hlink. apply Hlink; try done.
  intros c [Hc| ->%list_elem_of_singleton]%elem_of_app.
  - pose proof (proj1 (sorted_lt _ _ _ _ _ c Hso) Hc). destruct (sorted_in _ _ _ (p, s) Hso) as (_ & ? & ?);
      [apply elem_of_app; right; left|]. unfold bend, HDR in *. cbn [fst snd] in *. lia.
  - destruct (sorted_in _ _ _ (p, s) Hso) as (_ & _ & ?); [apply elem_of_app; right; left|].
    unfold bend in *. cbn [fst snd] in *. lia.
Qed.

Lemma sorted_cut F a : sorted lo F hi -> (forall c, c ∈ F -> bend c <= a) -> sorted lo F a.
Proof.
  clear Hbase. generalize lo. induction F as [|b F IH]; intros l Hs Hb; [done|]. destruct Hs as (? & ? & ? & Hs).
  split_and!; [done|done|apply Hb; left|]. apply IH; [done|]. intros c Hc. apply Hb. by right.
Qed.

(** Of a block apart from those of the list, the others are before or behind it. *)
Lemma sorted_split F a n :
  sorted lo F hi -> 1 <= n -> (forall x, cov F x + cov1 (a, n) x <= 1) ->
  exists F1 F2, F = F1 ++ F2 /\ (forall c, c ∈ F1 -> bend c <= a) /\ sorted (bend (a, n)) F2 hi.
Proof.
  clear Hbase Hhi. generalize lo. induction F as [|b F IH]; intros l Hs Hn Hc.
  { exists [], []. split_and!; [done| |done]. intros c Hin. by apply elem_of_nil in Hin. }
  destruct Hs as (H1 & H2 & H3 & Hs). destruct (decide (bend b <= a)) as [Hle|Hgt].
  - destruct (IH _ Hs Hn) as (F1 & F2 & -> & HF1 & HF2).
    { intros x. specialize (Hc x). cbn in Hc. pose proof (cov1_bounds b x). unfold cov in *. lia. }
    exists (b :: F1), F2. split_and!; [done| |done]. intros c [->|Hin]%elem_of_cons; [done|by apply HF1].
  - exists [], (b :: F). split_and!; [done|intros c Hin; by apply elem_of_nil in Hin|].
    cbn [sorted]. split_and!; [|done|done|done].
    destruct (decide (bend (a, n) <= b.1)) as [|Hov]; [done|exfalso]. unfold bend in Hov, Hgt. cbn [fst snd] in Hov.
    specialize (Hc (Z.max a b.1)). cbn in Hc. pose proof (cov_nonneg F (Z.max a b.1)).
    rewrite (cov1_in b), (cov1_in (a, n)) in Hc by (unfold bend, HDR in *; cbn [fst snd] in *; lia). unfold cov in *. lia.
Qed.

(** [free] of a block apart from the free ones joins it to them. *)
Lemma free_run k h F a n :
  flist base lo hi h F -> hsize h a = n -> 1 <= n -> lo <= a -> bend (a, n) <= hi ->
  (forall x, cov F x + cov1 (a, n) x <= 1) -> (length F + 1 < k)%nat ->
  exists h' F', free k (a + HDR) h = Some h' /\ flist base lo hi h' F' /\
    (exists b, b ∈ F' /\ n <= b.2) /\ (length F' <= S (length F))%nat /\
    (forall x, cov F' x = cov F x + cov1 (a, n) x) /\
    (forall x, x <> a -> x ∉ F.*1 -> hsize h' x = hsize h x).
Proof.
  intros Hf Hn Hn1 Hla Hbe Hc Hk. pose proof Hf as [Hr Hb0 Hso Hfp Hlo Hhi'].
  destruct (sorted_split F a n Hso Hn1 Hc) as (F1 & F2 & -> & HF1 & HF2).
  apply ring_app in Hr as [Hs1 Hr2]. destruct (proj1 (sorted_app _ _ _ _) Hso) as [Hso1 _].
  pose proof (sorted_cut F1 a Hso1 HF1) as Hcut.
  assert (Hlt1 : forall c, c ∈ F1 -> c.1 < a).
  { intros c Hin. destruct (sorted_in _ _ _ _ Hcut Hin) as (_ & ? & ?). unfold bend, HDR in *. lia. }
  unfold free. replace (a + HDR - HDR) with a by lia.
  rewrite (free_find_run k h a base lo hi F1 F2 Hf); [|lia|done| |done].
  2: { intros c Hin. destruct (sorted_in _ _ _ _ HF2 Hin). unfold bend, HDR in *. cbn [fst snd] in *. lia. }
  cbn [mbind option_bind]. fold (join_right h a (hptr h (lastp base F1))).
  destruct (join_right_run h (lastp base F1) F2 a n Hr2 HF2 Hn Hn1) as (N & R & HN & HnN & HbN & HsoR & HrR & HlR & HcR & Hfr);
    [lia|pose proof (lastp_bound base F1 a ltac:(lia) Hlt1); lia|done|lia|done|].
  set (h1 := join_right _ _ _) in *. fold (join_left h1 (lastp base F1) a).
  destruct (join_left_run h1 F1 R a N) as (F' & Hr' & Hso' & Hb0' & Hp' & Hbig & Hl' & Hc' & Hsz'); try done; [|..].
  - eapply seg_frame; [| |by apply (sorted_NoDup lo _ a); [lia|]|exact Hs1].
    + intros x Hx _. apply Hfr. apply elem_of_cons in Hx as [->|(c & -> & Hin)%list_elem_of_fmap]; [lia|]. specialize (Hlt1 c Hin). lia.
    + intros x (c & -> & Hin)%list_elem_of_fmap. apply Hfr. specialize (Hlt1 c Hin). lia.
  - rewrite (proj2 (Hfr base ltac:(lia))). done.
  - lia.
  - eexists _, F'. split; [reflexivity|]. split_and!.
    + constructor; [by eapply ring_move; [..|exact Hr']|exact Hb0'|exact Hso'|exact Hp'|lia|done].
    + destruct Hbig as (b & Hb & ?). exists b. split; [done|lia].
    + rewrite length_app. lia.
    + intros x. rewrite Hc', cov_app. specialize (HcR x). lia.
    + intros x Hx Hni. change (hsize (join_left h1 (lastp base F1) a) x = hsize h x). rewrite Hsz'; [by apply Hfr|].
      intros Hin. apply Hni. rewrite fmap_app. apply elem_of_app. by left.
Qed.

End FreeList.

(** ** [malloc] *)

Section Walk.
Context {Sys : UserOS}.
Variables base lo hi nunits : Z.

(** The end of a round in vain. *)
Definition grow (k : nat) (h : heap) : U (Z * heap) :=
  '(p, h) ← morecore k nunits h;
  if p =? 0 then mret (0, h) else malloc_loop k h nunits p (hptr h p).

(** The loop started behind [prevp] takes a block that is large enough, or finds
    none among [l] and asks for more memory, with [k'] rounds left. *)
Definition walked (k k' : nat) (h : heap) (F l : list blk) (prevp : Z) (w : world) : Prop :=
  (exists F1 p m F2, F = F1 ++ (p, m) :: F2 /\ nunits <= m /\
     malloc_loop k h nunits prevp (hptr h prevp) w = UOk (malloc_take h nunits (lastp base F1) p) w) \/
  (Forall (fun b : blk => b.2 < nunits) l /\ malloc_loop k h nunits prevp (hptr h prevp) w = grow k' h w).

Lemma walked_cons k k' h F l b F1 F2 w :
  F = F1 ++ b :: F2 -> flist base lo hi h F -> (b.1 = freep h -> l = [] /\ k = k') ->
  (b.1 <> freep h -> walked k k' h F l b.1 w) -> walked (S k) k' h F (b :: l) (lastp base F1) w.
Proof.
  intros -> Hf He Hn. unfold walked. cbn [malloc_loop]. pose proof (fl_ring _ _ _ _ _ Hf) as Hr.
  rewrite (ring_next _ _ _ _ _ _ Hr), (ring_size _ _ _ b _ Hr) by (apply elem_of_app; right; left).
  destruct (Z.leb_spec nunits b.2) as [Hle|Hgt].
  { left. exists F1, b.1, b.2, F2. split_and!; [by destruct b|done|done]. }
  destruct (Z.eqb_spec b.1 (freep h)) as [E|E].
  - destruct (He E) as [-> ->]. right. split; [|done]. by constructor.
  - destruct (Hn E) as [H|[H1 H2]]; [by left|right]. split; [|done]. by constructor.
Qed.

Hypothesis Hnu : 1 <= nunits.

(** From the start of the list up to [freep]. *)
Lemma walk_front k h H1 H2 G w :
  flist base lo hi h ((H1 ++ H2) ++ G) -> freep h = lastp base (H1 ++ H2) -> H2 <> [] ->
  walked (length H2 + k) k h ((H1 ++ H2) ++ G) H2 (lastp base H1) w.
Proof.
  intros Hf Hfp. revert H1 Hf Hfp. induction H2 as [|b H2 IH]; intros H1 Hf Hfp Hne; [done|].
  cbn [length Nat.add]. eapply (walked_cons _ _ _ _ _ _ H1 (H2 ++ G)); [by rewrite <- app_assoc|done| |].
  - intros E. destruct H2 as [|c H2]; [done|exfalso]. rewrite Hfp, lastp_app, lastp_cons in E.
    pose proof (sorted_prefix _ _ _ _ (fl_sorted _ _ _ _ _ Hf)) as Hso.
    pose proof (lastp_after b.1 lo H1 b (c :: H2) hi ltac:(done) Hso). lia.
  - intros E. assert (Hne' : H2 <> []) by (intros ->; rewrite Hfp, lastp_snoc in E; done).
    specialize (IH (H1 ++ [b])). rewrite lastp_snoc, <- (app_assoc H1 [b] H2) in IH. by apply IH.
Qed.

(** From behind [freep], around the list. *)
Lemma walk_back k h G0 H1 H2 w :
  flist base lo hi h (G0 ++ H1 ++ H2) -> freep h = lastp base G0 ->
  walked (S (length H2 + length G0 + k)) k h (G0 ++ H1 ++ H2) (H2 ++ G0) (lastp base (G0 ++ H1)) w \/
  (G0 = [] /\ walked (S (length H2 + k)) k h (G0 ++ H1 ++ H2) H2 (lastp base (G0 ++ H1)) w).
Proof.
  intros Hf Hfp. revert H1 Hf. induction H2 as [|b H2 IH]; intros H1 Hf.
  - rewrite !app_nil_r in *. cbn [length app Nat.add]. destruct G0 as [|g G0].
    + right. split; [done|]. right. split; [done|]. cbn [malloc_loop]. rewrite (flist_end _ _ _ _ _ Hf), (fl_base _ _ _ _ _ Hf).
      rewrite (proj2 (Z.leb_gt _ _)), Hfp by lia. by rewrite Z.eqb_refl.
    + left. pose proof (walk_front k h [] (g :: G0) H1 w Hf Hfp ltac:(done)) as Hw. cbn [app] in Hw.
      destruct Hw as [(F1 & p & m & F2 & H)|Hw]; [left|right].
      all: cbn [malloc_loop]; rewrite (flist_end _ _ _ _ _ Hf), (fl_base _ _ _ _ _ Hf).
      all: rewrite (proj2 (Z.leb_gt _ _)) by lia.
      all: rewrite (proj2 (Z.eqb_neq base (freep h))); [by eauto 10|].
      all: rewrite Hfp; destruct (lastp_elem g.1 G0) as [E|[m' Hm']]; rewrite lastp_cons.
      all: pose proof (fl_lo _ _ _ _ _ Hf); pose proof (sorted_in _ _ _ g (fl_sorted _ _ _ _ _ Hf) ltac:(left)).
      all: try (pose proof (sorted_in _ _ _ (_, m') (fl_sorted _ _ _ _ _ Hf) ltac:(right; apply elem_of_app; left; exact Hm'))).
      all: cbn [fst snd] in *; lia.
  - assert (Hne : b.1 <> freep h).
    { rewrite Hfp. pose proof (lastp_before base lo G0 H1 b H2 hi ltac:(apply (fl_lo _ _ _ _ _ Hf)) (fl_sorted _ _ _ _ _ Hf)). lia. }
    specialize (IH (H1 ++ [b])). rewrite !(app_assoc G0), lastp_snoc, <- !app_assoc in IH. cbn [app] in IH.
    destruct (IH Hf) as [Hw|[-> Hw]]; [left|right; split; [done|]]; cbn [length Nat.add app].
    all: eapply (walked_cons _ _ _ _ _ _ _ H2); [by rewrite <- ?app_assoc|exact Hf|by intros|intros _; exact Hw].
Qed.

Lemma flist_freep h F : flist base lo hi h F -> exists G G', F = G ++ G' /\ freep h = lastp base G.
Proof.
  intros Hf. pose proof (fl_freep _ _ _ _ _ Hf) as [->|Hin]%elem_of_cons; [by exists [], F|].
  apply list_elem_of_fmap in Hin as (c & -> & (l1 & l2 & ->)%list_elem_of_split).
  exists (l1 ++ [c]), l2. rewrite <- app_assoc. split; [done|]. by rewrite lastp_snoc.
Qed.

(** The loop, from its start. *)
Lemma walk_run k h F w :
  flist base lo hi h F -> exists l, l ≡ₚ F /\ walked (S (length F + k)) k h F l (freep h) w.
Proof.
  intros Hf. destruct (flist_freep h F Hf) as (G & G' & -> & Hfp). rewrite Hfp, length_app.
  destruct (walk_back k h G [] G' w Hf Hfp) as [Hw|[-> Hw]]; rewrite ?app_nil_r in Hw.
  - exists (G' ++ G). split; [by rewrite Permutation_app_comm|]. by rewrite (Nat.add_comm (length G)).
  - exists G'. split; [done|]. exact Hw.
Qed.

(** A block is taken whole ... *)
Lemma take_whole h F1 p F2 :
  flist base lo hi h (F1 ++ (p, nunits) :: F2) ->
  let h' := put_freep (lastp base F1) (put_ptr (lastp base F1) (hptr h p) h) in
  flist base lo hi h' (F1 ++ F2).
Proof.
  intros Hf h'. pose proof Hf as [Hr Hb0 Hso Hfp Hlo Hhi].
  pose proof (sorted_NoDup lo _ _ base ltac:(lia) Hso) as Hnd. rewrite fmap_app in Hnd.
  apply (NoDup_app (base :: F1.*1)) in Hnd as (Hnd1 & Hdj & Hnd2). apply ring_app in Hr as (Hs & Hp & Hm & Hr). cbn [fst snd] in *.
  assert (Hfr : forall x, x <> lastp base F1 -> hptr h' x = hptr h x).
  { intros x Hx. unfold h'. change (hptr (put_ptr (lastp base F1) (hptr h p) h) x = hptr h x). by rewrite hptr_put_ptr, decide_False. }
  constructor; [|done| | |done|done].
  - apply ring_app. split; [eapply seg_frame; [| |exact Hnd1|exact Hs]; [intros x _ Hx; by apply Hfr|done]|].
    eapply ring_move; [|..|exact Hr].
    + change (hptr (put_ptr (lastp base F1) (hptr h p) h) (lastp base F1) = hptr h p). by rewrite hptr_put_ptr, decide_True.
    + intros x Hx. split; [|done]. apply Hfr. intros ->. apply (Hdj (lastp base F1)); [apply lastp_in|by right].
  - apply sorted_app in Hso as [Hso1 Hso2]. apply sorted_app. split; [done|].
    destruct Hso2 as (H1 & H2 & H3 & H4). eapply (sorted_mono _ _ _ hi); [|lia|exact H4]. unfold bend, HDR in *. cbn [fst snd] in *. lia.
  - change (freep h') with (lastp base F1). pose proof (lastp_in base F1) as [->|Hin]%elem_of_cons; [left|right].
    rewrite fmap_app. apply elem_of_app. by left.
Qed.

(** ... or cut at its end. *)
Lemma take_part h F1 p m F2 :
  flist base lo hi h (F1 ++ (p, m) :: F2) -> nunits < m ->
  let a := p + HDR * (m - nunits) in
  let h' := put_freep (lastp base F1) (put_size a nunits (put_size p (m - nunits) h)) in
  flist base lo hi h' (F1 ++ (p, m - nunits) :: F2) /\ hsize h' a = nunits /\
  (forall x, x <> a -> x <> p -> hsize h' x = hsize h x).
Proof.
  intros Hf Hlt a h'. pose proof Hf as [Hr Hb0 Hso Hfp Hlo Hhi].
  destruct (sorted_in _ _ _ (p, m) Hso) as (Hp1 & Hm1 & Hpe); [apply elem_of_app; right; left|].
  pose proof (fun c => sorted_lt _ _ _ _ _ c Hso) as Hord. unfold bend in Hpe, Hord. cbn [fst snd] in *.
  assert (Hsz : forall x, hsize h' x = if decide (x = a) then nunits else if decide (x = p) then m - nunits else hsize h x).
  { intros x. change (hsize h' x) with (hsize (put_size a nunits (put_size p (m - nunits) h)) x).
    rewrite !hsize_put_size by (unfold HDR in *; lia). done. }
  assert (Hpa : p < a < p + HDR * m) by (unfold a, HDR in *; lia).
  assert (Hne : forall c, c ∈ F1 \/ c ∈ F2 -> c.1 <> a /\ c.1 <> p).
  { intros c [Hc|Hc]; [pose proof (proj1 (Hord c) Hc) as Ho|pose proof (proj2 (Hord c) Hc) as Ho].
    - destruct (sorted_in _ _ _ c Hso) as (_ & ? & _); [apply elem_of_app; by left|]. unfold HDR in *. lia.
    - unfold HDR in *. lia. }
  apply ring_app in Hr as (Hs & Hp & Hm & Hr). cbn [fst snd] in *.
  split; [|split; [by rewrite Hsz, decide_True|intros x Hx1 Hx2; by rewrite Hsz, !decide_False]].
  constructor; [| | | |done|done].
  - apply ring_app. split; [|split; [done|split]]; cbn [fst snd].
    + eapply seg_frame; [| |apply (sorted_NoDup lo _ hi); [lia|by eapply sorted_prefix]|exact Hs]; [done|].
      intros x (c & -> & Hc)%list_elem_of_fmap. destruct (Hne c (or_introl Hc)). by rewrite Hsz, !decide_False.
    + rewrite Hsz, decide_False, decide_True by lia. done.
    + eapply ring_move; [|..|exact Hr]; [done|]. intros x (c & -> & Hc)%list_elem_of_fmap. split; [done|].
      destruct (Hne c (or_intror Hc)). by rewrite Hsz, !decide_False.
  - rewrite Hsz, !decide_False by lia. done.
  - apply sorted_app in Hso as [Hso1 (H1 & H2 & H3 & H4)]. apply sorted_app. split; [done|].
    unfold bend in *. cbn [fst snd] in *. split; [exact H1|]. split; [cbn; lia|]. unfold bend. cbn [fst snd].
    split; [unfold HDR in *; lia|]. eapply (sorted_mono _ _ _ hi); [|lia|exact H4]. unfold HDR in *; lia.
  - change (freep h') with (lastp base F1). pose proof (lastp_in base F1) as [->|Hin]%elem_of_cons; [left|right].
    rewrite fmap_app. apply elem_of_app. by left.
Qed.

Lemma malloc_take_run h F1 p m F2 :
  flist base lo hi h (F1 ++ (p, m) :: F2) -> nunits <= m ->
  exists a h' F', malloc_take h nunits (lastp base F1) p = (a + HDR, h') /\ flist base lo hi h' F' /\
    hsize h' a = nunits /\ (forall x, cov (F1 ++ (p, m) :: F2) x = cov F' x + cov1 (a, nunits) x) /\
    (forall x, x <> a -> x ∉ (F1 ++ (p, m) :: F2).*1 -> hsize h' x = hsize h x) /\ lo <= a.
Proof.
  intros Hf Hm. unfold malloc_take.
  assert (Hpm : hsize h p = m) by (apply (ring_size _ _ _ (p, m) _ (fl_ring _ _ _ _ _ Hf)); apply elem_of_app; right; left).
  rewrite Hpm.
  destruct (sorted_in _ _ _ (p, m) (fl_sorted _ _ _ _ _ Hf)) as (Hp & Hm1 & Hpe); [apply elem_of_app; right; left|].
  unfold bend in Hpe. cbn [fst snd] in *. destruct (Z.eqb_spec m nunits) as [->|Hne].
  - eexists p, _, (F1 ++ F2). split; [done|]. split; [by apply take_whole|]. split_and!; [|intros x|done|done].
    + exact Hpm.
    + rewrite !cov_app. cbn. unfold cov. lia.
  - destruct (take_part h F1 p m F2 Hf ltac:(lia)) as (Hf' & Hs & Hx).
    rewrite hsize_put_size, decide_True by (done || pose proof (fl_hi _ _ _ _ _ Hf); pose proof (fl_lo _ _ _ _ _ Hf); unfold HDR in *; lia).
    eexists (p + HDR * (m - nunits)), _, (F1 ++ (p, m - nunits) :: F2). split; [done|]. split; [exact Hf'|].
    split; [exact Hs|]. split_and!; [| |unfold HDR; lia].
    + intros x. rewrite !cov_app. cbn. replace m with (m - nunits + nunits) at 1 by lia.
      rewrite cov1_join by lia. unfold cov. lia.
    + intros x Hx1 Hx2. apply Hx; [done|]. intros ->. apply Hx2. rewrite fmap_app. apply elem_of_app. right. left.
Qed.

End Walk.

(** ** Memory from the system *)

(** [sbrk] fails, or moves the end of the process memory and returns the old end;
    a process is smaller than the 128 megabytes of physical memory. *)
Class SbrkOS `{Sys : UserOS} : Type := {
  brk : world -> Z;
  sys_sbrk_spec n w : 0 < n < 2 ^ 31 -> exists r w', sys_sbrk n w = (r, w') /\
    ((r = -1 /\ brk w' = brk w) \/ (r = brk w /\ brk w' = brk w + n /\ brk w' < 2 ^ 31))
}.
Arguments brk {_ _} w.

Definition ind (lo hi x : Z) : Z := if (lo <=? x) && (x <? hi) then 1 else 0.

Lemma ind_app lo mid hi x : lo <= mid <= hi -> ind lo hi x = ind lo mid x + ind mid hi x.
Proof.
  intros H. unfold ind.
  destruct (Z.leb_spec lo x), (Z.ltb_spec x hi), (Z.ltb_spec x mid), (Z.leb_spec mid x); cbn; lia.
Qed.
Lemma ind_empty lo x : ind lo lo x = 0.
Proof. unfold ind. destruct (Z.leb_spec lo x), (Z.ltb_spec x lo); cbn; lia. Qed.
Lemma ind_bounds lo hi x : 0 <= ind lo hi x <= 1.
Proof. unfold ind. by destruct (_ && _). Qed.

Lemma cov_sorted_out lo F hi x : sorted lo F hi -> hi <= x -> cov F x = 0.
Proof.
  revert lo. induction F as [|b F IH]; intros lo Hs Hx; [done|]. destruct Hs as (H1 & H2 & H3 & Hs). cbn.
  rewrite cov1_out by lia. unfold cov in *. by rewrite (IH _ Hs Hx).
Qed.
Lemma cov_sorted_below F x hi : sorted (x + 1) F hi -> cov F x = 0.
Proof.
  intros Hs. assert (Hlt : forall c, c ∈ F -> x < c.1) by (intros c Hc; destruct (sorted_in _ _ _ _ Hs Hc); lia).
  clear Hs. induction F as [|c F IH]; [done|]. cbn. rewrite cov1_out by (left; apply Hlt; left).
  apply IH. intros d Hd. apply Hlt. by right.
Qed.
Lemma sorted_disjoint lo F hi x : sorted lo F hi -> cov F x <= 1.
Proof.
  revert lo. induction F as [|b F IH]; intros lo Hs; [cbn; lia|]. destruct Hs as (H1 & H2 & H3 & Hs). cbn.
  destruct (decide (x < bend b)) as [Hx|Hx].
  - assert (Hz : cov F x = 0) by (apply (cov_sorted_below _ _ hi); apply (sorted_mono (bend b + 1) _ _ hi); [lia|lia|done]).
    unfold cov in Hz. pose proof (cov1_bounds b x). lia.
  - rewrite cov1_out by lia. specialize (IH _ Hs). unfold cov in IH. lia.
Qed.
Lemma cov_start lo F hi x : sorted lo F hi -> cov F x = 0 -> x ∉ F.*1.
Proof.
  intros Hs Hc (b & -> & Hb)%list_elem_of_fmap. destruct (sorted_in _ _ _ _ Hs Hb) as (_ & ? & _).
  pose proof (cov_elem b F b.1 Hb) as H1. rewrite cov1_in in H1 by (unfold bend, HDR; lia). lia.
Qed.
Lemma flist_mono base lo hi hi' h F : flist base lo hi h F -> hi <= hi' < 2 ^ 31 -> flist base lo hi' h F.
Proof. intros [Hr Hb Hso Hfp Hlo Hhi] H. constructor; try done; [|lia]. eapply (sorted_mono lo lo F hi hi'); [lia|lia|done]. Qed.

Section Alloc.
Context `{SbrkOS}.
Variables base lo : Z.

(** [morecore] fails, or the free list has the new memory and a block that is large enough. *)
Lemma morecore_run k nu h F w :
  flist base lo (brk w) h F -> lo <= brk w -> 1 <= nu -> HDR * nu < 2 ^ 31 -> (length F + 1 < k)%nat ->
  exists r h' w', morecore k nu h w = UOk (r, h') w' /\
    ((r = 0 /\ h' = h /\ brk w' = brk w) \/
     (r = freep h' /\ r <> 0 /\ brk w <= brk w' /\ exists F', flist base lo (brk w') h' F' /\
        (exists b, b ∈ F' /\ nu <= b.2) /\ (length F' <= S (length F))%nat /\
        (forall x, cov F' x = cov F x + ind (brk w) (brk w') x) /\
        (forall x, cov F x = 0 -> x < brk w -> hsize h' x = hsize h x))).
Proof.
  intros Hf Hlo H1 Hmax Hk. unfold morecore. set (n := if nu <? 4096 then 4096 else nu).
  assert (Hn : nu <= n /\ 1 <= n /\ HDR * n < 2 ^ 31) by (unfold n, HDR in *; destruct (Z.ltb_spec nu 4096); lia).
  replace (i32 (n * HDR)) with (HDR * n) by (unfold HDR in *; rewrite i32_id by lia; lia).
  destruct (sys_sbrk_spec (HDR * n) w) as (r & w' & Hs & Hr); [unfold HDR in *; lia|].
  unfold usbrk. rewrite (ubind_ok _ _ w r w') by (unfold ucall; by rewrite Hs).
  destruct Hr as [[-> Hb]|(-> & Hb & Hlim)].
  { eexists _, _, _. split; [done|]. by left. }
  pose proof (fl_lo _ _ _ _ _ Hf) as H0. rewrite (proj2 (Z.eqb_neq _ _)) by lia.
  set (h1 := put_size (brk w) n h).
  assert (Hsz : forall x, hsize h1 x = if decide (x = brk w) then n else hsize h x).
  { intros x. unfold h1. apply hsize_put_size. unfold HDR in *; lia. }
  assert (Hni : brk w ∉ base :: F.*1).
  { intros [?|(b & E & Hin)%list_elem_of_fmap]%elem_of_cons; [lia|].
    destruct (sorted_in _ _ _ _ (fl_sorted _ _ _ _ _ Hf) Hin) as (_ & ? & ?). unfold bend, HDR in *. lia. }
  assert (Hf1 : flist base lo (brk w') h1 F).
  { apply (flist_mono _ _ (brk w)); [|unfold HDR in *; lia]. destruct Hf as [Hr Hb0 Hso Hfp Hlo' Hhi]. constructor; try done.
    - eapply ring_move; [|..|exact Hr]; [done|]. intros x Hx. split; [done|]. rewrite Hsz, decide_False; [done|].
      intros ->. apply Hni. by right.
    - rewrite Hsz, decide_False; [done|]. intros E. apply Hni. rewrite <- E. left. }
  assert (Hc1 : forall x, cov1 (brk w, n) x = ind (brk w) (brk w') x) by (intros x; unfold cov1, ind, bend; cbn [fst snd]; by rewrite Hb).
  destruct (free_run base lo (brk w') H0 Hlim k h1 F (brk w) n Hf1) as (h' & F' & Hfr & Hf' & Hbig & Hl & Hc & Hz).
  - by rewrite Hsz, decide_True.
  - lia.
  - done.
  - unfold bend. cbn [fst snd]. lia.
  - intros x. pose proof (cov1_bounds (brk w, n) x). destruct (decide (brk w <= x)) as [Hx|Hx].
    + rewrite (cov_sorted_out _ _ _ _ (fl_sorted _ _ _ _ _ Hf) Hx). lia.
    + rewrite (cov1_out (brk w, n)) by (cbn; lia). pose proof (sorted_disjoint _ _ _ x (fl_sorted _ _ _ _ _ Hf)). lia.
  - done.
  - rewrite Hfr. eexists _, h', w'. split; [done|]. right. split; [done|]. split.
    { pose proof (fl_freep _ _ _ _ _ Hf') as [E|(b & E & Hin)%list_elem_of_fmap]%elem_of_cons; [lia|].
      destruct (sorted_in _ _ _ _ (fl_sorted _ _ _ _ _ Hf') Hin). lia. }
    split; [unfold HDR in *; lia|]. exists F'. split; [done|]. split; [destruct Hbig as (b & ? & ?); exists b; split; [done|lia]|].
    split; [done|]. split; [intros x; by rewrite Hc, Hc1|]. intros x Hx Hlt. rewrite Hz, Hsz, decide_False by
      (lia || by eapply cov_start; [apply (fl_sorted _ _ _ _ _ Hf)|]). done.
Qed.

(** A block of [nu] units at [a], taken from [F] or from new memory. *)
Definition got (nu : Z) (h h' : heap) (F : list blk) (w w' : world) (a : Z) : Prop :=
  brk w <= brk w' /\ lo <= a /\ hsize h' a = nu /\ exists F', flist base lo (brk w') h' F' /\
    (forall x, cov F' x + cov1 (a, nu) x = cov F x + ind (brk w) (brk w') x) /\
    (forall x, cov F x = 0 -> x < brk w -> hsize h' x = hsize h x).

Lemma take_got nu h F1 p m F2 w :
  1 <= nu -> flist base lo (brk w) h (F1 ++ (p, m) :: F2) -> nu <= m ->
  exists a h', malloc_take h nu (lastp base F1) p = (a + HDR, h') /\ got nu h h' (F1 ++ (p, m) :: F2) w w a.
Proof.
  intros Hnu Hf Hm. destruct (malloc_take_run base lo (brk w) nu Hnu h F1 p m F2 Hf Hm)
    as (a & h' & F' & Ht & Hf' & Hs & Hc & Hz & Hla).
  exists a, h'. split; [done|]. split; [lia|]. split; [done|]. split; [done|]. exists F'. split; [done|]. split.
  - intros x. rewrite ind_empty, Hc. lia.
  - intros x Hx Hlt. apply Hz; [|eapply cov_start; [apply (fl_sorted _ _ _ _ _ Hf)|done]].
    intros ->. pose proof (Hc a) as Ha. pose proof (cov_nonneg F' a).
    rewrite (cov1_in (a, nu)) in Ha by (unfold bend, HDR; cbn [fst snd]; lia). lia.
Qed.

Lemma malloc_loop_run k nu h F w :
  flist base lo (brk w) h F -> lo <= brk w -> 1 <= nu -> HDR * nu < 2 ^ 31 -> (3 * length F + 8 <= k)%nat ->
  exists r h' w', malloc_loop k h nu (freep h) (hptr h (freep h)) w = UOk (r, h') w' /\
    ((r = 0 /\ h' = h /\ brk w' = brk w) \/ exists a, r = a + HDR /\ got nu h h' F w w' a).
Proof.
  intros Hf Hlo Hnu Hmax Hk. destruct (walk_run base lo (brk w) nu Hnu (k - S (length F)) h F w Hf) as (l & Hp & Hw).
  replace (S (length F + (k - S (length F)))) with k in Hw by lia.
  destruct Hw as [(F1 & p & m & F2 & -> & Hm & ->)|[_ ->]].
  { destruct (take_got nu h F1 p m F2 w Hnu Hf Hm) as (a & h' & -> & Hg). eexists _, _, _. split; [done|]. right. by exists a. }
  unfold grow. set (k1 := (k - S (length F))%nat).
  destruct (morecore_run k1 nu h F w Hf Hlo Hnu Hmax) as (r & h1 & w1 & Hmc & Hr); [lia|]. rewrite (ubind_ok _ _ _ _ _ Hmc).
  destruct Hr as [(-> & -> & Hb)|(-> & Hne & Hb & F1 & Hf1 & (b & Hb1 & Hb2) & Hl1 & Hc1 & Hz1)].
  { eexists _, _, _. split; [done|]. by left. }
  rewrite (proj2 (Z.eqb_neq _ _)) by done.
  destruct (walk_run base lo (brk w1) nu Hnu (k1 - S (length F1)) h1 F1 w1 Hf1) as (l1 & Hp1 & Hw).
  replace (S (length F1 + (k1 - S (length F1)))) with k1 in Hw by lia.
  destruct Hw as [(G1 & p & m & G2 & -> & Hm & ->)|[Hno _]].
  - destruct (take_got nu h1 G1 p m G2 w1 Hnu Hf1 Hm) as (a & h' & -> & _ & Ha & Hs & F' & Hf' & Hc' & Hz').
    eexists _, _, _. split; [done|]. right. exists a. split; [done|]. split; [done|]. split; [done|]. split; [done|].
    exists F'. split; [done|]. split.
    + intros x. rewrite Hc', Hc1, ind_empty. lia.
    + intros x Hx Hlt. rewrite Hz'; [by apply Hz1| |lia]. rewrite Hc1, Hx. unfold ind.
      rewrite (proj2 (Z.leb_gt _ _)) by done. done.
  - exfalso. rewrite Hp1 in Hno. rewrite Forall_forall in Hno. specialize (Hno b Hb1). cbn in Hno. lia.
Qed.

(** ** The allocator as a whole

    [A] are the blocks handed out.  Every byte that came from the system is in
    exactly one block, handed out or free. *)

Definition live_ok (w : world) (h : heap) (A : list blk) : Prop :=
  base + HDR <= lo /\ lo <= brk w < 2 ^ 31 /\ Forall (fun b : blk => 1 <= b.2 /\ hsize h b.1 = b.2) A /\
  exists F, flist base lo (brk w) h F /\ forall x, cov A x + cov F x = ind lo (brk w) x.

(** Before the first call of [malloc]. *)
Definition unused (w : world) (h : heap) (A : list blk) : Prop :=
  freep h = 0 /\ A = [] /\ brk w = lo /\ base + HDR <= lo < 2 ^ 31 /\ 0 < base.

Definition alloc_ok (w : world) (h : heap) (A : list blk) : Prop := unused w h A \/ live_ok w h A.

Definition init_heap (h : heap) : heap :=
  if freep h =? 0 then put_size base 0 (put_ptr base base (put_freep base h)) else h.

Lemma init_ok w h A : alloc_ok w h A -> live_ok w (init_heap h) A.
Proof.
  intros [(Hfp & -> & Hb & Hlo & Hb0)|Hok]; unfold init_heap.
  - rewrite Hfp. cbn [Z.eqb]. unfold live_ok, HDR in *. split; [lia|]. split; [lia|]. split; [done|]. exists []. split.
    + constructor; cbn; try done; [unfold hptr; cbn; by rewrite lookup_insert_eq|unfold hsize; cbn; by rewrite lookup_insert_eq|left|lia|lia].
    + intros x. rewrite Hb, ind_empty. done.
  - rewrite (proj2 (Z.eqb_neq _ _)); [done|]. destruct Hok as (_ & _ & _ & F & Hf & _).
    pose proof (fl_lo _ _ _ _ _ Hf). pose proof (fl_freep _ _ _ _ _ Hf) as [E|(b & E & Hin)%list_elem_of_fmap]%elem_of_cons; [lia|].
    destruct (sorted_in _ _ _ _ (fl_sorted _ _ _ _ _ Hf) Hin). lia.
Qed.

Lemma live_cov w h A b : live_ok w h A -> b ∈ A -> 1 <= b.2 /\ hsize h b.1 = b.2 /\ lo <= b.1 /\ bend b <= brk w.
Proof.
  intros (_ & _ & HA & F & Hf & Hc) Hb. rewrite Forall_forall in HA. destruct (HA b Hb) as [H1 H2].
  split; [done|]. split; [done|].
  assert (Hin : forall x, b.1 <= x < bend b -> lo <= x < brk w).
  { intros x Hx. pose proof (cov_elem b A x Hb) as Hx1. rewrite cov1_in in Hx1 by done. specialize (Hc x).
    pose proof (cov_nonneg F x). unfold ind in Hc. destruct (Z.leb_spec lo x), (Z.ltb_spec x (brk w)); cbn in Hc; lia. }
  pose proof (Hin b.1 ltac:(unfold bend, HDR; lia)). pose proof (Hin (bend b - 1) ltac:(unfold bend, HDR; lia)). lia.
Qed.

(** Enough rounds for every loop: the headers outnumber the free blocks. *)
Definition rounds (h : heap) : nat := 3 * size (hp_ptr h) + 8.

Lemma flist_length hi h F : flist base lo hi h F -> (length F <= size (hp_ptr h))%nat.
Proof.
  intros [Hr Hb0 Hso Hfp Hlo Hhi]. pose proof (sorted_NoDup lo _ _ base ltac:(lia) Hso) as [_ Hnd]%NoDup_cons.
  assert (Hsub : (list_to_set F.*1 : gset Z) ⊆ dom (hp_ptr h)).
  { intros x Hx%elem_of_list_to_set. apply list_elem_of_fmap in Hx as (b & -> & (F1 & F2 & ->)%list_elem_of_split).
    apply elem_of_dom. assert (Hne : hptr h b.1 <> 0).
    { apply ring_app in Hr as (_ & _ & _ & Hr). destruct F2 as [|c F2]; [cbn in Hr; lia|]. destruct Hr as (-> & _).
      destruct (sorted_in _ _ _ c Hso); [apply elem_of_app; right; right; left|lia]. }
    unfold hptr in Hne. destruct (hp_ptr h !! b.1); [by eexists|done]. }
  apply subseteq_size in Hsub. rewrite size_list_to_set, length_fmap, size_dom in Hsub by done. done.
Qed.

Lemma units_bounds nbytes : 0 <= nbytes <= 2 ^ 31 - 32 -> 1 <= units nbytes /\ HDR * units nbytes < 2 ^ 31 /\ nbytes <= HDR * (units nbytes - 1).
Proof.
  intros Hn. unfold units, HDR, u32 in *. pose proof (Z.div_mod (nbytes + 16 - 1) 16 ltac:(lia)).
  pose proof (Z.mod_pos_bound (nbytes + 16 - 1) 16 ltac:(lia)). rewrite Z.mod_small by lia. lia.
Qed.

Lemma malloc_ok w h A nbytes :
  alloc_ok w h A -> 0 <= nbytes <= 2 ^ 31 - 32 ->
  exists r h' w', malloc base (rounds h) nbytes h w = UOk (r, h') w' /\
    live_ok w' h' (if r =? 0 then A else (r - HDR, units nbytes) :: A) /\ brk w <= brk w'.
Proof.
  intros Hok Hn. destruct (units_bounds nbytes Hn) as (Hu1 & Hu2 & _).
  assert (Hk : forall F, flist base lo (brk w) (init_heap h) F -> (3 * length F + 8 <= rounds h)%nat).
  { intros F Hf. unfold rounds. destruct Hok as [(Hfp & -> & Hb & _)|(_ & _ & _ & F0 & Hf0 & _)].
    - assert (F = []) as ->; [|cbn; lia]. destruct F as [|b F]; [done|]. pose proof (fl_sorted _ _ _ _ _ Hf) as (? & ? & ? & _).
      unfold bend, HDR in *. lia.
    - pose proof (flist_length _ _ _ Hf). unfold init_heap in *. destruct (freep h =? 0) eqn:E; [|lia].
      pose proof (fl_freep _ _ _ _ _ Hf0) as Hp. apply Z.eqb_eq in E. rewrite E in Hp. pose proof (fl_lo _ _ _ _ _ Hf0).
      apply elem_of_cons in Hp as [?|(b & ? & Hin)%list_elem_of_fmap]; [lia|].
      destruct (sorted_in _ _ _ _ (fl_sorted _ _ _ _ _ Hf0) Hin). lia. }
  pose proof (init_ok w h A Hok) as Hl. pose proof Hl as (Hbl & Hlo & HA & F & Hf & Hc).
  destruct (malloc_loop_run (rounds h) (units nbytes) (init_heap h) F w Hf) as (r & h' & w' & Hm & Hr); [lia..|by apply Hk|].
  exists r, h', w'. split; [exact Hm|]. destruct Hr as [(-> & -> & Hb)|(a & -> & Hb & Ha & Hs & F' & Hf' & Hc' & Hz)].
  - cbn [Z.eqb]. split; [|lia]. unfold live_ok. rewrite Hb. done.
  - pose proof (fl_lo _ _ _ _ _ Hf) as Hfl. rewrite (proj2 (Z.eqb_neq _ _)) by (unfold HDR; lia). split; [|done].
    replace (a + HDR - HDR) with a by lia. split; [done|]. pose proof (fl_hi _ _ _ _ _ Hf') as Hfh. split; [lia|]. split.
    + constructor; [done|]. rewrite Forall_forall in HA |- *. intros b Hb'. destruct (HA b Hb') as [K1 K2]. split; [done|].
      destruct (live_cov w _ A b Hl Hb') as (_ & _ & K3 & K4).
      rewrite Hz; [done| |unfold bend, HDR in *; lia]. specialize (Hc b.1). pose proof (cov_elem b A b.1 Hb') as K5.
      rewrite cov1_in in K5 by (unfold bend, HDR; lia). pose proof (cov_nonneg F b.1). pose proof (ind_bounds lo (brk w) b.1). lia.
    + exists F'. split; [done|]. intros x. cbn. specialize (Hc x). specialize (Hc' x).
      rewrite (ind_app lo (brk w)) by lia. unfold cov in *. lia.
Qed.

Lemma free_ok w h A1 b A2 :
  live_ok w h (A1 ++ b :: A2) ->
  exists h', free (rounds h) (b.1 + HDR) h = Some h' /\ live_ok w h' (A1 ++ A2).
Proof.
  intros Hl. pose proof Hl as (Hbl & Hlo & HA & F & Hf & Hc).
  destruct (live_cov w h _ b Hl) as (Hb1 & Hb2 & Hb3 & Hb4); [apply elem_of_app; right; left|].
  assert (Hcx : forall x, cov (A1 ++ A2) x + cov1 b x + cov F x = ind lo (brk w) x).
  { intros x. specialize (Hc x). rewrite cov_app in *. cbn in Hc. unfold cov in *. lia. }
  pose proof (fl_lo _ _ _ _ _ Hf) as Hbase. pose proof (fl_hi _ _ _ _ _ Hf) as Hhi.
  destruct (free_run base lo (brk w) Hbase Hhi (rounds h) h F b.1 b.2 Hf Hb2 Hb1 Hb3) as (h' & F' & Hfr & Hf' & _ & _ & Hc' & Hz).
  - by destruct b.
  - intros x. specialize (Hcx x). pose proof (cov_nonneg (A1 ++ A2) x). pose proof (ind_bounds lo (brk w) x).
    destruct b. cbn [fst snd]. lia.
  - pose proof (flist_length _ _ _ Hf). unfold rounds. lia.
  - exists h'. split; [done|]. split; [done|]. split; [done|]. split.
    + rewrite Forall_forall in HA |- *. intros c Hc1.
      assert (Hc2 : c ∈ A1 ++ b :: A2) by (rewrite elem_of_app, elem_of_cons in *; tauto).
      destruct (HA c Hc2) as [K1 K2]. split; [done|]. specialize (Hcx c.1). pose proof (cov_elem c _ c.1 Hc1) as K3.
      rewrite cov1_in in K3 by (unfold bend, HDR; lia). pose proof (cov_nonneg F c.1). pose proof (ind_bounds lo (brk w) c.1).
      pose proof (cov1_bounds b c.1). rewrite Hz; [done| |].
      * intros E. rewrite (cov1_in b) in Hcx by (rewrite E; unfold bend, HDR; lia). lia.
      * apply (cov_start lo _ (brk w)); [apply (fl_sorted _ _ _ _ _ Hf)|lia].
    + exists F'. split; [done|]. intros x. specialize (Hcx x). rewrite Hc'. destruct b. cbn [fst snd]. lia.
Qed.

(** What the program may do to memory: anything within the blocks it holds,
    behind their headers. *)
Definition outside (A : list blk) (x : Z) : Prop :=
  forall b y, b ∈ A -> x <= y < x + HDR -> ~ (b.1 + HDR <= y < bend b).
Definition client (A : list blk) (h h' : heap) : Prop :=
  freep h' = freep h /\ forall x, outside A x -> hptr h' x = hptr h x /\ hsize h' x = hsize h x.

Lemma client_ok w h h' A : alloc_ok w h A -> client A h h' -> alloc_ok w h' A.
Proof.
  intros [(Hfp & Hu)|Hl] [Hc1 Hc2]; [left; split; [congruence|done]|right].
  pose proof Hl as (Hbl & Hlo & HA & F & Hf & Hc). pose proof Hf as [Hr Hb0 Hso Hfr Hfl Hfh].
  assert (Hbase : outside A base).
  { intros b y Hb Hy Hin. destruct (live_cov w h A b Hl Hb) as (_ & _ & ? & _). lia. }
  assert (HF : forall x, x ∈ F.*1 -> outside A x).
  { intros x (b & -> & Hb)%list_elem_of_fmap c y Hcin Hy Hin. destruct (sorted_in _ _ _ _ Hso Hb) as (_ & ? & _).
    specialize (Hc y). pose proof (cov_elem b F y Hb). pose proof (cov_elem c A y Hcin). pose proof (ind_bounds lo (brk w) y).
    rewrite (cov1_in b), (cov1_in c) in * by (unfold bend, HDR in *; lia). lia. }
  assert (HAo : forall b, b ∈ A -> outside A b.1).
  { intros b Hb c y Hcin Hy Hin. destruct (live_cov w h A b Hl Hb) as (? & _).
    destruct (decide (b = c)) as [->|Hne]; [lia|].
    assert (Hge : cov1 b y + cov1 c y <= cov A y) by (by apply cov_two). specialize (Hc y).
    pose proof (cov_nonneg F y). pose proof (ind_bounds lo (brk w) y).
    rewrite (cov1_in b), (cov1_in c) in Hge by (unfold bend, HDR in *; lia). lia. }
  split; [done|]. split; [done|]. split.
  - rewrite Forall_forall in HA |- *. intros b Hb. destruct (HA b Hb) as [K1 K2]. split; [done|].
    destruct (Hc2 b.1) as [_ ->]; [by apply HAo|done].
  - exists F. split; [|done]. constructor; [|by destruct (Hc2 base) as [_ ->]|done|by rewrite Hc1|done|done].
    eapply ring_move; [|..|exact Hr]; [by apply Hc2|]. intros x Hx. by apply Hc2, HF.
Qed.

(** Steps of a program that uses the allocator. *)
Inductive astep : heap * world * list blk -> heap * world * list blk -> Prop :=
| as_malloc h w A nbytes r h' w' :
    0 <= nbytes <= 2 ^ 31 - 32 -> malloc base (rounds h) nbytes h w = UOk (r, h') w' ->
    astep (h, w, A) (h', w', if r =? 0 then A else (r - HDR, units nbytes) :: A)
| as_free h w A1 b A2 h' :
    free (rounds h) (b.1 + HDR) h = Some h' -> astep (h, w, A1 ++ b :: A2) (h', w, A1 ++ A2)
| as_client h h' w A : client A h h' -> astep (h, w, A) (h', w, A).

Definition start_ok (st : heap * world * list blk) : Prop := let '(h, w, A) := st in unused w h A.
Definition state_ok (st : heap * world * list blk) : Prop := let '(h, w, A) := st in alloc_ok w h A.

Lemma astep_ok st st' : astep st st' -> state_ok st -> state_ok st'.
Proof.
  intros Hs Hok. destruct Hs as [h w A nbytes r h' w' Hn Hm|h w A1 b A2 h' Hfr|h h' w A Hc]; cbn [state_ok] in *.
  - destruct (malloc_ok w h A nbytes Hok Hn) as (r0 & h0 & w0 & Hm0 & Hl & _). rewrite Hm in Hm0.
    injection Hm0 as <- <- <-. by right.
  - destruct Hok as [(_ & HA & _)|Hl]; [by destruct A1|].
    destruct (free_ok w h A1 b A2 Hl) as (h0 & Hf0 & Hl0). rewrite Hfr in Hf0. injection Hf0 as <-. by right.
  - by eapply client_ok.
Qed.

Lemma reach_ok st st' : rtc astep st st' -> start_ok st -> state_ok st'.
Proof.
  intros Hr Hs. assert (Hok : state_ok st) by (destruct st as [[h w] A]; by left). clear Hs.
  induction Hr as [|st st1 st' H1 _ IH]; [done|]. by apply IH, (astep_ok st).
Qed.

Definition apart (b c : blk) : Prop := bend b <= c.1 \/ bend c <= b.1.

Lemma cov_apart A : (forall x, cov A x <= 1) -> Forall (fun b : blk => 1 <= b.2) A ->
  forall i j b c, A !! i = Some b -> A !! j = Some c -> i <> j -> apart b c.
Proof.
  intros Hc HA i j b c Hi Hj Hne. rewrite Forall_forall in HA.
  pose proof (HA b (list_elem_of_lookup_2 _ _ _ Hi)) as Hb. pose proof (HA c (list_elem_of_lookup_2 _ _ _ Hj)) as Hcc.
  destruct (decide (bend b <= c.1)) as [|H1]; [by left|]. destruct (decide (bend c <= b.1)) as [|H2]; [by right|exfalso].
  specialize (Hc (Z.max b.1 c.1)). pose proof (cov_two_at A i j b c (Z.max b.1 c.1) Hi Hj Hne) as H3.
  rewrite (cov1_in b), (cov1_in c) in H3 by (unfold bend, HDR in *; lia). lia.
Qed.

(** C21 The allocator is sound: whatever a program does with [malloc] of up to
    2^31 - 32 bytes, [free] of blocks it holds, and stores into them, the blocks it
    holds are disjoint from one another and lie in memory obtained from the system;
    [malloc] returns, with 0 or with a block for all the bytes asked for (up to 2^31 - 32) that is
    apart from every block held; and [free] of any block held returns. *)
Theorem allocator_sound st h w A :
  start_ok st -> rtc astep st (h, w, A) ->
  (forall i j b c, A !! i = Some b -> A !! j = Some c -> i <> j -> apart b c) /\
  (forall b, b ∈ A -> lo <= b.1 /\ bend b <= brk w) /\
  (forall nbytes, 0 <= nbytes <= 2 ^ 31 - 32 ->
     exists r h' w', malloc base (rounds h) nbytes h w = UOk (r, h') w' /\
       (r = 0 \/ exists b, b = (r - HDR, units nbytes) /\ r + nbytes <= bend b /\
          lo <= b.1 /\ bend b <= brk w' /\ forall c, c ∈ A -> apart b c)) /\
  (forall b, b ∈ A -> exists h', free (rounds h) (b.1 + HDR) h = Some h').
Proof.
  intros Hs Hr. pose proof (reach_ok _ _ Hr Hs) as Hok. cbn [state_ok] in Hok.
  assert (Hap : forall w h A, live_ok w h A -> forall i j b c, A !! i = Some b -> A !! j = Some c -> i <> j -> apart b c).
  { clear. intros w h A (_ & _ & HA & F & _ & Hc). apply cov_apart.
    - intros x. specialize (Hc x). pose proof (cov_nonneg F x). pose proof (ind_bounds lo (brk w) x). lia.
    - eapply Forall_impl; [exact HA|]. by intros b [? _]. }
  split_and!.
  - destruct Hok as [(_ & -> & _)|Hl]; [done|by eapply Hap].
  - intros b Hb. destruct Hok as [(_ & -> & _)|Hl]; [by apply elem_of_nil in Hb|]. by destruct (live_cov w h A b Hl Hb) as (_ & _ & ?).
  - intros nbytes Hn. destruct (malloc_ok w h A nbytes Hok Hn) as (r & h' & w' & Hm & Hl & _).
    exists r, h', w'. split; [done|]. destruct (Z.eqb_spec r 0) as [->|Hne]; [by left|right].
    destruct (units_bounds nbytes Hn) as (_ & _ & Hu). eexists. split; [reflexivity|].
    destruct (live_cov w' h' _ (r - HDR, units nbytes) Hl) as (_ & _ & H1 & H2); [left|].
    split; [unfold bend; cbn [fst snd]; unfold HDR in *; lia|]. split; [done|]. split; [done|].
    intros c [i Hi]%list_elem_of_lookup_1. apply (Hap w' h' _ Hl 0%nat (S i)); done.
  - intros b Hb. destruct Hok as [(_ & -> & _)|Hl]; [by apply elem_of_nil in Hb|].
    apply list_elem_of_split in Hb as (A1 & A2 & ->). destruct (free_ok w h A1 b A2 Hl) as (h' & Hf & _). by exists h'.
Qed.

(** C36 Freed memory is joined: once a program whose requests are of up to 2^31 - 32
    bytes has freed everything it held, the free list is a single block, all the memory obtained from the system. *)
Theorem allocator_coalesces st h w :
  start_ok st -> rtc astep st (h, w, []) -> lo < brk w ->
  exists n, lo + HDR * n = brk w /\ ring h base [(lo, n)] base.
Proof.
  intros Hs Hr Hgt. pose proof (reach_ok _ _ Hr Hs) as [(_ & _ & Hb & _)|(_ & _ & _ & F & Hf & Hc)]; [lia|].
  cbn [cov foldr] in Hc. destruct Hf as [Hri _ Hso _ Hlo _].
  assert (Hin : forall x, lo <= x < brk w -> cov F x = 1).
  { intros x Hx. specialize (Hc x). unfold ind in Hc. rewrite (proj2 (Z.leb_le _ _)), (proj2 (Z.ltb_lt _ _)) in Hc by lia. cbn in Hc. lia. }
  destruct F as [|[a n] F]; [specialize (Hin lo ltac:(lia)); cbn in Hin; lia|].
  destruct Hso as (H1 & H2 & H3 & Hso). cbn [fst snd] in *. unfold bend in *. cbn [fst snd] in *.
  assert (Hz : forall x, x <= a + HDR * n -> cov F x = 0).
  { intros x Hx. apply (cov_sorted_below _ _ (brk w)). eapply (sorted_mono _ _ _ (brk w)); [|lia|exact Hso]. lia. }
  assert (a = lo) as ->.
  { destruct (decide (a = lo)) as [|Hne]; [done|]. specialize (Hin lo ltac:(lia)). cbn in Hin.
    rewrite cov1_out in Hin by (cbn; lia). specialize (Hz lo ltac:(unfold HDR in *; lia)). unfold cov in *. lia. }
  assert (HF : F = []).
  { destruct F as [|c F]; [done|]. destruct Hso as (K1 & K2 & K3 & _). specialize (Hin (lo + HDR * n)).
    specialize (Hz (lo + HDR * n) ltac:(lia)). cbn in Hin. rewrite cov1_out in Hin by (right; unfold bend; cbn; lia).
    unfold cov, bend, HDR in *. cbn in *. lia. }
  subst F. exists n. split; [|done]. destruct (decide (lo + HDR * n = brk w)) as [|Hne]; [done|exfalso].
  specialize (Hin (lo + HDR * n) ltac:(unfold HDR in *; lia)). cbn in Hin.
  rewrite cov1_out in Hin by (right; unfold bend; cbn; lia). lia.
Qed.

End Alloc.

(** ** A system with memory

    The world is the end of the process memory; it grows while it stays below
    128 megabytes. *)

Definition mem_sbrk (n w : Z) : Z * Z :=
  if n <? 0 then (w, if 0 <=? w + n then w + n else w)
  else if w + n <? 2 ^ 27 then (w, w + n) else (-1, w).

#[export] Instance mem_os : UserOS := {|
  world := Z; sys_sbrk := mem_sbrk;
  sys_read := fun _ _ w => ((-1, []), w); sys_write := fun _ _ w => (-1, w); sys_fork := fun w => (-1, w);
  sys_open := fun _ _ w => (-1, w); sys_close := fun _ w => (-1, w);
  sys_fstat := fun _ w => ((-1, mkustat 0 0 0), w); sys_mkdir := fun _ w => (-1, w);
  sys_mknod := fun _ _ _ w => (-1, w); sys_link := fun _ _ w => (-1, w); sys_unlink := fun _ w => (-1, w);
  sys_chdir := fun _ w => (-1, w); sys_dup := fun _ w => (-1, w); sys_pipe := fun w => ((-1, (0, 0)), w);
  sys_wait := fun w => ((-1, 0), w); sys_kill := fun _ w => (-1, w); sys_exec := fun _ _ w => (Some (-1), w);
  sys_sleep := fun _ w => (0, w); sys_getpid := fun w => (1, w)
|}.

#[export] Instance mem_brk : @SbrkOS mem_os.
Proof.
  refine (@Build_SbrkOS mem_os (fun w => w) _). intros n w Hn. cbn. unfold mem_sbrk.
  rewrite (proj2 (Z.ltb_ge _ _)) by lia. destruct (Z.ltb_spec (w + n) (2 ^ 27)).
  - exists w, (w + n). split; [reflexivity|]. right. split; [reflexivity|]. split; [reflexivity|]. lia.
  - exists (-1), w. split; [reflexivity|]. left. split; reflexivity.
Defined.

Definition empty_heap : heap := mkheap ∅ ∅ 0.
(** The static header below a process memory that ends at 8192. *)
Notation base0 := 4096.
Notation brk0 := 8192.

(** Two blocks are allocated and the first is freed. *)
Definition run3 : option (heap * Z * list blk) :=
  match @malloc mem_os base0 (rounds empty_heap) 100 empty_heap brk0 with
  | UOk (r1, h1) w1 =>
      match @malloc mem_os base0 (rounds h1) 5000 h1 w1 with
      | UOk (r2, h2) w2 =>
          h3 ← free (rounds h2) r1 h2;
          Some (h3, w2, [(r2 - HDR, units 5000)])
      | _ => None
      end
  | _ => None
  end.

Definition reached (base lo : Z) (h : heap) (w : Z) (A : list blk) : Prop :=
  @rtc (heap * Z * list blk) (@astep mem_os base) (empty_heap, lo, []) (h, w, A).

Lemma reached_malloc base lo h w A nbytes r h' w' :
  reached base lo h w A -> 0 <= nbytes <= 2 ^ 31 - 32 -> @malloc mem_os base (rounds h) nbytes h w = UOk (r, h') w' ->
  reached base lo h' w' (if r =? 0 then A else (r - HDR, units nbytes) :: A).
Proof. intros Hr Hn Hm. eapply rtc_r; [exact Hr|]. by apply (@as_malloc mem_os). Qed.
Lemma reached_free base lo h w A1 b A2 h' :
  reached base lo h w (A1 ++ b :: A2) -> free (rounds h) (b.1 + HDR) h = Some h' -> reached base lo h' w (A1 ++ A2).
Proof. intros Hr Hm. eapply rtc_r; [exact Hr|]. by apply (@as_free mem_os). Qed.

Lemma run3_reached : exists h w A, run3 = Some (h, w, A) /\ reached base0 brk0 h w A.
Proof.
  unfold run3. destruct (@malloc mem_os base0 (rounds empty_heap) 100 empty_heap brk0) as [[r1 h1] w1| | | |] eqn:E1;
    try (vm_compute in E1; discriminate).
  assert (R1 : reached base0 brk0 h1 w1 (if r1 =? 0 then [] else [(r1 - HDR, units 100)])).
  { apply (reached_malloc _ _ empty_heap brk0 []); [apply rtc_refl|lia|exact E1]. }
  vm_compute in E1. injection E1 as <- <- <-.
  match goal with |- context [@malloc mem_os base0 (rounds ?h) 5000 ?h ?w] =>
    destruct (@malloc mem_os base0 (rounds h) 5000 h w) as [[r2 h2] w2| | | |] eqn:E2; try (vm_compute in E2; discriminate);
    assert (R2 := reached_malloc _ _ h w _ 5000 r2 h2 w2 R1 ltac:(lia) E2) end.
  vm_compute in E2. injection E2 as <- <- <-.
  match goal with |- context [free (rounds ?h) ?p ?h] => destruct (free (rounds h) p h) as [h3|] eqn:E3;
    [assert (R3 := reached_free _ _ h _ [(68576, 314)] (73600, 8) [] h3 R2 E3)|vm_compute in E3; discriminate] end.
  eexists _, _, _. split; [reflexivity|exact R3].
Qed.

Lemma start_sample : @start_ok mem_os mem_brk base0 brk0 (empty_heap, brk0, []).
Proof. repeat split; vm_compute; congruence. Qed.

Lemma allocator_sound_witness :
  exists h w A, reached base0 brk0 h w A /\ A <> [] /\ forall b, b ∈ A -> exists h', free (rounds h) (b.1 + HDR) h = Some h'.
Proof.
  destruct run3_reached as (h & w & A & E & R). exists h, w, A. split; [exact R|].
  destruct (@allocator_sound mem_os mem_brk base0 brk0 (empty_heap, brk0, []) h w A start_sample R) as (_ & _ & _ & H).
  split; [|exact H]. vm_compute in E. injection E as <- <- <-. congruence.
Defined.

Lemma allocator_coalesces_witness :
  exists h w n, reached base0 brk0 h w [] /\ 8192 + HDR * n = w /\ n = 4096.
Proof.
  destruct run3_reached as (h & w & A & E & R). vm_compute in E. injection E as <- <- <-.
  match type of R with reached _ _ ?h _ _ => destruct (free (rounds h) (68576 + HDR) h) as [h3|] eqn:E3;
    [assert (R3 := reached_free _ _ h _ [] (68576, 314) [] h3 R E3)|vm_compute in E3; discriminate] end.
  destruct (@allocator_coalesces mem_os mem_brk base0 brk0 (empty_heap, brk0, []) h3 73728 start_sample R3) as (n & Hn & _);
    [vm_compute; reflexivity|].
  exists h3, 73728, n. split; [exact R3|]. split; [exact Hn|]. cbn in Hn. unfold HDR in Hn. lia.
Defined.

(** The size in bytes is passed to [sbrk] as an [int]: a request of almost four
    gigabytes makes the process grow by 16 bytes, one of two gigabytes does not
    make it grow at all, and both return a block. *)
Theorem malloc_overflows :
  (exists h, @malloc mem_os base0 8 4294967295 empty_heap brk0 = @UOk Z _ (8208, h) 8208) /\
  (exists h, @malloc mem_os base0 8 2147483648 empty_heap brk0 = @UOk Z _ (8208, h) 8192).
Proof. split; eexists; vm_compute; reflexivity. Qed.
