(* ===== verification/Sh.v ===== *)
(** * user/sh.c

    The shell.  A line is parsed in place: a command refers to its words by the
    pointers [q] and [eq] into the line's buffer, here offsets, and [nulterminate]
    stores a NUL at each [eq].  [malloc] in the constructors is taken to succeed.
    [parseexec] goes on to fill the [execcmd] it has already wrapped in
    redirections; here the redirections are collected and wrapped at the end. *)

From stdpp Require Import base gmap strings numbers list.
From Stdlib Require Import Ascii.
From S2P Require Import Prelude KState StringC Spinlock Printf UserOS Ulib UserProgs.

Definition MAXARGS : nat := 10.

(** Commands: [EXEC], [REDIR], [PIPE], [LIST] and [BACK]. *)
Inductive cmd : Type :=
| CExec (argv : list (nat * nat))
| CRedir (c : cmd) (file efile : nat) (mode fd : Z)
| CPipe (left right : cmd)
| CList (left right : cmd)
| CBack (c : cmd).

(** ** Parsing *)

(** The result of a parser; [PFail] is the message of [panic]. *)
Inductive pres (A : Type) : Type :=
| POk (a : A)
| PFail (msg : list Z)
| POut.
Arguments POk {A} a.
Arguments PFail {A} msg.
Arguments POut {A}.

#[export] Instance pres_ret : MRet pres := fun A a => POk a.
#[export] Instance pres_bind : MBind pres := fun A B f m =>
  match m with POk a => f a | PFail msg => PFail msg | POut => POut end.

Definition whitespace : list Z := [32; 9; 13; 10; 11].
Definition symbols : list Z := zstr "<|>&;()".
(** strchr(l, c) is not null *)
Definition has_chr (l : list Z) (c : Z) : bool := match strchr l c with Some _ => true | None => false end.

Section Parse.
(** The line, of [es] characters. *)
Variable buf : list Z.

Definition at_ (s : nat) : Z := nth s buf 0.

(** while(s < es && f( *s )) s++; with [n] = es - s *)
Fixpoint skip (f : Z -> bool) (n : nat) (s : nat) : nat :=
  match n with
  | O => s
  | S n' => if f (at_ s) then skip f n' (S s) else s
  end.
Definition skip_while (f : Z -> bool) (s : nat) : nat := skip f (length buf - s) s.
Definition skip_space (s : nat) : nat := skip_while (has_chr whitespace) s.

(** The token, where it starts and ends, and where to go on. *)
Definition gettoken (s : nat) : Z * nat * nat * nat :=
  let s := skip_space s in
  let q := s in
  let c := at_ s in
  let '(ret, s) :=
    if c =? 0 then (c, s)
    else if (c =? chr "|") || (c =? chr "(") || (c =? chr ")") || (c =? chr ";") || (c =? chr "&") || (c =? chr "<")
    then (c, S s)
    else if c =? chr ">" then
      if at_ (S s) =? chr ">" then (chr "+", S (S s)) else (c, S s)
    else (chr "a", skip_while (fun c => negb (has_chr whitespace c) && negb (has_chr symbols c)) s) in
  (ret, q, s, skip_space s).

Definition peek (s : nat) (toks : list Z) : bool * nat :=
  let s := skip_space s in
  (negb (at_ s =? 0) && has_chr toks (at_ s), s).

Definition redir : Type := (nat * nat * Z * Z)%type.
Definition wrap (c : cmd) (rs : list redir) : cmd :=
  fold_left (fun c '(q, eq, mode, fd) => CRedir c q eq mode fd) rs c.

(** while(peek(ps, es, "<>")): the redirections, in order. *)
Fixpoint parseredirs (k : nat) (s : nat) : pres (list redir * nat) :=
  match k with
  | O => POut
  | S k' =>
      let '(p, s) := peek s (zstr "<>") in
      if negb p then mret ([], s) else
      let '(tok, _, _, s) := gettoken s in
      let '(t, q, eq, s) := gettoken s in
      if negb (t =? chr "a") then PFail (zstr "missing file for redirection") else
      '(rs, s) ← parseredirs k' s;
      if tok =? chr "<" then mret ((q, eq, O_RDONLY, 0) :: rs, s)
      else if tok =? chr ">" then mret ((q, eq, Z.lor (Z.lor O_WRONLY O_CREATE) O_TRUNC, 1) :: rs, s)
      else if tok =? chr "+" then mret ((q, eq, Z.lor O_WRONLY O_CREATE, 1) :: rs, s)
      else mret (rs, s)
  end.

(** The words and redirections of [parseexec], from the word number [argc] on. *)
Fixpoint parsewords (k : nat) (argc : nat) (s : nat) : pres (list (nat * nat) * list redir * nat) :=
  match k with
  | O => POut
  | S k' =>
      let '(p, s) := peek s (zstr "|)&;") in
      if p then mret ([], [], s) else
      let '(tok, q, eq, s) := gettoken s in
      if tok =? 0 then mret ([], [], s) else
      if negb (tok =? chr "a") then PFail (zstr "syntax") else
      if (MAXARGS <=? S argc)%nat then PFail (zstr "too many args") else
      '(rs, s) ← parseredirs k' s;
      '(args, rs', s) ← parsewords k' (S argc) s;
      mret ((q, eq) :: args, rs ++ rs', s)
  end.

(** while(peek(ps, es, "&")) cmd = backcmd(cmd); *)
Fixpoint parseback (k : nat) (c : cmd) (s : nat) : pres (cmd * nat) :=
  match k with
  | O => POut
  | S k' =>
      let '(p, s) := peek s (zstr "&") in
      if negb p then mret (c, s) else
      let '(_, _, _, s) := gettoken s in
      parseback k' (CBack c) s
  end.

Fixpoint parseline (k : nat) (s : nat) : pres (cmd * nat) :=
  match k with
  | O => POut
  | S k' =>
      '(c, s) ← parsepipe k' s;
      '(c, s) ← parseback k' c s;
      let '(p, s) := peek s (zstr ";") in
      if p : bool then
        let '(_, _, _, s) := gettoken s in
        '(r, s) ← parseline k' s;
        mret (CList c r, s)
      else mret (c, s)
  end
with parsepipe (k : nat) (s : nat) : pres (cmd * nat) :=
  match k with
  | O => POut
  | S k' =>
      '(c, s) ← parseexec k' s;
      let '(p, s) := peek s (zstr "|") in
      if p : bool then
        let '(_, _, _, s) := gettoken s in
        '(r, s) ← parsepipe k' s;
        mret (CPipe c r, s)
      else mret (c, s)
  end
with parseblock (k : nat) (s : nat) : pres (cmd * nat) :=
  match k with
  | O => POut
  | S k' =>
      let '(p, s) := peek s (zstr "(") in
      if negb p then PFail (zstr "parseblock") else
      let '(_, _, _, s) := gettoken s in
      '(c, s) ← parseline k' s;
      let '(p, s) := peek s (zstr ")") in
      if negb p then PFail (zstr "syntax - missing )") else
      let '(_, _, _, s) := gettoken s in
      '(rs, s) ← parseredirs k' s;
      mret (wrap c rs, s)
  end
with parseexec (k : nat) (s : nat) : pres (cmd * nat) :=
  match k with
  | O => POut
  | S k' =>
      let '(p, s) := peek s (zstr "(") in
      if p : bool then parseblock k' s else
      '(rs, s) ← parseredirs k' s;
      '(args, rs', s) ← parsewords k' 0 s;
      mret (wrap (CExec args) (rs ++ rs'), s)
  end.

End Parse.

(** *eq = 0; for every word. *)
Fixpoint nulterminate (c : cmd) (buf : list Z) : list Z :=
  match c with
  | CExec argv => foldl (fun b qe => <[qe.2 := 0]> b) buf argv
  | CRedir c _ efile _ _ => <[efile := 0]> (nulterminate c buf)
  | CPipe l r | CList l r => nulterminate r (nulterminate l buf)
  | CBack c => nulterminate c buf
  end.

(** A word of the command, once its end is marked. *)
Definition str_at (buf : list Z) (q : nat) : list Z := cstr (drop q buf).

Section Shell.
Context {Sys : UserOS}.

Definition panic {A} (msg : list Z) : U A :=
  ufprintf 2 (nl (zstr "%s")) [astr msg];; uexit 1.

Definition fork1 : U Z :=
  pid ← ufork;
  if pid =? -1 then panic (zstr "fork") else mret pid.

(** Calls nest at most four deep per character. *)
Definition parse_fuel (buf : list Z) : nat := 4 * length buf + 8.

(** The command and the line with its words marked. *)
Definition parsecmd (s : list Z) : U (cmd * list Z) :=
  let buf := cstr s in
  match parseline buf (parse_fuel buf) 0 with
  | POk (c, e) =>
      let '(_, e) := peek buf e [] in
      if negb (e =? length buf)%nat then
        ufprintf 2 (nl (zstr "leftovers: %s")) [astr (drop e buf)];; panic (zstr "syntax")
      else mret (c, nulterminate c buf)
  | PFail msg => panic msg
  | POut => uspin
  end.

(** Never returns. *)
Fixpoint runcmd (buf : list Z) (c : cmd) : U unit :=
  match c with
  | CExec argv =>
      match argv with
      | [] => uexit 1
      | (q, _) :: _ =>
          uexec (str_at buf q) ((fun qe => str_at buf qe.1) <$> argv);;
          ufprintf 2 (nl (zstr "exec %s failed")) [astr (str_at buf q)];;
          uexit 0
      end
  | CRedir c file _ mode fd =>
      uclose fd;;
      r ← uopen (str_at buf file) mode;
      if r <? 0 then ufprintf 2 (nl (zstr "open %s failed")) [astr (str_at buf file)];; uexit 1
      else runcmd buf c
  | CList l r =>
      pid ← fork1;
      if pid =? 0 then runcmd buf l else
      uwait;;
      runcmd buf r
  | CPipe l r =>
      '(e, (p0, p1)) ← upipe;
      if e <? 0 then panic (zstr "pipe") else
      pid ← fork1;
      if pid =? 0 then
        uclose 1;; udup p1;; uclose p0;; uclose p1;; runcmd buf l
      else
      pid ← fork1;
      if pid =? 0 then
        uclose 0;; udup p0;; uclose p0;; uclose p1;; runcmd buf r
      else
      uclose p0;;
      uclose p1;;
      uwait;;
      uwait;;
      uexit 0
  | CBack c =>
      pid ← fork1;
      if pid =? 0 then runcmd buf c else uexit 0
  end.

(** [None] at the end of the input. *)
Definition getcmd : U (option (list Z)) :=
  uwrite 2 (zstr "$ ");;
  buf ← ulib_gets 100;
  mret (if ch buf =? 0 then None else Some buf).

(** while((fd = open("console", O_RDWR)) >= 0), at most [k] rounds. *)
Fixpoint open_console (k : nat) : U unit :=
  match k with
  | O => uspin
  | S k' =>
      fd ← uopen (zstr "console") O_RDWR;
      if fd <? 0 then mret () else
      if 3 <=? fd then uclose fd;; mret () else open_console k'
  end.

(** buf[strlen(buf)-1] = 0; *)
Definition chop (buf : list Z) : list Z := <[Nat.pred (length (cstr buf)) := 0]> buf.

Fixpoint sh_loop (k : nat) : U unit :=
  match k with
  | O => uspin
  | S k' =>
      line ← getcmd;
      match line with
      | None => uexit 0
      | Some buf =>
          if (ch buf =? chr "c") && (ch (tail buf) =? chr "d") && (ch (tail (tail buf)) =? 32) then
            let buf := chop buf in
            r ← uchdir (drop 3 buf);
            uwhen (r <? 0) (ufprintf 2 (nl (zstr "cannot cd %s")) [astr (drop 3 buf)]);;
            sh_loop k'
          else
            pid ← fork1;
            if pid =? 0 then
              '(c, buf) ← parsecmd buf;
              runcmd buf c
            else
            uwait;;
            sh_loop k'
      end
  end.

Definition sh_main (k : nat) : U unit :=
  open_console k;;
  sh_loop k.

End Shell.

(** ** Tokens *)

Definition space (c : Z) : bool := has_chr whitespace c.
Definition word_char (c : Z) : bool := negb (has_chr whitespace c) && negb (has_chr symbols c).

Lemma has_space c : has_chr whitespace c = bool_decide (c ∈ whitespace).
Proof. apply strchr_mem. by apply (bool_decide_unpack _). Qed.
Lemma has_symbol c : has_chr symbols c = bool_decide (c ∈ symbols).
Proof. apply strchr_mem. by apply (bool_decide_unpack _). Qed.

Section Tokens.
Variable buf : list Z.
Hypothesis Hnz : Forall (fun c => c <> 0) buf.
Implicit Types s q e : nat.

Lemma at_nonzero s : at_ buf s = 0 <-> (length buf <= s)%nat.
Proof.
  unfold at_. split; intros H.
  - destruct (decide (length buf <= s)%nat) as [|Hlt]; [done|exfalso].
    rewrite Forall_forall in Hnz. apply (Hnz (nth s buf 0)); [|done]. apply nth_elem_of. lia.
  - by apply nth_overflow.
Qed.

Lemma skip_spec f n s :
  let s' := skip buf f n s in
  (s <= s' <= s + n)%nat /\ (forall i, (s <= i < s')%nat -> f (at_ buf i) = true) /\
  ((s' < s + n)%nat -> f (at_ buf s') = false).
Proof.
  revert s. induction n as [|n IH]; intros s; cbn; [split_and!; lia|].
  destruct (f (at_ buf s)) eqn:E; [|split; [lia|split; [lia|done]]].
  destruct (IH (S s)) as (H1 & H2 & H3). split; [lia|]. split; [|intros; apply H3; lia].
  intros i Hi. destruct (decide (i = s)) as [->|]; [done|]. apply H2. lia.
Qed.

Lemma skip_while_spec f s : (s <= length buf)%nat ->
  let s' := skip_while buf f s in
  (s <= s' <= length buf)%nat /\ (forall i, (s <= i < s')%nat -> f (at_ buf i) = true) /\
  ((s' < length buf)%nat -> f (at_ buf s') = false).
Proof.
  intros Hs. destruct (skip_spec f (length buf - s) s) as (H1 & H2 & H3). fold (skip_while buf f s) in *.
  split; [lia|]. split; [exact H2|]. intros Hlt. apply H3. lia.
Qed.

(** A word of the line: as long as it can be, between [q] and [e]. *)
Definition tok_ok (q e : nat) : Prop :=
  (q < e <= length buf)%nat /\ (forall i, (q <= i < e)%nat -> word_char (at_ buf i) = true) /\
  ((e < length buf)%nat -> word_char (at_ buf e) = false).

Lemma gettoken_spec s ret q e s' :
  (s <= length buf)%nat -> gettoken buf s = (ret, q, e, s') ->
  q = skip_space buf s /\ (s <= q <= e)%nat /\ (e <= s' <= length buf)%nat /\
  (ret <> 0 -> (q < e)%nat) /\ (ret = chr "a" -> tok_ok q e) /\ (at_ buf q <> 0 -> (q < e)%nat).
Proof.
  intros Hs. unfold gettoken, skip_space. destruct (skip_while_spec (has_chr whitespace) s Hs) as (Hq & _ & Hsp).
  set (p := skip_while buf (has_chr whitespace) s) in *. pose proof (at_nonzero p) as Hz.
  destruct (Z.eqb_spec (at_ buf p) 0) as [E0|E0].
  { intros [= <- <- <- <-]. destruct (skip_while_spec (has_chr whitespace) p ltac:(lia)) as (H1 & _).
    rewrite E0. split_and!; first [done|lia|by intros E; vm_compute in E]. }
  assert (Hlt : (p < length buf)%nat) by (destruct (decide (p < length buf)%nat); [done|]; exfalso; apply E0, Hz; lia).
  assert (Hone : forall c e1, e1 = S p -> c <> chr "a" -> (c, p, e1, skip_while buf (has_chr whitespace) e1) = (ret, q, e, s') ->
    q = p /\ (s <= q <= e)%nat /\ (e <= s' <= length buf)%nat /\ (ret <> 0 -> (q < e)%nat) /\
    (ret = chr "a" -> tok_ok q e) /\ (at_ buf q <> 0 -> (q < e)%nat)).
  { intros c e1 -> Hc [= <- <- <- <-]. destruct (skip_while_spec (has_chr whitespace) (S p) ltac:(lia)) as (H1 & _).
    split_and!; first [done|lia]. }
  destruct ((_ =? chr "|") || _ || _ || _ || _ || _) eqn:E1.
  { apply Hone; [done|]. intros E. rewrite E in E1. vm_compute in E1. done. }
  destruct (Z.eqb_spec (at_ buf p) (chr ">")) as [E2|E2].
  { destruct (Z.eqb_spec (at_ buf (S p)) (chr ">")) as [E3|E3]; [|apply Hone; [done|by rewrite E2]].
    intros [= <- <- <- <-]. assert (S p < length buf)%nat.
    { destruct (decide (S p < length buf)%nat); [done|exfalso]. pose proof (proj2 (at_nonzero (S p)) ltac:(lia)) as E4.
      rewrite E3 in E4. done. }
    destruct (skip_while_spec (has_chr whitespace) (S (S p)) ltac:(lia)) as (H1 & _). split_and!; first [done|lia|by intros E; vm_compute in E]. }
  intros [= <- <- <- <-]. fold (word_char).
  destruct (skip_while_spec (fun c => negb (has_chr whitespace c) && negb (has_chr symbols c)) p ltac:(lia)) as (H1 & H2 & H3).
  set (e := skip_while buf _ p) in *.
  destruct (skip_while_spec (has_chr whitespace) e ltac:(lia)) as (H4 & _).
  assert (Hw : word_char (at_ buf p) = true).
  { unfold word_char. rewrite Hsp by done. cbn [negb andb]. rewrite has_symbol. apply negb_true_iff, bool_decide_eq_false.
    rewrite !orb_false_iff, !Z.eqb_neq in E1. unfold symbols. cbn [zstr]. rewrite !elem_of_cons, elem_of_nil. intuition. }
  assert (p < e)%nat.
  { destruct (decide (p < e)%nat); [done|]. assert (e = p) as E by lia. rewrite E in H3. specialize (H3 Hlt). unfold word_char in Hw. congruence. }
  split_and!; try done; try lia. intros _. split; [lia|]. split; [exact H2|exact H3].
Qed.

Lemma skip_space_idem s : (s <= length buf)%nat -> skip_space buf (skip_space buf s) = skip_space buf s.
Proof.
  intros Hs. unfold skip_space at 2 3. destruct (skip_while_spec (has_chr whitespace) s Hs) as (H1 & _ & H3).
  set (p := skip_while buf (has_chr whitespace) s) in *. unfold skip_space, skip_while.
  destruct (length buf - p)%nat eqn:E; [done|]. cbn. by rewrite H3 by lia.
Qed.

Lemma peek_spec s toks p s' :
  (s <= length buf)%nat -> peek buf s toks = (p, s') ->
  s' = skip_space buf s /\ (s <= s' <= length buf)%nat /\ (p = true -> at_ buf s' <> 0).
Proof.
  intros Hs. unfold peek. intros [= <- <-]. destruct (skip_while_spec (has_chr whitespace) s Hs) as (H1 & _).
  split_and!; [done|unfold skip_space; lia..|]. by intros [?%negb_true_iff%Z.eqb_neq _]%andb_true_iff.
Qed.

(** The token that [peek] has seen is not empty. *)
Lemma peek_gettoken s toks s1 ret q e s2 :
  (s <= length buf)%nat -> peek buf s toks = (true, s1) -> gettoken buf s1 = (ret, q, e, s2) ->
  (s <= s1 < s2)%nat /\ (s2 <= length buf)%nat.
Proof.
  intros Hs Hp Hg. destruct (peek_spec _ _ _ _ Hs Hp) as (-> & H1 & H2).
  destruct (gettoken_spec _ _ _ _ _ (proj2 H1) Hg) as (Hq & H3 & H4 & _ & _ & H5).
  rewrite skip_space_idem in Hq by done. subst q. specialize (H5 (H2 eq_refl)). lia.
Qed.

(** ** What the parser returns *)

Definition res_ok {A} (P : A -> Prop) (s : nat) (r : pres (A * nat)) : Prop :=
  match r with
  | POk (a, s') => P a /\ (s <= s' <= length buf)%nat
  | PFail _ => True
  | POut => False
  end.

Definition redir_ok (r : redir) : Prop := let '(q, e, _, _) := r in tok_ok q e.
Fixpoint cmd_ok (c : cmd) : Prop :=
  match c with
  | CExec argv => Forall (fun qe => tok_ok qe.1 qe.2) argv /\ (length argv < MAXARGS)%nat
  | CRedir c q e _ _ => cmd_ok c /\ tok_ok q e
  | CPipe l r | CList l r => cmd_ok l /\ cmd_ok r
  | CBack c => cmd_ok c
  end.

Lemma res_bind {A B} (P : A -> Prop) (Q : B -> Prop) s (m : pres (A * nat)) (f : A * nat -> pres (B * nat)) :
  res_ok P s m -> (forall a s', P a -> (s <= s' <= length buf)%nat -> res_ok Q s (f (a, s'))) -> res_ok Q s (m ≫= f).
Proof. destruct m as [[a s']|msg|]; cbn; [|done|done]. intros [Ha Hs] Hf. by apply Hf. Qed.

Lemma res_later {A} (P : A -> Prop) s s' r : (s <= s')%nat -> res_ok P s' r -> res_ok P s r.
Proof. destruct r as [[a s'']|msg|]; cbn; [|done|done]. intros ? [? ?]. split; [done|lia]. Qed.

Lemma wrap_ok c rs : cmd_ok c -> Forall redir_ok rs -> cmd_ok (wrap c rs).
Proof.
  intros Hc Hrs. revert c Hc. induction Hrs as [|[[[q e] mode] fd] rs Hr _ IH]; intros c Hc; [done|].
  cbn. apply IH. by split.
Qed.

Lemma parseredirs_ok k s : (s <= length buf)%nat -> (length buf - s < k)%nat -> res_ok (Forall redir_ok) s (parseredirs buf k s).
Proof.
  revert s. induction k as [|k IH]; intros s Hs Hk; [lia|]. cbn [parseredirs].
  destruct (peek buf s (zstr "<>")) as [p s1] eqn:Hp. destruct (peek_spec _ _ _ _ Hs Hp) as (_ & H1 & _).
  destruct p; cbn [negb]; [|split; [constructor|lia]].
  destruct (gettoken buf s1) as [[[tok q0] e0] s2] eqn:Hg. destruct (peek_gettoken _ _ _ _ _ _ _ Hs Hp Hg) as [H2 H3].
  destruct (gettoken buf s2) as [[[t q] e] s3] eqn:Hg2. destruct (gettoken_spec _ _ _ _ _ H3 Hg2) as (_ & H4 & H5 & _ & H6 & _).
  destruct (Z.eqb_spec t (chr "a")) as [Ht|]; cbn [negb]; [|done].
  eapply res_bind; [eapply (res_later _ s s3); [lia|apply IH; lia]|]. intros rs s' Hrs Hs'.
  specialize (H6 Ht). repeat case_match; (split; [first [done|by constructor]|lia]).
Qed.

Lemma parsewords_ok k argc s :
  (s <= length buf)%nat -> (length buf - s < k)%nat -> (argc < MAXARGS)%nat ->
  res_ok (fun '(args, rs) => Forall (fun qe => tok_ok qe.1 qe.2) args /\ Forall redir_ok rs /\ (argc + length args < MAXARGS)%nat)
    s (parsewords buf k argc s).
Proof.
  revert argc s. induction k as [|k IH]; intros argc s Hs Hk Ha; [lia|]. cbn [parsewords].
  destruct (peek buf s (zstr "|)&;")) as [p s1] eqn:Hp. destruct (peek_spec _ _ _ _ Hs Hp) as (_ & H1 & _).
  destruct p; [split; [split_and!; [constructor|constructor|cbn; lia]|lia]|].
  destruct (gettoken buf s1) as [[[tok q] e] s2] eqn:Hg. destruct (gettoken_spec _ _ _ _ _ (proj2 H1) Hg) as (_ & H2 & H3 & H4 & H5 & _).
  destruct (Z.eqb_spec tok 0) as [|H0]; [split; [split_and!; [constructor|constructor|cbn; lia]|lia]|].
  destruct (Z.eqb_spec tok (chr "a")) as [Ht|]; cbn [negb]; [|done]. specialize (H4 H0). specialize (H5 Ht).
  destruct (Nat.leb_spec MAXARGS (S argc)); [done|]. eapply (res_later _ s s2); [lia|].
  eapply res_bind; [apply parseredirs_ok; lia|]. intros rs s3 Hrs Hs3.
  eapply res_bind; [eapply (res_later _ s2 s3); [lia|apply IH; lia]|]. intros [args rs'] s4 (Hargs & Hrs' & Hl) Hs4.
  split; [|lia]. split_and!; [by constructor|by apply Forall_app|cbn; lia].
Qed.

Lemma parseback_ok k c s :
  (s <= length buf)%nat -> (length buf - s < k)%nat -> cmd_ok c -> res_ok cmd_ok s (parseback buf k c s).
Proof.
  revert c s. induction k as [|k IH]; intros c s Hs Hk Hc; [lia|]. cbn [parseback].
  destruct (peek buf s (zstr "&")) as [p s1] eqn:Hp. destruct (peek_spec _ _ _ _ Hs Hp) as (_ & H1 & _).
  destruct p; cbn [negb]; [|split; [done|lia]].
  destruct (gettoken buf s1) as [[[tok q] e] s2] eqn:Hg. destruct (peek_gettoken _ _ _ _ _ _ _ Hs Hp Hg) as [H2 H3].
  eapply (res_later _ s s2); [lia|]. apply IH; [done|lia|done].
Qed.

(** Four calls per character are enough. *)
Definition parses_ok (k : nat) : Prop := forall s, (s <= length buf)%nat ->
  ((4 * (length buf - s) + 4 <= k)%nat -> res_ok cmd_ok s (parseline buf k s)) /\
  ((4 * (length buf - s) + 3 <= k)%nat -> res_ok cmd_ok s (parsepipe buf k s)) /\
  ((4 * (length buf - s) + 2 <= k)%nat -> res_ok cmd_ok s (parseexec buf k s)) /\
  ((4 * (length buf - s) + 1 <= k)%nat -> res_ok cmd_ok s (parseblock buf k s)).

Lemma parseline_step k s : parses_ok k -> (s <= length buf)%nat -> (4 * (length buf - s) + 4 <= S k)%nat ->
  res_ok cmd_ok s (parseline buf (S k) s).
Proof.
  intros IH Hs Hk. cbn [parseline]. eapply res_bind; [apply (IH s); lia|]. intros c s1 Hc Hs1.
  eapply res_bind; [eapply (res_later _ s s1); [lia|apply parseback_ok; [lia|lia|done]]|]. intros c2 s2 Hc2 Hs2.
  destruct (peek buf s2 (zstr ";")) as [p s3] eqn:Hp. destruct (peek_spec _ _ _ _ (proj2 Hs2) Hp) as (_ & H1 & _).
  destruct p; [|split; [done|lia]]. destruct (gettoken buf s3) as [[[tok q] e] s4] eqn:Hg.
  destruct (peek_gettoken _ _ _ _ _ _ _ (proj2 Hs2) Hp Hg) as [H2 H3].
  eapply res_bind; [eapply (res_later _ s s4); [lia|apply (IH s4); lia]|]. intros r s5 Hr Hs5. split; [by split|lia].
Qed.

Lemma parsepipe_step k s : parses_ok k -> (s <= length buf)%nat -> (4 * (length buf - s) + 3 <= S k)%nat ->
  res_ok cmd_ok s (parsepipe buf (S k) s).
Proof.
  intros IH Hs Hk. cbn [parsepipe]. eapply res_bind; [apply (IH s); lia|]. intros c s2 Hc Hs2.
  destruct (peek buf s2 (zstr "|")) as [p s3] eqn:Hp. destruct (peek_spec _ _ _ _ (proj2 Hs2) Hp) as (_ & H1 & _).
  destruct p; [|split; [done|lia]]. destruct (gettoken buf s3) as [[[tok q] e] s4] eqn:Hg.
  destruct (peek_gettoken _ _ _ _ _ _ _ (proj2 Hs2) Hp Hg) as [H2 H3].
  eapply res_bind; [eapply (res_later _ s s4); [lia|apply (IH s4); lia]|]. intros r s5 Hr Hs5. split; [by split|lia].
Qed.

Lemma parseblock_step k s : parses_ok k -> (s <= length buf)%nat -> (4 * (length buf - s) + 1 <= S k)%nat ->
  res_ok cmd_ok s (parseblock buf (S k) s).
Proof.
  intros IH Hs Hk. cbn [parseblock].
  destruct (peek buf s (zstr "(")) as [p s1] eqn:Hp. destruct p; cbn [negb]; [|done].
  destruct (gettoken buf s1) as [[[tok q] e] s2] eqn:Hg. destruct (peek_gettoken _ _ _ _ _ _ _ Hs Hp Hg) as [H2 H3].
  eapply res_bind; [eapply (res_later _ s s2); [lia|apply (IH s2); lia]|]. intros c s3 Hc Hs3.
  destruct (peek buf s3 (zstr ")")) as [p s4] eqn:Hp4. destruct p; cbn [negb]; [|done].
  destruct (gettoken buf s4) as [[[tok5 q5] e5] s5] eqn:Hg5. destruct (peek_gettoken _ _ _ _ _ _ _ (proj2 Hs3) Hp4 Hg5) as [H5 H6].
  eapply res_bind; [eapply (res_later _ s s5); [lia|apply parseredirs_ok; lia]|]. intros rs s6 Hrs Hs6.
  split; [by apply wrap_ok|lia].
Qed.

Lemma parseexec_step k s : parses_ok k -> (s <= length buf)%nat -> (4 * (length buf - s) + 2 <= S k)%nat ->
  res_ok cmd_ok s (parseexec buf (S k) s).
Proof.
  intros IH Hs Hk. cbn [parseexec].
  destruct (peek buf s (zstr "(")) as [p s1] eqn:Hp. destruct (peek_spec _ _ _ _ Hs Hp) as (_ & H1 & _).
  destruct p; [eapply (res_later _ s s1); [lia|apply (IH s1); lia]|].
  eapply res_bind; [eapply (res_later _ s s1); [lia|apply parseredirs_ok; lia]|]. intros rs s2 Hrs Hs2.
  eapply res_bind; [eapply (res_later _ s s2); [lia|apply parsewords_ok; [lia|lia|unfold MAXARGS; lia]]|].
  intros [args rs'] s3 (Ha & Hrs' & Hl) Hs3. split; [|lia]. apply wrap_ok; [by split|by apply Forall_app].
Qed.

Lemma parse_ok k : parses_ok k.
Proof.
  induction k as [|k IH]; intros s Hs; [split_and!; lia|].
  split_and!; [by apply parseline_step|by apply parsepipe_step|by apply parseexec_step|by apply parseblock_step].
Qed.

(** ** The words of a command *)

Fixpoint ends (c : cmd) : list nat :=
  match c with
  | CExec argv => argv.*2
  | CRedir c _ e _ _ => ends c ++ [e]
  | CPipe l r | CList l r => ends l ++ ends r
  | CBack c => ends c
  end.
Definition marks (es : list nat) (b : list Z) : list Z := foldl (fun b e => <[e := 0]> b) b es.

Lemma marks_app es1 es2 b : marks (es1 ++ es2) b = marks es2 (marks es1 b).
Proof. apply foldl_app. Qed.
Lemma nulterminate_marks c b : nulterminate c b = marks (ends c) b.
Proof.
  revert b. induction c as [argv|c IH q e mode fd|l IHl r IHr|l IHl r IHr|c IH]; intros b; cbn [nulterminate ends].
  - unfold marks. revert b. induction argv as [|qe argv IH]; intros b; [done|]. cbn. apply IH.
  - by rewrite marks_app, IH.
  - by rewrite marks_app, IHl, IHr.
  - by rewrite marks_app, IHl, IHr.
  - apply IH.
Qed.

Lemma length_marks es b : length (marks es b) = length b.
Proof. unfold marks. revert b. induction es as [|e es IH]; intros b; [done|]. cbn. by rewrite IH, length_insert. Qed.
Lemma lookup_marks es b i : marks es b !! i = if decide (i ∈ es) then (fun _ => 0) <$> b !! i else b !! i.
Proof.
  unfold marks. revert b. induction es as [|e es IH]; intros b; cbn [foldl].
  - rewrite decide_False; [done|]. apply not_elem_of_nil.
  - rewrite IH. destruct (decide (i = e)) as [->|Hne].
    + rewrite (decide_True (P := e ∈ e :: es)) by left. destruct (decide (e < length b)%nat) as [Hl|Hl].
      * rewrite list_lookup_insert_eq by done. destruct (lookup_lt_is_Some_2 b e Hl) as [x ->]. by case_decide.
      * rewrite !lookup_ge_None_2 by (rewrite ?length_insert; lia). by case_decide.
    + rewrite list_lookup_insert_ne by done. by case_decide as H1; case_decide as H2; rewrite ?elem_of_cons in *; naive_solver.
Qed.

Definition slice_at (q e : nat) : list Z := take (e - q) (drop q buf).

Lemma at_lookup i : (i < length buf)%nat -> buf !! i = Some (at_ buf i).
Proof. intros Hi. destruct (lookup_lt_is_Some_2 buf i Hi) as [x Hx]. unfold at_. by rewrite (nth_lookup_Some _ _ _ _ Hx). Qed.

Lemma str_at_marks es q e :
  tok_ok q e -> e ∈ es -> (forall e', e' ∈ es -> (e' < length buf)%nat -> word_char (at_ buf e') = false) ->
  str_at (marks es buf) q = slice_at q e.
Proof.
  intros (Hqe & Hw & _) He Hes. unfold str_at, slice_at.
  assert (Hsame : take (e - q) (drop q (marks es buf)) = take (e - q) (drop q buf)).
  { apply list_eq. intros i. rewrite !lookup_take. case_decide as Hi; [|done]. rewrite !lookup_drop, lookup_marks.
    case_decide as Hin; [|done]. specialize (Hes _ Hin ltac:(lia)). rewrite Hw in Hes by lia. done. }
  rewrite <- (take_drop (e - q) (drop q (marks es buf))), Hsame, drop_drop. replace (q + (e - q))%nat with e by lia.
  assert (Hnz' : Forall (fun c => c <> 0) (take (e - q) (drop q buf))) by (by apply Forall_take, Forall_drop).
  destruct (decide (e < length buf)%nat) as [Hlt|Hge].
  - rewrite (drop_S (marks es buf) 0 e) by (rewrite lookup_marks, decide_True, at_lookup by done; done). by apply cstr_app_zero.
  - rewrite (drop_ge (marks es buf)) by (rewrite length_marks; lia). rewrite app_nil_r. by apply cstr_id.
Qed.

End Tokens.

(** A command with its words spelled out. *)
Inductive scmd : Type :=
| SExec (argv : list (list Z))
| SRedir (c : scmd) (file : list Z) (mode fd : Z)
| SPipe (left right : scmd)
| SList (left right : scmd)
| SBack (c : scmd).

Fixpoint spell (f : nat -> nat -> list Z) (c : cmd) : scmd :=
  match c with
  | CExec argv => SExec ((fun qe => f qe.1 qe.2) <$> argv)
  | CRedir c q e mode fd => SRedir (spell f c) (f q e) mode fd
  | CPipe l r => SPipe (spell f l) (spell f r)
  | CList l r => SList (spell f l) (spell f r)
  | CBack c => SBack (spell f c)
  end.

(** Its words, as [runcmd] reads them and as they are in the line. *)
Definition as_run (buf : list Z) (c : cmd) : scmd := spell (fun q _ => str_at buf q) c.
Definition as_read (buf : list Z) (c : cmd) : scmd := spell (slice_at buf) c.

Lemma spell_ext buf f g c :
  cmd_ok buf c -> (forall q e, tok_ok buf q e -> e ∈ ends c -> f q e = g q e) -> spell f c = spell g c.
Proof.
  induction c as [argv|c IH q e mode fd|l IHl r IHr|l IHl r IHr|c IH]; cbn [cmd_ok ends spell].
  - intros [Ha _] Hf. f_equal. apply list_fmap_ext. intros i [q e] Hi. apply Hf.
    + by eapply (proj1 (Forall_lookup _ _) Ha i (q, e)).
    + apply list_elem_of_fmap. exists (q, e). split; [done|]. by eapply list_elem_of_lookup_2.
  - intros [Hc Ht] Hf. rewrite IH; [|done|intros; apply Hf; [done|apply elem_of_app; by left]].
    f_equal. apply Hf; [done|]. apply elem_of_app. right. left.
  - intros [Hl Hr] Hf. rewrite IHl, IHr; try done; intros; apply Hf; try done; apply elem_of_app; tauto.
  - intros [Hl Hr] Hf. rewrite IHl, IHr; try done; intros; apply Hf; try done; apply elem_of_app; tauto.
  - intros Hc Hf. by rewrite IH.
Qed.

Lemma ends_ok buf c e : cmd_ok buf c -> e ∈ ends c -> (e < length buf)%nat -> word_char (at_ buf e) = false.
Proof.
  induction c as [argv|c IH q e' mode fd|l IHl r IHr|l IHl r IHr|c IH]; cbn [cmd_ok ends].
  - intros [Ha _] (qe & -> & Hin)%list_elem_of_fmap. rewrite Forall_forall in Ha. by apply (Ha _ Hin).
  - intros [Hc Ht] [He| ->%list_elem_of_singleton]%elem_of_app; [by apply IH|]. by apply Ht.
  - intros [Hl Hr] [He|He]%elem_of_app; [by apply IHl|by apply IHr].
  - intros [Hl Hr] [He|He]%elem_of_app; [by apply IHl|by apply IHr].
  - apply IH.
Qed.

Lemma nulterminate_words buf c :
  Forall (fun c => c <> 0) buf -> cmd_ok buf c -> as_run (nulterminate c buf) c = as_read buf c.
Proof.
  intros Hnz Hc. rewrite nulterminate_marks. apply (spell_ext buf); [done|]. intros q e Ht He.
  apply str_at_marks; [done|done|done|]. intros e' He'. by apply (ends_ok buf c).
Qed.

(** ** Printing commands

    [pr lv c] writes [c] where an [execcmd] (0), a pipeline (1), a command in the
    background (2) or a line (3) may stand, in parentheses if it is none. *)

Definition redir_sym (mode fd : Z) : list Z :=
  if fd =? 0 then zstr " < " else if Z.testbit mode 10 then zstr " > " else zstr " >> ".
Definition paren (b : bool) (t : list Z) : list Z := if b then zstr " (" ++ t ++ zstr " )" else t.

Fixpoint pr (lv : nat) (c : scmd) : list Z :=
  match c with
  | SExec argv => concat ((fun w => 32 :: w) <$> argv)
  | SRedir c file mode fd => pr 0 c ++ redir_sym mode fd ++ file
  | SPipe l r => paren (lv <? 1)%nat (pr 0 l ++ zstr " |" ++ pr 1 r)
  | SBack c => paren (lv <? 2)%nat (pr 2 c ++ zstr " &")
  | SList l r => paren (lv <? 3)%nat (pr 2 l ++ zstr " ;" ++ pr 3 r)
  end.

Definition word_ok (w : list Z) : Prop := w <> [] /\ Forall (fun c => word_char c = true /\ c <> 0) w.
Definition mode_ok (mode fd : Z) : Prop :=
  (mode, fd) ∈ [(O_RDONLY, 0); (Z.lor (Z.lor O_WRONLY O_CREATE) O_TRUNC, 1); (Z.lor O_WRONLY O_CREATE, 1)].
Fixpoint scmd_ok (c : scmd) : Prop :=
  match c with
  | SExec argv => Forall word_ok argv /\ (length argv < MAXARGS)%nat
  | SRedir c file mode fd => scmd_ok c /\ word_ok file /\ mode_ok mode fd
  | SPipe l r | SList l r => scmd_ok l /\ scmd_ok r
  | SBack c => scmd_ok c
  end.

Fixpoint strip (t : list Z) : list Z :=
  match t with
  | c :: t' => if space c then strip t' else t
  | [] => []
  end.

Lemma nth_ch (l : list Z) s : nth s l 0 = ch (drop s l).
Proof. revert s. induction l as [|c l IH]; intros [|s]; [done..|]. apply IH. Qed.

Section Print.
Variable buf : list Z.
Hypothesis Hnz : Forall (fun c => c <> 0) buf.
Implicit Types s q e : nat.

(** From [s] on, behind blanks, the line reads [t]. *)
Definition txt (s : nat) (t : list Z) : Prop := (s <= length buf)%nat /\ strip (drop s buf) = t.

Lemma at_drop s : at_ buf s = ch (drop s buf).
Proof. apply nth_ch. Qed.

Lemma drop_skip f n s : (s + n = length buf)%nat ->
  drop (skip buf f n s) buf = (fix go t := match t with c :: t' => if f c then go t' else t | [] => [] end) (drop s buf).
Proof.
  revert s. induction n as [|n IH]; intros s Hn; cbn [skip].
  - rewrite drop_ge by lia. done.
  - assert (Hs : drop s buf = at_ buf s :: drop (S s) buf).
    { destruct (lookup_lt_is_Some_2 buf s ltac:(lia)) as [x Hx]. rewrite (drop_S _ x s Hx). f_equal.
      unfold at_. symmetry. by apply nth_lookup_Some. }
    rewrite Hs. destruct (f (at_ buf s)); [|done]. rewrite IH by lia. done.
Qed.

Lemma drop_skip_space s : (s <= length buf)%nat -> drop (skip_space buf s) buf = strip (drop s buf).
Proof. intros Hs. unfold skip_space, skip_while. rewrite drop_skip by lia. done. Qed.

Lemma strip_idem t : strip (strip t) = strip t.
Proof. induction t as [|c t IH]; [done|]. cbn. destruct (space c) eqn:E; [done|]. cbn. by rewrite E. Qed.

Lemma txt_skip s t : txt s t -> txt (skip_space buf s) t /\ drop (skip_space buf s) buf = t /\ (s <= skip_space buf s)%nat.
Proof.
  intros [Hs Ht]. pose proof (drop_skip_space s Hs) as Hd. destruct (skip_while_spec buf (has_chr whitespace) s Hs) as (H1 & _).
  split; [|split; [congruence|unfold skip_space; lia]]. split; [unfold skip_space; lia|]. by rewrite Hd, strip_idem.
Qed.

Lemma peek_txt s t toks : txt s t ->
  exists s', peek buf s toks = (negb (ch t =? 0) && has_chr toks (ch t), s') /\ txt s' t /\ (s <= s')%nat.
Proof.
  intros Ht. destruct (txt_skip s t Ht) as (H1 & H2 & H3). exists (skip_space buf s).
  unfold peek. rewrite at_drop, H2. done.
Qed.

Lemma txt_after s p t n : drop p buf = t -> (s <= p)%nat -> (n <= length t)%nat -> (p <= length buf)%nat ->
  txt (skip_space buf (p + n)) (strip (drop n t)).
Proof.
  intros Hd Hs Hn Hp. apply txt_skip. assert (length t = length buf - p)%nat by (by rewrite <- Hd, length_drop).
  split; [lia|]. by rewrite <- Hd, drop_drop.
Qed.

(** The token of one of the characters that stand for themselves. *)
Lemma tok_sym s c t : txt s (c :: t) -> c ∈ zstr "|();&<" ->
  exists q e s', gettoken buf s = (c, q, e, s') /\ txt s' (strip t) /\ (s < s')%nat.
Proof.
  intros Ht Hc. destruct (txt_skip s _ Ht) as ([Hl _] & Hd & Hs). unfold gettoken. set (p := skip_space buf s) in *.
  rewrite at_drop, Hd. cbn [ch].
  assert (Hm : (c =? 0) = false /\ ((c =? chr "|") || (c =? chr "(") || (c =? chr ")") || (c =? chr ";") || (c =? chr "&") || (c =? chr "<")) = true).
  { cbn in Hc. repeat (apply elem_of_cons in Hc as [->|Hc]; [by split; vm_compute|]). by apply elem_of_nil in Hc. }
  destruct Hm as [-> ->]. eexists _, _, _. split; [done|].
  pose proof (txt_after s p (c :: t) 1 Hd Hs ltac:(cbn; lia) Hl) as Hr. rewrite Nat.add_1_r in Hr. cbn [drop] in Hr.
  split; [done|]. destruct (skip_while_spec buf (has_chr whitespace) (S p)) as (H1 & _); [|unfold skip_space; lia].
  assert (length (c :: t) = length buf - p)%nat by (by rewrite <- Hd, length_drop). cbn in *. lia.
Qed.

Lemma tok_out s t : txt s (chr ">" :: t) -> ch t <> chr ">" ->
  exists q e s', gettoken buf s = (chr ">", q, e, s') /\ txt s' (strip t) /\ (s < s')%nat.
Proof.
  intros Ht Hc. destruct (txt_skip s _ Ht) as ([Hl _] & Hd & Hs). unfold gettoken. set (p := skip_space buf s) in *.
  assert (Hlen : length (chr ">" :: t) = (length buf - p)%nat) by (by rewrite <- Hd, length_drop). cbn [length] in Hlen.
  rewrite !at_drop, Hd. replace (drop (S p) buf) with t by (by rewrite <- Nat.add_1_r, <- drop_drop, Hd).
  change (ch (chr ">" :: t)) with 62. cbn [Z.eqb Pos.eqb orb]. change (62 =? chr ">") with true. cbv iota.
  change 62 with (chr ">") in *. rewrite (proj2 (Z.eqb_neq _ _)) by done. eexists _, _, _. split; [reflexivity|].
  pose proof (txt_after s p _ 1 Hd Hs ltac:(cbn; lia) Hl) as Hr. rewrite Nat.add_1_r in Hr.
  split; [done|]. destruct (skip_while_spec buf (has_chr whitespace) (S p)) as (H1 & _); [lia|unfold skip_space; lia].
Qed.

Lemma tok_app s t : txt s (chr ">" :: chr ">" :: t) ->
  exists q e s', gettoken buf s = (chr "+", q, e, s') /\ txt s' (strip t) /\ (s < s')%nat.
Proof.
  intros Ht. destruct (txt_skip s _ Ht) as ([Hl _] & Hd & Hs). unfold gettoken. set (p := skip_space buf s) in *.
  assert (Hlen : length (chr ">" :: chr ">" :: t) = (length buf - p)%nat) by (by rewrite <- Hd, length_drop). cbn [length] in Hlen.
  rewrite !at_drop, Hd. replace (drop (S p) buf) with (chr ">" :: t) by (by rewrite <- Nat.add_1_r, <- drop_drop, Hd).
  change (ch (chr ">" :: chr ">" :: t)) with 62. change (ch (chr ">" :: t)) with 62. cbn [Z.eqb Pos.eqb orb].
  change (62 =? chr ">") with true. cbv iota. eexists _, _, _. split; [reflexivity|].
  pose proof (txt_after s p _ 2 Hd Hs ltac:(cbn; lia) Hl) as Hr. replace (p + 2)%nat with (S (S p)) in Hr by lia.
  split; [done|]. destruct (skip_while_spec buf (has_chr whitespace) (S (S p))) as (H1 & _); [lia|unfold skip_space; lia].
Qed.

Lemma tok_end s : txt s [] -> exists q e s', gettoken buf s = (0, q, e, s') /\ txt s' [] /\ (s <= s')%nat.
Proof.
  intros Ht. destruct (txt_skip s _ Ht) as (H1 & Hd & Hs). unfold gettoken. set (p := skip_space buf s) in *.
  rewrite at_drop, Hd. cbn [ch Z.eqb]. eexists _, _, _. split; [done|]. destruct (txt_skip p _ H1) as (? & _ & ?). split; [done|lia].
Qed.

Definition stops (t : list Z) : Prop := t = [] \/ word_char (ch t) = false.

Lemma tok_word s w t : txt s (w ++ t) -> word_ok w -> stops t ->
  exists q e s', gettoken buf s = (chr "a", q, e, s') /\ slice_at buf q e = w /\ txt s' (strip t) /\ (s < s')%nat.
Proof.
  intros Ht [Hne Hw] Hst. destruct (txt_skip s _ Ht) as ([Hl _] & Hd & Hs). unfold gettoken. set (p := skip_space buf s) in *.
  assert (Hlen : (length w + length t = length buf - p)%nat) by (by rewrite <- length_drop, Hd, length_app).
  rewrite !at_drop, Hd. destruct w as [|c w]; [done|]. change (ch ((c :: w) ++ t)) with c.
  pose proof (proj1 (Forall_cons _ _ _) Hw) as [[Hwc Hc0] _].
  assert (Hsym : c ∉ symbols).
  { intros Hin. unfold word_char in Hwc. rewrite has_symbol, (bool_decide_eq_true_2 _ Hin), andb_false_r in Hwc. done. }
  unfold symbols in Hsym. cbn [zstr] in Hsym. rewrite !not_elem_of_cons in Hsym. destruct Hsym as (N1 & N2 & N3 & N4 & N5 & N6 & N7 & _).
  rewrite !(proj2 (Z.eqb_neq c _)) by done. cbn [orb].
  set (e := skip_while buf _ p).
  assert (He : drop e buf = t).
  { unfold e, skip_while. rewrite drop_skip by lia. rewrite Hd. change (c :: w) with ([c] ++ w) in Hw. clear -Hw Hst.
    change ([c] ++ w) with (c :: w) in Hw. induction Hw as [|x l [Hx _] _ IH]; cbn [app].
    - destruct Hst as [->|Hst]; [done|]. destruct t as [|y t]; [done|]. cbn in Hst. unfold word_char in Hst. by rewrite Hst.
    - unfold word_char in Hx. rewrite Hx. apply IH. }
  destruct (skip_while_spec buf (fun c => negb (has_chr whitespace c) && negb (has_chr symbols c)) p Hl) as (H1 & _). fold e in H1.
  assert (Hel : e = (p + length (c :: w))%nat).
  { assert (length t = length buf - e)%nat by (by rewrite <- He, length_drop). cbn [length] in *. lia. }
  eexists p, e, _. split; [done|]. split.
  - unfold slice_at. rewrite Hd, Hel. replace (p + length (c :: w) - p)%nat with (length (c :: w)) by lia. by rewrite take_app_length.
  - destruct (txt_skip e (strip t)) as (H2 & _ & H3); [split; [lia|by rewrite He]|]. split; [done|]. cbn [length] in Hel. lia.
Qed.

(** ** Reading back *)

Definition pr_redir (r : list Z * Z * Z) : list Z := let '(file, mode, fd) := r in redir_sym mode fd ++ file.
Definition pr_redirs (rs : list (list Z * Z * Z)) : list Z := concat (pr_redir <$> rs).
Definition sredir_ok (r : list Z * Z * Z) : Prop := let '(file, mode, fd) := r in word_ok file /\ mode_ok mode fd.
Definition read_redir (r : redir) : list Z * Z * Z := let '(q, e, mode, fd) := r in (slice_at buf q e, mode, fd).

(** What follows starts with a blank, and then with a character of [l]. *)
Definition follow (l : list Z) (t : list Z) : Prop := (t = [] \/ space (ch t) = true) /\ (strip t = [] \/ ch (strip t) ∈ l).

Lemma follow_stops l t : follow l t -> stops t.
Proof. intros [[->|Hs] _]; [by left|right]. unfold word_char, space in *. by rewrite Hs. Qed.

Lemma strip_space t : strip (32 :: t) = strip t.
Proof. done. Qed.
Lemma strip_word w t : word_ok w -> strip (w ++ t) = w ++ t.
Proof.
  intros [Hne Hw]. destruct w as [|c w]; [done|]. apply Forall_cons in Hw as [[Hc _] _]. cbn.
  unfold space. unfold word_char in Hc. by destruct (has_chr whitespace c).
Qed.

Lemma redirs_stop rs t : stops t -> stops (pr_redirs rs ++ t).
Proof.
  destruct rs as [|[[f m] d] rs]; [done|]. intros _. right. cbn. unfold redir_sym. by repeat case_match.
Qed.

(** [peek] for a redirection at the start of what follows. *)
Lemma no_redir (l t : list Z) : strip t = [] \/ ch (strip t) ∈ l -> (forall c, c ∈ l -> has_chr (zstr "<>") c = false) ->
  negb (ch (strip t) =? 0) && has_chr (zstr "<>") (ch (strip t)) = false.
Proof. intros [->|H] Hl; [done|]. rewrite (Hl _ H). apply andb_false_r. Qed.

(** The sign of a redirection. *)
Lemma redir_tok s mode fd t :
  mode_ok mode fd -> strip t = t -> txt s (strip (redir_sym mode fd ++ t)) ->
  exists tok s1 s2 q e, peek buf s (zstr "<>") = (true, s1) /\ gettoken buf s1 = (tok, q, e, s2) /\ txt s2 t /\ (s < s2)%nat /\
    (tok, mode, fd) ∈ [(chr "<", O_RDONLY, 0); (chr ">", Z.lor (Z.lor O_WRONLY O_CREATE) O_TRUNC, 1); (chr "+", Z.lor O_WRONLY O_CREATE, 1)].
Proof.
  intros Hm HT Ht. unfold mode_ok in Hm. repeat (apply elem_of_cons in Hm as [[= -> ->]|Hm]); [..|by apply elem_of_nil in Hm].
  - change (strip _) with (chr "<" :: 32 :: t) in Ht. destruct (peek_txt s _ (zstr "<>") Ht) as (s1 & Hp & H1 & Hs1).
    destruct (tok_sym s1 _ _ H1) as (q & e & s2 & Hg & H2 & Hs2); [by apply (bool_decide_unpack _)|].
    rewrite strip_space, HT in H2. eexists _, s1, s2, q, e. split_and!; [exact Hp|exact Hg|done|lia|left].
  - change (strip _) with (chr ">" :: 32 :: t) in Ht. destruct (peek_txt s _ (zstr "<>") Ht) as (s1 & Hp & H1 & Hs1).
    destruct (tok_out s1 _ H1) as (q & e & s2 & Hg & H2 & Hs2); [done|].
    rewrite strip_space, HT in H2. eexists _, s1, s2, q, e. split_and!; [exact Hp|exact Hg|done|lia|right; left].
  - change (strip _) with (chr ">" :: chr ">" :: 32 :: t) in Ht. destruct (peek_txt s _ (zstr "<>") Ht) as (s1 & Hp & H1 & Hs1).
    destruct (tok_app s1 _ H1) as (q & e & s2 & Hg & H2 & Hs2).
    rewrite strip_space, HT in H2. eexists _, s1, s2, q, e. split_and!; [exact Hp|exact Hg|done|lia|right; right; left].
Qed.

Lemma parseredirs_read k s rs t :
  txt s (strip (pr_redirs rs ++ t)) -> Forall sredir_ok rs -> stops t ->
  negb (ch (strip t) =? 0) && has_chr (zstr "<>") (ch (strip t)) = false -> (length buf - s < k)%nat ->
  exists rs' s', parseredirs buf k s = POk (rs', s') /\ read_redir <$> rs' = rs /\ txt s' (strip t) /\ (s <= s')%nat.
Proof.
  intros Ht Hrs Hst Hno. revert k s Ht. induction Hrs as [|[[f mode] fd] rs [Hf Hm] Hrs IH]; intros [|k] s Ht Hk; try lia.
  - cbn [parseredirs pr_redirs fmap list_fmap concat app] in *. destruct (peek_txt s _ (zstr "<>") Ht) as (s1 & -> & H1 & Hs1).
    rewrite Hno. cbn [negb]. by exists [], s1.
  - cbn [pr_redirs fmap list_fmap concat pr_redir] in Ht. fold (pr_redirs rs) in Ht. rewrite <- !app_assoc in Ht.
    set (T := f ++ pr_redirs rs ++ t) in *. assert (HT : strip T = T) by (unfold T; by apply strip_word).
    assert (Hstop : stops (pr_redirs rs ++ t)) by (by apply redirs_stop).
    destruct (redir_tok s mode fd T Hm HT Ht) as (tok & s1 & s2 & q0 & e0 & Hp & Hg & H2 & Hs2 & Htok).
    cbn [parseredirs]. rewrite Hp. cbn [negb]. rewrite Hg.
    destruct (tok_word s2 f _ H2 Hf Hstop) as (q & e & s3 & -> & Hsl & H3 & Hs3). rewrite Z.eqb_refl. cbn [negb].
    pose proof (proj1 H3) as L3. destruct (IH k s3 H3 ltac:(lia)) as (rs' & s4 & -> & Hrd & H4 & Hs4). cbn [mbind pres_bind].
    repeat (apply elem_of_cons in Htok as [[= -> -> ->]|Htok]); [..|by apply elem_of_nil in Htok].
    all: eexists (_ :: rs'), s4; split; [reflexivity|]; split; [cbn; by rewrite Hsl, Hrd|]; split; [done|lia].
Qed.

Definition pr_words (ws : list (list Z)) : list Z := concat ((fun w => 32 :: w) <$> ws).

(** A word starts with none of the characters that have a meaning. *)
Lemma word_peek w t toks : word_ok w -> (forall c, c ∈ toks -> c ∈ symbols) -> 0 ∉ toks ->
  negb (ch (w ++ t) =? 0) && has_chr toks (ch (w ++ t)) = false.
Proof.
  intros [Hne Hw] Hs H0. destruct w as [|c w]; [done|]. apply Forall_cons in Hw as [[Hc _] _]. cbn [app ch].
  apply andb_false_iff. right. unfold has_chr. rewrite strchr_mem by done. apply bool_decide_eq_false. intros Hin.
  unfold word_char in Hc. rewrite has_symbol, (bool_decide_eq_true_2 _ (Hs c Hin)), andb_false_r in Hc. done.
Qed.
Lemma in_symbols toks : bool_decide (Forall (fun c => c ∈ symbols) toks) = true -> forall c, c ∈ toks -> c ∈ symbols.
Proof. intros H. apply Forall_forall. by apply bool_decide_eq_true in H. Qed.

Lemma parsewords_read k argc s ws rs t :
  txt s (strip (pr_words ws ++ pr_redirs rs ++ t)) -> ws <> [] \/ rs = [] -> Forall word_ok ws -> Forall sredir_ok rs ->
  follow (zstr "|)&;") t -> (argc + length ws < MAXARGS)%nat -> (length buf - s < k)%nat ->
  exists args rs' s', parsewords buf k argc s = POk (args, rs', s') /\ (fun qe => slice_at buf qe.1 qe.2) <$> args = ws /\
    read_redir <$> rs' = rs /\ txt s' (strip t) /\ (s <= s')%nat.
Proof.
  intros Ht Hor Hws Hrs Hf. pose proof (follow_stops _ _ Hf) as Hst. destruct Hf as [Hf1 Hf2].
  assert (Hno : negb (ch (strip t) =? 0) && has_chr (zstr "<>") (ch (strip t)) = false).
  { apply (no_redir (zstr "|)&;")); [done|]. intros c Hc. cbn in Hc.
    repeat (apply elem_of_cons in Hc as [->|Hc]; [reflexivity|]). by apply elem_of_nil in Hc. }
  revert k argc s rs Hor Hrs Ht. induction Hws as [|w ws Hw Hws IH]; intros [|k] argc s rs Hor Hrs Ht Ha Hk; try lia.
  - destruct Hor as [?| ->]; [done|]. cbn [pr_words pr_redirs fmap list_fmap concat app parsewords] in *.
    destruct (peek_txt s _ (zstr "|)&;") Ht) as (s1 & -> & H1 & Hs1). destruct Hf2 as [He|Hc].
    + rewrite He in *. cbn [ch Z.eqb negb andb]. destruct (tok_end s1 H1) as (q & e & s2 & -> & H2 & Hs2).
      cbn [Z.eqb]. eexists [], [], s2. split_and!; [done..|lia].
    + replace (negb _ && has_chr _ _) with true; [by exists [], [], s1|]. cbn in Hc.
      repeat (apply elem_of_cons in Hc as [->|Hc]; [reflexivity|]). by apply elem_of_nil in Hc.
  - cbn [pr_words fmap list_fmap concat] in Ht. fold (pr_words ws) in Ht. rewrite <- app_assoc in Ht. cbn [app] in Ht.
    rewrite strip_space, strip_word in Ht by done. set (T := pr_words ws ++ pr_redirs rs ++ t) in *.
    assert (HT : stops T) by (unfold T; destruct ws; [by apply redirs_stop|by right]).
    cbn [parsewords]. destruct (peek_txt s _ (zstr "|)&;") Ht) as (s1 & -> & H1 & Hs1).
    rewrite word_peek; [|done|by apply in_symbols|by apply (bool_decide_unpack _)].
    destruct (tok_word s1 w T H1 Hw HT) as (q & e & s2 & -> & Hsl & H2 & Hs2). cbn [length] in Ha.
    change (chr "a" =? 0) with false. rewrite Z.eqb_refl. cbn [negb]. rewrite (proj2 (Nat.leb_gt _ _)) by lia.
    pose proof (proj1 H2) as L2. destruct ws as [|w' ws].
    + destruct (parseredirs_read k s2 rs t H2 Hrs Hst Hno ltac:(lia)) as (rs' & s3 & -> & Hrd & H3 & Hs3). cbn [mbind pres_bind].
      destruct (IH k (S argc) s3 []) as (args & rs2 & s4 & -> & Har & Hrd2 & H4 & Hs4);
        [by right|done|exact H3|lia|pose proof (proj1 H3); lia|].
      cbn [mbind pres_bind]. eexists _, _, s4. split; [reflexivity|].
      rewrite fmap_cons, fmap_app, Hrd, Hrd2, Har, app_nil_r. cbn [fst snd]. rewrite Hsl. split_and!; [done..|lia].
    + assert (Hw' : word_ok w') by (by apply Forall_cons in Hws as [? _]).
      assert (HsT : strip T = w' ++ (pr_words ws ++ pr_redirs rs ++ t)).
      { unfold T. cbn [pr_words fmap list_fmap concat]. rewrite <- app_assoc. cbn [app]. rewrite strip_space. by apply strip_word. }
      destruct (parseredirs_read k s2 [] T) as (rs0 & s3 & -> & Hrd & H3 & Hs3); [exact H2|constructor|done| |lia|].
      { rewrite HsT. apply word_peek; [done|by apply in_symbols|by apply (bool_decide_unpack _)]. }
      destruct rs0; [|done]. cbn [mbind pres_bind].
      destruct (IH k (S argc) s3 rs) as (args & rs2 & s4 & -> & Har & Hrd2 & H4 & Hs4);
        [by left|done|exact H3|cbn [length] in *; lia|pose proof (proj1 H3); lia|].
      cbn [mbind pres_bind]. eexists _, _, s4. split; [reflexivity|].
      rewrite fmap_cons, Har. cbn [fst snd app]. rewrite Hsl. split_and!; [done..|lia].
Qed.

Definition swrap (c : scmd) (rs : list (list Z * Z * Z)) : scmd :=
  fold_left (fun c '(f, mode, fd) => SRedir c f mode fd) rs c.
Lemma read_wrap c rs : as_read buf (wrap c rs) = swrap (as_read buf c) (read_redir <$> rs).
Proof. revert c. induction rs as [|[[[q e] mode] fd] rs IH]; intros c; [done|]. apply (IH (CRedir c q e mode fd)). Qed.

(** A parser reads back [c], up to [t]. *)
Definition reads (r : pres (cmd * nat)) (s : nat) (c : scmd) (t : list Z) : Prop :=
  exists c' s', r = POk (c', s') /\ as_read buf c' = c /\ txt s' (strip t) /\ (s <= s')%nat.

Definition amps (n : nat) : list Z := concat (replicate n (zstr " &")).

Definition reads_exec (c : scmd) : Prop := forall k s rs t,
  txt s (strip (pr 0 c ++ pr_redirs rs ++ t)) -> Forall sredir_ok rs -> follow (zstr "|)&;") t ->
  (4 * (length buf - s) + 2 <= k)%nat -> reads (parseexec buf k s) s (swrap c rs) t.
Definition reads_pipe (c : scmd) : Prop := forall k s t,
  txt s (strip (pr 1 c ++ t)) -> follow (zstr ")&;") t ->
  (4 * (length buf - s) + 3 <= k)%nat -> reads (parsepipe buf k s) s c t.
Definition reads_back (c : scmd) : Prop := forall n k s t,
  txt s (strip (pr 2 c ++ amps n ++ t)) -> follow (zstr ");") t ->
  (4 * (length buf - s) + 3 <= k)%nat ->
  reads ('(c, s1) ← parsepipe buf k s; parseback buf k c s1) s (Nat.iter n SBack c) t.
Definition reads_line (c : scmd) : Prop := forall k s t,
  txt s (strip (pr 3 c ++ t)) -> follow (zstr ")") t ->
  (4 * (length buf - s) + 4 <= k)%nat -> reads (parseline buf k s) s c t.

Lemma follow_mono l l' t : follow l t -> (forall c, c ∈ l -> c ∈ l') -> follow l' t.
Proof. intros [H1 [H2|H2]] Hl; (split; [done|]); [by left|right; by apply Hl]. Qed.
Lemma follow_sym l c t : c ∈ l -> space c = false -> follow l (32 :: c :: t).
Proof. intros Hc Hs. split; [by right|]. right. cbn [strip]. change (space 32) with true. cbv iota. by rewrite Hs. Qed.
Lemma follow_peek l toks t : follow l t -> (forall c, c ∈ l -> has_chr toks c = false) ->
  negb (ch (strip t) =? 0) && has_chr toks (ch (strip t)) = false.
Proof. intros [_ [->|H]] Hl; [done|]. rewrite (Hl _ H). apply andb_false_r. Qed.

Ltac chars := let c := fresh in let H := fresh in
  intros c H; cbn in H; repeat (apply elem_of_cons in H as [->|H]; [first [reflexivity|by apply (bool_decide_unpack _)]|]);
  by apply elem_of_nil in H.

Lemma exec_words argv : Forall word_ok argv -> (length argv < MAXARGS)%nat -> reads_exec (SExec argv).
Proof.
  intros Hw Hl k s rs t Ht Hrs Hf Hk. destruct k as [|k]; [lia|]. cbn [parseexec]. pose proof (follow_stops _ _ Hf) as Hst.
  change (pr 0 (SExec argv)) with (pr_words argv) in Ht.
  assert (Hp : negb (ch (strip (pr_words argv ++ pr_redirs rs ++ t)) =? 0) &&
               has_chr (zstr "(") (ch (strip (pr_words argv ++ pr_redirs rs ++ t))) = false).
  { destruct argv as [|w argv].
    - cbn [pr_words fmap list_fmap concat app]. destruct rs as [|[[f m] d] rs].
      + apply (follow_peek _ _ _ Hf). chars.
      + cbn [pr_redirs fmap list_fmap concat pr_redir]. unfold redir_sym. by repeat case_match.
    - apply Forall_cons in Hw as [Hw1 _]. cbn [pr_words fmap list_fmap concat]. rewrite <- app_assoc. cbn [app].
      rewrite strip_space, strip_word by done. apply word_peek; [done|by apply in_symbols|by apply (bool_decide_unpack _)]. }
  destruct (peek_txt s _ (zstr "(") Ht) as (s1 & -> & H1 & Hs1). rewrite Hp. cbv iota. pose proof (proj1 H1) as L1.
  destruct argv as [|w argv].
  - destruct (parseredirs_read k s1 rs t H1 Hrs Hst) as (rs' & s2 & -> & Hrd & H2 & Hs2); [apply (follow_peek _ _ _ Hf); chars|lia|].
    cbn [mbind pres_bind]. destruct (parsewords_read k 0 s2 [] [] t) as (args & rs2 & s3 & -> & Ha & Hrd2 & H3 & Hs3);
      [exact H2|by right|done|done|done|unfold MAXARGS; cbn; lia|lia|].
    cbn [mbind pres_bind]. eexists _, s3. split; [reflexivity|]. split; [|split; [done|lia]].
    rewrite read_wrap, fmap_app, Hrd, Hrd2, app_nil_r. cbn. by rewrite Ha.
  - assert (Hw1 : word_ok w) by (by apply Forall_cons in Hw as [? _]).
    destruct (parseredirs_read k s1 [] (pr_words (w :: argv) ++ pr_redirs rs ++ t)) as (rs' & s2 & -> & Hrd & H2 & Hs2);
      [exact H1|constructor|by right| |lia|].
    { cbn [pr_words fmap list_fmap concat]. rewrite <- app_assoc. cbn [app]. rewrite strip_space, strip_word by done.
      apply word_peek; [done|by apply in_symbols|by apply (bool_decide_unpack _)]. }
    destruct rs'; [|done]. cbn [mbind pres_bind].
    destruct (parsewords_read k 0 s2 (w :: argv) rs t H2) as (args & rs2 & s3 & -> & Ha & Hrd2 & H3 & Hs3);
      [by left|done|done|done|done|lia|].
    cbn [mbind pres_bind]. eexists _, s3. split; [reflexivity|]. split; [|split; [done|lia]].
    rewrite read_wrap, app_nil_l, Hrd2. cbn [as_read spell]. fold (as_read buf). unfold as_read. cbn [spell]. by rewrite Ha.
Qed.

Lemma exec_redir c f mode fd : word_ok f -> mode_ok mode fd -> reads_exec c -> reads_exec (SRedir c f mode fd).
Proof.
  intros Hf Hm IH k s rs t Ht Hrs Hfo Hk. apply (IH k s ((f, mode, fd) :: rs) t); [|by constructor|done|done].
  cbn [pr] in Ht. rewrite <- !app_assoc in Ht. cbn [pr_redirs fmap list_fmap concat pr_redir]. by rewrite <- !app_assoc.
Qed.

Lemma exec_pipe c : reads_exec c -> pr 1 c = pr 0 c -> reads_pipe c.
Proof.
  intros He Hp k s t Ht Hf Hk. destruct k as [|k]; [lia|]. cbn [parsepipe]. rewrite Hp in Ht.
  destruct (He k s [] t Ht) as (c' & s1 & -> & Hc & H1 & Hs1); [constructor|eapply follow_mono; [exact Hf|chars]|lia|].
  cbn [mbind pres_bind]. destruct (peek_txt s1 _ (zstr "|") H1) as (s2 & -> & H2 & Hs2).
  rewrite (follow_peek _ _ _ Hf) by chars. exists c', s2. split_and!; [done|done|done|lia].
Qed.

Lemma pipe_both l r : reads_exec l -> reads_pipe r -> reads_pipe (SPipe l r).
Proof.
  intros Hl Hr k s t Ht Hf Hk. destruct k as [|k]; [lia|]. cbn [parsepipe pr] in *. cbn [Nat.ltb Nat.leb paren] in Ht.
  rewrite <- !app_assoc in Ht. cbn [zstr app] in Ht.
  destruct (Hl k s [] (32 :: chr "|" :: pr 1 r ++ t) Ht) as (l' & s1 & -> & Hcl & H1 & Hs1);
    [constructor|apply follow_sym; [by apply (bool_decide_unpack _)|done]|lia|].
  cbn [mbind pres_bind]. change (strip (32 :: chr "|" :: pr 1 r ++ t)) with (chr "|" :: pr 1 r ++ t) in H1.
  destruct (peek_txt s1 _ (zstr "|") H1) as (s2 & -> & H2 & Hs2). cbn [ch]. change (negb (chr "|" =? 0) && has_chr (zstr "|") (chr "|")) with true.
  cbv iota. destruct (tok_sym s2 _ _ H2) as (q & e & s3 & -> & H3 & Hs3); [by apply (bool_decide_unpack _)|]. pose proof (proj1 H3).
  destruct (Hr k s3 t H3 Hf) as (r' & s4 & -> & Hcr & H4 & Hs4); [lia|]. cbn [mbind pres_bind].
  eexists _, s4. split; [reflexivity|]. split; [cbn; by f_equal|]. split; [done|lia].
Qed.

Lemma exec_paren c : reads_line c -> pr 0 c = paren true (pr 3 c) -> reads_exec c.
Proof.
  intros Hl Hp k s rs t Ht Hrs Hf Hk. pose proof (follow_stops _ _ Hf) as Hst. rewrite Hp in Ht. cbn [paren] in Ht.
  rewrite <- !app_assoc in Ht. set (T := 32 :: chr ")" :: pr_redirs rs ++ t).
  change (strip _) with (chr "(" :: pr 3 c ++ T) in Ht.
  destruct k as [|[|k]]; [lia|destruct Ht; lia|]. cbn [parseexec].
  destruct (peek_txt s _ (zstr "(") Ht) as (s1 & -> & H1 & Hs1). cbn [ch].
  change (negb (chr "(" =? 0) && has_chr (zstr "(") (chr "(")) with true. cbv iota. cbn [parseblock].
  destruct (peek_txt s1 _ (zstr "(") H1) as (s2 & -> & H2 & Hs2). cbn [ch].
  change (negb (negb (chr "(" =? 0) && has_chr (zstr "(") (chr "("))) with false. cbv iota.
  destruct (tok_sym s2 _ _ H2) as (q & e & s3 & -> & H3 & Hs3); [by apply (bool_decide_unpack _)|]. pose proof (proj1 H3) as L3.
  destruct (Hl k s3 T H3) as (c' & s4 & -> & Hc & H4 & Hs4); [apply follow_sym; [by apply (bool_decide_unpack _)|done]|lia|].
  cbn [mbind pres_bind]. change (strip T) with (chr ")" :: pr_redirs rs ++ t) in H4.
  destruct (peek_txt s4 _ (zstr ")") H4) as (s5 & -> & H5 & Hs5). cbn [ch].
  change (negb (negb (chr ")" =? 0) && has_chr (zstr ")") (chr ")"))) with false. cbv iota.
  destruct (tok_sym s5 _ _ H5) as (q6 & e6 & s6 & -> & H6 & Hs6); [by apply (bool_decide_unpack _)|]. pose proof (proj1 H6).
  destruct (parseredirs_read k s6 rs t H6 Hrs Hst) as (rs' & s7 & -> & Hrd & H7 & Hs7); [apply (follow_peek _ _ _ Hf); chars|lia|].
  cbn [mbind pres_bind]. eexists _, s7. split; [reflexivity|]. split; [by rewrite read_wrap, Hc, Hrd|]. split; [done|lia].
Qed.

Lemma parseback_read n k c s t :
  txt s (strip (amps n ++ t)) -> follow (zstr ");") t -> (length buf - s < k)%nat ->
  reads (parseback buf k c s) s (Nat.iter n SBack (as_read buf c)) t.
Proof.
  intros Ht Hf. revert k c s Ht. induction n as [|n IH]; intros [|k] c s Ht Hk; try lia; cbn [parseback].
  - cbn [amps replicate concat app] in Ht. destruct (peek_txt s _ (zstr "&") Ht) as (s1 & -> & H1 & Hs1).
    rewrite (follow_peek _ _ _ Hf) by chars. cbn [negb]. by exists c, s1.
  - change (strip _) with (chr "&" :: amps n ++ t) in Ht. destruct (peek_txt s _ (zstr "&") Ht) as (s1 & -> & H1 & Hs1).
    cbn [ch]. change (negb (negb (chr "&" =? 0) && has_chr (zstr "&") (chr "&"))) with false. cbv iota.
    destruct (tok_sym s1 _ _ H1) as (q & e & s2 & -> & H2 & Hs2); [by apply (bool_decide_unpack _)|]. pose proof (proj1 H2).
    destruct (IH k (CBack c) s2 H2 ltac:(lia)) as (c' & s3 & -> & Hc & H3 & Hs3). exists c', s3. split; [done|].
    split; [|split; [done|lia]]. rewrite Hc, Nat.iter_succ_r. done.
Qed.

Lemma pipe_back c : reads_pipe c -> pr 2 c = pr 1 c -> reads_back c.
Proof.
  intros Hp He n k s t Ht Hf Hk. rewrite He in Ht.
  destruct (Hp k s (amps n ++ t) Ht) as (c1 & s1 & -> & Hc & H1 & Hs1).
  { destruct n as [|n]; [eapply follow_mono; [exact Hf|chars]|].
    apply (follow_sym _ (chr "&")); [by apply (bool_decide_unpack _)|done]. }
  { done. }
  cbn [mbind pres_bind]. pose proof (proj1 H1). destruct (parseback_read n k c1 s1 t H1 Hf) as (c2 & s2 & -> & Hc2 & H2 & Hs2); [lia|].
  exists c2, s2. split; [done|]. split; [by rewrite Hc2, Hc|]. split; [done|lia].
Qed.

Lemma back_more c : reads_back c -> reads_back (SBack c).
Proof.
  intros Hb n k s t Ht Hf Hk. cbn [pr Nat.ltb Nat.leb paren] in Ht. rewrite <- app_assoc in Ht.
  rewrite <- Nat.iter_succ_r. by apply (Hb (S n) k s t).
Qed.

Lemma back_line c : reads_back c -> pr 3 c = pr 2 c -> reads_line c.
Proof.
  intros Hb He k s t Ht Hf Hk. destruct k as [|k]; [lia|]. rewrite He in Ht. cbn [parseline].
  destruct (Hb 0%nat k s t Ht) as (c' & s1 & Hr & Hc & H1 & Hs1); [eapply follow_mono; [exact Hf|chars]|lia|].
  cbn [Nat.iter] in Hc. destruct (parsepipe buf k s) as [[c0 s0]| |]; [|done|done]. cbn [mbind pres_bind] in *. rewrite Hr. cbn [mbind pres_bind].
  destruct (peek_txt s1 _ (zstr ";") H1) as (s2 & -> & H2 & Hs2). rewrite (follow_peek _ _ _ Hf) by chars.
  exists c', s2. split_and!; [done|done|done|lia].
Qed.

Lemma line_list l r : reads_back l -> reads_line r -> reads_line (SList l r).
Proof.
  intros Hb Hr k s t Ht Hf Hk. destruct k as [|k]; [lia|]. cbn [pr Nat.ltb Nat.leb paren parseline] in *.
  rewrite <- !app_assoc in Ht. set (T := 32 :: chr ";" :: pr 3 r ++ t).
  destruct (Hb 0%nat k s T Ht) as (l' & s1 & Hrl & Hc & H1 & Hs1); [apply follow_sym; [by apply (bool_decide_unpack _)|done]|lia|].
  cbn [Nat.iter] in Hc. destruct (parsepipe buf k s) as [[c0 s0]| |]; [|done|done]. cbn [mbind pres_bind] in *. rewrite Hrl. cbn [mbind pres_bind].
  change (strip T) with (chr ";" :: pr 3 r ++ t) in H1. destruct (peek_txt s1 _ (zstr ";") H1) as (s2 & -> & H2 & Hs2). cbn [ch].
  change (negb (chr ";" =? 0) && has_chr (zstr ";") (chr ";")) with true. cbv iota.
  destruct (tok_sym s2 _ _ H2) as (q & e & s3 & -> & H3 & Hs3); [by apply (bool_decide_unpack _)|]. pose proof (proj1 H3).
  destruct (Hr k s3 t H3 Hf) as (r' & s4 & -> & Hcr & H4 & Hs4); [lia|]. cbn [mbind pres_bind].
  eexists _, s4. split; [reflexivity|]. split; [cbn; by f_equal|]. split; [done|lia].
Qed.

Lemma reads_all c : scmd_ok c -> reads_exec c /\ reads_pipe c /\ reads_back c /\ reads_line c.
Proof.
  induction c as [argv|c IH f mode fd|l IHl r IHr|l IHl r IHr|c IH]; cbn [scmd_ok].
  - intros [Hw Hl]. pose proof (exec_words argv Hw Hl) as He. pose proof (exec_pipe _ He eq_refl) as Hp.
    pose proof (pipe_back _ Hp eq_refl) as Hb. auto using back_line.
  - intros (Hc & Hf & Hm). destruct (IH Hc) as (He0 & _). pose proof (exec_redir c f mode fd Hf Hm He0) as He.
    pose proof (exec_pipe _ He eq_refl) as Hp. pose proof (pipe_back _ Hp eq_refl) as Hb. auto using back_line.
  - intros [Hl Hr]. destruct (IHl Hl) as (Hel & _), (IHr Hr) as (_ & Hpr & _). pose proof (pipe_both l r Hel Hpr) as Hp.
    pose proof (pipe_back _ Hp eq_refl) as Hb. pose proof (back_line _ Hb eq_refl) as Hli. auto using exec_paren.
  - intros [Hl Hr]. destruct (IHl Hl) as (_ & _ & Hbl & _), (IHr Hr) as (_ & _ & _ & Hlr). pose proof (line_list l r Hbl Hlr) as Hli.
    pose proof (exec_paren _ Hli eq_refl) as He. pose proof (exec_pipe _ He eq_refl) as Hp. auto using pipe_back.
  - intros Hc. destruct (IH Hc) as (_ & _ & Hb0 & _). pose proof (back_more c Hb0) as Hb. pose proof (back_line _ Hb eq_refl) as Hli.
    pose proof (exec_paren _ Hli eq_refl) as He. auto using exec_pipe.
Qed.

End Print.

(** ** [parsecmd] *)

Lemma pr_nonzero lv c : scmd_ok c -> Forall (fun c => c <> 0) (pr lv c).
Proof.
  revert lv. assert (Hw : forall w, word_ok w -> Forall (fun c => c <> 0) w) by
    (intros w [_ H]; eapply Forall_impl; [exact H|]; by intros x [_ ?]).
  assert (Hp : forall b t, Forall (fun c => c <> 0) t -> Forall (fun c => c <> 0) (paren b t)).
  { intros [] t Ht; [|done]. unfold paren. rewrite !Forall_app. split_and!; [by repeat constructor|done|by repeat constructor]. }
  induction c as [argv|c IH f mode fd|l IHl r IHr|l IHl r IHr|c IH]; intros lv; cbn [scmd_ok pr].
  - intros [Hws _]. induction Hws as [|w ws Hw1 _ IH]; [done|]. cbn. constructor; [done|]. apply Forall_app. split; [by apply Hw|done].
  - intros (Hc & Hf & _). rewrite !Forall_app. split_and!; [by apply IH| |by apply Hw].
    unfold redir_sym. repeat case_match; by repeat constructor.
  - intros [Hl Hr]. apply Hp. rewrite !Forall_app. split_and!; [by apply IHl|by repeat constructor|by apply IHr].
  - intros [Hl Hr]. apply Hp. rewrite !Forall_app. split_and!; [by apply IHl|by repeat constructor|by apply IHr].
  - intros Hc. apply Hp. rewrite Forall_app. split; [by apply IH|by repeat constructor].
Qed.

Lemma peek_end buf s : (s <= length buf)%nat -> strip (drop s buf) = [] -> skip_space buf s = length buf.
Proof.
  intros Hs Ht. destruct (skip_while_spec buf (has_chr whitespace) s Hs) as (H1 & _). fold (skip_space buf s) in H1.
  pose proof (drop_skip_space buf s Hs) as Hd. rewrite Ht in Hd. apply (f_equal length) in Hd. rewrite length_drop in Hd. cbn in Hd. lia.
Qed.

Section ParseCmd.
Context `{StreamOS}.

(** C20 The parser reads back what is printed: for every command (of words without
    blanks and symbols, with fewer than ten arguments each) the shell's parser
    turns its text, with parentheses where they are needed, into a command that
    runs with exactly these words, redirections, pipes and lists. *)
Theorem parse_print c tl w :
  scmd_ok c -> exists c' buf', parsecmd (pr 3 c ++ 10 :: 0 :: tl) w = UOk (c', buf') w /\ as_run buf' c' = c.
Proof.
  intros Hc. unfold parsecmd. set (buf := pr 3 c ++ [10]).
  assert (Hnz : Forall (fun c => c <> 0) buf) by (apply Forall_app; split; [by apply pr_nonzero|by repeat constructor]).
  assert (Hcs : cstr (pr 3 c ++ 10 :: 0 :: tl) = buf).
  { replace (pr 3 c ++ 10 :: 0 :: tl) with (buf ++ 0 :: tl) by (unfold buf; by rewrite <- app_assoc). by apply cstr_app_zero. }
  rewrite Hcs. destruct (reads_all buf c Hc) as (_ & _ & _ & Hl).
  destruct (Hl (parse_fuel buf) 0%nat [10]) as (c' & s' & Hp & Hr & [Hs Ht] & _).
  { split; [lia|]. done. } { split; [by right|by left]. } { unfold parse_fuel. lia. }
  pose proof (parse_ok buf Hnz (parse_fuel buf) 0%nat ltac:(lia)) as [Hok _]. rewrite Hp in *.
  destruct Hok as [Hok _]; [unfold parse_fuel; lia|].
  unfold peek. rewrite (peek_end buf s' Hs Ht), Nat.eqb_refl. cbn [negb].
  exists c', (nulterminate c' buf). split; [done|]. by rewrite (nulterminate_words buf c' Hnz Hok).
Qed.

(** The shell gives up with a message. *)
Definition gives_up {A} (r : ures world A) (w : world) : Prop :=
  exists w1 w2 m1 m2, emitted 2 m1 w w1 /\ emitted 2 m2 w1 w2 /\ r = UExit 1 w2.

Lemma panic_run {A} msg w : exists w', @panic _ A msg w = UExit 1 w' /\ emitted 2 (cstr msg ++ [10]) w w'.
Proof.
  destruct (vprintf_run 2 (nl (zstr "%s")) 0 false [astr msg] (cstr msg ++ [10]) w) as (w' & Hw & He); [reflexivity|].
  exists w'. split; [|done]. unfold panic. by rewrite (ubind_ok _ _ _ _ _ Hw).
Qed.

(** C37 The parser is total and safe: on every line it stops, with a message and
    exit status 1, or with a command whose words are words of the line, at most
    nine to a command, and marking their ends in place changes none of them. *)
Theorem parse_total s w :
  (exists c buf', parsecmd s w = UOk (c, buf') w /\ cmd_ok (cstr s) c /\ as_run buf' c = as_read (cstr s) c) \/
  gives_up (parsecmd s w) w.
Proof.
  set (buf := cstr s). pose proof (cstr_nonzero s : Forall (fun c => c <> 0) buf) as Hnz. unfold parsecmd. fold buf.
  pose proof (parse_ok buf Hnz (parse_fuel buf) 0%nat ltac:(lia)) as [Hok _].
  specialize (Hok ltac:(unfold parse_fuel; lia)). destruct (parseline buf (parse_fuel buf) 0%nat) as [[c e]|msg|]; [|right|done].
  - destruct Hok as [Hok He]. destruct (peek buf e []) as [p e'].
    destruct (e' =? length buf)%nat; cbn [negb]; [left|right].
    + exists c, (nulterminate c buf). split; [done|]. split; [done|]. by apply nulterminate_words.
    + destruct (vprintf_run 2 (nl (zstr "leftovers: %s")) 0 false [astr (drop e' buf)]
        (zstr "leftovers: " ++ cstr (drop e' buf) ++ [10]) w) as (w1 & H1 & E1); [reflexivity|].
      destruct (panic_run (A := cmd * list Z) (zstr "syntax") w1) as (w2 & H2 & E2).
      exists w1, w2. eexists _, _. split; [exact E1|]. split; [exact E2|]. unfold ufprintf, vprintf. by rewrite (ubind_ok _ _ _ _ _ H1).
  - destruct (panic_run (A := cmd * list Z) msg w) as (w2 & H2 & E2). exists w, w2. eexists [], _.
    split; [apply emitted_nil|]. split; [exact E2|]. exact H2.
Qed.

End ParseCmd.

(** A line with all the constructs. *)
Definition sample_cmd : scmd :=
  SList (SBack (SPipe (SExec [zstr "ls"; zstr "-l"])
                      (SRedir (SExec [zstr "wc"]) (zstr "out") (Z.lor (Z.lor O_WRONLY O_CREATE) O_TRUNC) 1)))
        (SPipe (SRedir (SList (SExec [zstr "a"]) (SExec [zstr "b"])) (zstr "in") O_RDONLY 0) (SExec [zstr "c"])).

Lemma sample_cmd_ok : scmd_ok sample_cmd.
Proof.
  assert (Hw : forall w, bool_decide (w <> [] /\ Forall (fun c => word_char c = true /\ c <> 0) w) = true -> word_ok w)
    by (intros w Hd; by apply bool_decide_eq_true in Hd).
  cbn [scmd_ok sample_cmd]. repeat match goal with
  | |- word_ok _ => apply Hw; vm_compute; reflexivity
  | |- Forall word_ok _ => constructor
  | |- (_ < _)%nat => unfold MAXARGS; cbn; lia
  | |- mode_ok _ _ => unfold mode_ok; apply (bool_decide_unpack _); vm_compute; exact I
  | |- _ /\ _ => split
  end.
Qed.

Lemma parse_print_witness :
  exists c' buf', @parsecmd demo_os (zstr " ls -l | wc > out & ; ( a ; b ) < in | c" ++ [10; 0]) (mkdemo ∅ ∅ 1 []) =
    UOk (c', buf') (mkdemo ∅ ∅ 1 []) /\ as_run buf' c' = sample_cmd.
Proof. exact (@parse_print demo_os sample_cmd [] (mkdemo ∅ ∅ 1 []) sample_cmd_ok). Defined.

(** ** Descriptors

    What the kernel promises of the calls that change the descriptor table: the
    table maps descriptors to open files, and new descriptors are the lowest
    free ones; [dup] succeeds when there is a free one among the first [NOFILE]. *)

Definition lowest_free (m : gmap Z Z) (n : Z) : Prop :=
  0 <= n /\ m !! n = None /\ forall i, 0 <= i < n -> is_Some (m !! i).

Class FdOS `{Sys : UserOS} : Type := {
  fds : world -> gmap Z Z;
  next_forks : world -> list Z;
  (** The open file that [open] makes of a path and a mode. *)
  file_of : list Z -> Z -> Z;
  fd_close fd w : exists r w', sys_close fd w = (r, w') /\ fds w' = delete fd (fds w) /\ next_forks w' = next_forks w;
  fd_dup fd w f n : fds w !! fd = Some f -> lowest_free (fds w) n -> n < NOFILE ->
    exists w', sys_dup fd w = (n, w') /\ fds w' = <[n := f]> (fds w) /\ next_forks w' = next_forks w;
  fd_open path mode w : exists r w', sys_open path mode w = (r, w') /\ next_forks w' = next_forks w /\
    ((r = -1 /\ fds w' = fds w) \/ (lowest_free (fds w) r /\ fds w' = <[r := file_of path mode]> (fds w)));
  fd_pipe w : exists r p0 p1 w', sys_pipe w = ((r, (p0, p1)), w') /\ next_forks w' = next_forks w /\
    ((r = -1 /\ fds w' = fds w) \/
     (r = 0 /\ exists rd wr, lowest_free (fds w) p0 /\ lowest_free (<[p0 := rd]> (fds w)) p1 /\
        fds w' = <[p1 := wr]> (<[p0 := rd]> (fds w))));
  fd_fork w r rs : next_forks w = r :: rs -> exists w', sys_fork w = (r, w') /\ fds w' = fds w /\ next_forks w' = rs;
  fd_wait w : exists r w', sys_wait w = (r, w') /\ fds w' = fds w /\ next_forks w' = next_forks w
}.
Arguments fds {_ _} w.
Arguments next_forks {_ _} w.
Arguments file_of {_ _} path mode.

Section Plumbing.
Context `{FdOS}.

Lemma ucall_run {A} (f : world -> A * world) w a w' : f w = (a, w') -> ucall f w = UOk a w'.
Proof. unfold ucall. by intros ->. Qed.

(** Put the end [p] of a pipe in the place of [d], and drop both ends. *)
Definition put_end (d p p0 p1 : Z) : U unit := uclose d;; udup p;; uclose p0;; uclose p1;; mret ().

Lemma put_end_run d p p0 p1 f w m :
  fds w !! p = Some f -> p <> d -> 0 <= d < NOFILE -> (forall i, 0 <= i < d -> is_Some (m !! i)) ->
  m !! p0 = None -> m !! p1 = None -> d <> p0 -> d <> p1 -> (forall i, i <> p0 -> i <> p1 -> fds w !! i = m !! i) ->
  exists w', put_end d p p0 p1 w = UOk () w' /\ fds w' = <[d := f]> m /\ next_forks w' = next_forks w.
Proof.
  intros Hp Hne Hd Hlow H0 H1 Hd0 Hd1 Hm. unfold put_end.
  destruct (fd_close d w) as (r1 & w1 & E1 & F1 & K1). unfold uclose. rewrite (ubind_ok _ _ _ _ _ (ucall_run _ _ _ _ E1)).
  assert (Hfree : lowest_free (fds w1) d).
  { rewrite F1. split; [lia|]. split; [apply lookup_delete_eq|]. intros i Hi. rewrite lookup_delete_ne by lia.
    destruct (Hlow i Hi) as [x Hx]. rewrite Hm; [by exists x|congruence..]. }
  destruct (fd_dup p w1 f d) as (w2 & E2 & F2 & K2); [by rewrite F1, lookup_delete_ne|done|lia|].
  unfold udup. rewrite (ubind_ok _ _ _ _ _ (ucall_run _ _ _ _ E2)).
  destruct (fd_close p0 w2) as (r3 & w3 & E3 & F3 & K3). rewrite (ubind_ok _ _ _ _ _ (ucall_run _ _ _ _ E3)).
  destruct (fd_close p1 w3) as (r4 & w4 & E4 & F4 & K4). rewrite (ubind_ok _ _ _ _ _ (ucall_run _ _ _ _ E4)).
  exists w4. split; [done|]. split; [|congruence]. apply map_eq. intros i. rewrite F4, F3, F2, F1.
  destruct (decide (i = p1)) as [->|Hi1]; [by rewrite lookup_delete_eq, lookup_insert_ne|]. rewrite lookup_delete_ne by done.
  destruct (decide (i = p0)) as [->|Hi0]; [by rewrite lookup_delete_eq, lookup_insert_ne|]. rewrite lookup_delete_ne by done.
  destruct (decide (i = d)) as [->|Hid]; [by rewrite !lookup_insert_eq|]. by rewrite !lookup_insert_ne, lookup_delete_ne, Hm.
Qed.

Lemma put_end_bind d p p0 p1 (m : U unit) w w' :
  put_end d p p0 p1 w = UOk () w' -> (uclose d;; udup p;; uclose p0;; uclose p1;; m) w = m w'.
Proof.
  unfold put_end, mbind, U_bind. repeat case_match; try discriminate. cbn. by intros [= ->].
Qed.

Lemma fork1_run w f rs : next_forks w = f :: rs -> 0 <= f -> exists w', fork1 w = UOk f w' /\ fds w' = fds w /\ next_forks w' = rs.
Proof.
  intros Hf Hp. destruct (fd_fork w f rs Hf) as (w' & E & F & K). exists w'. split; [|done].
  unfold fork1, ufork. rewrite (ubind_ok _ _ _ _ _ (ucall_run _ _ _ _ E)). by rewrite (proj2 (Z.eqb_neq _ _)) by lia.
Qed.

(** C35 The shell connects a pipeline: when [pipe] succeeds, the first child runs
    the left command with its standard output replaced by the pipe's write end,
    the second child runs the right command with its standard input replaced by
    the read end, every other descriptor of both is as the shell had it, so that
    neither keeps an end of the pipe open by accident, and the shell process
    itself exits with its descriptors as they were before the pipe. *)
Theorem pipe_plumbing buf l r w p0 p1 w1 f1 rs :
  is_Some (fds w !! 0) -> is_Some (fds w !! 1) -> sys_pipe w = ((0, (p0, p1)), w1) -> next_forks w = f1 :: rs ->
  exists rd wr, fds w1 = <[p1 := wr]> (<[p0 := rd]> (fds w)) /\
    (f1 = 0 -> exists w2, runcmd buf (CPipe l r) w = runcmd buf l w2 /\ fds w2 = <[1 := wr]> (fds w)) /\
    (forall f2 rs', 0 < f1 -> rs = f2 :: rs' ->
      (f2 = 0 -> exists w2, runcmd buf (CPipe l r) w = runcmd buf r w2 /\ fds w2 = <[0 := rd]> (fds w)) /\
      (0 < f2 -> exists w2, runcmd buf (CPipe l r) w = UExit 0 w2 /\ fds w2 = fds w)).
Proof.
  intros [i0 H0] [i1 H1] Hp Hf. destruct (fd_pipe w) as (e & q0 & q1 & w1' & Hp' & Kp & Hc). rewrite Hp in Hp'.
  injection Hp' as <- <- <- <-. destruct Hc as [[? _]|(_ & rd & wr & (L0 & N0 & _) & (L1 & N1 & _) & F1)]; [done|].
  exists rd, wr. split; [done|].
  assert (Hne : p0 <> 0 /\ p0 <> 1 /\ p1 <> 0 /\ p1 <> 1 /\ p0 <> p1).
  { split_and!; intros ->; try congruence; try (rewrite lookup_insert_ne in N1 by (intros ->; congruence); congruence).
    by rewrite lookup_insert_eq in N1. }
  destruct Hne as (N00 & N01 & N10 & N11 & N2). rewrite lookup_insert_ne in N1 by done.
  assert (Hm : forall w', fds w' = fds w1 -> forall i, i <> p0 -> i <> p1 -> fds w' !! i = fds w !! i).
  { intros w' -> i Hi0 Hi1. by rewrite F1, !lookup_insert_ne. }
  assert (Hr0 : fds w1 !! p0 = Some rd) by (by rewrite F1, lookup_insert_ne, lookup_insert_eq).
  assert (Hr1 : fds w1 !! p1 = Some wr) by (by rewrite F1, lookup_insert_eq).
  cbn [runcmd]. unfold upipe. rewrite (ubind_ok _ _ _ _ _ (ucall_run _ _ _ _ Hp)). cbn [Z.ltb Z.compare].
  split.
  - intros ->. destruct (fork1_run w1 0 rs) as (w2 & Ef & Ff & _); [congruence|lia|]. rewrite (ubind_ok _ _ _ _ _ Ef). cbn [Z.eqb].
    destruct (put_end_run 1 p1 p0 p1 wr w2 (fds w)) as (w3 & Ep & F3 & _); [congruence|done|unfold NOFILE; lia| |done|done|congruence|congruence|by apply Hm|].
    { intros i Hi. assert (i = 0) as -> by lia. by exists i0. }
    exists w3. split; [|done]. exact (put_end_bind _ _ _ _ (runcmd buf l) w2 w3 Ep).
  - intros f2 rs' Hf1 ->. destruct (fork1_run w1 f1 (f2 :: rs')) as (w2 & Ef & Ff & Kf); [congruence|lia|].
    rewrite (ubind_ok _ _ _ _ _ Ef), (proj2 (Z.eqb_neq f1 0)) by lia. split.
    + intros ->. destruct (fork1_run w2 0 rs' Kf) as (w3 & Ef3 & Ff3 & _); [lia|]. rewrite (ubind_ok _ _ _ _ _ Ef3). cbn [Z.eqb].
      destruct (put_end_run 0 p0 p0 p1 rd w3 (fds w)) as (w4 & Ep & F4 & _);
        [congruence|done|unfold NOFILE; lia|lia|done|done|congruence|congruence|apply Hm; congruence|].
      exists w4. split; [|done]. exact (put_end_bind _ _ _ _ (runcmd buf r) w3 w4 Ep).
    + intros Hf2. destruct (fork1_run w2 f2 rs' Kf) as (w3 & Ef3 & Ff3 & _); [lia|].
      rewrite (ubind_ok _ _ _ _ _ Ef3), (proj2 (Z.eqb_neq f2 0)) by lia. unfold uclose, uwait.
      destruct (fd_close p0 w3) as (r4 & w4 & E4 & F4 & _). rewrite (ubind_ok _ _ _ _ _ (ucall_run _ _ _ _ E4)).
      destruct (fd_close p1 w4) as (r5 & w5 & E5 & F5 & _). rewrite (ubind_ok _ _ _ _ _ (ucall_run _ _ _ _ E5)).
      destruct (fd_wait w5) as (r6 & w6 & E6 & F6 & _). rewrite (ubind_ok _ _ _ _ _ (ucall_run _ _ _ _ E6)).
      destruct (fd_wait w6) as (r7 & w7 & E7 & F7 & _). rewrite (ubind_ok _ _ _ _ _ (ucall_run _ _ _ _ E7)).
      exists w7. split; [done|]. rewrite F7, F6, F5, F4, Ff3, Ff, F1. rewrite delete_insert_ne by done.
      by rewrite (delete_insert_id (fds w) p0), delete_insert_id by done.
Qed.

(** C38 Redirections: the file takes the place of standard input or output, and
    every other descriptor stays. *)
Theorem redir_plumbing buf c file efile mode fd w r w1 :
  is_Some (fds w !! 0) -> fd = 0 \/ fd = 1 -> (uclose fd;; uopen (str_at buf file) mode) w = UOk r w1 -> 0 <= r ->
  r = fd /\ fds w1 = <[fd := file_of (str_at buf file) mode]> (fds w) /\
  runcmd buf (CRedir c file efile mode fd) w = runcmd buf c w1.
Proof.
  intros [i0 H0] Hfd Hr Hpos. cbn [runcmd]. unfold uclose, uopen in *.
  destruct (fd_close fd w) as (r0 & w0 & E0 & F0 & _). rewrite (ubind_ok _ _ _ _ _ (ucall_run _ _ _ _ E0)) in Hr.
  rewrite (ubind_ok _ _ _ _ _ (ucall_run _ _ _ _ E0)).
  destruct (fd_open (str_at buf file) mode w0) as (r1 & w1' & E1 & _ & Hc). rewrite (ucall_run _ _ _ _ E1) in Hr. injection Hr as <- <-.
  rewrite (ubind_ok _ _ _ _ _ (ucall_run _ _ _ _ E1)), (proj2 (Z.ltb_ge _ _)) by done.
  destruct Hc as [[-> _]|((L1 & L2 & L3) & F1)]; [lia|]. rewrite F0 in L2, L3, F1.
  assert (r1 = fd) as ->.
  { destruct (decide (r1 = fd)) as [|Hne]; [done|]. rewrite lookup_delete_ne in L2 by done.
    destruct (decide (fd < r1)) as [Hlt|]; [destruct (L3 fd ltac:(lia)) as [x Hx]; by rewrite lookup_delete_eq in Hx|].
    assert (r1 = 0) as -> by lia. congruence. }
  split; [done|]. split; [|done]. by rewrite F1, insert_delete_eq.
Qed.

End Plumbing.

(** ** A system with a descriptor table *)

Record fworld : Type := mkfw { fw_fds : gmap Z Z; fw_forks : list Z }.

Fixpoint low (n : nat) (fd : Z) (m : gmap Z Z) : Z :=
  match n with
  | O => fd
  | S n' => match m !! fd with None => fd | Some _ => low n' (fd + 1) m end
  end.
Definition low_fd (m : gmap Z Z) : Z := low (S (size m)) 0 m.

Lemma low_spec n fd m : fd <= low n fd m /\ (forall i, fd <= i < low n fd m -> is_Some (m !! i)) /\
  (m !! low n fd m = None \/ low n fd m = fd + Z.of_nat n).
Proof.
  revert fd. induction n as [|n IH]; intros fd; cbn [low]; [split_and!; [lia|lia|right; lia]|].
  destruct (m !! fd) eqn:E; [|split_and!; [lia|lia|by left]].
  destruct (IH (fd + 1)) as (H1 & H2 & H3). split_and!; [lia| |destruct H3; [by left|right; lia]].
  intros i Hi. destruct (decide (i = fd)) as [->|]; [by rewrite E|]. apply H2. lia.
Qed.

Lemma low_free m : lowest_free m (low_fd m).
Proof.
  unfold low_fd. destruct (low_spec (S (size m)) 0 m) as (H1 & H2 & H3). split; [done|]. split; [|done].
  destruct H3 as [|He]; [done|exfalso]. rewrite He in H2.
  assert (Hsub : list_to_set (seqZ 0 (Z.of_nat (S (size m)))) ⊆ dom m).
  { intros i Hi%elem_of_list_to_set%elem_of_seqZ. apply elem_of_dom, H2. lia. }
  apply subseteq_size in Hsub. rewrite size_list_to_set in Hsub by apply NoDup_seqZ. rewrite length_seqZ, size_dom in Hsub. lia.
Qed.

Lemma lowest_free_unique m n n' : lowest_free m n -> lowest_free m n' -> n = n'.
Proof.
  intros (H1 & H2 & H3) (H1' & H2' & H3'). destruct (Z.lt_trichotomy n n') as [Hlt|[->|Hlt]]; [|done|].
  - destruct (H3' n) as [x Hx]; [lia|congruence].
  - destruct (H3 n') as [x Hx]; [lia|congruence].
Qed.

Definition fw_pipe (w : fworld) : (Z * (Z * Z)) * fworld :=
  let p0 := low_fd (fw_fds w) in
  let m := <[p0 := 1000]> (fw_fds w) in
  let p1 := low_fd m in
  ((0, (p0, p1)), mkfw (<[p1 := 1001]> m) (fw_forks w)).

#[export] Instance fd_os : UserOS := {|
  world := fworld;
  sys_open := fun _ _ w => let n := low_fd (fw_fds w) in (n, mkfw (<[n := 7]> (fw_fds w)) (fw_forks w));
  sys_close := fun fd w => (0, mkfw (delete fd (fw_fds w)) (fw_forks w));
  sys_dup := fun fd w => match fw_fds w !! fd with
    | Some f => let n := low_fd (fw_fds w) in
        if n <? NOFILE then (n, mkfw (<[n := f]> (fw_fds w)) (fw_forks w)) else (-1, w)
    | None => (-1, w) end;
  sys_pipe := fw_pipe;
  sys_fork := fun w => match fw_forks w with [] => (-1, w) | r :: rs => (r, mkfw (fw_fds w) rs) end;
  sys_wait := fun w => ((1, 0), w); sys_exec := fun _ _ w => (None, w);
  sys_read := fun _ _ w => ((-1, []), w); sys_write := fun _ bs w => (Z.of_nat (length bs), w);
  sys_fstat := fun _ w => ((-1, mkustat 0 0 0), w); sys_mkdir := fun _ w => (-1, w);
  sys_mknod := fun _ _ _ w => (-1, w); sys_link := fun _ _ w => (-1, w); sys_unlink := fun _ w => (-1, w);
  sys_chdir := fun _ w => (-1, w); sys_kill := fun _ w => (-1, w);
  sys_sbrk := fun _ w => (-1, w); sys_sleep := fun _ w => (0, w); sys_getpid := fun w => (1, w)
|}.

#[export] Instance fd_table : @FdOS fd_os.
Proof.
  unshelve refine (@Build_FdOS fd_os fw_fds fw_forks (fun _ _ => 7) _ _ _ _ _ _).
  - intros fd w. by eexists _, _.
  - intros fd w f n Hf Hn Hlt. cbn -[low_fd Z.ltb] in *. rewrite Hf.
    rewrite (lowest_free_unique (fw_fds w) (low_fd (fw_fds w)) n (low_free _) Hn), (proj2 (Z.ltb_lt _ _)) by done. by eexists.
  - intros path mode w. eexists _, _. split; [reflexivity|]. split; [done|]. right. split; [apply low_free|done].
  - intros w. eexists _, _, _, _. split; [reflexivity|]. split; [done|]. right. split; [done|]. exists 1000, 1001.
    split; [apply low_free|]. split; [apply low_free|done].
  - intros w r rs Hf. cbn. rewrite Hf. by eexists.
  - intros w. by eexists _, _.
Defined.

Definition std_fds : gmap Z Z := {[0 := 5; 1 := 5; 2 := 5]}.

(** Both children and the shell, for a pipeline of two commands. *)
Lemma pipe_plumbing_witness :
  (exists w2, @runcmd fd_os [97; 0; 98; 0] (CPipe (CExec [(0, 1)]) (CExec [(2, 3)]))%nat (mkfw std_fds [0]) =
     UExec [97] [[97]] w2 /\ fw_fds w2 = <[1 := 1001]> std_fds) /\
  (exists w2, @runcmd fd_os [97; 0; 98; 0] (CPipe (CExec [(0, 1)]) (CExec [(2, 3)]))%nat (mkfw std_fds [3; 0]) =
     UExec [98] [[98]] w2 /\ fw_fds w2 = <[0 := 1000]> std_fds).
Proof.
  set (c1 := CExec [(0, 1)]%nat). set (c2 := CExec [(2, 3)]%nat). split.
  - destruct (@pipe_plumbing fd_os fd_table [97; 0; 98; 0] c1 c2 (mkfw std_fds [0]) 3 4
      (mkfw (<[4 := 1001]> (<[3 := 1000]> std_fds)) [0]) 0 []) as (rd & wr & Hm & H1 & _);
      [vm_compute; by eexists|vm_compute; by eexists|vm_compute; reflexivity|reflexivity|].
    destruct (H1 eq_refl) as (w2 & E & F). exists w2. rewrite E. split; [reflexivity|]. change (fds w2) with (fw_fds w2) in F.
    rewrite F. f_equal. apply (f_equal (fun m => m !! 4)) in Hm. vm_compute in Hm. congruence.
  - destruct (@pipe_plumbing fd_os fd_table [97; 0; 98; 0] c1 c2 (mkfw std_fds [3; 0]) 3 4
      (mkfw (<[4 := 1001]> (<[3 := 1000]> std_fds)) [3; 0]) 3 [0]) as (rd & wr & Hm & _ & H2);
      [vm_compute; by eexists|vm_compute; by eexists|vm_compute; reflexivity|reflexivity|].
    destruct (H2 0 [] ltac:(lia) eq_refl) as [H3 _]. destruct (H3 eq_refl) as (w2 & E & F). exists w2. rewrite E.
    split; [reflexivity|]. change (fds w2) with (fw_fds w2) in F. rewrite F. f_equal.
    apply (f_equal (fun m => m !! 3)) in Hm. vm_compute in Hm. congruence.
Defined.

Lemma redir_plumbing_witness :
  exists w1, fw_fds w1 = <[1 := 7]> std_fds /\
    @runcmd fd_os [97; 0; 98; 0] (CRedir (CExec [(0, 1)]) 2 3 1 1)%nat (mkfw std_fds []) =
    @runcmd fd_os [97; 0; 98; 0] (CExec [(0, 1)])%nat w1.
Proof.
  destruct (@redir_plumbing fd_os fd_table [97; 0; 98; 0] (CExec [(0, 1)]%nat) 2 3 1 1 (mkfw std_fds []) 1
    (mkfw (<[1 := 7]> (delete 1 std_fds)) [])) as (_ & F & E);
    [vm_compute; by eexists|by right|vm_compute; reflexivity|lia|].
  eexists. split; [exact F|exact E].
Defined.
