(* ===== verification/Primes.v ===== *)
(** * user/primes.c

    The sieve as a network of processes: [main] and one process per prime, each
    at a program point of the source, joined by pipes.  A step is one system call
    of one process, in any order.  Which pipe ends a process holds open is
    determined by its program point (the [close] calls it has passed), so the end
    of file is seen exactly when every writer has passed its [close].  A pipe
    holds 512 bytes, 128 numbers; reads and writes are of one number, and 4
    divides 512, so no number is ever split. *)

From stdpp Require Import base gmap strings numbers list.
From S2P Require Import Prelude.

(** ** The program points of [primes] *)

Inductive spc : Type :=
| PNone                       (** not forked yet *)
| PChild                      (** the child of a stage: close(pipefd[0]); primes(pipefd_next); *)
| PStart                      (** close(pipefd[1]); *)
| PRead                       (** if (read(pipefd[0], &prime, sizeof(prime)) != sizeof(prime)) *)
| PReadAgain                  (** if (read(pipefd[0], &prime, sizeof(prime)) == 0) *)
| PPrint (prime : Z)          (** printf("prime %d\n", prime); *)
| PPipe (prime : Z)           (** pipe(pipefd_next); *)
| PFork (prime : Z)           (** if (fork() == 0) *)
| PCloseR (prime : Z)         (** close(pipefd_next[0]); *)
| PLoop (prime : Z)           (** while (read(pipefd[0], &num, sizeof(num)) > 0) *)
| PWrite (prime num : Z)      (** write(pipefd_next[1], &num, sizeof(num)); *)
| PCloseW                     (** close(pipefd_next[1]); *)
| PWait                       (** wait(0); *)
| PCloseIn                    (** close(pipefd[0]); *)
| PExit                       (** exit(0) *)
| PFail.                      (** "primes: read error", exit(1) *)

(** A stage and its input pipe. *)
Record stage : Type := mkstage { st_pc : spc; st_q : list Z }.
Definition go (pc : spc) (s : stage) : stage := mkstage pc (st_q s).

Definition CAP : nat := 128.

(** Does the process hold the write end of the next pipe open? *)
Definition writes_next (pc : spc) : bool :=
  match pc with
  | PFork _ | PCloseR _ | PLoop _ | PWrite _ _ | PCloseW => true
  | _ => false
  end.

Definition exited (s : stage) : bool :=
  match st_pc s with PExit | PFail => true | _ => false end.

(** A write to the next pipe: blocks while it is full, is lost without readers. *)
Definition pipe_put (num : Z) (n : stage) : option stage :=
  if exited n then Some n
  else if (length (st_q n) <? CAP)%nat then Some (mkstage (st_pc n) (st_q n ++ [num])) else None.

(** One system call of a stage: [upw] says whether its pipe has a writer, [nx] is
    the next stage; the result has the new stages and what is printed.  [None] is
    a call that blocks. *)
Definition stage_step (upw : bool) (s : stage) (nx : option stage) : option (stage * option stage * list Z) :=
  let to pc := Some (go pc s, nx, []) in
  match st_pc s with
  | PNone => None
  | PChild => to PStart
  | PStart => to PRead
  | PRead =>
      match st_q s with
      | x :: q => Some (mkstage (PPrint x) q, nx, [])
      | [] => if upw then None else to PReadAgain
      end
  | PReadAgain =>
      match st_q s with
      | x :: q => Some (mkstage PFail q, nx, [])
      | [] => if upw then None else to PCloseIn
      end
  | PPrint p => Some (go (PPipe p) s, nx, [p])
  | PPipe p => Some (go (PFork p) s, Some (mkstage PNone []), [])
  | PFork p => match nx with Some n => Some (go (PCloseR p) s, Some (go PChild n), []) | None => None end
  | PCloseR p => to (PLoop p)
  | PLoop p =>
      match st_q s with
      | x :: q => Some (mkstage (if x mod p =? 0 then PLoop p else PWrite p x) q, nx, [])
      | [] => if upw then None else to PCloseW
      end
  | PWrite p x =>
      match nx with
      | Some n => n' ← pipe_put x n; Some (go (PLoop p) s, Some n', [])
      | None => None
      end
  | PCloseW => to PWait
  | PWait => match nx with Some n => if exited n then to PCloseIn else None | None => None end
  | PCloseIn => to PExit
  | PExit | PFail => None
  end.

(** ** The program points of [main] *)

Inductive mpc : Type :=
| MPipe | MFork | MClose | MFeed (i : Z) | MCloseW | MWait | MExit.

Definition mwrites (f : mpc) : bool :=
  match f with MFork | MClose | MFeed _ | MCloseW => true | _ => false end.

(** [main] feeds the numbers 2 to [n] (280 in the source). *)
Definition main_step (n : Z) (f : mpc) (nx : option stage) : option (mpc * option stage) :=
  match f with
  | MPipe => Some (MFork, Some (mkstage PNone []))
  | MFork => match nx with Some s => Some (MClose, Some (go PStart s)) | None => None end
  | MClose => Some (MFeed 2, nx)
  | MFeed i =>
      if i <=? n then
        match nx with Some s => s' ← pipe_put i s; Some (MFeed (i + 1), Some s') | None => None end
      else Some (MCloseW, nx)
  | MCloseW => Some (MWait, nx)
  | MWait => match nx with Some s => if exited s then Some (MExit, nx) else None | None => None end
  | MExit => None
  end.

(** ** The network *)

Definition set_head (nx : option stage) (rest : list stage) : list stage :=
  match nx with Some s => s :: tail rest | None => rest end.

(** One step of one of the stages; the stages of the list follow a process that
    has their first pipe's write end open if [upw]. *)
Inductive lstep : bool -> list stage -> list stage -> list Z -> Prop :=
| lstep_here upw s rest s' nx' o :
    stage_step upw s (head rest) = Some (s', nx', o) -> lstep upw (s :: rest) (s' :: set_head nx' rest) o
| lstep_next upw s rest rest' o :
    lstep (writes_next (st_pc s)) rest rest' o -> lstep upw (s :: rest) (s :: rest') o.

Record net : Type := mknet { n_main : mpc; n_stages : list stage; n_out : list Z }.

Inductive nstep (n : Z) : net -> net -> Prop :=
| nstep_main f sts out f' nx' :
    main_step n f (head sts) = Some (f', nx') ->
    nstep n (mknet f sts out) (mknet f' (set_head nx' sts) out)
| nstep_stage f sts out sts' o :
    lstep (mwrites f) sts sts' o -> nstep n (mknet f sts out) (mknet f sts' (out ++ o)).

Definition net_start : net := mknet MPipe [] [].

(** ** The streams *)

Definition nextT (T : list Z) : list Z :=
  match T with [] => [] | p :: t => filter (fun x => x mod p <> 0) t end.

(** What stage [s :: rest] is yet to receive is [st_q s ++ fut]; its whole stream is [T]. *)
Fixpoint inv (T fut : list Z) (upw : bool) (sts : list stage) : Prop :=
  match sts with
  | [] => fut = T
  | s :: rest =>
      let left := st_q s ++ fut in
      (upw = false -> fut = []) /\
      match st_pc s with
      | PNone | PChild | PStart | PRead => left = T /\ rest = []
      | PReadAgain => T = [] /\ left = [] /\ rest = [] /\ upw = false
      | PPrint p | PPipe p => T = p :: left /\ rest = []
      | PFork p => T = p :: left /\ rest = [mkstage PNone []]
      | PCloseR p | PLoop p =>
          (exists c, T = p :: c ++ left) /\ inv (nextT T) (filter (fun x => x mod p <> 0) left) true rest /\
          (exists n r, rest = n :: r /\ st_pc n <> PNone)
      | PWrite p x =>
          (exists c, T = p :: c ++ left) /\ inv (nextT T) (x :: filter (fun x => x mod p <> 0) left) true rest /\
          (exists n r, rest = n :: r /\ st_pc n <> PNone)
      | PCloseW =>
          T <> [] /\ left = [] /\ upw = false /\ inv (nextT T) [] true rest /\
          (exists n r, rest = n :: r /\ st_pc n <> PNone)
      | PWait =>
          T <> [] /\ left = [] /\ upw = false /\ inv (nextT T) [] false rest /\
          (exists n r, rest = n :: r /\ st_pc n <> PNone)
      | PCloseIn | PExit =>
          left = [] /\ upw = false /\
          (T = [] /\ rest = [] \/
           T <> [] /\ inv (nextT T) [] false rest /\ exists n r, rest = n :: r /\ exited n = true)
      | PFail => False
      end
  end.

(** What the stages have printed. *)
Definition has_printed (pc : spc) (T : list Z) : bool :=
  match pc with
  | PNone | PChild | PStart | PRead | PReadAgain | PPrint _ => false
  | PCloseIn | PExit => match T with [] => false | _ => true end
  | _ => true
  end.
Fixpoint printed (T : list Z) (sts : list stage) : list Z :=
  match sts with
  | [] => []
  | s :: rest => if has_printed (st_pc s) T then take 1 T ++ printed (nextT T) rest else []
  end.

(** ** Preservation *)

Lemma inv_put T fut x n r n' :
  inv T (x :: fut) true (n :: r) -> pipe_put x n = Some n' ->
  inv T fut true (n' :: r) /\ printed T (n' :: r) = printed T (n :: r) /\ st_pc n' = st_pc n.
Proof.
  intros Hi Hp. unfold pipe_put in Hp. cbn [inv] in Hi. destruct Hi as [_ Hi].
  destruct (exited n) eqn:Hex.
  - exfalso. unfold exited in Hex. destruct (st_pc n); try discriminate; [|done].
    by destruct Hi as (_ & ? & _).
  - destruct (length (st_q n) <? CAP)%nat; [|done]. injection Hp as <-. cbn [inv printed st_pc st_q].
    rewrite <- app_assoc. split; [|done]. split; [done|exact Hi].
Qed.

Lemma inv_close T sts : inv T [] true sts -> inv T [] false sts.
Proof.
  destruct sts as [|s rest]; [done|]. cbn [inv]. intros [_ Hi]. split; [done|].
  destruct (st_pc s); intuition discriminate.
Qed.

Ltac step_cases Hs :=
  repeat (case_match || (match type of Hs with
    | context [pipe_put ?x ?n] => destruct (pipe_put x n) eqn:?
    end; cbn in Hs)); try discriminate.

Lemma stage_step_pc upw s nx s' nx' o :
  stage_step upw s nx = Some (s', nx', o) -> st_pc s' <> PNone /\ exited s = false.
Proof.
  destruct s as [pc q]. destruct pc; cbn; intros Hs; step_cases Hs; injection Hs as <- <- <-; cbn; done.
Qed.

Lemma lstep_head upw n r sts' o :
  lstep upw (n :: r) sts' o -> exists n' r', sts' = n' :: r' /\
    (st_pc n <> PNone -> st_pc n' <> PNone) /\ (exited n = true -> n' = n).
Proof.
  inversion 1 as [? ? ? s' nx' ? Hs|]; subst; [|by eexists _, _].
  destruct (stage_step_pc _ _ _ _ _ _ Hs) as [H1 H2].
  eexists _, _. split; [reflexivity|]. split; [done|congruence].
Qed.

Lemma filter_cons_mod p x l :
  filter (fun y => y mod p <> 0) (x :: l) =
    if x mod p =? 0 then filter (fun y => y mod p <> 0) l else x :: filter (fun y => y mod p <> 0) l.
Proof.
  rewrite filter_cons. destruct (Z.eqb_spec (x mod p) 0); [rewrite decide_False by tauto|rewrite decide_True by done]; done.
Qed.

Lemma set_head_id rest : set_head (head rest) rest = rest.
Proof. by destruct rest. Qed.

Lemma stage_step_inv T fut upw s rest s' nx' o :
  inv T fut upw (s :: rest) -> stage_step upw s (head rest) = Some (s', nx', o) ->
  inv T fut upw (s' :: set_head nx' rest) /\
  printed T (s' :: set_head nx' rest) = printed T (s :: rest) ++ o.
Proof.
  destruct s as [pc q]. cbn [inv st_pc st_q]. intros [Hf Hi] Hs.
  destruct pc as [| | | | |p|p|p|p|p|p x| | | | |]; cbn in Hs; try discriminate.
  - (* PChild *) injection Hs as <- <- <-. destruct Hi as [Hl ->]. done.
  - injection Hs as <- <- <-. destruct Hi as [Hl ->]. done.
  - (* PRead *) destruct Hi as [Hl ->]. destruct q as [|x q].
    + destruct upw; [discriminate|]. injection Hs as <- <- <-. cbn in *. rewrite Hf in * by done. subst T. done.
    + injection Hs as <- <- <-. cbn in *. done.
  - (* PReadAgain *) destruct Hi as (-> & Hl & -> & ->). destruct q as [|x q]; [|done].
    injection Hs as <- <- <-. cbn in *. split_and!; auto.
  - (* PPrint *) injection Hs as <- <- <-. destruct Hi as [-> ->]. done.
  - (* PPipe *) injection Hs as <- <- <-. destruct Hi as [-> ->]. done.
  - (* PFork *) destruct Hi as [-> ->]. cbn in Hs. injection Hs as <- <- <-. cbn. split; [|done].
    split; [done|]. split; [by exists []|]. split; [|by eexists _, _]. done.
  - (* PCloseR *) injection Hs as <- <- <-. rewrite set_head_id.
    split; [by split|symmetry; apply app_nil_r].
  - (* PLoop *) destruct Hi as ([c ->] & Hi & Hn). destruct q as [|x q].
    + destruct upw; [discriminate|]. injection Hs as <- <- <-. rewrite (Hf eq_refl) in *. cbn [app] in *.
      rewrite set_head_id. split; [|symmetry; apply app_nil_r].
      cbn [inv st_pc st_q go app]. split_and!; [done|done|done|done|exact Hi|exact Hn].
    + injection Hs as <- <- <-. cbn [app] in Hi. rewrite filter_cons_mod in Hi.
      destruct Hn as (n & r & -> & Hn). cbn [head set_head tail]. destruct (x mod p =? 0) eqn:E; cbn [inv st_pc st_q printed has_printed].
      * split; [|symmetry; apply app_nil_r]. split; [done|]. split; [exists (c ++ [x]); by rewrite <- app_assoc|]. split; [done|eauto].
      * split; [|symmetry; apply app_nil_r]. split; [done|]. split; [exists (c ++ [x]); by rewrite <- app_assoc|]. split; [done|eauto].
  - (* PWrite *) destruct Hi as ([c ->] & Hi & (n & r & -> & Hn)). cbn [head] in Hs.
    destruct (pipe_put x n) as [n'|] eqn:Hp; [|discriminate]. cbn in Hs. injection Hs as <- <- <-.
    destruct (inv_put _ _ _ _ _ _ Hi Hp) as (Hi' & Hpr & Hpc). cbn [set_head tail].
    set (T := p :: c ++ q ++ fut) in *.
    split; [|change (take 1 T ++ printed (nextT T) (n' :: r) = (take 1 T ++ printed (nextT T) (n :: r)) ++ []);
      by rewrite Hpr, app_nil_r].
    cbn [inv st_pc st_q go]. split; [done|]. split; [by exists c|]. split; [done|]. exists n', r. by rewrite Hpc.
  - (* PCloseW *) injection Hs as <- <- <-. destruct Hi as (HT & Hl & -> & Hi & (n & r & -> & Hn)).
    cbn [set_head head tail]. split; [|symmetry; apply app_nil_r].
    apply inv_close in Hi. split; [done|]. split; [done|]. split; [done|]. split; [done|].
    split; [exact Hi|eauto].
  - (* PWait *) destruct Hi as (HT & Hl & -> & Hi & (n & r & -> & Hn)). cbn [head] in Hs.
    destruct (exited n) eqn:E; [|discriminate]. injection Hs as <- <- <-. cbn [set_head tail].
    split; [|cbn [printed has_printed st_pc go]; rewrite app_nil_r; by destruct T].
    split; [done|]. split; [done|]. split; [done|]. right. split; [done|]. split; [exact Hi|eauto].
  - (* PCloseIn *) injection Hs as <- <- <-. rewrite set_head_id.
    split; [by split|symmetry; apply app_nil_r].
Qed.

(** The stages behind [s], as [s] sees them. *)
Definition rest_fut (s : stage) (fut : list Z) : list Z :=
  match st_pc s with
  | PCloseR p | PLoop p => filter (fun x => x mod p <> 0) (st_q s ++ fut)
  | PWrite p x => x :: filter (fun x => x mod p <> 0) (st_q s ++ fut)
  | _ => []
  end.

(** A step behind [s] concerns [s] only through the head of the rest. *)
Lemma inv_rest T fut upw s rest rest' o :
  inv T fut upw (s :: rest) -> lstep (writes_next (st_pc s)) rest rest' o ->
  inv (nextT T) (rest_fut s fut) (writes_next (st_pc s)) rest /\
  (inv (nextT T) (rest_fut s fut) (writes_next (st_pc s)) rest' -> inv T fut upw (s :: rest')) /\
  has_printed (st_pc s) T = true.
Proof.
  intros Hi Hs. destruct rest as [|n r]; [by inversion Hs|].
  destruct (lstep_head _ _ _ _ _ Hs) as (n' & r' & -> & Hn1 & Hn2).
  cbn [inv] in Hi. destruct Hi as [Hf Hi]. unfold rest_fut.
  assert (Hex : forall (Q : stage -> Prop), (Q n -> Q n') -> (exists m r0, n :: r = m :: r0 /\ Q m) ->
    exists m r0, n' :: r' = m :: r0 /\ Q m).
  { intros Q HQ (m & r0 & [= <- <-] & Hm). exists n', r'. auto. }
  destruct (st_pc s) eqn:Hpc; try done; try (by destruct Hi as [_ ?]); try (by destruct Hi as (_ & _ & ? & _)).
  1: { destruct Hi as [_ [= -> ->]]. exfalso.
    inversion Hs as [? ? ? ? ? ? Hst|? ? ? ? ? Hst]; subst; [done|inversion Hst]. }
  1-3: (destruct Hi as (Hc & Hi & Hn); split; [exact Hi|]; split; [|done]; intros Hi'; cbn [inv]; rewrite Hpc;
    split; [done|]; split; [done|]; split; [exact Hi'|by apply Hex]).
  1-2: (destruct Hi as (HT & Hl & Hu & Hi & Hn); split; [exact Hi|]; split; [|done]; intros Hi'; cbn [inv]; rewrite Hpc;
    split; [done|]; split; [done|]; split; [done|]; split; [done|]; split; [exact Hi'|by apply Hex]).
  all: destruct Hi as (Hl & Hu & [[_ ?]|(HT & Hi & Hn)]); [done|]; split; [exact Hi|]; split; [|by destruct T];
    intros Hi'; cbn [inv]; rewrite Hpc; split; [done|]; split; [done|]; split; [done|]; right; split; [done|];
    split; [exact Hi'|]; apply (Hex (fun m => exited m = true)); [|done]; intros He; by rewrite (Hn2 He).
Qed.

Lemma lstep_inv T fut upw sts sts' o :
  lstep upw sts sts' o -> inv T fut upw sts ->
  inv T fut upw sts' /\ printed T sts' = printed T sts ++ o.
Proof.
  intros Hs. revert T fut. induction Hs as [upw s rest s' nx' o Hst|upw s rest rest' o Hst IH]; intros T fut Hi.
  - by eapply stage_step_inv.
  - destruct (inv_rest T fut upw s rest rest' o Hi Hst) as (Hr & Hback & Hp).
    destruct (IH _ _ Hr) as [Hr' Hpr]. split; [by apply Hback|].
    cbn [printed]. by rewrite Hp, Hpr, app_assoc.
Qed.

(** ** The whole network *)

Definition numbers (n : Z) : list Z := seqZ 2 (n - 1).
Definition main_fut (n : Z) (f : mpc) : list Z :=
  match f with
  | MPipe | MFork | MClose => numbers n
  | MFeed i => seqZ i (n + 1 - i)
  | _ => []
  end.

Definition shape (n : Z) (f : mpc) (sts : list stage) : Prop :=
  match f with
  | MPipe => sts = []
  | MFork => sts = [mkstage PNone []]
  | MFeed i => i <= n + 1 /\ exists s r, sts = s :: r /\ st_pc s <> PNone
  | MExit => exists s r, sts = s :: r /\ exited s = true
  | _ => exists s r, sts = s :: r /\ st_pc s <> PNone
  end.

Record ninv (n : Z) (w : net) : Prop := mkninv {
  ni_inv : inv (numbers n) (main_fut n (n_main w)) (mwrites (n_main w)) (n_stages w);
  ni_out : n_out w = printed (numbers n) (n_stages w);
  ni_shape : shape n (n_main w) (n_stages w)
}.

Lemma shape_lstep n f sts sts' o : shape n f sts -> lstep (mwrites f) sts sts' o -> shape n f sts'.
Proof.
  intros Hsh Hs. destruct sts as [|s r]; [by inversion Hs|].
  destruct (lstep_head _ _ _ _ _ Hs) as (s' & r' & -> & H1 & H2).
  assert (Hex : forall (Q : stage -> Prop), (Q s -> Q s') -> (exists m r0, s :: r = m :: r0 /\ Q m) ->
    exists m r0, s' :: r' = m :: r0 /\ Q m).
  { intros Q HQ (m & r0 & [= <- <-] & Hm). exists s', r'. auto. }
  destruct f; cbn [shape] in *; try done; try (by apply Hex).
  - injection Hsh as -> ->. exfalso.
    inversion Hs as [? ? ? ? ? ? Hst|? ? ? ? ? Hst]; subst; [done|inversion Hst].
  - destruct Hsh as [Hi Hsh]. split; [done|by apply Hex].
  - apply (Hex (fun m => exited m = true)); [|done]. intros He. by rewrite (H2 He).
Qed.

(** A step of [main]. *)
Lemma main_step_inv n f sts out f' nx' :
  1 <= n -> ninv n (mknet f sts out) -> main_step n f (head sts) = Some (f', nx') ->
  ninv n (mknet f' (set_head nx' sts) out).
Proof.
  intros Hn [Hi Ho Hsh] Hm. cbn [n_main n_stages n_out] in *.
  destruct f as [| | |i| | |]; cbn [main_step shape main_fut mwrites] in *.
  - subst sts. injection Hm as <- <-. by split.
  - subst sts. injection Hm as <- <-. split; [exact Hi|done|]. by eexists _, _.
  - destruct Hsh as (s & r & -> & Hs). injection Hm as <- <-. cbn [head set_head tail].
    split; [|done|split; [cbn; lia|eauto]]. cbn [n_main n_stages main_fut mwrites]. unfold numbers in *.
    by replace (n + 1 - 2) with (n - 1) by lia.
  - destruct Hsh as (Hin & s & r & -> & Hs). cbn [head] in Hm. destruct (Z.leb_spec i n).
    + destruct (pipe_put i s) as [s'|] eqn:Hp; [|done]. cbn in Hm. injection Hm as <- <-. cbn [set_head tail].
      rewrite seqZ_cons in Hi by lia. destruct (inv_put _ _ _ _ _ _ Hi Hp) as (Hi' & Hpr & Hpc).
      split; cbn [n_main n_stages n_out main_fut mwrites shape].
      * replace (Z.succ i) with (i + 1) in Hi' by lia. by replace (n + 1 - (i + 1)) with (Z.pred (n + 1 - i)) by lia.
      * by rewrite Hpr.
      * split; [lia|]. exists s', r. by rewrite Hpc.
    + injection Hm as <- <-. cbn [set_head tail].
      rewrite seqZ_nil in Hi by lia. split; [exact Hi|done|]. by exists s, r.
  - destruct Hsh as (s & r & -> & Hs). injection Hm as <- <-. cbn [head set_head tail].
    split; [by apply inv_close|done|]. by exists s, r.
  - destruct Hsh as (s & r & -> & Hs). cbn [head] in Hm. destruct (exited s) eqn:E; [|done].
    injection Hm as <- <-. cbn [set_head tail]. split; [exact Hi|done|]. by exists s, r.
  - done.
Qed.

Lemma nstep_ninv n w w' : 1 <= n -> nstep n w w' -> ninv n w -> ninv n w'.
Proof.
  intros Hn Hs Hi. destruct Hs as [f sts out f' nx' Hm|f sts out sts' o Hl].
  - by eapply main_step_inv.
  - destruct Hi as [Hi Ho Hsh]. cbn in *. destruct (lstep_inv _ _ _ _ _ _ Hl Hi) as [Hi' Hp].
    split; cbn; [done|by rewrite Ho, Hp|by eapply shape_lstep].
Qed.

(** ** No deadlock *)

Definition hungry (upw : bool) (s : stage) : Prop := st_q s = [] /\ upw = true.

Lemma step_here upw s r s' nx' o :
  stage_step upw s (head r) = Some (s', nx', o) -> exists sts' o', lstep upw (s :: r) sts' o'.
Proof. intros Hs. eexists _, _. by apply lstep_here. Qed.

Lemma step_rest upw s r : (exists sts' o, lstep (writes_next (st_pc s)) r sts' o) ->
  exists sts' o, lstep upw (s :: r) sts' o.
Proof. intros (sts' & o & Hs). eexists _, _. by apply lstep_next. Qed.

Lemma put_ready x n : exited n = true \/ st_q n = [] -> exists n', pipe_put x n = Some n'.
Proof. unfold pipe_put. destruct (exited n); [eauto|]. intros [?|Hq]; [done|]. rewrite Hq. cbn. eauto. Qed.

Lemma stages_progress T fut upw s r :
  inv T fut upw (s :: r) -> st_pc s <> PNone ->
  (exists sts' o, lstep upw (s :: r) sts' o) \/ exited s = true \/ hungry upw s.
Proof.
  revert T fut upw s. induction r as [r IH] using (induction_ltof1 _ length). unfold ltof in IH.
  intros T fut upw [pc q] Hi Hn. cbn [inv st_pc st_q] in Hi. destruct Hi as [_ Hi].
  destruct pc as [| | | | |p|p|p|p|p|p x| | | | |]; try done; try (by left; eapply step_here); try (by right; left).
  - (* PRead *) destruct q; [destruct upw; [by right; right|]|]; left; by eapply step_here.
  - (* PReadAgain *) destruct Hi as (_ & Hl & _ & ->). destruct q; [|done]. left. by eapply step_here.
  - (* PFork *) destruct Hi as [_ ->]. left. by eapply step_here.
  - (* PLoop *) destruct q; [destruct upw; [by right; right|]|]; left; by eapply step_here.
  - (* PWrite *) destruct Hi as (_ & Hi & (n & r' & -> & Hn')). left.
    destruct (IH r' ltac:(cbn; lia) _ _ _ _ Hi Hn') as [Hs|Hs]; [by apply step_rest|].
    destruct (put_ready x n) as [n' Hp]; [destruct Hs as [?|[? _]]; auto|].
    eapply step_here. cbn. by rewrite Hp.
  - (* PWait *) destruct Hi as (_ & _ & _ & Hi & (n & r' & -> & Hn')). left.
    destruct (IH r' ltac:(cbn; lia) _ _ _ _ Hi Hn') as [Hs|[Hs|[_ ?]]]; [by apply step_rest| |done].
    eapply step_here. cbn. by rewrite Hs.
Qed.

Lemma net_progress n w : ninv n w -> n_main w = MExit \/ exists w', nstep n w w'.
Proof.
  destruct w as [f sts out]. intros [Hi _ Hsh]. cbn in *.
  assert (Hstage : forall s r, sts = s :: r -> (exists sts' o, lstep (mwrites f) (s :: r) sts' o) ->
    exists w', nstep n (mknet f sts out) w').
  { intros s r -> (sts' & o & Hs). eexists. by apply nstep_stage. }
  assert (Hmain : forall f' nx', main_step n f (head sts) = Some (f', nx') -> exists w', nstep n (mknet f sts out) w').
  { intros f' nx' Hm. eexists. by apply nstep_main. }
  destruct f as [| | |i| | |]; cbn [shape] in Hsh; [right..|by left].
  - by eapply Hmain.
  - subst sts. by eapply Hmain.
  - destruct Hsh as (s & r & -> & Hs). by eapply Hmain.
  - destruct Hsh as (Hin & s & r & -> & Hs). destruct (Z.leb_spec i n) as [Hle|Hgt].
    + destruct (stages_progress _ _ _ _ _ Hi Hs) as [Hst|Hst]; [by eapply Hstage|].
      destruct (put_ready i s) as [s' Hp]; [destruct Hst as [?|[? _]]; auto|].
      eapply Hmain. cbn. rewrite (proj2 (Z.leb_le _ _)), Hp by done. reflexivity.
    + eapply Hmain. cbn. rewrite (proj2 (Z.leb_gt _ _)) by done. reflexivity.
  - destruct Hsh as (s & r & -> & Hs). by eapply Hmain.
  - destruct Hsh as (s & r & -> & Hs).
    destruct (stages_progress _ _ _ _ _ Hi Hs) as [Hst|[Hst|[_ ?]]]; [by eapply Hstage| |done].
    eapply Hmain. cbn. rewrite Hst. reflexivity.
Qed.

(** ** The sieve *)

(** The first numbers of the streams. *)
Fixpoint heads (k : nat) (T : list Z) : list Z :=
  match k, T with
  | S k', p :: _ => p :: heads k' (nextT T)
  | _, _ => []
  end.

Definition no_div (m x : Z) : bool := forallb (fun d => negb (x mod d =? 0)) (seqZ 2 (m - 2)).
Definition is_prime (x : Z) : bool := (2 <=? x) && no_div x x.

Lemma no_div_spec m x : no_div m x = true <-> forall d, 2 <= d < m -> x mod d <> 0.
Proof.
  unfold no_div. rewrite forallb_forall. split.
  - intros H d Hd. specialize (H d). rewrite <- list_elem_of_In, elem_of_seqZ, negb_true_iff, Z.eqb_neq in H.
    apply H. lia.
  - intros H d Hd%list_elem_of_In%elem_of_seqZ. apply negb_true_iff, Z.eqb_neq, H. lia.
Qed.

Lemma no_div_succ m x : 2 <= m -> no_div (m + 1) x = true <-> no_div m x = true /\ x mod m <> 0.
Proof.
  intros Hm. rewrite !no_div_spec. split.
  - intros H. split; [intros d Hd; apply H; lia|apply H; lia].
  - intros [H1 H2] d Hd. destruct (decide (d = m)) as [->|]; [done|]. apply H1. lia.
Qed.

(** A number with a divisor below [m] divides nothing that has none. *)
Lemma no_div_composite m x : 2 <= m -> no_div m m = false -> no_div m x = true -> x mod m <> 0.
Proof.
  intros Hm Hc Hx Hz.
  assert (Hd : exists d, 2 <= d < m /\ m mod d = 0).
  { unfold no_div in Hc. apply not_true_iff_false in Hc. rewrite forallb_forall in Hc.
    destruct (decide (Exists (fun d => m mod d = 0) (seqZ 2 (m - 2)))) as [He|He].
    - apply Exists_exists in He as (d & Hin%elem_of_seqZ & Hd). exists d. split; [lia|done].
    - exfalso. apply Hc. intros d Hin%list_elem_of_In. apply negb_true_iff, Z.eqb_neq. intros Hd.
      apply He, Exists_exists. eauto. }
  destruct Hd as (d & Hdr & Hd). rewrite no_div_spec in Hx. apply (Hx d Hdr).
  apply Z.mod_divide in Hz; [|lia]. apply Z.mod_divide in Hd; [|lia]. apply Z.mod_divide; [lia|].
  by etrans.
Qed.

Definition survivors (n m : Z) : list Z := filter (fun x => no_div m x = true) (seqZ m (n + 1 - m)).

Lemma survivors_step n m : 2 <= m <= n ->
  if no_div m m then exists t, survivors n m = m :: t /\ nextT (survivors n m) = survivors n (m + 1)
  else survivors n m = survivors n (m + 1).
Proof.
  intros Hm. unfold survivors. rewrite seqZ_cons by lia. replace (Z.pred (n + 1 - m)) with (n + 1 - (m + 1)) by lia.
  replace (Z.succ m) with (m + 1) by lia. destruct (no_div m m) eqn:E.
  - rewrite filter_cons, decide_True by done. eexists. split; [reflexivity|]. cbn [nextT].
    rewrite list_filter_filter. apply list_filter_iff. intros x. rewrite no_div_succ by lia. tauto.
  - rewrite filter_cons, decide_False by congruence. apply list_filter_iff. intros x.
    rewrite no_div_succ by lia. split; [|tauto]. intros Hx. split; [done|]. apply no_div_composite; [lia|done..].
Qed.

Lemma heads_primes n j k m :
  2 <= m -> n + 1 - m = Z.of_nat j -> (j <= k)%nat ->
  heads k (survivors n m) = filter (fun x => is_prime x = true) (seqZ m (n + 1 - m)).
Proof.
  revert k m. induction j as [|j IH]; intros k m Hm Hj Hk.
  - unfold survivors. rewrite seqZ_nil by lia. by destruct k.
  - pose proof (survivors_step n m ltac:(lia)) as Hs. rewrite (seqZ_cons m) by lia.
    replace (Z.pred (n + 1 - m)) with (n + 1 - (m + 1)) by lia. replace (Z.succ m) with (m + 1) by lia.
    destruct (no_div m m) eqn:E.
    + destruct Hs as (t & Ht & Hn). destruct k as [|k]; [lia|]. rewrite filter_cons, decide_True.
      * rewrite Ht. cbn [heads]. f_equal. rewrite <- Ht, Hn. apply IH; lia.
      * unfold is_prime. rewrite E. apply andb_true_iff. split; [apply Z.leb_le; lia|done].
    + rewrite Hs, filter_cons, decide_False; [apply IH; lia|]. unfold is_prime. rewrite E, andb_false_r. done.
Qed.

Definition primes_upto (n : Z) : list Z := filter (fun x => is_prime x = true) (numbers n).

Lemma filter_all {A} (P : A -> Prop) `{forall x, Decision (P x)} (l : list A) : (forall x, P x) -> filter P l = l.
Proof. intros HP. induction l as [|x l IH]; [done|]. rewrite filter_cons, decide_True, IH; done. Qed.

Lemma heads_numbers n : 1 <= n -> heads (length (numbers n)) (numbers n) = primes_upto n.
Proof.
  intros Hn. unfold primes_upto, numbers. replace (n - 1) with (n + 1 - 2) by lia.
  rewrite length_seqZ. rewrite <- (heads_primes n (Z.to_nat (n + 1 - 2)) (Z.to_nat (n + 1 - 2)) 2) by lia.
  f_equal. unfold survivors. symmetry. apply filter_all. done.
Qed.

(** ** What has been printed *)

Lemma nextT_length p t : (length (nextT (p :: t)) <= length t)%nat.
Proof. apply length_filter. Qed.

Lemma heads_unfold k p t : (S (length t) <= k)%nat -> exists k', (length (nextT (p :: t)) <= k')%nat /\
  heads k (p :: t) = p :: heads k' (nextT (p :: t)).
Proof. intros Hk. destruct k as [|k]; [lia|]. exists k. split; [|done]. pose proof (nextT_length p t). lia. Qed.

(** The first number of a stage that has printed, and the rest behind it. *)
Lemma inv_printed T fut upw s rest :
  inv T fut upw (s :: rest) -> has_printed (st_pc s) T = true ->
  exists p t fut' upw', T = p :: t /\ (rest = [] \/ inv (nextT T) fut' upw' rest \/ printed (nextT T) rest = []).
Proof.
  cbn [inv]. intros [_ Hi] Hp. destruct (st_pc s); try done.
  - destruct Hi as [-> ->]. eexists _, _, [], true. auto.
  - destruct Hi as [-> ->]. eexists _, _, [], true. auto.
  - destruct Hi as ([c ->] & Hi & _). eexists _, _, _, _. split; [done|]. right; left; exact Hi.
  - destruct Hi as ([c ->] & Hi & _). eexists _, _, _, _. split; [done|]. right; left; exact Hi.
  - destruct Hi as ([c ->] & Hi & _). eexists _, _, _, _. split; [done|]. right; left; exact Hi.
  - destruct Hi as (HT & _ & _ & Hi & _). destruct T; [done|]. eexists _, _, _, _. split; [done|]. right; left; exact Hi.
  - destruct Hi as (HT & _ & _ & Hi & _). destruct T; [done|]. eexists _, _, _, _. split; [done|]. right; left; exact Hi.
  - destruct Hi as (_ & _ & [[-> _]|(HT & Hi & _)]); [done|]. destruct T; [done|]. eexists _, _, _, _.
    split; [done|]. right; left; exact Hi.
  - destruct Hi as (_ & _ & [[-> _]|(HT & Hi & _)]); [done|]. destruct T; [done|]. eexists _, _, _, _.
    split; [done|]. right; left; exact Hi.
Qed.

Lemma printed_prefix T fut upw sts k :
  inv T fut upw sts -> (length T <= k)%nat -> printed T sts `prefix_of` heads k T.
Proof.
  revert T fut upw k. induction sts as [|s rest IH]; intros T fut upw k Hi Hk; [apply prefix_nil|].
  cbn [printed]. destruct (has_printed (st_pc s) T) eqn:Hp; [|apply prefix_nil].
  destruct (inv_printed T fut upw s rest Hi Hp) as (p & t & fut' & upw' & -> & Hr).
  destruct (heads_unfold k p t Hk) as (k' & Hk' & ->). cbn [take app].
  rewrite take_0. apply prefix_cons. destruct Hr as [->|[Hr|Hr]]; [apply prefix_nil|by eapply IH|].
  rewrite Hr. apply prefix_nil.
Qed.

Lemma printed_final T fut s rest k :
  inv T fut false (s :: rest) -> exited s = true -> (length T <= k)%nat -> printed T (s :: rest) = heads k T.
Proof.
  revert T fut s k. induction rest as [|n rest IH]; intros T fut s k Hi He Hk;
    pose proof (Hi) as [_ Hi'];
    cbn [inv] in Hi; destruct Hi as [_ Hi]; unfold exited in He; destruct (st_pc s) eqn:Hpc; try done;
    cbn [printed]; rewrite Hpc; cbn [has_printed];
    destruct Hi as (_ & _ & [[-> Hr]|(HT & Hi & (m & r & Hr & Hm))]); try done; try (by destruct k).
  injection Hr as <- <-. destruct T as [|p t]; [done|].
  destruct (heads_unfold k p t Hk) as (k' & Hk' & ->). cbn [take app]. rewrite take_0. cbn [app]. f_equal.
  by apply (IH _ [] n k').
Qed.

(** ** Termination *)

Definition rank (pc : spc) : nat :=
  match pc with
  | PNone => 20 | PChild => 19 | PStart => 18 | PRead => 17 | PReadAgain => 3
  | PPrint _ => 15 | PPipe _ => 14 | PFork _ => 13 | PCloseR _ => 12 | PWrite _ _ => 11 | PLoop _ => 10
  | PCloseW => 6 | PWait => 5 | PCloseIn => 2 | PExit => 1 | PFail => 0
  end.

(** The steps a stage that is not there yet and those behind it can take. *)
Fixpoint work (k : nat) (T : list Z) : nat :=
  match k with
  | O => 0
  | S k' => 20 + 2 * length T + work k' (nextT T)
  end.

Definition mfut (s : stage) (fut : list Z) : list Z :=
  match st_pc s with
  | PFork p | PCloseR p | PLoop p => filter (fun x => x mod p <> 0) (st_q s ++ fut)
  | PWrite p x => x :: filter (fun x => x mod p <> 0) (st_q s ++ fut)
  | _ => []
  end.

Fixpoint mu (k : nat) (T fut : list Z) (sts : list stage) : nat :=
  match sts with
  | [] => work k T
  | s :: rest => rank (st_pc s) + 2 * length (st_q s ++ fut) + mu (pred k) (nextT T) (mfut s fut) rest
  end.

Lemma mu_put k T fut x n r n' :
  inv T (x :: fut) true (n :: r) -> pipe_put x n = Some n' ->
  mu k T fut (n' :: r) = mu k T (x :: fut) (n :: r).
Proof.
  intros Hi Hp. unfold pipe_put in Hp. destruct (exited n) eqn:Hex.
  - exfalso. cbn [inv] in Hi. destruct Hi as [_ Hi]. unfold exited in Hex.
    destruct (st_pc n); try discriminate; [|done]. by destruct Hi as (_ & ? & _).
  - destruct (length (st_q n) <? CAP)%nat; [|done]. injection Hp as <-. cbn [mu st_pc st_q]. unfold mfut. cbn [st_pc st_q].
    by rewrite <- !app_assoc.
Qed.

Lemma stage_step_mu k T fut upw s rest s' nx' o :
  inv T fut upw (s :: rest) -> stage_step upw s (head rest) = Some (s', nx', o) -> (length T < k)%nat ->
  (mu k T fut (s' :: set_head nx' rest) < mu k T fut (s :: rest))%nat.
Proof.
  destruct s as [pc q]. cbn [inv st_pc st_q]. intros [Hf Hi] Hs Hk.
  destruct pc as [| | | | |p|p|p|p|p|p x| | | | |]; cbn in Hs; try discriminate.
  1,2: (destruct Hi as [_ ->]; injection Hs as <- <- <-; cbn; lia).
  - (* PRead *) destruct Hi as [_ ->]. destruct q as [|x q]; [destruct upw; [discriminate|]|];
      injection Hs as <- <- <-; cbn; lia.
  - (* PReadAgain *) destruct Hi as (_ & Hl & -> & ->). destruct q as [|x q]; [|done]. injection Hs as <- <- <-. cbn. lia.
  - (* PPrint *) destruct Hi as [_ ->]. injection Hs as <- <- <-. cbn. lia.
  - (* PPipe *) destruct Hi as [-> ->]. injection Hs as <- <- <-. cbn [set_head tail mu go st_pc st_q rank mfut app nextT].
    destruct k as [|[|k]]; cbn [length] in Hk; [lia|lia|]. cbn [pred work]. unfold mfut. cbn [st_pc st_q]. lia.
  - (* PFork *) destruct Hi as [_ ->]. injection Hs as <- <- <-. cbn. lia.
  - (* PCloseR *) injection Hs as <- <- <-. rewrite set_head_id. cbn. lia.
  - (* PLoop *) destruct q as [|x q].
    + destruct upw; [discriminate|]. injection Hs as <- <- <-. rewrite set_head_id. cbn [mu go st_pc st_q rank].
      unfold mfut. cbn [st_pc st_q]. rewrite (Hf eq_refl). cbn. lia.
    + injection Hs as <- <- <-. rewrite set_head_id. cbn [mu st_pc st_q app length]. unfold mfut. cbn [st_pc st_q app].
      rewrite filter_cons_mod. destruct (x mod p =? 0); cbn [rank]; lia.
  - (* PWrite *) destruct Hi as (_ & Hi & (n & r & -> & Hn)). cbn [head] in Hs.
    destruct (pipe_put x n) as [n'|] eqn:Hp; [|discriminate]. cbn in Hs. injection Hs as <- <- <-.
    pose proof (mu_put (pred k) _ _ _ _ _ _ Hi Hp) as Hmu. cbn [set_head tail].
    change (10 + 2 * length (q ++ fut) + mu (pred k) (nextT T) (filter (fun x => x mod p <> 0)%Z (q ++ fut)) (n' :: r) <
      11 + 2 * length (q ++ fut) + mu (pred k) (nextT T) (x :: filter (fun x => x mod p <> 0)%Z (q ++ fut)) (n :: r))%nat. lia.
  - injection Hs as <- <- <-. rewrite set_head_id. cbn. lia.
  - (* PWait *) destruct Hi as (_ & _ & _ & _ & (n & r & -> & Hn)). cbn [head] in Hs.
    destruct (exited n); [|discriminate]. injection Hs as <- <- <-. cbn. lia.
  - injection Hs as <- <- <-. rewrite set_head_id. cbn. lia.
Qed.

Lemma rest_fut_mfut s rest rest' T fut upw o :
  inv T fut upw (s :: rest) -> lstep (writes_next (st_pc s)) rest rest' o -> mfut s fut = rest_fut s fut.
Proof.
  intros Hi Hs. unfold mfut, rest_fut. destruct (st_pc s) eqn:Hpc; try done.
  cbn [inv] in Hi. rewrite Hpc in Hi. destruct Hi as [_ [_ ->]].
  inversion Hs as [? ? ? ? ? ? Hst|? ? ? ? ? Hst]; subst; [done|inversion Hst].
Qed.

Lemma lstep_mu k T fut upw sts sts' o :
  lstep upw sts sts' o -> inv T fut upw sts -> (length T < k)%nat -> (mu k T fut sts' < mu k T fut sts)%nat.
Proof.
  intros Hs. revert k T fut. induction Hs as [upw s rest s' nx' o Hst|upw s rest rest' o Hst IH]; intros k T fut Hi Hk.
  - by eapply stage_step_mu.
  - destruct (inv_rest T fut upw s rest rest' o Hi Hst) as (Hr & _ & Hp).
    destruct (inv_printed T fut upw s rest Hi Hp) as (p & t & _ & _ & -> & _).
    cbn [mu]. rewrite (rest_fut_mfut _ _ _ _ _ _ _ Hi Hst).
    pose proof (nextT_length p t). cbn [length] in Hk.
    specialize (IH (pred k) _ _ Hr ltac:(lia)). lia.
Qed.

Definition main_rank (n : Z) (f : mpc) : nat :=
  match f with
  | MPipe => 8 + Z.to_nat n | MFork => 7 + Z.to_nat n | MClose => 6 + Z.to_nat n
  | MFeed i => 4 + Z.to_nat (n + 1 - i) | MCloseW => 3 | MWait => 2 | MExit => 1
  end.

Definition net_mu (n : Z) (w : net) : nat :=
  main_rank n (n_main w) + mu (S (length (numbers n))) (numbers n) (main_fut n (n_main w)) (n_stages w).

Lemma nstep_mu n w w' : 1 <= n -> nstep n w w' -> ninv n w -> (net_mu n w' < net_mu n w)%nat.
Proof.
  intros Hn Hs [Hi Ho Hsh]. destruct Hs as [f sts out f' nx' Hm|f sts out sts' o Hl].
  - unfold net_mu. cbn [n_main n_stages] in *.
    destruct f as [| | |i| | |]; cbn [main_step shape main_fut mwrites] in *.
    + subst sts. injection Hm as <- <-. cbn [set_head tail mu st_pc st_q app rank main_rank main_fut].
      cbn [pred work]. lia.
    + subst sts. injection Hm as <- <-. cbn [set_head tail head mu st_pc st_q app rank main_rank main_fut go]. lia.
    + destruct Hsh as (s & r & -> & Hs). injection Hm as <- <-. cbn [head set_head tail main_rank main_fut].
      unfold numbers. replace (n + 1 - 2) with (n - 1) by lia. lia.
    + destruct Hsh as (Hin & s & r & -> & Hs). cbn [head] in Hm. destruct (Z.leb_spec i n).
      * destruct (pipe_put i s) as [s'|] eqn:Hp; [|done]. cbn in Hm. injection Hm as <- <-. cbn [set_head tail main_rank main_fut].
        rewrite (seqZ_cons i (n + 1 - i)) in Hi |- * by lia.
        replace (n + 1 - (i + 1)) with (Z.pred (n + 1 - i)) by lia. replace (i + 1) with (Z.succ i) by lia.
        rewrite (mu_put _ _ _ _ _ _ _ Hi Hp). lia.
      * injection Hm as <- <-. cbn [set_head tail main_rank main_fut]. rewrite seqZ_nil by lia. lia.
    + destruct Hsh as (s & r & -> & Hs). injection Hm as <- <-. cbn [head set_head tail main_rank main_fut]. lia.
    + destruct Hsh as (s & r & -> & Hs). cbn [head] in Hm. destruct (exited s); [|done].
      injection Hm as <- <-. cbn [set_head tail main_rank main_fut]. lia.
    + done.
  - unfold net_mu. cbn [n_main n_stages] in *. pose proof (lstep_mu (S (length (numbers n))) _ _ _ _ _ _ Hl Hi ltac:(lia)). lia.
Qed.

Lemma start_ninv n : ninv n net_start.
Proof. by split. Qed.

Lemma reach_ninv n w : 1 <= n -> rtc (nstep n) net_start w -> ninv n w.
Proof.
  intros Hn Hr. assert (H : forall w0, rtc (nstep n) w0 w -> ninv n w0 -> ninv n w).
  { clear Hr. intros w0 Hr. induction Hr as [|w0 w1 w Hs Hr IH]; [done|]. intros Hi. apply IH. by eapply nstep_ninv. }
  apply (H net_start); [done|apply start_ninv].
Qed.

(** C19 The sieve prints the primes.  Whatever the interleaving of the processes, at
    every moment the numbers printed so far are a prefix of the primes up to [n]
    in increasing order; the network is never stuck before [main] exits; and when
    [main] exits all of them have been printed.  ([pipe] and [fork] are taken to
    succeed: the source does not check them.) *)
Theorem primes_correct n w :
  1 <= n -> rtc (nstep n) net_start w ->
  n_out w `prefix_of` primes_upto n /\
  (n_main w = MExit \/ exists w', nstep n w w') /\
  (n_main w = MExit -> n_out w = primes_upto n).
Proof.
  intros Hn Hr. pose proof (reach_ninv n w Hn Hr) as Hi. pose proof Hi as [Hinv Ho Hsh].
  rewrite <- heads_numbers, Ho by done. split_and!.
  - by eapply printed_prefix.
  - by apply net_progress.
  - intros Hm. rewrite Hm in *. cbn in Hsh. destruct Hsh as (s & r & Hs & He). rewrite Hs in *.
    by eapply printed_final.
Qed.

(** C31 The sieve terminates: every execution, under any scheduling, takes at most
    a number of system calls that depends on [n] alone. *)
Theorem primes_terminates n k w :
  1 <= n -> nsteps (nstep n) k net_start w -> (k + net_mu n w <= net_mu n net_start)%nat.
Proof.
  intros Hn Hr. assert (H : forall w0, nsteps (nstep n) k w0 w -> ninv n w0 -> (k + net_mu n w <= net_mu n w0)%nat).
  { clear Hr. intros w0 Hr. induction Hr as [|k w0 w1 w Hs Hr IH]; [lia|]. intros Hi.
    pose proof (nstep_mu n w0 w1 Hn Hs Hi). pose proof (IH (nstep_ninv n w0 w1 Hn Hs Hi)). lia. }
  apply (H net_start); [done|apply start_ninv].
Qed.

(** ** A scheduler *)

Fixpoint lfirst (upw : bool) (sts : list stage) : option (list stage * list Z) :=
  match sts with
  | [] => None
  | s :: rest =>
      match stage_step upw s (head rest) with
      | Some (s', nx', o) => Some (s' :: set_head nx' rest, o)
      | None => '(rest', o) ← lfirst (writes_next (st_pc s)) rest; Some (s :: rest', o)
      end
  end.

Lemma lfirst_step upw sts sts' o : lfirst upw sts = Some (sts', o) -> lstep upw sts sts' o.
Proof.
  revert upw sts'. induction sts as [|s rest IH]; intros upw sts' Hl; [done|]. cbn in Hl.
  destruct (stage_step upw s (head rest)) as [[[s' nx'] o']|] eqn:E.
  - injection Hl as <- <-. by apply lstep_here.
  - destruct (lfirst _ rest) as [[rest' o']|] eqn:E'; [|done]. injection Hl as <- <-. by apply lstep_next, IH.
Qed.

Definition sched_step (n : Z) (w : net) : option net :=
  match main_step n (n_main w) (head (n_stages w)) with
  | Some (f', nx') => Some (mknet f' (set_head nx' (n_stages w)) (n_out w))
  | None => '(sts', o) ← lfirst (mwrites (n_main w)) (n_stages w); Some (mknet (n_main w) sts' (n_out w ++ o))
  end.

Fixpoint sched_run (k : nat) (n : Z) (w : net) : net :=
  match k with
  | O => w
  | S k' => match sched_step n w with Some w' => sched_run k' n w' | None => w end
  end.

Lemma sched_run_rtc k n w : rtc (nstep n) w (sched_run k n w).
Proof.
  revert w. induction k as [|k IH]; intros w; [apply rtc_refl|]. cbn.
  destruct (sched_step n w) as [w'|] eqn:E; [|apply rtc_refl]. eapply rtc_l; [|apply IH].
  unfold sched_step in E. destruct w as [f sts out]. cbn in *.
  destruct (main_step n f (head sts)) as [[f' nx']|] eqn:Em; [injection E as <-; by apply nstep_main|].
  destruct (lfirst (mwrites f) sts) as [[sts' o]|] eqn:El; [|done]. injection E as <-.
  by apply nstep_stage, lfirst_step.
Qed.

Lemma primes_correct_witness :
  n_main (sched_run 20000 280 net_start) = MExit /\
  n_out (sched_run 20000 280 net_start) = primes_upto 280 /\ length (primes_upto 280) = 59%nat.
Proof.
  assert (Hm : n_main (sched_run 20000 280 net_start) = MExit) by (vm_compute; reflexivity).
  destruct (primes_correct 280 (sched_run 20000 280 net_start)) as (_ & _ & H); [lia|apply sched_run_rtc|].
  split; [exact Hm|]. split; [apply H, Hm|vm_compute; reflexivity].
Defined.

Lemma primes_terminates_witness :
  exists w, nsteps (nstep 280) 1 net_start w /\ (1 + net_mu 280 w <= net_mu 280 net_start)%nat.
Proof.
  assert (Hs : nsteps (nstep 280) 1 net_start (mknet MFork [mkstage PNone []] [])).
  { apply nsteps_once. apply (nstep_main 280 MPipe [] [] MFork (Some (mkstage PNone []))). reflexivity. }
  eexists. split; [exact Hs|]. apply primes_terminates; [lia|exact Hs].
Defined.
